(* ===== verification/_CoqProject ===== *)
-Q . S2P
Prelude.v
Values.v
Proto.v
Propagation.v
Telemetry.v
RequestShapes.v
ShapesOutcomes.v
PricingDomain.v
PricingService.v
PricingStream.v
Database.v
Runtime.v
InventoryService.v
InventoryLedger.v
InventoryApi.v
CheckoutDomain.v
CheckoutQuote.v
CheckoutRecords.v
CheckoutOrders.v
CheckoutCart.v
CheckoutOutbox.v
CheckoutSteps.v
CheckoutRuns.v
CheckoutApi.v
CheckoutCartOutcomes.v
CheckoutEvolution.v
CheckoutTransactions.v
CheckoutDemo.v
CheckoutInvariants.v
CheckoutOutcomes.v
CheckoutOrderCreation.v
CheckoutSagas.v
CheckoutSagaRuns.v
CheckoutSagaOutcomes.v
CheckoutSettlement.v
CheckoutInventory.v
OrdersEnvelope.v
OrdersDelivery.v
OrdersOutcomes.v
OrdersApi.v
NotifyService.v
NotifyInvariants.v
NotifyOutcomes.v
StoreDomain.v
StoreUpstream.v
StoreSchema.v
StorePrices.v
StorePriceRuns.v
StoreOutcomes.v
Recommendation.v
RecommendationOutcomes.v
VerifyW3c.v
VerifyTraceGraph.v
VerifyCommerce.v
VerifyFindings.v
ScenarioCorpus.v
ScenarioTraces.v
ScenarioMalformed.v
ScenarioWaits.v
TaskCommands.v
TaskMigrations.v
TaskOutcomes.v
TestVerify.v
TestReport.v
Cli.v
Console.v
Fanout.v
Calendar.v
Selene.v
ScenarioScripts.v
ScenarioRuns.v
