(* ===== verification/Prelude.v ===== *)
(** * Verification of the Rust code of parallax-telemetry-playground

    The repository is a small commerce platform of independent services around
    one PostgreSQL database, with the command line tool that drives them and
    checks the telemetry they leave.  This development models the Rust half of
    it: the inventory, pricing, checkout, orders, notifications, storefront and
    recommendation services, the libraries they share, and the command line
    tool.  Definitions are executable and named as in the code, so that every
    concrete example is computed from them.

    ** The parts and how they interact

    A checkout request (services/checkout, [checkout_inner] in application.rs)
    claims an idempotency attempt, validates its items against the catalog,
    obtains a quote from pricing, creates a cart and an order, authorizes the
    payment, reserves the order's lines at the inventory service, captures,
    consumes the reservations, and marks the order paid together with an outbox
    event in one transaction.  When a step fails it undoes what the earlier ones
    did, under compensation tasks it has written before.  Three workers continue
    what a request left: the reconciliation of payments whose outcome is not
    known yet, the compensation tasks, and the publisher of the outbox.  All of
    them, and the inventory service, share the database; a checkout generation
    is identified by the lease token of its attempt, and every operation is
    fenced by that token.

    The orders service consumes order messages from RabbitMQ; it fences each
    event by a row of its inbox and republishes what it cannot complete.  The
    notifications service queues deliveries in tables of its own, and a worker
    claims them under leases and dispatches them.  The storefront is the GraphQL
    and REST face of the platform: it decodes and validates what its downstreams
    answer, and streams price changes from the catalog's journal.  The
    recommendation service ranks the catalog's products.

    The command line tool starts stacks and migrations, emits hand-built
    telemetry, runs scenarios against the services, and verifies the traces
    they leave: the connected graph of a commerce trace, the spans of an
    observable test run, the reports of test runs.

    ** Files

    Where a file holds several parts, each is a Module of it, named in
    parentheses; a file imports the modules it uses.  Paths are under src/.

    Shared.
    - Prelude: results, options, machine integers (i32, i64, u32, u64 as [Z] with
      their bounds written out), strings, JSON values, the tactics [res_inv],
      [bool_inv], [case_any], [div_lia] and the hint database of the results.
    - Values (Text, Float64, Serde): lemmas on text, IEEE 754 binary64 with the
      parsing of decimal text, decoding of JSON as serde's derives do it.
    - Proto: proto/src/gen.  Propagation and Telemetry:
      libs/playground-telemetry/src, propagation.rs and the other files.
    - Database (Schema, Transactions): deploy/postgres/migrations as finite maps
      of rows; SQL statements as operations of the transaction monad [Txn];
      [run_tx] runs one with the ways a driver can fail ([tx_fault]).
    - Runtime (Rabbit, Effects): publisher confirmations and header values; the
      monad of processes whose store others change too.

    services/pricing.  PricingDomain: domain.rs.  PricingService:
    infrastructure.rs, application.rs and the unary handler of api.rs.
    PricingStream: the streaming handler and its task.

    services/inventory.  InventoryService (InventoryDomain, Inventory):
    domain.rs and the transactions of infrastructure.rs.  InventoryLedger: the
    abstract specification, a ledger of elementary moves.  InventoryApi:
    application.rs, api.rs and the service's theorems (Demo: a database).

    services/checkout, operations.
    - CheckoutDomain: domain.rs and the validators of application.rs.
      CheckoutQuote: the catalog and pricing clients.
    - CheckoutRecords (CheckoutFence, CheckoutCompensation, CheckoutAttempts,
      CheckoutReconciliation), CheckoutOutbox: the stores of infrastructure.rs
      and the attempts of application.rs.  CheckoutOrders: the order.
      CheckoutCart, CheckoutApi: api.rs.
    - CheckoutSteps (CheckoutSaga, CheckoutPayments, CheckoutStock): the effects
      of a saga, and the payment and inventory clients.  [Saga A] runs against an
      [Environment] that chooses the clock, the UUIDs, every transaction's
      fault, the rows others have locked, every reply of a remote service, and
      what the rest of the system does to the database between two steps; the
      run logs each call together with the database it saw.
    - CheckoutRuns (CheckoutFlow, CheckoutWorkers): [checkout_inner],
      [checkout_flow] and the rounds of the workers.

    services/checkout, theorems.
    - CheckoutEvolution: the CHECK constraints, the lifecycle of each row, the
      preorder [evolves].  CheckoutTransactions: every transaction respects
      them.  CheckoutInvariants: the service as a step relation, any sequence of
      its transactions by any number of processes.  CheckoutOutcomes,
      CheckoutOrderCreation, CheckoutCartOutcomes: what single operations do.
    - CheckoutSagas (CheckoutSagaLogic, CheckoutSagaDemo): the judgement [runs].
      CheckoutSagaRuns: every saga is a sequence of steps and records a
      compensation before it sends it.  CheckoutSagaOutcomes: what the answers
      mean.  CheckoutSettlement (CheckoutRefunds, CheckoutAnswers): what is
      refunded, what is recorded.  CheckoutInventory: checkout against the
      inventory service's own handlers.  CheckoutDemo: concrete runs.

    services/orders.  OrdersEnvelope (OrdersMessage, OrdersHeaders): the message
    and its headers.  OrdersDelivery (OrdersInbox, OrdersConsumer): the inbox as
    steps, one delivery, its recovery, the reconnection.  OrdersOutcomes: the
    protocol of a delivery.  OrdersApi: the publish endpoint.

    services/notifications.  NotifyService (NotifyStore, NotifyWorker): store.rs,
    domain.rs, api.rs.  NotifyInvariants: the store as a step relation.
    NotifyOutcomes: the runs refine it.

    services/storefront.  StoreDomain: domain.rs.  StoreUpstream (StoreContext,
    StoreErrors, StoreClient), StoreSchema (StoreCommerce, StoreApi):
    application.rs and api.rs.  StorePrices, StorePriceRuns: the price-change
    subscription.  StoreOutcomes: the storefront against pricing and checkout.
    services/recommendation.  Recommendation, RecommendationOutcomes.

    cli, verification of traces (commerce_verify.rs).  VerifyW3c: headers.
    VerifyTraceGraph (VerifyGraph, VerifyGraphLemmas): the trace graph.
    VerifyCommerce: the checks.  VerifyFindings (VerifyChecks, VerifyOutcomes):
    what they establish.  TestVerify, TestReport: test_verify.rs, test_report.rs.

    cli, emitters.  RequestShapes (Shapes, ShapesTraces, ShapesCorpora),
    ShapesOutcomes: shapes.rs.  Console: console_sim.rs.  Fanout: fanout.rs.
    Calendar, Selene: selene.rs.  Cli: main.rs.

    cli, tasks (task_commands.rs).  TaskCommands, TaskMigrations, TaskOutcomes.

    cli, scenarios (scenario_runner.rs).  ScenarioCorpus (ScenarioRegistry,
    ScenarioOutcomes): the registry and the corpus.  ScenarioTraces: the evidence
    and the polling loop.  ScenarioWaits: the loops.  ScenarioMalformed: the
    corrupt carriers against the services.  ScenarioScripts (Script,
    ScenarioFlags), ScenarioRuns (ScenarioDrivers, ScenarioDriverOutcomes): the
    drivers as scripts over a host that answers their requests and commands.

    ** Theorems

    - Inventory: stock is conserved by every interleaving of the operations,
      consumed reservations stay consumed, each operation has the effect its
      answer claims, stale generations are refused, expired holds are released.
    - Checkout: every run of a saga, whatever the environment answers, refines
      the step relation of its transactions, so that the invariants of that
      relation (the CHECKs, final states, the exclusion of superseded
      generations, every paid order has its event) hold of the sagas.  A checkout
      answers [paid] only after capture, consumption and the committed
      finalization; a reconciliation completes only on an exact capture;
      compensations are written ahead, bounded and idempotent; orders record the
      quote; every answer is the recorded one.
    - Orders and notifications: claims are fencing tokens, handled events are
      final, a delivery follows its protocol with the broker, retries are
      deliverable and bounded, the workers refine the steps of the stores.
    - Between services: a quote that pricing calculates, a reservation, release
      or consumption that inventory answers, an order that the publish endpoint
      takes, and a checkout that the storefront sends are accepted on the other
      side; where they are not, the exception is a theorem too.
    - Pricing: the calculated quote, the cache key's collisions, the Redis
      generations, the snapshots of a stream.  Storefront: price changes come in
      order.  Recommendation: what is recommended and how much is retained.
    - Verification: the connectivity check accepts exactly the connected graphs,
      the fetched graph is closed under its links and the fetch ends, an accepted
      trace has the shape it claims; application descendants are found exactly.
    - Tools: what the emitters emit (identities, distributions, the console's
      journey, the fan-out's trace, the fixture's requests and its calendar),
      what the tasks leave (interrupted migrations resume, the managed stack is
      removed), what the scenarios put back, release and prove.

    ** Assumptions and bounds

    - Transactions are atomic: each is one function of the database, as READ
      COMMITTED with the row locks the code takes makes them; what happens
      between two statements of one transaction is not modelled.  Rows that SKIP
      LOCKED passes over are a parameter ([te_locked]).  CURRENT_TIMESTAMP is
      constant within a transaction; times are in microseconds.
    - Ids are keyed per tenant also where the primary key is global; foreign
      keys and the CHECKs that a column is not blank are not enforced; a
      RETURNING clause is a read of the row just written.  Texts of driver
      errors are parameters.  A column the driver could not decode (a NULL the
      code reads as not null) is a refused statement.
    - [load_pending_order] reads order and lines at once; waking a
      reconciliation is two steps, as its two statements are.  Delays, timeouts
      and the heartbeat of a lease are part of the environment.
    - Parsers and printers of JSON and XML, the propagator of OpenTelemetry, the
      url crate, HTTP clients, processes, files, UUIDs, clocks, the order of hash
      sets and the effect of a migration's SQL are parameters.  Arithmetic on
      [u64] wraps, as in a release build.  A scenario's error message that ends
      in a printed answer is kept up to that answer.
    - Loops of the services that the code bounds (consume attempts, compensation
      rounds, quote attempts) are structural recursions on that bound.  Loops
      that wait or search have fuel, with a theorem that it suffices: the fetch
      of a trace graph (the maximal number of traces), walks to a root (the
      number of spans), the exploration of a graph (one more than the total
      degree), the search for descendants, the polls of the scenario runner
      ([trace_wait_settles], [wait_until_returns]), the daemon's held executions
      ([held_ends]), the fan-out's backends ([backends_settle]) and the
      fixture's order, 46 turns ([fixture_ends]).

    ** Not modelled

    The Java, TypeScript and Swift services (payment, catalog and fulfillment
    enter as the answers they may give); the exporters and the SDK behind the
    feature flags; process start-up, connection pools, spans and metrics of the
    services, the loops around the workers' rounds and the declaration of the
    RabbitMQ topology; the storefront's readiness probes, its listener's wire
    protocol and WebSocket transport; the webhook listener; the drivers of
    product flows, browsers and agents of the scenario runner. *)

From Stdlib Require Export ZArith Lia Ascii String.
From stdpp Require Export base gmap strings list fin_maps pretty.

#[global] Open Scope string_scope.
#[global] Open Scope list_scope.
#[global] Open Scope Z_scope.

(** ** Results: Rust's [Result<T, E>] *)

Inductive result (E A : Type) : Type :=
| Ok (a : A)
| Err (e : E).
Arguments Ok {E A} _.
Arguments Err {E A} _.

Definition res_bind {E A B} (m : result E A) (k : A -> result E B) : result E B :=
  match m with
  | Ok a => k a
  | Err e => Err e
  end.

Definition res_map_err {E F A} (f : E -> F) (m : result E A) : result F A :=
  match m with
  | Ok a => Ok a
  | Err e => Err (f e)
  end.

(** [Option::ok_or_else] *)
Definition ok_or {E A} (o : option A) (e : E) : result E A :=
  match o with
  | Some a => Ok a
  | None => Err e
  end.

(** An early return [if !cond { return Err(e) }]. *)
Definition ensure {E} (cond : bool) (e : E) : result E unit :=
  if cond then Ok tt else Err e.

Definition is_ok {E A} (m : result E A) : bool :=
  match m with Ok _ => true | Err _ => false end.

Declare Scope result_scope.
Delimit Scope result_scope with res.
Notation "x <- m ;; k" := (res_bind m (fun x => k))
  (at level 100, m at next level, right associativity) : result_scope.
Notation "m ;; k" := (res_bind m (fun _ => k))
  (at level 100, right associativity) : result_scope.

Lemma res_bind_ok {E A B} (m : result E A) (k : A -> result E B) b :
  res_bind m k = Ok b <-> exists a, m = Ok a /\ k a = Ok b.
Proof. destruct m; simpl; naive_solver. Qed.

Lemma res_bind_err {E A B} (m : result E A) (k : A -> result E B) e :
  res_bind m k = Err e <-> m = Err e \/ exists a, m = Ok a /\ k a = Err e.
Proof. destruct m; simpl; naive_solver. Qed.

Lemma ensure_ok {E} c (e : E) u : ensure c e = Ok u <-> c = true.
Proof. destruct c, u; simpl; naive_solver. Qed.

Lemma ensure_err {E} c (e e' : E) : ensure c e = Err e' <-> c = false /\ e = e'.
Proof. destruct c; simpl; naive_solver. Qed.

Lemma ok_or_ok {E A} (o : option A) (e : E) a : ok_or o e = Ok a <-> o = Some a.
Proof. destruct o; simpl; naive_solver. Qed.

Create HintDb playground.
#[export] Hint Rewrite @res_bind_ok @ensure_ok @ok_or_ok : playground.

(** Invert every monadic hypothesis that ends in a success. *)
Ltac res_inv :=
  repeat match goal with
  | H : res_bind _ _ = Ok _ |- _ => apply res_bind_ok in H as (? & ? & ?)
  | H : ensure _ _ = Ok _ |- _ => apply ensure_ok in H
  | H : ok_or _ _ = Ok _ |- _ => apply ok_or_ok in H
  | H : Ok _ = Ok _ |- _ => injection H as H; subst
  | H : Err _ = Ok _ |- _ => discriminate H
  | H : Ok _ = Err _ |- _ => discriminate H
  | H : Err _ = Err _ |- _ => injection H as H; subst
  end.

(** Split boolean conjunctions and negations of the code's guards. *)
Ltac bool_inv :=
  repeat match goal with
  | H : _ && _ = true |- _ => apply andb_true_iff in H as [? ?]
  | H : _ || _ = false |- _ => apply orb_false_iff in H as [? ?]
  | H : negb _ = true |- _ => apply negb_true_iff in H
  | H : negb _ = false |- _ => apply negb_false_iff in H
  | H : String.eqb _ _ = true |- _ => apply String.eqb_eq in H
  | H : String.eqb _ _ = false |- _ => apply String.eqb_neq in H
  | H : (_ <=? _) = true |- _ => apply Z.leb_le in H
  | H : (_ <=? _) = false |- _ => apply Z.leb_gt in H
  | H : (_ <? _) = true |- _ => apply Z.ltb_lt in H
  | H : (_ <? _) = false |- _ => apply Z.ltb_ge in H
  | H : (_ =? _) = true |- _ => apply Z.eqb_eq in H
  | H : (_ =? _) = false |- _ => apply Z.eqb_neq in H
  | H : bool_decide _ = true |- _ => apply bool_decide_eq_true in H
  | H : bool_decide _ = false |- _ => apply bool_decide_eq_false in H
  end.

(** [lia] over quotients and remainders by constants. *)
Ltac div_lia := Z.to_euclidean_division_equations; lia.

(** Case analysis on the scrutinee of a match or a conditional. *)
Ltac case_any :=
  match goal with
  | H : context [match ?x with _ => _ end] |- _ => let E := fresh "E" in destruct x eqn:E
  | |- context [match ?x with _ => _ end] => let E := fresh "E" in destruct x eqn:E
  end.

(** ** Strings: Rust [&str] as its UTF-8 bytes *)

Definition byte_of (a : ascii) : N := N_of_ascii a.

(** One-byte members of Unicode White_Space. *)
Definition ws1 (a : ascii) : bool :=
  let n := byte_of a in ((9 <=? n) && (n <=? 13) || (n =? 32))%N.

(** U+0085 and U+00A0. *)
Definition ws2 (a b : ascii) : bool :=
  ((byte_of a =? 194) && ((byte_of b =? 133) || (byte_of b =? 160)))%N.

(** U+1680, U+2000-200A, U+2028, U+2029, U+202F, U+205F, U+3000. *)
Definition ws3 (a b c : ascii) : bool :=
  let a := byte_of a in let b := byte_of b in let c := byte_of c in
  ((a =? 225) && (b =? 154) && (c =? 128)
   || (a =? 226) && (b =? 128)
      && ((128 <=? c) && (c <=? 138) || (c =? 168) || (c =? 169) || (c =? 175))
   || (a =? 226) && (b =? 129) && (c =? 159)
   || (a =? 227) && (b =? 128) && (c =? 128))%N.

Fixpoint trim_start (s : string) : string :=
  match s with
  | "" => ""
  | String a r =>
      if ws1 a then trim_start r else
      match r with
      | "" => s
      | String b r1 =>
          if ws2 a b then trim_start r1 else
          match r1 with
          | "" => s
          | String c r2 => if ws3 a b c then trim_start r2 else s
          end
      end
  end.

Fixpoint str_rev_app (s acc : string) : string :=
  match s with
  | "" => acc
  | String a r => str_rev_app r (String a acc)
  end.
Definition str_rev (s : string) : string := str_rev_app s "".

(** [trim_end] on the reversed bytes. *)
Fixpoint trim_start_rev (s : string) : string :=
  match s with
  | "" => ""
  | String c r =>
      if ws1 c then trim_start_rev r else
      match r with
      | "" => s
      | String b r1 =>
          if ws2 b c then trim_start_rev r1 else
          match r1 with
          | "" => s
          | String a r2 => if ws3 a b c then trim_start_rev r2 else s
          end
      end
  end.

(** [str::trim] *)
Definition trim (s : string) : string := str_rev (trim_start_rev (str_rev (trim_start s))).

(** [s.is_empty()] and [s.trim().is_empty()] *)
Definition is_empty (s : string) : bool := String.eqb s "".
Definition is_blank (s : string) : bool := is_empty (trim s).

(** [s.len()]: the number of bytes. *)
Definition str_len (s : string) : Z := Z.of_nat (String.length s).

(** [s.chars().any(char::is_control)]: U+0000-001F, U+007F-009F. *)
Fixpoint has_control (s : string) : bool :=
  match s with
  | "" => false
  | String a r =>
      let n := byte_of a in
      ((n <? 32) || (n =? 127))%N
      || match r with
         | String b _ => ((n =? 194) && (128 <=? byte_of b) && (byte_of b <=? 159))%N
         | "" => false
         end
      || has_control r
  end.

Fixpoint str_forallb (p : ascii -> bool) (s : string) : bool :=
  match s with
  | "" => true
  | String a r => p a && str_forallb p r
  end.

Fixpoint str_map (f : ascii -> ascii) (s : string) : string :=
  match s with
  | "" => ""
  | String a r => String (f a) (str_map f r)
  end.

Definition is_upper (a : ascii) : bool := (65 <=? byte_of a)%N && (byte_of a <=? 90)%N.
Definition is_lower (a : ascii) : bool := (97 <=? byte_of a)%N && (byte_of a <=? 122)%N.
Definition is_digit (a : ascii) : bool := (48 <=? byte_of a)%N && (byte_of a <=? 57)%N.
Definition is_alphabetic (a : ascii) : bool := is_upper a || is_lower a.
Definition is_alphanumeric (a : ascii) : bool := is_alphabetic a || is_digit a.

Definition to_upper (a : ascii) : ascii :=
  if is_lower a then ascii_of_N (byte_of a - 32) else a.
Definition to_lower (a : ascii) : ascii :=
  if is_upper a then ascii_of_N (byte_of a + 32) else a.
Definition to_ascii_uppercase : string -> string := str_map to_upper.
Definition to_ascii_lowercase : string -> string := str_map to_lower.

(** [Option<&str>::filter(|v| !v.is_empty())] and its [trim] variant *)
Definition non_empty (o : option string) : option string :=
  match o with
  | Some s => if is_empty s then None else Some s
  | None => None
  end.
Definition non_blank (o : option string) : option string :=
  match o with
  | Some s => if is_blank s then None else Some s
  | None => None
  end.

(** [Option<&str> == Some(s)] *)
Definition opt_is (o : option string) (s : string) : bool :=
  match o with
  | Some t => String.eqb t s
  | None => false
  end.

Lemma opt_is_true o s : opt_is o s = true <-> o = Some s.
Proof.
  destruct o as [t|]; simpl; [|naive_solver].
  rewrite String.eqb_eq. naive_solver.
Qed.

(** [matches!(s, "a" | "b" | ...)] *)
Definition one_of (s : string) (l : list string) : bool := existsb (String.eqb s) l.

Lemma one_of_In s l : one_of s l = true <-> In s l.
Proof.
  unfold one_of. rewrite existsb_exists. setoid_rewrite String.eqb_eq. naive_solver.
Qed.

(** Decimal rendering of an integer, as [format!("{n}")] writes it. *)
Definition show_Z (n : Z) : string := pretty n.

(** ** Machine integers *)

Definition i32_min : Z := -2147483648.
Definition i32_max : Z := 2147483647.
Definition i64_min : Z := -9223372036854775808.
Definition i64_max : Z := 9223372036854775807.
Definition u32_max : Z := 4294967295.
Definition u64_modulus : Z := 18446744073709551616.

Definition fits_i32 (n : Z) : bool := (i32_min <=? n) && (n <=? i32_max).
Definition fits_i64 (n : Z) : bool := (i64_min <=? n) && (n <=? i64_max).
Definition fits_u32 (n : Z) : bool := (0 <=? n) && (n <=? u32_max).

(** [i64::checked_*] and [u32::checked_add] *)
Definition i64_checked (n : Z) : option Z := if fits_i64 n then Some n else None.
Definition checked_add (a b : Z) : option Z := i64_checked (a + b).
Definition checked_sub (a b : Z) : option Z := i64_checked (a - b).
Definition checked_mul (a b : Z) : option Z := i64_checked (a * b).
Definition u32_checked_add (a b : Z) : option Z :=
  if fits_u32 (a + b) then Some (a + b) else None.

Lemma i64_checked_some n m : i64_checked n = Some m <-> n = m /\ i64_min <= n <= i64_max.
Proof.
  unfold i64_checked, fits_i64. destruct (_ && _) eqn:E.
  - apply andb_true_iff in E as [?%Z.leb_le ?%Z.leb_le]. naive_solver.
  - split; [done|]. intros [-> ?]. apply andb_false_iff in E as [E|E];
      apply Z.leb_gt in E; lia.
Qed.
#[export] Hint Rewrite i64_checked_some : playground.

(** [i32::saturating_mul] and [saturating_pow], [Ord::clamp] *)
Definition i32_saturate (n : Z) : Z := Z.max i32_min (Z.min i32_max n).
Definition i32_saturating_mul (a b : Z) : Z := i32_saturate (a * b).
Definition i32_saturating_pow (b e : Z) : Z := i32_saturate (b ^ e).
Definition clamp (n lo hi : Z) : Z := Z.max lo (Z.min hi n).

(** [str::parse::<u64>()]: an optional plus sign and at least one digit. *)
Fixpoint parse_digits (s : string) (acc : Z) : option Z :=
  match s with
  | "" => Some acc
  | String a r =>
      if is_digit a then
        let acc' := acc * 10 + (Z.of_N (byte_of a) - 48) in
        if acc' <? u64_modulus then parse_digits r acc' else None
      else None
  end.
Definition parse_u64 (s : string) : option Z :=
  match s with
  | "" => None
  | String a r =>
      if (byte_of a =? 43)%N then (if is_empty r then None else parse_digits r 0)
      else parse_digits s 0
  end.

(** ** JSON values ([serde_json::Value]) *)

Inductive json : Type :=
| JNull
| JBool (b : bool)
| JNum (n : Z)
| JReal (text : string)
| JStr (s : string)
| JArr (l : list json)
| JObj (fields : list (string * json)).

Fixpoint assoc {V} (k : string) (l : list (string * V)) : option V :=
  match l with
  | [] => None
  | (k', v) :: r => if String.eqb k k' then Some v else assoc k r
  end.

(** [Map::insert]: replace the value of a present key, add an absent one.
    The order of the fields carries no meaning. *)
Fixpoint assoc_insert {V} (k : string) (v : V) (l : list (string * V)) : list (string * V) :=
  match l with
  | [] => [(k, v)]
  | (k', v') :: r => if String.eqb k k' then (k, v) :: r else (k', v') :: assoc_insert k v r
  end.

Lemma assoc_insert_eq {V} k (v : V) l : assoc k (assoc_insert k v l) = Some v.
Proof.
  induction l as [|[k' v'] r IH]; simpl; [by rewrite String.eqb_refl|].
  destruct (String.eqb k k') eqn:E; simpl; [by rewrite String.eqb_refl|by rewrite E].
Qed.

Lemma assoc_insert_ne {V} k k' (v : V) l : k <> k' -> assoc k' (assoc_insert k v l) = assoc k' l.
Proof.
  intros Hne. induction l as [|[k0 v0] r IH]; simpl.
  - by destruct (String.eqb_spec k' k); [subst|].
  - destruct (String.eqb_spec k k0) as [->|]; simpl.
    + by destruct (String.eqb_spec k' k0); [subst|].
    + by rewrite IH.
Qed.

(** [value.get(key)] *)
Definition jget (k : string) (v : json) : option json :=
  match v with
  | JObj fields => assoc k fields
  | _ => None
  end.
Definition as_str (v : json) : option string :=
  match v with JStr s => Some s | _ => None end.
Definition jget_str (k : string) (v : json) : option string := jget k v ≫= as_str.

(** serde's derived [Deserialize] of a struct: an object with the fields, or an
    array of exactly the fields in order. *)
Definition struct_fields (names : list string) (v : json) : option (list json) :=
  match v with
  | JObj _ => mapM (fun name => jget name v) names
  | JArr vs => if Nat.eqb (length vs) (length names) then Some vs else None
  | _ => None
  end.

Definition as_int (lo hi : Z) (v : json) : option Z :=
  match v with
  | JNum n => if (lo <=? n) && (n <=? hi) then Some n else None
  | _ => None
  end.

(** serde's decoding of a required field at a fixed type *)
Definition jfield_str (k : string) (v : json) : option string := jget_str k v.
Definition jfield_int (lo hi : Z) (k : string) (v : json) : option Z :=
  match jget k v with
  | Some (JNum n) => if (lo <=? n) && (n <=? hi) then Some n else None
  | _ => None
  end.
Definition jfield_u32 := jfield_int 0 u32_max.
Definition jfield_i64 := jfield_int i64_min i64_max.
Definition jfield_usize := jfield_int 0 (u64_modulus - 1).

(** ** Tables: SQL [UPDATE ... WHERE] on a finite map of rows *)

(** One row addressed by its key: the number of rows changed and the table. *)
Definition update_row {K V} `{Countable K} (k : K) (where_ : V -> bool) (set_ : V -> V)
    (t : gmap K V) : nat * gmap K V :=
  match t !! k with
  | Some v => if where_ v then (1%nat, <[k := set_ v]> t) else (0%nat, t)
  | None => (0%nat, t)
  end.

(** Every row that satisfies the condition. *)
Definition update_rows {K V} `{Countable K} (where_ : K -> V -> bool) (set_ : V -> V)
    (t : gmap K V) : nat * gmap K V :=
  (List.length (List.filter (fun kv => where_ kv.1 kv.2) (map_to_list t)),
   map_imap (fun k v => Some (if where_ k v then set_ v else v)) t).

(** [EXISTS (SELECT 1 FROM t WHERE ...)] *)
Definition exists_row {K V} `{Countable K} (where_ : K -> V -> bool) (t : gmap K V) : bool :=
  existsb (fun kv => where_ kv.1 kv.2) (map_to_list t).

Section tables.
Context {K V : Type} `{Countable K}.
Implicit Types (t : gmap K V) (k : K) (v : V).

Lemma update_row_count k w f t n t' :
  update_row k w f t = (n, t') -> (n = 0 \/ n = 1)%nat.
Proof. unfold update_row. repeat case_match; naive_solver. Qed.

Lemma update_row_one k w f t t' :
  update_row k w f t = (1%nat, t') <->
  exists v, t !! k = Some v /\ w v = true /\ t' = <[k := f v]> t.
Proof.
  unfold update_row. destruct (t !! k) as [v|]; [destruct (w v) eqn:E|]; split.
  all: try (intros [=]; subst; by exists v).
  all: try (intros (? & ? & ? & ?); simplify_eq; congruence).
  all: intros [=].
Qed.

Lemma update_row_zero k w f t n t' :
  update_row k w f t = (n, t') -> n <> 1%nat -> t' = t /\ n = 0%nat.
Proof. unfold update_row. repeat case_match; naive_solver. Qed.

Lemma update_row_lookup k w f t k' :
  (update_row k w f t).2 !! k' =
  if decide (k' = k) then (fun v => if w v then f v else v) <$> t !! k else t !! k'.
Proof.
  unfold update_row. destruct (t !! k) as [v|] eqn:E.
  - destruct (w v) eqn:W; simpl; case_decide; subst; rewrite ?E; simpl; rewrite ?W.
    + by rewrite lookup_insert_eq.
    + by rewrite lookup_insert_ne.
    + done.
    + done.
  - simpl. case_decide; by subst.
Qed.

Lemma update_rows_lookup w f t k :
  (update_rows w f t).2 !! k = (fun v => if w k v then f v else v) <$> t !! k.
Proof. unfold update_rows; simpl. rewrite map_lookup_imap. by destruct (t !! k). Qed.

Lemma exists_row_true w t :
  exists_row w t = true <-> exists k v, t !! k = Some v /\ w k v = true.
Proof.
  unfold exists_row. rewrite existsb_exists. split.
  - intros ([k v] & Hin & Hw). exists k, v. split; [|done].
    apply list_elem_of_In in Hin. by apply elem_of_map_to_list.
  - intros (k & v & Hk & Hw). exists (k, v). split; [|done].
    apply list_elem_of_In. by apply elem_of_map_to_list.
Qed.

Lemma exists_row_false w t :
  exists_row w t = false <-> forall k v, t !! k = Some v -> w k v = false.
Proof.
  rewrite <- not_true_iff_false, exists_row_true. split.
  - intros Hn k v Hk. destruct (w k v) eqn:E; [|done]. exfalso. eauto.
  - intros Hall (k & v & Hk & Hw). specialize (Hall k v Hk). congruence.
Qed.
End tables.

(** [SUM(...)] over the rows of a table *)
Definition sum_rows {K V} `{Countable K} (f : K -> V -> Z) (t : gmap K V) : Z :=
  map_fold (fun k v acc => f k v + acc) 0 t.

Section sums.
Context {K V : Type} `{Countable K}.
Implicit Types (t : gmap K V) (f : K -> V -> Z).

Lemma sum_rows_empty f : sum_rows f (∅ : gmap K V) = 0.
Proof. apply map_fold_empty. Qed.

Lemma sum_rows_fresh f t k v :
  t !! k = None -> sum_rows f (<[k := v]> t) = f k v + sum_rows f t.
Proof. intros Hk. unfold sum_rows. rewrite map_fold_insert_L; [done| |done]. intros; lia. Qed.

Lemma sum_rows_lookup f t k v :
  t !! k = Some v -> sum_rows f t = f k v + sum_rows f (delete k t).
Proof.
  intros Hk. unfold sum_rows. rewrite (map_fold_delete_L _ _ k v); [done| |done]. intros; lia.
Qed.

Lemma sum_rows_insert f t k v v' :
  t !! k = Some v -> sum_rows f (<[k := v']> t) = sum_rows f t - f k v + f k v'.
Proof.
  intros Hk. rewrite (sum_rows_lookup f t k v Hk).
  rewrite <- (insert_delete_eq t k v'), sum_rows_fresh by apply lookup_delete_eq. lia.
Qed.

Lemma sum_rows_nonneg f t : (forall k v, t !! k = Some v -> 0 <= f k v) -> 0 <= sum_rows f t.
Proof.
  induction t as [|k v t Hk IH] using map_ind; intros Hf; [by rewrite sum_rows_empty|].
  rewrite sum_rows_fresh by done.
  assert (0 <= f k v) by (apply Hf; by rewrite lookup_insert_eq).
  enough (0 <= sum_rows f t) by lia. apply IH. intros k' v' Hk'. apply Hf.
  rewrite lookup_insert_ne by congruence. done.
Qed.

Lemma sum_rows_ge f t k v :
  (forall k v, t !! k = Some v -> 0 <= f k v) -> t !! k = Some v -> f k v <= sum_rows f t.
Proof.
  intros Hf Hk. rewrite (sum_rows_lookup f t k v Hk).
  enough (0 <= sum_rows f (delete k t)) by lia. apply sum_rows_nonneg.
  intros k' v' Hd. apply lookup_delete_Some in Hd as [_ Hd]. eauto.
Qed.

Lemma sum_rows_ext f g t :
  (forall k v, t !! k = Some v -> f k v = g k v) -> sum_rows f t = sum_rows g t.
Proof.
  induction t as [|k v t Hk IH] using map_ind; intros Hf; [by rewrite !sum_rows_empty|].
  rewrite !sum_rows_fresh by done. rewrite IH, Hf; [done| |].
  - by rewrite lookup_insert_eq.
  - intros k' v' Hk'. apply Hf. rewrite lookup_insert_ne; congruence.
Qed.

(** A condition that singles out one row updates that row. *)
Lemma update_rows_single (w : K -> V -> bool) g t k v :
  t !! k = Some v -> w k v = true ->
  (forall k' v', t !! k' = Some v' -> w k' v' = true -> k' = k) ->
  update_rows w g t = (1%nat, <[k := g v]> t).
Proof.
  intros Hk Hw Hu. unfold update_rows. f_equal.
  - assert (Hp : List.filter (fun kv => w kv.1 kv.2) (map_to_list t) ≡ₚ [(k, v)]).
    { transitivity (List.filter (fun kv => w kv.1 kv.2) ((k, v) :: map_to_list (delete k t))).
      - assert (Hf : forall l l' : list (K * V), l ≡ₚ l' ->
          List.filter (fun kv => w kv.1 kv.2) l ≡ₚ List.filter (fun kv => w kv.1 kv.2) l').
        { induction 1; simpl; [done| | |by etransitivity].
          - destruct (w x.1 x.2); [by apply perm_skip|done].
          - destruct (w x.1 x.2), (w y.1 y.2); try apply perm_swap; done. }
        apply Hf. symmetry. by apply map_to_list_delete.
      - simpl. rewrite Hw. f_equiv.
        enough (List.filter (fun kv => w kv.1 kv.2) (map_to_list (delete k t)) = []) as -> by done.
        destruct (List.filter (fun kv => w kv.1 kv.2) (map_to_list (delete k t))) as [|[k' v'] r] eqn:E; [done|].
        exfalso. assert (Hin : In (k', v') ((k', v') :: r)) by by left. rewrite <- E in Hin.
        apply filter_In in Hin as [Hin Hw']. apply list_elem_of_In, elem_of_map_to_list in Hin.
        apply lookup_delete_Some in Hin as [Hne Hin]. apply Hne. symmetry. by eapply Hu. }
    apply Permutation_length in Hp. done.
  - apply map_eq. intros k'. rewrite map_lookup_imap.
    destruct (decide (k' = k)) as [->|Hne].
    + rewrite lookup_insert_eq, Hk. simpl. by rewrite Hw.
    + rewrite lookup_insert_ne by done. destruct (t !! k') as [v'|] eqn:E; [|done]. simpl.
      destruct (w k' v') eqn:Ew; [|done]. exfalso. by eapply Hne, Hu.
Qed.

Lemma update_rows_some (w : K -> V -> bool) g t :
  (update_rows w g t).1 <> 0%nat -> exists k v, t !! k = Some v /\ w k v = true.
Proof.
  unfold update_rows. simpl. intros Hn.
  destruct (List.filter (fun kv => w kv.1 kv.2) (map_to_list t)) as [|[k v] r] eqn:E; [done|].
  assert (Hin : In (k, v) ((k, v) :: r)) by by left. rewrite <- E in Hin.
  apply filter_In in Hin as [Hin Hw]. exists k, v. split; [|done].
  by apply list_elem_of_In, elem_of_map_to_list in Hin.
Qed.

Lemma update_rows_none (w : K -> V -> bool) g t :
  (forall k v, t !! k = Some v -> w k v = false) -> update_rows w g t = (0%nat, t).
Proof.
  intros Hn. unfold update_rows. f_equal.
  - destruct (List.filter (fun kv => w kv.1 kv.2) (map_to_list t)) as [|[k v] r] eqn:E; [done|].
    exfalso. assert (Hin : In (k, v) ((k, v) :: r)) by by left. rewrite <- E in Hin.
    apply filter_In in Hin as [Hin Hw]. apply list_elem_of_In, elem_of_map_to_list in Hin.
    simpl in Hw. rewrite (Hn _ _ Hin) in Hw. done.
  - apply map_eq. intros k. rewrite map_lookup_imap. destruct (t !! k) as [v|] eqn:E; [|done].
    simpl. by rewrite (Hn _ _ E).
Qed.
End sums.

(** SQL comparisons of a nullable timestamp with CURRENT_TIMESTAMP *)
Definition after_now (t : option Z) (now : Z) : bool :=
  match t with Some x => now <? x | None => false end.
Definition not_after_now (t : option Z) (now : Z) : bool :=
  match t with Some x => x <=? now | None => false end.

(** Timestamps are counted in microseconds. *)
Definition seconds (n : Z) : Z := n * 1000000.
