(* ===== verification/Values.v ===== *)
(** Text, floating point and decoding: what the services read from the values they are given. *)

From Stdlib Require Import SpecFloat.
From S2P Require Import Prelude.

(** [str::contains], and lemmas on trimmed text: [str::trim] is idempotent, so a trimmed value that
    is not empty is not blank. *)
Module Text.

(** [haystack.contains(needle)] *)
Fixpoint starts_with (p s : string) : bool :=
  match p, s with
  | "", _ => true
  | String a p', String b s' => Ascii.eqb a b && starts_with p' s'
  | _, _ => false
  end.
Fixpoint str_contains (p s : string) : bool :=
  starts_with p s || match s with "" => false | String _ s' => str_contains p s' end.

Definition eq_ignore_ascii_case (a b : string) : bool :=
  String.eqb (to_ascii_lowercase a) (to_ascii_lowercase b).

(** [HeaderValue::try_from]: no control byte but the tab. *)
Definition header_byte (a : ascii) : bool :=
  (byte_of a =? 9)%N || ((32 <=? byte_of a) && negb (byte_of a =? 127))%N.
Definition header_text (value : string) : bool := str_forallb header_byte value.

(** Whitespace at the start of a string, and at the end of a reversed one. *)
Definition starts_white (s : string) : bool :=
  match s with
  | "" => false
  | String a r => ws1 a || match r with
      | "" => false
      | String b r1 => ws2 a b || match r1 with "" => false | String c _ => ws3 a b c end
      end
  end.
Definition starts_white_rev (s : string) : bool :=
  match s with
  | "" => false
  | String c r => ws1 c || match r with
      | "" => false
      | String b r1 => ws2 b c || match r1 with "" => false | String a _ => ws3 a b c end
      end
  end.

Lemma string_len_ind (P : string -> Prop) :
  (forall s, (forall t, (String.length t < String.length s)%nat -> P t) -> P s) -> forall s, P s.
Proof. intros H s. apply (well_founded_induction (well_founded_ltof _ String.length)). exact H. Qed.

Lemma trim_start_clean s : starts_white (trim_start s) = false.
Proof.
  induction s as [s IH] using string_len_ind. destruct s as [|a r]; [done|]. simpl.
  destruct (ws1 a) eqn:E1; [apply IH; simpl; lia|]. destruct r as [|b r1]; [simpl; by rewrite E1|].
  destruct (ws2 a b) eqn:E2; [apply IH; simpl; lia|]. destruct r1 as [|c r2]; [simpl; by rewrite E1, E2|].
  destruct (ws3 a b c) eqn:E3; [apply IH; simpl; lia|]. simpl. by rewrite E1, E2, E3.
Qed.

Lemma trim_start_rev_clean s : starts_white_rev (trim_start_rev s) = false.
Proof.
  induction s as [s IH] using string_len_ind. destruct s as [|a r]; [done|]. simpl.
  destruct (ws1 a) eqn:E1; [apply IH; simpl; lia|]. destruct r as [|b r1]; [simpl; by rewrite E1|].
  destruct (ws2 b a) eqn:E2; [apply IH; simpl; lia|]. destruct r1 as [|c r2]; [simpl; by rewrite E1, E2|].
  destruct (ws3 c b a) eqn:E3; [apply IH; simpl; lia|]. simpl. by rewrite E1, E2, E3.
Qed.

Lemma trim_start_same s : starts_white s = false -> trim_start s = s.
Proof.
  destruct s as [|a r]; [done|]. simpl. intros [-> H]%orb_false_iff. destruct r as [|b r1]; [done|].
  apply orb_false_iff in H as [-> H]. destruct r1 as [|c r2]; [done|]. by rewrite H.
Qed.

Lemma trim_start_rev_same s : starts_white_rev s = false -> trim_start_rev s = s.
Proof.
  destruct s as [|a r]; [done|]. simpl. intros [-> H]%orb_false_iff. destruct r as [|b r1]; [done|].
  apply orb_false_iff in H as [-> H]. destruct r1 as [|c r2]; [done|]. by rewrite H.
Qed.

Lemma starts_white_prefix p q : starts_white (p +:+ q) = false -> starts_white p = false.
Proof.
  destruct p as [|a p]; [done|]. simpl. intros [-> H]%orb_false_iff. destruct p as [|b p]; [done|].
  simpl in H. apply orb_false_iff in H as [-> H]. by destruct p as [|c p].
Qed.

Lemma str_append_cons a s t : String a s +:+ t = String a (s +:+ t).
Proof. done. Qed.

Lemma str_append_nil s : s +:+ "" = s.
Proof. induction s as [|a s IH]; [done|]. by rewrite str_append_cons, IH. Qed.

Lemma str_append_assoc a b c : (a +:+ b) +:+ c = a +:+ (b +:+ c).
Proof. induction a as [|x a IH]; [done|]. by rewrite !str_append_cons, IH. Qed.

Lemma rev_append_spec s acc : str_rev_app s acc = str_rev s +:+ acc.
Proof.
  unfold str_rev. revert acc. induction s as [|a s IH]; intros acc; [done|]. simpl.
  by rewrite (IH (String a acc)), (IH (String a "")), str_append_assoc.
Qed.

Lemma str_rev_cons a s : str_rev (String a s) = str_rev s +:+ String a "".
Proof. unfold str_rev at 1. simpl. apply rev_append_spec. Qed.

Lemma str_rev_append s t : str_rev (s +:+ t) = str_rev t +:+ str_rev s.
Proof.
  induction s as [|a s IH]; [by rewrite str_append_nil|].
  by rewrite str_append_cons, !str_rev_cons, IH, str_append_assoc.
Qed.

Lemma str_rev_involutive s : str_rev (str_rev s) = s.
Proof. induction s as [|a s IH]; [done|]. rewrite str_rev_cons, str_rev_append, IH. done. Qed.

Lemma trim_start_rev_suffix s : exists x, s = x +:+ trim_start_rev s.
Proof.
  induction s as [s IH] using string_len_ind. destruct s as [|a r]; [by exists ""|]. simpl.
  destruct (ws1 a).
  { destruct (IH r) as [x Hx]; [simpl; lia|]. exists (String a x). rewrite str_append_cons. by rewrite <- Hx. }
  destruct r as [|b r1]; [by exists ""|]. destruct (ws2 b a).
  { destruct (IH r1) as [x Hx]; [simpl; lia|]. exists (String a (String b x)). rewrite !str_append_cons. by rewrite <- Hx. }
  destruct r1 as [|c r2]; [by exists ""|]. destruct (ws3 c b a); [|by exists ""].
  destruct (IH r2) as [x Hx]; [simpl; lia|]. exists (String a (String b (String c x))).
  rewrite !str_append_cons. by rewrite <- Hx.
Qed.

Lemma trim_idempotent s : trim (trim s) = trim s.
Proof.
  unfold trim. set (u := trim_start s). destruct (trim_start_rev_suffix (str_rev u)) as [x Hx].
  set (v := trim_start_rev (str_rev u)) in *.
  assert (Hu : u = str_rev v +:+ str_rev x).
  { rewrite <- (str_rev_involutive u), Hx. apply str_rev_append. }
  rewrite (trim_start_same (str_rev v)).
  - rewrite str_rev_involutive. by rewrite (trim_start_rev_same v) by apply trim_start_rev_clean.
  - apply (starts_white_prefix _ (str_rev x)). rewrite <- Hu. apply trim_start_clean.
Qed.

Lemma trimmed_not_blank s : is_empty (trim s) = false -> is_blank (trim s) = false.
Proof. unfold is_blank. by rewrite trim_idempotent. Qed.

End Text.

(** Rust's [f64]: IEEE 754 binary64 on [spec_float], its arithmetic, its
    comparison, and [str::parse::<f64>()] with its correct rounding. *)
Module Float64.

Definition f64_prec : Z := 53.
Definition f64_emax : Z := 1024.
(** [n as f64] *)
Definition f64_of_Z (n : Z) : spec_float := binary_normalize f64_prec f64_emax n 0 false.
Definition f64_mul : spec_float -> spec_float -> spec_float := SFmul f64_prec f64_emax.
Definition f64_div : spec_float -> spec_float -> spec_float := SFdiv f64_prec f64_emax.
Definition is_finite (x : spec_float) : bool :=
  match x with S754_zero _ | S754_finite _ _ _ => true | _ => false end.

Definition f64_le (x y : spec_float) : bool := SFleb x y.

(** [m / 10^k], rounded once *)
Definition f64_decimal (negative : bool) (m : positive) (k : Z) : spec_float :=
  let '(q, e, l) := SFdiv_core_binary f64_prec f64_emax (Zpos m) 0 (10 ^ k) 0 in
  binary_round_aux f64_prec f64_emax negative q e l.

(** The leading digits of a text and what follows them *)
Fixpoint take_digits (s : string) : string * string :=
  match s with
  | "" => ("", "")
  | String a r => if is_digit a then let '(d, rest) := take_digits r in (String a d, rest) else ("", s)
  end.
Fixpoint digits_value (s : string) (acc : Z) : Z :=
  match s with "" => acc | String a r => digits_value r (acc * 10 + (Z.of_N (byte_of a) - 48)) end.

(** An exponent: nothing, or [e] with an optional sign and at least one digit *)
Definition parse_exponent (s : string) : option Z :=
  match s with
  | "" => Some 0
  | String a r =>
      if Ascii.eqb (to_lower a) "e" then
        let '(negative, ds) := match r with
          | String "+" r' => (false, r') | String "-" r' => (true, r') | _ => (false, r) end in
        let '(d, rest) := take_digits ds in
        if is_empty d || negb (is_empty rest) then None
        else Some (if negative then - digits_value d 0 else digits_value d 0)
      else None
  end.

(** [str::parse::<f64>()] *)
Definition parse_f64 (text : string) : option spec_float :=
  let '(negative, s) := match text with
    | String "+" r => (false, r) | String "-" r => (true, r) | _ => (false, text) end in
  let word := to_ascii_lowercase s in
  if one_of word ["inf"; "infinity"] then Some (S754_infinity negative)
  else if String.eqb word "nan" then Some S754_nan
  else
    let '(whole, rest) := take_digits s in
    let '(fraction, rest) := match rest with String "." r => take_digits r | _ => ("", rest) end in
    if is_empty whole && is_empty fraction then None
    else
      exponent ← parse_exponent rest;
      let scale := exponent - Z.of_nat (String.length fraction) in
      Some match digits_value (whole +:+ fraction) 0 with
        | Zpos m =>
            if 0 <=? scale then binary_normalize f64_prec f64_emax
              (if negative then - (Zpos m * 10 ^ scale) else Zpos m * 10 ^ scale) 0 negative
            else f64_decimal negative m (- scale)
        | _ => S754_zero negative
        end.

Example parses_decimal :
  map parse_f64 ["0.5"; "1"; "-2.5e-1"; ".25"; "5."; "."; "1e"; "x"; ""; "NaN"] =
  [Some (f64_div (f64_of_Z 1) (f64_of_Z 2)); Some (f64_of_Z 1); Some (f64_div (f64_of_Z (-1)) (f64_of_Z 4));
   Some (f64_div (f64_of_Z 1) (f64_of_Z 4)); Some (f64_of_Z 5); None; None; None; None; Some S754_nan].
Proof. vm_compute. reflexivity. Qed.

End Float64.

(** Decoding of JSON values as serde's derives do it, integers as text as
    [str::parse] reads them, and the lemma that a printed integer is read back. *)
Module Serde.

Import Text.

(** ** Structures *)

(** [#[serde(default)]]: a field that is missing, in an object or at the end of
    an array, takes its default. *)
Fixpoint fields_with_defaults (fields : list (string * option json)) (v : json) (i : nat) :
    option (list json) :=
  match fields with
  | [] => Some []
  | (name, default) :: rest =>
      let found := match v with JArr vs => vs !! i | _ => jget name v end in
      value ← match found with Some f => Some f | None => default end;
      values ← fields_with_defaults rest v (S i);
      Some (value :: values)
  end.

Definition struct_with_defaults (fields : list (string * option json)) (v : json) : option (list json) :=
  match v with
  | JObj _ => fields_with_defaults fields v 0
  | JArr vs => if (length vs <=? length fields)%nat then fields_with_defaults fields v 0 else None
  | _ => None
  end.

(** The fields of a structure: a required one, an [Option], and one with
    [#[serde(default)]]. *)
Notation required := (None : option json).
Notation optional := (Some JNull).

Definition decode_str : json -> option string := as_str.
Definition decode_i32 : json -> option Z := as_int i32_min i32_max.
Definition decode_i64 : json -> option Z := as_int i64_min i64_max.
Definition decode_u32 : json -> option Z := as_int 0 u32_max.
Definition decode_u64 : json -> option Z := as_int 0 (u64_modulus - 1).
Definition decode_bool (v : json) : option bool := match v with JBool b => Some b | _ => None end.

(** An [f64]: any number, kept as it is written. *)
Definition decode_f64 (v : json) : option json :=
  match v with JNum _ | JReal _ => Some v | _ => None end.

Definition decode_option {A} (decode : json -> option A) (v : json) : option (option A) :=
  match v with JNull => Some None | _ => Some <$> decode v end.

Definition decode_vec {A} (decode : json -> option A) (v : json) : option (list A) :=
  match v with JArr vs => mapM decode vs | _ => None end.

(** Induction under arrays and objects *)
Definition json_nested_ind (P : json -> Prop)
    (Hnull : P JNull) (Hbool : forall b, P (JBool b)) (Hnum : forall n, P (JNum n))
    (Hreal : forall t, P (JReal t)) (Hstr : forall s, P (JStr s))
    (Harr : forall l, Forall P l -> P (JArr l))
    (Hobj : forall fields, Forall (fun kv => P kv.2) fields -> P (JObj fields)) : forall v, P v :=
  fix go v := match v with
  | JNull => Hnull
  | JBool b => Hbool b
  | JNum n => Hnum n
  | JReal t => Hreal t
  | JStr s => Hstr s
  | JArr l => Harr l ((fix all l := match l return Forall P l with
                       | [] => Forall_nil_2 _
                       | v :: r => Forall_cons_2 _ _ _ (go v) (all r)
                       end) l)
  | JObj fields => Hobj fields ((fix all l := match l return Forall (fun kv => P kv.2) l with
                       | [] => Forall_nil_2 _
                       | kv :: r => Forall_cons_2 _ _ _ (go kv.2) (all r)
                       end) fields)
  end.

(** ** Integers as text: [str::parse::<i64>()] and the like *)

Fixpoint parse_nat (s : string) (acc : Z) : option Z :=
  match s with
  | "" => Some acc
  | String a r => if is_digit a then parse_nat r (acc * 10 + (Z.of_N (byte_of a) - 48)) else None
  end.

Definition parse_unsigned (s : string) : option Z := if is_empty s then None else parse_nat s 0.

Definition parse_signed (lo hi : Z) (s : string) : option Z :=
  n ← match s with
      | String a r =>
          if (byte_of a =? 43)%N then parse_unsigned r
          else if (byte_of a =? 45)%N then Z.opp <$> parse_unsigned r
          else parse_unsigned s
      | "" => None
      end;
  if (lo <=? n) && (n <=? hi) then Some n else None.

Definition parse_i64 : string -> option Z := parse_signed i64_min i64_max.
Definition parse_i32 : string -> option Z := parse_signed i32_min i32_max.

(** ** Printed integers *)

Lemma digit_char x : (x < 10)%N -> is_digit (pretty_N_char x) = true /\ byte_of (pretty_N_char x) = (48 + x)%N.
Proof.
  intros Hx. assert (Hc : (x = 0 \/ x = 1 \/ x = 2 \/ x = 3 \/ x = 4 \/ x = 5 \/ x = 6 \/ x = 7 \/ x = 8 \/ x = 9)%N)
    by lia. by repeat destruct Hc as [->|Hc]; [..|subst].
Qed.

Lemma parse_digit x s acc :
  (x < 10)%N -> parse_nat (String (pretty_N_char x) s) acc = parse_nat s (acc * 10 + Z.of_N x).
Proof. intros Hx. destruct (digit_char x Hx) as [Hd Hb]. cbn [parse_nat]. rewrite Hd, Hb. f_equal. lia. Qed.

Lemma parse_pretty_go x s :
  (0 < x)%N -> parse_nat (pretty_N_go x s) 0 = parse_nat s (Z.of_N x).
Proof.
  revert s. induction (N.lt_wf_0 x) as [x _ IH]. intros s Hx.
  assert (Hm : (x mod 10 < 10)%N) by (apply N.mod_lt; lia).
  assert (Hdiv : Z.of_N x = 0 * 10 + (Z.of_N (x / 10)%N * 10 + Z.of_N (x mod 10)%N))
    by (pose proof (N.div_mod x 10%N); lia).
  rewrite pretty_N_go_step by lia. destruct (N.eq_dec (x / 10)%N 0%N) as [E|E].
  - rewrite E, pretty_N_go_0, parse_digit by done. f_equal. rewrite E in Hdiv. lia.
  - rewrite IH by (try apply N.div_lt; lia). rewrite parse_digit by done. f_equal. lia.
Qed.

(** The first byte of a printed number is a digit. *)
Lemma pretty_go_head x s : (0 < x)%N -> exists a r, pretty_N_go x s = String a r /\ is_digit a = true.
Proof.
  revert s. induction (N.lt_wf_0 x) as [x _ IH]. intros s Hx. rewrite pretty_N_go_step by lia.
  destruct (N.eq_dec (x / 10)%N 0%N) as [E|E]; [|apply IH; [by apply N.div_lt|by apply N.neq_0_lt_0]].
  rewrite E, pretty_N_go_0. eexists _, _. split; [done|]. apply digit_char. apply N.mod_lt. lia.
Qed.

Lemma pretty_N_spec x : parse_nat (pretty x) 0 = Some (Z.of_N x) /\ exists a r, pretty x = String a r /\ is_digit a = true.
Proof.
  unfold pretty, pretty_N. case_decide as E; [subst; split; [done|by eexists _, _]|].
  split; [by rewrite parse_pretty_go by lia|apply pretty_go_head; lia].
Qed.

Lemma parse_unsigned_pretty x : parse_unsigned (pretty x) = Some (Z.of_N x).
Proof. destruct (pretty_N_spec x) as (H & a & r & Hp & _). unfold parse_unsigned. by rewrite H, Hp. Qed.

Lemma digit_sign a : is_digit a = true -> (byte_of a =? 43)%N = false /\ (byte_of a =? 45)%N = false.
Proof. unfold is_digit. intros [?%N.leb_le ?%N.leb_le]%andb_true_iff. split; apply N.eqb_neq; lia. Qed.

(** What [format!("{n}")] prints [parse] reads. *)
Lemma parse_show lo hi n : lo <= n <= hi -> parse_signed lo hi (show_Z n) = Some n.
Proof.
  intros Hn. assert (Hr : (lo <=? n) && (n <=? hi) = true)
    by (apply andb_true_iff; split; apply Z.leb_le; lia).
  unfold parse_signed, show_Z. destruct n as [|p|p].
  - transitivity (if (lo <=? 0) && (0 <=? hi) then Some 0 else None); [done|by rewrite Hr].
  - change (pretty (Z.pos p)) with (pretty (N.pos p)). assert (Hu := parse_unsigned_pretty (N.pos p)).
    destruct (pretty_N_spec (N.pos p)) as (_ & a & r & Hp & Hd). rewrite Hp in *.
    destruct (digit_sign a Hd) as [-> ->]. rewrite Hu. simpl. by rewrite Hr.
  - change (pretty (Z.neg p)) with (String "-" (pretty (N.pos p))). simpl.
    rewrite parse_unsigned_pretty.
    change ((if (lo <=? Z.neg p) && (Z.neg p <=? hi) then Some (Z.neg p) else None) = Some (Z.neg p)).
    by rewrite Hr.
Qed.

(** ** Text that starts with a visible byte is not blank *)

Definition visible (a : ascii) : bool := ((33 <=? byte_of a) && (byte_of a <=? 126))%N.

Lemma visible_white a :
  visible a = true -> ws1 a = false /\ (forall b, ws2 a b = false) /\ (forall b c, ws3 a b c = false).
Proof.
  unfold visible. intros [?%N.leb_le ?%N.leb_le]%andb_true_iff. unfold ws1, ws2, ws3.
  split_and!; intros; repeat (rewrite ?orb_false_iff, ?andb_false_iff, ?N.eqb_neq, ?N.leb_gt); lia.
Qed.

Lemma trim_rev_keeps a x : visible a = true -> trim_start_rev (x +:+ String a "") <> "".
Proof.
  intros Ha. destruct (visible_white a Ha) as (H1 & H2 & H3).
  induction x as [x IH] using string_len_ind. destruct x as [|c x]; simpl; [by rewrite H1|].
  destruct (ws1 c); [apply IH; simpl; lia|]. destruct x as [|b x]; simpl; [by rewrite H2|].
  destruct (ws2 b c); [apply IH; simpl; lia|]. destruct x as [|d x]; simpl; [by rewrite H3|].
  destruct (ws3 d b c); [apply IH; simpl; lia|done].
Qed.

Lemma visible_not_blank a s : visible a = true -> is_blank (String a s) = false.
Proof.
  intros Ha. destruct (visible_white a Ha) as (H1 & H2 & H3). unfold is_blank, is_empty, trim.
  rewrite trim_start_same, str_rev_cons.
  2: { simpl. rewrite H1. destruct s as [|b s]; [done|]. rewrite H2. destruct s; [done|]. by rewrite H3. }
  apply String.eqb_neq. intros E. apply (trim_rev_keeps a (str_rev s) Ha).
  rewrite <- (str_rev_involutive (trim_start_rev _)), E. done.
Qed.

Lemma show_not_blank n : is_blank (show_Z n) = false.
Proof.
  assert (Hv : forall a, is_digit a = true -> visible a = true).
  { intros a. unfold is_digit, visible. intros [?%N.leb_le ?%N.leb_le]%andb_true_iff.
    apply andb_true_iff. split; apply N.leb_le; lia. }
  destruct n as [|p|p].
  - done.
  - change (show_Z (Z.pos p)) with (pretty (N.pos p)). destruct (pretty_N_spec (N.pos p)) as (_ & a & r & -> & Hd).
    by apply visible_not_blank, Hv.
  - change (show_Z (Z.neg p)) with (String "-" (pretty (N.pos p))). by apply visible_not_blank.
Qed.

End Serde.
