(* ===== verification/Proto.v ===== *)
(** Wire messages shared by the services: the pricing and payment protocols
    (proto/src/gen) and the gRPC status a call can end with.  An enumeration
    field is an [i32] on the wire (prost), so it is a [Z] here, and each
    enumeration comes with its constants and its partial decoder. *)

From S2P Require Import Prelude.

(** gRPC status codes the sources name; any other code is [GOther]. *)
Inductive grpc_code : Type :=
| InvalidArgument | NotFound | FailedPrecondition | OutOfRange | Internal
| Unavailable | DeadlineExceeded | ResourceExhausted | AlreadyExists | GOther (n : Z).

Record grpc_status : Type := Status { gs_code : grpc_code; gs_message : string }.

#[export] Instance grpc_code_eq_dec : EqDecision grpc_code.
Proof. solve_decision. Defined.
#[export] Instance grpc_status_eq_dec : EqDecision grpc_status.
Proof. solve_decision. Defined.

Record Money : Type := mkMoney { currency_code : string; amount_minor : Z }.

#[export] Instance Money_eq_dec : EqDecision Money.
Proof. solve_decision. Defined.

(** ** Pricing *)

Record QuoteItem : Type := mkQuoteItem { qi_sku : string; qi_quantity : Z }.

Record QuoteRequest : Type := mkQuoteRequest {
  qr_request_id : string;
  qr_customer_id : string;
  qr_items : list QuoteItem;
  qr_currency_code : string;
  qr_context : gmap string string;
  qr_payment_method_type : option Z;
  qr_tenant_id : string
}.

Record QuoteLine : Type := mkQuoteLine {
  ql_sku : string;
  ql_quantity : Z;
  ql_unit_price : option Money;
  ql_line_total : option Money
}.

Record QuoteResponse : Type := mkQuoteResponse {
  qp_quote_id : string;
  qp_status : Z;
  qp_lines : list QuoteLine;
  qp_subtotal : option Money;
  qp_discount_total : option Money;
  qp_tax_total : option Money;
  qp_grand_total : option Money;
  qp_valid_for_seconds : Z;
  qp_pricing_version : string
}.

Definition QuoteStatus_Ready : Z := 1.

(** ** Payment *)

Record PaymentMethod : Type := mkPaymentMethod { pm_type : Z; pm_token : string }.

Record PaymentRecord : Type := mkPaymentRecord {
  pr_payment_id : string;
  pr_merchant_reference : string;
  pr_authorized_amount : option Money;
  pr_status : Z;
  pr_method_type : Z;
  pr_provider_reference : string;
  pr_captured_amount : option Money;
  pr_refunded_amount : option Money;
  pr_failure_reason : Z
}.

Record AuthorizeRequest : Type := mkAuthorizeRequest {
  ar_request_id : string;
  ar_merchant_reference : string;
  ar_amount : option Money;
  ar_payment_method : option PaymentMethod;
  ar_tenant_id : string
}.

(** Capture and refund carry an amount, void only a reason; the three replies
    have the same three fields, and so does the reply to an authorization. *)
Record CaptureRequest : Type := mkCaptureRequest {
  cr_request_id : string; cr_payment_id : string;
  cr_amount : option Money; cr_tenant_id : string
}.
Record VoidRequest : Type := mkVoidRequest {
  vr_request_id : string; vr_payment_id : string; vr_reason : Z; vr_tenant_id : string
}.
Record RefundRequest : Type := mkRefundRequest {
  rr_request_id : string; rr_payment_id : string;
  rr_amount : option Money; rr_reason : Z; rr_tenant_id : string
}.
Record PaymentResponse : Type := mkPaymentResponse {
  po_operation_status : Z; po_payment : option PaymentRecord; po_failure_reason : Z
}.
Record GetPaymentRequest : Type := mkGetPaymentRequest {
  gr_payment_id : string; gr_tenant_id : string
}.
Record GetPaymentResponse : Type := mkGetPaymentResponse {
  gp_payment : option PaymentRecord; gp_status : Z
}.

(** [PaymentMethodType], [PaymentStatus], [PaymentOperationStatus],
    [PaymentFailureReason], [VoidReason] and [RefundReason]. *)
Definition PaymentMethodType_Card : Z := 1.
Definition PaymentMethodType_BankAccount : Z := 2.
Definition PaymentMethodType_Wallet : Z := 3.

Inductive PaymentStatus : Type :=
| PsUnspecified | PsPending | PsAuthorized | PsCaptured | PsVoided
| PsPartiallyRefunded | PsRefunded | PsFailed.

Definition PaymentStatus_try_from (n : Z) : option PaymentStatus :=
  match n with
  | 0 => Some PsUnspecified | 1 => Some PsPending | 2 => Some PsAuthorized
  | 3 => Some PsCaptured | 4 => Some PsVoided | 5 => Some PsPartiallyRefunded
  | 6 => Some PsRefunded | 7 => Some PsFailed | _ => None
  end.

Inductive PaymentOperationStatus : Type :=
| OpUnspecified | OpSucceeded | OpDeclined | OpPending | OpFailed.

Definition PaymentOperationStatus_try_from (n : Z) : option PaymentOperationStatus :=
  match n with
  | 0 => Some OpUnspecified | 1 => Some OpSucceeded | 2 => Some OpDeclined
  | 3 => Some OpPending | 4 => Some OpFailed | _ => None
  end.

Inductive PaymentFailureReason : Type :=
| FrUnspecified | FrDeclined | FrInsufficientFunds | FrInvalidPaymentMethod
| FrProviderUnavailable | FrAlreadyProcessed | FrInvalidState.

Definition PaymentFailureReason_try_from (n : Z) : option PaymentFailureReason :=
  match n with
  | 0 => Some FrUnspecified | 1 => Some FrDeclined | 2 => Some FrInsufficientFunds
  | 3 => Some FrInvalidPaymentMethod | 4 => Some FrProviderUnavailable
  | 5 => Some FrAlreadyProcessed | 6 => Some FrInvalidState | _ => None
  end.

Definition VoidReason_OrderCancelled : Z := 2.
Definition RefundReason_OrderCancelled : Z := 2.

#[export] Instance PaymentStatus_eq_dec : EqDecision PaymentStatus.
Proof. solve_decision. Defined.
#[export] Instance PaymentOperationStatus_eq_dec : EqDecision PaymentOperationStatus.
Proof. solve_decision. Defined.
#[export] Instance PaymentFailureReason_eq_dec : EqDecision PaymentFailureReason.
Proof. solve_decision. Defined.
#[export] Instance PaymentRecord_eq_dec : EqDecision PaymentRecord.
Proof. solve_decision. Defined.

(** [as_str_name] of the generated enumerations, and [from_str_name] of the
    failure reasons. *)
Definition PaymentStatus_as_str_name (s : PaymentStatus) : string :=
  match s with
  | PsUnspecified => "PAYMENT_STATUS_UNSPECIFIED" | PsPending => "PAYMENT_STATUS_PENDING"
  | PsAuthorized => "PAYMENT_STATUS_AUTHORIZED" | PsCaptured => "PAYMENT_STATUS_CAPTURED"
  | PsVoided => "PAYMENT_STATUS_VOIDED"
  | PsPartiallyRefunded => "PAYMENT_STATUS_PARTIALLY_REFUNDED"
  | PsRefunded => "PAYMENT_STATUS_REFUNDED" | PsFailed => "PAYMENT_STATUS_FAILED"
  end.

Definition PaymentOperationStatus_as_str_name (s : PaymentOperationStatus) : string :=
  match s with
  | OpUnspecified => "PAYMENT_OPERATION_STATUS_UNSPECIFIED"
  | OpSucceeded => "PAYMENT_OPERATION_STATUS_SUCCEEDED"
  | OpDeclined => "PAYMENT_OPERATION_STATUS_DECLINED"
  | OpPending => "PAYMENT_OPERATION_STATUS_PENDING"
  | OpFailed => "PAYMENT_OPERATION_STATUS_FAILED"
  end.

Definition PaymentFailureReason_as_str_name (r : PaymentFailureReason) : string :=
  match r with
  | FrUnspecified => "PAYMENT_FAILURE_REASON_UNSPECIFIED"
  | FrDeclined => "PAYMENT_FAILURE_REASON_DECLINED"
  | FrInsufficientFunds => "PAYMENT_FAILURE_REASON_INSUFFICIENT_FUNDS"
  | FrInvalidPaymentMethod => "PAYMENT_FAILURE_REASON_INVALID_PAYMENT_METHOD"
  | FrProviderUnavailable => "PAYMENT_FAILURE_REASON_PROVIDER_UNAVAILABLE"
  | FrAlreadyProcessed => "PAYMENT_FAILURE_REASON_ALREADY_PROCESSED"
  | FrInvalidState => "PAYMENT_FAILURE_REASON_INVALID_STATE"
  end.

Definition PaymentFailureReason_from_str_name (s : string) : option PaymentFailureReason :=
  List.find (fun r => String.eqb (PaymentFailureReason_as_str_name r) s)
    [FrUnspecified; FrDeclined; FrInsufficientFunds; FrInvalidPaymentMethod; FrProviderUnavailable;
     FrAlreadyProcessed; FrInvalidState].
