(* ===== verification/Propagation.v ===== *)
(** W3C context propagation (libs/playground-telemetry/src/propagation.rs):
    tenant identity at a service boundary, the checks of a durable carrier, and
    the allowlist of business baggage.  Headers are the list of (name, value)
    pairs in arrival order; a value that [HeaderValue::to_str] refuses (it is
    not visible ASCII) is [None]. *)

From S2P Require Import Prelude.

Definition headers : Type := list (string * option string).

(** ** Splitting: [str::split], [str::split_once] on one ASCII character *)

Fixpoint split_on (c : ascii) (s : string) : list string :=
  match s with
  | "" => [""]
  | String a rest =>
      if Ascii.eqb a c then "" :: split_on c rest
      else match split_on c rest with
           | first :: more => String a first :: more
           | [] => [String a ""]
           end
  end.

Fixpoint split_once (c : ascii) (s : string) : option (string * string) :=
  match s with
  | "" => None
  | String a rest =>
      if Ascii.eqb a c then Some ("", rest)
      else '(before, after) ← split_once c rest; Some (String a before, after)
  end.

(** [parts.next().unwrap_or_default()] *)
Definition first_part (l : list string) : string := default "" (head l).

(** [values.join(",")] *)
Fixpoint join_on (c : ascii) (l : list string) : string :=
  match l with
  | [] => ""
  | [s] => s
  | s :: rest => s +:+ String c (join_on c rest)
  end.

Definition is_ows (a : ascii) : bool := (byte_of a =? 32)%N || (byte_of a =? 9)%N.

Fixpoint trim_ows_start (s : string) : string :=
  match s with
  | String a rest => if is_ows a then trim_ows_start rest else s
  | "" => ""
  end.

(** [value.trim_matches([' ', '\t'])] *)
Definition trim_ows (s : string) : string :=
  str_rev (trim_ows_start (str_rev (trim_ows_start s))).

(** [String::from_utf8]: shortest form, no surrogates, at most U+10FFFF. *)
Definition utf8_cont (a : ascii) : bool := ((128 <=? byte_of a) && (byte_of a <=? 191))%N.

(** [message.chars().take(n)] on UTF-8 bytes *)
Fixpoint take_chars (n : nat) (s : string) : string :=
  match s with
  | "" => ""
  | String a rest =>
      if utf8_cont a then String a (take_chars n rest)
      else match n with O => "" | S n' => String a (take_chars n' rest) end
  end.

Fixpoint utf8_valid (s : string) : bool :=
  match s with
  | "" => true
  | String a r1 =>
      let n := byte_of a in
      if (n <=? 127)%N then utf8_valid r1 else
      match r1 with
      | "" => false
      | String b r2 =>
          let m := byte_of b in
          if ((194 <=? n) && (n <=? 223))%N then utf8_cont b && utf8_valid r2 else
          match r2 with
          | "" => false
          | String c r3 =>
              if ((224 <=? n) && (n <=? 239))%N then
                utf8_cont b && utf8_cont c
                && negb ((n =? 224) && (m <? 160))%N && negb ((n =? 237) && (159 <? m))%N
                && utf8_valid r3
              else
              match r3 with
              | "" => false
              | String d r4 =>
                  ((240 <=? n) && (n <=? 244))%N
                  && utf8_cont b && utf8_cont c && utf8_cont d
                  && negb ((n =? 240) && (m <? 144))%N && negb ((n =? 244) && (143 <? m))%N
                  && utf8_valid r4
              end
          end
      end
  end.

Definition hex_digit (a : ascii) : option N :=
  let n := byte_of a in
  if ((48 <=? n) && (n <=? 57))%N then Some (n - 48)%N
  else if ((97 <=? n) && (n <=? 102))%N then Some (n - 97 + 10)%N
  else if ((65 <=? n) && (n <=? 70))%N then Some (n - 65 + 10)%N
  else None.

(** ** Tenant identity *)

Inductive TenantIdentityError : Type := TenantMissing | TenantInvalid | TenantConflicting.

Definition MAX_BUSINESS_BAGGAGE_VALUE_LENGTH : Z := 128.
Definition TENANT_ID : string := "tenant.id".

Local Open Scope result_scope.

Definition normalize_tenant_candidate (value : string) : result TenantIdentityError string :=
  let value := trim value in
  if is_empty value || (MAX_BUSINESS_BAGGAGE_VALUE_LENGTH <? str_len value) || has_control value
  then Err TenantInvalid else Ok value.

(** The decoding loop; [index + 2 >= bytes.len()] is a tail of fewer than two
    bytes after the percent sign. *)
Fixpoint decode_percent (s : string) : option string :=
  match s with
  | "" => Some ""
  | String a rest =>
      if negb (byte_of a =? 37)%N then String a <$> decode_percent rest else
      match rest with
      | String h (String l rest') =>
          high ← hex_digit h;
          low ← hex_digit l;
          String (ascii_of_N (N.lor (N.shiftl high 4) low)) <$> decode_percent rest'
      | _ => None
      end
  end.

Definition decode_baggage_value (value : string) : result TenantIdentityError string :=
  decoded <- ok_or (decode_percent value) TenantInvalid ;;
  if utf8_valid decoded then Ok decoded else Err TenantInvalid.

(** The tenant members of one baggage header, in order. *)
Fixpoint baggage_candidates (members : list string) : result TenantIdentityError (list string) :=
  match members with
  | [] => Ok []
  | member :: rest =>
      match split_once "=" member with
      | None => baggage_candidates rest
      | Some (key, raw_value) =>
          if negb (String.eqb (trim key) TENANT_ID) then baggage_candidates rest else
          let value := trim (first_part (split_on ";" raw_value)) in
          decoded <- decode_baggage_value value ;;
          candidate <- normalize_tenant_candidate decoded ;;
          others <- baggage_candidates rest ;;
          Ok (candidate :: others)
      end
  end.

Fixpoint map_res {E A B} (f : A -> result E B) (l : list A) : result E (list B) :=
  match l with
  | [] => Ok []
  | a :: rest => b <- f a ;; bs <- map_res f rest ;; Ok (b :: bs)
  end.

Definition resolve_tenant_candidates (request_tenant : option string)
    (explicit baggage : list string) : result TenantIdentityError string :=
  from_request <- match request_tenant with
                  | Some value => c <- normalize_tenant_candidate value ;; Ok [c]
                  | None => Ok []
                  end ;;
  from_headers <- map_res normalize_tenant_candidate explicit ;;
  from_baggage <- map_res (fun value => baggage_candidates (split_on "," value)) baggage ;;
  match from_request ++ from_headers ++ concat from_baggage with
  | [] => Err TenantMissing
  | first :: rest =>
      if existsb (fun candidate => negb (String.eqb candidate first)) (first :: rest)
      then Err TenantConflicting else Ok first
  end.

(** [headers.get_all(name)] and its values as strings *)
Definition get_all (name : string) (h : headers) : list (option string) :=
  map snd (List.filter (fun nv => String.eqb nv.1 name) h).

Definition strings_or {E} (e : E) (values : list (option string)) : result E (list string) :=
  map_res (fun v => ok_or v e) values.

(** [resolve_http_tenant_identity] and its gRPC twin, which reads the metadata
    map through the same two accessors. *)
Definition resolve_http_tenant_identity (h : headers) (request_tenant : option string) :
    result TenantIdentityError string :=
  explicit <- strings_or TenantInvalid (get_all "x-tenant-id" h ++ get_all "tenant-id" h) ;;
  baggage <- strings_or TenantInvalid (get_all "baggage" h) ;;
  resolve_tenant_candidates request_tenant explicit baggage.

Definition resolve_grpc_tenant_identity (metadata : headers) (request_tenant : option string) :
    result TenantIdentityError string :=
  explicit <- strings_or TenantInvalid
                (get_all "x-tenant-id" metadata ++ get_all "tenant-id" metadata) ;;
  baggage <- strings_or TenantInvalid (get_all "baggage" metadata) ;;
  resolve_tenant_candidates request_tenant explicit baggage.

(** ** Durable carriers: the errors are [anyhow] messages *)

Definition single_header (h : headers) (name : string) : result string (option string) :=
  values <- strings_or ("durable W3C " +:+ name +:+ " header is not valid ASCII")
                       (get_all name h) ;;
  match values with
  | [] => Ok None
  | [value] => if is_empty value then Err ("durable W3C " +:+ name +:+ " header is empty")
               else Ok (Some value)
  | _ => Err ("durable W3C " +:+ name +:+ " header is duplicated")
  end.

Definition joined_header (h : headers) (name : string) : result string (option string) :=
  values <- strings_or ("durable W3C " +:+ name +:+ " header is not valid ASCII")
                       (get_all name h) ;;
  match values with
  | [] => Ok None
  | _ => if existsb is_empty values then Err ("durable W3C " +:+ name +:+ " header is empty")
         else Ok (Some (join_on "," values))
  end.

Definition is_lower_hex (value : string) (len : Z) : bool :=
  (str_len value =? len)
  && str_forallb (fun a => is_digit a || ((97 <=? byte_of a) && (byte_of a <=? 102))%N) value.

Definition all_zero_hex (value : string) : bool :=
  str_forallb (fun a => (byte_of a =? 48)%N) value.

Definition validate_traceparent_header (value : string) : result string unit :=
  let e := "durable W3C traceparent is invalid" in
  match split_on "-" value with
  | [version; trace_id; parent_id; flags] =>
      ensure ((str_len value =? 55) && String.eqb version "00"
              && is_lower_hex trace_id 32 && negb (all_zero_hex trace_id)
              && is_lower_hex parent_id 16 && negb (all_zero_hex parent_id)
              && is_lower_hex flags 2) e
  | _ => Err e
  end.

(** The first byte of a part is a lower-case letter or a digit; later bytes may
    also be one of [_ - * /]. *)
Definition tracestate_key_first (a : ascii) : bool := is_lower a || is_digit a.
Definition tracestate_key_byte (a : ascii) : bool :=
  is_lower a || is_digit a
  || existsb (fun n => (byte_of a =? n)%N) [95; 45; 42; 47]%N.

Definition valid_tracestate_key_part (value : string) (max_length : Z) : bool :=
  match value with
  | "" => false
  | String a rest =>
      (str_len value <=? max_length) && tracestate_key_first a
      && str_forallb tracestate_key_byte rest
  end.

Definition valid_tracestate_key (value : string) : bool :=
  match split_on "@" value with
  | [first] => valid_tracestate_key_part first 256
  | [first; second] =>
      valid_tracestate_key_part first 241 && valid_tracestate_key_part second 14
  | _ => false
  end.

Definition ends_with_ows (value : string) : bool :=
  match str_rev value with String a _ => is_ows a | "" => false end.

Definition valid_tracestate_value (value : string) : bool :=
  negb (ends_with_ows value)
  && str_forallb (fun a => let n := byte_of a in
       ((32 <=? n) && (n <=? 126) && negb ((n =? 44) || (n =? 61)))%N) value.

Definition MAX_TRACESTATE_MEMBERS : nat := 32.

(** The loop over the members, with [member_count] and the set of keys. *)
Fixpoint check_tracestate_members (members : list string) (member_count : nat)
    (keys : list string) : result string nat :=
  match members with
  | [] => Ok member_count
  | raw_member :: rest =>
      let e := "durable W3C tracestate member is invalid" in
      let member := trim_ows raw_member in
      ensure (negb (is_empty member)) e ;;
      ensure (S member_count <=? MAX_TRACESTATE_MEMBERS)%nat
        "durable W3C tracestate has invalid members" ;;
      kv <- ok_or (split_once "=" member) e ;;
      ensure ((str_len member <=? 256) && valid_tracestate_key kv.1
              && negb (is_empty kv.2) && (str_len kv.2 <=? 256)
              && valid_tracestate_value kv.2 && negb (one_of kv.1 keys)) e ;;
      check_tracestate_members rest (S member_count) (kv.1 :: keys)
  end.

Definition validate_tracestate_header (value : string) : result string unit :=
  ensure (str_len value <=? 512) "durable W3C tracestate exceeds 512 bytes" ;;
  member_count <- check_tracestate_members (split_on "," value) 0 [] ;;
  ensure (negb (member_count =? 0)%nat) "durable W3C tracestate has no members".

(** ** Baggage *)

Definition valid_baggage_key (value : string) : bool :=
  negb (is_empty value)
  && str_forallb (fun a => is_alphanumeric a
       || existsb (fun n => (byte_of a =? n)%N)
            [33; 35; 36; 37; 38; 39; 42; 43; 45; 46; 94; 95; 96; 124; 126]%N) value.

Definition is_baggage_octet (a : ascii) : bool :=
  let n := byte_of a in
  (((n =? 33) || ((35 <=? n) && (n <=? 43)) || ((45 <=? n) && (n <=? 58))
    || ((60 <=? n) && (n <=? 91)) || ((93 <=? n) && (n <=? 126))) && negb (n =? 37))%N.

Fixpoint valid_baggage_value (value : string) : bool :=
  match value with
  | "" => true
  | String a rest =>
      if (byte_of a =? 37)%N then
        match rest with
        | String h (String l rest') =>
            bool_decide (is_Some (hex_digit h)) && bool_decide (is_Some (hex_digit l))
            && valid_baggage_value rest'
        | _ => false
        end
      else is_baggage_octet a && valid_baggage_value rest
  end.

Fixpoint check_baggage_properties (properties : list string) (keys : list string) :
    result string unit :=
  match properties with
  | [] => Ok tt
  | raw_property :: rest =>
      let property := trim_ows raw_property in
      ensure (negb (is_empty property)) "durable W3C baggage property is invalid" ;;
      let '(property_key, property_value) :=
        match split_once "=" property with
        | Some (key, value) => (key, Some value)
        | None => (property, None)
        end in
      let property_key := trim_ows property_key in
      ensure (valid_baggage_key property_key && negb (one_of property_key keys))
        "durable W3C baggage property is invalid" ;;
      ensure (match property_value with
              | Some v => valid_baggage_value (trim_ows v)
              | None => true
              end) "durable W3C baggage property value is invalid" ;;
      check_baggage_properties rest (property_key :: keys)
  end.

Fixpoint check_baggage_members (members : list string) (keys : list string) :
    result string unit :=
  match members with
  | [] => Ok tt
  | raw_member :: rest =>
      let e := "durable W3C baggage member is invalid" in
      let member := trim_ows raw_member in
      ensure (negb (is_empty member)) e ;;
      kv <- ok_or (split_once "=" member) e ;;
      let key := trim_ows kv.1 in
      ensure (valid_baggage_key key && negb (one_of key keys)) e ;;
      let '(raw_value, raw_properties) :=
        match split_once ";" kv.2 with
        | Some (value, properties) => (value, Some properties)
        | None => (kv.2, None)
        end in
      ensure (valid_baggage_value (trim_ows raw_value)) "durable W3C baggage value is invalid" ;;
      match raw_properties with
      | None => Ok tt
      | Some properties => check_baggage_properties (split_on ";" properties) []
      end ;;
      check_baggage_members rest (key :: keys)
  end.

Definition validate_baggage_header (value : string) : result string unit :=
  ensure (negb (is_empty value)) "durable W3C baggage is empty" ;;
  ensure (str_len value <=? 8192) "durable W3C baggage exceeds 8192 bytes" ;;
  let members := split_on "," value in
  ensure (Z.of_nat (length members) <=? 64) "durable W3C baggage exceeds 64 members" ;;
  check_baggage_members members [].

Definition validate_durable_context (h : headers) : result string unit :=
  traceparent <- single_header h "traceparent" ;;
  traceparent <- ok_or traceparent "durable W3C carrier is missing traceparent" ;;
  tracestate <- single_header h "tracestate" ;;
  tracestate <- ok_or tracestate "durable W3C carrier is missing tracestate" ;;
  baggage <- joined_header h "baggage" ;;
  baggage <- ok_or baggage "durable W3C carrier is missing baggage" ;;
  validate_traceparent_header traceparent ;;
  validate_tracestate_header tracestate ;;
  validate_baggage_header baggage.

(** ** Business baggage *)

Definition USER_TIER : string := "user.tier".
Definition SAFE_BUSINESS_BAGGAGE_KEYS : list string :=
  [TENANT_ID; USER_TIER; "customer.segment"; "region"; "request.priority";
   "feature.variant"; "session.id"; "cli.invocation.id"].

(** An OpenTelemetry context: its span context (kept opaque) and its baggage,
    a map from key to value and metadata. *)
Record Context : Type := mkContext {
  cx_span : option string;
  cx_baggage : gmap string (string * string)
}.

Definition with_baggage (c : Context) (b : gmap string (string * string)) : Context :=
  mkContext (cx_span c) b.

Definition baggage_get (c : Context) (key : string) : option string :=
  fst <$> cx_baggage c !! key.

Definition is_safe_baggage_entry (key value : string) : bool :=
  one_of key SAFE_BUSINESS_BAGGAGE_KEYS
  && (str_len value <=? MAX_BUSINESS_BAGGAGE_VALUE_LENGTH)
  && negb (has_control value).

(** [clone_baggage]: the safe entries of a context *)
Definition clone_baggage (c : Context) : gmap string (string * string) :=
  map_imap (fun key vm => if is_safe_baggage_entry key vm.1 then Some vm else None) (cx_baggage c).

Definition with_safe_baggage (c : Context) : Context := with_baggage c (clone_baggage c).
Definition sanitize_context : Context -> Context := with_safe_baggage.

(** The parent's safe entries replace those of the context. *)
Definition with_safe_parent_baggage (c parent : Context) : Context :=
  with_baggage c (clone_baggage parent ∪ clone_baggage c).

Definition extend_baggage (c : Context) (entries : list (string * string)) : Context :=
  with_baggage c
    (foldl (fun b kv => if is_safe_baggage_entry kv.1 kv.2 then <[kv.1 := (kv.2, "")]> b else b)
       (clone_baggage c) entries).

Definition with_business_context (c : Context) (tenant tier segment region priority : string) :
    Context :=
  extend_baggage c [(TENANT_ID, tenant); (USER_TIER, tier); ("customer.segment", segment);
                    ("region", region); ("request.priority", priority)].

(** A default fills a key the sanitized parent does not carry. *)
Definition default_baggage (c : Context) (kv : string * string) : Context :=
  match baggage_get c kv.1 with
  | None => extend_baggage c [kv]
  | Some _ => c
  end.

Definition with_business_context_from_parent (c parent : Context)
    (tenant tier segment region priority : string) : Context :=
  let c := with_safe_parent_baggage c parent in
  let c := extend_baggage c [(TENANT_ID, tenant)] in
  foldl default_baggage c
    [(USER_TIER, tier); ("customer.segment", segment); ("region", region);
     ("request.priority", priority)].

(** ** Injection: the propagator itself is OpenTelemetry's *)

Definition header_get (name : string) (h : headers) : option (option string) := head (get_all name h).

Definition header_nonempty (name : string) (h : headers) : bool :=
  match header_get name h with
  | Some (Some s) => negb (is_empty s)
  | Some None => true
  | None => false
  end.

Definition header_insert (name value : string) (h : headers) : headers :=
  List.filter (fun nv => negb (String.eqb nv.1 name)) h ++ [(name, Some value)].

Definition add_default_tracestate_header (h : headers) : headers :=
  if header_nonempty "traceparent" h && negb (header_nonempty "tracestate" h)
  then header_insert "tracestate" "playground=commerce" h else h.

Section injection.
(** [propagator.inject_context] writing into an existing header map *)
Variable inject_context : Context -> headers -> headers.

Definition inject_context_headers (c : Context) (h : headers) : headers :=
  add_default_tracestate_header (inject_context (with_safe_baggage c) h).

Definition inject_durable_context_headers (c : Context) : result string headers :=
  let h := inject_context_headers c [] in
  validate_durable_context h ;;
  Ok h.
End injection.

Local Close Scope result_scope.

(** ** Lemmas *)

Lemma map_res_ok {E A B} (f : A -> result E B) l bs :
  map_res f l = Ok bs <-> Forall2 (fun a b => f a = Ok b) l bs.
Proof.
  revert bs. induction l as [|a l IH]; intros bs; simpl.
  - split; [intros [= <-]; constructor|by inversion 1].
  - rewrite res_bind_ok. setoid_rewrite res_bind_ok. setoid_rewrite IH. split.
    + intros (b & Hb & bs' & Hbs & [= <-]). by constructor.
    + inversion 1; subst. naive_solver.
Qed.

Lemma normalize_ok value t :
  normalize_tenant_candidate value = Ok t <->
  t = trim value /\ is_empty t = false /\ str_len t <= 128 /\ has_control t = false.
Proof.
  unfold normalize_tenant_candidate, MAX_BUSINESS_BAGGAGE_VALUE_LENGTH.
  destruct (_ || _) eqn:E.
  - split; [done|]. intros (-> & H1 & H2 & H3). rewrite H1, H3 in E.
    apply orb_true_iff in E as [E|E]; [|done]. apply orb_true_iff in E as [E|E]; [done|].
    apply Z.ltb_lt in E. lia.
  - bool_inv. split; [intros [= <-]; split_and!; done|]. by intros (-> & _).
Qed.

Lemma existsb_all_eq (first : string) l :
  existsb (fun c => negb (String.eqb c first)) l = false <-> Forall (eq first) l.
Proof.
  induction l as [|c l IH]; simpl; [naive_solver|].
  rewrite orb_false_iff, negb_false_iff, String.eqb_eq, IH, Forall_cons. naive_solver.
Qed.

(** A resolved tenant is what every source that is present says. *)
Lemma resolve_candidates_ok request explicit baggage t :
  resolve_tenant_candidates request explicit baggage = Ok t ->
  exists tagged,
    Forall2 (fun v c => baggage_candidates (split_on "," v) = Ok c) baggage tagged
    /\ Forall (eq t) (concat tagged)
    /\ Forall (fun v => normalize_tenant_candidate v = Ok t) explicit
    /\ (forall v, request = Some v -> normalize_tenant_candidate v = Ok t)
    /\ (request <> None \/ explicit <> [] \/ concat tagged <> []).
Proof.
  unfold resolve_tenant_candidates. intros H.
  apply res_bind_ok in H as (rs & Hr & H). apply res_bind_ok in H as (es & He & H).
  apply res_bind_ok in H as (bs & Hb & H). apply map_res_ok in He, Hb.
  destruct (rs ++ es ++ concat bs) as [|first rest] eqn:El; [done|].
  destruct (existsb _ _) eqn:Ex; [done|]. injection H as ->. apply existsb_all_eq in Ex.
  rewrite <- El, !Forall_app in Ex. destruct Ex as (Hrs & Hes & Hbs).
  exists bs. split_and!; [done|done| | |].
  - clear -He Hes. induction He; [constructor|]. inversion Hes; subst. constructor; auto.
  - intros v ->. apply res_bind_ok in Hr as (c & Hc & [= <-]). by inversion Hrs; subst.
  - destruct request; [naive_solver|]. injection Hr as <-.
    destruct explicit; [|naive_solver]. inversion He; subst. simpl in El. right; right. by rewrite El.
Qed.

Lemma split_on_nonempty c s : split_on c s <> [].
Proof. destruct s; simpl; [done|]. destruct (Ascii.eqb _ _); [done|]. by destruct (split_on c s). Qed.

Lemma join_on_head c a p r : join_on c (String a p :: r) = String a (join_on c (p :: r)).
Proof. by destruct r. Qed.

Lemma join_split c s : join_on c (split_on c s) = s.
Proof.
  induction s as [|a s IH]; [done|]. simpl. pose proof (split_on_nonempty c s) as Hne.
  destruct (Ascii.eqb_spec a c) as [->|].
  - rewrite <- IH at 2. by destruct (split_on c s).
  - destruct (split_on c s) as [|p r]; [done|]. by rewrite join_on_head, IH.
Qed.

(** No byte of a part is the separator. *)
Definition free_of (c : ascii) (s : string) : bool := str_forallb (fun a => negb (Ascii.eqb a c)) s.

Lemma split_on_free c s : free_of c s = true -> split_on c s = [s].
Proof.
  unfold free_of. induction s as [|a s IH]; [done|]. simpl. intros H. bool_inv.
  rewrite IH by done. by match goal with Hc : Ascii.eqb a c = false |- _ => rewrite Hc end.
Qed.

Lemma split_on_app c p s :
  free_of c p = true -> split_on c (p +:+ String c s) = p :: split_on c s.
Proof.
  unfold free_of. induction p as [|a p IH]; simpl; intros H; [by rewrite Ascii.eqb_refl|].
  bool_inv. rewrite IH by done. by match goal with Hc : Ascii.eqb a c = false |- _ => rewrite Hc end.
Qed.

Lemma str_forallb_impl (p q : ascii -> bool) s :
  (forall a, p a = true -> q a = true) -> str_forallb p s = true -> str_forallb q s = true.
Proof. intros Hpq. induction s; simpl; [done|]. intros H. bool_inv. rewrite Hpq, IHs; done. Qed.

Lemma lower_hex_free_of_dash s n : is_lower_hex s n = true -> free_of "-" s = true.
Proof.
  unfold is_lower_hex. intros H. bool_inv. eapply str_forallb_impl; [|done]. intros a Ha.
  apply negb_true_iff. by destruct (Ascii.eqb_spec a "-") as [->|].
Qed.

Lemma str_len_app s t : str_len (s +:+ t) = str_len s + str_len t.
Proof. unfold str_len. induction s; simpl length in *; [done|]. simpl String.length. lia. Qed.

Lemma lookup_clone_baggage c key :
  clone_baggage c !! key =
  (vm ← cx_baggage c !! key; if is_safe_baggage_entry key vm.1 then Some vm else None).
Proof. unfold clone_baggage. rewrite map_lookup_imap. done. Qed.

Lemma clone_baggage_idemp c : clone_baggage (with_baggage c (clone_baggage c)) = clone_baggage c.
Proof.
  apply map_eq. intros key. rewrite !lookup_clone_baggage. simpl. rewrite lookup_clone_baggage.
  destruct (cx_baggage c !! key) as [vm|]; [|done]. simpl.
  destruct (is_safe_baggage_entry key vm.1) eqn:E; [|done]. simpl. by rewrite E.
Qed.

(** A context none of whose entries the allowlist would drop. *)
Definition safe_context (c : Context) : Prop := clone_baggage c = cx_baggage c.

Lemma safe_context_spec c :
  safe_context c <->
  forall key vm, cx_baggage c !! key = Some vm -> is_safe_baggage_entry key vm.1 = true.
Proof.
  unfold safe_context. split.
  - intros He key vm Hk. rewrite <- He, lookup_clone_baggage in Hk.
    destruct (cx_baggage c !! key) as [vm'|]; [|done]. simpl in Hk. by case_match; simplify_eq.
  - intros Hall. apply map_eq. intros key. rewrite lookup_clone_baggage.
    destruct (cx_baggage c !! key) as [vm|] eqn:E; [|done]. simpl. by rewrite (Hall _ _ E).
Qed.

Lemma extend_baggage_one c k v key :
  baggage_get (extend_baggage c [(k, v)]) key =
  if is_safe_baggage_entry k v && String.eqb key k then Some v
  else baggage_get (with_safe_baggage c) key.
Proof.
  unfold extend_baggage, baggage_get. simpl. destruct (is_safe_baggage_entry k v); [|done].
  simpl. destruct (String.eqb_spec key k) as [->|]; [by rewrite lookup_insert_eq|].
  by rewrite lookup_insert_ne.
Qed.

Lemma extend_baggage_one_safe c k v : safe_context (extend_baggage c [(k, v)]).
Proof.
  apply safe_context_spec. unfold extend_baggage. simpl. intros key vm Hk.
  destruct (is_safe_baggage_entry k v) eqn:E; [destruct (decide (key = k)) as [->|]|].
  - rewrite lookup_insert_eq in Hk. by simplify_eq.
  - rewrite lookup_insert_ne in Hk by done. rewrite lookup_clone_baggage in Hk.
    destruct (cx_baggage c !! key) as [vm'|]; [|done]. simpl in Hk. by case_match; simplify_eq.
  - rewrite lookup_clone_baggage in Hk.
    destruct (cx_baggage c !! key) as [vm'|]; [|done]. simpl in Hk. by case_match; simplify_eq.
Qed.

Lemma safe_context_get c key : safe_context c -> baggage_get (with_safe_baggage c) key = baggage_get c key.
Proof. unfold safe_context, baggage_get. simpl. by intros ->. Qed.

(** A default never changes a key that is already there. *)
Lemma default_baggage_keep c kv key v :
  safe_context c -> baggage_get c key = Some v ->
  safe_context (default_baggage c kv) /\ baggage_get (default_baggage c kv) key = Some v.
Proof.
  intros Hs Hk. unfold default_baggage. destruct (baggage_get c kv.1) eqn:E; [done|].
  destruct kv as [k w]. split; [apply extend_baggage_one_safe|].
  rewrite extend_baggage_one, (safe_context_get _ _ Hs), Hk. simpl in E.
  destruct (String.eqb_spec key k) as [->|]; [congruence|]. by rewrite andb_false_r.
Qed.

Lemma defaults_keep c kvs key v :
  safe_context c -> baggage_get c key = Some v ->
  baggage_get (foldl default_baggage c kvs) key = Some v.
Proof.
  revert c. induction kvs as [|kv kvs IH]; intros c Hs Hk; simpl; [done|].
  destruct (default_baggage_keep c kv key v Hs Hk). by apply IH.
Qed.

Lemma valid_baggage_value_decodes v : valid_baggage_value v = true -> is_Some (decode_percent v).
Proof.
  remember (String.length v) as n eqn:Hn. assert (Hle : (String.length v <= n)%nat) by lia. clear Hn.
  revert v Hle. induction n as [|n IH]; intros [|a v] Hle H; simpl in Hle; try lia; [by eexists..|].
  simpl in H |- *. destruct (byte_of a =? 37)%N; simpl.
  - destruct v as [|h [|l v]]; [done|done|]. bool_inv. simpl in Hle.
    destruct (hex_digit h); [|by destruct H]. simpl.
    destruct (hex_digit l); [|by match goal with Hl : is_Some None |- _ => destruct Hl end]. simpl.
    destruct (IH v) as [d ->]; [lia|done|]. by eexists.
  - bool_inv. destruct (IH v) as [d ->]; [lia|done|]. by eexists.
Qed.

(** What a tenant identity may look like. *)
Definition tenant_ok (t : string) : Prop :=
  is_empty t = false /\ str_len t <= 128 /\ has_control t = false.

Lemma baggage_candidates_bounded ms cs : baggage_candidates ms = Ok cs -> Forall tenant_ok cs.
Proof.
  revert cs. induction ms as [|m ms IH]; intros cs; simpl; [by intros [= <-]|].
  destruct (split_once "=" m) as [[key raw]|]; [|auto].
  destruct (negb _); [auto|]. intros H. res_inv.
  match goal with Hn : normalize_tenant_candidate _ = _ |- _ => apply normalize_ok in Hn as [_ ?] end.
  constructor; [done|auto].
Qed.

Lemma tagged_tenant_ok baggage tagged :
  Forall2 (fun v c => baggage_candidates (split_on "," v) = Ok c) baggage tagged ->
  Forall tenant_ok (concat tagged).
Proof.
  induction 1 as [|v c vs cs Hc _ IH]; [constructor|]. simpl. apply Forall_app.
  split; [by eapply baggage_candidates_bounded|done].
Qed.

Lemma Forall_eq_nonempty {A} (P : A -> Prop) (t : A) l :
  Forall (eq t) l -> Forall P l -> l <> [] -> P t.
Proof. intros He HP Hne. destruct l; [done|]. inversion He; inversion HP; by subst. Qed.

Lemma Forall2_in_l {A B} (R : A -> B -> Prop) l k a : Forall2 R l k -> In a l -> exists b, In b k /\ R a b.
Proof. induction 1; simpl; [done|]. intros [<-|Hin]; [by eauto|]. destruct IHForall2 as (? & ? & ?); eauto. Qed.

Lemma in_get_all name v h : In (name, v) h -> In v (get_all name h).
Proof.
  intros Hin. apply in_map_iff. exists (name, v). split; [done|].
  apply filter_In. split; [done|]. apply String.eqb_refl.
Qed.

(** ** Theorems *)

(** a tenant is resolved only when the request, every explicit header and
    every tenant member of every baggage header name it (after trimming and
    percent-decoding), and it is then a non-empty identifier of at most 128
    bytes without control characters. *)
Theorem resolve_http_tenant_sound h request t :
  resolve_http_tenant_identity h request = Ok t ->
  tenant_ok t
  /\ (forall v, request = Some v -> trim v = t)
  /\ (forall name v, In (name, v) h -> name = "x-tenant-id" \/ name = "tenant-id" ->
      exists s, v = Some s /\ trim s = t)
  /\ (forall v, In ("baggage", v) h -> exists s cs,
      v = Some s /\ baggage_candidates (split_on "," s) = Ok cs /\ Forall (eq t) cs).
Proof.
  unfold resolve_http_tenant_identity. intros H.
  apply res_bind_ok in H as (es & He & H). apply res_bind_ok in H as (bs & Hb & H).
  apply map_res_ok in He, Hb.
  apply resolve_candidates_ok in H as (tagged & Htag & Hall & Hexp & Hreq & Hsome).
  assert (Hnorm : forall v, normalize_tenant_candidate v = Ok t -> t = trim v /\ tenant_ok t)
    by (intros v; by rewrite normalize_ok).
  split_and!.
  - destruct Hsome as [Hr|[Hr|Hr]].
    + destruct request as [v|]; [|done]. by apply (Hnorm v), Hreq.
    + destruct es as [|e es]; [done|]. inversion Hexp; subst. by apply (Hnorm e).
    + eapply Forall_eq_nonempty; [done|by eapply tagged_tenant_ok|done].
  - intros v Hv. symmetry. by apply Hnorm, Hreq.
  - intros name v Hin Hname.
    destruct (Forall2_in_l _ _ _ v He) as (s & Hs & Hok).
    { apply in_app_iff. destruct Hname as [-> | ->]; [left|right]; by apply in_get_all. }
    apply ok_or_ok in Hok as ->. exists s. split; [done|]. symmetry. apply Hnorm.
    rewrite Forall_forall in Hexp. by apply Hexp, list_elem_of_In.
  - intros v Hin. destruct (Forall2_in_l _ _ _ v Hb) as (s & Hs & Hok); [by apply in_get_all|].
    apply ok_or_ok in Hok as ->.
    destruct (Forall2_in_l _ _ _ s Htag Hs) as (cs & Hcs & Hc). exists s, cs. split_and!; [done..|].
    rewrite Forall_forall in Hall |- *. intros c Hc'. apply Hall.
    apply list_elem_of_In, in_concat. exists cs. split; [done|]. by apply list_elem_of_In.
Qed.

Lemma resolve_http_tenant_sound_witness :
  resolve_http_tenant_identity
    [("x-tenant-id", Some " acme"); ("baggage", Some "user.tier=gold,tenant.id=a%63me")]
    (Some "acme") = Ok "acme"
  /\ tenant_ok "acme".
Proof.
  split; [vm_compute; reflexivity|].
  apply (resolve_http_tenant_sound
    [("x-tenant-id", Some " acme"); ("baggage", Some "user.tier=gold,tenant.id=a%63me")]
    (Some "acme")). vm_compute. reflexivity.
Defined.

(** A version-00 traceparent. *)
Definition traceparent_shape (v : string) : Prop :=
  exists trace_id parent_id flags,
    v = "00-" +:+ trace_id +:+ "-" +:+ parent_id +:+ "-" +:+ flags
    /\ is_lower_hex trace_id 32 = true /\ all_zero_hex trace_id = false
    /\ is_lower_hex parent_id 16 = true /\ all_zero_hex parent_id = false
    /\ is_lower_hex flags 2 = true.

Lemma traceparent_header_shape v : validate_traceparent_header v = Ok tt <-> traceparent_shape v.
Proof.
  unfold validate_traceparent_header, traceparent_shape. split.
  - pose proof (join_split "-" v) as Hj.
    destruct (split_on "-" v) as [|a [|b [|c [|d [|]]]]]; try done.
    rewrite ensure_ok. intros H. bool_inv. subst a. exists b, c, d. by rewrite <- Hj.
  - intros (tid & pid & fl & -> & Ht & Htz & Hp & Hpz & Hf).
    pose proof (lower_hex_free_of_dash _ _ Ht). pose proof (lower_hex_free_of_dash _ _ Hp).
    pose proof (lower_hex_free_of_dash _ _ Hf).
    assert (Hs : split_on "-" ("00-" +:+ tid +:+ "-" +:+ pid +:+ "-" +:+ fl) = ["00"; tid; pid; fl]).
    { change ("00-" +:+ tid +:+ "-" +:+ pid +:+ "-" +:+ fl)
        with ("00" +:+ String "-" (tid +:+ String "-" (pid +:+ String "-" fl))).
      by rewrite !split_on_app, split_on_free. }
    rewrite Hs, ensure_ok, Ht, Htz, Hp, Hpz, Hf. rewrite !str_len_app.
    unfold is_lower_hex in Ht, Hp, Hf. bool_inv.
    repeat match goal with Hl : str_len _ = _ |- _ => rewrite Hl end. reflexivity.
Qed.

(** The accepted [traceparent] headers are exactly the version-00 ones of
    the W3C grammar: a 32-digit non-zero trace id, a 16-digit non-zero parent id
    and two digits of flags, all lower-case hexadecimal. *)
Theorem traceparent_grammar v : validate_traceparent_header v = Ok tt <-> traceparent_shape v.
Proof. apply traceparent_header_shape. Qed.

Lemma fold_default_get c kvs key :
  safe_context c -> ~ In key (map fst kvs) ->
  baggage_get (foldl default_baggage c kvs) key = baggage_get c key.
Proof.
  revert c. induction kvs as [|[k v] kvs IH]; intros c Hs Hni; simpl in *; [done|].
  assert (Hsafe : safe_context (default_baggage c (k, v))).
  { unfold default_baggage. case_match; [done|]. apply extend_baggage_one_safe. }
  rewrite IH by naive_solver. unfold default_baggage. case_match; [done|].
  rewrite extend_baggage_one, (safe_context_get _ _ Hs).
  destruct (String.eqb_spec key k) as [->|]; [naive_solver|]. by rewrite andb_false_r.
Qed.

Lemma safe_parent_get c parent key :
  baggage_get (with_safe_parent_baggage c parent) key =
  match baggage_get (with_safe_baggage parent) key with
  | Some v => Some v
  | None => baggage_get (with_safe_baggage c) key
  end.
Proof.
  unfold with_safe_parent_baggage, with_safe_baggage, baggage_get. simpl.
  destruct (clone_baggage parent !! key) as [vm|] eqn:E; simpl.
  - by rewrite (lookup_union_Some_l _ _ _ _ E).
  - by rewrite (lookup_union_r _ _ _ E).
Qed.

(** Entering a request, the request's tenant is authoritative over the
    parent's baggage, every other business key the sanitized parent carries
    keeps the parent's value, and a default is used only for a key that neither
    the parent nor the current context carries. *)
Theorem business_context_precedence c parent tenant tier segment region priority :
  is_safe_baggage_entry TENANT_ID tenant = true ->
  let c' := with_business_context_from_parent c parent tenant tier segment region priority in
  baggage_get c' TENANT_ID = Some tenant
  /\ (forall key v, key <> TENANT_ID -> baggage_get (with_safe_baggage parent) key = Some v ->
      baggage_get c' key = Some v)
  /\ (forall key v, key <> TENANT_ID -> baggage_get (with_safe_baggage parent) key = None ->
      baggage_get (with_safe_baggage c) key = Some v -> baggage_get c' key = Some v)
  /\ (is_safe_baggage_entry USER_TIER tier = true ->
      baggage_get (with_safe_baggage parent) USER_TIER = None ->
      baggage_get (with_safe_baggage c) USER_TIER = None -> baggage_get c' USER_TIER = Some tier).
Proof.
  intros Ht. unfold with_business_context_from_parent.
  set (c0 := extend_baggage (with_safe_parent_baggage c parent) [(TENANT_ID, tenant)]).
  assert (Hs0 : safe_context c0) by apply extend_baggage_one_safe.
  assert (Hget : forall key, key <> TENANT_ID ->
    baggage_get c0 key = match baggage_get (with_safe_baggage parent) key with
      | Some v => Some v | None => baggage_get (with_safe_baggage c) key end).
  { intros key Hne. unfold c0. rewrite extend_baggage_one, Ht.
    rewrite (proj2 (String.eqb_neq _ _) Hne). simpl. rewrite <- safe_parent_get.
    apply safe_context_get. apply safe_context_spec. unfold with_safe_parent_baggage. simpl.
    intros k vm [Hk|[_ Hk]]%lookup_union_Some_raw; rewrite lookup_clone_baggage in Hk;
      apply bind_Some in Hk as (vm' & _ & Hk); by case_match; simplify_eq. }
  split_and!.
  - apply defaults_keep; [done|]. unfold c0. by rewrite extend_baggage_one, Ht.
  - intros key v Hne Hp. apply defaults_keep; [done|]. by rewrite Hget, Hp.
  - intros key v Hne Hp Hc. apply defaults_keep; [done|]. by rewrite Hget, Hp.
  - intros Htier Hp Hc. cbn [foldl].
    assert (H0 : baggage_get c0 USER_TIER = None) by (rewrite Hget, Hp; done).
    set (c1 := default_baggage c0 (USER_TIER, tier)).
    assert (H1 : safe_context c1 /\ baggage_get c1 USER_TIER = Some tier).
    { unfold c1, default_baggage. cbn [fst]. rewrite H0.
      split; [apply extend_baggage_one_safe|]. by rewrite extend_baggage_one, Htier. }
    change (baggage_get (foldl default_baggage c1 [("customer.segment", segment);
      ("region", region); ("request.priority", priority)]) USER_TIER = Some tier).
    destruct H1. by apply defaults_keep.
Qed.

Definition sample_parent : Context :=
  mkContext (Some "parent-span")
    (<["tenant.id" := ("other", "")]> (<["region" := ("eu-west-1", "meta")]>
      (<["password" := ("hunter2", "")]> ∅))).

Lemma business_context_precedence_witness :
  baggage_get (with_business_context_from_parent (mkContext None ∅) sample_parent
                 "acme" "gold" "standard" "us-east-1" "normal") TENANT_ID = Some "acme"
  /\ baggage_get (with_business_context_from_parent (mkContext None ∅) sample_parent
                 "acme" "gold" "standard" "us-east-1" "normal") "region" = Some "eu-west-1".
Proof.
  destruct (business_context_precedence (mkContext None ∅) sample_parent
    "acme" "gold" "standard" "us-east-1" "normal" eq_refl) as (H1 & H2 & _).
  split; [exact H1|]. apply H2; [discriminate|]. vm_compute. reflexivity.
Defined.

(** A carrier that the durable injection hands to a table row is complete:
    exactly one non-empty traceparent and tracestate and a baggage header, each
    accepted by its own grammar; whatever the propagator writes, a partial or
    malformed carrier is an error. *)
Theorem durable_injection_complete inject c h :
  inject_durable_context_headers inject c = Ok h ->
  exists tp ts bg,
    get_all "traceparent" h = [Some tp] /\ validate_traceparent_header tp = Ok tt
    /\ get_all "tracestate" h = [Some ts] /\ validate_tracestate_header ts = Ok tt
    /\ joined_header h "baggage" = Ok (Some bg) /\ validate_baggage_header bg = Ok tt
    /\ validate_durable_context h = Ok tt.
Proof.
  unfold inject_durable_context_headers. intros ([] & Hv & [= <-])%res_bind_ok.
  pose proof Hv as Hv'. unfold validate_durable_context in Hv'. res_inv.
  repeat match goal with u : unit |- _ => destruct u end.
  assert (Hsingle : forall h name v, single_header h name = Ok (Some v) -> get_all name h = [Some v]).
  { clear. intros h name v. unfold single_header, strings_or.
    intros (vs & Hvs%map_res_ok & H)%res_bind_ok. destruct vs as [|w [|]]; try done.
    destruct (is_empty w); [done|]. injection H as ->.
    inversion Hvs as [|x y l k Hx Hl]; subst. inversion Hl; subst. by apply ok_or_ok in Hx as ->. }
  repeat match goal with
  | Hh : single_header _ _ = Ok _, Hn : _ = Some _ |- _ => rewrite Hn in Hh; apply Hsingle in Hh
  end. subst. eauto 10.
Qed.

(** A propagator that writes a parent and the tenant, and leaves the trace
    state to the default. *)
Definition sample_inject (c : Context) (h : headers) : headers :=
  h ++ [("traceparent", Some "00-4bf92f3577b34da6a3ce929d0e0e4736-00f067aa0ba902b7-01");
        ("baggage", Some ("tenant.id=" +:+ default "none" (baggage_get c TENANT_ID)))].

Lemma durable_injection_complete_witness :
  exists h, inject_durable_context_headers sample_inject sample_parent = Ok h
  /\ get_all "tracestate" h = [Some "playground=commerce"]
  /\ validate_durable_context h = Ok tt.
Proof.
  eexists. split; [vm_compute; reflexivity|]. split; [vm_compute; reflexivity|].
  eassert (H : inject_durable_context_headers sample_inject sample_parent = Ok _)
    by (vm_compute; reflexivity).
  apply durable_injection_complete in H as (tp & ts & bg & _ & _ & _ & _ & _ & _ & H). exact H.
Defined.
