(* ===== verification/Telemetry.v ===== *)
(** The telemetry library (libs/playground-telemetry/src) apart from its
    propagation: the identity of an invocation and its carrier to child
    processes, the resource attributes, the settings read from the environment,
    the bounded metric labels, the HTTP observability layer and the feature
    flags.  Environment variables are a function from names to values; flagd is
    the answer its provider gave. *)

From Stdlib Require Import SpecFloat.
From S2P Require Import Prelude Values Propagation.
Import Text Float64 Propagation.

(** ** semconv.rs *)

Definition SERVICE_NAME : string := "service.name".
Definition SERVICE_NAMESPACE : string := "service.namespace".
Definition SERVICE_INSTANCE_ID : string := "service.instance.id".
Definition SERVICE_VERSION : string := "service.version".
Definition VCS_REF_HEAD_REVISION : string := "vcs.ref.head.revision".
Definition DEPLOYMENT_ENVIRONMENT_NAME : string := "deployment.environment.name".
Definition EVENT_NAME : string := "event.name".
Definition ERROR_TYPE : string := "error.type".
Definition CLI_INVOCATION_ID : string := "cli.invocation.id".
Definition HTTP_REQUEST_METHOD : string := "http.request.method".
Definition HTTP_ROUTE : string := "http.route".
Definition HTTP_RESPONSE_STATUS_CODE : string := "http.response.status_code".
Definition HTTP_SERVER_REQUEST_DURATION : string := "http.server.request.duration".
Definition SERVER_ADDRESS : string := "server.address".
Definition MESSAGING_SYSTEM : string := "messaging.system".
Definition MESSAGING_DESTINATION_NAME : string := "messaging.destination.name".
Definition MESSAGING_OPERATION_NAME : string := "messaging.operation.name".
Definition PLAYGROUND_NAMESPACE : string := "playground".
Definition DEFAULT_ENVIRONMENT : string := "playground".
Definition SESSION_ID : string := "session.id".
Definition OUTCOME_SUCCESS : string := "success".
Definition OUTCOME_FAILURE : string := "failure".
Definition OUTCOME_ERROR : string := "error".
Definition OUTCOME_TIMEOUT : string := "timeout".

(** ** The environment of a process: [std::env::var(name).ok()] *)

Notation Vars := (string -> option string).

(** [.map(str::trim)] and [.filter(|value| !value.is_empty())] *)
Definition trimmed (value : option string) : option string := non_empty (option_map trim value).

Definition non_empty_env (vars : Vars) (name : string) : option string := trimmed (vars name).

(** ** invocation.rs *)

Definition INVOCATION_ENV : string := "CLI_INVOCATION_ID".

(** The cell [INVOCATION_ID], initialised by the first call from the
    environment or with a fresh UUID *)
Definition invocation_id (vars : Vars) (fresh : string) (cell : option string) : string * option string :=
  let id := match cell with
    | Some id => id
    | None => default fresh (trimmed (vars INVOCATION_ENV))
    end in
  (id, Some id).

(** The keys of a list [key=value,key=value] *)
Definition list_keys (value : string) : list string :=
  omap (fun item => '(key, _) ← split_once "=" item; Some (trim key)) (split_on "," value).

Definition resource_attrs_with_invocation_id (existing : option string) (invocation_id : string) : string :=
  let existing := default "" existing in
  if one_of CLI_INVOCATION_ID (list_keys existing) then existing
  else if is_blank existing then CLI_INVOCATION_ID +:+ "=" +:+ invocation_id
  else existing +:+ "," +:+ CLI_INVOCATION_ID +:+ "=" +:+ invocation_id.

(** ** lib.rs: resources *)

Definition CARGO_PKG_VERSION : string := "0.1.0".

Definition release_from (value : option string) : string := default CARGO_PKG_VERSION (trimmed value).
Definition release (vars : Vars) : string := release_from (vars "RELEASE").
Definition environment_from (value : option string) : string := default DEFAULT_ENVIRONMENT (trimmed value).

Definition service_instance_id (vars : Vars) (pid : Z) (service : string) : string :=
  default (service +:+ "-" +:+ show_Z pid) (vars "HOSTNAME").

Definition resource_attr_list_contains (value : option string) (attr : string) : bool :=
  match value with
  | None => false
  | Some value => existsb (fun pair =>
      match split_once "=" pair with Some (key, _) => String.eqb (trim key) attr | None => false end)
      (split_on "," value)
  end.

(** [iter.find_map(f)] *)
Fixpoint find_map {A B} (f : A -> option B) (l : list A) : option B :=
  match l with
  | [] => None
  | a :: rest => match f a with Some b => Some b | None => find_map f rest end
  end.

Definition resource_attr_value (value : option string) (attr : string) : option string :=
  value ← value;
  find_map (fun pair =>
    '(key, raw) ← split_once "=" pair;
    if String.eqb (trim key) attr then non_empty (Some (trim raw)) else None) (split_on "," value).

Definition vcs_revision_from (git_sha otel_resource : option string) : option string :=
  match non_blank git_sha with
  | Some sha => Some sha
  | None => resource_attr_value otel_resource VCS_REF_HEAD_REVISION
  end.

Definition resource_attributes (vars : Vars) (pid : Z) (service : string) : list (string * string) :=
  let otel_resource_attributes := vars "OTEL_RESOURCE_ATTRIBUTES" in
  [ (SERVICE_NAME, service); (SERVICE_VERSION, release vars); (SERVICE_NAMESPACE, PLAYGROUND_NAMESPACE);
    (SERVICE_INSTANCE_ID, service_instance_id vars pid service);
    (DEPLOYMENT_ENVIRONMENT_NAME, environment_from (vars "PARALLAX_ENV")) ] ++
  match vars INVOCATION_ENV with
  | Some invocation_id =>
      if negb (is_blank invocation_id) &&
         negb (resource_attr_list_contains otel_resource_attributes CLI_INVOCATION_ID)
      then [(CLI_INVOCATION_ID, invocation_id)] else []
  | None => []
  end ++
  match vcs_revision_from (non_empty_env vars "GIT_SHA") otel_resource_attributes with
  | Some git_sha => [(VCS_REF_HEAD_REVISION, git_sha)]
  | None => []
  end.

(** ** lib.rs: settings *)

Definition test_telemetry_enabled (value : option string) : bool := opt_is value "1".

Definition runtime_metrics_enabled (vars : Vars) : bool :=
  match vars "PLAYGROUND_TOKIO_METRICS" with
  | Some value =>
      let value := trim value in
      negb (String.eqb value "0" || eq_ignore_ascii_case value "false" || eq_ignore_ascii_case value "off" ||
            eq_ignore_ascii_case value "no")
  | None => true
  end.

(** In milliseconds *)
Definition metric_export_interval (vars : Vars) : Z :=
  let value := match vars "PLAYGROUND_METRIC_EXPORT_INTERVAL_MS" with
    | Some value => Some value
    | None => vars "OTEL_METRIC_EXPORT_INTERVAL"
    end in
  match value ≫= parse_u64 with
  | Some millis => if 0 <? millis then millis else 5000
  | None => 5000
  end.

Inductive SampleRatioSetting : Type :=
| Unset
| Ratio (ratio : spec_float)
| Invalid.

Definition f64_zero : spec_float := f64_of_Z 0.
Definition f64_one : spec_float := f64_of_Z 1.

Definition sample_ratio_from (value : option string) : SampleRatioSetting :=
  match trimmed value with
  | None => Unset
  | Some value =>
      match parse_f64 value with
      | Some ratio =>
          if is_finite ratio && (f64_le f64_zero ratio && f64_le ratio f64_one) then Ratio ratio else Invalid
      | None => Invalid
      end
  end.

(** Whether the OTLP log layer keeps an event of a target *)
Definition exported_target (target : string) : bool :=
  negb (starts_with "hyper" target || starts_with "tonic" target || starts_with "h2" target ||
        starts_with "reqwest" target || starts_with "opentelemetry" target || starts_with "tower" target).

(** ** lib.rs: metric labels and the HTTP layer *)

Definition CARDINALITY_EVENTS : string := "playground.cardinality.events".
Definition CARDINALITY_BUCKET_ATTR : string := "demo.bucket".
Definition CARDINALITY_BUCKET_COUNT : Z := 16.

(** [hash ^= byte; hash = hash.wrapping_mul(16_777_619)] for each byte *)
Fixpoint cardinality_hash (sku : string) (hash : Z) : Z :=
  match sku with
  | "" => hash
  | String a rest => cardinality_hash rest ((Z.lxor hash (Z.of_N (byte_of a)) * 16777619) mod u64_modulus)
  end.
Definition cardinality_bucket (sku : string) : Z := cardinality_hash sku 2166136261 mod CARDINALITY_BUCKET_COUNT.

(** What is reported: a change of a counter, a histogram's sample, an attribute
    of the current span, its error *)
Inductive Report : Type :=
| CounterAdd (name : string) (delta : Z) (attrs : list (string * string))
| DurationSample (attrs : list (string * string))
| SpanRecord (key value : string)
| SpanError (description : string).

Definition record_cardinality_event (sku : string) : Report :=
  CounterAdd CARDINALITY_EVENTS 1 [(CARDINALITY_BUCKET_ATTR, show_Z (cardinality_bucket sku))].

Definition HTTP_UNMATCHED_ROUTE : string := "<unmatched>".
Definition HTTP_SERVER_ACTIVE_REQUESTS : string := "http.server.active_requests".

Definition stable_http_route (matched_path : option string) : string := default HTTP_UNMATCHED_ROUTE matched_path.
Definition http_server_error_type (status : Z) : option string :=
  if 500 <=? status then Some "http.server.error" else None.

(** The layer around one request: what is reported before the handler runs, and
    after it.  [None] for the status is a request whose future was dropped: the
    guard still takes it out of the counter. *)
Definition inflight_attrs (method : string) (matched_path : option string) : list (string * string) :=
  [(HTTP_REQUEST_METHOD, method); (HTTP_ROUTE, stable_http_route matched_path)].
Definition inflight_guard_drop (method : string) (matched_path : option string) : Report :=
  CounterAdd HTTP_SERVER_ACTIVE_REQUESTS (-1) (inflight_attrs method matched_path).
Definition http_server_observability (method : string) (matched_path : option string) (handler : list Report)
    (status : option Z) : list Report :=
  CounterAdd HTTP_SERVER_ACTIVE_REQUESTS 1 (inflight_attrs method matched_path) :: handler ++
  match status with
  | Some status =>
      SpanRecord HTTP_RESPONSE_STATUS_CODE (show_Z status) ::
      match http_server_error_type status with
      | Some error_type => [SpanRecord ERROR_TYPE error_type; SpanError error_type]
      | None => []
      end ++
      [DurationSample (inflight_attrs method matched_path ++ [(HTTP_RESPONSE_STATUS_CODE, show_Z status)])]
  | None => []
  end ++ [inflight_guard_drop method matched_path].

(** A typed event: its name, target, severity and body, and its attributes *)
Record EventRecord : Type := mkEventRecord {
  er_name : string; er_target : string; er_severity : string; er_body : string; er_attributes : list (string * string) }.
Definition populate_event_record (name : string) (attrs : list (string * string)) : EventRecord :=
  mkEventRecord name "playground.events" "INFO" name ((EVENT_NAME, name) :: attrs).

(** ** feature_flags.rs *)

Definition env_flag (vars : Vars) (name : string) : bool :=
  match vars name with Some value => String.eqb value "1" || eq_ignore_ascii_case value "true" | None => false end.

(** What an evaluation logs *)
Record Evaluation : Type := mkEvaluation {
  ev_provider_name : string; ev_variant : string; ev_error : string }.

(** flagd's answer: an error of its set-up or resolution, or the value with the
    variant it may name *)
Definition feature_flag (vars : Vars) (env_name : string) (flagd : result string (bool * option string)) :
    bool * Evaluation :=
  let env_override := env_flag vars env_name in
  let '(provider_name, provider_value, variant, error) := match flagd with
    | Ok (value, variant) => ("flagd", value, default (if value then "on" else "off") variant, "")
    | Err error => ("env", false, "off", error)
    end in
  (provider_value || env_override,
   mkEvaluation provider_name (if env_override then "env-on" else variant) error).

Definition feature_variant (vars : Vars) (default_variant env_name : string) (flagd : result string string) :
    string * Evaluation :=
  let '(provider_name, variant, error) := match trimmed (vars env_name) with
    | Some value => ("env", value, "")
    | None => match flagd with
              | Ok value => ("flagd", value, "")
              | Err error => ("default", default_variant, error)
              end
    end in
  (variant, mkEvaluation provider_name variant error).

(** ** Lemmas *)

Lemma split_on_join c s t : split_on c (s +:+ String c t) = split_on c s ++ split_on c t.
Proof.
  induction s as [|a s IH]; [simpl; by rewrite Ascii.eqb_refl|]. rewrite str_append_cons. simpl.
  destruct (Ascii.eqb a c); [by rewrite IH|]. rewrite IH. pose proof (split_on_nonempty c s).
  by destruct (split_on c s).
Qed.

Lemma list_keys_app s t : list_keys (s +:+ "," +:+ t) = list_keys s ++ list_keys t.
Proof. unfold list_keys. rewrite str_append_cons, split_on_join. apply omap_app. Qed.

Lemma invocation_pair_keys id :
  free_of "," id = true -> list_keys (CLI_INVOCATION_ID +:+ "=" +:+ id) = [CLI_INVOCATION_ID].
Proof.
  intros H. unfold list_keys. rewrite split_on_free; [reflexivity|].
  exact H.
Qed.

Lemma contains_keys value attr : resource_attr_list_contains (Some value) attr = one_of attr (list_keys value).
Proof.
  unfold resource_attr_list_contains, list_keys, one_of. induction (split_on "," value) as [|pair rest IH]; [done|].
  simpl. rewrite IH. destruct (split_once "=" pair) as [[key raw]|]; [|done]. simpl. by rewrite String.eqb_sym.
Qed.

(** How often a list of attributes names the invocation *)
Definition carried (keys : list string) : nat := length (List.filter (String.eqb CLI_INVOCATION_ID) keys).

Lemma carried_app k l : carried (k ++ l) = (carried k + carried l)%nat.
Proof. unfold carried. by rewrite List.filter_app, length_app. Qed.

Lemma carried_none keys : one_of CLI_INVOCATION_ID keys = false -> carried keys = 0%nat.
Proof.
  unfold one_of, carried. induction keys as [|k keys IH]; [done|]. cbn [existsb List.filter].
  intros [E H]%orb_false_iff. rewrite E. by apply IH.
Qed.

Lemma carried_some keys : one_of CLI_INVOCATION_ID keys = true -> (1 <= carried keys)%nat.
Proof.
  unfold one_of, carried. induction keys as [|k keys IH]; [done|]. cbn [existsb List.filter].
  destruct (String.eqb CLI_INVOCATION_ID k); simpl; [lia|]. done.
Qed.

Lemma carried_by_child existing id :
  free_of "," id = true ->
  carried (list_keys (resource_attrs_with_invocation_id existing id)) =
  Nat.max 1 (carried (list_keys (default "" existing))) \/ is_blank (default "" existing) = true.
Proof.
  intros Hid. unfold resource_attrs_with_invocation_id. set (e := default "" existing).
  destruct (one_of CLI_INVOCATION_ID (list_keys e)) eqn:E.
  { left. apply carried_some in E. lia. }
  destruct (is_blank e) eqn:B; [by right|]. left.
  rewrite list_keys_app, carried_app, invocation_pair_keys, (carried_none _ E) by done. reflexivity.
Qed.

Lemma carries existing id : free_of "," id = true ->
  one_of CLI_INVOCATION_ID (list_keys (resource_attrs_with_invocation_id existing id)) = true.
Proof.
  intros Hid. unfold resource_attrs_with_invocation_id. set (e := default "" existing).
  destruct (one_of CLI_INVOCATION_ID (list_keys e)) eqn:E; [done|].
  assert (Hp : one_of CLI_INVOCATION_ID (list_keys (CLI_INVOCATION_ID +:+ "=" +:+ id)) = true).
  { by rewrite invocation_pair_keys. }
  destruct (is_blank e); [done|]. rewrite list_keys_app. unfold one_of in *. rewrite existsb_app, Hp.
  apply orb_true_r.
Qed.

Lemma wrapped_child_attributes vars pid service attrs :
  vars "OTEL_RESOURCE_ATTRIBUTES" = Some attrs -> one_of CLI_INVOCATION_ID (list_keys attrs) = true ->
  carried (map fst (resource_attributes vars pid service)) = 0%nat.
Proof.
  intros Hv Hc. unfold resource_attributes. rewrite Hv, contains_keys, Hc, !map_app, !carried_app.
  destruct (vars INVOCATION_ENV) as [id|]; [rewrite andb_false_r|];
    by destruct (vcs_revision_from _ _).
Qed.

(** A process wrapped by the CLI carries its invocation exactly once.  The
    attribute list given to it keeps whatever entries it had, names the
    invocation once when it named it at most once, is left alone by a second
    wrapping, and its own resource attributes do not repeat the identity. *)
Theorem invocation_carried_once vars pid service existing id id' :
  free_of "," id = true -> (carried (list_keys existing) <= 1)%nat -> is_blank existing = false ->
  let attrs := resource_attrs_with_invocation_id (Some existing) id in
  vars "OTEL_RESOURCE_ATTRIBUTES" = Some attrs ->
  (carried (list_keys attrs) + carried (map fst (resource_attributes vars pid service)) = 1)%nat /\
  (exists added, attrs = existing +:+ added) /\
  resource_attrs_with_invocation_id (Some attrs) id' = attrs.
Proof.
  intros Hid Hone Hblank attrs Hv. pose proof (carries (Some existing) id Hid) as Hc.
  rewrite (wrapped_child_attributes vars pid service attrs) by done. split_and!.
  - destruct (carried_by_child (Some existing) id Hid) as [H|H]; [|simpl in H; congruence].
    unfold attrs. rewrite H. simpl. lia.
  - unfold attrs, resource_attrs_with_invocation_id. change (default "" (Some existing)) with existing.
    rewrite Hblank. destruct (one_of _ (list_keys existing)); [exists ""; symmetry; apply str_append_nil|]. by eexists.
  - fold attrs in Hc. unfold resource_attrs_with_invocation_id. change (default "" (Some attrs)) with attrs.
    by rewrite Hc.
Qed.

Definition wrapped_vars (name : string) : option string :=
  if String.eqb name "OTEL_RESOURCE_ATTRIBUTES"
  then Some (resource_attrs_with_invocation_id (Some "service.name=cli") "inv-a")
  else if String.eqb name INVOCATION_ENV then Some "inv-a" else None.

Lemma invocation_carried_once_witness :
  resource_attrs_with_invocation_id (Some "service.name=cli") "inv-a" = "service.name=cli,cli.invocation.id=inv-a" /\
  (carried (list_keys "service.name=cli,cli.invocation.id=inv-a") +
   carried (map fst (resource_attributes wrapped_vars 7 "child")) = 1)%nat.
Proof.
  split; [reflexivity|].
  apply (invocation_carried_once wrapped_vars 7 "child" "service.name=cli" "inv-a" "inv-b"); reflexivity || (vm_compute; lia).
Defined.

Lemma hash_range sku hash : 0 <= hash < u64_modulus -> 0 <= cardinality_hash sku hash < u64_modulus.
Proof.
  revert hash. induction sku as [|a sku IH]; intros hash H; [done|]. cbn [cardinality_hash]. apply IH.
  apply Z.mod_pos_bound. reflexivity.
Qed.

(** The bucket of any text is one of sixteen. *)
Lemma bucket_bounded sku : 0 <= cardinality_bucket sku < CARDINALITY_BUCKET_COUNT.
Proof. apply Z.mod_pos_bound. reflexivity. Qed.

Lemma inflight_settles method matched_path status :
  foldr (fun r acc => match r with CounterAdd n d _ => if String.eqb n HTTP_SERVER_ACTIVE_REQUESTS then d + acc else acc | _ => acc end) 0
    (http_server_observability method matched_path [] status) = 0.
Proof.
  unfold http_server_observability. destruct status as [s|]; [|reflexivity]. simpl.
  by destruct (http_server_error_type s).
Qed.

(** The sampler is only ever given a number between zero and one. *)
Lemma sample_ratio_bounded value ratio :
  sample_ratio_from value = Ratio ratio ->
  is_finite ratio = true /\ f64_le f64_zero ratio = true /\ f64_le ratio f64_one = true.
Proof.
  unfold sample_ratio_from. destruct (trimmed value); [|done]. destruct (parse_f64 _) as [r|]; [|done].
  destruct (_ && _) eqn:E; [|done]. intros [= <-]. bool_inv. done.
Qed.

Example sample_ratios :
  map sample_ratio_from [None; Some " "; Some "0.25"; Some "1.5"; Some "-0.1"; Some "abc"; Some "NaN"] =
  [Unset; Unset; Ratio (f64_div f64_one (f64_of_Z 4)); Invalid; Invalid; Invalid; Invalid].
Proof. vm_compute. reflexivity. Qed.
