(* ===== verification/RequestShapes.v ===== *)
(** The request shapes of the telemetry generator: spans and metrics, the hand-built traces and
    the corpora. *)

From Stdlib Require Import SpecFloat.
From S2P Require Import Prelude Values Propagation Telemetry.

(** The hand-built telemetry shapes of the CLI (cli/src/shapes.rs), their
    building blocks: the OTLP data with the fields the code sets (every other
    field has its default), identities and their hexadecimal text, span
    specifications, the grouping of spans under their services, log records and
    requests.  Generators draw UUIDs and read the clock: they run against a
    [ShapeEnv].  Arithmetic on [u64] is that of a release build, which wraps;
    a debug build stops where it would. *)
Module Shapes.

Import Text Telemetry Propagation.

Notation bytes := (list Z).

(** ** The OTLP data *)

Inductive AnyValue : Type :=
| StringValue (s : string)
| IntValue (n : Z).

Record KeyValue : Type := mkKeyValue { kv_key : string; kv_value : AnyValue }.

Record Event : Type := mkEvent { evt_time : Z; evt_name : string; evt_attributes : list KeyValue }.
Record Link : Type := mkLink { lk_trace_id : bytes; lk_span_id : bytes }.
Record Status : Type := mkStatus { sta_code : Z; sta_message : string }.

Record Span : Type := mkSpan {
  sp_trace_id : bytes; sp_span_id : bytes; sp_parent_span_id : bytes; sp_name : string; sp_kind : Z;
  sp_start : Z; sp_end : Z; sp_attributes : list KeyValue; sp_events : list Event; sp_links : list Link;
  sp_status : option Status }.

(** The attributes of the resource and the scopes with their contents *)
Record ResourceSpans : Type := mkResourceSpans { rs_resource : list KeyValue; rs_scopes : list (list Span) }.
Notation ExportTraceServiceRequest := (list ResourceSpans).

Record LogRecord : Type := mkLogRecord {
  lr_time : Z; lr_observed : Z; lr_severity : Z; lr_severity_text : string; lr_body : string;
  lr_attributes : list KeyValue; lr_trace_id : bytes; lr_span_id : bytes }.
Record ResourceLogs : Type := mkResourceLogs { rl_resource : list KeyValue; rl_scopes : list (list LogRecord) }.
Notation ExportLogsServiceRequest := (list ResourceLogs).

Definition kv (key value : string) : KeyValue := mkKeyValue key (StringValue value).
Definition kv_int (key : string) (value : Z) : KeyValue := mkKeyValue key (IntValue value).

Definition SERVICE : string := "playground-shapes".
Definition PR71_SERVICE : string := "m3-legs".

(** ** [u64] *)

Definition add64 (a b : Z) : Z := (a + b) mod u64_modulus.
Definition sub64 (a b : Z) : Z := (a - b) mod u64_modulus.
Definition mul64 (a b : Z) : Z := (a * b) mod u64_modulus.
Definition saturating_sub64 (a b : Z) : Z := Z.max 0 (a - b).

(** [u64::to_be_bytes], [u64::from_be_bytes] *)
Definition byte_at (n i : Z) : Z := Z.land (Z.shiftr n (8 * i)) 255.
Definition to_be_bytes (n : Z) : bytes := map (byte_at n) [7; 6; 5; 4; 3; 2; 1; 0].
Definition from_be_bytes (l : bytes) : Z := foldl (fun acc b => Z.lor (Z.shiftl acc 8) b) 0 l.

(** ** What a generator draws on *)

Record ShapeEnv : Type := mkShapeEnv {
  se_uuid : nat -> bytes;      (* the UUIDs, sixteen bytes each *)
  se_clock : nat -> Z;         (* readings of the clock, nanoseconds since the epoch *)
  se_vars : Vars;
  se_invocation : string }.    (* [invocation::invocation_id()] *)

(** UUIDs drawn and clock readings taken so far *)
Notation Drawn := (nat * nat)%type.
Notation Gen A := (ShapeEnv -> Drawn -> A * Drawn).

Definition g_ret {A} (a : A) : Gen A := fun _ d => (a, d).
Definition g_bind {A B} (m : Gen A) (k : A -> Gen B) : Gen B := fun e d => let '(a, d') := m e d in k a e d'.

Declare Scope gen_scope.
Delimit Scope gen_scope with gen.
Notation "x <~ m ;; k" := (g_bind m (fun x => k)) (at level 100, m at next level, right associativity) : gen_scope.
Local Open Scope gen_scope.

Definition new_v4 : Gen bytes := fun e d => (se_uuid e d.1, (S d.1, d.2)).
Definition now_nanos : Gen Z := fun e d => (se_clock e d.2 mod u64_modulus, (d.1, S d.2)).

(** [for index in ..] over a list, collecting one value each *)
Fixpoint g_each {A B} (f : A -> Gen B) (l : list A) : Gen (list B) :=
  match l with
  | [] => g_ret []
  | a :: rest => b <~ f a ;; bs <~ g_each f rest ;; g_ret (b :: bs)
  end.

Definition id16 (seed : Z) : Gen bytes := uuid <~ new_v4 ;; g_ret (take 8 uuid ++ to_be_bytes seed).
Definition id8 (seed : Z) : Gen bytes :=
  uuid <~ new_v4 ;; g_ret (to_be_bytes (Z.lxor seed (from_be_bytes (take 8 uuid)))).

(** ** Span specifications *)

Record SpanSpec : Type := mkSpanSpec {
  ss_trace : bytes; ss_id : bytes; ss_parent : option bytes; ss_name : string; ss_kind : Z; ss_start : Z;
  ss_end : Z; ss_error : bool; ss_status_message : option string; ss_attrs : list KeyValue;
  ss_events : list Event; ss_links : list Link; ss_service : option string }.

Definition basic (trace : bytes) (seed : Z) (parent : option bytes) (name : string) (start : Z) : Gen SpanSpec :=
  id <~ id8 seed ;;
  g_ret (mkSpanSpec trace id parent name 1 start (add64 start 5000000) false None [] [] [] None).

(** Assignments to the fields of a specification *)
Definition set_kind (kind : Z) (s : SpanSpec) : SpanSpec :=
  mkSpanSpec (ss_trace s) (ss_id s) (ss_parent s) (ss_name s) kind (ss_start s) (ss_end s) (ss_error s)
    (ss_status_message s) (ss_attrs s) (ss_events s) (ss_links s) (ss_service s).
Definition set_end (end_ : Z) (s : SpanSpec) : SpanSpec :=
  mkSpanSpec (ss_trace s) (ss_id s) (ss_parent s) (ss_name s) (ss_kind s) (ss_start s) end_ (ss_error s)
    (ss_status_message s) (ss_attrs s) (ss_events s) (ss_links s) (ss_service s).
Definition set_error (error : bool) (s : SpanSpec) : SpanSpec :=
  mkSpanSpec (ss_trace s) (ss_id s) (ss_parent s) (ss_name s) (ss_kind s) (ss_start s) (ss_end s) error
    (ss_status_message s) (ss_attrs s) (ss_events s) (ss_links s) (ss_service s).
Definition set_status_message (message : string) (s : SpanSpec) : SpanSpec :=
  mkSpanSpec (ss_trace s) (ss_id s) (ss_parent s) (ss_name s) (ss_kind s) (ss_start s) (ss_end s) (ss_error s)
    (Some message) (ss_attrs s) (ss_events s) (ss_links s) (ss_service s).
Definition set_attrs (attrs : list KeyValue) (s : SpanSpec) : SpanSpec :=
  mkSpanSpec (ss_trace s) (ss_id s) (ss_parent s) (ss_name s) (ss_kind s) (ss_start s) (ss_end s) (ss_error s)
    (ss_status_message s) attrs (ss_events s) (ss_links s) (ss_service s).
Definition set_events (events : list Event) (s : SpanSpec) : SpanSpec :=
  mkSpanSpec (ss_trace s) (ss_id s) (ss_parent s) (ss_name s) (ss_kind s) (ss_start s) (ss_end s) (ss_error s)
    (ss_status_message s) (ss_attrs s) events (ss_links s) (ss_service s).
Definition set_links (links : list Link) (s : SpanSpec) : SpanSpec :=
  mkSpanSpec (ss_trace s) (ss_id s) (ss_parent s) (ss_name s) (ss_kind s) (ss_start s) (ss_end s) (ss_error s)
    (ss_status_message s) (ss_attrs s) (ss_events s) links (ss_service s).
Definition set_service (service : string) (s : SpanSpec) : SpanSpec :=
  mkSpanSpec (ss_trace s) (ss_id s) (ss_parent s) (ss_name s) (ss_kind s) (ss_start s) (ss_end s) (ss_error s)
    (ss_status_message s) (ss_attrs s) (ss_events s) (ss_links s) (Some service).
Definition push_attr (attribute : KeyValue) (s : SpanSpec) : SpanSpec := set_attrs (ss_attrs s ++ [attribute]) s.
Definition push_event (event : Event) (s : SpanSpec) : SpanSpec := set_events (ss_events s ++ [event]) s.
Definition push_link (link : Link) (s : SpanSpec) : SpanSpec := set_links (ss_links s ++ [link]) s.

(** ** Requests *)

Definition env_git_sha (vars : Vars) : option string := trimmed (vars "GIT_SHA").

Definition required_resource_kvs (vars : Vars) (service : string) (git_sha : option string) : list KeyValue :=
  [ kv SERVICE_NAME service; kv SERVICE_VERSION (default "0.1.0" (non_blank (vars "RELEASE")));
    kv DEPLOYMENT_ENVIRONMENT_NAME "playground" ] ++
  match trimmed git_sha with Some sha => [kv VCS_REF_HEAD_REVISION sha] | None => [] end.

Definition service_of (spec : SpanSpec) : string := default SERVICE (ss_service spec).

Definition span_of (spec : SpanSpec) : Span :=
  mkSpan (ss_trace spec) (ss_id spec) (default [] (ss_parent spec)) (ss_name spec) (ss_kind spec)
    (ss_start spec) (ss_end spec) (ss_attrs spec) (ss_events spec) (ss_links spec)
    (if ss_error spec then Some (mkStatus 2 (default "shape error" (ss_status_message spec))) else None).

(** The first group with the span's service takes it; without one a new group
    is added at the end. *)
Fixpoint add_to_group (service : string) (span : Span) (groups : list (string * list Span)) :
    list (string * list Span) :=
  match groups with
  | [] => [(service, [span])]
  | (name, spans) :: rest =>
      if String.eqb name service then (name, spans ++ [span]) :: rest
      else (name, spans) :: add_to_group service span rest
  end.
Definition group_spans (specs : list SpanSpec) : list (string * list Span) :=
  foldl (fun groups spec => add_to_group (service_of spec) (span_of spec) groups) [] specs.

Definition traces_request (e : ShapeEnv) (specs : list SpanSpec) : ExportTraceServiceRequest :=
  map (fun '(service, spans) => mkResourceSpans
    (required_resource_kvs (se_vars e) service (env_git_sha (se_vars e)) ++ [kv CLI_INVOCATION_ID (se_invocation e)])
    [spans]) (group_spans specs).

Definition severity_text (severity : Z) : string :=
  if 21 <=? severity then "FATAL" else if 17 <=? severity then "ERROR" else if 13 <=? severity then "WARN"
  else if 9 <=? severity then "INFO" else "DEBUG".

Definition log_record (e : ShapeEnv) (ts severity : Z) (body : string) (attrs : list KeyValue) : LogRecord :=
  mkLogRecord ts ts severity (severity_text severity) body (attrs ++ [kv CLI_INVOCATION_ID (se_invocation e)]) [] [].
Definition pin_record (trace_id span_id : bytes) (r : LogRecord) : LogRecord :=
  mkLogRecord (lr_time r) (lr_observed r) (lr_severity r) (lr_severity_text r) (lr_body r) (lr_attributes r)
    trace_id span_id.

Definition logs_request_for_service (e : ShapeEnv) (service : string) (records : list LogRecord) :
    ExportLogsServiceRequest :=
  [mkResourceLogs (required_resource_kvs (se_vars e) service (env_git_sha (se_vars e))) [records]].
Definition logs_request (e : ShapeEnv) : list LogRecord -> ExportLogsServiceRequest := logs_request_for_service e SERVICE.

(** ** Hexadecimal *)

Definition HEX : string := "0123456789abcdef".
Definition hex_char (n : Z) : ascii := default "0"%char (String.get (Z.to_nat n) HEX).

Fixpoint encode_hex (l : bytes) : string :=
  match l with
  | [] => ""
  | b :: rest => String (hex_char (Z.shiftr b 4)) (String (hex_char (Z.land b 15)) (encode_hex rest))
  end.

(** Why a decoding fails: the length, a digit, or a slice inside a character,
    where the code panics *)
Inductive hex_error : Type :=
| WrongLength (expected_bytes length : Z)
| InvalidDigit
| SlicePanic.

(** [u8::from_str_radix(pair, 16)] of two bytes: a plus sign may come first. *)
Definition byte_from_hex (a b : ascii) : option Z :=
  if Ascii.eqb a "+" then option_map Z.of_N (hex_digit b)
  else high ← hex_digit a; low ← hex_digit b; Some (16 * Z.of_N high + Z.of_N low).

(** A byte that continues a character *)
Definition continuation (a : ascii) : bool := ((128 <=? byte_of a) && (byte_of a <=? 191))%N.
Definition starts_inside (s : string) : bool := match s with "" => false | String a _ => continuation a end.

Fixpoint decode_pairs (hex : string) : result hex_error bytes :=
  match hex with
  | "" => Ok []
  | String a "" => Err SlicePanic
  | String a (String b rest) =>
      if starts_inside hex || starts_inside rest then Err SlicePanic
      else match byte_from_hex a b with
           | None => Err InvalidDigit
           | Some byte => res_bind (decode_pairs rest) (fun l => Ok (byte :: l))
           end
  end.
Definition decode_hex_id (hex : string) (expected_bytes : Z) : result hex_error bytes :=
  if negb (str_len hex =? expected_bytes * 2) then Err (WrongLength expected_bytes (str_len hex))
  else decode_pairs hex.

(** The printed form of a trace id *)
Definition hex : bytes -> string := encode_hex.

Definition first_span_trace_id (request : ExportTraceServiceRequest) : result string string :=
  match resource ← head request; scope ← head (rs_scopes resource); head scope with
  | Some span =>
      match sp_trace_id span with
      | [] => Err "issue seed missing trace id"
      | trace_id => Ok (encode_hex trace_id)
      end
  | None => Err "issue seed missing trace id"
  end.

End Shapes.

(** The trace shapes of cli/src/shapes.rs: every generator of span
    specifications, as written. *)
Module ShapesTraces.

Import Text Telemetry Propagation Shapes.

Local Open Scope gen_scope.

(** [s.repeat(n)] *)
Fixpoint str_repeat (n : nat) (s : string) : string :=
  match n with O => "" | S n' => s +:+ str_repeat n' s end.

(** [0..n] *)
Definition range (n : Z) : list Z := seqZ 0 n.

(** t-deep: [parent] is the identity of the span before. *)
Fixpoint t_deep_from (trace : bytes) (base : Z) (parent : option bytes) (depths : list Z) : Gen (list SpanSpec) :=
  match depths with
  | [] => g_ret []
  | depth :: rest =>
      let service := nth (Z.to_nat (depth mod 3)) ["gateway"; "orders"; "billing"] "" in
      span <~ basic trace (depth + 1) parent (service +:+ ".step_" +:+ show_Z depth) (add64 base (depth * 1000000)) ;;
      let span := set_end (add64 base ((14 - depth) * 1000000 + 14000000)) span in
      spans <~ t_deep_from trace base (Some (ss_id span)) rest ;;
      g_ret (span :: spans)
  end.
Definition t_deep : Gen (list SpanSpec) :=
  trace <~ id16 1 ;;
  base <~ now_nanos ;;
  t_deep_from trace base None (range 14).

Definition t_wide : Gen (list SpanSpec) :=
  trace <~ id16 2 ;;
  base <~ now_nanos ;;
  root <~ basic trace 1 None "fanout.root" base ;;
  children <~ g_each (fun index =>
    basic trace (index + 2) (Some (ss_id root)) ("fanout.child_" +:+ show_Z index) (add64 base (index * 10000)))
    (range 520) ;;
  g_ret (root :: children).

Definition t_multiroot : Gen (list SpanSpec) :=
  trace <~ id16 3 ;;
  base <~ now_nanos ;;
  alpha <~ basic trace 1 None "root.alpha" base ;;
  beta <~ basic trace 2 None "root.beta" (add64 base 2000000) ;;
  g_ret [alpha; beta].

Definition t_orphan : Gen (list SpanSpec) :=
  trace <~ id16 4 ;;
  base <~ now_nanos ;;
  root <~ basic trace 1 None "orphan.root" base ;;
  never_exported <~ id8 999 ;;
  orphan <~ basic trace 2 (Some never_exported) "orphan.detached_child" (add64 base 1000000) ;;
  g_ret [root; set_error true orphan].

Definition t_skew : Gen (list SpanSpec) :=
  trace <~ id16 5 ;;
  base <~ now_nanos ;;
  parent <~ basic trace 1 None "skew.client_call" base ;;
  let parent := set_end (add64 base 200000000) (set_kind 3 parent) in
  child <~ basic trace 2 (Some (ss_id parent)) "skew.server_handle" (sub64 base 120000000) ;;
  g_ret [parent; set_service (SERVICE +:+ "-remote") (set_end (add64 base 5000000) (set_kind 2 child))].

Definition t_zero : Gen (list SpanSpec) :=
  trace <~ id16 6 ;;
  base <~ now_nanos ;;
  root <~ basic trace 1 None "zero.root" base ;;
  zero <~ basic trace 2 (Some (ss_id root)) "zero.instant" (add64 base 1000) ;;
  let zero := set_end (ss_start zero) zero in
  micro <~ basic trace 3 (Some (ss_id root)) "zero.microsecond_twin" (add64 base 2000) ;;
  g_ret [root; zero; set_end (add64 (ss_start micro) 1000) micro].

Definition t_links : Gen (list SpanSpec) :=
  trace_a <~ id16 7 ;;
  trace_b <~ id16 8 ;;
  base <~ now_nanos ;;
  a <~ basic trace_a 1 None "links.origin" base ;;
  b <~ basic trace_b 2 None "links.target" (add64 base 4000000) ;;
  let a := push_link (mkLink trace_b (ss_id b)) a in
  g_ret [a; push_link (mkLink trace_a (ss_id a)) b].

Definition t_longnames : Gen (list SpanSpec) :=
  trace <~ id16 9 ;;
  base <~ now_nanos ;;
  let long_name := "long.name.🛰️." +:+ str_repeat 96 "セグメント/" in
  span <~ basic trace 1 None long_name base ;;
  let span := push_attr (kv "shape.long_value" ("v-🧪-" +:+ str_repeat 240 "payload-Ünïcode-")) span in
  g_ret [push_attr (kv ("shape.long_key." +:+ str_repeat 160 "k") "short") span].

Definition newline : string := String (ascii_of_nat 10) "".
Definition tab : string := String (ascii_of_nat 9) "".

Definition exception_shapes : list (string * string * string) := [
  ("rust", "shapes::CheckoutError",
   "Error: checkout failed" +:+ newline +:+ newline +:+ "Caused by:" +:+ newline +:+
   "    0: reserving inventory" +:+ newline +:+ "    1: connection reset by peer" +:+ newline +:+ newline +:+
   "Stack backtrace:" +:+ newline +:+ "   0: shapes::checkout" +:+ newline +:+
   "             at ./src/checkout.rs:42:13" +:+ newline +:+ "   1: tokio::runtime::task::core::Core<T,S>::poll");
  ("java", "java.lang.IllegalStateException",
   "java.lang.IllegalStateException: checkout failed" +:+ newline +:+ tab +:+
   "at dev.tailrocks.shapes.Checkout.submit(Checkout.java:42)" +:+ newline +:+ tab +:+
   "at java.base/java.util.concurrent.FutureTask.run(FutureTask.java:317)" +:+ newline +:+
   "Caused by: java.net.SocketException: Connection reset" +:+ newline +:+ tab +:+
   "at java.base/sun.nio.ch.NioSocketImpl.implRead(NioSocketImpl.java:314)");
  ("browser", "TypeError",
   "TypeError: Cannot read properties of undefined (reading 'total')" +:+ newline +:+
   "    at submitCheckout (https://shop.example/assets/checkout-9f2.js:1:8214)" +:+ newline +:+
   "    at HTMLFormElement.onSubmit (https://shop.example/assets/app-77a.js:2:1911)")].

Definition t_events : Gen (list SpanSpec) :=
  trace <~ id16 10 ;;
  base <~ now_nanos ;;
  span <~ basic trace 1 None "events.flood" base ;;
  let ticks := map (fun index =>
    mkEvent (add64 base (index * 50000)) ("progress.tick_" +:+ show_Z index) [kv_int "tick" index]) (range 48) in
  let exceptions := map (fun '(language, error_type, stack) =>
    mkEvent (add64 base 3000000) "exception"
      [kv "exception.type" error_type; kv "exception.message" (language +:+ " failure");
       kv "exception.stacktrace" stack]) exception_shapes in
  g_ret [set_events (ss_events span ++ ticks ++ exceptions) (set_error true span)].

(** ** Requests for the product checks *)

Definition issue_seed : Gen ExportTraceServiceRequest :=
  trace <~ id16 193 ;;
  base <~ now_nanos ;;
  span <~ basic trace 1 None "checkout" base ;;
  let span := set_status_message "connection refused" (set_error true (set_service "checkout" span)) in
  let span := push_attr (kv "exception.message" "connection refused")
    (push_attr (kv "exception.type" "TimeoutError") span) in
  let span := push_event (mkEvent (add64 base 1000000) "exception"
    [kv "exception.type" "TimeoutError"; kv "exception.message" "connection refused"]) span in
  fun e d => (traces_request e [span], d).

(** Seed, statement and duration of the ranked database spans *)
Definition pr71_statements : list (Z * string * Z) := [
  (49457, "SELECT * FROM orders WHERE id = 1", 50); (49458, "SELECT * FROM orders WHERE id = 2", 60);
  (49459, "SELECT * FROM orders WHERE id = 3", 40); (49460, "SELECT * FROM users WHERE id = 7", 10)].

Definition pr71_db_spans : Gen (bytes * bytes * list SpanSpec) :=
  trace <~ id16 3091 ;;
  base <~ now_nanos ;;
  root <~ basic trace 49456 None "m3legs.checkout" base ;;
  let root := set_end (add64 base 300000000) (set_service PR71_SERVICE root) in
  spans <~ g_each (fun '(seed, statement, duration_ms) =>
    span <~ basic trace seed (Some (ss_id root)) "db.query" (add64 base ((seed - 49456) * 1000000)) ;;
    let span := set_service PR71_SERVICE span in
    let span := set_end (add64 (ss_start span) (duration_ms * 1000000)) span in
    g_ret (push_attr (kv "db.statement" statement) (push_attr (kv "db.system" "postgresql") span)))
    pr71_statements ;;
  g_ret (trace, ss_id root, root :: spans).
Definition pr71_db_trace : Gen (ExportTraceServiceRequest * string * string) :=
  parts <~ pr71_db_spans ;;
  let '(trace, root_id, spans) := parts in
  fun e d => (traces_request e spans, encode_hex trace, encode_hex root_id, d).

Definition pr71_peak_witness (peak_nanos : Z) : Gen (ExportTraceServiceRequest * string) :=
  trace <~ id16 49470 ;;
  span <~ basic trace 49470 None "m3legs.peak_witness" peak_nanos ;;
  let span := set_end (add64 peak_nanos 5000000) (set_service PR71_SERVICE span) in
  fun e d => (traces_request e [span], encode_hex trace, d).

(** ** Corpora *)

Definition m_shapes_anchor : Gen (list SpanSpec) :=
  trace <~ id16 42 ;;
  base <~ now_nanos ;;
  span <~ basic trace 42 None "shapes.exemplar_anchor" base ;;
  g_ret [set_kind 2 span].

Definition f_attrs_method (index : Z) : string :=
  if index <=? 69 then "GET" else if index <=? 89 then "POST" else "DELETE".

Definition f_attrs_span (base index : Z) : Gen SpanSpec :=
  trace <~ id16 (7000 + index) ;;
  span <~ basic trace (7000 + index) None "shapes.facet_request" (add64 base (index * 3000000)) ;;
  g_ret (set_attrs [kv HTTP_REQUEST_METHOD (f_attrs_method index); kv "shape.case" "f-attrs"] (set_kind 2 span)).
Definition f_attrs_spans : Gen (list SpanSpec) :=
  base <~ now_nanos ;; g_each (f_attrs_span base) (range 100).

Definition eco_external : Gen (list SpanSpec) :=
  trace <~ id16 8000 ;;
  base <~ now_nanos ;;
  root <~ basic trace 8000 None "checkout.request" base ;;
  let root := set_service "checkout" (set_end (add64 base 40000000) (set_kind 2 root)) in
  client <~ basic trace 8001 (Some (ss_id root)) "GET api.stripe.test" (add64 base 5000000) ;;
  let client := set_service "checkout" (set_end (add64 base 30000000) (set_kind 3 client)) in
  g_ret [root; set_attrs [kv SERVER_ADDRESS "api.stripe.test"; kv HTTP_REQUEST_METHOD "GET";
                          kv "shape.case" "eco-external"] client].

(** The parts of eco-service-map: checkout calls pricing, *)
Definition map_call (base index : Z) : Gen (list SpanSpec) :=
  trace <~ id16 (9000 + index) ;;
  let start := add64 base (index * 2000000) in
  root <~ basic trace 9100 None "checkout.request" start ;;
  let root := push_attr (kv "shape.case" "eco-service-map")
    (set_service "checkout" (set_end (add64 start 20000000) (set_kind 2 root))) in
  client <~ basic trace 9101 (Some (ss_id root)) "POST pricing.internal" (add64 start 2000000) ;;
  let client := set_attrs [kv SERVER_ADDRESS "pricing.internal"; kv HTTP_REQUEST_METHOD "POST"]
    (set_service "checkout" (set_end (add64 start 14000000) (set_kind 3 client))) in
  server <~ basic trace 9102 (Some (ss_id client)) "pricing.quote" (add64 start 3000000) ;;
  let server := set_service "pricing" (set_end (add64 start 12000000) (set_kind 2 server)) in
  g_ret [root; client; server].

(** the database, *)
Definition map_query (base : Z) (database_trace : bytes) (index : Z) : Gen SpanSpec :=
  client <~ basic database_trace (9300 + index) None "SELECT map_orders"
    (add64 (add64 base 100000000) (index * 1000000)) ;;
  let client := set_end (add64 (add64 (ss_start client) 2000000) (index * 20000)) (set_kind 3 client) in
  let client := set_error ((index =? 0) || (index =? 17) || (index =? 83)) (set_service "checkout" client) in
  g_ret (set_attrs [kv "db.system.name" "postgresql"; kv "db.namespace" "map_orders";
                    kv "db.operation.name" "SELECT"] client).

(** the queue, *)
Definition map_publish (base index : Z) : Gen SpanSpec :=
  trace <~ id16 (9400 + index) ;;
  producer <~ basic trace (9500 + index) None "fulfillment.publish" (add64 (add64 base 300000000) (index * 3000000)) ;;
  let producer := set_end (add64 (add64 (ss_start producer) 4000000) (index * 100000)) (set_kind 4 producer) in
  let producer := set_error (index =? 4) (set_service "checkout" producer) in
  g_ret (set_attrs [kv MESSAGING_SYSTEM "rabbitmq"; kv MESSAGING_DESTINATION_NAME "fulfillment";
                    kv MESSAGING_OPERATION_NAME "publish"] producer).

(** and two external hosts. *)
Definition map_healthy (base : Z) : Gen SpanSpec :=
  trace <~ id16 9600 ;;
  healthy <~ basic trace 9601 None "GET api.map.healthy.test" (add64 base 400000000) ;;
  let healthy := set_service "checkout" (set_end (add64 (ss_start healthy) 8000000) (set_kind 3 healthy)) in
  g_ret (set_attrs [kv SERVER_ADDRESS "api.map.healthy.test"; kv HTTP_REQUEST_METHOD "GET"] healthy).
Definition map_error (base : Z) : Gen SpanSpec :=
  trace <~ id16 9700 ;;
  error <~ basic trace 9701 None "GET api.map.error.test" (add64 base 410000000) ;;
  let error := set_error true (set_end (add64 (ss_start error) 35000000) (set_kind 3 error)) in
  let error := set_service "checkout" (set_status_message "external dependency timeout" error) in
  g_ret (set_attrs [kv SERVER_ADDRESS "api.map.error.test"; kv HTTP_REQUEST_METHOD "GET"] error).

Definition eco_service_map : Gen (list SpanSpec) :=
  now <~ now_nanos ;;
  let base := saturating_sub64 now 1000000000 in
  calls <~ g_each (map_call base) (range 10) ;;
  database_trace <~ id16 9200 ;;
  queries <~ g_each (map_query base database_trace) (range 100) ;;
  published <~ g_each (map_publish base) (range 10) ;;
  healthy <~ map_healthy base ;;
  error <~ map_error base ;;
  g_ret (concat calls ++ queries ++ published ++ [healthy; error]).

Definition e_burst : Gen (list SpanSpec) :=
  base <~ now_nanos ;;
  recurring <~ g_each (fun index =>
    trace <~ id16 (1000 + index) ;;
    span <~ basic trace 1 None "burst.recurring_failure" (add64 base (index * 2000000)) ;;
    g_ret (push_attr (kv ERROR_TYPE "shapes::RecurringFailure") (set_error true span))) (range 100) ;;
  distinct <~ g_each (fun '(index, error_type) =>
    trace <~ id16 (2000 + index) ;;
    span <~ basic trace 1 None "burst.distinct_failure" (add64 base (index * 3000000)) ;;
    g_ret (push_attr (kv ERROR_TYPE error_type) (set_error true span)))
    [(0, "shapes::Alpha"); (1, "shapes::Beta"); (2, "shapes::Gamma"); (3, "shapes::Delta"); (4, "shapes::Epsilon")] ;;
  g_ret (recurring ++ distinct).

End ShapesTraces.

(** The log and metric shapes of cli/src/shapes.rs, and the command that emits
    a shape: what it posts, in which order, and what it prints. *)
Module ShapesCorpora.

Import Text Float64 Telemetry Propagation Shapes ShapesTraces.

Local Open Scope gen_scope.

(** A generator of log records reads the environment of the process too. *)
Definition g_env {A} (f : ShapeEnv -> A) : Gen A := fun e d => (f e, d).

(** ** Logs *)

Definition burst_record (e : ShapeEnv) (base index : Z) : LogRecord :=
  log_record e (add64 base (index * 5000)) (nth (Z.to_nat (index mod 5)) [5; 9; 13; 17; 21] 0)
    ("burst log line " +:+ show_Z index +:+ " lane=" +:+ show_Z (index mod 7)) [kv_int "burst.index" index].
Definition l_burst (count : Z) : Gen ExportLogsServiceRequest :=
  base <~ now_nanos ;;
  g_env (fun e => logs_request e (map (burst_record e base) (range count))).

Definition quote : string := String (ascii_of_nat 34) "".
Definition escape : string := String (ascii_of_nat 27) "".
Definition quoted (s : string) : string := quote +:+ s +:+ quote.

(** The JSON body of the first record *)
Definition order_placed_body : string :=
  "{" +:+ quoted "event" +:+ ":" +:+ quoted "order.placed" +:+ "," +:+ quoted "order" +:+ ":{" +:+
  quoted "id" +:+ ":" +:+ quoted "o-1" +:+ "," +:+ quoted "total" +:+ ":41.5," +:+ quoted "items" +:+ ":[{" +:+
  quoted "sku" +:+ ":" +:+ quoted "WIDGET-1" +:+ "," +:+ quoted "qty" +:+ ":3}]}}".

Definition l_bodies : Gen ExportLogsServiceRequest :=
  base <~ now_nanos ;;
  g_env (fun e => logs_request e (
    [ log_record e base 9 order_placed_body [kv "shape.body" "json"];
      log_record e (add64 base 1000) 13 ("oversized body: " +:+ str_repeat (32 * 1024) "x") [kv "shape.body" "oversized"];
      log_record e (add64 base 2000) 17
        (escape +:+ "[31merror" +:+ escape +:+ "[0m with " +:+ escape +:+ "[1mANSI" +:+ escape +:+ "[0m escapes")
        [kv "shape.body" "ansi"];
      log_record e (add64 base 3000) 9 "" [kv "shape.body" "blank"] ] ++
    map (fun run =>
      log_record e (add64 base 4000) 9 ("identical timestamp run entry " +:+ show_Z run)
        [kv "shape.body" "same-ts"; kv_int "run" run]) (range 5))).

(** Records pinned to a caller's trace and span; the texts are decoded before
    the clock is read. *)
Definition pinned_records (e : ShapeEnv) (base : Z) (trace_id span_id : bytes) (case_ : string)
    (entries : list (Z * (Z * string))) : list LogRecord :=
  map (fun '(index, (severity, body)) =>
    pin_record trace_id span_id
      (log_record e (add64 base (index * 1000000)) severity body [kv "shape.case" case_])) entries.

Definition pinned_logs (service case_ : string) (entries : list (Z * (Z * string))) (trace_hex span_hex : string) :
    Gen (result hex_error ExportLogsServiceRequest) :=
  match decode_hex_id trace_hex 16, decode_hex_id span_hex 8 with
  | Err error, _ => g_ret (Err error)
  | _, Err error => g_ret (Err error)
  | Ok trace_id, Ok span_id =>
      base <~ now_nanos ;;
      g_env (fun e => Ok (logs_request_for_service e service (pinned_records e base trace_id span_id case_ entries)))
  end.

Definition ui_traversal_entries : list (Z * (Z * string)) := [
  (0, (9, "ui-traversal probe: checkout started"));
  (1, (13, "ui-traversal probe: checkout retrying upstream"));
  (2, (17, "ui-traversal probe: checkout failed: connection refused"))].
Definition issue_correlated_logs (trace_hex span_hex : string) : Gen (result hex_error ExportLogsServiceRequest) :=
  pinned_logs SERVICE "ui-traversal" ui_traversal_entries trace_hex span_hex.

Definition pr71_entries : list (Z * (Z * string)) := [
  (0, (9, "pr71-live-legs probe: checkout started"));
  (1, (17, "pr71-live-legs probe: checkout failed: connection refused"))].
Definition pr71_probe_logs (service trace_hex span_hex : string) : Gen (result hex_error ExportLogsServiceRequest) :=
  pinned_logs service "pr71-live-legs" pr71_entries trace_hex span_hex.

Definition L_PATTERNS_STEADY_TEMPLATES : Z := 11.
Definition L_PATTERNS_STEADY_LINES : Z := 1200.
Definition L_PATTERNS_SPIKE_LINES : Z := 6800.

(** Any template from eleven on is the spike's. *)
Definition l_patterns_line (template index : Z) : string * Z :=
  let uid := show_Z (10000 + index mod 977) in
  let ip := "10." +:+ show_Z (index mod 8) +:+ "." +:+ show_Z ((index / 8) mod 250) +:+ "." +:+ show_Z (index mod 250) in
  let ms := show_Z (3 + index mod 512) in
  let order := "o-" +:+ show_Z (42000 + index mod 5003) in
  let sku := "SKU-" +:+ show_Z (index mod 61) in
  match template with
  | 0 => ("user " +:+ uid +:+ " logged in from " +:+ ip, 9)
  | 1 => ("GET /api/orders/" +:+ order +:+ " completed in " +:+ ms +:+ "ms", 9)
  | 2 => ("cache miss for key products:" +:+ sku, 5)
  | 3 => ("published event order.updated id=" +:+ order, 9)
  | 4 => ("db query took " +:+ ms +:+ "ms rows=" +:+ show_Z (index mod 40), 5)
  | 5 => ("retrying payment for order " +:+ order +:+ " attempt " +:+ show_Z (1 + index mod 3), 13)
  | 6 => ("session " +:+ uid +:+ " expired, refreshing token", 9)
  | 7 => ("inventory reserve " +:+ sku +:+ " qty=" +:+ show_Z (1 + index mod 9), 9)
  | 8 => ("rate limit near threshold for " +:+ ip, 13)
  | 9 => ("email queued to user-" +:+ uid +:+ "@example.com", 9)
  | 10 => ("feature flag checkout_v2 evaluated for user " +:+ uid, 5)
  | _ => ("connection reset by peer " +:+ ip +:+ " while streaming order " +:+ order, 17)
  end.

Definition steady_record (e : ShapeEnv) (base template index : Z) : LogRecord :=
  let '(body, severity) := l_patterns_line template index in
  log_record e (add64 (add64 base (index * 250000000)) (template * 1000)) severity body
    [kv "shape.case" "l-patterns"; kv "shape.template" ("steady-" +:+ show_Z template)].
Definition spike_record (e : ShapeEnv) (base index : Z) : LogRecord :=
  let '(body, severity) := l_patterns_line (u64_modulus - 1) index in
  log_record e (add64 (add64 base 240000000000) (index * 8000000)) severity body
    [kv "shape.case" "l-patterns"; kv "shape.template" "spike"].
Definition l_patterns : Gen (list LogRecord) :=
  now <~ now_nanos ;;
  let base := saturating_sub64 now 300000000000 in
  g_env (fun e =>
    concat (map (fun template => map (steady_record e base template) (range L_PATTERNS_STEADY_LINES))
      (range L_PATTERNS_STEADY_TEMPLATES)) ++
    map (spike_record e base) (range L_PATTERNS_SPIKE_LINES)).

Definition f_attrs_record (e : ShapeEnv) (base index : Z) : LogRecord :=
  log_record e (add64 base (index * 3000)) 9 ("facet corpus request " +:+ show_Z index)
    [kv HTTP_REQUEST_METHOD (f_attrs_method index); kv "shape.case" "f-attrs"].
Definition f_attrs_logs : Gen ExportLogsServiceRequest :=
  base <~ now_nanos ;;
  g_env (fun e => logs_request e (map (f_attrs_record e base) (range 100))).

Definition e_multi_lang : Gen ExportLogsServiceRequest :=
  base <~ now_nanos ;;
  g_env (fun e => logs_request e (map (fun '(index, (language, error_type, stack)) =>
    log_record e (add64 base (index * 1000000)) 17 ("checkout failed in the " +:+ language +:+ " tier")
      [kv "exception.type" error_type; kv "exception.message" ("checkout failed (" +:+ language +:+ ")");
       kv "exception.stacktrace" stack; kv "shape.language" language])
    (zip (range 3) exception_shapes))).

(** ** Metrics *)

Record NumberDataPoint : Type := mkNumberDataPoint {
  np_time : Z; np_start : Z; np_value : spec_float; np_attributes : list KeyValue }.
Record Exemplar : Type := mkExemplar { ex_time : Z; ex_trace_id : bytes; ex_span_id : bytes; ex_value : spec_float }.
Record HistogramDataPoint : Type := mkHistogramDataPoint {
  hp_time : Z; hp_start : Z; hp_count : Z; hp_sum : spec_float; hp_bucket_counts : list Z;
  hp_explicit_bounds : list spec_float; hp_exemplars : list Exemplar }.
Inductive Data : Type :=
| Sum (data_points : list NumberDataPoint) (aggregation_temporality : Z) (is_monotonic : bool)
| Gauge (data_points : list NumberDataPoint)
| Histogram (data_points : list HistogramDataPoint) (aggregation_temporality : Z).
Record Metric : Type := mkMetric { me_name : string; me_data : Data }.
Record ResourceMetrics : Type := mkResourceMetrics { rm_resource : list KeyValue; rm_scopes : list (list Metric) }.
Notation ExportMetricsServiceRequest := (list ResourceMetrics).

Definition metrics_request (e : ShapeEnv) (metrics : list Metric) : ExportMetricsServiceRequest :=
  [mkResourceMetrics (required_resource_kvs (se_vars e) SERVICE (env_git_sha (se_vars e))) [metrics]].

(** The literal [n / 10^k] *)
Definition f64_literal (n : positive) (k : Z) : spec_float := f64_decimal false n k.

(** Five minutes *)
Definition step : Z := 300000000000.

(** [None] where the code panics: there is no anchor span. *)
Definition m_shapes_metrics (base : Z) (anchor_span : SpanSpec) : list Metric :=
  let number (ts value : Z) := mkNumberDataPoint ts base (f64_of_Z value) [] in
  [ mkMetric "shapes.requests.total" (Sum
      [number base 100; number (add64 base step) 180; number (add64 base (2 * step)) 12;
       number (add64 base (3 * step)) 60] 2 true);
    mkMetric "shapes.queue.depth" (Gauge [number base 4; number (add64 base (3 * step)) 9]);
    mkMetric HTTP_SERVER_REQUEST_DURATION (Histogram
      [mkHistogramDataPoint (add64 base step) base 7 (f64_literal 21 1) [2; 3; 2] [f64_literal 1 1; f64_literal 5 1]
         [mkExemplar (add64 base (step / 2)) (ss_trace anchor_span) (ss_id anchor_span) (f64_literal 42 2)]] 2) ].
Definition m_shapes (anchor : list SpanSpec) : Gen (option ExportMetricsServiceRequest) :=
  match head anchor with
  | None => g_ret None
  | Some anchor_span =>
      now <~ now_nanos ;;
      g_env (fun e => Some (metrics_request e (m_shapes_metrics (sub64 now (3 * step)) anchor_span)))
  end.

Definition regions : list (string * Z) := [("eu", 60); ("us", 30); ("ap", 10)].
Definition region_point (base ts : Z) (value : spec_float) (region : string) : NumberDataPoint :=
  mkNumberDataPoint ts base value [kv "region" region].
Definition m_labels_metrics (base : Z) : list Metric :=
  let points value := concat (map (fun step_index =>
    map (fun '(region, magnitude) =>
      region_point base (add64 base (step_index * step)) (value step_index magnitude) region) regions) (range 4)) in
  [ mkMetric "shapes.region.load" (Gauge (points (fun _ magnitude => f64_of_Z magnitude)));
    mkMetric "shapes.region.requests_total"
      (Sum (points (fun step_index magnitude => f64_mul (f64_of_Z magnitude) (f64_of_Z (step_index + 1)))) 2 true) ].
Definition m_labels : Gen ExportMetricsServiceRequest :=
  now <~ now_nanos ;;
  g_env (fun e => metrics_request e (m_labels_metrics (sub64 now (3 * step)))).

Definition CARDINALITY_SERIES : Z := 200.
Definition CARDINALITY_METRIC : string := "shapes.stress.series".
Definition CARDINALITY_LABEL : string := "stress_bucket".

(** [format!("{index:03}")] *)
Definition cardinality_bucket_label (index : Z) : string :=
  let text := show_Z index in str_repeat (3 - String.length text) "0" +:+ text.

Definition cardinality_point (ts index : Z) : NumberDataPoint :=
  mkNumberDataPoint ts ts (f64_of_Z index) [kv CARDINALITY_LABEL (cardinality_bucket_label index)].
Definition m_cardinality : Gen ExportMetricsServiceRequest :=
  ts <~ now_nanos ;;
  g_env (fun e => metrics_request e
    [mkMetric CARDINALITY_METRIC (Gauge (map (cardinality_point ts) (range CARDINALITY_SERIES)))]).

(** ** The command *)

Definition starts_4317 (s : string) : bool := starts_with ":4317" s.
(** [replace(":4317", ":4318")]; the pattern does not overlap itself. *)
Fixpoint replace_port (s : string) : string :=
  match s with
  | "" => ""
  | String a rest =>
      if starts_4317 s then
        match rest with
        | String b (String c (String d (String _ rest'))) => String a (String b (String c (String d (String "8" (replace_port rest')))))
        | _ => s
        end
      else String a (replace_port rest)
  end.

Fixpoint trim_slashes_rev (s : string) : string :=
  match s with String "/" r => trim_slashes_rev r | _ => s end.
(** [trim_end_matches('/')] *)
Definition trim_end_slashes (s : string) : string := str_rev (trim_slashes_rev (str_rev s)).

Definition otlp_http_base (vars : Vars) : string :=
  match vars "OTEL_EXPORTER_OTLP_HTTP_ENDPOINT" with
  | Some endpoint => trim_end_slashes endpoint
  | None => replace_port (trim_end_slashes (default "http://127.0.0.1:4317" (vars "OTEL_EXPORTER_OTLP_ENDPOINT")))
  end.

Inductive Post : Type :=
| PostTraces (request : ExportTraceServiceRequest)
| PostLogs (request : ExportLogsServiceRequest)
| PostMetrics (request : ExportMetricsServiceRequest).

Definition post_path (p : Post) : string :=
  match p with PostTraces _ => "v1/traces" | PostLogs _ => "v1/logs" | PostMetrics _ => "v1/metrics" end.
Definition post_url (vars : Vars) (p : Post) : string := otlp_http_base vars +:+ "/" +:+ post_path p.

Definition request_spans (request : ExportTraceServiceRequest) : list Span :=
  concat (map (fun rs => concat (rs_scopes rs)) request).

(** A sorted set of texts, as [BTreeSet<String>] iterates over it *)
Fixpoint set_insert (s : string) (l : list string) : list string :=
  match l with
  | [] => [s]
  | t :: rest => match String.compare s t with
                 | Lt => s :: l | Eq => l | Gt => t :: set_insert s rest end
  end.
Definition trace_ids (request : ExportTraceServiceRequest) : list string :=
  foldl (fun set span => set_insert (hex (sp_trace_id span)) set) [] (request_spans request).

(** What is printed once a post has succeeded *)
Definition printed (p : Post) : list string :=
  match p with
  | PostTraces request => map (fun trace_id => "shapes: trace " +:+ trace_id) (trace_ids request)
  | _ => []
  end.

(** [records.chunks(n)] for a positive [n] *)
Fixpoint chunks_fuel {A} (fuel n : nat) (l : list A) : list (list A) :=
  match fuel, l with
  | S fuel', _ :: _ => take n l :: chunks_fuel fuel' n (drop n l)
  | _, _ => []
  end.
Definition chunks {A} (n : nat) (l : list A) : list (list A) := chunks_fuel (length l) n l.

Definition traces_post (spans : Gen (list SpanSpec)) : Gen (list Post) :=
  spans <~ spans ;; g_env (fun e => [PostTraces (traces_request e spans)]).
Definition logs_post (logs : Gen ExportLogsServiceRequest) : Gen (list Post) :=
  request <~ logs ;; g_ret [PostLogs request].
Definition metrics_post (metrics : Gen ExportMetricsServiceRequest) : Gen (list Post) :=
  request <~ metrics ;; g_ret [PostMetrics request].

(** The posts of a shape; [None] for a name that is no shape's *)
Definition shape_posts (id : string) : option (Gen (list Post)) :=
  if String.eqb id "t-deep" then Some (traces_post t_deep)
  else if String.eqb id "t-wide" then Some (traces_post t_wide)
  else if String.eqb id "t-multiroot" then Some (traces_post t_multiroot)
  else if String.eqb id "t-orphan" then Some (traces_post t_orphan)
  else if String.eqb id "t-skew" then Some (traces_post t_skew)
  else if String.eqb id "t-zero" then Some (traces_post t_zero)
  else if String.eqb id "t-links" then Some (traces_post t_links)
  else if String.eqb id "t-longnames" then Some (traces_post t_longnames)
  else if String.eqb id "t-events" then Some (traces_post t_events)
  else if String.eqb id "l-burst" then Some (logs_post (l_burst 5000))
  else if String.eqb id "l-bodies" then Some (logs_post l_bodies)
  else if String.eqb id "m-shapes" then Some (
    anchor <~ m_shapes_anchor ;;
    metrics <~ m_shapes anchor ;;
    g_env (fun e => PostTraces (traces_request e anchor) :: map PostMetrics (option_list metrics)))
  else if String.eqb id "l-patterns" then Some (
    records <~ l_patterns ;;
    g_env (fun e => map (fun chunk => PostLogs (logs_request e chunk)) (chunks 5000 records)))
  else if String.eqb id "f-attrs" then Some (
    traces <~ traces_post f_attrs_spans ;; logs <~ logs_post f_attrs_logs ;; g_ret (traces ++ logs))
  else if String.eqb id "eco-external" then Some (traces_post eco_external)
  else if String.eqb id "eco-service-map" then Some (traces_post eco_service_map)
  else if String.eqb id "m-labels" then Some (metrics_post m_labels)
  else if String.eqb id "m-cardinality" then Some (metrics_post m_cardinality)
  else if String.eqb id "e-burst" then Some (traces_post e_burst)
  else if String.eqb id "e-multi-lang" then Some (logs_post e_multi_lang)
  else None.

Definition SHAPE_IDS : list string := split_on "|"
  "t-deep|t-wide|t-multiroot|t-orphan|t-skew|t-zero|t-links|t-longnames|t-events|eco-external|eco-service-map|l-burst|l-bodies|l-patterns|m-shapes|m-labels|m-cardinality|f-attrs|e-burst|e-multi-lang".

(** The posts in order until one fails ([answers n] is whether the [n]-th was
    accepted), and what was printed *)
Fixpoint send_posts (answers : nat -> bool) (at_ : nat) (posts : list Post) : bool * list Post * list string :=
  match posts with
  | [] => (true, [], [])
  | p :: rest =>
      if answers at_ then
        let '(ok, sent, lines) := send_posts answers (S at_) rest in (ok, p :: sent, printed p ++ lines)
      else (false, [p], [])
  end.

Inductive shapes_error : Type := ShapesUsage | UnknownShape (id : string) | PostFailed.

Definition run (args : list string) (answers : nat -> bool) :
    Gen (result shapes_error Z * list Post * list string) :=
  match args with
  | [] => g_ret (Err ShapesUsage, [], [])
  | id :: _ =>
      let announced := "shapes: emitting " +:+ id +:+ " as " +:+ SERVICE in
      match shape_posts id with
      | None => g_ret (Err (UnknownShape id), [], [announced])
      | Some posts =>
          posts <~ posts ;;
          g_env (fun e =>
            let '(ok, sent, lines) := send_posts answers 0 posts in
            if ok then
              (Ok 0, sent, announced :: lines ++
                ["shapes: " +:+ id +:+ " emitted (invocation " +:+ se_invocation e +:+ ")"])
            else (Err PostFailed, sent, announced :: lines))
      end
  end.

End ShapesCorpora.
