(* ===== verification/ShapesOutcomes.v ===== *)
(** What the shapes promise: identities of the right size that resolve to
    exported parents, spans that reach the request under their own service,
    times in the past, the exact distributions of the corpora, and identities
    that survive their hexadecimal text. *)

From S2P Require Import Prelude Values Propagation Telemetry RequestShapes.
Import Text Float64 Telemetry Propagation Shapes ShapesTraces ShapesCorpora.

(** ** Grouping *)

(** The reference: the services in order of first appearance *)
Fixpoint first_seen (seen names : list string) : list string :=
  match names with
  | [] => seen
  | n :: rest => first_seen (if existsb (String.eqb n) seen then seen else seen ++ [n]) rest
  end.

Definition under (service : string) (specs : list SpanSpec) : list Span :=
  map span_of (List.filter (fun s => String.eqb (service_of s) service) specs).

(** A grouping of some specifications: its names, and each name's spans *)
Definition groups_of (names : list string) (specs : list SpanSpec) (groups : list (string * list Span)) : Prop :=
  NoDup names /\ groups = map (fun name => (name, under name specs)) names /\
  Forall (fun s => service_of s ∈ names) specs.

Lemma under_snoc service specs spec :
  under service (specs ++ [spec]) =
  under service specs ++ (if String.eqb (service_of spec) service then [span_of spec] else []).
Proof. unfold under. rewrite List.filter_app, map_app. simpl. by destruct (String.eqb _ _). Qed.

Lemma add_to_group_known service span names (f : string -> list Span) :
  NoDup names -> service ∈ names ->
  add_to_group service span (map (fun n => (n, f n)) names) =
  map (fun n => (n, f n ++ (if String.eqb service n then [span] else []))) names.
Proof.
  induction names as [|n names IH]; intros Hn Hin; [by apply not_elem_of_nil in Hin|].
  apply NoDup_cons in Hn as [Hnot Hn]. simpl. destruct (String.eqb_spec n service) as [->|Hne].
  - rewrite String.eqb_refl. f_equal. apply map_ext_in. intros m Hm.
    destruct (String.eqb_spec service m) as [->|]; [|by rewrite app_nil_r].
    by apply list_elem_of_In in Hm.
  - apply elem_of_cons in Hin as [->|Hin]; [done|]. rewrite IH by done.
    destruct (String.eqb_spec service n) as [->|]; [done|]. by rewrite app_nil_r.
Qed.

Lemma add_to_group_new service span names (f : string -> list Span) :
  service ∉ names ->
  add_to_group service span (map (fun n => (n, f n)) names) = map (fun n => (n, f n)) names ++ [(service, [span])].
Proof.
  induction names as [|n names IH]; intros Hnot; [done|]. simpl. apply not_elem_of_cons in Hnot as [Hne Hnot].
  destruct (String.eqb_spec n service) as [->|]; [done|]. by rewrite IH.
Qed.

Lemma existsb_elem n seen : existsb (String.eqb n) seen = true <-> n ∈ seen.
Proof. rewrite existsb_exists, list_elem_of_In. setoid_rewrite String.eqb_eq. naive_solver. Qed.

Lemma under_absent service specs :
  Forall (fun s => service_of s <> service) specs -> under service specs = [].
Proof.
  unfold under. induction 1 as [|s specs Hne _ IH]; [done|]. simpl.
  by destruct (String.eqb_spec (service_of s) service).
Qed.

Lemma add_spec names specs groups spec :
  groups_of names specs groups ->
  groups_of (first_seen names [service_of spec]) (specs ++ [spec])
    (add_to_group (service_of spec) (span_of spec) groups).
Proof.
  intros (Hn & -> & Hall). unfold groups_of. simpl.
  destruct (existsb (String.eqb (service_of spec)) names) eqn:E.
  - apply existsb_elem in E. split_and!; [done| |apply Forall_app_2; [done|by constructor]].
    rewrite add_to_group_known by done. apply map_ext. intros n. by rewrite under_snoc.
  - assert (Hnot : service_of spec ∉ names).
    { intros H%existsb_elem. congruence. }
    split_and!.
    + apply NoDup_app. split_and!; [done| |apply NoDup_singleton].
      intros x Hx ->%list_elem_of_singleton. done.
    + rewrite add_to_group_new by done. rewrite map_app. f_equal.
      * apply map_ext_in. intros n Hin. rewrite under_snoc.
        destruct (String.eqb_spec (service_of spec) n) as [<-|]; [|by rewrite app_nil_r].
        by apply list_elem_of_In in Hin.
      * simpl. rewrite under_snoc, String.eqb_refl, under_absent; [done|].
        eapply Forall_impl; [done|]. intros s Hs Heq. simpl in *. congruence.
    + apply Forall_app_2; [|constructor; [|done]]; [eapply Forall_impl; [done|]|]; simpl; intros; set_solver.
Qed.

Lemma first_seen_app seen l m : first_seen seen (l ++ m) = first_seen (first_seen seen l) m.
Proof. revert seen. induction l as [|n l IH]; intros seen; [done|]. simpl. apply IH. Qed.

Lemma group_spans_spec specs :
  groups_of (first_seen [] (map service_of specs)) specs (group_spans specs).
Proof.
  unfold group_spans. induction specs as [|spec specs IH] using rev_ind.
  - split_and!; [apply NoDup_nil_2|done|done].
  - rewrite foldl_app, map_app, first_seen_app. simpl. by apply add_spec.
Qed.

Lemma split_by_service n specs :
  Permutation specs (List.filter (fun s => String.eqb (service_of s) n) specs ++
                     List.filter (fun s => negb (String.eqb (service_of s) n)) specs).
Proof.
  induction specs as [|s specs IH]; [done|]. simpl.
  destruct (String.eqb _ _); simpl; [by constructor|]. rewrite IH at 1. by apply Permutation_middle.
Qed.

Lemma under_others n m specs :
  m <> n -> under m (List.filter (fun s => negb (String.eqb (service_of s) n)) specs) = under m specs.
Proof.
  intros Hne. unfold under. f_equal. induction specs as [|s specs IH]; [done|]. simpl.
  destruct (String.eqb_spec (service_of s) n) as [E|]; simpl; rewrite IH; [|done].
  destruct (String.eqb_spec (service_of s) m) as [E'|]; [congruence|done].
Qed.

(** Services that cover the specifications take every span between them. *)
Lemma under_covers names specs :
  NoDup names -> Forall (fun s => service_of s ∈ names) specs ->
  Permutation (concat (map (fun service => under service specs) names)) (map span_of specs).
Proof.
  revert specs. induction names as [|n names IH]; intros specs Hn Hall.
  { destruct specs; [done|]. inversion Hall. set_solver. }
  apply NoDup_cons in Hn as [Hnot Hn]. simpl.
  etrans; [|symmetry; apply (Permutation_map span_of (split_by_service n specs))].
  rewrite map_app. apply Permutation_app; [done|].
  erewrite map_ext_in; [apply IH; [done|]|].
  - apply Forall_forall. intros s [Hs Hne]%list_elem_of_In%List.filter_In.
    apply negb_true_iff, String.eqb_neq in Hne. rewrite Forall_forall in Hall.
    apply list_elem_of_In, Hall, elem_of_cons in Hs as [?|?]; done.
  - intros m Hm. simpl. rewrite under_others; [done|]. intros ->. by apply Hnot, list_elem_of_In.
Qed.

Lemma request_perm e specs : Permutation (request_spans (traces_request e specs)) (map span_of specs).
Proof.
  destruct (group_spans_spec specs) as (Hn & Hg & Hall). unfold traces_request, request_spans.
  rewrite Hg, !map_map. simpl. erewrite map_ext; [by apply under_covers|]. intros service. simpl. apply app_nil_r.
Qed.

(** A request is the specifications sorted by service: one resource for each
    service that occurs, in the order of its first span, carrying the service's
    name and the invocation, and under it exactly that service's spans in their
    order.  No span is lost, repeated, or exported under another service. *)
Theorem request_sorts_by_service e specs :
  let services := first_seen [] (map service_of specs) in
  traces_request e specs =
    map (fun service => mkResourceSpans
      (required_resource_kvs (se_vars e) service (env_git_sha (se_vars e)) ++ [kv CLI_INVOCATION_ID (se_invocation e)])
      [under service specs]) services /\
  NoDup services /\ (forall spec, spec ∈ specs -> service_of spec ∈ services) /\
  Permutation (request_spans (traces_request e specs)) (map span_of specs).
Proof.
  destruct (group_spans_spec specs) as (Hn & Hg & Hall). intros services.
  assert (Hreq : traces_request e specs = map (fun service => mkResourceSpans
    (required_resource_kvs (se_vars e) service (env_git_sha (se_vars e)) ++ [kv CLI_INVOCATION_ID (se_invocation e)])
    [under service specs]) services).
  { unfold traces_request. rewrite Hg, map_map. reflexivity. }
  split_and!; [done|done|by apply Forall_forall|apply request_perm].
Qed.

(** ** Identities and their text *)

Definition is_byte (b : Z) : Prop := 0 <= b < 256.

Lemma hex_char_value n : 0 <= n < 16 -> hex_digit (hex_char n) = Some (Z.to_N n) /\ hex_char n <> "+"%char /\
  continuation (hex_char n) = false.
Proof.
  intros H. assert (Hall : forallb (fun k => let n := Z.of_nat k in
    bool_decide (hex_digit (hex_char n) = Some (Z.to_N n)) && negb (Ascii.eqb (hex_char n) "+") &&
    negb (continuation (hex_char n))) (seq 0 16) = true) by (vm_compute; reflexivity).
  rewrite forallb_forall in Hall. specialize (Hall (Z.to_nat n)).
  rewrite Z2Nat.id in Hall by lia. specialize (Hall ltac:(apply in_seq; lia)).
  apply andb_true_iff in Hall as [[Ha%bool_decide_eq_true Hb]%andb_true_iff Hc].
  apply negb_true_iff in Hc. apply negb_true_iff, Ascii.eqb_neq in Hb. done.
Qed.

Lemma byte_halves b : is_byte b ->
  0 <= Z.shiftr b 4 < 16 /\ 0 <= Z.land b 15 < 16 /\ 16 * Z.shiftr b 4 + Z.land b 15 = b.
Proof.
  intros [H1 H2]. rewrite Z.shiftr_div_pow2 by lia. change 15 with (Z.ones 4). rewrite Z.land_ones by lia.
  change (2 ^ 4) with 16. pose proof (Z.div_mod b 16). pose proof (Z.mod_pos_bound b 16). lia.
Qed.

Lemma encode_starts l : Forall is_byte l -> starts_inside (encode_hex l) = false.
Proof.
  destruct 1 as [|b l Hb _]; [done|]. simpl. apply byte_halves in Hb as (H & _ & _). by apply hex_char_value.
Qed.

Lemma encode_length l : str_len (encode_hex l) = 2 * Z.of_nat (length l).
Proof. unfold str_len. induction l as [|b l IH]; [done|]. cbn [encode_hex String.length length]. lia. Qed.

Lemma decode_encode l : Forall is_byte l -> decode_pairs (encode_hex l) = Ok l.
Proof.
  induction 1 as [|b l Hb Hl IH]; [done|]. pose proof (encode_starts l Hl) as Hs.
  apply byte_halves in Hb as (Hh & Hlo & Hsum).
  destruct (hex_char_value _ Hh) as (Eh & Hp & Hc). destruct (hex_char_value _ Hlo) as (El & _ & _).
  cbn [encode_hex decode_pairs starts_inside]. rewrite Hc, Hs. simpl.
  unfold byte_from_hex. destruct (Ascii.eqb_spec (hex_char (Z.shiftr b 4)) "+"); [done|].
  rewrite Eh, El. simpl. rewrite !Z2N.id by lia. rewrite Hsum, IH. done.
Qed.

(** Every identity survives its hexadecimal text, *)
Lemma hex_roundtrip l n : Forall is_byte l -> n = Z.of_nat (length l) -> decode_hex_id (encode_hex l) n = Ok l.
Proof.
  intros Hl ->. unfold decode_hex_id. rewrite encode_length, Z.mul_comm, Z.eqb_refl. by apply decode_encode.
Qed.

(** but a text that is no identity's decodes as well: a sign stands for a zero
    digit, and a text whose length is right may stop the program. *)
Lemma hex_accepts_signs :
  decode_hex_id "+f+f+f+f+f+f+f+f" 8 = Ok [15; 15; 15; 15; 15; 15; 15; 15] /\
  encode_hex [15; 15; 15; 15; 15; 15; 15; 15] = "0f0f0f0f0f0f0f0f" /\
  decode_hex_id "aé_89abcdef0123" 8 = Err SlicePanic.
Proof. vm_compute. done. Qed.

(** ** What a generator gives *)

(** UUIDs have sixteen bytes. *)
Definition draws_uuids (e : ShapeEnv) : Prop := forall n, length (se_uuid e n) = 16%nat /\ Forall is_byte (se_uuid e n).

Definition gives {A} (m : Gen A) (P : A -> Prop) : Prop := forall e d, draws_uuids e -> P (m e d).1.

Lemma gives_ret {A} (a : A) (P : A -> Prop) : P a -> gives (g_ret a) P.
Proof. intros H e d _. exact H. Qed.

Lemma gives_env {A} (f : ShapeEnv -> A) (P : A -> Prop) : (forall e, P (f e)) -> gives (g_env f) P.
Proof. intros H e d _. apply H. Qed.

Lemma gives_bind {A B} (m : Gen A) (k : A -> Gen B) (P : A -> Prop) (Q : B -> Prop) :
  gives m P -> (forall a, P a -> gives (k a) Q) -> gives (g_bind m k) Q.
Proof.
  intros Hm Hk e d He. unfold g_bind. specialize (Hm e d He). destruct (m e d) as [a d'].
  apply (Hk a Hm e d' He).
Qed.

Lemma gives_weaken {A} (m : Gen A) (P Q : A -> Prop) : gives m P -> (forall a, P a -> Q a) -> gives m Q.
Proof. intros Hm H e d He. apply H, Hm, He. Qed.

Lemma gives_each {A B} (f : A -> Gen B) (l : list A) (P : B -> Prop) :
  (forall a, a ∈ l -> gives (f a) P) -> gives (g_each f l) (Forall P).
Proof.
  induction l as [|a l IH]; intros H; [by apply gives_ret|]. simpl.
  eapply gives_bind; [apply H; set_solver|]. intros b Hb.
  eapply gives_bind; [apply IH; set_solver|]. intros bs Hbs. apply gives_ret. by constructor.
Qed.

Definition u64 (n : Z) : Prop := 0 <= n < u64_modulus.

Lemma gives_now : gives now_nanos u64.
Proof. intros e d _. apply Z.mod_pos_bound. reflexivity. Qed.

Definition sized (n : nat) (l : bytes) : Prop := length l = n /\ Forall is_byte l.

Lemma byte_at_range n i : is_byte (byte_at n i).
Proof. unfold is_byte, byte_at. change 255 with (Z.ones 8). rewrite Z.land_ones by lia. by apply Z.mod_pos_bound. Qed.

Lemma sized_be n : sized 8 (to_be_bytes n).
Proof. split; [done|]. apply Forall_map, Forall_forall. intros i _. apply byte_at_range. Qed.

Lemma gives_id16 seed : gives (id16 seed) (sized 16).
Proof.
  intros e d He. destruct (He d.1) as [Hl Hb]. destruct (sized_be seed) as [Hl' Hb']. split; cbn [id16 g_bind new_v4 g_ret fst].
  - rewrite length_app, length_take, Hl, Hl'. reflexivity.
  - apply Forall_app_2; [by apply Forall_take|done].
Qed.

Lemma gives_id8 seed : gives (id8 seed) (sized 8).
Proof. intros e d He. apply sized_be. Qed.

(** A specification with proper identities in a trace *)
Definition in_trace (trace : bytes) (parent : option bytes) (s : SpanSpec) : Prop :=
  ss_trace s = trace /\ sized 8 (ss_id s) /\ ss_parent s = parent.

Lemma gives_basic trace seed parent name start :
  gives (basic trace seed parent name start) (in_trace trace parent).
Proof.
  unfold basic. eapply gives_bind; [apply gives_id8|]. intros id Hid. by apply gives_ret.
Qed.

(** Specifications that belong together: identities of the right size, and the
    parent of each, if it has one, among them in the same trace *)
Definition ids_ok (s : SpanSpec) : Prop :=
  sized 16 (ss_trace s) /\ sized 8 (ss_id s) /\ (forall p, ss_parent s = Some p -> sized 8 p).
Definition parent_in (spans : list SpanSpec) (s : SpanSpec) : Prop :=
  forall p, ss_parent s = Some p -> exists q, q ∈ spans /\ ss_id q = p /\ ss_trace q = ss_trace s.
Definition closed (spans : list SpanSpec) : Prop := Forall (fun s => ids_ok s /\ parent_in spans s) spans.

Lemma parent_in_mono spans spans' s : spans ⊆ spans' -> parent_in spans s -> parent_in spans' s.
Proof. intros Hsub H p Hp. destruct (H p Hp) as (q & Hq & Hrest). exists q. split; [by apply Hsub|done]. Qed.

Lemma closed_app l m : closed l -> closed m -> closed (l ++ m).
Proof.
  unfold closed. intros Hl Hm. apply Forall_app_2; (eapply Forall_impl; [eassumption|]);
    intros s [Hs Hp]; (split; [done|]); eapply parent_in_mono; [|done| |done]; set_solver.
Qed.

Lemma closed_concat ls : Forall closed ls -> closed (concat ls).
Proof. induction 1; [by constructor|]. by apply closed_app. Qed.

(** A span without parent, and one under a given other *)
Lemma in_trace_root trace s : sized 16 trace -> in_trace trace None s -> ids_ok s.
Proof. intros Ht (<- & Hi & Hp). split_and!; [done..|]. rewrite Hp. done. Qed.

Lemma in_trace_child trace p s : sized 16 trace -> sized 8 p -> in_trace trace (Some p) s -> ids_ok s.
Proof. intros Ht Hp (<- & Hi & E). split_and!; [done..|]. rewrite E. by intros ? [= <-]. Qed.

Lemma rooted spans trace s : in_trace trace None s -> parent_in spans s.
Proof. intros (_ & _ & E) p. by rewrite E. Qed.

Lemma under_parent spans trace q s :
  q ∈ spans -> ss_trace q = trace -> in_trace trace (Some (ss_id q)) s -> parent_in spans s.
Proof. intros Hq Ht (Ht' & _ & E) p. rewrite E. intros [= <-]. exists q. split_and!; [done..|congruence]. Qed.

Lemma closed_roots trace spans : sized 16 trace -> Forall (in_trace trace None) spans -> closed spans.
Proof.
  intros Ht H. unfold closed. generalize spans at 1. intros all. eapply Forall_impl; [done|]. intros s Hs.
  split; [by eapply in_trace_root|by eapply rooted].
Qed.

(** A root of its own trace *)
Definition lone (s : SpanSpec) : Prop := sized 16 (ss_trace s) /\ sized 8 (ss_id s) /\ ss_parent s = None.

Lemma closed_lone spans : Forall lone spans -> closed spans.
Proof.
  intros H. unfold closed. generalize spans at 1. intros all. eapply Forall_impl; [done|].
  intros s (Ht & Hi & Hp). split; [split_and!; [done..|]|intros p]; by rewrite Hp.
Qed.

Lemma closed_family trace root children :
  sized 16 trace -> in_trace trace None root -> Forall (in_trace trace (Some (ss_id root))) children ->
  closed (root :: children).
Proof.
  intros Ht Hr Hc. constructor.
  - split; [by eapply in_trace_root|by eapply rooted].
  - eapply Forall_impl; [done|]. intros s Hs. destruct Hr as (Htr & Hi & _). split.
    + eapply in_trace_child; [..|done]; done.
    + eapply under_parent; [..|done]; [set_solver|done].
Qed.

(** A child of one of them joins them. *)
Lemma closed_child trace spans q s :
  closed spans -> q ∈ spans -> ss_trace q = trace -> in_trace trace (Some (ss_id q)) s -> closed (spans ++ [s]).
Proof.
  intros Hc Hq Hqt Hs. assert (Hok : ids_ok q) by (unfold closed in Hc; rewrite Forall_forall in Hc; by apply Hc).
  unfold closed in *. apply Forall_app_2.
  - eapply Forall_impl; [done|]. intros x [Hx Hp]. split; [done|]. eapply parent_in_mono; [|done]. set_solver.
  - constructor; [|done]. destruct Hok as (Ht & Hi & _). split; [eapply in_trace_child; [..|done]; [by rewrite <- Hqt|done]|].
    eapply under_parent; [|done|done]. set_solver.
Qed.

(** One step of a generator: a draw, and what it gave *)
Ltac gen_draw name :=
  eapply gives_bind;
  [first [apply gives_id16 | apply gives_id8 | apply gives_now | apply gives_basic] | intros name ?].

Lemma t_deep_from_closed trace base parent depths before last :
  sized 16 trace -> closed (before ++ [last]) -> ss_trace last = trace -> parent = Some (ss_id last) ->
  gives (t_deep_from trace base parent depths) (fun spans => closed (before ++ last :: spans)).
Proof.
  intros Ht. revert parent before last.
  induction depths as [|depth rest IH]; intros parent before last Hc Hlt ->; [by apply gives_ret|].
  simpl. gen_draw span. set (s := set_end _ span).
  assert (Hs : in_trace trace (Some (ss_id last)) s) by assumption.
  assert (Hs' : closed ((before ++ [last]) ++ [s])) by (eapply closed_child; [done| |done|done]; set_solver).
  eapply gives_bind; [eapply (IH (Some (ss_id s)) (before ++ [last]) s Hs'); [apply Hs|done]|].
  intros spans Hspans. apply gives_ret. cbn beta in Hspans. by rewrite <- app_assoc in Hspans.
Qed.

Lemma t_deep_closed : gives t_deep closed.
Proof.
  unfold t_deep. gen_draw trace. gen_draw base. change (range 14) with (0 :: map Z.of_nat (seq 1 13)).
  cbn [t_deep_from]. gen_draw span. set (s := set_end _ span).
  assert (Hc : closed ([] ++ [s])) by (apply (closed_roots trace); [done|by apply Forall_singleton]).
  assert (Hs : in_trace trace None s) by assumption.
  eapply gives_bind; [apply (t_deep_from_closed trace base (Some (ss_id s)) _ [] s); [done|done|apply Hs|done]|].
  intros spans Hspans. by apply gives_ret.
Qed.

Lemma t_wide_closed : gives t_wide closed.
Proof.
  unfold t_wide. gen_draw trace. gen_draw base. gen_draw root.
  eapply gives_bind.
  { apply (gives_each _ _ (in_trace trace (Some (ss_id root)))). intros index _. apply gives_basic. }
  intros children Hc. apply gives_ret. by apply (closed_family trace).
Qed.

(** Those with a fixed list of spans *)
Ltac members := repeat (apply Forall_cons; split; [assumption|]); apply Forall_nil_2.

Lemma t_multiroot_closed : gives t_multiroot closed.
Proof.
  unfold t_multiroot. gen_draw trace. gen_draw base. gen_draw alpha. gen_draw beta.
  apply gives_ret, (closed_roots trace); [done|members].
Qed.

Lemma t_skew_closed : gives t_skew closed.
Proof.
  unfold t_skew. gen_draw trace. gen_draw base. gen_draw parent. gen_draw child.
  apply gives_ret, (closed_family trace); [done..|members].
Qed.

Lemma t_zero_closed : gives t_zero closed.
Proof.
  unfold t_zero. gen_draw trace. gen_draw base. gen_draw root. gen_draw instant. gen_draw micro.
  apply gives_ret, (closed_family trace); [done..|members].
Qed.

Lemma lone_in_trace trace s : sized 16 trace -> in_trace trace None s -> lone s.
Proof. intros Ht (<- & Hi & Hp). done. Qed.
#[local] Hint Resolve lone_in_trace : core.

Lemma t_links_closed : gives t_links closed.
Proof.
  unfold t_links. gen_draw trace_a. gen_draw trace_b. gen_draw base. gen_draw a. gen_draw b.
  apply gives_ret, closed_lone. apply Forall_cons; split; [|apply Forall_singleton]; [apply (lone_in_trace trace_a a)|apply (lone_in_trace trace_b b)]; done.
Qed.

Lemma closed_lone1 trace s : sized 16 trace -> in_trace trace None s -> closed [s].
Proof. intros. apply (closed_roots trace); [done|by constructor]. Qed.

Lemma t_longnames_closed : gives t_longnames closed.
Proof. unfold t_longnames. gen_draw trace. gen_draw base. gen_draw span. by apply gives_ret, (closed_lone1 trace). Qed.

Lemma t_events_closed : gives t_events closed.
Proof. unfold t_events. gen_draw trace. gen_draw base. gen_draw span. by apply gives_ret, (closed_lone1 trace). Qed.

Lemma m_shapes_anchor_closed : gives m_shapes_anchor closed.
Proof. unfold m_shapes_anchor. gen_draw trace. gen_draw base. gen_draw span. by apply gives_ret, (closed_lone1 trace). Qed.

Lemma f_attrs_spans_closed : gives f_attrs_spans closed.
Proof.
  unfold f_attrs_spans. gen_draw base. eapply gives_weaken; [apply gives_each|apply closed_lone].
  intros index _. unfold f_attrs_span. gen_draw trace. gen_draw span. by apply gives_ret, (lone_in_trace trace span).
Qed.

Lemma eco_external_closed : gives eco_external closed.
Proof.
  unfold eco_external. gen_draw trace. gen_draw base. gen_draw root. gen_draw client.
  apply gives_ret, (closed_family trace); [done..|members].
Qed.

Lemma map_call_closed base index : gives (map_call base index) closed.
Proof.
  unfold map_call. gen_draw trace. gen_draw root. gen_draw client. gen_draw server.
  apply gives_ret. match goal with |- closed [?r; ?c; ?s] => apply (closed_child trace [r; c] c s) end;
    [|by apply list_elem_of_further, list_elem_of_here|..].
  - apply (closed_family trace); [done..|members].
  - by match goal with H : in_trace _ _ client |- _ => destruct H end.
  - done.
Qed.

Lemma eco_service_map_closed : gives eco_service_map closed.
Proof.
  unfold eco_service_map. gen_draw now.
  eapply gives_bind; [apply (gives_each _ _ closed); intros; apply map_call_closed|]. intros calls Hcalls.
  gen_draw database_trace.
  eapply gives_bind.
  { apply (gives_each _ _ lone). intros index _. unfold map_query. gen_draw client.
    by apply gives_ret, (lone_in_trace database_trace client). }
  intros queries Hqueries. eapply gives_bind.
  { apply (gives_each _ _ lone). intros index _. unfold map_publish. gen_draw trace. gen_draw producer.
    by apply gives_ret, (lone_in_trace trace producer). }
  intros published Hpublished. eapply (gives_bind _ _ lone).
  { unfold map_healthy. gen_draw trace. gen_draw healthy. by apply gives_ret, (lone_in_trace trace healthy). }
  intros healthy Hhealthy. eapply (gives_bind _ _ lone).
  { unfold map_error. gen_draw trace. gen_draw failed. by apply gives_ret, (lone_in_trace trace failed). }
  intros failed Hfailed. apply gives_ret. repeat apply closed_app.
  - by apply closed_concat.
  - by apply closed_lone.
  - by apply closed_lone.
  - apply closed_lone. apply Forall_cons; split; [done|by apply Forall_singleton].
Qed.

Lemma e_burst_closed : gives e_burst closed.
Proof.
  unfold e_burst. gen_draw base. eapply gives_bind.
  { apply (gives_each _ _ lone). intros index _. gen_draw trace. gen_draw span.
    by apply gives_ret, (lone_in_trace trace span). }
  intros recurring Hr. eapply gives_bind.
  { apply (gives_each _ _ lone). intros [index error_type] _. gen_draw trace. gen_draw span.
    by apply gives_ret, (lone_in_trace trace span). }
  intros distinct Hd. apply gives_ret, closed_lone. by apply Forall_app_2.
Qed.

Lemma t_orphan_ids : gives t_orphan (Forall ids_ok).
Proof.
  unfold t_orphan. gen_draw trace. gen_draw base. gen_draw root. gen_draw never. gen_draw orphan.
  apply gives_ret. apply Forall_cons; split; [by eapply in_trace_root|]. apply Forall_singleton.
  by apply (in_trace_child trace never orphan).
Qed.

(** ** What is posted *)

(** The spans of a trace request have identities of sixteen and eight bytes,
    and (in a closed request) each parent they name is a span of the request. *)
Definition span_ids_ok (s : Span) : Prop :=
  sized 16 (sp_trace_id s) /\ sized 8 (sp_span_id s) /\ (sp_parent_span_id s = [] \/ sized 8 (sp_parent_span_id s)).
Definition span_parent_in (spans : list Span) (s : Span) : Prop :=
  sp_parent_span_id s = [] \/
  exists q, q ∈ spans /\ sp_span_id q = sp_parent_span_id s /\ sp_trace_id q = sp_trace_id s.

Definition post_ok (closed_ : bool) (p : Post) : Prop :=
  match p with
  | PostTraces request =>
      Forall (fun s => span_ids_ok s /\ (closed_ = true -> span_parent_in (request_spans request) s)) (request_spans request)
  | _ => True
  end.

Lemma spec_ids_ok s : ids_ok s -> span_ids_ok (span_of s).
Proof.
  intros (Ht & Hi & Hp). split_and!; [done..|]. simpl. destruct (ss_parent s) as [p|]; [right; by apply Hp|by left].
Qed.

Lemma posted_closed e specs : closed specs -> post_ok true (PostTraces (traces_request e specs)).
Proof.
  intros H. simpl. pose proof (request_perm e specs) as Hp. rewrite Hp. apply Forall_map.
  eapply Forall_impl; [done|]. intros s [Hs Hin]. simpl. split; [by apply spec_ids_ok|]. intros _.
  unfold span_parent_in. simpl. destruct (ss_parent s) as [p|] eqn:E; [|by left]. right.
  destruct (Hin p E) as (q & Hq & Hid & Ht). exists (span_of q). simpl. split_and!; [|done..].
  rewrite Hp. by apply list_elem_of_In, in_map, list_elem_of_In.
Qed.

Lemma posted_ids e specs : Forall ids_ok specs -> post_ok false (PostTraces (traces_request e specs)).
Proof.
  intros H. simpl. rewrite request_perm. apply Forall_map. eapply Forall_impl; [done|]. intros s Hs.
  split; [by apply spec_ids_ok|done].
Qed.

Lemma traces_post_closed g : gives g closed -> gives (traces_post g) (Forall (post_ok true)).
Proof.
  intros H. eapply gives_bind; [exact H|]. intros specs Hs. apply gives_env. intros e.
  apply Forall_singleton. by apply posted_closed.
Qed.

Lemma other_posts {A} (g : Gen A) (f : A -> list Post) :
  (forall a, Forall (post_ok true) (f a)) -> gives (g_bind g (fun a => g_ret (f a))) (Forall (post_ok true)).
Proof.
  intros Hf. eapply (gives_bind _ _ (fun _ => True)); [by intros e d _|]. intros a _. by apply gives_ret.
Qed.

Lemma logs_post_ok g : gives (logs_post g) (Forall (post_ok true)).
Proof. apply other_posts. intros a. by apply Forall_singleton. Qed.

Lemma metrics_post_ok g : gives (metrics_post g) (Forall (post_ok true)).
Proof. apply other_posts. intros a. by apply Forall_singleton. Qed.

Lemma m_shapes_posts_ok :
  gives (g_bind m_shapes_anchor (fun anchor => g_bind (m_shapes anchor) (fun metrics =>
    g_env (fun e => PostTraces (traces_request e anchor) :: map PostMetrics (option_list metrics)))))
    (Forall (post_ok true)).
Proof.
  eapply gives_bind; [apply m_shapes_anchor_closed|]. intros anchor Ha.
  eapply (gives_bind _ _ (fun _ => True)); [by intros e d _|]. intros metrics _. apply gives_env. intros e.
  apply Forall_cons. split; [by apply posted_closed|]. by destruct metrics; repeat constructor.
Qed.

Lemma l_patterns_posts_ok :
  gives (g_bind l_patterns (fun records =>
    g_env (fun e => map (fun chunk => PostLogs (logs_request e chunk)) (chunks 5000 records)))) (Forall (post_ok true)).
Proof.
  eapply (gives_bind _ _ (fun _ => True)); [by intros e d _|]. intros records _. apply gives_env. intros e.
  apply Forall_map, Forall_forall. by intros.
Qed.

Lemma f_attrs_posts_ok :
  gives (g_bind (traces_post f_attrs_spans) (fun traces => g_bind (logs_post f_attrs_logs) (fun logs =>
    g_ret (traces ++ logs)))) (Forall (post_ok true)).
Proof.
  eapply gives_bind; [apply traces_post_closed, f_attrs_spans_closed|]. intros traces Ht.
  eapply gives_bind; [apply logs_post_ok|]. intros logs Hl. apply gives_ret. by apply Forall_app_2.
Qed.

Lemma t_orphan_posts_ok : gives (traces_post t_orphan) (Forall (post_ok false)).
Proof.
  eapply gives_bind; [apply t_orphan_ids|]. intros specs Hs. apply gives_env. intros e.
  apply Forall_singleton. by apply posted_ids.
Qed.

(** The lemma of each shape, by its name *)
Ltac shape_lemma :=
  lazymatch goal with
  | |- gives (traces_post t_orphan) _ => apply t_orphan_posts_ok
  | |- gives (traces_post _) _ => apply traces_post_closed; shape_lemma
  | |- gives (logs_post _) _ => apply logs_post_ok
  | |- gives (metrics_post _) _ => apply metrics_post_ok
  | |- gives (g_bind m_shapes_anchor _) _ => exact m_shapes_posts_ok
  | |- gives (g_bind l_patterns _) _ => exact l_patterns_posts_ok
  | |- gives (g_bind (traces_post f_attrs_spans) _) _ => exact f_attrs_posts_ok
  | |- gives t_deep _ => exact t_deep_closed
  | |- gives t_wide _ => exact t_wide_closed
  | |- gives t_multiroot _ => exact t_multiroot_closed
  | |- gives t_skew _ => exact t_skew_closed
  | |- gives t_zero _ => exact t_zero_closed
  | |- gives t_links _ => exact t_links_closed
  | |- gives t_longnames _ => exact t_longnames_closed
  | |- gives t_events _ => exact t_events_closed
  | |- gives eco_external _ => exact eco_external_closed
  | |- gives eco_service_map _ => exact eco_service_map_closed
  | |- gives e_burst _ => exact e_burst_closed
  end.

Lemma shape_gives id posts :
  shape_posts id = Some posts -> gives posts (Forall (post_ok (negb (String.eqb id "t-orphan")))).
Proof.
  unfold shape_posts.
  repeat match goal with |- (if String.eqb id ?name then _ else _) = _ -> _ =>
    destruct (String.eqb_spec id name) as [->|]; [intros [= <-]|] end; [..|done].
  all: match goal with |- context [negb ?b] => let v := eval vm_compute in (negb b) in change (negb b) with v end.
  all: shape_lemma.
Qed.


Definition sample_env : ShapeEnv :=
  mkShapeEnv (fun n => repeat (Z.of_nat n mod 256) 16) (fun n => 1789323840000000000 + Z.of_nat n)
    (fun _ => None) "inv-a".

Lemma sample_draws : draws_uuids sample_env.
Proof.
  intros n. split; [reflexivity|]. simpl.
  repeat constructor; unfold is_byte; pose proof (Z.mod_pos_bound (Z.of_nat n) 256); lia.
Qed.


(** ** Times *)

Definition starts_at (start : Z) (s : SpanSpec) : Prop := ss_start s = start.

Lemma basic_start trace seed parent name start : gives (basic trace seed parent name start) (starts_at start).
Proof. intros e d _. reflexivity. Qed.

Lemma add64_small a b : 0 <= a + b < u64_modulus -> add64 a b = a + b.
Proof. intros H. by apply Z.mod_small. Qed.

Lemma range_bounds n i : i ∈ range n -> 0 <= i < n.
Proof. unfold range. intros H%elem_of_seqZ. lia. Qed.

(** A span that lies between two instants *)
Definition during (lo hi : Z) (s : SpanSpec) : Prop := lo <= ss_start s <= ss_end s /\ ss_end s < hi.

(** The bounds of a generated span: sums that do not overflow *)
Ltac during_small :=
  unfold during; simpl; unfold starts_at in *;
  repeat match goal with H : ss_start _ = _ |- _ => rewrite ?H; clear H end;
  repeat (rewrite !add64_small; unfold u64_modulus in *); lia.

Ltac start_draw name :=
  eapply gives_bind; [first [apply basic_start | apply gives_id16 | apply gives_id8] | intros name ?].

Section service_map_times.
Context (base : Z) (Hbase : 0 <= base /\ base + 1000000000 < u64_modulus).
#[local] Notation past := (during base (base + 1000000000)).

Lemma map_call_times index : 0 <= index < 10 -> gives (map_call base index) (Forall past).
Proof using Hbase.
  intros Hi. unfold map_call, u64_modulus in *. start_draw trace. start_draw root. start_draw client. start_draw server.
  apply gives_ret. repeat (apply Forall_cons; split; [during_small|]). done.
Qed.

Lemma map_query_times trace index : 0 <= index < 100 -> gives (map_query base trace index) past.
Proof using Hbase. intros Hi. unfold map_query, u64_modulus in *. start_draw client. apply gives_ret. during_small. Qed.

Lemma map_publish_times index : 0 <= index < 10 -> gives (map_publish base index) past.
Proof using Hbase.
  intros Hi. unfold map_publish, u64_modulus in *. start_draw trace. start_draw producer. apply gives_ret. during_small.
Qed.

Lemma map_healthy_times : gives (map_healthy base) past.
Proof using Hbase. unfold map_healthy, u64_modulus in *. start_draw trace. start_draw healthy. apply gives_ret. during_small. Qed.

Lemma map_error_times : gives (map_error base) past.
Proof using Hbase. unfold map_error, u64_modulus in *. start_draw trace. start_draw failed. apply gives_ret. during_small. Qed.

End service_map_times.

Lemma Forall_concat_intro {A} (P : A -> Prop) ls : Forall (Forall P) ls -> Forall P (concat ls).
Proof. induction 1; [done|]. by apply Forall_app_2. Qed.

(** The service map lies entirely in the second before the clock was read, so a
    window that ends when the command returns contains all of it. *)
Theorem service_map_in_the_past e d :
  draws_uuids e -> 1000000000 <= se_clock e d.2 < u64_modulus ->
  Forall (during (se_clock e d.2 - 1000000000) (se_clock e d.2)) (eco_service_map e d).1.
Proof.
  intros He Hnow. set (now := se_clock e d.2) in *. set (base := saturating_sub64 now 1000000000).
  assert (Hb : base = now - 1000000000) by (unfold base, saturating_sub64; lia).
  unfold eco_service_map. unfold g_bind at 1. unfold now_nanos. fold now. rewrite Z.mod_small by lia. fold base.
  rewrite <- Hb. replace now with (base + 1000000000) by lia.
  assert (Hrange : 0 <= base /\ base + 1000000000 < u64_modulus) by lia.
  match goal with |- Forall ?P ((?g e ?d').1) => apply (fun H : gives g (Forall P) => H e d' He) end.
  eapply gives_bind; [apply (gives_each _ _ (Forall (during base (base + 1000000000))));
    intros i Hi%range_bounds; by apply map_call_times|]. intros calls Hcalls.
  start_draw database_trace.
  eapply gives_bind; [apply (gives_each _ _ (during base (base + 1000000000)));
    intros i Hi%range_bounds; by apply map_query_times|]. intros queries Hqueries.
  eapply gives_bind; [apply (gives_each _ _ (during base (base + 1000000000)));
    intros i Hi%range_bounds; by apply map_publish_times|]. intros published Hpublished.
  eapply gives_bind; [by apply map_healthy_times|]. intros healthy Hh.
  eapply gives_bind; [by apply map_error_times|]. intros failed Hf.
  apply gives_ret. repeat (apply Forall_app_2; [by first [apply Forall_concat_intro | assumption]|]).
  apply Forall_cons; split; [done|by apply Forall_singleton].
Qed.

Lemma service_map_in_the_past_witness :
  Forall (during 1789323839000000000 1789323840000000000) (eco_service_map sample_env (0%nat, 0%nat)).1.
Proof. apply (service_map_in_the_past sample_env (0%nat, 0%nat)); [apply sample_draws|simpl; unfold u64_modulus; lia]. Defined.

(** ** Distributions *)

Definition attr_of (key : string) (attrs : list KeyValue) : option AnyValue :=
  find_map (fun a => if String.eqb (kv_key a) key then Some (kv_value a) else None) attrs.

Definition template_of (r : LogRecord) : option AnyValue := attr_of "shape.template" (lr_attributes r).
Definition count {A B} `{EqDecision B} (f : A -> B) (b : B) (l : list A) : nat :=
  length (List.filter (fun a => bool_decide (f a = b)) l).

#[export] Instance AnyValue_eq_dec : EqDecision AnyValue.
Proof. solve_decision. Defined.

Lemma count_app {A B} `{EqDecision B} (f : A -> B) b l m : count f b (l ++ m) = (count f b l + count f b m)%nat.
Proof. unfold count. by rewrite List.filter_app, length_app. Qed.

Lemma count_all {A B} `{EqDecision B} (f : A -> B) b l : (forall a, a ∈ l -> f a = b) -> count f b l = length l.
Proof.
  unfold count. induction l as [|a l IH]; intros H; [done|]. cbn [List.filter].
  rewrite (bool_decide_true (f a = b)) by (apply H; set_solver). simpl. f_equal. apply IH. set_solver.
Qed.

Lemma count_none {A B} `{EqDecision B} (f : A -> B) b l : (forall a, a ∈ l -> f a <> b) -> count f b l = 0%nat.
Proof.
  unfold count. induction l as [|a l IH]; intros H; [done|]. cbn [List.filter].
  rewrite (bool_decide_false (f a = b)) by (apply H; set_solver). apply IH. set_solver.
Qed.

Lemma count_map {A B C} `{EqDecision C} (g : A -> B) (f : B -> C) c l : count f c (map g l) = count (fun a => f (g a)) c l.
Proof.
  unfold count. induction l as [|a l IH]; [done|]. cbn [map List.filter]. destruct (bool_decide _); simpl; by rewrite IH.
Qed.

Lemma steady_template e base template index :
  template_of (steady_record e base template index) = Some (StringValue ("steady-" +:+ show_Z template)).
Proof. unfold steady_record. by destruct (l_patterns_line template index). Qed.

Lemma spike_template e base index : template_of (spike_record e base index) = Some (StringValue "spike").
Proof. unfold spike_record. by destruct (l_patterns_line _ index). Qed.

Lemma length_range n : 0 <= n -> length (range n) = Z.to_nat n.
Proof. intros. unfold range. by rewrite length_seqZ. Qed.

(** The steady lines of several templates *)
Definition steady_lines (e : ShapeEnv) (base : Z) (templates : list Z) : list LogRecord :=
  concat (map (fun template => map (steady_record e base template) (range L_PATTERNS_STEADY_LINES)) templates).

Lemma steady_lines_length e base templates : length (steady_lines e base templates) = (1200 * length templates)%nat.
Proof.
  unfold steady_lines. induction templates as [|t ts IH]; [done|]. cbn [map concat length].
  rewrite length_app, IH, length_map, length_range by done.
  change (Z.to_nat L_PATTERNS_STEADY_LINES) with 1200%nat. lia.
Qed.

Lemma steady_lines_count e base templates t :
  count template_of (Some (StringValue ("steady-" +:+ show_Z t))) (steady_lines e base templates) =
  (1200 * length (List.filter (fun k => bool_decide ("steady-" +:+ show_Z k = "steady-" +:+ show_Z t)) templates))%nat.
Proof.
  unfold steady_lines. induction templates as [|k ts IH]; [done|]. cbn [map concat List.filter].
  rewrite count_app, IH, count_map. destruct (bool_decide (_ = _)) eqn:E.
  - apply bool_decide_eq_true in E. rewrite count_all by (intros i _; by rewrite steady_template, E).
    rewrite length_range by done. change (Z.to_nat L_PATTERNS_STEADY_LINES) with 1200%nat. cbn [length]. lia.
  - apply bool_decide_eq_false in E. rewrite count_none; [done|]. intros i _. rewrite steady_template. congruence.
Qed.

(** The records of l-patterns, the clock having been read *)
Definition pattern_records (e : ShapeEnv) (now : Z) : list LogRecord :=
  let base := saturating_sub64 now 300000000000 in
  steady_lines e base (range L_PATTERNS_STEADY_TEMPLATES) ++ map (spike_record e base) (range L_PATTERNS_SPIKE_LINES).

Lemma l_patterns_records e d : (l_patterns e d).1 = pattern_records e (se_clock e d.2 mod u64_modulus).
Proof. reflexivity. Qed.

Lemma pattern_records_length e now : length (pattern_records e now) = Z.to_nat 20000.
Proof.
  unfold pattern_records. rewrite length_app, steady_lines_length, length_map, !length_range by done.
  apply Nat2Z.inj. rewrite Nat2Z.inj_add, Nat2Z.inj_mul, !Z2Nat.id by done. reflexivity.
Qed.

Lemma spike_count e now :
  count template_of (Some (StringValue "spike")) (pattern_records e now) = Z.to_nat L_PATTERNS_SPIKE_LINES.
Proof.
  unfold pattern_records. rewrite count_app, count_none, count_map, count_all.
  - rewrite length_range by done. reflexivity.
  - intros i _. apply spike_template.
  - intros r. unfold steady_lines. rewrite list_elem_of_In, in_concat.
    intros (l & (t & <- & _)%in_map_iff & (i & <- & _)%in_map_iff). by rewrite steady_template.
Qed.

Lemma steady_count e now t :
  0 <= t < L_PATTERNS_STEADY_TEMPLATES ->
  count template_of (Some (StringValue ("steady-" +:+ show_Z t))) (pattern_records e now) =
  Z.to_nat L_PATTERNS_STEADY_LINES.
Proof.
  intros Ht. unfold pattern_records. rewrite count_app, steady_lines_count, (count_none _ _ (map _ _)).
  - assert (Hall : forallb (fun t => Nat.eqb (length (List.filter
      (fun k => bool_decide ("steady-" +:+ show_Z k = "steady-" +:+ show_Z t)) (range L_PATTERNS_STEADY_TEMPLATES))) 1)
      (range L_PATTERNS_STEADY_TEMPLATES) = true) by (vm_compute; reflexivity).
    rewrite forallb_forall in Hall. specialize (Hall t).
    rewrite Nat.eqb_eq in Hall. rewrite Hall; [reflexivity|].
    apply list_elem_of_In. unfold range. apply elem_of_seqZ. unfold L_PATTERNS_STEADY_TEMPLATES in *. lia.
  - intros r Hr%list_elem_of_In%in_map_iff. destruct Hr as (i & <- & _). by rewrite spike_template.
Qed.

Lemma chunks_concat {A} n (l : list A) : (0 < n)%nat -> concat (chunks n l) = l.
Proof.
  intros Hn. unfold chunks. assert (H : (length l <= length l)%nat) by done. revert H.
  generalize (length l) at 2 3. intros fuel. revert l. induction fuel as [|fuel IH]; intros l Hl.
  { destruct l; [done|]. simpl in Hl. lia. }
  destruct l as [|a l]; [done|]. cbn [chunks_fuel concat]. rewrite IH; [apply take_drop|].
  rewrite length_drop. cbn [length] in *. lia.
Qed.

Lemma chunks_exact {A} n k (l : list A) :
  (0 < n)%nat -> length l = (k * n)%nat ->
  length (chunks n l) = k /\ Forall (fun c => length c = n) (chunks n l).
Proof.
  intros Hn. unfold chunks. assert (H : (length l <= length l)%nat) by done. revert H.
  generalize (length l) at 2 4 5. intros fuel. revert k l. induction fuel as [|fuel IH]; intros k l Hl Hk.
  { destruct l; [|simpl in Hl; lia]. simpl in *. destruct k; [done|]. lia. }
  destruct l as [|a l]; [simpl in *; destruct k; [done|lia]|]. cbn [chunks_fuel].
  destruct k as [|k]; [simpl in Hk; lia|]. destruct (IH k (drop n (a :: l))) as [H1 H2].
  - rewrite length_drop. cbn [length] in *. lia.
  - rewrite length_drop. lia.
  - cbn [length]. split; [by rewrite H1|]. constructor; [|done]. rewrite length_take. lia.
Qed.

Definition method_attr (attrs : list KeyValue) : option AnyValue := attr_of HTTP_REQUEST_METHOD attrs.

Lemma gives_each_map {A B C} (f : A -> Gen B) (g : B -> C) (h : A -> C) (l : list A) :
  (forall a, gives (f a) (fun b => g b = h a)) -> gives (g_each f l) (fun bs => map g bs = map h l).
Proof.
  intros H. induction l as [|a l IH]; [by apply gives_ret|]. simpl.
  eapply gives_bind; [apply H|]. intros b Hb. eapply gives_bind; [exact IH|]. intros bs Hbs. apply gives_ret.
  simpl in *. by rewrite Hb, Hbs.
Qed.

Definition facet (index : Z) : option AnyValue := Some (StringValue (f_attrs_method index)).

Lemma f_attrs_span_methods : gives f_attrs_spans (fun spans => map (fun s => method_attr (ss_attrs s)) spans = map facet (range 100)).
Proof.
  unfold f_attrs_spans. gen_draw base. apply gives_each_map. intros index. unfold f_attrs_span.
  gen_draw trace. gen_draw span. by apply gives_ret.
Qed.

Lemma count_via {A B} `{EqDecision B} (f : A -> B) b l : count f b l = count id b (map f l).
Proof. by rewrite count_map. Qed.

Definition request_records (request : ExportLogsServiceRequest) : list LogRecord :=
  concat (map (fun rl => concat (rl_scopes rl)) request).

(** The spans and the logs of a facet corpus: seventy, twenty and ten *)
Definition seventy_twenty_ten {A} (attrs : A -> list KeyValue) (l : list A) : Prop :=
  length l = 100%nat /\
  count (fun a => method_attr (attrs a)) (Some (StringValue "GET")) l = 70%nat /\
  count (fun a => method_attr (attrs a)) (Some (StringValue "POST")) l = 20%nat /\
  count (fun a => method_attr (attrs a)) (Some (StringValue "DELETE")) l = 10%nat.

Lemma facets_split {A} (attrs : A -> list KeyValue) l :
  map (fun a => method_attr (attrs a)) l = map facet (range 100) -> seventy_twenty_ten attrs l.
Proof.
  intros H. unfold seventy_twenty_ten. rewrite <- (length_map (fun a => method_attr (attrs a)) l).
  rewrite !(count_via _ _ l), H. vm_compute. done.
Qed.

Lemma f_attrs_log_methods e d :
  map (fun r => method_attr (lr_attributes r)) (request_records (f_attrs_logs e d).1) = map facet (range 100).
Proof.
  change (request_records (f_attrs_logs e d).1) with
    ((map (f_attrs_record e (se_clock e d.2 mod u64_modulus)) (range 100) ++ []) ++ []).
  rewrite !app_nil_r, map_map. reflexivity.
Qed.

(** The corpora whose answers the product checks assert have exactly the
    announced distributions, whatever is drawn: l-patterns is twenty thousand
    lines, 1,200 of each of the eleven steady templates and 6,800 of the spike,
    posted in four requests of five thousand that lose none; f-attrs is seventy
    GET, twenty POST and ten DELETE, in its spans and again in its logs. *)
Theorem corpora_distributions e d :
  draws_uuids e ->
  let records := (l_patterns e d).1 in
  length records = Z.to_nat 20000 /\
  (forall t, 0 <= t < L_PATTERNS_STEADY_TEMPLATES ->
    count template_of (Some (StringValue ("steady-" +:+ show_Z t))) records = Z.to_nat L_PATTERNS_STEADY_LINES) /\
  count template_of (Some (StringValue "spike")) records = Z.to_nat L_PATTERNS_SPIKE_LINES /\
  concat (chunks (Z.to_nat 5000) records) = records /\ length (chunks (Z.to_nat 5000) records) = 4%nat /\
  Forall (fun chunk => length chunk = Z.to_nat 5000) (chunks (Z.to_nat 5000) records) /\
  seventy_twenty_ten ss_attrs (f_attrs_spans e d).1 /\
  seventy_twenty_ten lr_attributes (request_records (f_attrs_logs e d).1).
Proof.
  intros He records. unfold records. rewrite l_patterns_records. set (now := _ mod _).
  destruct (chunks_exact (Z.to_nat 5000) 4 (pattern_records e now)) as [Hc Hf]; [lia| |].
  { rewrite pattern_records_length. lia. }
  split_and!; [apply pattern_records_length|intros; by apply steady_count|apply spike_count|apply chunks_concat; lia|
    done|done| |].
  - apply facets_split. by apply f_attrs_span_methods.
  - apply facets_split, f_attrs_log_methods.
Qed.

Lemma corpora_distributions_witness :
  seventy_twenty_ten ss_attrs (f_attrs_spans sample_env (0%nat, 0%nat)).1.
Proof. apply (corpora_distributions sample_env (0%nat, 0%nat)). apply sample_draws. Defined.

(** ** Correlated logs *)

Definition first_span (request : ExportTraceServiceRequest) : option Span :=
  resource ← head request; scope ← head (rs_scopes resource); head scope.

(** The logs made for the trace id that was read off a request, as text, are
    records of exactly that trace and span: identities survive their text. *)
Theorem correlated_logs_reach_the_trace e d request span :
  first_span request = Some span -> sized 16 (sp_trace_id span) -> sized 8 (sp_span_id span) ->
  exists text logs,
    first_span_trace_id request = Ok text /\ str_len text = 32 /\
    (issue_correlated_logs text (encode_hex (sp_span_id span)) e d).1 = Ok logs /\
    length (request_records logs) = 3%nat /\
    Forall (fun r => lr_trace_id r = sp_trace_id span /\ lr_span_id r = sp_span_id span) (request_records logs).
Proof.
  intros Hs [Ht Htb] [Hi Hib]. exists (encode_hex (sp_trace_id span)).
  assert (Hfirst : first_span_trace_id request = Ok (encode_hex (sp_trace_id span))).
  { unfold first_span_trace_id. unfold first_span in Hs. rewrite Hs. by destruct (sp_trace_id span). }
  assert (Hlen : str_len (encode_hex (sp_trace_id span)) = 32) by (rewrite encode_length, Ht; reflexivity).
  unfold issue_correlated_logs, pinned_logs. rewrite !hex_roundtrip by (done || (by rewrite ?Ht, ?Hi)).
  eexists. split_and!; [done|done|reflexivity|reflexivity|]. by repeat constructor.
Qed.

(** The span of the issue seed in [sample_env] *)
Definition seeded_span : Span :=
  default (mkSpan [] [] [] "" 0 0 0 [] [] [] None) (first_span (issue_seed sample_env (0%nat, 0%nat)).1).

Lemma correlated_logs_reach_the_trace_witness :
  exists text logs,
    first_span_trace_id (issue_seed sample_env (0%nat, 0%nat)).1 = Ok text /\ str_len text = 32 /\
    (issue_correlated_logs text (encode_hex (sp_span_id seeded_span)) sample_env (2%nat, 1%nat)).1 = Ok logs /\
    length (request_records logs) = 3%nat /\
    Forall (fun r => lr_trace_id r = sp_trace_id seeded_span /\ lr_span_id r = sp_span_id seeded_span) (request_records logs).
Proof.
  apply correlated_logs_reach_the_trace; [vm_compute; reflexivity|..];
    (split; [reflexivity|vm_compute; repeat constructor; done]).
Defined.
