(* ===== verification/PricingDomain.v ===== *)
(** The domain of the pricing service (services/pricing/src/domain.rs): the
    cached quote and its validity window, the request checks, the cache key and
    the answer on the wire.  A [SystemTime] is its distance from the Unix epoch
    in nanoseconds, negative before the epoch. *)

From S2P Require Import Prelude Proto.

Definition QUOTE_TTL_SECONDS : Z := 45.
Definition MAX_ITEMS : Z := 50.
Definition MAX_QUANTITY : Z := 100.
Definition MAX_IDENTIFIER_LENGTH : Z := 128.
Definition MILLIS_PER_SECOND : Z := 1000.

Record CachedLine : Type := mkCachedLine {
  cl_product_id : string;
  cl_sku : string;
  cl_quantity : Z;
  cl_unit_minor : Z;
  cl_line_minor : Z
}.

Record CachedQuote : Type := mkCachedQuote {
  cq_quote_id : string;
  cq_lines : list CachedLine;
  cq_subtotal_minor : Z;
  cq_discount_minor : Z;
  cq_grand_total_minor : Z;
  cq_currency : string;
  cq_pricing_version : string;
  cq_price_source : string;
  cq_expires_at_unix_ms : Z
}.

Definition invalid_argument (m : string) : grpc_status := Status InvalidArgument m.
Definition internal (m : string) : grpc_status := Status Internal m.

Local Open Scope result_scope.

Definition unix_millis (now : Z) : result grpc_status Z :=
  ensure (0 <=? now) (internal "system clock predates the Unix epoch") ;;
  let ms := now / 1000000 in
  if ms <=? i64_max then Ok ms
  else Err (internal "system clock exceeds quote timestamp limits").

Definition remaining_validity_seconds (q : CachedQuote) (now : Z) : result grpc_status Z :=
  now_unix_ms <- unix_millis now ;;
  if cq_expires_at_unix_ms q <=? now_unix_ms then Ok 0 else
  remaining_ms <- ok_or (checked_sub (cq_expires_at_unix_ms q) now_unix_ms)
                        (internal "quote expiry arithmetic overflowed") ;;
  rounded <- ok_or (checked_add remaining_ms (MILLIS_PER_SECOND - 1))
                   (internal "quote expiry arithmetic overflowed") ;;
  let remaining_seconds := Z.quot rounded MILLIS_PER_SECOND in
  if fits_u32 remaining_seconds then Ok remaining_seconds
  else Err (internal "quote validity exceeds protocol limits").

Definition consume_at (q : CachedQuote) (now : Z) : result grpc_status unit :=
  remaining <- remaining_validity_seconds q now ;;
  ensure (negb (remaining =? 0)) (Status FailedPrecondition "quote has expired").

Definition quote_expiry_from (now : Z) : result grpc_status Z :=
  now_unix_ms <- unix_millis now ;;
  ttl_ms <- ok_or (checked_mul QUOTE_TTL_SECONDS MILLIS_PER_SECOND)
                  (internal "quote TTL arithmetic overflowed") ;;
  ok_or (checked_add now_unix_ms ttl_ms) (internal "quote expiry arithmetic overflowed").

(** ** Request checks *)

Definition valid_currency_code (c : string) : bool :=
  (str_len c =? 3) && String.eqb c (to_ascii_uppercase c) && str_forallb is_alphabetic c.

(** The loop over the items, with the set of SKUs seen so far. *)
Fixpoint check_quote_items (items : list QuoteItem) (skus : list string) :
    result grpc_status unit :=
  match items with
  | [] => Ok tt
  | item :: rest =>
      ensure (negb (is_blank (qi_sku item) || (MAX_IDENTIFIER_LENGTH <? str_len (qi_sku item))))
        (invalid_argument "each quote item needs a valid SKU") ;;
      ensure (negb ((qi_quantity item =? 0) || (MAX_QUANTITY <? qi_quantity item)))
        (invalid_argument "each quote item needs a quantity from one to one hundred") ;;
      ensure (negb (one_of (qi_sku item) skus))
        (invalid_argument "quote SKUs must be unique") ;;
      check_quote_items rest (qi_sku item :: skus)
  end.

Definition context_names : list string :=
  ["promotion_code"; "pricing_strategy"; "customer_segment"; "customer_tier";
   "region"; "request_priority"].

Fixpoint check_context (names : list string) (context : gmap string string) :
    result grpc_status unit :=
  match names with
  | [] => Ok tt
  | name :: rest =>
      match context !! name with
      | Some value =>
          ensure (negb ((MAX_IDENTIFIER_LENGTH <? str_len value) || has_control value))
            (invalid_argument (name +:+ " exceeds the maximum length"))
      | None => Ok tt
      end ;;
      check_context rest context
  end.

Definition validate_request (r : QuoteRequest) : result grpc_status unit :=
  ensure (negb (is_blank (qr_tenant_id r))) (invalid_argument "tenant_id is required") ;;
  ensure (str_len (qr_tenant_id r) <=? 128)
    (invalid_argument "tenant_id exceeds maximum length") ;;
  ensure (negb (is_blank (qr_customer_id r))) (invalid_argument "customer_id is required") ;;
  ensure (str_len (qr_customer_id r) <=? MAX_IDENTIFIER_LENGTH)
    (invalid_argument "customer_id exceeds maximum length") ;;
  ensure (negb (bool_decide (qr_items r = [])))
    (invalid_argument "at least one quote item is required") ;;
  ensure (Z.of_nat (length (qr_items r)) <=? MAX_ITEMS)
    (invalid_argument "too many quote items") ;;
  ensure (valid_currency_code (qr_currency_code r))
    (invalid_argument "currency_code must be a three-letter uppercase code") ;;
  check_quote_items (qr_items r) [] ;;
  check_context context_names (qr_context r) ;;
  match qr_context r !! "pricing_strategy" with
  | Some strategy =>
      ensure (one_of strategy ["standard"; "promotional"])
        (invalid_argument "pricing_strategy is not supported")
  | None => Ok tt
  end.

(** ** Identifiers and keys *)

(** One step of the fold: [hash.wrapping_mul(31).wrapping_add(byte)] on [u64]. *)
Definition hash_step (hash : Z) (byte : Z) : Z := (hash * 31 + byte) mod u64_modulus.

Fixpoint hash_bytes (s : string) (hash : Z) : Z :=
  match s with
  | "" => hash
  | String b rest => hash_bytes rest (hash_step hash (Z.of_N (byte_of b)))
  end.

Definition fingerprint_context_keys : list string :=
  ["pricing_strategy"; "promotion_code"; "customer_segment"; "customer_tier";
   "region"; "request_priority"].

Definition concat_strings (l : list string) : string := foldr String.append "" l.

Definition fingerprint_text (r : QuoteRequest) : string :=
  qr_tenant_id r +:+ "|" +:+ qr_customer_id r +:+ "|" +:+ qr_currency_code r
  +:+ concat_strings
        (map (fun key => "|" +:+ key +:+ "=" +:+ default "" (qr_context r !! key))
             fingerprint_context_keys)
  +:+ concat_strings
        (map (fun item => "|" +:+ qi_sku item +:+ ":" +:+ show_Z (qi_quantity item))
             (qr_items r)).

Definition stable_request_fingerprint (r : QuoteRequest) : string :=
  show_Z (hash_bytes (fingerprint_text r) 0).

Definition request_id (r : QuoteRequest) : string :=
  if is_blank (qr_request_id r) then "quote-" +:+ stable_request_fingerprint r
  else qr_request_id r.

Definition cache_key (r : QuoteRequest) : string :=
  "pricing:quote:" +:+ qr_tenant_id r +:+ ":" +:+ qr_customer_id r +:+ ":"
  +:+ qr_currency_code r +:+ ":" +:+ stable_request_fingerprint r.

(** ** The answer on the wire *)

Definition line_to_proto (currency : string) (line : CachedLine) : QuoteLine :=
  {| ql_sku := cl_sku line;
     ql_quantity := cl_quantity line;
     ql_unit_price := Some (mkMoney currency (cl_unit_minor line));
     ql_line_total := Some (mkMoney currency (cl_line_minor line)) |}.

Definition to_proto_at (q : CachedQuote) (now : Z) : result grpc_status QuoteResponse :=
  consume_at q now ;;
  valid_for_seconds <- remaining_validity_seconds q now ;;
  Ok {| qp_quote_id := cq_quote_id q;
        qp_status := QuoteStatus_Ready;
        qp_lines := map (line_to_proto (cq_currency q)) (cq_lines q);
        qp_subtotal := Some (mkMoney (cq_currency q) (cq_subtotal_minor q));
        qp_discount_total := Some (mkMoney (cq_currency q) (cq_discount_minor q));
        qp_tax_total := Some (mkMoney (cq_currency q) 0);
        qp_grand_total := Some (mkMoney (cq_currency q) (cq_grand_total_minor q));
        qp_valid_for_seconds := valid_for_seconds;
        qp_pricing_version := cq_pricing_version q |}.

(** ** The cached form: serde's derived encoding of a quote *)

Definition line_to_json (l : CachedLine) : json :=
  JObj [("product_id", JStr (cl_product_id l)); ("sku", JStr (cl_sku l));
        ("quantity", JNum (cl_quantity l)); ("unit_minor", JNum (cl_unit_minor l));
        ("line_minor", JNum (cl_line_minor l))].

Definition line_of_json (v : json) : option CachedLine :=
  p ← jfield_str "product_id" v;
  s ← jfield_str "sku" v;
  n ← jfield_u32 "quantity" v;
  u ← jfield_i64 "unit_minor" v;
  t ← jfield_i64 "line_minor" v;
  Some (mkCachedLine p s n u t).

Definition quote_to_json (q : CachedQuote) : json :=
  JObj [("quote_id", JStr (cq_quote_id q)); ("lines", JArr (map line_to_json (cq_lines q)));
        ("subtotal_minor", JNum (cq_subtotal_minor q));
        ("discount_minor", JNum (cq_discount_minor q));
        ("grand_total_minor", JNum (cq_grand_total_minor q));
        ("currency", JStr (cq_currency q));
        ("pricing_version", JStr (cq_pricing_version q));
        ("price_source", JStr (cq_price_source q));
        ("expires_at_unix_ms", JNum (cq_expires_at_unix_ms q))].

Definition quote_of_json (v : json) : option CachedQuote :=
  i ← jfield_str "quote_id" v;
  ls ← (match jget "lines" v with Some (JArr l) => mapM line_of_json l | _ => None end);
  sub ← jfield_i64 "subtotal_minor" v;
  disc ← jfield_i64 "discount_minor" v;
  tot ← jfield_i64 "grand_total_minor" v;
  cur ← jfield_str "currency" v;
  ver ← jfield_str "pricing_version" v;
  src ← jfield_str "price_source" v;
  exp ← jfield_i64 "expires_at_unix_ms" v;
  Some (mkCachedQuote i ls sub disc tot cur ver src exp).

(** The ranges of the integer fields of the Rust structs. *)
Definition line_in_range (l : CachedLine) : bool :=
  fits_u32 (cl_quantity l) && fits_i64 (cl_unit_minor l) && fits_i64 (cl_line_minor l).
Definition quote_in_range (q : CachedQuote) : bool :=
  forallb line_in_range (cq_lines q)
  && fits_i64 (cq_subtotal_minor q) && fits_i64 (cq_discount_minor q)
  && fits_i64 (cq_grand_total_minor q) && fits_i64 (cq_expires_at_unix_ms q).

(** ** What an accepted request satisfies *)

Definition quote_item_ok (item : QuoteItem) : Prop :=
  is_blank (qi_sku item) = false /\ str_len (qi_sku item) <= 128
  /\ qi_quantity item <> 0 /\ qi_quantity item <= 100.

Record request_ok (r : QuoteRequest) : Prop := {
  ro_tenant : is_blank (qr_tenant_id r) = false /\ str_len (qr_tenant_id r) <= 128;
  ro_customer : is_blank (qr_customer_id r) = false /\ str_len (qr_customer_id r) <= 128;
  ro_count : (1 <= length (qr_items r) <= 50)%nat;
  ro_currency : valid_currency_code (qr_currency_code r) = true;
  ro_items : Forall quote_item_ok (qr_items r);
  ro_unique : NoDup (map qi_sku (qr_items r));
  ro_context : forall name value, In name context_names -> qr_context r !! name = Some value ->
    str_len value <= 128 /\ has_control value = false;
  ro_strategy : forall s, qr_context r !! "pricing_strategy" = Some s ->
    s = "standard" \/ s = "promotional"
}.

Local Close Scope result_scope.

(** ** Lemmas *)

Lemma unix_millis_ok now ms :
  unix_millis now = Ok ms <-> 0 <= now /\ ms = now / 1000000 /\ ms <= i64_max.
Proof.
  unfold unix_millis. rewrite res_bind_ok. setoid_rewrite ensure_ok. split.
  - intros (u & Hnow%Z.leb_le & H). simpl in H.
    destruct (_ <=? _) eqn:E in H; [|discriminate]. apply Z.leb_le in E.
    injection H as <-. lia.
  - intros (Hnow & -> & Hmax). exists tt. apply Z.leb_le in Hnow, Hmax. simpl.
    by rewrite Hmax.
Qed.

Lemma check_quote_items_ok items skus :
  check_quote_items items skus = Ok tt <->
  Forall quote_item_ok items /\ NoDup (map qi_sku items)
  /\ (forall s, In s skus -> ~ In s (map qi_sku items)).
Proof.
  revert skus. induction items as [|it rest IH]; intros skus; simpl.
  { split; [|done]. intros _. split_and!; [constructor|constructor|naive_solver]. }
  rewrite !res_bind_ok. setoid_rewrite res_bind_ok. setoid_rewrite res_bind_ok.
  setoid_rewrite ensure_ok. setoid_rewrite IH. split.
  - intros (_ & H1 & _ & H2 & _ & H3 & Hall & Hnd & Hfresh). bool_inv.
    unfold MAX_IDENTIFIER_LENGTH, MAX_QUANTITY in *.
    split_and!.
    + constructor; [|done]. unfold quote_item_ok. split_and!; [done|lia|lia|lia].
    + constructor; [|done]. intros Hin%list_elem_of_In. by apply (Hfresh (qi_sku it)); [left|].
    + intros s Hs [<-|Hin]; [|by apply (Hfresh s); [right|]].
      apply one_of_In in Hs. congruence.
  - intros (Hall & Hnd & Hfresh). inversion Hall as [|? ? (? & ? & ? & ?) ?]; subst.
    inversion Hnd as [|? ? Hni ?]; subst. unfold MAX_IDENTIFIER_LENGTH, MAX_QUANTITY.
    exists tt. split; [rewrite negb_true_iff, orb_false_iff; split; [done|lia]|].
    exists tt. split; [rewrite negb_true_iff, orb_false_iff; lia|].
    exists tt. split.
    + apply negb_true_iff, not_true_iff_false. rewrite one_of_In. intros Hs.
      apply (Hfresh _ Hs). by left.
    + split_and!; [done|done|]. intros s [<-|Hs] Hin.
      * apply Hni. by apply list_elem_of_In.
      * apply (Hfresh s Hs). by right.
Qed.

Lemma check_context_ok names context :
  check_context names context = Ok tt <->
  forall name value, In name names -> context !! name = Some value ->
    str_len value <= 128 /\ has_control value = false.
Proof.
  induction names as [|n rest IH]; simpl; [naive_solver|].
  rewrite res_bind_ok. setoid_rewrite IH. unfold MAX_IDENTIFIER_LENGTH. split.
  - intros (u & Hn & Hrest) name value [<-|Hin] Hget; [|eauto].
    rewrite Hget, ensure_ok in Hn. bool_inv. split; [lia|done].
  - intros Hall. exists tt. split; [|eauto].
    destruct (context !! n) as [v|] eqn:E; [|done].
    destruct (Hall n v (or_introl eq_refl) E) as [Hlen Hc].
    rewrite ensure_ok, negb_true_iff, orb_false_iff. split; [lia|done].
Qed.

(** Every early return of [validate_request] against one clause of the record. *)
Lemma validate_request_spec r : validate_request r = Ok tt <-> request_ok r.
Proof.
  split.
  - unfold validate_request, MAX_IDENTIFIER_LENGTH, MAX_ITEMS. intros H. res_inv. bool_inv.
    repeat match goal with u : unit |- _ => destruct u end.
    match goal with Hi : check_quote_items _ _ = _ |- _ =>
      apply check_quote_items_ok in Hi as (? & ? & _) end.
    split; try done.
    + destruct (qr_items r); [done|]. cbn [length] in *. lia.
    + by apply check_context_ok.
    + intros s Hs. rewrite Hs in *. res_inv.
      match goal with Hp : one_of s _ = true |- _ => apply one_of_In in Hp; simpl in Hp end.
      naive_solver.
  - intros [[Ht1 Ht2] [Hc1 Hc2] Hn Hcur Hi Hu Hctx Hs].
    unfold validate_request, MAX_IDENTIFIER_LENGTH, MAX_ITEMS.
    rewrite Ht1, Hc1, Hcur, bool_decide_false by (intros He; rewrite He in Hn; simpl in Hn; lia).
    rewrite !(proj2 (Z.leb_le _ _)) by lia. simpl ensure.
    rewrite (proj2 (check_quote_items_ok _ _)) by (split_and!; [done..|by intros ? []]).
    rewrite (proj2 (check_context_ok _ _) Hctx). cbn [res_bind ensure negb].
    destruct (qr_context r !! "pricing_strategy") as [s|] eqn:E; [|done].
    by destruct (Hs s eq_refl) as [-> | ->].
Qed.

(** The window: [remaining] seconds left means the expiry lies less than a
    second short of [remaining] whole seconds ahead. *)
Lemma remaining_validity_ok q now r :
  remaining_validity_seconds q now = Ok r ->
  0 <= r <= u32_max /\ 0 <= now
  /\ (r = 0 <-> cq_expires_at_unix_ms q <= now / 1000000)
  /\ (0 < r -> 1000 * (r - 1) < cq_expires_at_unix_ms q - now / 1000000 <= 1000 * r).
Proof.
  unfold remaining_validity_seconds, MILLIS_PER_SECOND. intros H.
  apply res_bind_ok in H as (ms & (Hnow & -> & Hmax)%unix_millis_ok & H).
  destruct (_ <=? _) eqn:E in H; [injection H as <-; unfold u32_max; lia|].
  res_inv. repeat match goal with Hx : checked_sub _ _ = _ |- _ => apply i64_checked_some in Hx
  | Hx : checked_add _ _ = _ |- _ => apply i64_checked_some in Hx end.
  bool_inv. destruct_and?. subst.
  remember (now / 1000000) as ms.
  match goal with Hq : context [fits_u32 (?n `quot` 1000)] |- _ =>
    rewrite (Z.quot_div_nonneg n 1000) in Hq by lia end.
  case_any; res_inv. unfold fits_u32, u32_max in *. bool_inv. div_lia.
Qed.

Lemma consume_at_ok q now :
  consume_at q now = Ok tt ->
  0 <= now /\ now / 1000000 < cq_expires_at_unix_ms q
  /\ exists r, remaining_validity_seconds q now = Ok r /\ 0 < r.
Proof.
  unfold consume_at. intros (r & Hr & Hc%ensure_ok)%res_bind_ok.
  pose proof (remaining_validity_ok _ _ _ Hr). bool_inv.
  split_and!; [lia|lia|]. exists r. split; [done|lia].
Qed.

Lemma quote_expiry_ok now e :
  quote_expiry_from now = Ok e <->
  0 <= now /\ e = now / 1000000 + 45000 /\ e <= i64_max.
Proof.
  unfold quote_expiry_from. rewrite res_bind_ok. split.
  - intros (ms & (Hnow & -> & Hm)%unix_millis_ok & H). simpl in H. res_inv.
    apply i64_checked_some in H. unfold QUOTE_TTL_SECONDS, MILLIS_PER_SECOND in *. lia.
  - intros (Hnow & -> & Hm). exists (now / 1000000). split; [apply unix_millis_ok; lia|].
    apply ok_or_ok, i64_checked_some. unfold i64_min.
    change (QUOTE_TTL_SECONDS * MILLIS_PER_SECOND) with 45000.
    pose proof (Z.div_pos now 1000000 Hnow ltac:(lia)). lia.
Qed.

Lemma line_json_roundtrip l :
  line_in_range l = true -> line_of_json (line_to_json l) = Some l.
Proof.
  unfold line_in_range, fits_u32, fits_i64. destruct l as [p s n u t]. simpl. intros H. bool_inv.
  unfold line_of_json, line_to_json. simpl. unfold jfield_u32, jfield_i64, jfield_int. simpl.
  rewrite !(proj2 (Z.leb_le _ _)) by done. done.
Qed.

Lemma lines_json_roundtrip ls :
  forallb line_in_range ls = true -> mapM line_of_json (map line_to_json ls) = Some ls.
Proof.
  induction ls as [|l ls IH]; [done|]. intros H. cbn [forallb] in H. bool_inv.
  cbn [map mapM]. by rewrite line_json_roundtrip, (IH ltac:(done)).
Qed.

(** ** Theorems *)

(** the cached form loses nothing: a quote whose integers are in range
    is read back from its JSON encoding unchanged. *)
Theorem quote_json_roundtrip q :
  quote_in_range q = true -> quote_of_json (quote_to_json q) = Some q.
Proof.
  unfold quote_in_range, fits_i64. destruct q as [i ls sub disc tot cur ver src exp]. simpl. intros H.
  bool_inv. unfold quote_of_json, quote_to_json. simpl. rewrite lines_json_roundtrip by done. simpl.
  unfold jfield_i64, jfield_int. simpl. rewrite !(proj2 (Z.leb_le _ _)) by done. done.
Qed.

Definition sample_quote : CachedQuote :=
  mkCachedQuote "q-1" [mkCachedLine "prod-1" "sku-1" 2 1299 2598] 2598 0 2598 "USD"
    "price-change-7" "default" 1700000045000.

Lemma quote_json_roundtrip_witness :
  quote_in_range sample_quote = true
  /\ quote_of_json (quote_to_json sample_quote) = Some sample_quote.
Proof. split; [reflexivity|]. apply (quote_json_roundtrip sample_quote). reflexivity. Defined.

(** A quote stamped at [now0] is accepted exactly during the 45 seconds
    (45,000 whole milliseconds) that follow, whatever the later clock reads, and
    then never reports more than 45 seconds of validity. *)
Theorem quote_window q now0 now1 :
  quote_expiry_from now0 = Ok (cq_expires_at_unix_ms q) -> now0 <= now1 ->
  now1 / 1000000 <= i64_max ->
  (consume_at q now1 = Ok tt <-> now1 / 1000000 < now0 / 1000000 + 45000)
  /\ exists r, remaining_validity_seconds q now1 = Ok r /\ 0 <= r <= 45.
Proof.
  intros (H0 & He & Hmax)%quote_expiry_ok Hle H1.
  assert (Hmono : now0 / 1000000 <= now1 / 1000000) by (apply Z.div_le_mono; lia).
  assert (Hpos : 0 <= now0 / 1000000) by (apply Z.div_pos; lia).
  assert (exists r, remaining_validity_seconds q now1 = Ok r) as [r Hr].
  { unfold remaining_validity_seconds.
    rewrite (proj2 (unix_millis_ok now1 (now1 / 1000000))) by lia. simpl.
    destruct (_ <=? _) eqn:E; [by eexists|]. bool_inv.
    rewrite He in *. unfold i64_max, checked_sub, checked_add in *.
    rewrite (proj2 (i64_checked_some _ _)) by (unfold i64_min, i64_max; split; [reflexivity|lia]).
    simpl. rewrite (proj2 (i64_checked_some _ _))
      by (unfold i64_min, i64_max, MILLIS_PER_SECOND; split; [reflexivity|lia]).
    simpl. unfold MILLIS_PER_SECOND, fits_u32, u32_max. rewrite Z.quot_div_nonneg by lia.
    remember (now0 / 1000000) as a. remember (now1 / 1000000) as b.
    rewrite !(proj2 (Z.leb_le _ _)) by div_lia. by eexists. }
  pose proof (remaining_validity_ok _ _ _ Hr) as (Hb & Hn & Hz & Hp).
  split; [|exists r; split; [done|lia]].
  unfold consume_at. rewrite Hr. simpl. rewrite ensure_ok, negb_true_iff, Z.eqb_neq. lia.
Qed.

Lemma quote_window_witness :
  (consume_at sample_quote 1700000044999999999 = Ok tt <->
   1700000044999999999 / 1000000 < 1700000000000000000 / 1000000 + 45000)
  /\ exists r, remaining_validity_seconds sample_quote 1700000044999999999 = Ok r /\ 0 <= r <= 45.
Proof.
  apply (quote_window sample_quote 1700000000000000000 1700000044999999999).
  - reflexivity.
  - lia.
  - vm_compute. discriminate.
Defined.
