(* ===== verification/PricingService.v ===== *)
(** The pricing service's use of its stores (services/pricing/src/infrastructure.rs,
    application.rs and the unary handler of api.rs): price selection and
    promotions from PostgreSQL, the Redis quote cache, and the composition. *)

From Stdlib Require Import SpecFloat.
From S2P Require Import Prelude Values Proto Propagation PricingDomain.
Import Float64 Proto Propagation PricingDomain.

(** ** Tables read by a quote *)

Record VariantRow : Type := mkVariantRow {
  v_id : string; v_tenant : string; v_product_id : string; v_sku : string; v_status : string }.
Record ProductRow : Type := mkProductRow {
  p_id : string; p_tenant : string; p_status : string }.
Record CustomerRow : Type := mkCustomerRow {
  c_id : string; c_tenant : string; c_status : string }.
(** [amount_minor] is an INTEGER column. *)
Record PriceRow : Type := mkPriceRow {
  price_id : string; price_tenant : string; price_variant : string; price_currency : string;
  price_amount : Z; price_valid_from : Z; price_valid_to : option Z; price_is_default : bool }.
Record PromotionRow : Type := mkPromotionRow {
  promo_id : string; promo_tenant : string; promo_code : string; promo_type : string;
  promo_value : spec_float; promo_min_subtotal : Z; promo_currency : option string;
  promo_starts : Z; promo_ends : option Z; promo_max : option Z; promo_count : Z;
  promo_active : bool }.

Record PricingDb : Type := mkPricingDb {
  variants : list VariantRow;
  products : list ProductRow;
  customers : list CustomerRow;
  prices : list PriceRow;
  promotions : list PromotionRow;
  (** tenant, promotion, product *)
  promotion_products : list (string * string * string);
  (** tenant, sequence *)
  price_change_events : list (string * Z)
}.

(** The stages at which PostgreSQL can fail, each with the driver's message. *)
Inductive PgStage : Type :=
| PgPoolTimeout | PgPool | PgStart | PgVersion | PgBatch | PgPromotion | PgScope | PgCommit.
Definition PgFaults : Type := PgStage -> option string.

Definition pg_stage (io : PgFaults) (s : PgStage) (e : string -> grpc_status) :
    result grpc_status unit :=
  match io s with Some m => Err (e m) | None => Ok tt end.

Definition unavailable (prefix : string) (m : string) : grpc_status :=
  Status Unavailable (prefix +:+ m).

Local Open Scope result_scope.

Definition begin_transaction (io : PgFaults) : result grpc_status unit :=
  pg_stage io PgPoolTimeout (fun _ => Status DeadlineExceeded "pricing database pool timeout") ;;
  pg_stage io PgPool (unavailable "pricing database unavailable: ") ;;
  pg_stage io PgStart (unavailable "pricing transaction start failed: ").

(** [COALESCE(MAX(sequence), 0)] *)
Definition pricing_version_in (io : PgFaults) (db : PricingDb) (tenant : string) :
    result grpc_status string :=
  pg_stage io PgVersion (unavailable "pricing version query failed: ") ;;
  let sequences := map snd (List.filter (fun e => String.eqb e.1 tenant) (price_change_events db)) in
  let sequence := match sequences with [] => 0 | s :: rest => foldr Z.max s rest end in
  Ok ("price-change-" +:+ show_Z sequence).

Definition repository_pricing_version (io : PgFaults) (db : PricingDb) (tenant : string) :
    result grpc_status string :=
  begin_transaction io ;;
  version <- pricing_version_in io db tenant ;;
  pg_stage io PgCommit (unavailable "pricing version transaction failed: ") ;;
  Ok version.

(** ** Price selection *)

Record SelectedPrice : Type := mkSelectedPrice {
  sp_product_id : string; sp_unit_minor : Z; sp_currency : string; sp_price_source : string }.

(** The text order of the database's collation, which breaks ties between
    prices that start at the same instant. *)
Section selection.
Variable id_leb : string -> string -> bool.

(** [ORDER BY v.sku, p.valid_from DESC, p.id], for one SKU *)
Definition price_before (a b : PriceRow) : bool :=
  (price_valid_from b <? price_valid_from a)
  || ((price_valid_from a =? price_valid_from b) && id_leb (price_id a) (price_id b)).

(** The joined rows of one requested SKU: product and price. *)
Definition joined_rows (db : PricingDb) (now : Z) (r : QuoteRequest) (sku : string) :
    list (string * PriceRow) :=
  List.flat_map (fun v =>
    if String.eqb (v_tenant v) (qr_tenant_id r) && String.eqb (v_sku v) sku
       && String.eqb (v_status v) "active" then
      List.flat_map (fun p =>
        if String.eqb (p_tenant p) (v_tenant v) && String.eqb (p_id p) (v_product_id v)
           && String.eqb (p_status p) "active"
           && existsb (fun c => String.eqb (c_tenant c) (v_tenant v)
                                && String.eqb (c_id c) (qr_customer_id r)
                                && String.eqb (c_status c) "active") (customers db) then
          map (fun pr => (p_id p, pr))
            (List.filter (fun pr =>
               String.eqb (price_tenant pr) (v_tenant v)
               && String.eqb (price_variant pr) (v_id v)
               && String.eqb (price_currency pr) (qr_currency_code r)
               && (price_valid_from pr <=? now)
               && match price_valid_to pr with None => true | Some t => now <? t end
               && price_is_default pr) (prices db))
        else []) (products db)
    else []) (variants db).

Definition first_row (rows : list (string * PriceRow)) : option (string * PriceRow) :=
  match rows with
  | [] => None
  | row :: rest =>
      Some (foldl (fun best x => if price_before best.2 x.2 then best else x) row rest)
  end.

(** [DISTINCT ON (v.sku)] collected into the [HashMap]. *)
Definition selected_price (db : PricingDb) (now : Z) (r : QuoteRequest) (sku : string) :
    option SelectedPrice :=
  '(product, pr) ← first_row (joined_rows db now r sku);
  Some (mkSelectedPrice product (price_amount pr) (price_currency pr) "default").

(** The loop over the items: the lines and the source of the first one. *)
Fixpoint price_lines (db : PricingDb) (now : Z) (r : QuoteRequest) (items : list QuoteItem) :
    result grpc_status (list CachedLine * option string) :=
  match items with
  | [] => Ok ([], None)
  | item :: rest =>
      price <- ok_or (selected_price db now r (qi_sku item))
                     (Status NotFound ("unknown priced SKU: " +:+ qi_sku item)) ;;
      ensure (0 <=? sp_unit_minor price)
        (internal "pricing source returned a negative price") ;;
      ensure (String.eqb (sp_currency price) (qr_currency_code r))
        (invalid_argument "currency is not supported for the SKU") ;;
      line_minor <- ok_or (checked_mul (sp_unit_minor price) (qi_quantity item))
                          (Status OutOfRange "quote line amount overflowed") ;;
      tail <- price_lines db now r rest ;;
      Ok (mkCachedLine (sp_product_id price) (qi_sku item) (qi_quantity item)
            (sp_unit_minor price) line_minor :: tail.1,
          Some (sp_price_source price))
  end.
End selection.

(** [try_fold] of the line amounts *)
Fixpoint sum_lines (e : grpc_status) (acc : Z) (lines : list CachedLine) : result grpc_status Z :=
  match lines with
  | [] => Ok acc
  | l :: rest => acc' <- ok_or (checked_add acc (cl_line_minor l)) e ;; sum_lines e acc' rest
  end.

(** ** [f64]: IEEE 754 binary64 *)

(** [f64::round]: to the nearest integer, halves away from zero *)
Definition f64_round (x : spec_float) : Z :=
  match x with
  | S754_finite s m e =>
      let magnitude :=
        if 0 <=? e then Zpos m * 2 ^ e
        else (2 * Zpos m + 2 ^ (- e)) / 2 ^ (1 - e) in
      if s then - magnitude else magnitude
  | _ => 0
  end.

(** [x.round() as i64] for a finite [x]: the cast saturates. *)
Definition round_as_i64 (x : spec_float) : Z := clamp (f64_round x) i64_min i64_max.

(** ** Promotions *)

Definition promotion_applies (now : Z) (r : QuoteRequest) (code : string) (subtotal : Z)
    (p : PromotionRow) : bool :=
  String.eqb (promo_tenant p) (qr_tenant_id r) && String.eqb (promo_code p) code
  && promo_active p && (promo_starts p <=? now)
  && match promo_ends p with None => true | Some t => now <? t end
  && match promo_max p with None => true | Some n => promo_count p <? n end
  && match promo_currency p with None => true | Some c => String.eqb c (qr_currency_code r) end
  && (promo_min_subtotal p <=? subtotal).

(** The amount a promotion takes off an eligible subtotal. *)
Definition discount_amount (kind : string) (value : spec_float) (eligible_subtotal : Z) :
    result grpc_status Z :=
  ensure (is_finite value && negb (SFleb value (S754_zero false)))
    (internal "promotion value is invalid") ;;
  raw_discount <-
    (if String.eqb kind "percentage" then
       ensure (negb (SFltb (f64_of_Z 100) value))
         (internal "promotion percentage is invalid") ;;
       Ok (f64_div (f64_mul (f64_of_Z eligible_subtotal) value) (f64_of_Z 100))
     else if String.eqb kind "fixed" then Ok value
     else Err (internal "promotion type is invalid")) ;;
  ensure (is_finite raw_discount && negb (SFltb (f64_of_Z i64_max) raw_discount))
    (Status OutOfRange "promotion discount overflowed") ;;
  Ok (Z.min (round_as_i64 raw_discount) eligible_subtotal).

Definition promotion_discount (io : PgFaults) (db : PricingDb) (now : Z) (r : QuoteRequest)
    (code : string) (lines : list CachedLine) (subtotal_minor : Z) : result grpc_status Z :=
  pg_stage io PgPromotion (unavailable "promotion query failed: ") ;;
  match List.find (promotion_applies now r code subtotal_minor) (promotions db) with
  | None => Ok 0
  | Some row =>
      pg_stage io PgScope (unavailable "promotion scope query failed: ") ;;
      let product_ids :=
        map snd (List.filter (fun pp => String.eqb pp.1.1 (qr_tenant_id r)
                                   && String.eqb pp.1.2 (promo_id row)) (promotion_products db)) in
      match product_ids with
      | [] => Ok 0
      | _ =>
          eligible_subtotal <-
            sum_lines (Status OutOfRange "promotion subtotal overflowed") 0
              (List.filter (fun line => one_of (cl_product_id line) product_ids) lines) ;;
          if eligible_subtotal =? 0 then Ok 0
          else discount_amount (promo_type row) (promo_value row) eligible_subtotal
      end
  end.

(** [PostgresRepository::calculate_quote]; [db_now] is the transaction's
    CURRENT_TIMESTAMP and [clock] the [SystemTime] read for the expiry. *)
Definition postgres_calculate_quote (id_leb : string -> string -> bool) (io : PgFaults)
    (db : PricingDb) (db_now clock : Z) (r : QuoteRequest) : result grpc_status CachedQuote :=
  begin_transaction io ;;
  pricing_version <- pricing_version_in io db (qr_tenant_id r) ;;
  let promotion_code := default "" (qr_context r !! "promotion_code") in
  let strategy := default "standard" (qr_context r !! "pricing_strategy") in
  pg_stage io PgBatch (unavailable "pricing batch query failed: ") ;;
  priced <- price_lines id_leb db db_now r (qr_items r) ;;
  let lines := priced.1 in
  subtotal_minor <- sum_lines (Status OutOfRange "quote subtotal overflowed") 0 lines ;;
  discount_minor <-
    (if String.eqb strategy "promotional" && negb (is_empty promotion_code)
     then promotion_discount io db db_now r promotion_code lines subtotal_minor
     else Ok 0) ;;
  grand_total_minor <- ok_or (checked_sub subtotal_minor discount_minor)
                             (internal "quote total arithmetic underflowed") ;;
  expires_at_unix_ms <- quote_expiry_from clock ;;
  price_source <- ok_or priced.2 (internal "pricing batch query returned no price source") ;;
  pg_stage io PgCommit (unavailable "pricing quote transaction failed: ") ;;
  Ok {| cq_quote_id := request_id r;
        cq_lines := lines;
        cq_subtotal_minor := subtotal_minor;
        cq_discount_minor := discount_minor;
        cq_grand_total_minor := grand_total_minor;
        cq_currency := qr_currency_code r;
        cq_pricing_version := pricing_version;
        cq_price_source := price_source;
        cq_expires_at_unix_ms := expires_at_unix_ms |}.

(** ** The Redis cache *)

(** A cached value with the instant at which SETEX lets it expire.  [manager]
    is the connection a generation opened. *)
Record RedisState : Type := mkRedisState {
  redis_client : bool;
  redis_manager : option Z;
  redis_generation : Z;
  redis_available : bool;
  redis_store : gmap string (json * Z)
}.

(** How taking the state lock and opening a connection go. *)
Inductive RedisConnect : Type := LockTimeout | ConnectFails | Connects.
(** How a command goes: [CommandFails applied relock] is an error or a timeout,
    after which the state lock may or may not be taken again in time. *)
Inductive RedisCommand : Type := Replies | CommandFails (applied relock : bool).

(** [RedisRepository::connection]: the generation of the connection in use. *)
Definition redis_connection (st : RedisState) (c : RedisConnect) : option Z * RedisState :=
  if negb (redis_client st) then (None, st) else
  match c with
  | LockTimeout => (None, st)
  | _ =>
      match redis_manager st with
      | Some _ => (Some (redis_generation st), st)
      | None =>
          match c with
          | Connects =>
              let generation := (redis_generation st + 1) mod u64_modulus in
              (Some generation,
               mkRedisState (redis_client st) (Some generation) generation true (redis_store st))
          | _ => (None, st)
          end
      end
  end.

Definition clear_failed (st : RedisState) (generation : Z) (relock : bool) : RedisState :=
  if relock && (redis_generation st =? generation) then
    mkRedisState (redis_client st) None ((redis_generation st + 1) mod u64_modulus) false
      (redis_store st)
  else st.

Definition redis_store_set (st : RedisState) (key : string) (v : json) (expires : Z) : RedisState :=
  mkRedisState (redis_client st) (redis_manager st) (redis_generation st) (redis_available st)
    (<[key := (v, expires)]> (redis_store st)).

(** A key is gone once its time to live has passed; [now] in nanoseconds. *)
Definition redis_live (st : RedisState) (key : string) (now : Z) : option json :=
  '(v, expires) ← redis_store st !! key;
  if now <? expires then Some v else None.

(** [RedisRepository::get]; [others] is what other tasks do to the state while
    the command runs. *)
Definition redis_get (st : RedisState) (c : RedisConnect) (cmd : RedisCommand)
    (others : RedisState -> RedisState) (now : Z) (key : string) :
    option (result unit (option json)) * RedisState :=
  match redis_connection st c with
  | (None, st) => (None, st)
  | (Some generation, st) =>
      match cmd with
      | Replies => (Some (Ok (redis_live st key now)), others st)
      | CommandFails _ relock => (Some (Err tt), clear_failed (others st) generation relock)
      end
  end.

Definition redis_set (st : RedisState) (c : RedisConnect) (cmd : RedisCommand)
    (others : RedisState -> RedisState) (now : Z) (key : string) (q : CachedQuote) :
    option (result unit unit) * RedisState :=
  let value := quote_to_json q in
  match redis_connection st c with
  | (None, st) => (None, st)
  | (Some generation, st) =>
      let written := redis_store_set st key value (now + QUOTE_TTL_SECONDS * 1000000000) in
      match cmd with
      | Replies => (Some (Ok tt), others written)
      | CommandFails applied relock =>
          (Some (Err tt),
           clear_failed (others (if applied then written else st)) generation relock)
      end
  end.

(** ** The quote *)

(** Everything outside the service a calculation reads, in the order it does. *)
Record QuoteEnv : Type := mkQuoteEnv {
  qe_variant : option string;              (** the feature variant; [None]: 500 ms passed *)
  qe_get_connect : RedisConnect; qe_get_command : RedisCommand;
  qe_get_others : RedisState -> RedisState;
  qe_cache_clock : Z;                      (** [SystemTime::now] of the cache lookup *)
  qe_version_io : PgFaults; qe_version_db : PricingDb;
  qe_quote_io : PgFaults; qe_quote_db : PricingDb; qe_db_now : Z; qe_clock : Z;
  qe_set_connect : RedisConnect; qe_set_command : RedisCommand;
  qe_set_others : RedisState -> RedisState
}.

Section quote.
Variable id_leb : string -> string -> bool.

(** The cached quote, when the key holds one that decodes, has not expired
    and carries the current price version. *)
Definition cached_quote (env : QuoteEnv) (r : QuoteRequest)
    (reply : option (result unit (option json))) : result grpc_status (option CachedQuote) :=
  match reply with
  | Some (Ok (Some value)) =>
      match quote_of_json value with
      | Some quote =>
          if is_ok (consume_at quote (qe_cache_clock env)) then
            pricing_version <-
              repository_pricing_version (qe_version_io env) (qe_version_db env) (qr_tenant_id r) ;;
            Ok (if String.eqb (cq_pricing_version quote) pricing_version then Some quote else None)
          else Ok None
      | None => Ok None
      end
  | _ => Ok None
  end.

Definition calculate_quote (env : QuoteEnv) (st : RedisState) (r : QuoteRequest) :
    result grpc_status CachedQuote * RedisState :=
  match validate_request r with
  | Err e => (Err e, st)
  | Ok _ =>
      let pricing_mode := default "cached" (qe_variant env) in
      let use_cache := String.eqb pricing_mode "cached" in
      let key := cache_key r in
      let '(reply, st) :=
        if use_cache then
          redis_get st (qe_get_connect env) (qe_get_command env) (qe_get_others env)
            (qe_cache_clock env) key
        else (None, st) in
      match (if use_cache then cached_quote env r reply else Ok None) with
      | Err e => (Err e, st)
      | Ok (Some quote) => (Ok quote, st)
      | Ok None =>
          match postgres_calculate_quote id_leb (qe_quote_io env) (qe_quote_db env)
                  (qe_db_now env) (qe_clock env) r with
          | Err e => (Err e, st)
          | Ok quote =>
              (Ok quote,
               if use_cache then
                 (redis_set st (qe_set_connect env) (qe_set_command env) (qe_set_others env)
                    (qe_clock env) key quote).2
               else st)
          end
      end
  end.

(** [apply_scenario_delay]: the milliseconds slept and the injected fault. *)
Definition scenario_delay (context : gmap string string) : option Z :=
  (fun n => Z.min n 30000) <$> (context !! "delay_ms" ≫= parse_u64).
Definition apply_scenario_delay (context : gmap string string) : result grpc_status unit :=
  ensure (negb (opt_is (context !! "fault") "unavailable"))
    (Status Unavailable "pricing provider temporarily unavailable").

Definition tenant_error_message (e : TenantIdentityError) : string :=
  match e with
  | TenantMissing => "tenant identity is required"
  | TenantInvalid => "tenant identity is invalid"
  | TenantConflicting => "tenant identity sources conflict"
  end.

Definition with_tenant (r : QuoteRequest) (tenant : string) : QuoteRequest :=
  mkQuoteRequest (qr_request_id r) (qr_customer_id r) (qr_items r) (qr_currency_code r)
    (qr_context r) (qr_payment_method_type r) tenant.

(** The unary handler: [reply_clock] is the clock of [to_proto]. *)
Definition quote (env : QuoteEnv) (reply_clock : Z) (st : RedisState) (metadata : headers)
    (request : QuoteRequest) : result grpc_status QuoteResponse * RedisState :=
  match resolve_grpc_tenant_identity metadata (Some (qr_tenant_id request)) with
  | Err e => (Err (invalid_argument (tenant_error_message e)), st)
  | Ok tenant =>
      let request := with_tenant request tenant in
      match apply_scenario_delay (qr_context request) with
      | Err e => (Err e, st)
      | Ok _ =>
          let '(res, st) := calculate_quote env st request in
          (q <- res ;; to_proto_at q reply_clock, st)
      end
  end.
End quote.

Local Close Scope result_scope.

(** ** Lemmas *)

(** A float whose sign bit, if it has one, is clear. *)
Definition unsigned (x : spec_float) : Prop :=
  match x with
  | S754_zero s | S754_infinity s | S754_finite s _ _ => s = false
  | S754_nan => True
  end.

Lemma unsigned_round_aux p e m ex l : unsigned (binary_round_aux p e false m ex l).
Proof.
  unfold binary_round_aux. destruct (shr_fexp _ _ _ _ _) as [mrs e1].
  destruct (shr_fexp _ _ _ _ _) as [mrs' e2]. destruct (shr_m mrs'); simpl; try done.
  by destruct (_ <=? _).
Qed.

Lemma unsigned_of_Z n : 0 <= n -> unsigned (f64_of_Z n).
Proof.
  intros Hn. unfold f64_of_Z, binary_normalize. destruct n; [done| |lia].
  unfold binary_round. destruct (shl_align _ _ _). apply unsigned_round_aux.
Qed.

Lemma unsigned_mul x y : unsigned x -> unsigned y -> unsigned (f64_mul x y).
Proof.
  unfold f64_mul. destruct x, y; simpl; intros; subst; try done. apply unsigned_round_aux.
Qed.

Lemma unsigned_div x y : unsigned x -> unsigned y -> unsigned (f64_div x y).
Proof.
  unfold f64_div. destruct x, y; simpl; intros; subst; try done.
  destruct (SFdiv_core_binary _ _ _ _ _ _) as [[? ?] ?]. apply unsigned_round_aux.
Qed.

Lemma unsigned_round x : unsigned x -> 0 <= round_as_i64 x.
Proof.
  intros Hx. unfold round_as_i64, clamp, i64_min, i64_max. enough (0 <= f64_round x) by lia.
  destruct x as [| | |s m e]; simpl in *; try lia. subst s.
  destruct (0 <=? e) eqn:E; bool_inv.
  - pose proof (Z.pow_nonneg 2 e). lia.
  - apply Z.div_pos; [pose proof (Z.pow_nonneg 2 (- e)); lia|].
    apply Z.pow_pos_nonneg; lia.
Qed.

Lemma discount_amount_bounds kind value eligible d :
  0 <= eligible -> discount_amount kind value eligible = Ok d -> 0 <= d <= eligible.
Proof.
  intros He. unfold discount_amount. intros H. res_inv. bool_inv.
  assert (Hv : unsigned value).
  { destruct value as [| | |[] m e]; simpl in *; done. }
  match goal with Hr : context [String.eqb kind "percentage"] |- _ => rename Hr into Hraw end.
  enough (Hu : unsigned x0) by (pose proof (unsigned_round _ Hu); lia).
  destruct (String.eqb kind "percentage"); res_inv.
  - apply unsigned_div; [|apply (unsigned_of_Z 100); lia].
    apply unsigned_mul; [|done]. by apply unsigned_of_Z.
  - destruct (String.eqb kind "fixed"); by res_inv.
Qed.

(** The sum of the line amounts, and what a fold that did not overflow returns. *)
Definition total (lines : list CachedLine) : Z := foldr (fun l acc => cl_line_minor l + acc) 0 lines.

Lemma sum_lines_ok e acc lines n :
  sum_lines e acc lines = Ok n -> n = acc + total lines /\ (lines = [] \/ fits_i64 n = true).
Proof.
  revert acc. induction lines as [|l lines IH]; intros acc; simpl; [intros [= <-]; split; [lia|by left]|].
  intros H. res_inv. unfold checked_add in *.
  match goal with Hc : i64_checked _ = _ |- _ => apply i64_checked_some in Hc as (<- & Hc) end.
  apply IH in H0 as (-> & Hf). split; [lia|right].
  destruct Hf as [-> | Hf]; [|done]. simpl. unfold fits_i64.
  apply andb_true_iff. rewrite !Z.leb_le. lia.
Qed.

Lemma total_nonneg lines : Forall (fun l => 0 <= cl_line_minor l) lines -> 0 <= total lines.
Proof. induction 1; simpl; lia. Qed.

Lemma total_filter_le p lines :
  Forall (fun l => 0 <= cl_line_minor l) lines -> 0 <= total (List.filter p lines) <= total lines.
Proof. induction 1 as [|l lines Hl _ IH]; simpl; [lia|]. destruct (p l); simpl; lia. Qed.

(** A line prices its item: same SKU and quantity, a non-negative unit price
    and the exact product, within [i64]. *)
Definition prices_item (item : QuoteItem) (line : CachedLine) : Prop :=
  cl_sku line = qi_sku item /\ cl_quantity line = qi_quantity item
  /\ 0 <= cl_unit_minor line /\ cl_line_minor line = cl_unit_minor line * cl_quantity line
  /\ cl_line_minor line <= i64_max.

Lemma price_lines_ok id_leb db now r items priced :
  price_lines id_leb db now r items = Ok priced ->
  Forall2 prices_item items priced.1 /\ (items <> [] -> priced.2 <> None).
Proof.
  revert priced. induction items as [|item items IH]; intros priced; simpl.
  { intros [= <-]. split; [constructor|done]. }
  intros H. res_inv. bool_inv. unfold checked_mul in *.
  match goal with Hc : i64_checked _ = _ |- _ => apply i64_checked_some in Hc as (<- & Hc) end.
  match goal with Hp : price_lines _ _ _ _ _ = Ok _ |- _ => apply IH in Hp as (? & ?) end.
  split; [|done]. constructor; [|done]. unfold prices_item. simpl. split_and!; [done|done|lia|done|lia].
Qed.

Lemma prices_item_nonneg items lines :
  Forall (fun item => 0 <= qi_quantity item) items -> Forall2 prices_item items lines ->
  Forall (fun l => 0 <= cl_line_minor l) lines.
Proof.
  intros Hq HF. induction HF as [|item line items lines (_ & Hqt & Hu & Hl & _) _ IH]; [constructor|].
  inversion Hq; subst. constructor; [|by apply IH]. rewrite Hl, Hqt. nia.
Qed.

Lemma promotion_discount_bounds io db now r code lines subtotal d :
  Forall (fun l => 0 <= cl_line_minor l) lines ->
  promotion_discount io db now r code lines subtotal = Ok d -> 0 <= d <= total lines.
Proof.
  intros Hnn. pose proof (total_nonneg _ Hnn) as Ht. unfold promotion_discount. intros H.
  res_inv. case_any; [|res_inv; lia]. res_inv. case_any; [res_inv; lia|]. rewrite <- E0 in *.
  res_inv. match goal with Hs : sum_lines _ _ _ = _ |- _ => apply sum_lines_ok in Hs as (-> & _) end.
  match goal with Hd : context [total (List.filter ?f lines)] |- _ =>
    pose proof (total_filter_le f lines Hnn) end.
  case_any; [res_inv; lia|].
  match goal with Hd : discount_amount _ _ _ = _ |- _ => apply discount_amount_bounds in Hd; lia end.
Qed.

(** Everything a freshly calculated quote promises about its request. *)
Record quote_sound (r : QuoteRequest) (clock : Z) (q : CachedQuote) : Prop := {
  qs_lines : Forall2 prices_item (qr_items r) (cq_lines q);
  qs_subtotal : cq_subtotal_minor q = total (cq_lines q) /\ cq_subtotal_minor q <= i64_max;
  qs_discount : 0 <= cq_discount_minor q <= cq_subtotal_minor q;
  qs_total : cq_grand_total_minor q = cq_subtotal_minor q - cq_discount_minor q;
  qs_currency : cq_currency q = qr_currency_code r;
  qs_expiry : quote_expiry_from clock = Ok (cq_expires_at_unix_ms q);
  qs_id : cq_quote_id q = request_id r
}.

Lemma postgres_quote_ok id_leb io db db_now clock r q :
  Forall (fun item => 0 <= qi_quantity item) (qr_items r) ->
  postgres_calculate_quote id_leb io db db_now clock r = Ok q -> quote_sound r clock q.
Proof.
  intros Hq. unfold postgres_calculate_quote. intros H. res_inv.
  match goal with Hp : price_lines _ _ _ _ _ = Ok _ |- _ =>
    apply price_lines_ok in Hp as (Hlines & _) end.
  pose proof (prices_item_nonneg _ _ Hq Hlines) as Hnn.
  pose proof (total_nonneg _ Hnn) as Htot.
  repeat match goal with Hs : sum_lines _ _ _ = Ok _ |- _ => apply sum_lines_ok in Hs as (-> & Hfit) end.
  unfold checked_sub in *.
  match goal with Hc : i64_checked _ = _ |- _ => apply i64_checked_some in Hc as (<- & Hc) end.
  split; simpl; try done.
  - split; [lia|]. destruct Hfit as [-> | Hfit]; [done|].
    unfold fits_i64 in Hfit. bool_inv. lia.
  - match goal with Hd : (if ?b then _ else _) = Ok _ |- _ => destruct b; [|res_inv; lia] end.
    match goal with Hd : promotion_discount _ _ _ _ _ _ _ = _ |- _ =>
      apply promotion_discount_bounds in Hd; [lia|done] end.
Qed.

(** ** Theorems *)

(** whatever the stores do, a calculated quote was made for an accepted
    request, and it is either fresh - one line per item with the exact product,
    a subtotal that is their sum, a discount between zero and the subtotal,
    nothing overflowing, valid for the 45 s window from the clock - or a live
    cache entry under the request's key that has not expired and carries the
    price version the database reports at that moment. *)
Theorem calculate_quote_sound id_leb env st r q st' :
  Forall (fun item => 0 <= qi_quantity item) (qr_items r) ->
  calculate_quote id_leb env st r = (Ok q, st') ->
  request_ok r /\
  (quote_sound r (qe_clock env) q
   \/ exists v, redis_live st (cache_key r) (qe_cache_clock env) = Some v
      /\ quote_of_json v = Some q
      /\ consume_at q (qe_cache_clock env) = Ok tt
      /\ repository_pricing_version (qe_version_io env) (qe_version_db env) (qr_tenant_id r)
         = Ok (cq_pricing_version q)).
Proof.
  intros Hq. unfold calculate_quote. destruct (validate_request r) as [[]|] eqn:Hv; [|done].
  apply validate_request_spec in Hv. intros H. split; [done|].
  destruct (if String.eqb _ "cached" then redis_get _ _ _ _ _ _ else _) as [reply st1] eqn:Hg.
  destruct (if String.eqb _ "cached" then cached_quote _ _ _ else _) as [[cq|]|] eqn:Hc; [| |done].
  - injection H as -> ->. right. destruct (String.eqb _ "cached"); [|done].
    unfold cached_quote in Hc. destruct reply as [[[v|]|]|]; try done.
    destruct (quote_of_json v) as [q'|] eqn:Hd; [|done].
    destruct (consume_at q' _) as [[]|] eqn:Hcon; [|done]. simpl in Hc.
    apply res_bind_ok in Hc as (version & Hversion & [= Hc]).
    destruct (String.eqb _ _) eqn:Hver in Hc; [|done]. bool_inv. simplify_eq.
    exists v. split_and!; try done.
    unfold redis_get, redis_connection in Hg. repeat case_match; simplify_eq; done.
  - left. destruct (postgres_calculate_quote _ _ _ _ _ _) as [fresh|] eqn:Hp; [|done].
    injection H as -> _. by eapply postgres_quote_ok.
Qed.

Definition no_faults : PgFaults := fun _ => None.
Definition sample_price (id variant : string) (amount : Z) : PriceRow :=
  mkPriceRow id "acme" variant "USD" amount 0 None true.
Definition sample_pricing_db : PricingDb :=
  {| variants := [mkVariantRow "v1" "acme" "p1" "Aa" "active"; mkVariantRow "v2" "acme" "p2" "BB" "active"];
     products := [mkProductRow "p1" "acme" "active"; mkProductRow "p2" "acme" "active"];
     customers := [mkCustomerRow "c1" "acme" "active"];
     prices := [sample_price "r1" "v1" 1000; sample_price "r2" "v2" 9000];
     promotions := [mkPromotionRow "pm" "acme" "TEN" "percentage" (f64_of_Z 10) 0 None 0 None None 0 true];
     promotion_products := [("acme", "pm", "p1")];
     price_change_events := [("acme", 4); ("acme", 7); ("other", 9)] |}.
Definition sample_env (clock : Z) : QuoteEnv :=
  {| qe_variant := Some "cached"; qe_get_connect := Connects; qe_get_command := Replies;
     qe_get_others := fun st => st; qe_cache_clock := clock;
     qe_version_io := no_faults; qe_version_db := sample_pricing_db;
     qe_quote_io := no_faults; qe_quote_db := sample_pricing_db; qe_db_now := clock;
     qe_clock := clock; qe_set_connect := Connects; qe_set_command := Replies;
     qe_set_others := fun st => st |}.
Definition sample_redis : RedisState := mkRedisState true None 0 false ∅.
Definition sample_request (sku : string) (context : gmap string string) : QuoteRequest :=
  mkQuoteRequest "" "c1" [mkQuoteItem sku 2] "USD" context None "acme".
Definition sample_clock : Z := 1700000000000000000.
Definition promotional : gmap string string :=
  <["pricing_strategy" := "promotional"]> (<["promotion_code" := "TEN"]> ∅).

Example promotional_quote :
  (fun q => (cq_subtotal_minor q, cq_discount_minor q, cq_grand_total_minor q, cq_pricing_version q))
    <$> (match (calculate_quote String.leb (sample_env sample_clock) sample_redis
                  (sample_request "Aa" promotional)).1 with Ok q => Some q | Err _ => None end)
  = Some (2000, 200, 1800, "price-change-7").
Proof. vm_compute. reflexivity. Qed.

Lemma calculate_quote_sound_witness :
  exists q, (calculate_quote String.leb (sample_env sample_clock) sample_redis
               (sample_request "Aa" promotional)).1 = Ok q /\ cq_grand_total_minor q = 1800
  /\ request_ok (sample_request "Aa" promotional).
Proof.
  eexists. split; [vm_compute; reflexivity|]. split; [reflexivity|].
  refine (proj1 (calculate_quote_sound String.leb (sample_env sample_clock) sample_redis
    (sample_request "Aa" promotional) _ _ _ _)); [constructor; [simpl; lia|constructor]|].
  vm_compute. reflexivity.
Defined.


(** A command that failed on an old connection does not tear down the
    connection a later generation opened, and one that failed on the current
    connection always leaves the repository to reconnect. *)
Theorem clear_failed_generation st generation :
  0 <= redis_generation st < u64_modulus ->
  (generation <> redis_generation st -> clear_failed st generation true = st)
  /\ (generation = redis_generation st ->
      let st' := clear_failed st generation true in
      redis_manager st' = None /\ redis_available st' = false
      /\ redis_generation st' <> generation
      /\ (redis_client st = true ->
          exists g st2, redis_connection st' Connects = (Some g, st2)
            /\ redis_manager st2 = Some g /\ clear_failed st2 generation true = st2)).
Proof.
  intros Hg. unfold clear_failed, u64_modulus in *. split.
  - intros Hne%not_eq_sym%Z.eqb_neq. by rewrite Hne.
  - intros ->. rewrite Z.eqb_refl. simpl. split_and!; [done|done| |].
    + intros He. div_lia.
    + intros Hc. unfold redis_connection. simpl. rewrite Hc. simpl. eexists _, _.
      split; [done|]. split; [done|]. simpl.
      rewrite (proj2 (Z.eqb_neq _ _)); [done|]. unfold u64_modulus. div_lia.
Qed.

Lemma clear_failed_generation_witness :
  redis_manager (clear_failed (mkRedisState true (Some 3) 3 true ∅) 3 true) = None.
Proof.
  refine (proj1 (proj2 (clear_failed_generation (mkRedisState true (Some 3) 3 true ∅) 3 _) eq_refl)).
  unfold u64_modulus. simpl. lia.
Defined.
