(* ===== verification/PricingStream.v ===== *)
(** The streaming quote of the pricing service (services/pricing/src/api.rs): a
    detached task that prices ever longer prefixes of a request's items and sends
    each snapshot, until the last one, an error, a client that left or the
    service's shutdown; and the registry of these tasks. *)

From S2P Require Import Prelude Proto Propagation PricingDomain PricingService.

(** ** One task *)

(** How the calculation of a snapshot ends: it runs to its end, or the client
    leaves or the service stops first, which drops it where it is and leaves the
    cache as it is then. *)
Inductive calculation : Type :=
| Calculated (env : QuoteEnv)
| Abandoned (st : RedisState).

(** How sending a message ends: the channel takes it, its receiver is gone, or
    the service stops first. *)
Inductive send_end : Type := Sent | ReceiverGone | StoppedFirst.

(** What one turn of the loop meets: whether the service has begun to stop, at
    its start and after the calculation, the calculation, the clock of the reply
    and the end of the send *)
Record turn : Type := mkTurn {
  tn_stopping : bool; tn_calculation : calculation; tn_stopping_after : bool; tn_reply_clock : Z;
  tn_send : send_end }.

Definition prefix_request (r : QuoteRequest) (base_request_id : string) (last : nat) : QuoteRequest :=
  mkQuoteRequest (base_request_id +:+ ":stream:" +:+ show_Z (Z.of_nat last)) (qr_customer_id r)
    (take last (qr_items r)) (qr_currency_code r) (qr_context r) (qr_payment_method_type r) (qr_tenant_id r).

Definition message : Type := result grpc_status QuoteResponse.

Definition delivered (s : send_end) (m : message) : list message :=
  match s with Sent => [m] | _ => [] end.

Section stream.
Variable id_leb : string -> string -> bool.

(** One turn: the messages it delivers, whether the loop goes on, and the cache *)
Definition stream_turn (r : QuoteRequest) (base_request_id : string) (t : turn) (st : RedisState) (last : nat) :
    list message * bool * RedisState :=
  if tn_stopping t then ([], false, st) else
  match tn_calculation t with
  | Abandoned st => ([], false, st)
  | Calculated env =>
      let '(quote, st) := calculate_quote id_leb env st (prefix_request r base_request_id last) in
      match quote with
      | Ok quote =>
          if tn_stopping_after t then ([], false, st) else
          match to_proto_at quote (tn_reply_clock t) with
          | Err error =>
              (delivered (match tn_send t with ReceiverGone => ReceiverGone | _ => Sent end) (Err error), false, st)
          | Ok response =>
              (delivered (tn_send t) (Ok response), match tn_send t with Sent => true | _ => false end, st)
          end
      | Err error => (delivered (tn_send t) (Err error), false, st)
      end
  end.

Fixpoint stream_task (r : QuoteRequest) (base_request_id : string) (turns : nat -> turn) (ends : list nat)
    (st : RedisState) : list message * RedisState :=
  match ends with
  | [] => ([], st)
  | last :: rest =>
      let '(sent, goes_on, st) := stream_turn r base_request_id (turns last) st last in
      if goes_on then
        let '(more, st) := stream_task r base_request_id turns rest st in (sent ++ more, st)
      else (sent, st)
  end.

(** The handler, and what its task then sends.  [accepting]: the registry still
    takes tasks. *)
Definition quote_stream (turns : nat -> turn) (accepting : bool) (st : RedisState) (metadata : headers)
    (request : QuoteRequest) : result grpc_status (list message) * RedisState :=
  match resolve_grpc_tenant_identity metadata (Some (qr_tenant_id request)) with
  | Err e => (Err (invalid_argument (tenant_error_message e)), st)
  | Ok tenant =>
      let request := with_tenant request tenant in
      match validate_request request with
      | Err e => (Err e, st)
      | Ok _ =>
          if accepting then
            let '(sent, st) := stream_task request (request_id request) turns (seq 1 (length (qr_items request))) st in
            (Ok sent, st)
          else (Err (Status Unavailable "pricing service is shutting down"), st)
      end
  end.
End stream.

(** ** The registry of the tasks *)

Record StreamTasks : Type := mkStreamTasks { ts_stopping : bool; ts_tasks : list bool }.

(** Tasks that have ended, here [true], are joined first. *)
Definition tasks_spawn (s : StreamTasks) : bool * StreamTasks :=
  let tasks := List.filter negb (ts_tasks s) in
  if ts_stopping s then (false, mkStreamTasks (ts_stopping s) tasks)
  else (true, mkStreamTasks (ts_stopping s) (tasks ++ [false])).

(** How the next task of a drain ends; [Overdue]: not before the deadline *)
Inductive drain_event : Type :=
| TaskEnded
| TaskFailed (m : string)
| Overdue.

Definition overdue_error : string := "pricing stream task did not stop before the drain deadline".

Fixpoint drain_stream_tasks (ends : list drain_event) (first_error : option string) : result string unit :=
  match ends with
  | [] => match first_error with Some e => Err e | None => Ok tt end
  | TaskEnded :: rest => drain_stream_tasks rest first_error
  | TaskFailed m :: rest =>
      drain_stream_tasks rest
        (match first_error with
         | None => Some ("pricing stream task failed during shutdown: " +:+ m)
         | Some _ => first_error
         end)
  | Overdue :: _ => Err overdue_error
  end.

Definition tasks_shutdown (s : StreamTasks) (ends : list drain_event) : result string unit * StreamTasks :=
  (drain_stream_tasks ends None, mkStreamTasks true []).

(** ** What a stream delivers *)

Section outcomes.
Variable id_leb : string -> string -> bool.

(** The message of a snapshot: its quote was calculated for the prefix, or it
    says why there is none. *)
Definition snapshot_of (r : QuoteRequest) (base_request_id : string) (last : nat) (m : message) : Prop :=
  exists env st clock quote,
    (calculate_quote id_leb env st (prefix_request r base_request_id last)).1 = quote
    /\ m = match quote with Ok q => to_proto_at q clock | Err e => Err e end.

(** The messages of the turns from [first] on: each of its own prefix, only the
    last one an error *)
Definition snapshots (r : QuoteRequest) (base_request_id : string) (first : nat) (ms : list message) : Prop :=
  forall i m, ms !! i = Some m ->
    snapshot_of r base_request_id (first + i) m /\ (is_ok m = false -> S i = length ms).

(** A turn that nothing interrupts *)
Definition undisturbed (t : turn) : Prop :=
  tn_stopping t = false /\ (exists env, tn_calculation t = Calculated env)
  /\ tn_stopping_after t = false /\ tn_send t = Sent.

Lemma turn_ok r base t st last sent goes_on st' :
  stream_turn id_leb r base t st last = (sent, goes_on, st') ->
  (sent = [] /\ goes_on = false /\ ~ undisturbed t)
  \/ exists m, sent = [m] /\ goes_on = is_ok m /\ snapshot_of r base last m.
Proof.
  unfold stream_turn, undisturbed. destruct (tn_stopping t); [intros [= <- <- <-]; left; naive_solver|].
  destruct (tn_calculation t) as [env|st1]; [|intros [= <- <- <-]; left; naive_solver].
  destruct (calculate_quote _ _ _ _) as [quote st1] eqn:E.
  assert (Hs : forall clock, snapshot_of r base last match quote with Ok q => to_proto_at q clock | Err e => Err e end).
  { intros clock. exists env, st, clock, quote. by rewrite E. }
  destruct quote as [quote|error].
  - destruct (tn_stopping_after t); [intros [= <- <- <-]; left; naive_solver|].
    specialize (Hs (tn_reply_clock t)). destruct (to_proto_at _ _) as [response|error].
    + destruct (tn_send t); intros [= <- <- <-]; [right; eauto|left; naive_solver..].
    + destruct (tn_send t); intros [= <- <- <-]; [right; eauto|left; naive_solver|right; eauto].
  - specialize (Hs 0). destruct (tn_send t); intros [= <- <- <-]; [right; eauto|left; naive_solver..].
Qed.

Lemma task_ok r base turns n first st sent st' :
  stream_task id_leb r base turns (seq first n) st = (sent, st') ->
  snapshots r base first sent /\ (length sent <= n)%nat
  /\ ((forall k, undisturbed (turns k)) -> length sent = n \/ exists e, last sent = Some (Err e)).
Proof.
  revert first st sent. induction n as [|n IH]; intros first st sent; simpl.
  { intros [= <- <-]. split_and!; [done|done|by left]. }
  destruct (stream_turn _ _ _ _ _ _) as [[now goes_on] st1] eqn:E.
  destruct (turn_ok _ _ _ _ _ _ _ _ E) as [(-> & -> & Hd)|(m & -> & Hg & Hm)].
  { intros [= <- <-]. split_and!; [done|simpl; lia|]. intros Hu. by destruct (Hd (Hu first)). }
  destruct goes_on.
  - destruct (stream_task _ _ _ _ _ _) as [more st2] eqn:E'. intros [= <- <-].
    destruct (IH _ _ _ E') as (Hs & Hl & Hu). split_and!; [|simpl; lia|].
    + intros [|i] m'; simpl.
      * intros [= <-]. rewrite Nat.add_0_r. split; [done|]. by rewrite <- Hg.
      * intros Hi. destruct (Hs i m' Hi) as [H1 H2]. rewrite Nat.add_succ_r. split; [done|].
        intros Hno. by rewrite (H2 Hno).
    + intros Hall. destruct (Hu Hall) as [<-|[e He]]; [by left|]. right. exists e. simpl. rewrite last_cons. by rewrite He.
  - intros [= <- <-]. split_and!; [|simpl; lia|].
    + intros [|i] m'; [|done]. intros [= <-]. rewrite Nat.add_0_r. by split.
    + intros _. right. destruct m; [done|]. by eexists.
Qed.

End outcomes.

(** The last snapshot of a complete stream prices the whole request. *)
Lemma last_prefix r base : qr_items (prefix_request r base (length (qr_items r))) = qr_items r.
Proof. simpl. by apply take_ge. Qed.

Definition demo_turns (k : nat) : turn :=
  mkTurn false (Calculated (sample_env (sample_clock + Z.of_nat k))) false (sample_clock + Z.of_nat k)
    (if Nat.eqb k 3 then ReceiverGone else Sent).

Definition demo_stream : result grpc_status (list message) * RedisState :=
  quote_stream String.leb demo_turns true sample_redis []
    (mkQuoteRequest "q" "c1" [mkQuoteItem "Aa" 2; mkQuoteItem "none" 1; mkQuoteItem "BB" 1] "USD" ∅ None "acme").

