(* ===== verification/Database.v ===== *)
(** The commerce database: its tables and the transactions that change them. *)

From S2P Require Import Prelude.

(** The shared PostgreSQL schema (deploy/postgres/migrations) as finite maps of
    rows, and the transactions the Rust services run against it.  A status
    column is the inductive type of the values its CHECK allows; the remaining
    CHECKs are predicates of InventoryLedger and CheckoutEvolution, proved
    preserved by the operations.
    Timestamps are in microseconds, and CURRENT_TIMESTAMP is constant within a
    transaction, as in PostgreSQL. *)
Module Schema.

Notation key := (string * string)%type.

(** ** Checkout tables *)

Inductive attempt_status : Type := AStarted | APending | APaid | ADegraded | AFailed.
Inductive recon_status : Type := RQueued | RProcessing | RAwaitingProvider | RCompleted | RFailed.
Inductive task_status : Type :=
| TPrepared | TQueued | TProcessing | TCompleted | TFailed | TSuperseded.
Inductive order_status : Type :=
| OPending | OConfirmed | OPaid | OProcessing | OShipped | ODelivered | OCancelled | ORefunded.
Inductive cart_status : Type := CActive | CAbandoned | CCheckedOut.
Inductive outbox_status : Type := XQueued | XProcessing | XPublished | XFailed.
Inductive reservation_status : Type := IReserved | IReleased | IConsumed.
Inductive task_kind : Type := KInventoryRelease | KPayment.

#[export] Instance attempt_status_eq_dec : EqDecision attempt_status.
Proof. solve_decision. Defined.
#[export] Instance recon_status_eq_dec : EqDecision recon_status.
Proof. solve_decision. Defined.
#[export] Instance task_status_eq_dec : EqDecision task_status.
Proof. solve_decision. Defined.
#[export] Instance order_status_eq_dec : EqDecision order_status.
Proof. solve_decision. Defined.
#[export] Instance cart_status_eq_dec : EqDecision cart_status.
Proof. solve_decision. Defined.
#[export] Instance outbox_status_eq_dec : EqDecision outbox_status.
Proof. solve_decision. Defined.
#[export] Instance reservation_status_eq_dec : EqDecision reservation_status.
Proof. solve_decision. Defined.
#[export] Instance task_kind_eq_dec : EqDecision task_kind.
Proof. solve_decision. Defined.

(** [checkout_attempts], keyed by tenant and request *)
Record AttemptRow : Type := mkAttempt {
  at_fingerprint : string;
  at_status : attempt_status;
  at_lease_token : string;
  at_lease_expires : option Z;
  at_order_id : option string;
  at_payload : option json;
  at_error_status : option Z;
  at_error_code : option string;
  at_error_message : option string;
  at_updated : Z
}.

(** [checkout_payment_reconciliations], keyed by tenant and request *)
Record ReconRow : Type := mkRecon {
  rc_order_id : string;
  rc_authorize_request_id : string;
  rc_payment_id : option string;
  rc_merchant_reference : string;
  rc_amount_minor : Z;
  rc_currency : string;
  rc_method_type : string;
  rc_feature_variant : string;
  rc_status : recon_status;
  rc_parent_token : string;
  rc_attempts : Z;
  rc_available_at : Z;
  rc_claimed_at : option Z;
  rc_lease_token : option string;
  rc_lease_expires : option Z;
  rc_completed_at : option Z;
  rc_last_payment_status : option string;
  rc_last_operation_status : option string;
  rc_last_failure_reason : option string;
  rc_last_error : option string;
  rc_carrier : option string * option string * option string;
  rc_created : Z;
  rc_updated : Z
}.

(** [checkout_compensation_tasks], keyed by tenant and id *)
Record TaskRow : Type := mkTask {
  tk_order_id : string;
  tk_task_key : string;
  tk_kind : task_kind;
  tk_reservation_id : option string;
  tk_sku : option string;
  tk_quantity : option Z;
  tk_payment_id : option string;
  tk_request_id : option string;
  tk_currency : option string;
  tk_status : task_status;
  tk_attempts : Z;
  tk_available_at : Z;
  tk_claimed_at : option Z;
  tk_claim_token : option string;
  tk_claim_expires : option Z;
  tk_completed_at : option Z;
  tk_last_error : option string;
  tk_checkout_request_id : string;
  tk_checkout_lease_token : string;
  tk_operation_id : option string;
  tk_operation_started : option Z;
  tk_operation_completed : option Z;
  tk_carrier : option string * option string * option string;
  tk_created : Z;
  tk_updated : Z
}.

(** [orders] with its items in creation order, keyed by tenant and id *)
Record OrderItemRow : Type := mkOrderItem {
  oi_product_id : string; oi_variant_id : string; oi_sku : string;
  oi_product_name : string; oi_quantity : Z; oi_unit_price_minor : Z
}.
Record OrderRow : Type := mkOrder {
  or_customer_id : option string;
  or_cart_id : option string;
  or_order_number : string;
  or_status : order_status;
  or_currency : string;
  or_subtotal_minor : Z;
  or_discount_minor : Z;
  or_tax_minor : Z;
  or_shipping_minor : Z;
  or_total_minor : Z;
  or_checkout_request_id : option string;
  or_promotion_code : option string;
  or_placed_at : option Z;
  or_items : list OrderItemRow;
  or_created : Z;
  or_updated : Z
}.

(** [carts] with its items by variant, keyed by tenant and id *)
Record CartRow : Type := mkCart {
  ca_customer_id : option string;
  ca_session_id : option string;
  ca_status : cart_status;
  ca_currency : string;
  ca_items : gmap string (Z * Z);
  ca_expires_at : option Z;
  ca_updated : Z
}.

(** [payments] and [payment_operation_requests], written by the payment
    service and only read here *)
Record PaymentRow : Type := mkPaymentRow {
  py_order_id : string; py_status : string; py_created : Z }.
Record PaymentOperationRow : Type := mkPaymentOperation {
  pq_operation : string; pq_payment_id : string }.

(** [outbox_events], keyed by tenant and id *)
Record OutboxEventRow : Type := mkOutboxEvent {
  ox_event_key : string;
  ox_aggregate_type : string;
  ox_aggregate_id : string;
  ox_event_type : string;
  ox_schema_version : Z;
  ox_occurred_at : Z;
  ox_payload : json;
  ox_traceparent : string;
  ox_tracestate : string;
  ox_baggage : string;
  ox_status : outbox_status;
  ox_attempts : Z;
  ox_available_at : Z;
  ox_published_at : option Z;
  ox_created : Z;
  ox_failure_code : option string;
  ox_failure_message : option string;
  ox_failed_at : option Z;
  ox_claim_token : option string;
  ox_claim_expires : option Z
}.

(** [promotions], keyed by tenant and code, as redemption reads and writes it *)
Record PromoRow : Type := mkPromo {
  pm_active : bool; pm_starts_at : Z; pm_ends_at : option Z;
  pm_max_redemptions : option Z; pm_redemption_count : Z
}.

(** [product_variants] joined with [products], keyed by tenant and SKU *)
Record VariantProductRow : Type := mkVariantProduct {
  vp_variant_id : string; vp_product_id : string; vp_variant_name : string;
  vp_product_name : string; vp_variant_active : bool; vp_product_active : bool
}.

(** ** Inventory tables *)

(** [inventory], keyed by tenant and id; [available_quantity] is generated. *)
Record StockRow : Type := mkStock {
  st_variant_id : string; st_location_id : string;
  st_on_hand : Z; st_reserved : Z; st_updated : Z
}.
Definition available_quantity (r : StockRow) : Z := st_on_hand r - st_reserved r.

(** [inventory_locations], keyed by tenant and id *)
Record LocationRow : Type := mkLocation { lo_code : string; lo_active : bool }.

(** [inventory_reservations], keyed by tenant and reservation *)
Record ReservationRow : Type := mkReservation {
  rv_sku : string;
  rv_variant_id : string;
  rv_location_id : string;
  rv_quantity : Z;
  rv_status : reservation_status;
  rv_expires_at : Z;
  rv_released_at : option Z;
  rv_consumed_at : option Z;
  rv_owner_request_id : option string;
  rv_owner_lease_token : option string;
  rv_updated : Z
}.

Record Db : Type := mkDb {
  db_attempts : gmap key AttemptRow;
  db_recons : gmap key ReconRow;
  db_tasks : gmap key TaskRow;
  db_orders : gmap key OrderRow;
  db_carts : gmap key CartRow;
  db_payments : gmap key PaymentRow;
  db_payment_operations : gmap key PaymentOperationRow;
  db_outbox : gmap key OutboxEventRow;
  db_promotions : gmap key PromoRow;
  db_variants : gmap key VariantProductRow;
  (** event keys of [feature_exposures] and [analytics_events] *)
  db_exposures : gmap key json;
  db_analytics : gmap key json;
  db_stock : gmap key StockRow;
  db_locations : gmap key LocationRow;
  db_reservations : gmap key ReservationRow
}.

Definition empty_db : Db := mkDb ∅ ∅ ∅ ∅ ∅ ∅ ∅ ∅ ∅ ∅ ∅ ∅ ∅ ∅ ∅.

End Schema.

(** Transactions over the schema: SQL statements as operations of a state and
    error monad, the outcome of running one (rollback on every error, and the
    ways the driver itself can fail), and the lemmas that carry table updates
    through proofs. *)
Module Transactions.

Import Schema.

(** ** Tables of the database *)

Record table (R : Type) : Type := mkTable {
  tget : Db -> gmap key R;
  tset : gmap key R -> Db -> Db;
  tget_tset : forall t db, tget (tset t db) = t;
  tset_tget : forall db, tset (tget db) db = db
}.
Arguments tget {R} _ _.
Arguments tset {R} _ _ _.
Arguments tget_tset {R} _ _ _.
Arguments tset_tget {R} _ _.

Definition set_attempts t db := mkDb t (db_recons db) (db_tasks db) (db_orders db) (db_carts db)
  (db_payments db) (db_payment_operations db) (db_outbox db) (db_promotions db) (db_variants db)
  (db_exposures db) (db_analytics db) (db_stock db) (db_locations db) (db_reservations db).
Definition set_recons t db := mkDb (db_attempts db) t (db_tasks db) (db_orders db) (db_carts db)
  (db_payments db) (db_payment_operations db) (db_outbox db) (db_promotions db) (db_variants db)
  (db_exposures db) (db_analytics db) (db_stock db) (db_locations db) (db_reservations db).
Definition set_tasks t db := mkDb (db_attempts db) (db_recons db) t (db_orders db) (db_carts db)
  (db_payments db) (db_payment_operations db) (db_outbox db) (db_promotions db) (db_variants db)
  (db_exposures db) (db_analytics db) (db_stock db) (db_locations db) (db_reservations db).
Definition set_orders t db := mkDb (db_attempts db) (db_recons db) (db_tasks db) t (db_carts db)
  (db_payments db) (db_payment_operations db) (db_outbox db) (db_promotions db) (db_variants db)
  (db_exposures db) (db_analytics db) (db_stock db) (db_locations db) (db_reservations db).
Definition set_carts t db := mkDb (db_attempts db) (db_recons db) (db_tasks db) (db_orders db) t
  (db_payments db) (db_payment_operations db) (db_outbox db) (db_promotions db) (db_variants db)
  (db_exposures db) (db_analytics db) (db_stock db) (db_locations db) (db_reservations db).
Definition set_payments t db := mkDb (db_attempts db) (db_recons db) (db_tasks db) (db_orders db)
  (db_carts db) t (db_payment_operations db) (db_outbox db) (db_promotions db) (db_variants db)
  (db_exposures db) (db_analytics db) (db_stock db) (db_locations db) (db_reservations db).
Definition set_payment_operations t db := mkDb (db_attempts db) (db_recons db) (db_tasks db)
  (db_orders db) (db_carts db) (db_payments db) t (db_outbox db) (db_promotions db)
  (db_variants db) (db_exposures db) (db_analytics db) (db_stock db) (db_locations db)
  (db_reservations db).
Definition set_outbox t db := mkDb (db_attempts db) (db_recons db) (db_tasks db) (db_orders db)
  (db_carts db) (db_payments db) (db_payment_operations db) t (db_promotions db) (db_variants db)
  (db_exposures db) (db_analytics db) (db_stock db) (db_locations db) (db_reservations db).
Definition set_promotions t db := mkDb (db_attempts db) (db_recons db) (db_tasks db) (db_orders db)
  (db_carts db) (db_payments db) (db_payment_operations db) (db_outbox db) t (db_variants db)
  (db_exposures db) (db_analytics db) (db_stock db) (db_locations db) (db_reservations db).
Definition set_variants t db := mkDb (db_attempts db) (db_recons db) (db_tasks db) (db_orders db)
  (db_carts db) (db_payments db) (db_payment_operations db) (db_outbox db) (db_promotions db) t
  (db_exposures db) (db_analytics db) (db_stock db) (db_locations db) (db_reservations db).
Definition set_exposures t db := mkDb (db_attempts db) (db_recons db) (db_tasks db) (db_orders db)
  (db_carts db) (db_payments db) (db_payment_operations db) (db_outbox db) (db_promotions db)
  (db_variants db) t (db_analytics db) (db_stock db) (db_locations db) (db_reservations db).
Definition set_analytics t db := mkDb (db_attempts db) (db_recons db) (db_tasks db) (db_orders db)
  (db_carts db) (db_payments db) (db_payment_operations db) (db_outbox db) (db_promotions db)
  (db_variants db) (db_exposures db) t (db_stock db) (db_locations db) (db_reservations db).
Definition set_stock t db := mkDb (db_attempts db) (db_recons db) (db_tasks db) (db_orders db)
  (db_carts db) (db_payments db) (db_payment_operations db) (db_outbox db) (db_promotions db)
  (db_variants db) (db_exposures db) (db_analytics db) t (db_locations db) (db_reservations db).
Definition set_reservations t db := mkDb (db_attempts db) (db_recons db) (db_tasks db)
  (db_orders db) (db_carts db) (db_payments db) (db_payment_operations db) (db_outbox db)
  (db_promotions db) (db_variants db) (db_exposures db) (db_analytics db) (db_stock db)
  (db_locations db) t.

Local Ltac table_law := by intros; (try match goal with db : Db |- _ => destruct db end).
Definition attempts : table AttemptRow :=
  mkTable _ db_attempts set_attempts ltac:(table_law) ltac:(table_law).
Definition recons : table ReconRow :=
  mkTable _ db_recons set_recons ltac:(table_law) ltac:(table_law).
Definition tasks : table TaskRow :=
  mkTable _ db_tasks set_tasks ltac:(table_law) ltac:(table_law).
Definition orders : table OrderRow :=
  mkTable _ db_orders set_orders ltac:(table_law) ltac:(table_law).
Definition carts : table CartRow :=
  mkTable _ db_carts set_carts ltac:(table_law) ltac:(table_law).
Definition payments : table PaymentRow :=
  mkTable _ db_payments set_payments ltac:(table_law) ltac:(table_law).
Definition payment_operations : table PaymentOperationRow :=
  mkTable _ db_payment_operations set_payment_operations ltac:(table_law) ltac:(table_law).
Definition outbox : table OutboxEventRow :=
  mkTable _ db_outbox set_outbox ltac:(table_law) ltac:(table_law).
Definition promotions : table PromoRow :=
  mkTable _ db_promotions set_promotions ltac:(table_law) ltac:(table_law).
Definition variants : table VariantProductRow :=
  mkTable _ db_variants set_variants ltac:(table_law) ltac:(table_law).
Definition exposures : table json :=
  mkTable _ db_exposures set_exposures ltac:(table_law) ltac:(table_law).
Definition analytics : table json :=
  mkTable _ db_analytics set_analytics ltac:(table_law) ltac:(table_law).
Definition stock : table StockRow :=
  mkTable _ db_stock set_stock ltac:(table_law) ltac:(table_law).
Definition reservations : table ReservationRow :=
  mkTable _ db_reservations set_reservations ltac:(table_law) ltac:(table_law).

(** ** The transaction monad *)

(** What a transaction reads besides the tables: CURRENT_TIMESTAMP, the error a
    statement the server refuses becomes, and the rows other transactions hold
    locked, which SKIP LOCKED passes over. *)
Record txenv (E : Type) : Type := mkTxenv {
  te_now : Z;
  te_err : string -> E;
  te_locked : key -> bool
}.
Arguments mkTxenv {E} _ _ _.
Arguments te_now {E} _.
Arguments te_err {E} _ _.
Arguments te_locked {E} _ _.

Definition Txn (E A : Type) : Type := txenv E -> Db -> result E (A * Db).

Section monad.
Context {E : Type}.

Definition tx_ret {A} (a : A) : Txn E A := fun _ db => Ok (a, db).
Definition tx_fail {A} (e : E) : Txn E A := fun _ _ => Err e.
Definition tx_bind {A B} (m : Txn E A) (k : A -> Txn E B) : Txn E B := fun env db =>
  match m env db with
  | Ok (a, db') => k a env db'
  | Err e => Err e
  end.
Definition tx_lift {A} (r : result E A) : Txn E A := fun _ db =>
  match r with Ok a => Ok (a, db) | Err e => Err e end.
Definition tx_ensure (cond : bool) (e : E) : Txn E unit := tx_lift (ensure cond e).
Definition tx_now : Txn E Z := fun env db => Ok (te_now env, db).
Definition tx_read {A} (f : Db -> A) : Txn E A := fun _ db => Ok (f db, db).
(** A statement the server refuses, with its message. *)
Definition tx_refused {A} (m : string) : Txn E A := fun env _ => Err (te_err env m).
(** A statement with its own [map_err]. *)
Definition tx_with_err {A} (e : string -> E) (m : Txn E A) : Txn E A := fun env db =>
  m (mkTxenv (te_now env) e (te_locked env)) db.
End monad.

Declare Scope txn_scope.
Delimit Scope txn_scope with txn.
Notation "x <- m ;; k" := (tx_bind m (fun x => k))
  (at level 100, m at next level, right associativity) : txn_scope.
Notation "m ;; k" := (tx_bind m (fun _ => k))
  (at level 100, right associativity) : txn_scope.
Notation "' p <- m ;; k" := (tx_bind m (fun x => match x with p => k end))
  (at level 100, p pattern, m at next level, right associativity) : txn_scope.

(** ** Statements *)

Section statements.
Context {E R : Type} (T : table R).

(** [SELECT ... WHERE tenant_id=$1 AND <key>=$2] *)
Definition sql_get (k : key) : Txn E (option R) := tx_read (fun db => tget T db !! k).

(** [EXISTS (SELECT 1 FROM T WHERE ...)] *)
Definition sql_exists (where_ : key -> R -> bool) : Txn E bool :=
  tx_read (fun db => exists_row where_ (tget T db)).

(** [UPDATE T SET ... WHERE <key> AND ...]: the number of rows changed *)
Definition sql_update (k : key) (where_ : R -> bool) (set_ : R -> R) : Txn E nat := fun _ db =>
  let '(n, t) := update_row k where_ set_ (tget T db) in Ok (n, tset T t db).

(** [UPDATE T SET ... WHERE ...] over every row *)
Definition sql_update_where (where_ : key -> R -> bool) (set_ : R -> R) : Txn E nat := fun _ db =>
  let '(n, t) := update_rows where_ set_ (tget T db) in Ok (n, tset T t db).

(** [INSERT INTO T]: a duplicate key is refused. *)
Definition sql_insert (k : key) (r : R) : Txn E unit := fun env db =>
  match tget T db !! k with
  | Some _ => Err (te_err env "duplicate key value violates unique constraint")
  | None => Ok (tt, tset T (<[k := r]> (tget T db)) db)
  end.

(** [INSERT INTO T ... ON CONFLICT DO NOTHING] *)
Definition sql_insert_ignore (k : key) (r : R) : Txn E nat := fun _ db =>
  match tget T db !! k with
  | Some _ => Ok (0%nat, db)
  | None => Ok (1%nat, tset T (<[k := r]> (tget T db)) db)
  end.

(** [SELECT ... WHERE ... ORDER BY ... FOR UPDATE SKIP LOCKED LIMIT 1] *)
Definition first_by (where_ : key -> R -> bool) (before : key * R -> key * R -> bool)
    (t : gmap key R) :
    option (key * R) :=
  foldr (fun kr best =>
      if where_ kr.1 kr.2 then
        match best with
        | Some b => if before b kr then Some b else Some kr
        | None => Some kr
        end
      else best) None (map_to_list t).

Definition sql_first_unlocked (where_ : key -> R -> bool)
    (before : key * R -> key * R -> bool) : Txn E (option (key * R)) := fun env db =>
  Ok (first_by (fun k r => where_ k r && negb (te_locked env k)) before (tget T db), db).
End statements.

(** ** Running a transaction *)

(** How the driver can fail besides refusing a statement: no connection in
    time, no connection, a statement that fails on the wire (the transaction is
    rolled back), a commit that is refused, and a commit that took effect
    although its acknowledgement was lost. *)
Inductive tx_fault : Type :=
| FPoolTimeout
| FPool (m : string)
| FStatement (m : string)
| FCommitRejected (m : string)
| FCommitLost (m : string).

Section running.
Context {E A : Type}.
Variable (pool_timeout : E) (db_err commit_err : string -> E).

(** The result and the database after [acquire; begin; body; commit]. *)
Definition run_tx (fault : option tx_fault) (now : Z) (locked : key -> bool) (body : Txn E A)
    (db : Db) : result E A * Db :=
  match fault with
  | Some FPoolTimeout => (Err pool_timeout, db)
  | Some (FPool m) | Some (FStatement m) => (Err (db_err m), db)
  | _ =>
      match body (mkTxenv now db_err locked) db with
      | Err e => (Err e, db)
      | Ok (a, db') =>
          match fault with
          | Some (FCommitRejected m) => (Err (commit_err m), db)
          | Some (FCommitLost m) => (Err (commit_err m), db')
          | _ => (Ok a, db')
          end
      end
  end.
End running.

(** ** Lemmas *)

Section inversion.
Context {E : Type}.
Implicit Types (env : txenv E) (db : Db).

Lemma tx_bind_ok {A B} (m : Txn E A) (k : A -> Txn E B) env db b db' :
  tx_bind m k env db = Ok (b, db') <->
  exists a db1, m env db = Ok (a, db1) /\ k a env db1 = Ok (b, db').
Proof.
  unfold tx_bind. destruct (m env db) as [[a db1]|e]; [|naive_solver].
  split; [eauto|]. by intros (? & ? & [= <- <-] & ?).
Qed.

Lemma tx_lift_ok {A} (r : result E A) env db a db' :
  tx_lift r env db = Ok (a, db') <-> r = Ok a /\ db' = db.
Proof. unfold tx_lift. destruct r; naive_solver. Qed.

Lemma tx_ensure_ok c (e : E) env db u db' :
  tx_ensure c e env db = Ok (u, db') <-> c = true /\ db' = db.
Proof. unfold tx_ensure. rewrite tx_lift_ok, ensure_ok. done. Qed.

Lemma tx_ret_ok {A} (a b : A) env db db' :
  tx_ret a env db = Ok (b, db') <-> b = a /\ db' = db.
Proof. unfold tx_ret. naive_solver. Qed.

Lemma tx_now_ok env db n db' :
  tx_now env db = Ok (n, db') <-> n = te_now env /\ db' = db.
Proof. unfold tx_now. naive_solver. Qed.

Lemma tx_read_ok {A} (f : Db -> A) env db a db' :
  tx_read f env db = Ok (a, db') <-> a = f db /\ db' = db.
Proof. unfold tx_read. naive_solver. Qed.

Context {R : Type} (T : table R).

Lemma sql_get_ok k env db (a : option R) db' :
  sql_get T k env db = Ok (a, db') <-> a = tget T db !! k /\ db' = db.
Proof. unfold sql_get, tx_read. naive_solver. Qed.

Lemma sql_exists_ok w env db a db' :
  sql_exists T w env db = Ok (a, db') <-> a = exists_row w (tget T db) /\ db' = db.
Proof. unfold sql_exists, tx_read. naive_solver. Qed.

Lemma tset_same db : tset T (tget T db) db = db.
Proof. apply tset_tget. Qed.

(** An update by key changes its row, or nothing. *)
Lemma sql_update_ok k w f env db n db' :
  sql_update T k w f env db = Ok (n, db') <->
  (n = 1%nat /\ exists r : R, tget T db !! k = Some r /\ w r = true
     /\ db' = tset T (<[k := f r]> (tget T db)) db)
  \/ (n = 0%nat /\ db' = db /\ forall r : R, tget T db !! k = Some r -> w r = false).
Proof.
  unfold sql_update, update_row. destruct (tget T db !! k) as [r|] eqn:Ek.
  - destruct (w r) eqn:Ew; split.
    + intros [= <- <-]. left. eauto.
    + intros [(-> & r' & [= <-] & _ & ->)|(-> & _ & Hf)]; [done|]. by rewrite Hf in Ew.
    + intros [= <- <-]. right. rewrite tset_same. naive_solver.
    + intros [(-> & r' & [= <-] & Hw & ->)|(-> & -> & _)]; [congruence|]. by rewrite tset_same.
  - split.
    + intros [= <- <-]. right. rewrite tset_same. naive_solver.
    + intros [(-> & r' & [=] & _)|(-> & -> & _)]. by rewrite tset_same.
Qed.

Lemma sql_update_one k w f env db db' :
  sql_update T k w f env db = Ok (1%nat, db') <->
  exists r : R, tget T db !! k = Some r /\ w r = true /\ db' = tset T (<[k := f r]> (tget T db)) db.
Proof. rewrite sql_update_ok. naive_solver. Qed.

Lemma sql_update_where_ok w f env db n db' :
  sql_update_where T w f env db = Ok (n, db') <->
  n = (update_rows w f (tget T db)).1 /\ db' = tset T (update_rows w f (tget T db)).2 db.
Proof. unfold sql_update_where. destruct (update_rows _ _ _); naive_solver. Qed.

Lemma sql_insert_ok k r env db u db' :
  sql_insert T k r env db = Ok (u, db') <->
  tget T db !! k = None /\ db' = tset T (<[k := r]> (tget T db)) db.
Proof. unfold sql_insert. destruct (tget T db !! k), u; naive_solver. Qed.

Lemma sql_insert_ignore_ok k r env db n db' :
  sql_insert_ignore T k r env db = Ok (n, db') <->
  (n = 1%nat /\ tget T db !! k = None /\ db' = tset T (<[k := r]> (tget T db)) db)
  \/ (n = 0%nat /\ is_Some (tget T db !! k) /\ db' = db).
Proof.
  unfold sql_insert_ignore. destruct (tget T db !! k) as [r0|] eqn:Ek; split.
  - intros [= <- <-]. right. split_and!; [done|by eexists|done].
  - intros [(_ & [=] & _)|(-> & _ & ->)]. done.
  - intros [= <- <-]. by left.
  - intros [(-> & _ & ->)|(_ & [? [=]] & _)]. done.
Qed.

(** The row a claim takes satisfies its condition. *)
Lemma first_by_some (w : key -> R -> bool) (before : key * R -> key * R -> bool) (t : gmap key R) k r :
  first_by w before t = Some (k, r) -> t !! k = Some r /\ w k r = true.
Proof.
  unfold first_by. rewrite <- elem_of_map_to_list.
  induction (map_to_list t) as [|[k' r'] l IH]; simpl; [done|].
  destruct (w k' r') eqn:Ew.
  - destruct (foldr _ None l) as [b|] eqn:Ef.
    + destruct (before b (k', r')).
      * intros Hb. destruct (IH Hb). split; [by right|done].
      * intros [= <- <-]. split; [by left|done].
    + intros [= <- <-]. split; [by left|done].
  - intros H. destruct (IH H). split; [by right|done].
Qed.

Lemma first_by_none (w : key -> R -> bool) (before : key * R -> key * R -> bool) (t : gmap key R) :
  first_by w before t = None <-> forall k r, t !! k = Some r -> w k r = false.
Proof.
  unfold first_by. setoid_rewrite <- elem_of_map_to_list.
  induction (map_to_list t) as [|[k' r'] l IH]; simpl.
  - split; [|done]. intros _ k r Hin. by apply elem_of_nil in Hin.
  - destruct (w k' r') eqn:Ew; split.
    + by destruct (foldr _ None l) as [b|]; [destruct (before b _)|].
    + intros Hall. rewrite (Hall k' r') in Ew; [done|by left].
    + intros Hn k r [[= -> ->]|Hin]%elem_of_cons; [done|]. by apply (proj1 IH Hn).
    + intros Hall. apply IH. intros k r Hin. apply Hall. by right.
Qed.
End inversion.

(** Decompose every successful transaction in the context. *)
Ltac tx_step :=
  match goal with
  | H : tx_bind _ _ _ _ = Ok _ |- _ => apply tx_bind_ok in H as (? & ? & ? & ?)
  | H : tx_ensure _ _ _ _ = Ok _ |- _ => apply tx_ensure_ok in H as [? ->]
  | H : tx_lift _ _ _ = Ok _ |- _ => apply tx_lift_ok in H as [? ->]
  | H : tx_ret _ _ _ = Ok _ |- _ => apply tx_ret_ok in H as [-> ->]
  | H : tx_now _ _ = Ok _ |- _ => apply tx_now_ok in H as [-> ->]
  | H : tx_read _ _ _ = Ok _ |- _ => apply tx_read_ok in H as [-> ->]
  | H : tx_fail _ _ _ = Ok _ |- _ => discriminate H
  | H : tx_refused _ _ _ = Ok _ |- _ => discriminate H
  | H : sql_get _ _ _ _ = Ok _ |- _ => apply sql_get_ok in H as [-> ->]
  | H : sql_exists _ _ _ _ = Ok _ |- _ => apply sql_exists_ok in H as [-> ->]
  | H : sql_insert _ _ _ _ _ = Ok _ |- _ => apply sql_insert_ok in H as [? ->]
  | H : (?n =? 1)%nat = true |- _ => apply Nat.eqb_eq in H; subst n
  end.
Ltac tx_inv := repeat (tx_step || (progress res_inv)).

(** Running a transaction forward, one statement at a time. *)
Lemma tx_bind_run {E A B} (m : Txn E A) (k : A -> Txn E B) env db a d :
  m env db = Ok (a, d) -> tx_bind m k env db = k a env d.
Proof. unfold tx_bind. by intros ->. Qed.

Lemma tx_ensure_run {E} c (e : E) env db : c = true -> tx_ensure c e env db = Ok (tt, db).
Proof. by intros ->. Qed.

Lemma tx_bind_fail {E A B} (m : Txn E A) (k : A -> Txn E B) env db e :
  m env db = Err e -> tx_bind m k env db = Err e.
Proof. unfold tx_bind. by intros ->. Qed.

Lemma sql_update_run {E R} (T : table R) k w f (env : txenv E) db r :
  tget T db !! k = Some r -> w r = true ->
  sql_update T k w f env db = Ok (1%nat, tset T (<[k := f r]> (tget T db)) db).
Proof. intros Hk Hw. unfold sql_update, update_row. by rewrite Hk, Hw. Qed.

Lemma sql_update_miss {E R} (T : table R) k w f (env : txenv E) db :
  (forall r : R, tget T db !! k = Some r -> w r = false) ->
  sql_update T k w f env db = Ok (0%nat, db).
Proof.
  intros Hw. unfold sql_update, update_row. destruct (tget T db !! k) as [r|] eqn:Ek; rewrite ?Hw by done;
    by rewrite tset_tget.
Qed.

(** The next statement reads, or is a check that holds. *)
Ltac tx_read_step :=
  first [ erewrite (tx_bind_run (tx_lift (Ok _))) by reflexivity
        | erewrite (tx_bind_run (tx_ret _)) by reflexivity
        | erewrite (tx_bind_run tx_now) by reflexivity
        | erewrite (tx_bind_run (tx_read _)) by reflexivity
        | erewrite (tx_bind_run (sql_get _ _)) by reflexivity
        | erewrite (tx_bind_run (sql_exists _ _)) by reflexivity
        | erewrite (tx_bind_run (tx_ensure _ _)) by (apply tx_ensure_run; first [assumption | reflexivity]) ].
Ltac tx_run := repeat tx_read_step; cbv beta.

(** A committed transaction is its body; every other outcome but a lost
    acknowledgement leaves the database as it was. *)
Lemma run_tx_ok {E A} (pt : E) dbe ce fault now locked (body : Txn E A) db a db' :
  run_tx pt dbe ce fault now locked body db = (Ok a, db') ->
  fault = None /\ body (mkTxenv now dbe locked) db = Ok (a, db').
Proof.
  unfold run_tx. destruct fault as [[]|]; try done;
    destruct (body _ _) as [[? ?]|]; try done. by intros [= <- <-].
Qed.

Lemma run_tx_cases {E A} (pt : E) dbe ce fault now locked (body : Txn E A) db r db' :
  run_tx pt dbe ce fault now locked body db = (r, db') ->
  db' = db \/ exists a, body (mkTxenv now dbe locked) db = Ok (a, db').
Proof.
  unfold run_tx. destruct fault as [[]|]; try (by intros [= _ <-]; left);
    destruct (body _ _) as [[? ?]|]; intros [= _ <-]; eauto.
Qed.

End Transactions.
