(* ===== verification/Runtime.v ===== *)
(** What the services run on: the message broker's client, and processes whose
    effects are interleaved. *)

From stdpp Require Import relations.
From S2P Require Import Prelude.

(** What the RabbitMQ client tells a publisher or a consumer: publisher
    confirmations and the header values of a message. *)
Module Rabbit.

(** lapin's [Confirmation]; an Ack may carry the message the broker returned. *)
Inductive Confirmation : Type := Ack (returned : bool) | Nack | NotRequested.

(** lapin's [AMQPValue], the values the services read: a long string's text is
    [None] when its bytes are not UTF-8. *)
Inductive AMQPValue : Type :=
| LongString (text : option string)
| ShortString (text : string)
| LongUInt (n : Z)
| LongLongInt (n : Z)
| OtherValue.

(** A field table: a map. *)
Notation FieldTable := (gmap string AMQPValue).

Definition amqp_text (v : AMQPValue) : option string :=
  match v with
  | LongString text => text
  | ShortString text => Some text
  | _ => None
  end.

End Rabbit.

(** Processes over a store that others change too: statements with the ways they
    can fail, messages sent, the log of what was sent, and the logic of their
    runs. *)
Module Effects.

(** ** Statements *)

(** A statement or transaction does not run (no connection, a refused
    statement), or its effect is there but the answer is lost. *)
Inductive store_fault : Type :=
| NotRun (m : string)
| AnswerLost (m : string).

Definition store_run {S A} (fault : option store_fault) (body : S -> result string (A * S)) (s : S) :
    result string A * S :=
  match fault with
  | Some (NotRun m) => (Err m, s)
  | _ =>
      match body s with
      | Err e => (Err e, s)
      | Ok (a, s') => (match fault with Some (AnswerLost m) => Err m | _ => Ok a end, s')
      end
  end.

(** ** Processes *)

(** The clock, the faults of the statements, and what others do to the store
    between two steps, each by the number of the step. *)
Record Env (S : Type) : Type := mkEnv {
  en_now : nat -> Z;
  en_fault : nat -> option store_fault;
  en_meanwhile : nat -> S -> S
}.
Arguments mkEnv {S} _ _ _.
Arguments en_now {S} _ _.
Arguments en_fault {S} _ _.
Arguments en_meanwhile {S} _ _ _.

(** The store, the steps taken, and what was sent, each with the store at that
    time. *)
Record World (S V : Type) : Type := mkWorld { w_store : S; w_at : nat; w_log : list (V * S) }.
Arguments mkWorld {S V} _ _ _.
Arguments w_store {S V} _.
Arguments w_at {S V} _.
Arguments w_log {S V} _.

Definition Proc (S V X A : Type) : Type := Env S -> World S V -> result X A * World S V.

Section operations.
Context {S V : Type}.

Definition pr_ret {X A} (a : A) : Proc S V X A := fun _ w => (Ok a, w).
Definition pr_fail {X A} (x : X) : Proc S V X A := fun _ w => (Err x, w).
Definition pr_lift {X A} (r : result X A) : Proc S V X A := fun _ w => (r, w).
Definition pr_bind {X A B} (m : Proc S V X A) (k : A -> Proc S V X B) : Proc S V X B := fun e w =>
  match m e w with
  | (Ok a, w') => k a e w'
  | (Err x, w') => (Err x, w')
  end.
Definition pr_map_err {X Y A} (f : X -> Y) (m : Proc S V X A) : Proc S V Y A := fun e w =>
  let '(r, w') := m e w in (res_map_err f r, w').

(** [match m.await { Ok(a) => .., Err(x) => .. }] *)
Definition pr_match {X Y A B} (m : Proc S V X A) (k : result X A -> Proc S V Y B) : Proc S V Y B :=
  fun e w => let '(r, w') := m e w in k r e w'.

(** The number of the step. *)
Definition pr_at {X} : Proc S V X nat := fun _ w => (Ok (w_at w), w).

Definition w_next (e : Env S) (w : World S V) : S := en_meanwhile e (w_at w) (w_store w).

(** A statement or transaction. *)
Definition pr_store {A} (body : Z -> S -> result string (A * S)) : Proc S V string A := fun e w =>
  let i := w_at w in
  let '(r, s) := store_run (en_fault e i) (body (en_now e i)) (w_next e w) in
  (r, mkWorld s (i + 1)%nat (w_log w)).

(** Something sent, which may have an answer. *)
Definition pr_send {X A} (v : nat -> V) (answer : nat -> result X A) : Proc S V X A := fun e w =>
  let i := w_at w in
  (answer i, mkWorld (w_next e w) (i + 1)%nat (w_log w ++ [(v i, w_store w)])).
End operations.

Declare Scope proc_scope.
Delimit Scope proc_scope with proc.
Notation "x <- m ;; k" := (pr_bind m (fun x => k))
  (at level 100, m at next level, right associativity) : proc_scope.
Notation "m ;; k" := (pr_bind m (fun _ => k))
  (at level 100, right associativity) : proc_scope.

(** ** What runs do *)

Section logic.
Context {S V : Type} (step : S -> S -> Prop) (e : Env S).

(** A step of this process, or what others do. *)
Definition moved : S -> S -> Prop :=
  rtc (fun s s' => step s s' \/ exists n, s' = en_meanwhile e n s).

(** From a store [s0] in [pre], a run ends with [r] in the store [s], having sent
    [l]. *)
Definition does_from {X A} (pre : S -> Prop) (m : Proc S V X A)
    (P : S -> result X A -> list (V * S) -> S -> Prop) : Prop :=
  forall w r w', pre (w_store w) -> m e w = (r, w') ->
  moved (w_store w) (w_store w')
  /\ exists l, w_log w' = w_log w ++ l /\ P (w_store w) r l (w_store w').

(** From any store. *)
Definition does {X A} (m : Proc S V X A) (P : S -> result X A -> list (V * S) -> S -> Prop) : Prop :=
  forall w r w', m e w = (r, w') ->
  moved (w_store w) (w_store w')
  /\ exists l, w_log w' = w_log w ++ l /\ P (w_store w) r l (w_store w').

Lemma does_from_any {X A} pre (m : Proc S V X A) P : does m P -> does_from pre m P.
Proof. intros Hm w r w' _. apply Hm. Qed.

Lemma does_from_true {X A} (m : Proc S V X A) P : does_from (fun _ => True) m P -> does m P.
Proof. intros Hm w r w'. by apply Hm. Qed.

Lemma moved_trans s1 s2 s3 : moved s1 s2 -> moved s2 s3 -> moved s1 s3.
Proof. intros H1 H2. by etransitivity. Qed.

Lemma next_moved (w : World S V) : moved (w_store w) (w_next e w).
Proof. apply rtc_once. right. by eexists. Qed.

Lemma does_from_match {X Y A B} pre (m : Proc S V X A) (k : result X A -> Proc S V Y B) P Q R :
  does_from pre m P ->
  (forall r l, does_from (fun s => exists s0, pre s0 /\ P s0 r l s) (k r) (Q r l)) ->
  (forall s0 l1 s1 r0 r l2 s2, pre s0 -> P s0 r0 l1 s1 -> Q r0 l1 s1 r l2 s2 -> R s0 r (l1 ++ l2) s2) ->
  does_from pre (pr_match m k) R.
Proof.
  intros Hm Hk Hok w r w' Hpre H. unfold pr_match in H. destruct (m e w) as [r0 w1] eqn:Em.
  destruct (Hm w _ w1 Hpre Em) as (M1 & l1 & L1 & P1).
  destruct (Hk r0 l1 w1 r w' (ex_intro _ _ (conj Hpre P1)) H) as (M2 & l2 & L2 & P2).
  split; [by eapply moved_trans|]. exists (l1 ++ l2). rewrite app_assoc, <- L1. split; [done|]. by eapply Hok.
Qed.

(** A sequence is a match that passes errors on. *)
Lemma pr_bind_match {X A B} (m : Proc S V X A) (k : A -> Proc S V X B) w :
  pr_bind m k e w = pr_match m (fun r => match r with Ok a => k a | Err x => pr_fail x end) e w.
Proof. unfold pr_bind, pr_match. by destruct (m e w) as [[] ?]. Qed.

Lemma does_from_bind {X A B} pre (m : Proc S V X A) (k : A -> Proc S V X B) P Q R :
  does_from pre m P ->
  (forall a l, does_from (fun s => exists s0, pre s0 /\ P s0 (Ok a) l s) (k a) (Q a l)) ->
  (forall s0 l s x, pre s0 -> P s0 (Err x) l s -> R s0 (Err x) l s) ->
  (forall s0 l1 s1 a r l2 s2, pre s0 -> P s0 (Ok a) l1 s1 -> Q a l1 s1 r l2 s2 -> R s0 r (l1 ++ l2) s2) ->
  does_from pre (pr_bind m k) R.
Proof.
  intros Hm Hk Herr Hok w r w' Hpre H. rewrite pr_bind_match in H. revert w r w' Hpre H.
  eapply does_from_match with (Q := fun r0 l1 => match r0 with
    | Ok a => Q a l1 | Err x => fun s0 r l s => r = Err x /\ l = [] /\ s = s0 end); [exact Hm| |].
  - intros [a|x] l; [apply Hk|]. intros w r w' _ [= <- <-]. split; [constructor|]. exists [].
    by rewrite app_nil_r.
  - intros s0 l1 s1 [a|x] r l2 s2 Hp HP HQ; [by eapply Hok|]. destruct HQ as (-> & -> & ->).
    rewrite app_nil_r. by apply Herr.
Qed.

Lemma does_bind {X A B} (m : Proc S V X A) (k : A -> Proc S V X B) P Q R :
  does m P -> (forall a s0 l s, P s0 (Ok a) l s -> does (k a) (Q a)) ->
  (forall s0 l s x, P s0 (Err x) l s -> R s0 (Err x) l s) ->
  (forall s0 l1 s1 a r l2 s2, P s0 (Ok a) l1 s1 -> Q a s1 r l2 s2 -> R s0 r (l1 ++ l2) s2) ->
  does (pr_bind m k) R.
Proof.
  intros Hm Hk Herr Hok. apply does_from_true. eapply does_from_bind with (Q := fun a _ => Q a);
    [by apply does_from_any| | |].
  - intros a l w r w' (s0 & _ & HP) H. by eapply Hk.
  - intros s0 l s x _. apply Herr.
  - intros s0 l1 s1 a r l2 s2 _. apply Hok.
Qed.

Lemma does_match {X Y A B} (m : Proc S V X A) (k : result X A -> Proc S V Y B) P Q R :
  does m P -> (forall r s0 l s, P s0 r l s -> does (k r) (Q r l)) ->
  (forall s0 l1 s1 r0 r l2 s2, P s0 r0 l1 s1 -> Q r0 l1 s1 r l2 s2 -> R s0 r (l1 ++ l2) s2) ->
  does (pr_match m k) R.
Proof.
  intros Hm Hk Hok. apply does_from_true. eapply does_from_match; [by apply does_from_any| |].
  - intros r l w r' w' (s0 & _ & HP) H. by eapply Hk.
  - intros s0 l1 s1 r0 r l2 s2 _. apply Hok.
Qed.

Lemma does_from_conseq {X A} (pre pre' : S -> Prop) (m : Proc S V X A) (P Q : S -> result X A -> list (V * S) -> S -> Prop) :
  does_from pre m P -> (forall s, pre' s -> pre s) ->
  (forall s0 r l s, pre' s0 -> P s0 r l s -> Q s0 r l s) -> does_from pre' m Q.
Proof.
  intros Hm Hpre HPQ w r w' Hp H. destruct (Hm w r w' (Hpre _ Hp) H) as (M & l & L & HPl). eauto 10.
Qed.

Lemma does_from_map_err {X Y A} pre (f : X -> Y) (m : Proc S V X A) P Q :
  does_from pre m P -> (forall s0 r l s, pre s0 -> P s0 r l s -> Q s0 (res_map_err f r) l s) ->
  does_from pre (pr_map_err f m) Q.
Proof.
  intros Hm HPQ w r w' Hp H. unfold pr_map_err in H. destruct (m e w) as [r0 w0] eqn:Em. injection H as <- <-.
  destruct (Hm w r0 w0 Hp Em) as (M & l & L & HPl). eauto 10.
Qed.

(** A statement that is a step from the stores it may find. *)
Lemma does_from_store {A} pre (body : Z -> S -> result string (A * S)) :
  (forall s0 n now s a s', pre s0 -> s = en_meanwhile e n s0 -> body now s = Ok (a, s') -> step s s') ->
  does_from pre (pr_store body) (fun s0 r l s =>
    l = [] /\ forall a, r = Ok a -> exists now n, body now (en_meanwhile e n s0) = Ok (a, s)).
Proof.
  intros Hb w r w' Hp H. unfold pr_store, store_run in H. pose proof (next_moved w) as Hn.
  assert (Hstep : forall now a s', body now (w_next e w) = Ok (a, s') -> moved (w_store w) s').
  { intros now a s' Hbody. eapply moved_trans; [exact Hn|]. apply rtc_once. left. by eapply Hb. }
  unfold w_next in *.
  destruct (en_fault e (w_at w)) as [[m|m]|]; [|destruct (body _ _) as [[a s']|x] eqn:Eb..];
    injection H as <- <-; simpl; (split; [by eauto|]); exists []; rewrite app_nil_r;
    (split; [done|]); (split; [done|]); intros ? [= <-]. by eexists _, _.
Qed.

Lemma does_conseq {X A} (m : Proc S V X A) P Q :
  does m P -> (forall s0 r l s, P s0 r l s -> Q s0 r l s) -> does m Q.
Proof. intros Hm HPQ w r w' H. destruct (Hm w r w' H) as (M & l & L & HPl). eauto 10. Qed.

Lemma does_map_err {X Y A} (f : X -> Y) (m : Proc S V X A) P Q :
  does m P -> (forall s0 r l s, P s0 r l s -> Q s0 (res_map_err f r) l s) -> does (pr_map_err f m) Q.
Proof.
  intros Hm HPQ w r w' H. unfold pr_map_err in H. destruct (m e w) as [r0 w0] eqn:Em. injection H as <- <-.
  destruct (Hm w r0 w0 Em) as (M & l & L & HPl). eauto 10.
Qed.

(** Runs that touch neither the store nor anyone else. *)
Lemma does_nothing {X A} (m : Proc S V X A) (P : S -> result X A -> list (V * S) -> S -> Prop) :
  (forall w, (m e w).2 = w /\ P (w_store w) (m e w).1 [] (w_store w)) -> does m P.
Proof.
  intros Hm w r w' H. destruct (Hm w) as [Hw HPw]. rewrite H in Hw, HPw. simpl in *. subst.
  split; [constructor|]. exists []. by rewrite app_nil_r.
Qed.

Lemma does_lift {X A} (r : result X A) :
  does (pr_lift r) (fun s0 r' l s => r' = r /\ l = [] /\ s = s0).
Proof. apply does_nothing. by intros w. Qed.

Lemma does_store {A} (body : Z -> S -> result string (A * S)) :
  (forall now s a s', body now s = Ok (a, s') -> step s s') ->
  does (pr_store body) (fun _ r l s =>
    l = [] /\ forall a, r = Ok a -> exists now s1, body now s1 = Ok (a, s)).
Proof.
  intros Hb w r w' H. destruct (does_from_store (fun _ => True) body) with (2 := I) (3 := H)
    as (M & l & L & -> & Hr).
  - intros s0 n now s a s' _ _ Hbody. by eapply Hb.
  - split; [exact M|]. exists []. split; [exact L|]. split; [done|]. intros a Ha.
    destruct (Hr a Ha) as (now & n & Hn). eauto.
Qed.

Lemma does_send {X A} (v : nat -> V) (answer : nat -> result X A) :
  does (pr_send v answer) (fun s0 r l _ => exists i, l = [(v i, s0)] /\ r = answer i).
Proof.
  intros w r w' H. injection H as <- <-. simpl. split; [apply next_moved|]. eauto 6.
Qed.
End logic.

End Effects.
