(* ===== verification/InventoryService.v ===== *)
(** The inventory service: its requests and its reservations. *)

From S2P Require Import Prelude Database.

(** The inventory service's requests and their checks
    (services/inventory/src/domain.rs). *)
Module InventoryDomain.

Definition MAX_IDENTIFIER_LENGTH : Z := 128.
Definition MAX_RESERVE_QUANTITY : Z := 1000000.
Definition MAX_RELEASE_QUANTITY : Z := 1000000.
Definition MAX_CONSUME_RESERVATIONS : Z := 50.

Record ReserveQuery : Type := mkReserveQuery {
  rq_tenant_id : string;
  rq_reservation_id : string;
  rq_sku : string;
  rq_quantity : Z;
  rq_slow : Z;
  rq_db_n1 : Z;
  rq_hold_ms : Z;
  rq_fail : bool;
  rq_checkout_request_id : option string;
  rq_checkout_lease_token : option string
}.

Record ReserveBody : Type := mkReserveBody {
  rb_tenant_id : string;
  rb_reservation_id : string;
  rb_sku : string;
  rb_quantity : Z;
  rb_checkout_request_id : option string;
  rb_checkout_lease_token : option string
}.

Record ReleaseBody : Type := mkReleaseBody {
  lb_tenant_id : string;
  lb_reservation_id : string;
  lb_sku : string;
  lb_quantity : Z;
  lb_location_id : option string;
  lb_checkout_request_id : option string;
  lb_checkout_lease_token : option string
}.

Record ConsumeReservation : Type := mkConsumeReservation {
  cv_reservation_id : string;
  cv_sku : string;
  cv_quantity : Z;
  cv_location_id : option string
}.

Record ConsumeBody : Type := mkConsumeBody {
  cb_tenant_id : string;
  cb_checkout_request_id : option string;
  cb_checkout_lease_token : option string;
  cb_reservations : list ConsumeReservation
}.

(** ** Decoding of the JSON bodies

    serde's derived [Deserialize]: an object, or an array of the fields in
    order; a field marked [default] may be missing. *)

Definition is_body (fields : nat) (v : json) : bool :=
  match v with
  | JObj _ => true
  | JArr vs => Nat.leb (length vs) fields
  | _ => false
  end.
Definition body_field (i : nat) (name : string) (v : json) : option json :=
  match v with
  | JObj _ => jget name v
  | JArr vs => vs !! i
  | _ => None
  end.
Definition defaulted {A} (d : A) (read : json -> option A) (field : option json) : option A :=
  match field with Some v => read v | None => Some d end.

Definition read_u32 (v : json) : option Z :=
  match v with
  | JNum n => if (0 <=? n) && (n <=? u32_max) then Some n else None
  | _ => None
  end.
Definition read_optional (v : json) : option (option string) :=
  match v with
  | JNull => Some None
  | JStr s => Some (Some s)
  | _ => None
  end.

Definition read_reserve_body (v : json) : option ReserveBody :=
  if negb (is_body 6 v) then None else
  tenant ← defaulted "" as_str (body_field 0 "tenant_id" v);
  reservation ← body_field 1 "reservation_id" v ≫= as_str;
  sku ← body_field 2 "sku" v ≫= as_str;
  quantity ← defaulted 1 read_u32 (body_field 3 "quantity" v);
  request ← defaulted None read_optional (body_field 4 "checkout_request_id" v);
  token ← defaulted None read_optional (body_field 5 "checkout_lease_token" v);
  Some (mkReserveBody tenant reservation sku quantity request token).

Definition read_release_body (v : json) : option ReleaseBody :=
  if negb (is_body 7 v) then None else
  tenant ← defaulted "" as_str (body_field 0 "tenant_id" v);
  reservation ← body_field 1 "reservation_id" v ≫= as_str;
  sku ← body_field 2 "sku" v ≫= as_str;
  quantity ← body_field 3 "quantity" v ≫= read_u32;
  location ← defaulted None read_optional (body_field 4 "location_id" v);
  request ← defaulted None read_optional (body_field 5 "checkout_request_id" v);
  token ← defaulted None read_optional (body_field 6 "checkout_lease_token" v);
  Some (mkReleaseBody tenant reservation sku quantity location request token).

Definition read_consume_reservation (v : json) : option ConsumeReservation :=
  if negb (is_body 4 v) then None else
  reservation ← body_field 0 "reservation_id" v ≫= as_str;
  sku ← body_field 1 "sku" v ≫= as_str;
  quantity ← body_field 2 "quantity" v ≫= read_u32;
  location ← defaulted None read_optional (body_field 3 "location_id" v);
  Some (mkConsumeReservation reservation sku quantity location).

Definition read_consume_reservations (v : json) : option (list ConsumeReservation) :=
  match v with
  | JArr vs => mapM read_consume_reservation vs
  | _ => None
  end.

Definition read_consume_body (v : json) : option ConsumeBody :=
  if negb (is_body 4 v) then None else
  tenant ← defaulted "" as_str (body_field 0 "tenant_id" v);
  request ← defaulted None read_optional (body_field 1 "checkout_request_id" v);
  token ← defaulted None read_optional (body_field 2 "checkout_lease_token" v);
  reservations ← body_field 3 "reservations" v ≫= read_consume_reservations;
  Some (mkConsumeBody tenant request token reservations).

Record ValidationError : Type := mkValidationError { ve_field : string; ve_reason : string }.

Record ReserveOutcome : Type := mkReserveOutcome {
  ro_location_id : string; ro_remaining : Z; ro_status : string }.
Record ReleaseOutcome : Type := mkReleaseOutcome {
  lo_location_id : string; lo_released : Z; lo_reserved_remaining : Z;
  lo_available : Z; lo_status : string }.
Record ConsumeOutcome : Type := mkConsumeOutcome { co_consumed : Z; co_status : string }.

(** [de_flag] *)
Definition de_flag (value : string) : bool := one_of value ["1"; "true"; "yes"; "on"].

Local Open Scope result_scope.

Definition identifier_byte (a : ascii) : bool :=
  is_alphanumeric a || existsb (fun n => (byte_of a =? n)%N) [45; 95; 46; 58]%N.

Definition validate_identifier (value field : string) : result ValidationError unit :=
  ensure (negb (is_empty value)) (mkValidationError field "must not be empty") ;;
  ensure (str_len value <=? MAX_IDENTIFIER_LENGTH)
    (mkValidationError field "exceeds the maximum length") ;;
  ensure (str_forallb identifier_byte value)
    (mkValidationError field "contains unsupported characters").

Definition validate_fence_fields (request_id lease_token : option string) :
    result ValidationError unit :=
  match request_id, lease_token with
  | Some request_id, Some lease_token =>
      validate_identifier request_id "checkout_request_id" ;;
      validate_identifier lease_token "checkout_lease_token"
  | None, None =>
      Err (mkValidationError "checkout_request_id" "authoritative checkout fence is required")
  | Some _, None =>
      Err (mkValidationError "checkout_lease_token" "is required with checkout_request_id")
  | None, Some _ =>
      Err (mkValidationError "checkout_request_id" "is required with checkout_lease_token")
  end.

Definition validate_reserve (p : ReserveQuery) : result ValidationError unit :=
  validate_identifier (rq_tenant_id p) "tenant_id" ;;
  validate_identifier (rq_reservation_id p) "reservation_id" ;;
  validate_identifier (rq_sku p) "sku" ;;
  ensure (negb (rq_quantity p =? 0)) (mkValidationError "quantity" "must be greater than zero") ;;
  ensure (rq_quantity p <=? MAX_RESERVE_QUANTITY)
    (mkValidationError "quantity" "exceeds the maximum reserve quantity") ;;
  validate_fence_fields (rq_checkout_request_id p) (rq_checkout_lease_token p).

Definition validate_location (location : option string) : result ValidationError unit :=
  match location with
  | Some l => validate_identifier l "location_id"
  | None => Ok tt
  end.

Definition validate_release (b : ReleaseBody) : result ValidationError unit :=
  validate_identifier (lb_tenant_id b) "tenant_id" ;;
  validate_identifier (lb_reservation_id b) "reservation_id" ;;
  validate_identifier (lb_sku b) "sku" ;;
  ensure (negb (lb_quantity b =? 0)) (mkValidationError "quantity" "must be greater than zero") ;;
  ensure (lb_quantity b <=? MAX_RELEASE_QUANTITY)
    (mkValidationError "quantity" "exceeds the maximum release quantity") ;;
  validate_location (lb_location_id b) ;;
  validate_fence_fields (lb_checkout_request_id b) (lb_checkout_lease_token b).

(** The loop over the reservations, with the set of identities seen so far. *)
Fixpoint check_consume_reservations (rs : list ConsumeReservation) (seen : list string) :
    result ValidationError unit :=
  match rs with
  | [] => Ok tt
  | r :: rest =>
      validate_identifier (cv_reservation_id r) "reservation_id" ;;
      validate_identifier (cv_sku r) "sku" ;;
      ensure (negb ((cv_quantity r =? 0) || (MAX_RELEASE_QUANTITY <? cv_quantity r)))
        (mkValidationError "quantity" "must be between one and one million") ;;
      validate_location (cv_location_id r) ;;
      ensure (negb (one_of (cv_reservation_id r) seen))
        (mkValidationError "reservation_id" "must be unique within a consume request") ;;
      check_consume_reservations rest (cv_reservation_id r :: seen)
  end.

Definition validate_consume (b : ConsumeBody) : result ValidationError unit :=
  validate_identifier (cb_tenant_id b) "tenant_id" ;;
  ensure (negb (bool_decide (cb_reservations b = []))
          && (Z.of_nat (length (cb_reservations b)) <=? MAX_CONSUME_RESERVATIONS))
    (mkValidationError "reservations" "must contain between one and fifty reservations") ;;
  validate_fence_fields (cb_checkout_request_id b) (cb_checkout_lease_token b) ;;
  check_consume_reservations (cb_reservations b) [].

Local Close Scope result_scope.

(** What an accepted consume request satisfies. *)
Lemma check_consume_ok rs seen :
  check_consume_reservations rs seen = Ok tt ->
  NoDup (map cv_reservation_id rs)
  /\ (forall s, In s seen -> ~ In s (map cv_reservation_id rs))
  /\ Forall (fun r => cv_quantity r <> 0 /\ cv_quantity r <= 1000000) rs.
Proof.
  revert seen. induction rs as [|r rs IH]; intros seen; simpl.
  { intros _. split_and!; [constructor|naive_solver|constructor]. }
  intros H. res_inv. bool_inv. unfold MAX_RELEASE_QUANTITY in *.
  match goal with Hs : one_of _ _ = false |- _ => apply not_true_iff_false in Hs; rename Hs into Hseen end.
  rewrite one_of_In in Hseen.
  match goal with Hr : check_consume_reservations _ _ = _ |- _ => apply IH in Hr as (Hnd & Hfresh & Hall) end.
  split_and!.
  - constructor; [|done]. intros Hin%list_elem_of_In. by apply (Hfresh (cv_reservation_id r)); [left|].
  - intros s Hs [<-|Hin]; [by apply Hseen|]. by apply (Hfresh s); [right|].
  - constructor; [done|done].
Qed.

Lemma validate_consume_ok b :
  validate_consume b = Ok tt ->
  NoDup (map cv_reservation_id (cb_reservations b))
  /\ (1 <= length (cb_reservations b) <= 50)%nat
  /\ Forall (fun r => cv_quantity r <> 0 /\ cv_quantity r <= 1000000) (cb_reservations b)
  /\ is_Some (cb_checkout_request_id b) /\ is_Some (cb_checkout_lease_token b).
Proof.
  unfold validate_consume, MAX_CONSUME_RESERVATIONS. intros H. res_inv. bool_inv.
  match goal with Hr : check_consume_reservations _ _ = _ |- _ => apply check_consume_ok in Hr as (? & _ & ?) end.
  match goal with Hf : validate_fence_fields ?a ?b = _ |- _ => destruct a, b; try done end.
  split_and!; try done; try (by eexists).
  - destruct (cb_reservations b); [done|]. cbn [length]. lia.
  - lia.
Qed.

End InventoryDomain.

(** The inventory service (services/inventory/src/infrastructure.rs and
    application.rs): reserve, release, consume and the reclaimer of expired
    holds, as transactions over the stock and reservation tables, fenced by the
    checkout generation that owns the reservation. *)
Module Inventory.

Import Schema Transactions InventoryDomain.

(** [anyhow::Error]: a [ReservationConflict] that the API downcasts, or any
    other failure. *)
Inductive InvError : Type :=
| Conflict (code message : string)
| Failure (message : string).

Definition RESERVATION_HOLD : Z := seconds (15 * 60).
Definition MAX_DB_N1 : Z := 50.
Definition REAPER_BATCH_SIZE : nat := 100.

Definition lease_lost (message : string) : InvError := Conflict "checkout_lease_lost" message.
Definition fence_required : InvError := lease_lost "authoritative checkout fence is required".

Local Open Scope txn_scope.

(** ** The fence *)

(** The WHERE clause of [lock_current_checkout_fence]. *)
Definition checkout_fence_current (db : Db) (now : Z) (tenant request token : string) : bool :=
  match db_attempts db !! (tenant, request) with
  | Some a =>
      String.eqb (at_lease_token a) token
      && match at_status a with
         | AStarted => after_now (at_lease_expires a) now
         | AFailed => true
         | APending =>
             match db_recons db !! (tenant, request) with
             | Some r =>
                 String.eqb (rc_parent_token r) (at_lease_token a)
                 && bool_decide (rc_status r = RProcessing)
                 && bool_decide (is_Some (rc_lease_token r))
                 && after_now (rc_lease_expires r) now
             | None => false
             end
         | _ => false
         end
  | None => false
  end.

Definition lock_current_checkout_fence (tenant request token : string) : Txn InvError unit :=
  now <- tx_now ;;
  current <- tx_read (fun db => checkout_fence_current db now tenant request token) ;;
  tx_ensure current (lease_lost "authoritative checkout fence is no longer current").

(** ** Stock rows by variant and location *)

Definition stock_at (tenant variant location : string) (k : key) (r : StockRow) : bool :=
  String.eqb k.1 tenant && String.eqb (st_variant_id r) variant
  && String.eqb (st_location_id r) location.

(** The row the JOIN finds, and its id. *)
Definition find_stock (db : Db) (tenant variant location : string) : option (key * StockRow) :=
  List.find (fun kr => stock_at tenant variant location kr.1 kr.2) (map_to_list (db_stock db)).

(** [UPDATE inventory SET reserved_quantity = reserved_quantity + $1 ... AND
    available_quantity >= $1], with the rows it returns. *)
Definition hold_more (quantity now : Z) (r : StockRow) : StockRow :=
  mkStock (st_variant_id r) (st_location_id r) (st_on_hand r) (st_reserved r + quantity) now.
Definition hold_less (quantity now : Z) (r : StockRow) : StockRow :=
  mkStock (st_variant_id r) (st_location_id r) (st_on_hand r) (st_reserved r - quantity) now.
Definition take_held (quantity now : Z) (r : StockRow) : StockRow :=
  mkStock (st_variant_id r) (st_location_id r) (st_on_hand r - quantity)
    (st_reserved r - quantity) now.

Definition update_stock (tenant variant location : string) (guard : StockRow -> bool)
    (set_ : Z -> StockRow -> StockRow) : Txn InvError nat :=
  now <- tx_now ;;
  sql_update_where stock
    (fun k r => stock_at tenant variant location k r && guard r) (set_ now).

Definition read_stock (tenant variant location : string) : Txn InvError (option StockRow) :=
  tx_read (fun db => snd <$> find_stock db tenant variant location).

(** ** Reservation rows *)

Definition with_lifecycle (status : reservation_status) (released consumed : option Z) (now : Z)
    (r : ReservationRow) : ReservationRow :=
  mkReservation (rv_sku r) (rv_variant_id r) (rv_location_id r) (rv_quantity r) status
    (rv_expires_at r) released consumed (rv_owner_request_id r) (rv_owner_lease_token r) now.
Definition with_hold (expires : Z) (owner_request owner_token : option string) (now : Z)
    (r : ReservationRow) : ReservationRow :=
  mkReservation (rv_sku r) (rv_variant_id r) (rv_location_id r) (rv_quantity r) (rv_status r)
    expires (rv_released_at r) (rv_consumed_at r) owner_request owner_token now.

Definition owned_by (request : string) (r : ReservationRow) : bool :=
  opt_is (rv_owner_request_id r) request.
Definition has_status (s : reservation_status) (r : ReservationRow) : bool :=
  bool_decide (rv_status r = s).

(** [i32::try_from(quantity).unwrap_or(i32::MAX)] *)
Definition i32_or_max (n : Z) : Z := if fits_i32 n then n else i32_max.

(** The reservation row locked together with its stock row. *)
Definition joined_reservation (tenant reservation : string) :
    Txn InvError (option (ReservationRow * StockRow)) :=
  row <- sql_get reservations (tenant, reservation) ;;
  match row with
  | None => tx_ret None
  | Some r =>
      s <- read_stock tenant (rv_variant_id r) (rv_location_id r) ;;
      tx_ret ((fun s => (r, s)) <$> s)
  end.

(** ** reserve *)

(** The reservation already exists (lines 148 to 248). *)
Definition reserve_existing (p : ReserveQuery) (request lease : string)
    (r : ReservationRow) (s : StockRow) : Txn InvError ReserveOutcome :=
  now <- tx_now ;;
  tx_ensure (String.eqb (rv_sku r) (rq_sku p) && (rv_quantity r =? i32_or_max (rq_quantity p)))
    (Conflict "reservation_conflict" "reservation identity does not match the reserve request") ;;
  tx_ensure (owned_by request r)
    (Conflict "reservation_owner_conflict" "reservation belongs to a different checkout request") ;;
  match rv_status r with
  | IReleased =>
      n <- update_stock (rq_tenant_id p) (rv_variant_id r) (rv_location_id r)
             (fun s => rv_quantity r <=? available_quantity s) (hold_more (rv_quantity r)) ;;
      tx_ensure (bool_decide (n <> 0%nat))
        (Failure "inventory is no longer available for reservation reuse") ;;
      s' <- read_stock (rq_tenant_id p) (rv_variant_id r) (rv_location_id r) ;;
      changed <- sql_update reservations (rq_tenant_id p, rq_reservation_id p) (has_status IReleased)
                   (fun r => with_lifecycle IReserved None None now
                      (with_hold (now + RESERVATION_HOLD) (Some request) (Some lease) now r)) ;;
      tx_ensure (changed =? 1)%nat (Failure "reservation state changed during reuse") ;;
      tx_ret (mkReserveOutcome (rv_location_id r)
                (default 0 (available_quantity <$> s')) "reserved")
  | IConsumed =>
      tx_ret (mkReserveOutcome (rv_location_id r) (available_quantity s) "already_consumed")
  | IReserved =>
      (if (rv_expires_at r <=? now) || negb (opt_is (rv_owner_lease_token r) lease) then
         changed <- sql_update reservations (rq_tenant_id p, rq_reservation_id p)
                      (fun r => has_status IReserved r && owned_by request r)
                      (fun r => with_hold (now + RESERVATION_HOLD) (rv_owner_request_id r)
                                  (Some lease) now r) ;;
         tx_ensure (changed =? 1)%nat (Failure "reservation state changed during renewal")
       else tx_ret tt) ;;
      tx_ret (mkReserveOutcome (rv_location_id r) (available_quantity s) "already_reserved")
  end.

(** The candidate of the new hold: active variant of the SKU, active location,
    enough available, first by location code and stock id. *)
Definition candidate (db : Db) (p : ReserveQuery) : option (key * StockRow) :=
  match db_variants db !! (rq_tenant_id p, rq_sku p) with
  | Some v =>
      if vp_variant_active v then
        first_by
          (fun k s => String.eqb k.1 (rq_tenant_id p)
             && String.eqb (st_variant_id s) (vp_variant_id v)
             && match db_locations db !! (rq_tenant_id p, st_location_id s) with
                | Some l => lo_active l
                | None => false
                end
             && (rq_quantity p <=? available_quantity s))
          (fun a b =>
             let code s := default "" (lo_code <$> db_locations db !! (rq_tenant_id p, st_location_id s)) in
             String.ltb (code a.2) (code b.2)
             || (String.eqb (code a.2) (code b.2) && String.leb a.1.2 b.1.2)) (db_stock db)
      else None
  | None => None
  end.

Definition reserve_new (p : ReserveQuery) : Txn InvError (option ReserveOutcome) :=
  now <- tx_now ;;
  found <- tx_read (fun db => candidate db p) ;;
  match found with
  | None => tx_ret None
  | Some (k, s) =>
      _ <- sql_update stock k (fun s => rq_quantity p <=? available_quantity s)
             (hold_more (rq_quantity p) now) ;;
      sql_insert reservations (rq_tenant_id p, rq_reservation_id p)
        {| rv_sku := rq_sku p;
           rv_variant_id := st_variant_id s;
           rv_location_id := st_location_id s;
           rv_quantity := rq_quantity p;
           rv_status := IReserved;
           rv_expires_at := now + RESERVATION_HOLD;
           rv_released_at := None;
           rv_consumed_at := None;
           rv_owner_request_id := rq_checkout_request_id p;
           rv_owner_lease_token := rq_checkout_lease_token p;
           rv_updated := now |} ;;
      tx_ret (Some (mkReserveOutcome (st_location_id s)
                      (available_quantity s - rq_quantity p) "reserved"))
  end.

Definition reserve_tx (p : ReserveQuery) : Txn InvError (option ReserveOutcome) :=
  request <- tx_lift (ok_or (rq_checkout_request_id p) fence_required) ;;
  lease <- tx_lift (ok_or (rq_checkout_lease_token p) fence_required) ;;
  lock_current_checkout_fence (rq_tenant_id p) request lease ;;
  joined <- joined_reservation (rq_tenant_id p) (rq_reservation_id p) ;;
  match joined with
  | Some (r, s) =>
      outcome <- reserve_existing p request lease r s ;;
      tx_ret (Some outcome)
  | None => reserve_new p
  end.

(** ** release *)

(** A hold another lease of the same request took is rebound to this one. *)
Definition release_rebind (b : ReleaseBody) (request lease : string) (r : ReservationRow) :
    Txn InvError unit :=
  now <- tx_now ;;
  if has_status IReserved r && negb (opt_is (rv_owner_lease_token r) lease) then
    rebound <- sql_update reservations (lb_tenant_id b, lb_reservation_id b)
                 (fun r => has_status IReserved r && owned_by request r)
                 (fun r => with_hold (rv_expires_at r) (rv_owner_request_id r) (Some lease) now r) ;;
    tx_ensure (rebound =? 1)%nat (Failure "reservation owner changed during release")
  else tx_ret tt.

Definition release_hold (b : ReleaseBody) (request : string) (r : ReservationRow) :
    Txn InvError ReleaseOutcome :=
  now <- tx_now ;;
  n <- update_stock (lb_tenant_id b) (rv_variant_id r) (rv_location_id r)
         (fun s => rv_quantity r <=? st_reserved s) (hold_less (rv_quantity r)) ;;
  tx_ensure (bool_decide (n <> 0%nat)) (Failure "inventory reservation ledger is inconsistent") ;;
  s' <- read_stock (lb_tenant_id b) (rv_variant_id r) (rv_location_id r) ;;
  updated <- sql_update reservations (lb_tenant_id b, lb_reservation_id b)
               (fun r => has_status IReserved r && owned_by request r)
               (with_lifecycle IReleased (Some now) None now) ;;
  tx_ensure (updated =? 1)%nat (Failure "reservation state changed during release") ;;
  tx_ret (mkReleaseOutcome (rv_location_id r) (rv_quantity r)
            (default 0 (st_reserved <$> s')) (default 0 (available_quantity <$> s')) "released").

(** The reservation exists (lines 346 to 421). *)
Definition release_existing (b : ReleaseBody) (request lease : string)
    (r : ReservationRow) (s : StockRow) : Txn InvError ReleaseOutcome :=
  tx_ensure (String.eqb (rv_sku r) (lb_sku b) && (rv_quantity r =? i32_or_max (lb_quantity b))
             && match lb_location_id b with
                | Some requested => String.eqb requested (rv_location_id r)
                | None => true
                end)
    (Conflict "reservation_conflict" "reservation identity does not match the release request") ;;
  tx_ensure (owned_by request r)
    (Conflict "reservation_owner_conflict" "checkout fence does not own the reservation") ;;
  release_rebind b request lease r ;;
  match rv_status r with
  | IReleased =>
      tx_ret (mkReleaseOutcome (rv_location_id r) 0 (st_reserved s) (available_quantity s)
                "already_released")
  | IConsumed =>
      tx_fail (Conflict "reservation_consumed" "a consumed reservation cannot be released")
  | IReserved => release_hold b request r
  end.

Definition release_tx (b : ReleaseBody) : Txn InvError (option ReleaseOutcome) :=
  request <- tx_lift (ok_or (lb_checkout_request_id b) fence_required) ;;
  lease <- tx_lift (ok_or (lb_checkout_lease_token b) fence_required) ;;
  lock_current_checkout_fence (lb_tenant_id b) request lease ;;
  joined <- joined_reservation (lb_tenant_id b) (lb_reservation_id b) ;;
  match joined with
  | None => tx_ret None
  | Some (r, s) =>
      outcome <- release_existing b request lease r s ;;
      tx_ret (Some outcome)
  end.

(** ** consume *)

(** The row is made [reserved] under the caller's lease before it is consumed
    (lines 524 to 591); [false] when it is already consumed. *)
Definition prepare_consume (tenant request lease : string) (c : ConsumeReservation)
    (r : ReservationRow) : Txn InvError bool :=
  now <- tx_now ;;
  match rv_status r with
  | IConsumed => tx_ret false
  | IReleased =>
      n <- update_stock tenant (rv_variant_id r) (rv_location_id r)
             (fun s => rv_quantity r <=? available_quantity s) (hold_more (rv_quantity r)) ;;
      tx_ensure (bool_decide (n <> 0%nat))
        (Failure "inventory is no longer available for reservation recovery") ;;
      changed <- sql_update reservations (tenant, cv_reservation_id c)
                   (fun r => has_status IReleased r && owned_by request r)
                   (fun r => with_lifecycle IReserved None None now
                      (with_hold (now + RESERVATION_HOLD) (rv_owner_request_id r) (Some lease) now r)) ;;
      tx_ensure (changed =? 1)%nat (Failure "reservation state changed during recovery") ;;
      tx_ret true
  | IReserved =>
      (if rv_expires_at r <=? now then
         changed <- sql_update reservations (tenant, cv_reservation_id c)
                      (fun r => has_status IReserved r && owned_by request r)
                      (fun r => with_hold (now + RESERVATION_HOLD) (rv_owner_request_id r)
                                  (Some lease) now r) ;;
         tx_ensure (changed =? 1)%nat (Failure "reservation state changed during renewal")
       else if negb (opt_is (rv_owner_lease_token r) lease) then
         changed <- sql_update reservations (tenant, cv_reservation_id c)
                      (fun r => has_status IReserved r && owned_by request r)
                      (fun r => with_hold (rv_expires_at r) (rv_owner_request_id r)
                                  (Some lease) now r) ;;
         tx_ensure (changed =? 1)%nat (Failure "reservation owner changed during consumption")
       else tx_ret tt) ;;
      tx_ret true
  end.

(** One reservation of the loop; the number of units it adds. *)
Definition consume_one (tenant request lease : string) (c : ConsumeReservation) :
    Txn InvError Z :=
  joined <- joined_reservation tenant (cv_reservation_id c) ;;
  joined <- tx_lift (ok_or joined (Conflict "reservation_not_found"
                                     "reservation does not exist for the tenant")) ;;
  let r := joined.1 in
  tx_ensure (String.eqb (rv_sku r) (cv_sku c) && (rv_quantity r =? i32_or_max (cv_quantity c))
             && match cv_location_id c with
                | Some requested => String.eqb requested (rv_location_id r)
                | None => true
                end)
    (Conflict "reservation_conflict" "reservation identity does not match the consume request") ;;
  tx_ensure (owned_by request r)
    (Conflict "reservation_owner_conflict" "checkout fence does not own the reservation") ;;
  live <- prepare_consume tenant request lease c r ;;
  if negb live then tx_ret 0 else
  now <- tx_now ;;
  updated <- update_stock tenant (rv_variant_id r) (rv_location_id r)
               (fun s => (rv_quantity r <=? st_on_hand s) && (rv_quantity r <=? st_reserved s))
               (take_held (rv_quantity r)) ;;
  tx_ensure (updated =? 1)%nat (Failure "inventory reservation ledger is inconsistent") ;;
  updated <- sql_update reservations (tenant, cv_reservation_id c)
               (fun r => has_status IReserved r && owned_by request r)
               (with_lifecycle IConsumed None (Some now) now) ;;
  tx_ensure (updated =? 1)%nat (Failure "inventory reservation state changed during consumption") ;;
  tx_ensure (0 <=? rv_quantity r) (Failure "quantity overflow") ;;
  tx_ret (rv_quantity r).

Fixpoint consume_all (tenant request lease : string) (cs : list ConsumeReservation)
    (consumed : Z) : Txn InvError Z :=
  match cs with
  | [] => tx_ret consumed
  | c :: rest =>
      n <- consume_one tenant request lease c ;;
      consumed <- tx_lift (ok_or (u32_checked_add consumed n)
                             (Failure "consumed quantity overflow")) ;;
      consume_all tenant request lease rest consumed
  end.

(** [sort_by] on the reservation identity (a stable insertion sort). *)
Fixpoint insert_by_id (c : ConsumeReservation) (l : list ConsumeReservation) :
    list ConsumeReservation :=
  match l with
  | [] => [c]
  | d :: rest =>
      if String.ltb (cv_reservation_id d) (cv_reservation_id c) then d :: insert_by_id c rest
      else c :: l
  end.
Definition sort_by_id (l : list ConsumeReservation) : list ConsumeReservation :=
  foldr insert_by_id [] l.

Definition consume_tx (b : ConsumeBody) : Txn InvError ConsumeOutcome :=
  let rs := sort_by_id (cb_reservations b) in
  request <- tx_lift (ok_or (cb_checkout_request_id b) fence_required) ;;
  lease <- tx_lift (ok_or (cb_checkout_lease_token b) fence_required) ;;
  lock_current_checkout_fence (cb_tenant_id b) request lease ;;
  consumed <- consume_all (cb_tenant_id b) request lease rs 0 ;;
  tx_ret (mkConsumeOutcome consumed (if consumed =? 0 then "already_consumed" else "consumed")).

(** ** The reclaimer of expired holds *)

Definition expired_hold (now : Z) (k : key) (r : ReservationRow) : bool :=
  has_status IReserved r && (rv_expires_at r <=? now).

Definition reap_one (k : key) (r : ReservationRow) : Txn InvError unit :=
  now <- tx_now ;;
  updated <- update_stock k.1 (rv_variant_id r) (rv_location_id r)
               (fun s => rv_quantity r <=? st_reserved s) (hold_less (rv_quantity r)) ;;
  tx_ensure (updated =? 1)%nat
    (Failure ("expired reservation " +:+ k.1 +:+ "/" +:+ k.2 +:+ " has inconsistent inventory")) ;;
  updated <- sql_update reservations k (expired_hold now k)
               (with_lifecycle IReleased (Some now) None now) ;;
  tx_ensure (updated =? 1)%nat
    (Failure ("expired reservation " +:+ k.1 +:+ "/" +:+ k.2 +:+ " changed during reclamation")).

Fixpoint reap_all (rows : list (key * ReservationRow)) (released : Z) : Txn InvError Z :=
  match rows with
  | [] => tx_ret released
  | (k, r) :: rest =>
      reap_one k r ;;
      released <- tx_lift (ok_or (u32_checked_add released 1)
                             (Failure "expired reservation count overflow")) ;;
      reap_all rest released
  end.

(** ORDER BY expires_at, tenant_id, reservation_id *)
Definition reap_before (a b : key * ReservationRow) : bool :=
  (rv_expires_at a.2 <? rv_expires_at b.2)
  || ((rv_expires_at a.2 =? rv_expires_at b.2)
      && (String.ltb a.1.1 b.1.1 || (String.eqb a.1.1 b.1.1 && String.leb a.1.2 b.1.2))).
Fixpoint insert_row (x : key * ReservationRow) (l : list (key * ReservationRow)) :
    list (key * ReservationRow) :=
  match l with
  | [] => [x]
  | y :: rest => if reap_before x y then x :: l else y :: insert_row x rest
  end.

Definition reap_tx : Txn InvError Z := fun env db =>
  let rows := List.filter (fun kr => expired_hold (te_now env) kr.1 kr.2 && negb (te_locked env kr.1))
                (map_to_list (db_reservations db)) in
  reap_all (firstn REAPER_BATCH_SIZE (foldr insert_row [] rows)) 0 env db.

End Inventory.
