(* ===== verification/InventoryLedger.v ===== *)
(** The abstract specification of the inventory: a ledger whose reserved
    quantity is the sum of the live holds, moved by four elementary steps, and
    the proof that every inventory transaction is a sequence of such steps. *)

From stdpp Require Import relations.
From S2P Require Import Prelude Database InventoryService.
Import Schema Transactions InventoryDomain Inventory.

(** ** The ledger *)

(** The units of one stock row that live holds account for, and the units that
    were consumed from it. *)
Definition at_place (tenant variant location : string) (k : key) (r : ReservationRow) : bool :=
  String.eqb k.1 tenant && String.eqb (rv_variant_id r) variant
  && String.eqb (rv_location_id r) location.

Definition units (status : reservation_status) (tenant variant location : string)
    (k : key) (r : ReservationRow) : Z :=
  if at_place tenant variant location k r && has_status status r then rv_quantity r else 0.

Definition held (db : Db) (tenant variant location : string) : Z :=
  sum_rows (units IReserved tenant variant location) (db_reservations db).
Definition consumed_units (db : Db) (tenant variant location : string) : Z :=
  sum_rows (units IConsumed tenant variant location) (db_reservations db).

(** inventory_reservations_lifecycle_check and CHECK (quantity > 0) *)
Definition reservation_check (r : ReservationRow) : Prop :=
  0 < rv_quantity r
  /\ match rv_status r with
     | IReserved => rv_released_at r = None /\ rv_consumed_at r = None
     | IReleased => is_Some (rv_released_at r) /\ rv_consumed_at r = None
     | IConsumed => rv_released_at r = None /\ is_Some (rv_consumed_at r)
     end.

(** The CHECKs of the inventory tables, the uniqueness of a stock row per
    variant and location, and the balance of the ledger. *)
Record Ledger (db : Db) : Prop := {
  lg_unique : forall k k' s s',
    db_stock db !! k = Some s -> db_stock db !! k' = Some s' -> k.1 = k'.1 ->
    st_variant_id s = st_variant_id s' -> st_location_id s = st_location_id s' -> k = k';
  lg_bounds : forall k s, db_stock db !! k = Some s -> 0 <= st_reserved s <= st_on_hand s;
  lg_balance : forall k s, db_stock db !! k = Some s ->
    st_reserved s = held db k.1 (st_variant_id s) (st_location_id s);
  lg_check : forall k r, db_reservations db !! k = Some r -> reservation_check r
}.

(** ** The elementary steps *)

Definition same_goods (r r' : ReservationRow) : Prop :=
  rv_sku r' = rv_sku r /\ rv_variant_id r' = rv_variant_id r
  /\ rv_location_id r' = rv_location_id r /\ rv_quantity r' = rv_quantity r.

Definition goods_at (ks : key) (s : StockRow) (k : key) (r : ReservationRow) : Prop :=
  ks.1 = k.1 /\ st_variant_id s = rv_variant_id r /\ st_location_id s = rv_location_id r.

Definition put_reservation (k : key) (r : ReservationRow) (db : Db) : Db :=
  set_reservations (<[k := r]> (db_reservations db)) db.
Definition put_stock (k : key) (s : StockRow) (db : Db) : Db :=
  set_stock (<[k := s]> (db_stock db)) db.

(** Renewing a hold, taking one (fresh, or from a released reservation),
    giving one back, and turning one into a consumption. *)
Inductive move (db : Db) : Db -> Prop :=
| MRenew k r r' :
    db_reservations db !! k = Some r -> same_goods r r' -> rv_status r' = rv_status r ->
    rv_released_at r' = rv_released_at r -> rv_consumed_at r' = rv_consumed_at r ->
    rv_owner_request_id r' = rv_owner_request_id r ->
    move db (put_reservation k r' db)
| MHold ks s k r now :
    db_stock db !! ks = Some s -> goods_at ks s k r ->
    rv_quantity r <= available_quantity s ->
    rv_status r = IReserved -> reservation_check r ->
    (db_reservations db !! k = None
     \/ exists r0, db_reservations db !! k = Some r0 /\ rv_status r0 = IReleased /\ same_goods r0 r
        /\ rv_owner_request_id r = rv_owner_request_id r0) ->
    move db (put_reservation k r (put_stock ks (hold_more (rv_quantity r) now s) db))
| MRelease ks s k r r' now :
    db_stock db !! ks = Some s -> goods_at ks s k r ->
    rv_quantity r <= st_reserved s ->
    db_reservations db !! k = Some r -> rv_status r = IReserved ->
    same_goods r r' -> rv_status r' = IReleased -> reservation_check r' ->
    move db (put_reservation k r' (put_stock ks (hold_less (rv_quantity r) now s) db))
| MConsume ks s k r r' now :
    db_stock db !! ks = Some s -> goods_at ks s k r ->
    rv_quantity r <= st_on_hand s -> rv_quantity r <= st_reserved s ->
    db_reservations db !! k = Some r -> rv_status r = IReserved ->
    same_goods r r' -> rv_status r' = IConsumed -> reservation_check r' ->
    move db (put_reservation k r' (put_stock ks (take_held (rv_quantity r) now s) db)).

(** A hold never takes more than is available and a consumed reservation
    never changes its goods or its state again: the steps have no other form. *)
Definition moves : Db -> Db -> Prop := rtc move.

(** ** The steps keep the ledger *)

Lemma units_other st t v l k r r' :
  same_goods r r' -> rv_status r' = rv_status r -> units st t v l k r' = units st t v l k r.
Proof.
  intros (_ & Hv & Hl & Hq) Hs. unfold units, at_place, has_status. by rewrite Hv, Hl, Hq, Hs.
Qed.

Lemma units_nonneg st t v l db k r :
  Ledger db -> db_reservations db !! k = Some r -> 0 <= units st t v l k r.
Proof.
  intros HL Hk. destruct (lg_check _ HL k r Hk) as [Hq _]. unfold units. case_match; lia.
Qed.

(** Whether a reservation lies at a stock row's place. *)
Lemma at_place_spec (k : key) s kr r :
  at_place k.1 (st_variant_id s) (st_location_id s) kr r = true <-> goods_at k s kr r.
Proof.
  unfold at_place, goods_at. rewrite !andb_true_iff, !String.eqb_eq. naive_solver.
Qed.

Lemma units_at st (k : key) s kr r :
  goods_at k s kr r -> rv_status r = st ->
  units st k.1 (st_variant_id s) (st_location_id s) kr r = rv_quantity r.
Proof.
  intros Hg Hs. unfold units, has_status. rewrite (proj2 (at_place_spec _ _ _ _) Hg).
  by rewrite bool_decide_true.
Qed.

Lemma units_status st t v l kr r : rv_status r <> st -> units st t v l kr r = 0.
Proof. intros Hs. unfold units, has_status. rewrite bool_decide_false by done. by rewrite andb_false_r. Qed.

(** Replacing one reservation and one stock row of the same place keeps the
    ledger when the two changes agree. *)
Lemma ledger_replace db ks s s' k r' dq :
  Ledger db ->
  db_stock db !! ks = Some s ->
  st_variant_id s' = st_variant_id s -> st_location_id s' = st_location_id s ->
  goods_at ks s k r' -> reservation_check r' ->
  0 <= st_reserved s' <= st_on_hand s' ->
  st_reserved s' = st_reserved s + dq ->
  (forall t v l, held (put_reservation k r' db) t v l
     = held db t v l + (if at_place t v l k r' then dq else 0)) ->
  Ledger (put_reservation k r' (put_stock ks s' db)).
Proof.
  intros HL Hs Hv Hl Hg Hc Hb Hq Hheld.
  assert (Hh : forall t v l, held (put_reservation k r' (put_stock ks s' db)) t v l
     = held db t v l + (if at_place t v l k r' then dq else 0)) by (intros; apply Hheld).
  assert (Hlook : forall kx sx, db_stock (put_stock ks s' db) !! kx = Some sx ->
    (kx = ks /\ sx = s') \/ (kx <> ks /\ db_stock db !! kx = Some sx)).
  { intros kx sx. simpl. rewrite lookup_insert_Some. naive_solver. }
  split.
  - intros k1 k2 s1 s2 H1 H2 Ht Hv12 Hl12.
    apply Hlook in H1, H2.
    destruct H1 as [[-> ->]|[? H1]], H2 as [[-> ->]|[? H2]]; [done| | |].
    + rewrite Hv in Hv12. rewrite Hl in Hl12. by eapply (lg_unique _ HL).
    + rewrite Hv in Hv12. rewrite Hl in Hl12. by eapply (lg_unique _ HL).
    + by eapply (lg_unique _ HL).
  - intros kx sx Hx. apply Hlook in Hx as [[-> ->]|[_ Hx]]; [done|]. by eapply (lg_bounds _ HL).
  - intros kx sx Hx. rewrite Hh. apply Hlook in Hx as [[-> ->]|[Hne Hx]].
    + rewrite Hv, Hl, Hq. rewrite (proj2 (at_place_spec _ _ _ _) Hg).
      by rewrite (lg_balance _ HL _ _ Hs).
    + destruct (at_place _ _ _ k r') eqn:E.
      * exfalso. apply at_place_spec in E as (E1 & E2 & E3). destruct Hg as (G1 & G2 & G3).
        apply Hne. eapply (lg_unique _ HL); [done|done|..]; congruence.
      * rewrite (lg_balance _ HL _ _ Hx). lia.
  - intros kx rx. simpl. rewrite lookup_insert_Some. intros [[<- <-]|[_ Hx]]; [done|].
    by eapply (lg_check _ HL).
Qed.

Lemma held_replace db k r r' t v l :
  db_reservations db !! k = Some r ->
  held (put_reservation k r' db) t v l
  = held db t v l - units IReserved t v l k r + units IReserved t v l k r'.
Proof. intros Hk. unfold held. simpl. by apply sum_rows_insert. Qed.

Lemma held_fresh db k r' t v l :
  db_reservations db !! k = None ->
  held (put_reservation k r' db) t v l = held db t v l + units IReserved t v l k r'.
Proof. intros Hk. unfold held. simpl. rewrite sum_rows_fresh by done. lia. Qed.

Lemma at_place_same t v l k r r' : same_goods r r' -> at_place t v l k r' = at_place t v l k r.
Proof. intros (_ & Hv & Hl & _). unfold at_place. by rewrite Hv, Hl. Qed.

Lemma units_at_place st t v l k r :
  units st t v l k r = if at_place t v l k r then (if has_status st r then rv_quantity r else 0) else 0.
Proof. unfold units. by destruct (at_place _ _ _ _ _), (has_status _ _). Qed.

Lemma has_status_eq st r : rv_status r = st -> has_status st r = true.
Proof. intros <-. unfold has_status. by rewrite bool_decide_true. Qed.
Lemma has_status_ne st r : rv_status r <> st -> has_status st r = false.
Proof. intros Hs. unfold has_status. by rewrite bool_decide_false. Qed.

(** The change of [held] when the reservation at [k] becomes [r']. *)
Lemma held_change db k r r' dq :
  db_reservations db !! k = Some r -> same_goods r r' ->
  (if has_status IReserved r' then rv_quantity r else 0)
    = (if has_status IReserved r then rv_quantity r else 0) + dq ->
  forall t v l, held (put_reservation k r' db) t v l
    = held db t v l + (if at_place t v l k r' then dq else 0).
Proof.
  intros Hk Hg Hd t v l. rewrite (held_replace _ _ _ _ _ _ _ Hk), !units_at_place.
  rewrite (at_place_same _ _ _ _ _ _ Hg). destruct Hg as (_ & _ & _ & ->).
  destruct (at_place _ _ _ _ _); lia.
Qed.

Lemma goods_at_same ks s k r r' : goods_at ks s k r -> same_goods r r' -> goods_at ks s k r'.
Proof. unfold goods_at, same_goods. intros (?&?&?) (?&?&?&?). split_and!; congruence. Qed.

Lemma move_ledger db db' : Ledger db -> move db db' -> Ledger db'.
Proof.
  intros HL Hm. inversion Hm; subst.
  - (* MRenew *) assert (Hc : reservation_check r').
    { destruct (lg_check _ HL _ _ H) as [Hq Hst]. destruct H0 as (_ & _ & _ & Hq').
      unfold reservation_check. by rewrite Hq', H1, H2, H3. }
    assert (Hh : forall t v l, held (put_reservation k r' db) t v l = held db t v l).
    { intros t v l. rewrite (held_replace _ _ _ _ _ _ _ H), (units_other _ _ _ _ _ _ _ H0 H1). lia. }
    split; [apply HL|apply HL| |].
    + intros kx sx Hx. rewrite Hh. by apply (lg_balance _ HL).
    + intros kx rx. simpl. rewrite lookup_insert_Some. intros [[<- <-]|[_ Hx]]; [done|].
      by eapply (lg_check _ HL).
  - (* MHold *) pose proof (lg_bounds _ HL _ _ H). destruct (H3) as [Hq _].
    eapply (ledger_replace db ks s _ k r (rv_quantity r)); try done.
    + unfold hold_more, available_quantity in *. simpl. lia.
    + intros t v l. destruct H4 as [Hnone|(r0 & Hk & Hst & Hg & _)].
      * rewrite (held_fresh _ _ _ _ _ _ Hnone), units_at_place, (has_status_eq _ _ H2). done.
      * apply (held_change _ _ r0); [done|done|].
        rewrite (has_status_eq _ _ H2), has_status_ne by congruence.
        destruct Hg as (_ & _ & _ & ->). lia.
  - (* MRelease *) pose proof (lg_bounds _ HL _ _ H). destruct (lg_check _ HL _ _ H2) as [Hq _].
    eapply (ledger_replace db ks s _ k r' (- rv_quantity r)); try done.
    + by eapply goods_at_same.
    + unfold hold_less. simpl. lia.
    + apply (held_change _ _ r); [done|done|].
      rewrite (has_status_eq _ _ H3), has_status_ne by congruence. lia.
  - (* MConsume *) pose proof (lg_bounds _ HL _ _ H). destruct (lg_check _ HL _ _ H3) as [Hq _].
    eapply (ledger_replace db ks s _ k r' (- rv_quantity r)); try done.
    + by eapply goods_at_same.
    + unfold take_held. simpl. lia.
    + apply (held_change _ _ r); [done|done|].
      rewrite (has_status_eq _ _ H4), has_status_ne by congruence. lia.
Qed.

Lemma moves_ledger db db' : Ledger db -> moves db db' -> Ledger db'.
Proof. intros HL Hm. induction Hm as [|? ? ? Hm _ IH]; [done|]. apply IH. by eapply move_ledger. Qed.

(** Units are never created or lost: what is on hand and what has been
    consumed from a stock row add up to the same number. *)
Definition conserved (db db' : Db) : Prop :=
  forall ks s, db_stock db !! ks = Some s ->
  exists s', db_stock db' !! ks = Some s'
    /\ st_variant_id s' = st_variant_id s /\ st_location_id s' = st_location_id s
    /\ st_on_hand s' + consumed_units db' ks.1 (st_variant_id s) (st_location_id s)
       = st_on_hand s + consumed_units db ks.1 (st_variant_id s) (st_location_id s).

#[export] Instance conserved_preorder : PreOrder conserved.
Proof.
  split.
  - intros db ks s Hs. by exists s.
  - intros d1 d2 d3 H12 H23 ks s Hs. destruct (H12 _ _ Hs) as (s2 & Hs2 & Hv2 & Hl2 & He2).
    destruct (H23 _ _ Hs2) as (s3 & Hs3 & Hv3 & Hl3 & He3). rewrite Hv2, Hl2 in *.
    exists s3. split_and!; [done..|lia].
Qed.

Lemma consumed_replace db k r r' t v l :
  db_reservations db !! k = Some r ->
  consumed_units (put_reservation k r' db) t v l
  = consumed_units db t v l - units IConsumed t v l k r + units IConsumed t v l k r'.
Proof. intros Hk. unfold consumed_units. simpl. by apply sum_rows_insert. Qed.

(** A step that neither consumes nor un-consumes, and keeps what is on hand. *)
Lemma conserved_other db ks s s' k r' :
  db_stock db !! ks = Some s ->
  st_variant_id s' = st_variant_id s -> st_location_id s' = st_location_id s ->
  st_on_hand s' = st_on_hand s ->
  (forall t v l, consumed_units (put_reservation k r' db) t v l = consumed_units db t v l) ->
  conserved db (put_reservation k r' (put_stock ks s' db)).
Proof.
  intros Hs Hv Hl Ho Hc kx sx Hx.
  assert (Hc' : forall t v l, consumed_units (put_reservation k r' (put_stock ks s' db)) t v l
    = consumed_units db t v l) by (intros; apply Hc).
  destruct (decide (kx = ks)) as [->|Hne].
  - rewrite Hs in Hx. injection Hx as <-. exists s'. simpl. rewrite lookup_insert_eq, Hc'.
    split_and!; [done..|lia].
  - exists sx. simpl. rewrite lookup_insert_ne by done. rewrite Hc'. done.
Qed.

Lemma move_conserved db db' : Ledger db -> move db db' -> conserved db db'.
Proof.
  intros HL Hm. inversion Hm; subst.
  - intros ks s Hs. exists s. split_and!; [done..|].
    rewrite (consumed_replace _ _ _ _ _ _ _ H), (units_other _ _ _ _ _ _ _ H0 H1). lia.
  - eapply conserved_other; try done. intros t v l. destruct H4 as [Hnone|(r0 & Hk & Hst & _)].
    + unfold consumed_units. simpl. rewrite sum_rows_fresh by done.
      rewrite units_status by congruence. lia.
    + rewrite (consumed_replace _ _ _ _ _ _ _ Hk), !units_status by congruence. lia.
  - eapply conserved_other; try done. intros t v l.
    rewrite (consumed_replace _ _ _ _ _ _ _ H2), !units_status by congruence. lia.
  - intros kx sx Hx.
    assert (Hc : forall t v l, consumed_units (put_reservation k r' (put_stock ks
        (take_held (rv_quantity r) now s) db)) t v l
      = consumed_units db t v l + (if at_place t v l k r then rv_quantity r else 0)).
    { intros t v l. change (consumed_units (put_reservation k r' db) t v l
        = consumed_units db t v l + (if at_place t v l k r then rv_quantity r else 0)).
      rewrite (consumed_replace _ _ _ _ _ _ _ H3), (units_status _ _ _ _ _ r) by congruence.
      rewrite units_at_place, (has_status_eq _ _ H6), (at_place_same _ _ _ _ _ _ H5).
      destruct H5 as (_ & _ & _ & ->). lia. }
    destruct (decide (kx = ks)) as [->|Hne].
    + rewrite H in Hx. injection Hx as <-. exists (take_held (rv_quantity r) now s). simpl.
      rewrite lookup_insert_eq, Hc, (proj2 (at_place_spec _ _ _ _) H0). split_and!; [done..|lia].
    + exists sx. simpl. rewrite lookup_insert_ne by done. split_and!; [done..|].
      rewrite Hc. destruct (at_place _ _ _ k r) eqn:E; [|lia].
      exfalso. apply at_place_spec in E as (E1 & E2 & E3). destruct H0 as (G1 & G2 & G3).
      apply Hne. eapply (lg_unique _ HL); [done|done|..]; congruence.
Qed.

Lemma moves_conserved db db' : Ledger db -> moves db db' -> conserved db db'.
Proof.
  intros HL Hm. induction Hm as [|d1 d2 d3 Hm _ IH]; [reflexivity|].
  transitivity d2; [by apply move_conserved|]. apply IH. by eapply move_ledger.
Qed.

(** ** Statements on the stock, under the ledger *)

Lemma stock_at_spec t v l ks s :
  stock_at t v l ks s = true <-> ks.1 = t /\ st_variant_id s = v /\ st_location_id s = l.
Proof. unfold stock_at. rewrite !andb_true_iff, !String.eqb_eq. naive_solver. Qed.

Lemma find_stock_some db t v l ks s :
  find_stock db t v l = Some (ks, s) ->
  db_stock db !! ks = Some s /\ ks.1 = t /\ st_variant_id s = v /\ st_location_id s = l.
Proof.
  unfold find_stock. intros [Hin Hw]%find_some.
  apply list_elem_of_In, elem_of_map_to_list in Hin. by apply stock_at_spec in Hw.
Qed.

Lemma find_stock_none db t v l :
  find_stock db t v l = None -> forall ks s, db_stock db !! ks = Some s -> stock_at t v l ks s = false.
Proof.
  unfold find_stock. intros Hn ks s Hs. apply (find_none _ _ Hn (ks, s)).
  by apply list_elem_of_In, elem_of_map_to_list.
Qed.

Lemma find_stock_unique db t v l ks s :
  Ledger db -> db_stock db !! ks = Some s -> stock_at t v l ks s = true ->
  find_stock db t v l = Some (ks, s).
Proof.
  intros HL Hs Hw. destruct (find_stock db t v l) as [[k' s']|] eqn:E.
  - apply find_stock_some in E as (Hs' & Ht & Hv & Hl). apply stock_at_spec in Hw as (<- & <- & <-).
    assert (k' = ks) as -> by (by eapply (lg_unique _ HL)). congruence.
  - rewrite (find_stock_none _ _ _ _ E _ _ Hs) in Hw. done.
Qed.

Lemma update_stock_ok t v l guard f env db ks s n db' :
  Ledger db -> db_stock db !! ks = Some s -> stock_at t v l ks s = true ->
  update_stock t v l guard f env db = Ok (n, db') ->
  (n = 1%nat /\ guard s = true /\ db' = put_stock ks (f (te_now env) s) db)
  \/ (n = 0%nat /\ guard s = false /\ db' = db).
Proof.
  intros HL Hs Hw. unfold update_stock. intros H. tx_inv.
  match goal with Hu : sql_update_where _ _ _ _ _ = _ |- _ =>
    apply sql_update_where_ok in Hu as [-> ->] end.
  change (tget stock db) with (db_stock db).
  assert (Hu : forall k' s', db_stock db !! k' = Some s' ->
    stock_at t v l k' s' && guard s' = true -> k' = ks).
  { intros k' s' Hs' Hw'. apply andb_true_iff in Hw' as [Hw' _].
    apply stock_at_spec in Hw as (? & ? & ?), Hw' as (? & ? & ?).
    eapply (lg_unique _ HL); [done|done|..]; congruence. }
  destruct (guard s) eqn:Eg.
  - left. rewrite (update_rows_single _ _ _ ks s); [done|done|by rewrite Hw, Eg|done].
  - right. rewrite update_rows_none; [by destruct db|]. intros k' s' Hs'.
    destruct (stock_at t v l k' s' && guard s') eqn:E; [|done].
    assert (k' = ks) as -> by eauto. rewrite Hs in Hs'. injection Hs' as <-.
    by rewrite Eg, andb_false_r in E.
Qed.

Lemma joined_reservation_ok t i env db o db' :
  joined_reservation t i env db = Ok (o, db') ->
  db' = db /\ forall r s, o = Some (r, s) ->
    db_reservations db !! (t, i) = Some r
    /\ exists ks, db_stock db !! ks = Some s /\ goods_at ks s (t, i) r
       /\ stock_at t (rv_variant_id r) (rv_location_id r) ks s = true.
Proof.
  unfold joined_reservation, read_stock. intros H. tx_inv. simpl in *.
  destruct (db_reservations db !! (t, i)) as [r0|] eqn:Er; tx_inv; [|split; [done|by intros]].
  split; [done|]. intros r s Ho.
  destruct (find_stock db t (rv_variant_id r0) (rv_location_id r0)) as [[ks s']|] eqn:Ef; [|done].
  simpl in Ho. injection Ho as <- <-. apply find_stock_some in Ef as (Hs & Ht & Hv & Hl).
  split; [done|]. exists ks. split; [done|]. split; [done|]. by apply stock_at_spec.
Qed.

Lemma put_put_reservation k r r' db :
  put_reservation k r' (put_reservation k r db) = put_reservation k r' db.
Proof. unfold put_reservation, set_reservations. simpl. by rewrite insert_insert_eq. Qed.

Lemma put_swap k r ks s db :
  put_stock ks s (put_reservation k r db) = put_reservation k r (put_stock ks s db).
Proof. done. Qed.

Lemma stock_at_goods t i ks s r :
  goods_at ks s (t, i) r -> stock_at t (rv_variant_id r) (rv_location_id r) ks s = true.
Proof. intros (?&?&?). by apply stock_at_spec. Qed.

Lemma lock_fence_ok t rid tok env db u db' :
  lock_current_checkout_fence t rid tok env db = Ok (u, db') ->
  db' = db /\ checkout_fence_current db (te_now env) t rid tok = true.
Proof. unfold lock_current_checkout_fence. intros H. by tx_inv. Qed.

(** A row of the reservation table updated under a condition it satisfies. *)
Lemma update_reservation_ok k w f (env : txenv InvError) db n db' r :
  db_reservations db !! k = Some r ->
  sql_update reservations k w f env db = Ok (n, db') ->
  (n = 1%nat /\ w r = true /\ db' = put_reservation k (f r) db) \/ (n = 0%nat /\ db' = db /\ w r = false).
Proof.
  intros Hk [(-> & r' & Hk' & Hw & ->)|(-> & -> & Hf)]%sql_update_ok.
  - simpl in Hk'. rewrite Hk in Hk'. injection Hk' as <-. by left.
  - right. split_and!; [done|done|]. by apply Hf.
Qed.

Lemma goods_lifecycle st a b now r : same_goods r (with_lifecycle st a b now r).
Proof. done. Qed.
Lemma goods_hold e o t now r : same_goods r (with_hold e o t now r).
Proof. done. Qed.

(** The invariant every operation is proved against. *)
Definition refines {A} (m : Txn InvError A) : Prop :=
  forall env db a db', Ledger db -> m env db = Ok (a, db') -> moves db db'.

Lemma hold_move db t i ks s r r' now :
  Ledger db -> db_stock db !! ks = Some s -> goods_at ks s (t, i) r ->
  db_reservations db !! (t, i) = Some r -> rv_status r = IReleased ->
  rv_quantity r <= available_quantity s -> same_goods r r' -> rv_status r' = IReserved ->
  rv_released_at r' = None -> rv_consumed_at r' = None ->
  rv_owner_request_id r' = rv_owner_request_id r ->
  move db (put_reservation (t, i) r' (put_stock ks (hold_more (rv_quantity r) now s) db)).
Proof.
  intros HL Hs Hg Hr Hst Hav Hsg Hst' Hrel Hcon Hown. destruct (lg_check _ HL _ _ Hr) as [Hq _].
  pose proof Hsg as (_ & _ & _ & Hq'). rewrite <- Hq'. apply MHold; try done.
  - by eapply goods_at_same.
  - by rewrite Hq'.
  - unfold reservation_check. rewrite Hst', Hq'. done.
  - right. by exists r.
Qed.

Lemma refines_reserve_existing p request lease r s :
  forall env db a db', Ledger db ->
  db_reservations db !! (rq_tenant_id p, rq_reservation_id p) = Some r ->
  (exists ks, db_stock db !! ks = Some s /\ goods_at ks s (rq_tenant_id p, rq_reservation_id p) r
     /\ stock_at (rq_tenant_id p) (rv_variant_id r) (rv_location_id r) ks s = true) ->
  reserve_existing p request lease r s env db = Ok (a, db') -> moves db db'.
Proof.
  intros env db a db' HL Hr (ks & Hs & Hg & Hat) H. unfold reserve_existing, read_stock in H.
  tx_inv. bool_inv.
  match goal with Ho : owned_by _ _ = true |- _ => apply opt_is_true in Ho as Hown end.
  destruct (rv_status r) eqn:Hst; tx_inv; [| |reflexivity].
  - (* reserved: renewed, or untouched *)
    case_any; tx_inv; [|reflexivity].
    match goal with Hu : sql_update _ _ _ _ _ _ = _ |- _ =>
      eapply update_reservation_ok in Hu as [(_ & _ & ->)|(? & _)]; [|done..|done] end.
    apply rtc_once, MRenew with r; done.
  - (* released: taken again *)
    bool_inv.
    match goal with Hu : update_stock _ _ _ _ _ _ _ = _ |- _ =>
      eapply update_stock_ok in Hu as [(Hn & Hav & Hdb)|(Hn & _)]; [|done..] end.
    subst. bool_inv.
    match goal with Hu : sql_update _ _ _ _ _ _ = _ |- _ =>
      eapply update_reservation_ok in Hu as [(_ & _ & ->)|(? & _)]; [|done..|done] end.
    apply rtc_once. by apply hold_move.
Qed.

Lemma refines_reserve_new p request lease :
  0 < rq_quantity p -> rq_checkout_request_id p = Some request ->
  rq_checkout_lease_token p = Some lease -> refines (reserve_new p).
Proof.
  intros Hq _ _ env db a db' HL H. unfold reserve_new in H. tx_inv.
  destruct (candidate db p) as [[ks s]|] eqn:Ec; tx_inv; [|reflexivity].
  unfold candidate in Ec. destruct (db_variants db !! _) as [v|]; [|done].
  destruct (vp_variant_active v); [|done]. apply first_by_some in Ec as [Hs Hw]. bool_inv.
  match goal with Hu : sql_update stock _ _ _ _ _ = _ |- _ =>
    apply sql_update_ok in Hu as [(_ & s0 & Hs0 & _ & ->)|(_ & -> & Hf)] end.
  - simpl in Hs0. rewrite Hs in Hs0. injection Hs0 as <-.
    match goal with |- moves db (tset _ (<[_ := ?r]> _) _) =>
      change (moves db (put_reservation (rq_tenant_id p, rq_reservation_id p) r
        (put_stock ks (hold_more (rv_quantity r) (te_now env) s) db))) end.
    apply rtc_once, MHold; try done. left. done.
  - exfalso. simpl in Hf. specialize (Hf _ Hs). lia.
Qed.

Lemma refines_reserve p : 0 < rq_quantity p -> refines (reserve_tx p).
Proof.
  intros Hq env db a db' HL H. unfold reserve_tx in H. tx_inv.
  match goal with Hf : lock_current_checkout_fence _ _ _ _ _ = _ |- _ =>
    apply lock_fence_ok in Hf as [-> _] end.
  match goal with Hj : joined_reservation _ _ _ _ = _ |- _ =>
    apply joined_reservation_ok in Hj as [-> Hj'] end.
  case_any; [|by eapply refines_reserve_new].
  case_any. tx_inv. destruct (Hj' _ _ eq_refl) as (Hr & Hks).
  by eapply refines_reserve_existing.
Qed.

(** The two statement shapes of the operations, at the row in hand. *)
Ltac on_stock :=
  match goal with Hu : update_stock _ _ _ _ _ _ ?db = _ |- _ =>
    eapply update_stock_ok in Hu as [(Hn & Hav & Hdb)|(Hn & _ & Hdb)]; [|done..] end;
  subst; try done; repeat match goal with H : 1%nat = 1%nat |- _ => clear H end; bool_inv.
Ltac on_row :=
  match goal with Hu : sql_update _ _ _ _ _ _ = _ |- _ =>
    eapply update_reservation_ok in Hu as [(Hn & Hw & Hdb)|(Hn & Hdb & Hw)]; [| |done] end;
  subst; try done; repeat match goal with H : 1%nat = 1%nat |- _ => clear H end.

(** A hold rebound to the caller's lease is the same hold. *)
Lemma rebind_moves db k r e o t now :
  db_reservations db !! k = Some r -> o = rv_owner_request_id r ->
  move db (put_reservation k (with_hold e o t now r) db).
Proof. intros Hr ->. by apply MRenew with r. Qed.

Lemma lookup_put_reservation k r db : db_reservations (put_reservation k r db) !! k = Some r.
Proof. simpl. apply lookup_insert_eq. Qed.

Lemma release_move db t i ks s r r' now :
  Ledger db -> db_stock db !! ks = Some s -> goods_at ks s (t, i) r ->
  db_reservations db !! (t, i) = Some r -> rv_status r = IReserved ->
  rv_quantity r <= st_reserved s -> same_goods r r' -> rv_status r' = IReleased ->
  is_Some (rv_released_at r') -> rv_consumed_at r' = None ->
  move db (put_reservation (t, i) r' (put_stock ks (hold_less (rv_quantity r) now s) db)).
Proof.
  intros HL Hs Hg Hr Hst Hq Hsg Hst' Hrel Hcon. destruct (lg_check _ HL _ _ Hr) as [Hpos _].
  pose proof Hsg as (_ & _ & _ & Hq'). apply (MRelease db ks s (t, i) r r' now); try done.
  unfold reservation_check. by rewrite Hst', Hq'.
Qed.

(** The row after a possible rebinding. *)
Lemma release_rebind_ok b request lease r env db u d :
  db_reservations db !! (lb_tenant_id b, lb_reservation_id b) = Some r ->
  release_rebind b request lease r env db = Ok (u, d) ->
  moves db d /\ db_stock d = db_stock db /\ exists r1,
    db_reservations d !! (lb_tenant_id b, lb_reservation_id b) = Some r1
    /\ same_goods r r1 /\ rv_status r1 = rv_status r.
Proof.
  intros Hr H. unfold release_rebind in H. tx_inv. case_any; tx_inv.
  - on_row. split; [apply rtc_once; by apply rebind_moves|]. split; [done|].
    eexists. split; [apply lookup_put_reservation|done].
  - split; [reflexivity|]. split; [done|]. by exists r.
Qed.

Lemma refines_release b : refines (release_tx b).
Proof.
  intros env db a db' HL H. unfold release_tx, release_existing, read_stock in H. tx_inv.
  match goal with Hf : lock_current_checkout_fence _ _ _ _ _ = _ |- _ =>
    apply lock_fence_ok in Hf as [-> _] end.
  match goal with Hj : joined_reservation _ _ _ _ = _ |- _ =>
    apply joined_reservation_ok in Hj as [-> Hj'] end.
  case_any; [|tx_inv; reflexivity]. case_any. tx_inv.
  destruct (Hj' _ _ eq_refl) as (Hr & ks & Hs & Hg & Hat).
  match goal with Hif : release_rebind _ _ _ _ _ _ = _ |- _ =>
    eapply release_rebind_ok in Hif as (Hm & Hst & r1 & Hr1 & Hg1 & Hs1); [|done] end.
  destruct (rv_status r) eqn:Hstat; tx_inv; [|done].
  match goal with Hh : release_hold _ _ _ _ _ = _ |- _ => unfold release_hold, read_stock in Hh end.
  tx_inv.
  match type of Hm with moves _ ?d => assert (HL1 : Ledger d) by (by eapply moves_ledger) end.
  rewrite <- Hst in Hs. bool_inv. on_stock. on_row.
  eapply rtc_r; [done|]. pose proof Hg1 as (_ & _ & _ & Hq). rewrite <- Hq.
  apply release_move; try done; [by eapply goods_at_same|lia].
Qed.

(** ** consume *)

(** What [prepare_consume] leaves for the consumption to act on. *)
Record prepared (t request : string) (c : ConsumeReservation) (r : ReservationRow)
    (ks : key) (db d : Db) : Prop := {
  pp_moves : moves db d;
  pp_row : exists r1, db_reservations d !! (t, cv_reservation_id c) = Some r1
    /\ same_goods r r1 /\ rv_status r1 = IReserved
    /\ rv_owner_request_id r1 = rv_owner_request_id r;
  pp_stock : exists s1, db_stock d !! ks = Some s1 /\ goods_at ks s1 (t, cv_reservation_id c) r;
  pp_others : forall k, k <> (t, cv_reservation_id c) -> db_reservations d !! k = db_reservations db !! k
}.

Lemma put_reservation_others k r db k' :
  k' <> k -> db_reservations (put_reservation k r db) !! k' = db_reservations db !! k'.
Proof. intros Hne. simpl. by rewrite lookup_insert_ne. Qed.

Lemma prepared_renewed t request c r ks s db r1 :
  db_reservations db !! (t, cv_reservation_id c) = Some r ->
  db_stock db !! ks = Some s -> goods_at ks s (t, cv_reservation_id c) r ->
  rv_status r = IReserved ->
  r1 = r \/ (exists e o now, r1 = with_hold e (rv_owner_request_id r) o now r) ->
  prepared t request c r ks db (put_reservation (t, cv_reservation_id c) r1 db).
Proof.
  intros Hr Hs Hg Hst Hr1. assert (H1 : same_goods r r1 /\ rv_status r1 = IReserved
    /\ rv_owner_request_id r1 = rv_owner_request_id r /\ rv_released_at r1 = rv_released_at r
    /\ rv_consumed_at r1 = rv_consumed_at r) by (destruct Hr1 as [-> |(? & ? & ? & ->)]; done).
  destruct H1 as (Hg1 & Hs1 & Ho1 & Hre & Hco). split.
  - apply rtc_once. apply (MRenew db _ r); try done. congruence.
  - exists r1. split; [apply lookup_put_reservation|done].
  - exists s. done.
  - intros k Hne. by apply put_reservation_others.
Qed.

Lemma put_same_reservation k r db : db_reservations db !! k = Some r -> put_reservation k r db = db.
Proof. intros Hk. unfold put_reservation. rewrite insert_id by done. by destruct db. Qed.

Lemma prepare_consume_ok t request lease c r s ks env db live d :
  Ledger db ->
  db_reservations db !! (t, cv_reservation_id c) = Some r -> owned_by request r = true ->
  db_stock db !! ks = Some s -> goods_at ks s (t, cv_reservation_id c) r ->
  prepare_consume t request lease c r env db = Ok (live, d) ->
  (live = false /\ d = db /\ rv_status r = IConsumed)
  \/ (live = true /\ rv_status r <> IConsumed /\ prepared t request c r ks db d).
Proof.
  intros HL Hr Hown Hs Hg H. pose proof (stock_at_goods _ _ _ _ _ Hg) as Hat.
  unfold prepare_consume in H. tx_inv. destruct (rv_status r) eqn:Hst; tx_inv; [| |by left].
  - right. split; [done|]. split; [done|]. repeat case_any; tx_inv.
    + on_row. eapply prepared_renewed; try done. right. eauto.
    + on_row. eapply prepared_renewed; try done. right. eauto.
    + rewrite <- (put_same_reservation (t, cv_reservation_id c) r db Hr) at 2.
      eapply prepared_renewed; try done. by left.
  - right. split; [done|]. split; [done|]. bool_inv. on_stock. on_row. split.
    + apply rtc_once. by apply hold_move.
    + eexists. split; [apply lookup_put_reservation|]. done.
    + eexists. split; [simpl; apply lookup_insert_eq|]. done.
    + intros k Hne. by rewrite put_reservation_others.
Qed.

(** One consumed reservation. *)
Record consumed_row (t request : string) (c : ConsumeReservation) (n : Z) (db db' : Db) : Prop := {
  cr_moves : moves db db';
  cr_row : exists r r', db_reservations db !! (t, cv_reservation_id c) = Some r
    /\ db_reservations db' !! (t, cv_reservation_id c) = Some r'
    /\ same_goods r r' /\ rv_status r' = IConsumed /\ owned_by request r' = true
    /\ rv_sku r = cv_sku c
    /\ (rv_status r = IConsumed -> n = 0 /\ db' = db)
    /\ (rv_status r <> IConsumed -> n = rv_quantity r);
  cr_others : forall k, k <> (t, cv_reservation_id c) -> db_reservations db' !! k = db_reservations db !! k
}.

Lemma consume_one_ok t request lease c env db n db' :
  Ledger db -> consume_one t request lease c env db = Ok (n, db') ->
  consumed_row t request c n db db'.
Proof.
  intros HL H. unfold consume_one in H. tx_inv.
  match goal with Hj : joined_reservation _ _ _ _ = _ |- _ =>
    apply joined_reservation_ok in Hj as [-> Hj'] end.
  match goal with Hx : _ = Some ?y |- _ => destruct y as [r s]; destruct (Hj' _ _ Hx) as (Hr & ks & Hs & Hg & Hat) end.
  simpl in *. bool_inv.
  match goal with Hu : prepare_consume _ _ _ _ _ _ _ = _ |- _ =>
    eapply prepare_consume_ok in Hu as [(-> & -> & Hst)|(-> & Hst & Hp)]; [| |done..] end.
  { simpl in *. tx_inv. split; [reflexivity| |done]. exists r, r. split_and!; done. }
  simpl in *. tx_inv. destruct Hp as [Hm (r1 & Hr1 & Hg1 & Hs1 & Ho1) (s1 & Hst1 & Hgs1) Hoth].
  match type of Hm with moves _ ?d => assert (HL1 : Ledger d) by (by eapply moves_ledger) end.
  pose proof (stock_at_goods _ _ _ _ _ Hgs1) as Hat1. on_stock. on_row.
  pose proof (goods_at_same _ _ _ _ _ Hgs1 Hg1). pose proof Hg1 as (_ & _ & _ & Hq).
  destruct (lg_check _ HL1 _ _ Hr1) as [Hpos _]. split.
  - eapply rtc_r; [done|]. rewrite <- Hq. apply (MConsume _ _ _ _ r1); try done; try lia.
  - exists r. eexists. split; [done|]. split; [apply lookup_put_reservation|].
    split_and!; try done. unfold owned_by in *. simpl. by rewrite Ho1.
  - intros k Hne. rewrite put_reservation_others by done. simpl. by apply Hoth.
Qed.

(** The consumed rows after a run over distinct reservations. *)
Definition all_consumed (t request : string) (cs : list ConsumeReservation) (db' : Db) : Prop :=
  Forall (fun c => exists r', db_reservations db' !! (t, cv_reservation_id c) = Some r'
    /\ rv_status r' = IConsumed /\ owned_by request r' = true) cs.

(** What a run adds to the running total: the quantities not yet consumed. *)
Definition fresh_units (t : string) (db : Db) (cs : list ConsumeReservation) : Z :=
  foldr (fun c acc =>
    match db_reservations db !! (t, cv_reservation_id c) with
    | Some r => if has_status IConsumed r then acc else rv_quantity r + acc
    | None => acc
    end) 0 cs.

Lemma fresh_units_ext t db db' cs :
  (forall c, In c cs -> db_reservations db' !! (t, cv_reservation_id c)
     = db_reservations db !! (t, cv_reservation_id c)) ->
  fresh_units t db' cs = fresh_units t db cs.
Proof.
  induction cs as [|c cs IH]; simpl; [done|]. intros He. rewrite He by (by left).
  by rewrite IH by (intros; apply He; by right).
Qed.

Lemma consume_all_ok t request lease cs n env db m db' :
  Ledger db -> NoDup (map cv_reservation_id cs) ->
  consume_all t request lease cs n env db = Ok (m, db') ->
  moves db db' /\ all_consumed t request cs db' /\ m = n + fresh_units t db cs
  /\ (forall k, ~ In k (map (fun c => (t, cv_reservation_id c)) cs) ->
      db_reservations db' !! k = db_reservations db !! k)
  /\ (fresh_units t db cs = 0 -> db' = db).
Proof.
  revert n db. induction cs as [|c cs IH]; intros n db HL Hnd H; simpl in H.
  { tx_inv. split_and!; [reflexivity|constructor|simpl; lia|done|done]. }
  inversion Hnd as [|? ? Hni Hnd']; subst. tx_inv.
  match goal with Hc : consume_one _ _ _ _ _ _ = _ |- _ => apply consume_one_ok in Hc as
    [Hm (r & r' & Hr & Hr' & Hg & Hst & Hown & Hsku & Hdone & Hfresh) Hoth]; [|done] end.
  match type of Hm with moves _ ?d => assert (HL1 : Ledger d) by (by eapply moves_ledger) end.
  match goal with Hu : u32_checked_add _ _ = Some _ |- _ =>
    unfold u32_checked_add in Hu; case_match; [injection Hu as <-|done] end.
  match goal with Hc : consume_all _ _ _ _ _ _ _ = _ |- _ =>
    apply IH in Hc as (Hm2 & Hall & -> & Hoth2 & Hnone); [|done|done] end.
  assert (Hkeep : forall c', In c' cs -> (t, cv_reservation_id c') <> (t, cv_reservation_id c)).
  { intros c' Hin [= He]. apply Hni. rewrite <- He. apply list_elem_of_In, in_map_iff. by exists c'. }
  assert (Hext : fresh_units t x0 cs = fresh_units t db cs).
  { apply fresh_units_ext. intros c' Hin. apply Hoth. by apply Hkeep. }
  assert (Hpos : 0 < rv_quantity r) by apply (lg_check _ HL _ _ Hr).
  assert (Hnn : 0 <= fresh_units t db cs).
  { clear -HL. induction cs as [|c' cs IHc]; simpl; [lia|].
    destruct (db_reservations db !! _) as [rc|] eqn:E; [|done]. case_match; [done|].
    pose proof (proj1 (lg_check _ HL _ _ E)). lia. }
  simpl. rewrite Hr, <- Hext. split_and!.
  - by etransitivity.
  - constructor; [|done]. exists r'. rewrite Hoth2; [done|].
    intros Hin. apply in_map_iff in Hin as (c' & He & Hin). by apply (Hkeep c' Hin).
  - destruct (decide (rv_status r = IConsumed)) as [Hc|Hc].
    + rewrite (has_status_eq _ _ Hc). destruct (Hdone Hc) as [-> _]. lia.
    + rewrite (has_status_ne _ _ Hc), (Hfresh Hc). lia.
  - intros k Hk. rewrite Hoth2, Hoth; [done| |]; intros Hin; apply Hk; [left|right]; done.
  - destruct (decide (rv_status r = IConsumed)) as [Hc|Hc].
    + rewrite (has_status_eq _ _ Hc). intros Hz. destruct (Hdone Hc) as [_ Hd].
      rewrite Hd in *. by apply Hnone.
    + rewrite (has_status_ne _ _ Hc). rewrite Hext. lia.
Qed.

(** ** sorting and reaping *)

Lemma insert_by_id_perm c l : insert_by_id c l ≡ₚ c :: l.
Proof.
  induction l as [|d l IH]; simpl; [done|]. case_match; [|done]. rewrite IH. apply perm_swap.
Qed.
Lemma sort_by_id_perm l : sort_by_id l ≡ₚ l.
Proof. induction l as [|c l IH]; simpl; [done|]. by rewrite insert_by_id_perm, IH. Qed.

Lemma insert_row_perm x l : insert_row x l ≡ₚ x :: l.
Proof. induction l as [|y l IH]; simpl; [done|]. case_match; [done|]. rewrite IH. apply perm_swap. Qed.
Lemma sort_rows_perm l : foldr insert_row [] l ≡ₚ l.
Proof. induction l as [|x l IH]; simpl; [done|]. by rewrite insert_row_perm, IH. Qed.

Lemma refines_consume b :
  NoDup (map cv_reservation_id (cb_reservations b)) -> refines (consume_tx b).
Proof.
  intros Hnd env db a db' HL H. unfold consume_tx in H. tx_inv.
  match goal with Hf : lock_current_checkout_fence _ _ _ _ _ = _ |- _ =>
    apply lock_fence_ok in Hf as [-> _] end.
  match goal with Hc : consume_all _ _ _ _ _ _ _ = _ |- _ =>
    apply consume_all_ok in Hc as (Hm & _); [done|done|] end.
  by rewrite (sort_by_id_perm (cb_reservations b)).
Qed.

(** Every reservation's stock row exists (a reservation is created on one and
    stock rows are not deleted while referenced). *)
Definition stocked (db : Db) : Prop :=
  forall k r, db_reservations db !! k = Some r ->
  exists ks s, db_stock db !! ks = Some s /\ goods_at ks s k r.

(** A live hold is covered by its stock row. *)
Lemma hold_covered db k r ks s :
  Ledger db -> db_reservations db !! k = Some r -> rv_status r = IReserved ->
  db_stock db !! ks = Some s -> goods_at ks s k r -> rv_quantity r <= st_reserved s.
Proof.
  intros HL Hr Hst Hs Hg. rewrite (lg_balance _ HL _ _ Hs). unfold held.
  rewrite <- (units_at IReserved ks s k r Hg Hst). apply sum_rows_ge; [|done].
  intros k' r' Hr'. by eapply units_nonneg.
Qed.

Lemma update_stock_run t v l guard f env db ks s :
  Ledger db -> db_stock db !! ks = Some s -> stock_at t v l ks s = true -> guard s = true ->
  update_stock t v l guard f env db = Ok (1%nat, put_stock ks (f (te_now env) s) db).
Proof.
  intros HL Hs Hw Hg. destruct (update_stock t v l guard f env db) as [[n d]|e] eqn:E.
  - eapply update_stock_ok in E as [(-> & _ & ->)|(_ & Hf & _)]; [done| |done..]. congruence.
  - unfold update_stock, sql_update_where, tx_bind, tx_now in E. by destruct (update_rows _ _ _).
Qed.

(** Reaping one expired hold succeeds, and what it leaves. *)
Lemma reap_one_run env db k r ks s :
  Ledger db -> db_reservations db !! k = Some r -> expired_hold (te_now env) k r = true ->
  db_stock db !! ks = Some s -> goods_at ks s k r ->
  reap_one k r env db = Ok (tt, put_reservation k (with_lifecycle IReleased (Some (te_now env)) None
      (te_now env) r) (put_stock ks (hold_less (rv_quantity r) (te_now env) s) db)).
Proof.
  intros HL Hr Hexp Hs Hg. pose proof Hexp as Hst. unfold expired_hold, has_status in Hst. bool_inv.
  pose proof (hold_covered _ _ _ _ _ HL Hr ltac:(done) Hs Hg) as Hq. apply Z.leb_le in Hq.
  unfold reap_one, tx_bind, tx_now. destruct k as [t i].
  rewrite (update_stock_run _ _ _ _ _ _ _ ks s); [|done|done|by eapply stock_at_goods|done].
  simpl. by rewrite (sql_update_run reservations (t, i) _ _ _ _ r).
Qed.

Lemma put_stocked db k r r' ks s s' :
  stocked db -> db_reservations db !! k = Some r -> same_goods r r' ->
  db_stock db !! ks = Some s -> st_variant_id s' = st_variant_id s ->
  st_location_id s' = st_location_id s -> stocked (put_reservation k r' (put_stock ks s' db)).
Proof.
  intros Hst Hr Hg Hs Hv Hl k0 r0. simpl. rewrite lookup_insert_Some. intros H0.
  assert (H1 : exists kx sx, db_stock db !! kx = Some sx /\ goods_at kx sx k0 r0).
  { destruct H0 as [[<- <-]|[_ H0]]; [|by apply Hst].
    destruct (Hst _ _ Hr) as (kx & sx & Hx & Hgx). exists kx, sx. split; [done|].
    by eapply goods_at_same. }
  destruct H1 as (kx & sx & Hx & Hgx). destruct (decide (kx = ks)) as [->|Hne].
  - exists ks, s'. rewrite lookup_insert_eq. split; [done|]. rewrite Hs in Hx. injection Hx as <-.
    unfold goods_at in *. by rewrite Hv, Hl.
  - exists kx, sx. by rewrite lookup_insert_ne.
Qed.

Lemma reap_all_run env rows n db :
  Ledger db -> stocked db -> NoDup (map fst rows) ->
  Forall (fun kr => db_reservations db !! kr.1 = Some kr.2
                    /\ expired_hold (te_now env) kr.1 kr.2 = true) rows ->
  0 <= n -> n + Z.of_nat (length rows) <= u32_max ->
  exists db', reap_all rows n env db = Ok (n + Z.of_nat (length rows), db')
  /\ moves db db'
  /\ Forall (fun kr => exists r', db_reservations db' !! kr.1 = Some r' /\ rv_status r' = IReleased) rows
  /\ (forall k, ~ In k (map fst rows) -> db_reservations db' !! k = db_reservations db !! k).
Proof.
  revert n db. induction rows as [|[k r] rows IH]; intros n db HL Hst Hnd Hall Hn Hmax.
  { exists db. simpl. unfold tx_ret. rewrite Z.add_0_r. split_and!; [done|reflexivity|constructor|done]. }
  inversion Hnd as [|? ? Hni Hnd']; subst. inversion Hall as [|? ? [Hr Hexp] Hall']; subst.
  simpl in Hr, Hexp. destruct (Hst _ _ Hr) as (ks & s & Hs & Hg).
  set (d := put_reservation k (with_lifecycle IReleased (Some (te_now env)) None (te_now env) r)
    (put_stock ks (hold_less (rv_quantity r) (te_now env) s) db)).
  assert (Hrun : reap_one k r env db = Ok (tt, d)) by (by apply reap_one_run).
  pose proof Hexp as Hstat. unfold expired_hold, has_status in Hstat. bool_inv.
  assert (Hmv : move db d).
  { destruct k as [t i]. apply release_move; try done. by eapply hold_covered. }
  assert (Hoth : forall k', k' <> k -> db_reservations d !! k' = db_reservations db !! k').
  { intros k' Hne. unfold d. by rewrite put_reservation_others. }
  destruct (IH (n + 1) d) as (db' & Hr' & Hm' & Hrel & Hoth').
  - by eapply move_ledger.
  - by eapply put_stocked.
  - done.
  - apply Forall_forall. intros [k' r'] Hin. rewrite Forall_forall in Hall'.
    destruct (Hall' _ Hin) as [Hk' He']. simpl in *. split; [|done]. rewrite Hoth; [done|].
    intros ->. apply Hni. apply list_elem_of_In, in_map_iff. exists (k, r').
    split; [done|]. by apply list_elem_of_In.
  - lia.
  - cbn [length] in Hmax. lia.
  - exists db'. cbn [reap_all length]. unfold tx_bind. rewrite Hrun.
    unfold tx_lift, u32_checked_add, fits_u32. cbn [length] in Hmax.
    rewrite !(proj2 (Z.leb_le _ _)) by lia. simpl. rewrite Hr'. split_and!.
    + do 2 f_equal. lia.
    + eapply rtc_l; done.
    + constructor; [|done]. simpl. rewrite Hoth' by (by rewrite <- list_elem_of_In).
      eexists. split; [apply lookup_put_reservation|done].
    + intros k' Hk'. rewrite Hoth', Hoth; [done| |]; intros ?; apply Hk'; simpl; auto.
Qed.

(** ** Properties of sequences of steps *)

(** A consumed reservation keeps its goods and stays consumed. *)
Lemma move_consumed_final db db' k r :
  move db db' -> db_reservations db !! k = Some r -> rv_status r = IConsumed ->
  exists r', db_reservations db' !! k = Some r' /\ rv_status r' = IConsumed /\ same_goods r r'
    /\ rv_owner_request_id r' = rv_owner_request_id r.
Proof.
  intros Hm Hk Hst. inversion Hm as [k0 r0 r1 H1|ks s k0 r0 now H1 H2 H3 H4 H5 H6
    |ks s k0 r0 r1 now H1 H2 H3 H4|ks s k0 r0 r1 now H1 H2 H3 H3' H4]; subst; simpl;
    (destruct (decide (k0 = k)) as [->|Hne];
     [rewrite lookup_insert_eq|by rewrite lookup_insert_ne by done; exists r]).
  - rewrite Hk in H1. injection H1 as <-. exists r1. split_and!; [done|congruence|done..].
  - destruct H6 as [Hn|(r2 & Hr2 & Hs2 & _)]; congruence.
  - congruence.
  - congruence.
Qed.

Lemma moves_consumed_final db db' k r :
  moves db db' -> db_reservations db !! k = Some r -> rv_status r = IConsumed ->
  exists r', db_reservations db' !! k = Some r' /\ rv_status r' = IConsumed /\ same_goods r r'
    /\ rv_owner_request_id r' = rv_owner_request_id r.
Proof.
  intros Hm. revert r. induction Hm as [|d1 d2 d3 Hm _ IH]; intros r Hk Hst; [by exists r|].
  destruct (move_consumed_final _ _ _ _ Hm Hk Hst) as (r1 & Hr1 & Hs1 & (?&?&?&?) & Ho1).
  destruct (IH _ Hr1 Hs1) as (r2 & Hr2 & Hs2 & (?&?&?&?) & Ho2).
  exists r2. unfold same_goods. split_and!; congruence.
Qed.

(** The steps touch the two inventory tables only. *)
Lemma moves_fence db db' now t rid tok :
  moves db db' -> checkout_fence_current db' now t rid tok = checkout_fence_current db now t rid tok.
Proof. induction 1 as [|d1 d2 d3 Hm _ IH]; [done|]. rewrite IH. by inversion Hm. Qed.

(** Transactions of other services leave the inventory tables alone. *)
Definition same_inventory (db db' : Db) : Prop :=
  db_stock db' = db_stock db /\ db_reservations db' = db_reservations db.

Lemma same_inventory_ledger db db' : same_inventory db db' -> Ledger db -> Ledger db'.
Proof.
  intros [Hs Hr] HL. destruct HL as [H1 H2 H3 H4].
  split; unfold held; rewrite ?Hs, ?Hr; done.
Qed.
Lemma same_inventory_conserved db db' : same_inventory db db' -> conserved db db'.
Proof. intros [Hs Hr] ks s Hks. exists s. unfold consumed_units. by rewrite Hs, Hr. Qed.

(** The JOIN after the stock row has been written. *)
Lemma find_stock_put db t v l ks s s' :
  Ledger db -> db_stock db !! ks = Some s -> stock_at t v l ks s = true ->
  st_variant_id s' = st_variant_id s -> st_location_id s' = st_location_id s ->
  find_stock (put_stock ks s' db) t v l = Some (ks, s').
Proof.
  intros HL Hs Hw Hv Hl.
  assert (Hw' : stock_at t v l ks s' = true) by (unfold stock_at in *; by rewrite Hv, Hl).
  destruct (find_stock (put_stock ks s' db) t v l) as [[k1 s1]|] eqn:E.
  - apply find_stock_some in E as (H1 & Ht & Hv1 & Hl1). simpl in H1.
    apply lookup_insert_Some in H1 as [[<- <-]|[Hne H1]]; [done|]. exfalso. apply Hne.
    apply stock_at_spec in Hw as (? & ? & ?). eapply (lg_unique _ HL); [done|done|..]; congruence.
  - pose proof (find_stock_none _ _ _ _ E ks s') as Hn. simpl in Hn.
    rewrite lookup_insert_eq in Hn. rewrite Hn in Hw' by done. done.
Qed.
