(* ===== verification/InventoryApi.v ===== *)
(** The inventory service's application and HTTP layers
    (services/inventory/src/application.rs and api.rs) over the transactions of
    InventoryService, and the service's theorems. *)

From stdpp Require Import relations.
From S2P Require Import Prelude Values Propagation Database InventoryService InventoryLedger.
Import Text Propagation Schema Transactions InventoryDomain Inventory InventoryLedger.

(** ** Application *)

Inductive ApplicationError : Type :=
| Invalid (e : ValidationError)
| Operation (e : InvError).

(** [acquire; begin; body; commit] with [anyhow] errors *)
Definition inv_run {A} (fault : option tx_fault) (now : Z) (locked : key -> bool)
    (body : Txn InvError A) (db : Db) : result InvError A * Db :=
  run_tx (Failure "postgres pool wait exceeded 2000 ms") Failure Failure fault now locked body db.

(** The connections the scenario controls take before the transaction. *)
Definition scenario_connections (p : ReserveQuery) : nat :=
  (if (0 <? rq_hold_ms p)%Z then 1 else 0) + (if (0 <? rq_slow p)%Z then 1 else 0)
  + Z.to_nat (Z.min (rq_db_n1 p) MAX_DB_N1).

(** The first of them that fails; [io] gives each one's error. *)
Fixpoint scenario_failure (io : nat -> option string) (n : nat) : option string :=
  match n with
  | O => None
  | S n' => match scenario_failure io n' with
            | Some m => Some m
            | None => io n'
            end
  end.

Definition infrastructure_reserve (io : nat -> option string) (fault : option tx_fault) (now : Z)
    (locked : key -> bool) (p : ReserveQuery) (db : Db) :
    result InvError (option ReserveOutcome) * Db :=
  match scenario_failure io (scenario_connections p) with
  | Some m => (Err (Failure m), db)
  | None =>
      if rq_fail p then (Err (Failure "fault injection: reservation rejected"), db)
      else inv_run fault now locked (reserve_tx p) db
  end.

Definition app_result {A} (checked : result ValidationError unit)
    (run : Db -> result InvError A * Db) (db : Db) : result ApplicationError A * Db :=
  match checked with
  | Err e => (Err (Invalid e), db)
  | Ok _ => let '(r, db') := run db in (res_map_err Operation r, db')
  end.

Definition reserve io fault now locked (p : ReserveQuery) : Db -> result ApplicationError (option ReserveOutcome) * Db :=
  app_result (validate_reserve p) (infrastructure_reserve io fault now locked p).
Definition release fault now locked (b : ReleaseBody) : Db -> result ApplicationError (option ReleaseOutcome) * Db :=
  app_result (validate_release b) (inv_run fault now locked (release_tx b)).
Definition consume fault now locked (b : ConsumeBody) : Db -> result ApplicationError ConsumeOutcome * Db :=
  app_result (validate_consume b) (inv_run fault now locked (consume_tx b)).
Definition reap_expired_reservations fault now locked : Db -> result InvError Z * Db :=
  inv_run fault now locked reap_tx.

(** ** HTTP *)

Definition response : Type := Z * json.

Definition invalid_response (error : string) (e : ValidationError) : response :=
  (400, JObj [("error", JStr error); ("field", JStr (ve_field e)); ("message", JStr (ve_reason e))]).

(** [release_inner] *)
Definition release_identity (b : ReleaseBody) : list (string * json) :=
  [("tenant_id", JStr (lb_tenant_id b)); ("reservation_id", JStr (lb_reservation_id b));
   ("sku", JStr (lb_sku b))].
Definition release_response (b : ReleaseBody)
    (r : result ApplicationError (option ReleaseOutcome)) : response :=
  match r with
  | Err (Invalid e) => invalid_response "invalid_release_request" e
  | Ok (Some o) =>
      (200, JObj (release_identity b ++
        [("location_id", JStr (lo_location_id o)); ("requested", JNum (lb_quantity b));
         ("released", JNum (lo_released o)); ("reserved_remaining", JNum (lo_reserved_remaining o));
         ("available", JNum (lo_available o)); ("status", JStr (lo_status o))]))
  | Ok None =>
      (404, JObj (("error", JStr "reservation_not_found") :: release_identity b ++
        [("message", JStr "reservation does not exist for the tenant")]))
  | Err (Operation (Conflict code message)) =>
      (409, JObj (("error", JStr code) :: release_identity b ++ [("message", JStr message)]))
  | Err (Operation (Failure _)) =>
      (503, JObj (("error", JStr "inventory_unavailable") :: release_identity b))
  end.

(** [reserve_inner] *)
Definition reserve_identity (p : ReserveQuery) : list (string * json) :=
  [("tenant_id", JStr (rq_tenant_id p)); ("reservation_id", JStr (rq_reservation_id p));
   ("sku", JStr (rq_sku p))].
Definition reserve_response (p : ReserveQuery)
    (r : result ApplicationError (option ReserveOutcome)) : response :=
  match r with
  | Err (Invalid e) => invalid_response "invalid_reserve_request" e
  | Ok (Some o) =>
      (200, JObj (reserve_identity p ++
        [("reserved", JNum (rq_quantity p)); ("location_id", JStr (ro_location_id o));
         ("remaining", JNum (ro_remaining o)); ("status", JStr (ro_status o))]))
  | Ok None => (409, JObj (("error", JStr "out_of_stock") :: reserve_identity p))
  | Err (Operation (Conflict code message)) =>
      (409, JObj (("error", JStr code) :: reserve_identity p ++ [("message", JStr message)]))
  | Err (Operation (Failure message)) =>
      (503, JObj (("error", JStr (if str_contains "fault injection" message
                                  then "reservation_rejected" else "inventory_unavailable"))
                  :: reserve_identity p))
  end.

(** [consume_inner] *)
Definition consume_response (b : ConsumeBody)
    (r : result ApplicationError ConsumeOutcome) : response :=
  match r with
  | Err (Invalid e) => invalid_response "invalid_consume_request" e
  | Ok o =>
      (200, JObj [("tenant_id", JStr (cb_tenant_id b)); ("consumed", JNum (co_consumed o));
                  ("reservation_count", JNum (Z.of_nat (length (cb_reservations b))));
                  ("status", JStr (co_status o))])
  | Err (Operation (Conflict code message)) =>
      (if String.eqb code "reservation_not_found" then 404 else 409,
       JObj [("error", JStr code); ("tenant_id", JStr (cb_tenant_id b)); ("message", JStr message)])
  | Err (Operation (Failure _)) =>
      (503, JObj [("error", JStr "inventory_unavailable"); ("tenant_id", JStr (cb_tenant_id b))])
  end.

Definition tenant_identity_error (e : TenantIdentityError) : response :=
  let '(status, code, message) :=
    match e with
    | TenantMissing => (400, "tenant_required",
        "tenant_id is required in the request or tenant.id baggage")
    | TenantInvalid => (400, "invalid_identity", "tenant identity is invalid")
    | TenantConflicting => (409, "identity_conflict", "tenant identity sources conflict")
    end in
  (status, JObj [("error", JStr code); ("field", JStr "tenant_id"); ("message", JStr message)]).

(** [(!tenant.trim().is_empty()).then_some(tenant)] *)
Definition requested_tenant (t : string) : option string := if is_blank t then None else Some t.

Definition reserve_get io fault now locked (h : headers) (p : ReserveQuery) (db : Db) : response * Db :=
  match resolve_http_tenant_identity h (requested_tenant (rq_tenant_id p)) with
  | Err e => (tenant_identity_error e, db)
  | Ok tenant =>
      let p := mkReserveQuery tenant (rq_reservation_id p) (rq_sku p) (rq_quantity p) (rq_slow p)
                 (rq_db_n1 p) (rq_hold_ms p) (rq_fail p) (rq_checkout_request_id p)
                 (rq_checkout_lease_token p) in
      let '(r, db') := reserve io fault now locked p db in (reserve_response p r, db')
  end.

(** The POST body carries no scenario controls. *)
Definition reserve_post io fault now locked (h : headers) (b : ReserveBody) : Db -> response * Db :=
  reserve_get io fault now locked h
    (mkReserveQuery (rb_tenant_id b) (rb_reservation_id b) (rb_sku b) (rb_quantity b) 0 0 0 false
       (rb_checkout_request_id b) (rb_checkout_lease_token b)).

Definition release_post fault now locked (h : headers) (b : ReleaseBody) (db : Db) : response * Db :=
  match resolve_http_tenant_identity h (requested_tenant (lb_tenant_id b)) with
  | Err e => (tenant_identity_error e, db)
  | Ok tenant =>
      let b := mkReleaseBody tenant (lb_reservation_id b) (lb_sku b) (lb_quantity b)
                 (lb_location_id b) (lb_checkout_request_id b) (lb_checkout_lease_token b) in
      let '(r, db') := release fault now locked b db in (release_response b r, db')
  end.

Definition consume_post fault now locked (h : headers) (b : ConsumeBody) (db : Db) : response * Db :=
  match resolve_http_tenant_identity h (requested_tenant (cb_tenant_id b)) with
  | Err e => (tenant_identity_error e, db)
  | Ok tenant =>
      let b := mkConsumeBody tenant (cb_checkout_request_id b) (cb_checkout_lease_token b)
                 (cb_reservations b) in
      let '(r, db') := consume fault now locked b db in (consume_response b r, db')
  end.

(** ** Every operation is a sequence of ledger steps *)

Lemma inv_run_moves {A} (m : Txn InvError A) fault now locked db r db' :
  refines m -> Ledger db -> inv_run fault now locked m db = (r, db') -> moves db db'.
Proof.
  intros Hm HL H. apply run_tx_cases in H as [->|[a Ha]]; [reflexivity|]. by eapply Hm.
Qed.

Lemma reserve_moves io fault now locked p db r db' :
  fits_u32 (rq_quantity p) = true -> Ledger db ->
  reserve io fault now locked p db = (r, db') -> moves db db'.
Proof.
  intros Hu HL. unfold reserve, app_result, infrastructure_reserve, fits_u32 in *.
  destruct (validate_reserve p) as [u|e] eqn:Ev; [|by intros [= _ <-]].
  destruct (scenario_failure _ _); [by intros [= _ <-]|]. destruct (rq_fail p); [by intros [= _ <-]|].
  destruct (inv_run _ _ _ _ _) as [r0 d] eqn:Er. intros [= _ <-].
  eapply inv_run_moves; [apply refines_reserve|done|done].
  unfold validate_reserve in Ev. res_inv. bool_inv. lia.
Qed.

Lemma release_moves fault now locked b db r db' :
  Ledger db -> release fault now locked b db = (r, db') -> moves db db'.
Proof.
  intros HL. unfold release, app_result. destruct (validate_release b); [|by intros [= _ <-]].
  destruct (inv_run _ _ _ _ _) as [r0 d] eqn:Er. intros [= _ <-].
  by eapply inv_run_moves; [apply refines_release|..].
Qed.

Lemma consume_moves fault now locked b db r db' :
  Ledger db -> consume fault now locked b db = (r, db') -> moves db db'.
Proof.
  intros HL. unfold consume, app_result. destruct (validate_consume b) as [[]|] eqn:Ev; [|by intros [= _ <-]].
  destruct (inv_run _ _ _ _ _) as [r0 d] eqn:Er. intros [= _ <-].
  eapply inv_run_moves; [apply refines_consume|done|done]. by apply validate_consume_ok in Ev as [? _].
Qed.

(** Only the first hundred expired, unlocked holds are taken, each of them
    once. *)
Definition reap_rows (now : Z) (locked : key -> bool) (db : Db) : list (key * ReservationRow) :=
  firstn REAPER_BATCH_SIZE (foldr insert_row []
    (List.filter (fun kr => expired_hold now kr.1 kr.2 && negb (locked kr.1))
       (map_to_list (db_reservations db)))).

Lemma reap_candidate now locked db kr :
  kr ∈ reap_rows now locked db ->
  db_reservations db !! kr.1 = Some kr.2 /\ expired_hold now kr.1 kr.2 = true /\ locked kr.1 = false.
Proof.
  unfold reap_rows. rewrite list_elem_of_In. intros Hin.
  assert (Hin' : In kr (foldr insert_row [] (List.filter (fun kr => expired_hold now kr.1 kr.2
    && negb (locked kr.1)) (map_to_list (db_reservations db))))).
  { rewrite <- (firstn_skipn REAPER_BATCH_SIZE (foldr insert_row [] _)). apply in_or_app. by left. }
  apply list_elem_of_In in Hin'. rewrite sort_rows_perm in Hin'. apply list_elem_of_In in Hin'.
  apply filter_In in Hin' as [Hin' Hw]. bool_inv. apply list_elem_of_In in Hin'. destruct kr.
  by apply elem_of_map_to_list in Hin'.
Qed.

Lemma NoDup_fst_filter {A B} (w : A * B -> bool) (l : list (A * B)) :
  NoDup l.*1 -> NoDup (List.filter w l).*1.
Proof.
  induction l as [|x l IH]; simpl; [done|]. intros [Hn Hd]%NoDup_cons.
  destruct (w x); simpl; [|by apply IH]. apply NoDup_cons. split; [|by apply IH].
  intros Hin. apply Hn. apply list_elem_of_fmap in Hin as (y & -> & Hin). apply list_elem_of_fmap.
  exists y. split; [done|]. apply list_elem_of_In in Hin. apply filter_In in Hin as [Hin _].
  by apply list_elem_of_In.
Qed.

Lemma reap_rows_nodup now locked db : NoDup (map fst (reap_rows now locked db)).
Proof.
  unfold reap_rows. match goal with |- NoDup (map fst (firstn ?n ?l)) =>
    apply (NoDup_app (map fst (firstn n l)) (map fst (skipn n l))); rewrite <- map_app, firstn_skipn end.
  match goal with |- NoDup (map fst ?l) => change (NoDup l.*1) end.
  rewrite sort_rows_perm. apply NoDup_fst_filter. apply NoDup_fst_map_to_list.
Qed.

Lemma reap_one_ok env db k r u db' :
  Ledger db -> db_reservations db !! k = Some r -> expired_hold (te_now env) k r = true ->
  reap_one k r env db = Ok (u, db') -> move db db'
  /\ forall k', k' <> k -> db_reservations db' !! k' = db_reservations db !! k'.
Proof.
  intros HL Hr Hexp H. pose proof Hexp as Hst. unfold expired_hold, has_status in Hst. bool_inv.
  unfold reap_one in H. tx_inv. destruct k as [t i]. simpl in *.
  destruct (find_stock db t (rv_variant_id r) (rv_location_id r)) as [[ks s]|] eqn:Ef.
  - apply find_stock_some in Ef as (Hs & Ht & Hv & Hl).
    assert (Hg : goods_at ks s (t, i) r) by done.
    pose proof (stock_at_goods _ _ _ _ _ Hg) as Hat. on_stock. on_row. split.
    + by apply release_move.
    + intros k' Hne. by rewrite put_reservation_others.
  - exfalso. match goal with Hu : update_stock _ _ _ _ _ _ _ = _ |- _ =>
      unfold update_stock in Hu end. tx_inv.
    match goal with Hu : sql_update_where _ _ _ _ _ = _ |- _ =>
      apply sql_update_where_ok in Hu as [Hn _] end.
    rewrite update_rows_none in Hn; [done|]. intros k' s' Hs'.
    by rewrite (find_stock_none _ _ _ _ Ef _ _ Hs').
Qed.

Lemma reap_all_moves env rows n db m db' :
  Ledger db -> NoDup (map fst rows) ->
  Forall (fun kr => db_reservations db !! kr.1 = Some kr.2
                    /\ expired_hold (te_now env) kr.1 kr.2 = true) rows ->
  reap_all rows n env db = Ok (m, db') -> moves db db'.
Proof.
  revert n db. induction rows as [|[k r] rows IH]; intros n db HL Hnd Hall H; simpl in H.
  { tx_inv. reflexivity. }
  inversion Hnd as [|? ? Hni Hnd']; subst. inversion Hall as [|? ? [Hr Hexp] Hall']; subst. tx_inv.
  match goal with Hr1 : reap_one _ _ _ _ = _ |- _ =>
    apply reap_one_ok in Hr1 as [Hm Hoth]; [|done..] end.
  eapply rtc_l; [done|]. eapply IH; [by eapply move_ledger|done| |done].
  apply Forall_forall. intros [k' r'] Hin. rewrite Forall_forall in Hall'.
  destruct (Hall' _ Hin) as [Hk' He']. split; [|done]. simpl in *. rewrite Hoth; [done|].
  intros ->. apply Hni. apply list_elem_of_In, in_map_iff. exists (k, r').
  split; [done|]. by apply list_elem_of_In.
Qed.

Lemma reap_rows_spec now locked db :
  Forall (fun kr => db_reservations db !! kr.1 = Some kr.2 /\ expired_hold now kr.1 kr.2 = true)
    (reap_rows now locked db).
Proof. apply Forall_forall. intros kr Hin. by apply reap_candidate in Hin as (? & ? & _). Qed.

Lemma refines_reap : refines reap_tx.
Proof.
  intros env db a db' HL H. eapply reap_all_moves; [done| |apply reap_rows_spec|exact H].
  apply reap_rows_nodup.
Qed.

(** ** The service as a transition system *)

(** One request or sweep, under any fault and any outcome, or a transaction of
    another service. *)
Inductive inventory_step (db : Db) : Db -> Prop :=
| StepReserve io fault now locked h p resp db' :
    fits_u32 (rq_quantity p) = true ->
    reserve_get io fault now locked h p db = (resp, db') -> inventory_step db db'
| StepRelease fault now locked h b resp db' :
    release_post fault now locked h b db = (resp, db') -> inventory_step db db'
| StepConsume fault now locked h b resp db' :
    consume_post fault now locked h b db = (resp, db') -> inventory_step db db'
| StepReap fault now locked r db' :
    reap_expired_reservations fault now locked db = (r, db') -> inventory_step db db'
| StepOther db' : same_inventory db db' -> inventory_step db db'.

Lemma inventory_step_moves db db' :
  Ledger db -> inventory_step db db' -> moves db db' \/ same_inventory db db'.
Proof.
  intros HL Hs. destruct Hs as [io fault now locked h p resp db' Hq H|fault now locked h b resp db' H
    |fault now locked h b resp db' H|fault now locked r db' H|db' H]; [left..|by right].
  - unfold reserve_get in H. case_any; [|by injection H as _ <-].
    match type of H with (let '(_, _) := ?x in _) = _ => destruct x as [r d] eqn:Er end.
    injection H as _ <-. by eapply reserve_moves in Er.
  - unfold release_post in H. case_any; [|by injection H as _ <-].
    match type of H with (let '(_, _) := ?x in _) = _ => destruct x as [r d] eqn:Er end.
    injection H as _ <-. by eapply release_moves in Er.
  - unfold consume_post in H. case_any; [|by injection H as _ <-].
    match type of H with (let '(_, _) := ?x in _) = _ => destruct x as [r d] eqn:Er end.
    injection H as _ <-. by eapply consume_moves in Er.
  - by eapply inv_run_moves; [apply refines_reap|..].
Qed.

Lemma inventory_step_keeps db db' : Ledger db -> inventory_step db db' -> Ledger db' /\ conserved db db'.
Proof.
  intros HL Hs. apply inventory_step_moves in Hs as [Hm|Ho]; [| |done].
  - split; [by eapply moves_ledger|by apply moves_conserved].
  - split; [by eapply same_inventory_ledger|by apply same_inventory_conserved].
Qed.

Lemma inventory_steps_keep db db' : rtc inventory_step db db' -> Ledger db -> Ledger db' /\ conserved db db'.
Proof.
  induction 1 as [d|d1 d2 d3 Hs _ IH]; intros HL; [split; [done|reflexivity]|].
  destruct (inventory_step_keeps _ _ HL Hs) as [H2 Hc]. destruct (IH H2) as [H3 Hc'].
  split; [done|]. by etransitivity.
Qed.

Lemma final_step db db' k r :
  Ledger db -> inventory_step db db' -> db_reservations db !! k = Some r -> rv_status r = IConsumed ->
  exists r', db_reservations db' !! k = Some r' /\ rv_status r' = IConsumed /\ same_goods r r'
    /\ rv_owner_request_id r' = rv_owner_request_id r.
Proof.
  intros HL Hs Hk Hst. apply inventory_step_moves in Hs as [Hm|[_ Ho]]; [| |done].
  - by eapply moves_consumed_final.
  - exists r. rewrite Ho. done.
Qed.

(** ** A database for the witnesses *)

Module Demo.
Definition attempt : AttemptRow :=
  mkAttempt "fp" AStarted "lease-1" (Some 900) None None None None None 0.
Definition stock0 : StockRow := mkStock "v-1" "loc-1" 5 2 0.
Definition reservation0 : ReservationRow :=
  mkReservation "SKU-1" "v-1" "loc-1" 2 IReserved 100 None None (Some "req-1") (Some "lease-1") 0.
Definition db0 : Db :=
  set_reservations {[ ("t-1", "res-1") := reservation0 ]}
    (set_stock {[ ("t-1", "stock-1") := stock0 ]}
      (set_attempts {[ ("t-1", "req-1") := attempt ]}
        (set_variants {[ ("t-1", "SKU-1") := mkVariantProduct "v-1" "p-1" "One" "Product" true true ]}
          (mkDb ∅ ∅ ∅ ∅ ∅ ∅ ∅ ∅ ∅ ∅ ∅ ∅ ∅ {[ ("t-1", "loc-1") := mkLocation "A" true ]} ∅)))).
Definition free (k : key) : bool := false.

Lemma single {V} (k k' : key) (v v' : V) :
  ({[ k := v ]} : gmap key V) !! k' = Some v' -> k' = k /\ v' = v.
Proof. intros [<- <-]%lookup_singleton_Some. done. Qed.

Lemma db0_ledger : Ledger db0.
Proof.
  split.
  - intros k k' s s' [-> ->]%single [-> ->]%single. done.
  - intros k s [-> ->]%single. simpl. lia.
  - intros k s [-> ->]%single. vm_compute. done.
  - intros k r [-> ->]%single. vm_compute. done.
Qed.

Lemma db0_stocked : stocked db0.
Proof. intros k r [-> ->]%single. exists ("t-1", "stock-1"), stock0. done. Qed.

Definition consume_body : ConsumeBody :=
  mkConsumeBody "t-1" (Some "req-1") (Some "lease-1")
    [mkConsumeReservation "res-1" "SKU-1" 2 None].
Definition consumed0 : Db := (consume None 10 free consume_body db0).2.
Definition release_body : ReleaseBody :=
  mkReleaseBody "t-1" "res-1" "SKU-1" 2 None (Some "req-1") (Some "lease-1").
Definition reserve_query : ReserveQuery :=
  mkReserveQuery "t-1" "res-2" "SKU-1" 3 0 0 0 false (Some "req-1") (Some "lease-1").
End Demo.

(** ** Properties *)



(** A consumed reservation is final: no later request, sweep or
    concurrent transaction releases it, changes its goods or its owner. *)
Theorem consumed_final db db' k r :
  Ledger db -> rtc inventory_step db db' ->
  db_reservations db !! k = Some r -> rv_status r = IConsumed ->
  exists r', db_reservations db' !! k = Some r' /\ rv_status r' = IConsumed /\ same_goods r r'
    /\ rv_owner_request_id r' = rv_owner_request_id r.
Proof.
  intros HL Hs. revert r HL. induction Hs as [d|d1 d2 d3 Hs _ IH]; intros r HL Hk Hst; [by exists r|].
  destruct (final_step _ _ _ _ HL Hs Hk Hst) as (r1 & Hr1 & Hs1 & (?&?&?&?) & Ho1).
  destruct (inventory_step_keeps _ _ HL Hs) as [HL2 _].
  destruct (IH _ HL2 Hr1 Hs1) as (r2 & Hr2 & Hs2 & (?&?&?&?) & Ho2).
  exists r2. unfold same_goods. split_and!; congruence.
Qed.

Lemma consumed_final_witness :
  exists r', db_reservations Demo.consumed0 !! ("t-1", "res-1") = Some r' /\ rv_status r' = IConsumed
    /\ same_goods (with_lifecycle IConsumed None (Some 10) 10 Demo.reservation0) r'
    /\ rv_owner_request_id r' = Some "req-1".
Proof.
  apply (consumed_final Demo.consumed0 Demo.consumed0 ("t-1", "res-1")
    (with_lifecycle IConsumed None (Some 10) 10 Demo.reservation0)).
  - eapply inventory_steps_keep; [|apply Demo.db0_ledger]. apply rtc_once.
    eapply (StepConsume _ None 10 Demo.free [] Demo.consume_body). vm_compute. reflexivity.
  - reflexivity.
  - vm_compute. reflexivity.
  - reflexivity.
Defined.

(** A fault that lets the transaction's statements run. *)
Definition statements_run (fault : option tx_fault) : bool :=
  match fault with
  | Some FPoolTimeout | Some (FPool _) | Some (FStatement _) => false
  | _ => true
  end.

Lemma inv_run_err {A} (m : Txn InvError A) fault now locked db e :
  statements_run fault = true -> m (mkTxenv now Failure locked) db = Err e ->
  inv_run fault now locked m db = (Err e, db).
Proof.
  intros Hf Hm. unfold inv_run, run_tx. destruct fault as [[]|]; try done; by rewrite Hm.
Qed.

Lemma lock_stale t rid tok now locked db :
  checkout_fence_current db now t rid tok = false ->
  lock_current_checkout_fence t rid tok (mkTxenv now Failure locked) db
  = Err (lease_lost "authoritative checkout fence is no longer current").
Proof.
  intros Hc. unfold lock_current_checkout_fence, tx_bind, tx_now, tx_read, tx_ensure, tx_lift. simpl.
  by rewrite Hc.
Qed.

Definition stale_fence (fault : option tx_fault) (now : Z) (tenant : string)
    (request token : option string) (db : Db) : Prop :=
  statements_run fault = true
  /\ match request, token with
     | Some request, Some token => checkout_fence_current db now tenant request token = false
     | _, _ => False
     end.



(** a consume request that succeeds has consumed every reservation it
    lists, all owned by its checkout request and nothing else, reports exactly
    the units that were not consumed before, and is a no-op when there were
    none, so that a retry after a lost acknowledgement neither fails nor takes
    stock twice. *)
Theorem consume_sound fault now locked b o db db' :
  Ledger db -> consume fault now locked b db = (Ok o, db') ->
  exists request, cb_checkout_request_id b = Some request
  /\ all_consumed (cb_tenant_id b) request (cb_reservations b) db'
  /\ co_consumed o = fresh_units (cb_tenant_id b) db (cb_reservations b)
  /\ (forall k, (forall c, In c (cb_reservations b) -> k <> (cb_tenant_id b, cv_reservation_id c)) ->
      db_reservations db' !! k = db_reservations db !! k)
  /\ (co_consumed o = 0 <-> co_status o = "already_consumed")
  /\ (co_consumed o = 0 -> db' = db).
Proof.
  intros HL H. unfold consume, app_result in H. destruct (validate_consume b) as [[]|] eqn:Ev; [|done].
  apply validate_consume_ok in Ev as (Hnd & _).
  destruct (inv_run _ _ _ _ _) as [[o'|] d] eqn:Er; [|done]. injection H as <- <-.
  apply run_tx_ok in Er as [-> Er]. unfold consume_tx in Er. tx_inv.
  match goal with Hf : lock_current_checkout_fence _ _ _ _ _ = _ |- _ =>
    apply lock_fence_ok in Hf as [-> _] end.
  pose proof (sort_by_id_perm (cb_reservations b)) as Hp.
  match goal with Hc : consume_all _ _ _ _ _ _ _ = _ |- _ =>
    apply consume_all_ok in Hc as (_ & Hall & -> & Hoth & Hnone); [|done|by rewrite Hp] end.
  assert (Hf : fresh_units (cb_tenant_id b) db (sort_by_id (cb_reservations b))
    = fresh_units (cb_tenant_id b) db (cb_reservations b)).
  { unfold fresh_units. apply (foldr_permutation_proper eq _ _); [|exact Hp].
    intros c1 c2 acc. repeat case_match; lia. }
  eexists. split; [done|]. rewrite Z.add_0_l, Hf in *. simpl. split_and!.
  - unfold all_consumed in *. by rewrite <- Hp.
  - done.
  - intros k Hk. apply Hoth. intros Hin. apply in_map_iff in Hin as (c & <- & Hin).
    apply (Hk c); [|done]. apply list_elem_of_In. apply list_elem_of_In in Hin. by rewrite <- Hp.
  - destruct (Z.eqb_spec (fresh_units (cb_tenant_id b) db (cb_reservations b)) 0); split; done.
  - done.
Qed.

Lemma consume_sound_witness :
  exists request, cb_checkout_request_id Demo.consume_body = Some request
  /\ all_consumed "t-1" request (cb_reservations Demo.consume_body) Demo.consumed0
  /\ 2 = fresh_units "t-1" Demo.db0 (cb_reservations Demo.consume_body)
  /\ (forall k, (forall c, In c (cb_reservations Demo.consume_body) -> k <> ("t-1", cv_reservation_id c)) ->
      db_reservations Demo.consumed0 !! k = db_reservations Demo.db0 !! k)
  /\ (2 = 0 <-> "consumed" = "already_consumed")
  /\ (2 = 0 -> Demo.consumed0 = Demo.db0).
Proof.
  apply (consume_sound None 10 Demo.free Demo.consume_body (mkConsumeOutcome 2 "consumed")).
  - apply Demo.db0_ledger.
  - vm_compute. reflexivity.
Defined.

(** A release request that names the reservation as it is. *)
Definition names_reservation (b : ReleaseBody) (r : ReservationRow) : Prop :=
  rv_sku r = lb_sku b /\ rv_quantity r = i32_or_max (lb_quantity b)
  /\ match lb_location_id b with Some l => l = rv_location_id r | None => True end
  /\ rv_owner_request_id r = lb_checkout_request_id b.

Lemma release_checks b r request :
  names_reservation b r -> lb_checkout_request_id b = Some request ->
  (String.eqb (rv_sku r) (lb_sku b) && (rv_quantity r =? i32_or_max (lb_quantity b))
     && match lb_location_id b with
        | Some requested => String.eqb requested (rv_location_id r)
        | None => true
        end) = true /\ owned_by request r = true.
Proof.
  intros (-> & -> & Hl & Ho) Hreq. rewrite String.eqb_refl, Z.eqb_refl. split.
  - destruct (lb_location_id b) as [l|]; [subst; by rewrite String.eqb_refl|done].
  - apply opt_is_true. congruence.
Qed.

Lemma fence_passes t rid tok (env : txenv InvError) db :
  checkout_fence_current db (te_now env) t rid tok = true ->
  lock_current_checkout_fence t rid tok env db = Ok (tt, db).
Proof.
  intros Hc. unfold lock_current_checkout_fence, tx_bind, tx_now, tx_read, tx_ensure, tx_lift.
  by rewrite Hc.
Qed.

Lemma joined_run t i (env : txenv InvError) db r ks s :
  Ledger db -> db_reservations db !! (t, i) = Some r -> db_stock db !! ks = Some s ->
  goods_at ks s (t, i) r -> joined_reservation t i env db = Ok (Some (r, s), db).
Proof.
  intros HL Hr Hs Hg. unfold joined_reservation, read_stock, tx_bind, sql_get, tx_read. simpl.
  rewrite Hr. by rewrite (find_stock_unique _ _ _ _ ks s HL Hs (stock_at_goods _ _ _ _ _ Hg)).
Qed.

(** Rebinding a live hold, or leaving it. *)
Lemma release_rebind_run b request lease r env db :
  db_reservations db !! (lb_tenant_id b, lb_reservation_id b) = Some r ->
  owned_by request r = true ->
  exists r1, release_rebind b request lease r env db
    = Ok (tt, put_reservation (lb_tenant_id b, lb_reservation_id b) r1 db)
  /\ same_goods r r1 /\ rv_status r1 = rv_status r /\ rv_owner_request_id r1 = rv_owner_request_id r
  /\ (rv_status r <> IReserved -> r1 = r) /\ moves db (put_reservation (lb_tenant_id b, lb_reservation_id b) r1 db).
Proof.
  intros Hr Hown. unfold release_rebind. tx_run.
  destruct (has_status IReserved r) eqn:Est; [destruct (opt_is (rv_owner_lease_token r) lease)|]; simpl.
  2:{ eexists. split.
      - erewrite tx_bind_run by (eapply sql_update_run; [done|by rewrite Est, Hown]).
        reflexivity.
      - split_and!; try done; [|apply rtc_once; by apply rebind_moves].
        intros Hne. by rewrite has_status_ne in Est. }
  all: exists r; rewrite put_same_reservation by done; split_and!; try done; reflexivity.
Qed.

(** The release of a live hold on the row and the stock row in hand. *)
Lemma release_hold_run b request env db r r1 ks s :
  Ledger db -> db_reservations db !! (lb_tenant_id b, lb_reservation_id b) = Some r1 ->
  same_goods r r1 -> rv_status r1 = IReserved -> owned_by request r1 = true ->
  db_stock db !! ks = Some s -> goods_at ks s (lb_tenant_id b, lb_reservation_id b) r ->
  release_hold b request r env db
  = Ok (mkReleaseOutcome (rv_location_id r) (rv_quantity r) (st_reserved s - rv_quantity r)
          (available_quantity s + rv_quantity r) "released",
        put_reservation (lb_tenant_id b, lb_reservation_id b)
          (with_lifecycle IReleased (Some (te_now env)) None (te_now env) r1)
          (put_stock ks (hold_less (rv_quantity r) (te_now env) s) db)).
Proof.
  intros HL Hr1 Hg1 Hst Hown Hs Hg. pose proof (stock_at_goods _ _ _ _ _ Hg) as Hat.
  pose proof (hold_covered _ _ _ _ _ HL Hr1 Hst Hs (goods_at_same _ _ _ _ _ Hg Hg1)) as Hq.
  pose proof Hg1 as (_ & _ & _ & Hqq). rewrite Hqq in Hq. apply Z.leb_le in Hq.
  unfold release_hold, read_stock. tx_run.
  erewrite tx_bind_run by (by apply update_stock_run with (ks := ks) (s := s)). tx_run.
  rewrite (find_stock_put db _ _ _ ks s) by done. simpl.
  erewrite tx_bind_run by (eapply sql_update_run; [done|by rewrite has_status_eq, Hown]).
  tx_run. unfold tx_ret. do 3 f_equal. unfold available_quantity. simpl. lia.
Qed.

(** The transaction of a release that holds the fence. *)
Lemma release_tx_run b env db request lease r ks s :
  Ledger db -> lb_checkout_request_id b = Some request -> lb_checkout_lease_token b = Some lease ->
  checkout_fence_current db (te_now env) (lb_tenant_id b) request lease = true ->
  db_reservations db !! (lb_tenant_id b, lb_reservation_id b) = Some r -> names_reservation b r ->
  db_stock db !! ks = Some s -> goods_at ks s (lb_tenant_id b, lb_reservation_id b) r ->
  match rv_status r with
  | IReleased =>
     release_tx b env db = Ok (Some (mkReleaseOutcome (rv_location_id r) 0 (st_reserved s)
                                       (available_quantity s) "already_released"), db)
  | IConsumed =>
     release_tx b env db = Err (Conflict "reservation_consumed" "a consumed reservation cannot be released")
  | IReserved => exists r',
     release_tx b env db = Ok (Some (mkReleaseOutcome (rv_location_id r) (rv_quantity r)
         (st_reserved s - rv_quantity r) (available_quantity s + rv_quantity r) "released"),
       put_reservation (lb_tenant_id b, lb_reservation_id b) r'
         (put_stock ks (hold_less (rv_quantity r) (te_now env) s) db))
     /\ same_goods r r' /\ rv_status r' = IReleased /\ rv_owner_request_id r' = rv_owner_request_id r
  end.
Proof.
  intros HL Hreq Hlease Hc Hr Hn Hs Hg. destruct (release_checks _ _ _ Hn Hreq) as [H1 H2].
  destruct (release_rebind_run b request lease r env db Hr H2) as (r1 & Hreb & Hg1 & Hs1 & Ho1 & Hsame & Hm).
  assert (Hpre : release_tx b env db = tx_bind (release_existing b request lease r s)
    (fun o => tx_ret (Some o)) env db).
  { unfold release_tx. rewrite Hreq, Hlease. simpl ok_or. tx_run.
    rewrite (tx_bind_run _ _ _ _ tt db) by (by apply fence_passes).
    by rewrite (tx_bind_run _ _ _ _ (Some (r, s)) db) by (by eapply joined_run). }
  rewrite Hpre. clear Hpre. unfold tx_bind.
  assert (Hex : forall res, release_existing b request lease r s env db = res -> res
    = match rv_status r with
      | IReleased => tx_ret (mkReleaseOutcome (rv_location_id r) 0 (st_reserved s)
                               (available_quantity s) "already_released")
      | IConsumed => tx_fail (Conflict "reservation_consumed" "a consumed reservation cannot be released")
      | IReserved => release_hold b request r
      end env (put_reservation (lb_tenant_id b, lb_reservation_id b) r1 db)).
  { intros res <-. unfold release_existing. tx_run. by rewrite (tx_bind_run _ _ _ _ _ _ Hreb). }
  rewrite (Hex _ eq_refl). clear Hex.
  destruct (rv_status r) eqn:Hst; [|by rewrite Hsame, put_same_reservation by done|done].
  assert (Hown1 : owned_by request r1 = true) by (unfold owned_by in *; by rewrite Ho1).
  rewrite (release_hold_run b request env _ r r1 ks s); [|by eapply moves_ledger
    |apply lookup_put_reservation|done|congruence|done..].
  exists (with_lifecycle IReleased (Some (te_now env)) None (te_now env) r1).
  unfold tx_ret. split; [|done]. do 2 f_equal.
  unfold put_reservation, put_stock, set_stock, set_reservations. simpl. by rewrite insert_insert_eq.
Qed.

(** releasing a live hold under its owner's current fence always succeeds,
    gives the units back to the stock row exactly once, and marks the
    reservation released; sending the same request again (the retry of a lost
    answer, at any later time the fence is still current) reports
    already_released and changes nothing. *)
Theorem release_effect now locked b db r ks s request lease :
  Ledger db -> validate_release b = Ok tt ->
  lb_checkout_request_id b = Some request -> lb_checkout_lease_token b = Some lease ->
  checkout_fence_current db now (lb_tenant_id b) request lease = true ->
  db_reservations db !! (lb_tenant_id b, lb_reservation_id b) = Some r ->
  names_reservation b r -> rv_status r = IReserved ->
  db_stock db !! ks = Some s -> goods_at ks s (lb_tenant_id b, lb_reservation_id b) r ->
  exists db' r',
    release None now locked b db
    = (Ok (Some (mkReleaseOutcome (rv_location_id r) (rv_quantity r)
         (st_reserved s - rv_quantity r) (available_quantity s + rv_quantity r) "released")), db')
    /\ db_stock db' = <[ks := hold_less (rv_quantity r) now s]> (db_stock db)
    /\ db_reservations db' = <[(lb_tenant_id b, lb_reservation_id b) := r']> (db_reservations db)
    /\ same_goods r r' /\ rv_status r' = IReleased
    /\ (forall now' locked', checkout_fence_current db now' (lb_tenant_id b) request lease = true ->
        release None now' locked' b db'
        = (Ok (Some (mkReleaseOutcome (rv_location_id r) 0 (st_reserved s - rv_quantity r)
             (available_quantity s + rv_quantity r) "already_released")), db')).
Proof.
  intros HL Hv Hreq Hlease Hc Hr Hn Hst Hs Hg.
  pose proof (release_tx_run b (mkTxenv now Failure locked) db request lease r ks s
    HL Hreq Hlease Hc Hr Hn Hs Hg) as H1. rewrite Hst in H1.
  destruct H1 as (r' & Htx & Hsg & Hst' & Hown).
  set (db' := put_reservation _ r' _) in Htx. simpl in db'. exists db', r'.
  assert (Hm : moves db db') by (eapply refines_release; [done|exact Htx]).
  unfold release, app_result. rewrite Hv. unfold inv_run, run_tx. rewrite Htx.
  split_and!; [done..|]. intros now' locked' Hc'. destruct Hsg as (Hsg1 & Hsg2 & Hsg3 & Hsg4).
  pose proof (release_tx_run b (mkTxenv now' Failure locked') db' request lease r' ks
    (hold_less (rv_quantity r) now s)) as H2. rewrite Hst' in H2. rewrite H2.
  - rewrite Hsg3. simpl. do 5 f_equal. unfold available_quantity. simpl. lia.
  - by eapply moves_ledger.
  - done.
  - done.
  - simpl. by rewrite (moves_fence _ _ _ _ _ _ Hm).
  - simpl. apply lookup_insert_eq.
  - unfold names_reservation in *. by rewrite Hsg1, Hsg3, Hsg4, Hown.
  - simpl. apply lookup_insert_eq.
  - unfold goods_at in *. simpl. by rewrite Hsg2, Hsg3.
Qed.

Lemma release_effect_witness :
  exists db' r',
    release None 10 Demo.free Demo.release_body Demo.db0
    = (Ok (Some (mkReleaseOutcome "loc-1" 2 0 5 "released")), db')
    /\ db_stock db' = <[("t-1", "stock-1") := hold_less 2 10 Demo.stock0]> (db_stock Demo.db0)
    /\ db_reservations db' = <[("t-1", "res-1") := r']> (db_reservations Demo.db0)
    /\ same_goods Demo.reservation0 r' /\ rv_status r' = IReleased
    /\ (forall now' locked', checkout_fence_current Demo.db0 now' "t-1" "req-1" "lease-1" = true ->
        release None now' locked' Demo.release_body db'
        = (Ok (Some (mkReleaseOutcome "loc-1" 0 0 5 "already_released")), db')).
Proof.
  apply (release_effect 10 Demo.free Demo.release_body Demo.db0 Demo.reservation0
    ("t-1", "stock-1") Demo.stock0 "req-1" "lease-1"); try reflexivity; [apply Demo.db0_ledger|..].
  - split_and!; reflexivity.
  - split_and!; reflexivity.
Defined.

Lemma reap_rows_length now locked db :
  length (reap_rows now locked db)
  = Nat.min REAPER_BATCH_SIZE (length (List.filter (fun kr => expired_hold now kr.1 kr.2
      && negb (locked kr.1)) (map_to_list (db_reservations db)))).
Proof. unfold reap_rows. by rewrite length_firstn, sort_rows_perm. Qed.

(** A batch that is not full holds every candidate. *)
Lemma reap_rows_complete now locked db k r :
  (length (reap_rows now locked db) < REAPER_BATCH_SIZE)%nat ->
  db_reservations db !! k = Some r -> expired_hold now k r = true -> locked k = false ->
  In k (map fst (reap_rows now locked db)).
Proof.
  intros Hlen Hr Hexp Hl. rewrite reap_rows_length in Hlen. apply in_map_iff. exists (k, r).
  split; [done|]. unfold reap_rows. rewrite firstn_all2 by (rewrite sort_rows_perm; lia).
  apply list_elem_of_In. rewrite sort_rows_perm. apply list_elem_of_In. apply filter_In. simpl.
  rewrite Hexp, Hl. split; [|done]. by apply list_elem_of_In, elem_of_map_to_list.
Qed.



(** What a successful reservation leaves. *)
Definition reservation_held (p : ReserveQuery) (now : Z) (db' : Db) : Prop :=
  exists r, db_reservations db' !! (rq_tenant_id p, rq_reservation_id p) = Some r
  /\ rv_sku r = rq_sku p /\ rv_quantity r = i32_or_max (rq_quantity p)
  /\ rv_owner_request_id r = rq_checkout_request_id p
  /\ (rv_status r = IConsumed
      \/ rv_status r = IReserved /\ now < rv_expires_at r
         /\ rv_owner_lease_token r = rq_checkout_lease_token p).

Lemma update_stock_frame t v l g f env db n db' :
  update_stock t v l g f env db = Ok (n, db') -> db_reservations db' = db_reservations db.
Proof.
  unfold update_stock. intros H. tx_inv.
  match goal with Hu : sql_update_where _ _ _ _ _ = _ |- _ => apply sql_update_where_ok in Hu as [_ ->] end.
  done.
Qed.

Lemma reserve_existing_held p request lease r s env db o db' :
  rq_checkout_request_id p = Some request -> rq_checkout_lease_token p = Some lease ->
  db_reservations db !! (rq_tenant_id p, rq_reservation_id p) = Some r ->
  reserve_existing p request lease r s env db = Ok (o, db') ->
  reservation_held p (te_now env) db' /\ ro_location_id o = rv_location_id r.
Proof.
  intros Hreq Hlease Hr H. unfold reserve_existing in H. tx_inv. bool_inv.
  match goal with Ho : owned_by _ _ = true |- _ => apply opt_is_true in Ho as Hown end.
  unfold reservation_held. rewrite Hreq, Hlease. destruct (rv_status r) eqn:Hst; tx_inv.
  - split; [|done]. case_any; tx_inv.
    + on_row. eexists. split; [apply lookup_put_reservation|]. simpl. split_and!; [done..|].
      right. unfold RESERVATION_HOLD, seconds. split_and!; [done|lia|done].
    + bool_inv. exists r. split_and!; [done..|]. right. split_and!; [done|done|].
      by apply opt_is_true.
  - split; [|done].
    match goal with Hu : update_stock _ _ _ _ _ _ _ = _ |- _ => apply update_stock_frame in Hu as Hfr end.
    match goal with Hu : read_stock _ _ _ _ _ = _ |- _ => unfold read_stock in Hu end. tx_inv.
    rewrite <- Hfr in Hr. on_row. eexists. split; [apply lookup_put_reservation|]. simpl.
    split_and!; [done..|]. right. unfold RESERVATION_HOLD, seconds. split_and!; [done|lia|done].
  - split; [|done]. exists r. split_and!; [done..|]. by left.
Qed.

Lemma reserve_new_held p env db o db' :
  0 < rq_quantity p <= MAX_RESERVE_QUANTITY -> reserve_new p env db = Ok (o, db') ->
  match o with
  | Some o => reservation_held p (te_now env) db' /\ 0 <= ro_remaining o
  | None => db' = db /\ candidate db p = None
  end.
Proof.
  intros Hq H. unfold reserve_new in H. tx_inv.
  destruct (candidate db p) as [[ks s]|] eqn:Ec; tx_inv; [|done].
  unfold candidate in Ec. destruct (db_variants db !! _) as [v|]; [|done].
  destruct (vp_variant_active v); [|done]. apply first_by_some in Ec as [Hs Hw]. bool_inv.
  unfold reservation_held, MAX_RESERVE_QUANTITY in *. split; [|simpl; lia].
  eexists. split; [simpl; apply lookup_insert_eq|]. simpl. split_and!; [done| |done|].
  - unfold i32_or_max, fits_i32, i32_min, i32_max. rewrite !(proj2 (Z.leb_le _ _)) by lia. done.
  - right. unfold RESERVATION_HOLD, seconds. split_and!; [done|lia|done].
Qed.

(** a reserve request that succeeds leaves a reservation of exactly the
    requested goods and quantity that belongs to the checkout request, either
    already consumed or live, unexpired and bound to the caller's lease, so the
    caller may go on to pay; one that answers out of stock changed nothing. *)
Theorem reserve_sound io fault now locked p o db db' :
  fits_u32 (rq_quantity p) = true ->
  reserve io fault now locked p db = (Ok o, db') ->
  match o with
  | Some o => reservation_held p now db'
  | None => db' = db
  end.
Proof.
  intros Hu H. unfold reserve, app_result, infrastructure_reserve in H.
  destruct (validate_reserve p) as [u|e] eqn:Ev; [|done].
  destruct (scenario_failure _ _); [done|]. destruct (rq_fail p); [done|].
  destruct (inv_run _ _ _ _ _) as [[o'|] d] eqn:Er; [|done]. injection H as <- <-.
  apply run_tx_ok in Er as [-> Er]. unfold reserve_tx in Er. tx_inv.
  match goal with Hf : lock_current_checkout_fence _ _ _ _ _ = _ |- _ =>
    apply lock_fence_ok in Hf as [-> _] end.
  match goal with Hj : joined_reservation _ _ _ _ = _ |- _ =>
    apply joined_reservation_ok in Hj as [-> Hj'] end.
  case_any.
  - case_any. tx_inv. destruct (Hj' _ _ eq_refl) as (Hr & _).
    match goal with Hx : reserve_existing _ _ _ _ _ _ _ = _ |- _ =>
      eapply reserve_existing_held in Hx as [Hx _]; [exact Hx|done|done|done] end.
  - match goal with Hx : reserve_new _ _ _ = _ |- _ => apply reserve_new_held in Hx end.
    + destruct o'; naive_solver.
    + unfold validate_reserve, fits_u32 in *. res_inv. bool_inv. unfold MAX_RESERVE_QUANTITY in *. lia.
Qed.

Lemma reserve_sound_witness :
  reservation_held Demo.reserve_query 10
    (reserve (fun _ => None) None 10 Demo.free Demo.reserve_query Demo.db0).2.
Proof.
  apply (reserve_sound (fun _ => None) None 10 Demo.free Demo.reserve_query
    (Some (mkReserveOutcome "loc-1" 0 "reserved")) Demo.db0); vm_compute; reflexivity.
Defined.
