(* ===== verification/CheckoutDomain.v ===== *)
(** The checkout service's types, request validation and boundary errors
    (services/checkout/src/domain.rs, and the validators of application.rs). *)

From S2P Require Import Prelude Proto Propagation.

(** ** Constants *)

Definition CHECKOUT_ATTEMPT_STALE_AFTER : Z := seconds (10 * 60).
Definition PAYMENT_RECONCILIATION_STALE_AFTER : Z := seconds (5 * 60).
Definition PAYMENT_RECONCILIATION_RETRY_BASE : Z := 2.
Definition PAYMENT_RECONCILIATION_MAX_ATTEMPTS : Z := 8.
Definition COMPENSATION_STALE_AFTER : Z := seconds (5 * 60).
Definition COMPENSATION_RETRY_BASE : Z := 2.
Definition COMPENSATION_MAX_ATTEMPTS : Z := 3.
Definition COMPENSATION_ERROR_LIMIT : nat := 1000.
Definition MAX_ITEMS : Z := 50.
Definition MAX_QUANTITY : Z := 100.
Definition MAX_IDENTIFIER_LENGTH : Z := 128.

(** ** Errors: an HTTP status, a code and a message *)

Record ApiError : Type := mkApiError { ae_status : Z; ae_code : string; ae_message : string }.

#[export] Instance ApiError_eq_dec : EqDecision ApiError.
Proof. solve_decision. Defined.

Definition BAD_REQUEST : Z := 400.
Definition NOT_FOUND : Z := 404.
Definition CONFLICT : Z := 409.
Definition UNPROCESSABLE_ENTITY : Z := 422.
Definition INTERNAL_SERVER_ERROR : Z := 500.
Definition BAD_GATEWAY : Z := 502.
Definition SERVICE_UNAVAILABLE : Z := 503.
Definition GATEWAY_TIMEOUT : Z := 504.

Definition is_provider_failure (e : ApiError) : bool :=
  one_of (ae_code e) ["payment_provider_unavailable"; "payment_timeout"; "payment_internal"].

Definition is_ambiguous_payment_failure (e : ApiError) : bool :=
  is_provider_failure e || String.eqb (ae_code e) "payment_protocol_error".

Definition ApiResult : Type -> Type := result ApiError.

(** ** Requests and orders *)

Record CheckoutItemInput : Type := mkCheckoutItem { ii_sku : string; ii_quantity : Z }.

Record CheckoutInput : Type := mkCheckoutInput {
  in_tenant_id : string;
  in_customer_id : string;
  in_session_id : option string;
  in_cart_id : option string;
  in_items : list CheckoutItemInput;
  in_currency_code : string;
  in_promotion_code : option string;
  in_segment : string;
  in_tier : string;
  in_region : string;
  in_priority : string;
  in_payment_method_token : option string;
  in_payment_method_type : option string;
  in_request_id : option string;
  in_delay_ms : Z;
  in_slow : Z;
  in_retry : Z;
  in_timeout_ms : Z;
  in_degrade : bool
}.

Record OrderLine : Type := mkOrderLine {
  ln_product_id : string; ln_variant_id : string; ln_sku : string;
  ln_product_name : string; ln_quantity : Z; ln_unit_price_minor : Z
}.

Record PendingOrder : Type := mkPendingOrder {
  pd_id : string;
  pd_order_number : string;
  pd_cart_id : string;
  pd_tenant_id : string;
  pd_customer_id : string;
  pd_session_id : string;
  pd_currency : string;
  pd_lines : list OrderLine;
  pd_subtotal_minor : Z;
  pd_discount_minor : Z;
  pd_tax_minor : Z;
  pd_total_minor : Z;
  pd_promotion_code : option string
}.

(** ** Leases, fences and work items *)

Record CheckoutLease : Type := mkCheckoutLease {
  cl_tenant_id : string; cl_request_id : string; cl_token : string
}.

Inductive CheckoutFence : Type :=
| Attempt (lease : CheckoutLease)
| PaymentReconciliation (tenant_id request_id parent_token worker_token : string)
| Compensation (tenant_id request_id token task_id claim_token : string).

Definition fence_tenant_id (f : CheckoutFence) : string :=
  match f with
  | Attempt lease => cl_tenant_id lease
  | PaymentReconciliation t _ _ _ => t
  | Compensation t _ _ _ _ => t
  end.
Definition fence_request_id (f : CheckoutFence) : string :=
  match f with
  | Attempt lease => cl_request_id lease
  | PaymentReconciliation _ r _ _ => r
  | Compensation _ r _ _ _ => r
  end.
(** The generation of the parent attempt the fence is bound to. *)
Definition fence_token (f : CheckoutFence) : string :=
  match f with
  | Attempt lease => cl_token lease
  | PaymentReconciliation _ _ parent _ => parent
  | Compensation _ _ token _ _ => token
  end.

Record PaymentAuthorization : Type := mkPaymentAuthorization {
  pa_payment_id : string;
  pa_operation_status : PaymentOperationStatus;
  pa_failure_reason : PaymentFailureReason
}.

Inductive AuthorizationRecovery : Type :=
| Recovered (a : PaymentAuthorization)
| Absent
| Pending
| Failed (e : ApiError).

Record PaymentSnapshot : Type := mkPaymentSnapshot {
  ps_authorized_minor : Z;
  ps_currency : string;
  ps_status : PaymentStatus;
  ps_failure_reason : PaymentFailureReason;
  ps_captured_minor : Z;
  ps_refunded_minor : Z
}.

Record PaymentReconciliationJob : Type := mkReconciliationJob {
  rj_tenant_id : string;
  rj_request_id : string;
  rj_order_id : string;
  rj_authorize_request_id : string;
  rj_payment_id : option string;
  rj_merchant_reference : string;
  rj_amount_minor : Z;
  rj_currency : string;
  rj_method_type : string;
  rj_feature_variant : string;
  rj_attempts : Z;
  rj_lease_token : string;
  rj_parent_lease_token : string;
  rj_carrier : option string * option string * option string
}.

Inductive PendingPaymentOutcome : Type :=
| Retry
| PCompleted (payload : json)
| PFailed (e : ApiError).

Record InventoryReservation : Type := mkInventoryReservation {
  ir_reservation_id : string; ir_sku : string; ir_quantity : Z; ir_location_id : option string
}.

Inductive CheckoutAttemptClaim : Type :=
| ClaimNew (lease_token : string)
| ClaimPending (payload : json)
| ClaimReplay (payload : json)
| ClaimInProgress
| ClaimFailed (e : ApiError).

(** ** Defaults *)

Definition default_currency : string := "USD".
Definition default_segment : string := "standard".
Definition default_tier : string := "free".
Definition default_region : string := "us-east-1".
Definition default_priority : string := "normal".
Definition default_timeout_ms : Z := 1000.

Local Open Scope result_scope.

(** ** Identity *)

Definition valid_identity_component (value : string) : bool :=
  negb (is_blank value) && (str_len value <=? MAX_IDENTIFIER_LENGTH) && negb (has_control value).

(** [if let (Some(a), Some(b)) = ... && a != b] *)
Definition disagree (a b : option string) : bool :=
  match a, b with
  | Some a, Some b => negb (String.eqb a b)
  | _, _ => false
  end.

Definition resolve_tenant_id (c : Context) (requested : string) : ApiResult string :=
  let requested := if is_blank requested then None else Some (trim requested) in
  let propagated := non_empty (baggage_get c "tenant.id") in
  ensure (negb (disagree requested propagated))
    (mkApiError CONFLICT "identity_conflict"
       "tenant identity conflicts with propagated request identity") ;;
  tenant <- ok_or (match requested with Some t => Some t | None => propagated end)
              (mkApiError BAD_REQUEST "tenant_required"
                 "tenant_id is required in the request or tenant.id baggage") ;;
  ensure (valid_identity_component tenant)
    (mkApiError BAD_REQUEST "invalid_identity" "tenant_id is invalid") ;;
  Ok tenant.

Definition require_customer_id (requested : option string) : ApiResult string :=
  customer <- ok_or (non_empty (trim <$> requested))
                (mkApiError BAD_REQUEST "customer_required" "customer_id is required") ;;
  ensure (valid_identity_component customer)
    (mkApiError BAD_REQUEST "invalid_identity" "customer_id is invalid") ;;
  Ok customer.

Definition resolve_session_id (c : Context) (requested : option string) :
    ApiResult (option string) :=
  let requested := non_empty requested in
  let propagated := non_empty (baggage_get c "session.id") in
  ensure (match requested with Some v => valid_identity_component v | None => true end)
    (mkApiError BAD_REQUEST "invalid_session" "session_id is invalid") ;;
  ensure (negb (disagree requested propagated))
    (mkApiError CONFLICT "identity_conflict"
       "session identity conflicts with propagated request identity") ;;
  Ok (match requested with Some s => Some s | None => propagated end).

Definition resolve_checkout_identity (c : Context) (tenant : string) (session : option string)
    (fallback_session : string) : ApiResult (string * string) :=
  tenant <- resolve_tenant_id c tenant ;;
  session <- resolve_session_id c session ;;
  let session := default fallback_session session in
  ensure (valid_identity_component session)
    (mkApiError BAD_REQUEST "invalid_session" "session_id is invalid") ;;
  Ok (tenant, session).

(** ** Cart requests *)

Record CartItemScope : Type := mkCartItemScope {
  cs_tenant_id : string; cs_customer_id : string; cs_cart_id : string
}.

Definition validate_scope (s : CartItemScope) : ApiResult unit :=
  ensure (valid_identity_component (cs_tenant_id s) && valid_identity_component (cs_customer_id s)
          && valid_identity_component (cs_cart_id s))
    (mkApiError BAD_REQUEST "invalid_cart_scope" "tenant_id, customer_id, and cart_id are required").

Definition validate_cart_sku (sku : string) : ApiResult unit :=
  ensure (negb (is_blank sku)) (mkApiError BAD_REQUEST "invalid_cart_sku" "sku is required").

Definition validate_replacement (s : CartItemScope) (quantity : Z) (sku : string) : ApiResult Z :=
  validate_scope s ;;
  validate_cart_sku sku ;;
  ensure (negb ((quantity <? 1) || (MAX_QUANTITY <? quantity)))
    (mkApiError BAD_REQUEST "invalid_cart_quantity"
       ("quantity must be between 1 and " +:+ show_Z MAX_QUANTITY)) ;;
  Ok quantity.

(** ** Payment credentials *)

Definition require_payment_credentials (input : CheckoutInput) : ApiResult (string * string) :=
  token <- ok_or (non_blank (in_payment_method_token input))
             (mkApiError BAD_REQUEST "payment_method_required" "payment_method_token is required") ;;
  ensure (valid_identity_component token)
    (mkApiError BAD_REQUEST "invalid_payment_method_token" "payment_method_token is invalid") ;;
  method <- ok_or (non_blank (in_payment_method_type input))
              (mkApiError BAD_REQUEST "payment_method_required" "payment_method_type is required") ;;
  ensure (one_of (to_ascii_lowercase (trim method)) ["card"; "bank_account"; "bank-account"; "wallet"])
    (mkApiError BAD_REQUEST "invalid_payment_method_type" "payment_method_type is unsupported") ;;
  Ok (token, method).

(** ** The checkout request *)

Definition unbounded_fault_requested (input : CheckoutInput) : bool :=
  (3 <? in_retry input) || (30000 <? in_timeout_ms input).

Definition bounded_identifier (value : string) : bool :=
  negb (is_blank value) && (str_len value <=? MAX_IDENTIFIER_LENGTH) && negb (has_control value).

Definition bounded_option (o : option string) : bool :=
  match o with Some v => bounded_identifier v | None => true end.

(** The loop over the items, with the SKUs seen so far. *)
Fixpoint check_items (items : list CheckoutItemInput) (skus : list string) : ApiResult unit :=
  match items with
  | [] => Ok tt
  | item :: rest =>
      ensure (bounded_identifier (ii_sku item))
        (mkApiError BAD_REQUEST "invalid_sku" "each item needs a valid SKU") ;;
      ensure (negb ((ii_quantity item =? 0) || (MAX_QUANTITY <? ii_quantity item)))
        (mkApiError BAD_REQUEST "invalid_quantity"
           "each item needs a quantity from one to one hundred") ;;
      ensure (negb (one_of (ii_sku item) skus))
        (mkApiError BAD_REQUEST "duplicate_sku" "each SKU may appear only once in a checkout") ;;
      check_items rest (ii_sku item :: skus)
  end.

Definition validate_input (input : CheckoutInput) : ApiResult unit :=
  ensure (bounded_identifier (in_tenant_id input) && bounded_identifier (in_customer_id input))
    (mkApiError BAD_REQUEST "invalid_identity" "tenant_id and customer_id are required") ;;
  ensure (bounded_option (in_session_id input))
    (mkApiError BAD_REQUEST "invalid_session" "session_id is invalid") ;;
  ensure (bounded_option (in_cart_id input))
    (mkApiError BAD_REQUEST "invalid_cart" "cart_id is invalid") ;;
  ensure (bounded_option (in_request_id input))
    (mkApiError BAD_REQUEST "invalid_request_id" "request_id is invalid") ;;
  ensure (bounded_option (in_promotion_code input))
    (mkApiError BAD_REQUEST "invalid_promotion" "promotion_code is invalid") ;;
  ensure ((str_len (in_currency_code input) =? 3)
          && String.eqb (in_currency_code input) (to_ascii_uppercase (in_currency_code input))
          && str_forallb is_alphabetic (in_currency_code input))
    (mkApiError BAD_REQUEST "invalid_currency" "currency_code must be three uppercase letters") ;;
  ensure (negb (bool_decide (in_items input = []))
          && (Z.of_nat (length (in_items input)) <=? MAX_ITEMS))
    (mkApiError BAD_REQUEST "invalid_items" "checkout needs between one and fifty items") ;;
  check_items (in_items input) [].

(** ** The fingerprint of a request

    [json_text] is serde_json's printer and [sha256_hex] the hexadecimal
    SHA-256 digest, both outside the source. *)

Definition option_json (o : option string) : json :=
  match o with Some s => JStr s | None => JNull end.

Definition item_json (i : CheckoutItemInput) : json :=
  JObj [("sku", JStr (ii_sku i)); ("quantity", JNum (ii_quantity i))].

Definition fingerprint_json (input : CheckoutInput) : json :=
  JObj [("tenant_id", JStr (in_tenant_id input));
        ("customer_id", JStr (in_customer_id input));
        ("session_id", option_json (in_session_id input));
        ("cart_id", option_json (in_cart_id input));
        ("items", JArr (map item_json (in_items input)));
        ("currency_code", JStr (in_currency_code input));
        ("promotion_code", option_json (in_promotion_code input));
        ("segment", JStr (in_segment input));
        ("tier", JStr (in_tier input));
        ("region", JStr (in_region input));
        ("priority", JStr (in_priority input));
        ("payment_method_token", option_json (in_payment_method_token input));
        ("payment_method_type", option_json (in_payment_method_type input));
        ("delay_ms", JNum (in_delay_ms input));
        ("slow", JNum (in_slow input));
        ("retry", JNum (in_retry input));
        ("timeout_ms", JNum (in_timeout_ms input));
        ("degrade", JBool (in_degrade input))].

Definition checkout_request_fingerprint (json_text : json -> string) (sha256_hex : string -> string)
    (input : CheckoutInput) : string :=
  sha256_hex (json_text (fingerprint_json input)).

(** ** Error codes a failed attempt replays *)

Definition replayed_codes : list string :=
  ["amount_out_of_range"; "catalog_protocol_error"; "catalog_query_failed"; "catalog_unavailable";
   "database_timeout"; "database_unavailable"; "event_encode_failed"; "event_protocol_error";
   "invalid_cart_item"; "invalid_cart"; "invalid_currency"; "invalid_identity"; "invalid_items";
   "invalid_quantity"; "invalid_request_id"; "invalid_session"; "inventory_release_failed";
   "inventory_release_unavailable"; "inventory_protocol_error"; "inventory_reservation_failed";
   "inventory_unavailable"; "inventory_commit_failed"; "inventory_commit_unavailable";
   "inventory_commit_protocol_error"; "checkout_post_consume_reconciliation";
   "checkout_reconciliation_required"; "messaging_rejected"; "messaging_unavailable";
   "order_not_found"; "payment_already_processed"; "payment_declined"; "payment_failed";
   "payment_insufficient_funds"; "payment_internal"; "payment_invalid_method";
   "payment_invalid_request"; "payment_invalid_state"; "payment_not_found"; "payment_pending";
   "payment_protocol_error"; "payment_provider_unavailable"; "payment_reconciliation_failed";
   "payment_reconciliation_pending"; "payment_timeout"; "pricing_failed";
   "pricing_invalid_request"; "pricing_protocol_error"; "pricing_timeout"; "pricing_unavailable";
   "product_not_found"; "recommendation_protocol_error"; "recommendation_unavailable"].

Definition replay_error_code (code : string) : string :=
  if one_of code replayed_codes then code else "checkout_request_failed".

Definition checkout_variant_includes_recommendation (variant : string) : bool :=
  negb (String.eqb variant "control").

Local Close Scope result_scope.

(** ** What an accepted checkout request satisfies *)

Definition item_ok (i : CheckoutItemInput) : Prop :=
  bounded_identifier (ii_sku i) = true /\ ii_quantity i <> 0 /\ ii_quantity i <= 100.

Record input_ok (input : CheckoutInput) : Prop := {
  io_tenant : bounded_identifier (in_tenant_id input) = true;
  io_customer : bounded_identifier (in_customer_id input) = true;
  io_optional : bounded_option (in_session_id input) = true
    /\ bounded_option (in_cart_id input) = true /\ bounded_option (in_request_id input) = true
    /\ bounded_option (in_promotion_code input) = true;
  io_currency : str_len (in_currency_code input) = 3
    /\ to_ascii_uppercase (in_currency_code input) = in_currency_code input
    /\ str_forallb is_alphabetic (in_currency_code input) = true;
  io_count : (1 <= length (in_items input) <= 50)%nat;
  io_items : Forall item_ok (in_items input);
  io_unique : NoDup (map ii_sku (in_items input))
}.

Lemma check_items_ok items seen :
  check_items items seen = Ok tt <->
  Forall item_ok items /\ NoDup (map ii_sku items)
  /\ (forall s, In s seen -> ~ In s (map ii_sku items)).
Proof.
  revert seen. induction items as [|i items IH]; intros seen; simpl.
  { split; [|done]. intros _. split_and!; [constructor|constructor|naive_solver]. }
  repeat setoid_rewrite res_bind_ok.
  setoid_rewrite ensure_ok. setoid_rewrite IH. unfold MAX_QUANTITY. split.
  - intros (_ & Hb & _ & Hq & _ & Hs & Hall & Hnd & Hfresh). bool_inv.
    apply not_true_iff_false in Hs. rewrite one_of_In in Hs. split_and!.
    + constructor; [|done]. split_and!; [done|done|lia].
    + constructor; [|done]. rewrite list_elem_of_In. apply Hfresh. by left.
    + intros s Hin [<-|Hin']; [done|]. by apply (Hfresh s); [right|].
  - intros (Hall & Hnd & Hfresh). inversion Hall as [|? ? (Hb & H0 & H1) Hall']; subst.
    inversion Hnd as [|? ? Hni Hnd']; subst. exists tt. split; [done|]. exists tt. split.
    { apply Z.eqb_neq in H0 as ->. apply Z.ltb_ge in H1 as ->. done. }
    exists tt. split.
    { apply negb_true_iff, not_true_iff_false. rewrite one_of_In. intros Hin.
      by apply (Hfresh _ Hin); left. }
    split_and!; [done|done|]. intros s [<-|Hin] Hin'.
    + apply Hni. by apply list_elem_of_In.
    + by apply (Hfresh _ Hin); right.
Qed.

(** The validator accepts exactly the well-formed requests. *)
Lemma validate_input_spec input : validate_input input = Ok tt <-> input_ok input.
Proof.
  unfold validate_input. split.
  - intros H. repeat match type of H with res_bind _ _ = _ =>
      apply res_bind_ok in H as ([] & ?%ensure_ok & H) end.
    apply check_items_ok in H as (? & ? & _). unfold MAX_ITEMS in *. bool_inv. split; try done.
    destruct (in_items input); [done|]. cbn [length] in *. lia.
  - intros [Ht Hc (Hs & Hk & Hr & Hp) (H1 & H2 & H3) Hn Hi Hu].
    rewrite Ht, Hc, Hs, Hk, Hr, Hp, H2, H3, String.eqb_refl. simpl.
    rewrite H1. simpl. rewrite bool_decide_false by (by intros E; rewrite E in Hn; simpl in Hn; lia).
    unfold MAX_ITEMS. rewrite (proj2 (Z.leb_le _ _)) by lia. simpl.
    apply check_items_ok. split_and!; [done|done|naive_solver].
Qed.
