(* ===== verification/CheckoutQuote.v ===== *)
(** What checkout asks of the catalog and of the pricing service, and the
    validation of their answers (services/checkout/src/application.rs,
    [validate_catalog] to [pricing_error]); the refinement theorem that a quote
    the pricing service calculates passes that validation. *)

From S2P Require Import Prelude Proto Propagation PricingDomain PricingService CheckoutDomain.

Local Open Scope result_scope.

(** ** The catalog *)

(** A status with its [Display] text. *)
Record http_status : Type := mkHttpStatus { hs_code : Z; hs_text : string }.

(** The outcome of [send] and [json] on an HTTP request. *)
Inductive http_reply : Type :=
| HttpFailed (m : string)
| HttpNotJson (status : http_status) (m : string)
| HttpJson (status : http_status) (body : json).

Definition is_success (status : http_status) : bool :=
  (200 <=? hs_code status) && (hs_code status <=? 299).

(** serde's decoding of [GraphQlError] and [GraphQlEnvelope] (a struct is read
    from an object, or from an array of its fields): the number of errors. *)
Definition graphql_error_ok (v : json) : bool :=
  match v with
  | JObj _ => match jget "message" v with Some (JStr _) => true | _ => false end
  | JArr [JStr _] => true
  | _ => false
  end.
Definition graphql_errors (v : option json) : option nat :=
  match v with
  | None | Some JNull => Some 0%nat
  | Some (JArr errors) => if forallb graphql_error_ok errors then Some (length errors) else None
  | _ => None
  end.
Definition graphql_envelope (v : json) : option nat :=
  match v with
  | JObj _ => graphql_errors (jget "errors" v)
  | JArr [_; errors] => graphql_errors (Some errors)
  | _ => None
  end.

Definition post_graphql (reply : http_reply) : ApiResult json :=
  match reply with
  | HttpFailed m => Err (mkApiError SERVICE_UNAVAILABLE "catalog_unavailable" m)
  | HttpNotJson _ m => Err (mkApiError BAD_GATEWAY "catalog_protocol_error" m)
  | HttpJson status body =>
      ensure (is_success status)
        (mkApiError SERVICE_UNAVAILABLE "catalog_unavailable"
           ("catalog HTTP status " +:+ hs_text status)) ;;
      errors <- ok_or (graphql_envelope body)
                  (mkApiError BAD_GATEWAY "catalog_protocol_error"
                     "catalog returned an invalid GraphQL envelope") ;;
      ensure (Nat.eqb errors 0)
        (mkApiError BAD_GATEWAY "catalog_query_failed" "catalog GraphQL query failed") ;;
      Ok body
  end.

Definition catalog_variables (input : CheckoutInput) (item : CheckoutItemInput) : json :=
  JObj [("sku", JStr (ii_sku item)); ("tenantId", JStr (in_tenant_id input));
        ("segment", JStr (in_segment input))].

(** One product of [validate_catalog]. *)
Definition catalog_product (item : CheckoutItemInput) (reply : http_reply) : ApiResult json :=
  body <- post_graphql reply ;;
  product <- ok_or (match jget "data" body ≫= jget "product" with
                    | Some JNull => None
                    | p => p
                    end)
               (mkApiError NOT_FOUND "product_not_found" ("unknown catalog SKU: " +:+ ii_sku item)) ;;
  ensure (opt_is (jget_str "sku" product) (ii_sku item))
    (mkApiError NOT_FOUND "product_not_found" ("catalog did not return SKU: " +:+ ii_sku item)) ;;
  Ok product.

(** ** The quote request *)

Definition pricing_context (input : CheckoutInput) (checkout_variant : string) :
    gmap string string :=
  let base : gmap string string :=
    list_to_map [("pricing_strategy", "standard"); ("checkout_variant", checkout_variant);
                 ("customer_segment", in_segment input); ("customer_tier", in_tier input);
                 ("region", in_region input); ("request_priority", in_priority input)] in
  let promoted :=
    match non_empty (in_promotion_code input) with
    | Some code => <["pricing_strategy" := "promotional"]> (<["promotion_code" := code]> base)
    | None => base
    end in
  if 0 <? in_delay_ms input
  then <["delay_ms" := show_Z (Z.min (in_delay_ms input) 30000)]> promoted
  else promoted.

Definition quote_request (input : CheckoutInput) (request_id checkout_variant : string) :
    QuoteRequest :=
  {| qr_request_id := request_id;
     qr_customer_id := in_customer_id input;
     qr_items := map (fun item => mkQuoteItem (ii_sku item) (ii_quantity item)) (in_items input);
     qr_currency_code := in_currency_code input;
     qr_context := pricing_context input checkout_variant;
     qr_payment_method_type := None;
     qr_tenant_id := in_tenant_id input |}.

(** ** The answer *)

Definition protocol_error (m : string) : ApiError :=
  mkApiError BAD_GATEWAY "pricing_protocol_error" m.

Definition quote_money (money : option Money) (currency field : string) : ApiResult Z :=
  money <- ok_or money (protocol_error ("quote has no " +:+ field)) ;;
  ensure (String.eqb (currency_code money) currency)
    (protocol_error ("quote " +:+ field +:+ " currency mismatch")) ;;
  ensure (0 <=? amount_minor money) (protocol_error ("quote " +:+ field +:+ " is negative")) ;;
  Ok (amount_minor money).

Definition i32_amount (amount : Z) : ApiResult Z :=
  if fits_i32 amount then Ok amount
  else Err (mkApiError UNPROCESSABLE_ENTITY "amount_out_of_range"
              "amount exceeds PostgreSQL integer range").

Definition expected_quantities (input : CheckoutInput) : gmap string Z :=
  foldl (fun m item => <[ii_sku item := ii_quantity item]> m) ∅ (in_items input).

(** The loop over the lines: the SKUs seen and the subtotal so far. *)
Fixpoint check_lines (expected : gmap string Z) (currency : string) (lines : list QuoteLine)
    (seen : list string) (subtotal : Z) : ApiResult (list string * Z) :=
  match lines with
  | [] => Ok (seen, subtotal)
  | line :: rest =>
      expected_quantity <- ok_or (expected !! ql_sku line)
                             (protocol_error "pricing returned an unexpected quote line") ;;
      ensure (negb (one_of (ql_sku line) seen) && (ql_quantity line =? expected_quantity))
        (protocol_error "pricing returned duplicate or mismatched quote quantities") ;;
      unit_price <- quote_money (ql_unit_price line) currency "line unit price" ;;
      line_total <- quote_money (ql_line_total line) currency "line total" ;;
      i32_amount unit_price ;;
      i32_amount line_total ;;
      expected_total <- ok_or (checked_mul unit_price (ql_quantity line))
                          (protocol_error "quote line arithmetic overflowed") ;;
      ensure (expected_total =? line_total)
        (protocol_error "quote line amount does not match unit price and quantity") ;;
      subtotal <- ok_or (checked_add subtotal line_total)
                    (protocol_error "quote subtotal arithmetic overflowed") ;;
      check_lines expected currency rest (ql_sku line :: seen) subtotal
  end.

Definition validate_quote_response (input : CheckoutInput) (quote : QuoteResponse) :
    ApiResult unit :=
  ensure (qp_status quote =? QuoteStatus_Ready)
    (protocol_error "pricing returned a quote that is not ready") ;;
  ensure (negb (is_blank (qp_quote_id quote) || is_blank (qp_pricing_version quote)))
    (protocol_error "pricing returned an unidentified quote") ;;
  ensure (negb (qp_valid_for_seconds quote =? 0))
    (protocol_error "pricing returned a quote without an expiration") ;;
  ensure (Nat.eqb (length (qp_lines quote)) (length (in_items input)))
    (protocol_error "pricing returned an incomplete quote") ;;
  let expected := expected_quantities input in
  seen <- check_lines expected (in_currency_code input) (qp_lines quote) [] 0 ;;
  ensure (Nat.eqb (length seen.1) (size expected))
    (protocol_error "pricing omitted a requested quote line") ;;
  subtotal <- quote_money (qp_subtotal quote) (in_currency_code input) "subtotal" ;;
  discount <- quote_money (qp_discount_total quote) (in_currency_code input) "discount" ;;
  tax <- quote_money (qp_tax_total quote) (in_currency_code input) "tax" ;;
  total <- quote_money (qp_grand_total quote) (in_currency_code input) "grand_total" ;;
  ensure ((subtotal =? seen.2) && (discount <=? subtotal))
    (protocol_error "quote totals do not match its lines") ;;
  expected_total <- ok_or (checked_sub subtotal discount ≫= fun amount => checked_add amount tax)
                      (protocol_error "quote total arithmetic overflowed") ;;
  ensure (total =? expected_total) (protocol_error "quote totals do not balance") ;;
  i32_amount subtotal ;;
  i32_amount discount ;;
  i32_amount tax ;;
  i32_amount total ;;
  Ok tt.

Definition pricing_error (s : grpc_status) : ApiError :=
  let '(status, code) :=
    match gs_code s with
    | InvalidArgument => (BAD_REQUEST, "pricing_invalid_request")
    | NotFound => (CheckoutDomain.NOT_FOUND, "product_not_found")
    | DeadlineExceeded => (GATEWAY_TIMEOUT, "pricing_timeout")
    | Unavailable => (SERVICE_UNAVAILABLE, "pricing_unavailable")
    | _ => (BAD_GATEWAY, "pricing_failed")
    end in
  mkApiError status code (gs_message s).

(** ** One call, and the retries *)

(** The channel of the shared client cannot be built, or the call's status. *)
Inductive pricing_reply : Type :=
| NoPricingChannel (m : string)
| PricingAnswer (r : result grpc_status QuoteResponse).

Definition quote_once (input : CheckoutInput) (reply : pricing_reply) : ApiResult QuoteResponse :=
  match reply with
  | NoPricingChannel m => Err (mkApiError SERVICE_UNAVAILABLE "pricing_unavailable" m)
  | PricingAnswer r =>
      quote <- res_map_err pricing_error r ;;
      validate_quote_response input quote ;;
      Ok quote
  end.

Definition quote_retryable (e : ApiError) : bool :=
  (ae_status e =? SERVICE_UNAVAILABLE) || (ae_status e =? GATEWAY_TIMEOUT).

(** [input.retry.min(3) + 1] *)
Definition quote_attempts (input : CheckoutInput) : nat := S (Z.to_nat (Z.min (in_retry input) 3)).

(** [for attempt in 1..=attempts]: [reply n] answers the [n]-th call. *)
Fixpoint quote_attempt (input : CheckoutInput) (reply : nat -> pricing_reply) (attempt : nat)
    (remaining : nat) : ApiResult QuoteResponse :=
  match quote_once input (reply attempt) with
  | Ok quote => Ok quote
  | Err e =>
      match remaining with
      | S remaining' =>
          if quote_retryable e then quote_attempt input reply (S attempt) remaining' else Err e
      | O => Err e
      end
  end.

Definition quote_with_retry (input : CheckoutInput) (reply : nat -> pricing_reply) :
    ApiResult QuoteResponse :=
  quote_attempt input reply 1 (quote_attempts input - 1).

Local Close Scope result_scope.

(** ** What an accepted quote satisfies *)

Definition money_is (m : option Money) (currency : string) (amount : Z) : Prop :=
  m = Some (mkMoney currency amount) /\ 0 <= amount <= i32_max.

Record line_priced (currency : string) (items : list CheckoutItemInput) (line : QuoteLine)
    (unit_price line_total : Z) : Prop := {
  lp_item : In (mkCheckoutItem (ql_sku line) (ql_quantity line)) items;
  lp_unit : money_is (ql_unit_price line) currency unit_price;
  lp_total : money_is (ql_line_total line) currency line_total;
  lp_product : line_total = unit_price * ql_quantity line
}.

Record quote_consistent (input : CheckoutInput) (quote : QuoteResponse)
    (subtotal discount tax total : Z) : Prop := {
  qc_ready : qp_status quote = QuoteStatus_Ready /\ qp_valid_for_seconds quote <> 0;
  qc_count : length (qp_lines quote) = length (in_items input);
  qc_unique : NoDup (map ql_sku (qp_lines quote));
  qc_subtotal : money_is (qp_subtotal quote) (in_currency_code input) subtotal;
  qc_discount : money_is (qp_discount_total quote) (in_currency_code input) discount;
  qc_tax : money_is (qp_tax_total quote) (in_currency_code input) tax;
  qc_total : money_is (qp_grand_total quote) (in_currency_code input) total;
  qc_balance : discount <= subtotal /\ total = subtotal - discount + tax;
  qc_lines : exists totals : list Z,
    Forall2 (fun line t => exists u, line_priced (in_currency_code input) (in_items input) line u t)
      (qp_lines quote) totals /\ subtotal = foldr Z.add 0 totals
}.

Lemma quote_money_ok money currency field n :
  quote_money money currency field = Ok n <-> money = Some (mkMoney currency n) /\ 0 <= n.
Proof.
  unfold quote_money. split.
  - intros H. res_inv. bool_inv. match goal with m : Money |- _ => destruct m end. simpl in *. by subst.
  - intros [-> Hn]. simpl. rewrite String.eqb_refl. simpl. by apply Z.leb_le in Hn as ->.
Qed.

Lemma i32_amount_ok n m : 0 <= n -> i32_amount n = Ok m -> m = n /\ n <= i32_max.
Proof.
  unfold i32_amount, fits_i32. intros Hn H. case_any; [|done]. res_inv. bool_inv. split; [done|lia].
Qed.

Lemma expected_foldl items (m : gmap string Z) sku q :
  foldl (fun m item => <[ii_sku item := ii_quantity item]> m) m items !! sku = Some q ->
  In (mkCheckoutItem sku q) items \/ m !! sku = Some q.
Proof.
  revert m. induction items as [|[s n] items IH]; intros m; simpl; [by right|].
  intros [H|H]%IH; [by left; right|].
  apply lookup_insert_Some in H as [[<- <-]|[_ H]]; [by left; left|by right].
Qed.

Lemma expected_In input sku q :
  expected_quantities input !! sku = Some q -> In (mkCheckoutItem sku q) (in_items input).
Proof. intros [H|H]%expected_foldl; [done|]. by rewrite lookup_empty in H. Qed.

Lemma check_lines_ok input lines seen subtotal r :
  check_lines (expected_quantities input) (in_currency_code input) lines seen subtotal = Ok r ->
  NoDup (map ql_sku lines) /\ (forall s, In s seen -> ~ In s (map ql_sku lines))
  /\ exists totals,
    Forall2 (fun line t => exists u, line_priced (in_currency_code input) (in_items input) line u t)
      lines totals /\ r.2 = subtotal + foldr Z.add 0 totals /\ length r.1 = (length seen + length lines)%nat.
Proof.
  revert seen subtotal. induction lines as [|line lines IH]; intros seen subtotal; simpl.
  { intros [= <-]. split_and!; [constructor|naive_solver|]. exists []. simpl.
    split_and!; [constructor|lia|lia]. }
  intros H. res_inv. unfold checked_mul, checked_add in *.
  repeat match goal with
  | Hm : quote_money _ _ _ = _ |- _ => apply quote_money_ok in Hm as [Hm ?]
  | Hm : i32_amount _ = _ |- _ => apply i32_amount_ok in Hm as [_ ?]; [|done]
  | Hm : i64_checked _ = Some _ |- _ => apply i64_checked_some in Hm as [<- _]
  end.
  bool_inv. subst.
  match goal with Hc : check_lines _ _ _ _ _ = _ |- _ =>
    apply IH in Hc as (Hnd & Hfresh & totals & Hall & Hsum & Hlen) end.
  match goal with Hs : one_of _ _ = false |- _ =>
    apply not_true_iff_false in Hs; rewrite one_of_In in Hs; rename Hs into Hseen end.
  match goal with He : _ !! _ = Some _ |- _ => apply expected_In in He; rename He into Hin end.
  split_and!.
  - constructor; [|done]. rewrite list_elem_of_In. apply Hfresh. by left.
  - intros s Hs [<-|Hin']; [done|]. by apply (Hfresh s); [right|].
  - refine (ex_intro _ (_ :: totals) _). split_and!.
    + constructor; [|done]. eexists. split; [done|split; [done|lia]|split; [done|lia]|done].
    + simpl. lia.
    + simpl in Hlen. lia.
Qed.

Lemma validate_quote_response_ok input quote :
  validate_quote_response input quote = Ok tt ->
  exists subtotal discount tax total, quote_consistent input quote subtotal discount tax total.
Proof.
  unfold validate_quote_response, checked_sub, checked_add. intros H. res_inv.
  repeat match goal with
  | Hm : quote_money _ _ _ = _ |- _ => apply quote_money_ok in Hm as [Hm ?]
  | Hm : i32_amount _ = _ |- _ => apply i32_amount_ok in Hm as [_ ?]; [|done]
  end.
  match goal with Hm : _ ≫= _ = Some _ |- _ =>
    apply bind_Some in Hm as (? & [<- _]%i64_checked_some & [<- _]%i64_checked_some) end.
  match goal with Hc : check_lines _ _ _ _ _ = _ |- _ =>
    apply check_lines_ok in Hc as (Hnd & _ & totals & Hall & Hsum & _) end.
  bool_inv. repeat match goal with Hn : Nat.eqb _ _ = true |- _ => apply Nat.eqb_eq in Hn end.
  subst. match goal with
  | Hs : qp_subtotal _ = Some (mkMoney _ ?s), Hd : qp_discount_total _ = Some (mkMoney _ ?d),
    Ht : qp_tax_total _ = Some (mkMoney _ ?t) |- _ => exists s, d, t, (s - d + t) end.
  split; [done|done|done|split; [done|lia]..|split; [lia|done]|].
  exists totals. split; [done|lia].
Qed.

(** The validator accepts what satisfies it, apart from the identifiers. *)
Lemma quote_money_run currency field n :
  0 <= n -> quote_money (Some (mkMoney currency n)) currency field = Ok n.
Proof. intros Hn. by apply quote_money_ok. Qed.
Lemma i32_amount_run n : 0 <= n <= i32_max -> i32_amount n = Ok n.
Proof. intros Hn. unfold i32_amount, fits_i32, i32_min. by rewrite !(proj2 (Z.leb_le _ _)) by lia. Qed.
Lemma i64_run n : i64_min <= n <= i64_max -> i64_checked n = Some n.
Proof. intros Hn. by apply i64_checked_some. Qed.
Lemma i32_in_i64 n : 0 <= n <= i32_max -> i64_min <= n <= i64_max.
Proof. unfold i32_max, i64_min, i64_max. lia. Qed.

Lemma foldl_lookup_fresh items (m : gmap string Z) sku :
  ~ In sku (map ii_sku items) ->
  foldl (fun m item => <[ii_sku item := ii_quantity item]> m) m items !! sku = m !! sku.
Proof.
  revert m. induction items as [|i items IH]; intros m Hni; simpl in *; [done|].
  rewrite IH by naive_solver. apply lookup_insert_ne. naive_solver.
Qed.

Lemma expected_lookup items (m : gmap string Z) i :
  NoDup (map ii_sku items) -> In i items ->
  foldl (fun m item => <[ii_sku item := ii_quantity item]> m) m items !! ii_sku i = Some (ii_quantity i).
Proof.
  revert m. induction items as [|j items IH]; intros m Hnd; simpl; [done|].
  inversion Hnd as [|? ? Hni Hnd']; subst. intros [-> |Hin]; [|by apply IH].
  rewrite foldl_lookup_fresh by (by rewrite <- list_elem_of_In). apply lookup_insert_eq.
Qed.

Lemma expected_size items (m : gmap string Z) :
  NoDup (map ii_sku items) -> (forall s, In s (map ii_sku items) -> m !! s = None) ->
  size (foldl (fun m item => <[ii_sku item := ii_quantity item]> m) m items)
  = (size m + length items)%nat.
Proof.
  revert m. induction items as [|j items IH]; intros m Hnd Hf; simpl; [lia|].
  inversion Hnd as [|? ? Hni Hnd']; subst. rewrite IH; [|done|].
  - rewrite map_size_insert_None by (apply Hf; by left). lia.
  - intros s Hs. rewrite lookup_insert_ne; [apply Hf; by right|].
    intros <-. apply Hni. by apply list_elem_of_In.
Qed.

(** The loop accepts the lines of a sound quote in the i32 range. *)
Lemma check_lines_priced input currency items lines seen subtotal :
  NoDup (map ii_sku (in_items input)) -> in_currency_code input = currency ->
  (forall i, In i items -> In i (in_items input)) ->
  Forall2 prices_item (map (fun i => mkQuoteItem (ii_sku i) (ii_quantity i)) items) lines ->
  Forall (fun i => 1 <= ii_quantity i <= 100) items ->
  NoDup (map ii_sku items) -> (forall s, In s seen -> ~ In s (map ii_sku items)) ->
  0 <= subtotal -> subtotal + total lines <= i32_max ->
  exists seen', check_lines (expected_quantities input) currency (map (line_to_proto currency) lines)
      seen subtotal = Ok (seen', subtotal + total lines)
    /\ length seen' = (length seen + length items)%nat.
Proof.
  intros Hu Hcur. revert lines seen subtotal.
  induction items as [|i items IH]; intros lines seen subtotal Hin HF Hq Hnd Hfresh Hs Hmax; simpl in HF.
  { inversion HF; subst. exists seen. simpl. rewrite Z.add_0_r. split; [done|lia]. }
  inversion HF as [|? l ? ls (Hsku & Hqty & Hpos & Hprod & _) HF']; subst.
  inversion Hnd as [|? ? Hni Hnd']; subst. inversion Hq as [|? ? Hqi Hq']; subst. simpl in *.
  assert (Htot : 0 <= total ls).
  { apply total_nonneg. eapply (prices_item_nonneg _ _ _ HF'). Unshelve.
    apply Forall_map. eapply Forall_impl; [exact Hq'|]. simpl. lia. }
  assert (Hline : 0 <= cl_line_minor l) by (rewrite Hprod, Hqty; nia).
  assert (Hunit : 0 <= cl_unit_minor l <= i32_max) by (rewrite Hqty in Hprod; nia).
  unfold expected_quantities at 1. rewrite Hsku. simpl ok_or.
  rewrite (expected_lookup _ _ i) by auto. simpl. rewrite Hqty, Z.eqb_refl.
  replace (one_of (ii_sku i) seen) with false.
  2:{ symmetry. apply not_true_iff_false. rewrite one_of_In. intros Hx. apply (Hfresh _ Hx). by left. }
  simpl. rewrite !quote_money_run by lia. simpl. rewrite !i32_amount_run by lia. simpl.
  unfold checked_mul, checked_add. rewrite Hqty in Hprod. rewrite <- Hprod.
  rewrite !i64_run by (apply i32_in_i64; lia). simpl. rewrite Z.eqb_refl. simpl.
  destruct (IH ls (ii_sku i :: seen) (subtotal + cl_line_minor l)) as (seen' & Hrun & Hlen).
  - auto.
  - done.
  - done.
  - done.
  - intros s [<-|Hx] Hin'; [apply Hni; by apply list_elem_of_In|]. apply (Hfresh s Hx). by right.
  - lia.
  - lia.
  - exists seen'. rewrite Hrun. split; [do 2 f_equal; lia|]. simpl in Hlen. lia.
Qed.

Lemma remaining_nonzero q now :
  consume_at q now = Ok tt -> exists n, remaining_validity_seconds q now = Ok n /\ n <> 0.
Proof.
  unfold consume_at. intros H. res_inv. bool_inv. eauto.
Qed.

#[local] Arguments Z.eqb : simpl never.
#[local] Arguments Z.leb : simpl never.

(** ** Properties *)

(** the quote the pricing service calculates for a checkout request is
    accepted by checkout's validation when it reaches it unexpired and its
    amounts fit the database's integers: the two services agree on the
    protocol, line by line and total by total. *)
Theorem pricing_quote_accepted input request_id variant q clock now resp :
  input_ok input -> quote_sound (quote_request input request_id variant) clock q ->
  is_blank request_id = false -> is_blank (cq_pricing_version q) = false ->
  cq_subtotal_minor q <= i32_max ->
  Forall (fun item => 0 <= ii_quantity item) (in_items input) ->
  to_proto_at q now = Ok resp ->
  validate_quote_response input resp = Ok tt.
Proof.
  intros Hin [Hlines [Hsub Hsubm] Hdisc Htot Hcur Hexp Hid] Hblank Hver Hmax Hqty H.
  unfold to_proto_at in H. res_inv. repeat match goal with u : unit |- _ => destruct u end.
  match goal with Hc : consume_at _ _ = _ |- _ => apply remaining_nonzero in Hc as (n & Hn & Hn0) end.
  match goal with Hx : remaining_validity_seconds _ _ = Ok ?x |- _ =>
    assert (x = n) as -> by congruence end.
  destruct Hin as [_ _ _ _ Hcount Hitems Huniq]. simpl in Hlines, Hcur.
  assert (Hq : Forall (fun i => 1 <= ii_quantity i <= 100) (in_items input)).
  { apply Forall_forall. intros i Hi. rewrite Forall_forall in Hqty, Hitems.
    destruct (Hitems _ Hi) as (_ & ? & ?). pose proof (Hqty _ Hi). lia. }
  destruct (check_lines_priced input (in_currency_code input) (in_items input) (cq_lines q) [] 0)
    as (seen & Hrun & Hlen); try done; [lia..|].
  unfold validate_quote_response. simpl. rewrite Hid. unfold PricingDomain.request_id. simpl. rewrite Hblank, Hver. simpl.
  rewrite Hblank. simpl. rewrite (proj2 (Z.eqb_neq _ _) Hn0). simpl.
  rewrite length_map, <- (Forall2_length _ _ _ Hlines), length_map, Nat.eqb_refl. simpl.
  rewrite Hcur, Hrun. simpl. unfold expected_quantities. rewrite expected_size by done.
  rewrite Hlen, map_size_empty, Nat.eqb_refl. simpl.
  rewrite !quote_money_run by lia. simpl. rewrite <- Hsub, Z.eqb_refl.
  rewrite (proj2 (Z.leb_le _ _)) by lia. simpl. unfold checked_sub, checked_add.
  rewrite i64_run by (apply i32_in_i64; lia). simpl. rewrite Z.add_0_r.
  rewrite i64_run by (apply i32_in_i64; lia). simpl. rewrite Htot, Z.eqb_refl. simpl.
  rewrite !i32_amount_run by (unfold i32_max in *; lia). done.
Qed.

Definition sample_input : CheckoutInput :=
  mkCheckoutInput "acme" "cust-1" (Some "sess-1") None [mkCheckoutItem "sku-1" 2] "USD" None
    "standard" "free" "us-east-1" "normal" (Some "tok") (Some "card") (Some "req-1") 0 0 2 1000 false.
Definition sample_fresh : CachedQuote :=
  mkCachedQuote "req-1" [mkCachedLine "prod-1" "sku-1" 2 1299 2598] 2598 0 2598 "USD" "v7" "default"
    1700000045000.
Definition sample_response : QuoteResponse :=
  mkQuoteResponse "req-1" 1
    [mkQuoteLine "sku-1" 2 (Some (mkMoney "USD" 1299)) (Some (mkMoney "USD" 2598))]
    (Some (mkMoney "USD" 2598)) (Some (mkMoney "USD" 0)) (Some (mkMoney "USD" 0))
    (Some (mkMoney "USD" 2598)) 44 "v7".

Lemma sample_input_ok : input_ok sample_input.
Proof. apply validate_input_spec. vm_compute. reflexivity. Qed.

Lemma pricing_quote_accepted_witness : validate_quote_response sample_input sample_response = Ok tt.
Proof.
  apply (pricing_quote_accepted sample_input "req-1" "control" sample_fresh 1700000000000000000
    1700000001000000000).
  - apply sample_input_ok.
  - split.
    + constructor; [|constructor]. repeat split; try reflexivity; vm_compute; discriminate.
    + split; [reflexivity|vm_compute; discriminate].
    + split; vm_compute; discriminate.
    + reflexivity.
    + reflexivity.
    + vm_compute. reflexivity.
    + reflexivity.
  - reflexivity.
  - reflexivity.
  - vm_compute. discriminate.
  - constructor; [|constructor]. vm_compute. discriminate.
  - vm_compute. reflexivity.
Defined.

(** The attempt that ended the loop, and how the ones before it failed. *)
Definition retried (input : CheckoutInput) (reply : nat -> pricing_reply) (from n : nat) : Prop :=
  forall m, (from <= m < n)%nat -> exists e, quote_once input (reply m) = Err e /\ quote_retryable e = true.

Lemma quote_attempt_spec input reply attempt remaining :
  exists n, (attempt <= n <= attempt + remaining)%nat /\ retried input reply attempt n
  /\ quote_attempt input reply attempt remaining = quote_once input (reply n)
  /\ (forall e, quote_once input (reply n) = Err e ->
      quote_retryable e = false \/ n = (attempt + remaining)%nat).
Proof.
  revert attempt. induction remaining as [|remaining IH]; intros attempt; simpl.
  - exists attempt. split; [lia|]. split; [intros m Hm; lia|].
    destruct (quote_once input (reply attempt)) as [q|e] eqn:E; split; try done. right. lia.
  - destruct (quote_once input (reply attempt)) as [q|e] eqn:E.
    + exists attempt. split; [lia|]. split; [intros m Hm; lia|]. by rewrite E.
    + destruct (quote_retryable e) eqn:Er.
      * destruct (IH (S attempt)) as (n & Hn & Hr & Hq & He). exists n. split; [lia|]. split_and!.
        -- intros m Hm. destruct (decide (m = attempt)) as [->|]; [eauto|]. apply Hr. lia.
        -- done.
        -- intros e' He'. destruct (He e' He') as [|]; [by left|right; lia].
      * exists attempt. rewrite E. split; [lia|]. split; [intros m Hm; lia|]. split; [done|].
        intros e' [= <-]. by left.
Qed.

Lemma quote_once_ok input reply quote :
  quote_once input reply = Ok quote ->
  reply = PricingAnswer (Ok quote) /\ validate_quote_response input quote = Ok tt.
Proof.
  unfold quote_once. destruct reply as [m|[r|e]]; simpl; try done. intros H. res_inv.
  by match goal with u : unit |- _ => destruct u end.
Qed.

(** checkout calls pricing at most four times and at least once, and goes
    on to the next call only after an unavailable or timed out one; a quote it
    returns is the answer of the last call, its lines are exactly the requested
    items, each priced at quantity times unit price, the totals add up without
    overflow and fit the database, and its currency is the requested one. *)
Theorem quote_with_retry_sound input reply quote :
  0 <= in_retry input -> quote_with_retry input reply = Ok quote ->
  exists n, (1 <= n <= 4)%nat /\ Z.of_nat n <= in_retry input + 1
  /\ reply n = PricingAnswer (Ok quote) /\ retried input reply 1 n
  /\ exists subtotal discount tax total, quote_consistent input quote subtotal discount tax total.
Proof.
  intros Hretry H. unfold quote_with_retry in H.
  destruct (quote_attempt_spec input reply 1 (quote_attempts input - 1)) as (n & Hn & Hr & Hq & _).
  rewrite H in Hq. symmetry in Hq. apply quote_once_ok in Hq as [Hq Hv].
  unfold quote_attempts in Hn. exists n. split; [lia|]. split; [lia|]. split; [done|]. split; [done|].
  by apply validate_quote_response_ok.
Qed.

Lemma quote_with_retry_sound_witness :
  exists n, (1 <= n <= 4)%nat /\ Z.of_nat n <= 3
  /\ (fun n => if Nat.eqb n 2 then PricingAnswer (Ok sample_response) else NoPricingChannel "down") n
     = PricingAnswer (Ok sample_response)
  /\ retried sample_input
       (fun n => if Nat.eqb n 2 then PricingAnswer (Ok sample_response) else NoPricingChannel "down") 1 n
  /\ exists subtotal discount tax total,
       quote_consistent sample_input sample_response subtotal discount tax total.
Proof.
  apply (quote_with_retry_sound sample_input
    (fun n => if Nat.eqb n 2 then PricingAnswer (Ok sample_response) else NoPricingChannel "down")).
  - vm_compute. discriminate.
  - vm_compute. reflexivity.
Defined.
