(* ===== verification/CheckoutRecords.v ===== *)
(** The records a checkout keeps of itself: the fence of its attempt, the compensation tasks,
    the attempts and the reconciliations. *)

From S2P Require Import Prelude Proto Propagation Database CheckoutDomain.

(** The fences of the checkout service (services/checkout/src/infrastructure.rs,
    lines 67 to 558): who may act for a checkout generation, the heartbeat that
    extends a lease, and the markers around remote compensation calls. *)
Module CheckoutFence.

Import Propagation Schema Transactions CheckoutDomain.

Local Open Scope txn_scope.

(** ** Errors and transactions of the checkout service *)

Definition db_error_at (stage m : string) : ApiError :=
  mkApiError SERVICE_UNAVAILABLE "database_unavailable" (stage +:+ ": " +:+ m).
Definition db_error : string -> ApiError := db_error_at "database".
Definition database_timeout : ApiError :=
  mkApiError SERVICE_UNAVAILABLE "database_timeout" "database pool wait timed out".
Definition lease_lost (m : string) : ApiError := mkApiError CONFLICT "checkout_lease_lost" m.

(** [acquire_db], then a transaction or a single statement. *)
Definition db_run {A} (fault : option tx_fault) (now : Z) (locked : key -> bool)
    (body : Txn ApiError A) (db : Db) : result ApiError A * Db :=
  run_tx database_timeout db_error db_error fault now locked body db.

Definition bounded_error_message (m : string) : string := take_chars COMPENSATION_ERROR_LIMIT m.

(** ** Row updates

    Each statement's SET clause, with the columns it leaves alone. *)

Definition attempt_set (status : attempt_status) (lease_expires : option Z)
    (order_id : option string) (payload : option json) (error : option (Z * string * string))
    (now : Z) (a : AttemptRow) : AttemptRow :=
  mkAttempt (at_fingerprint a) status (at_lease_token a) lease_expires order_id payload
    (fst ∘ fst <$> error) (snd ∘ fst <$> error) (snd <$> error) now.

Definition attempt_lease (expires now : Z) (a : AttemptRow) : AttemptRow :=
  mkAttempt (at_fingerprint a) (at_status a) (at_lease_token a) (Some expires) (at_order_id a)
    (at_payload a) (at_error_status a) (at_error_code a) (at_error_message a) now.

(** The lifecycle columns of a reconciliation. *)
Definition recon_set (status : recon_status) (attempts available_at : Z) (claimed_at : option Z)
    (lease : option (string * Z)) (completed_at : option Z) (last_error : option string) (now : Z)
    (r : ReconRow) : ReconRow :=
  mkRecon (rc_order_id r) (rc_authorize_request_id r) (rc_payment_id r) (rc_merchant_reference r)
    (rc_amount_minor r) (rc_currency r) (rc_method_type r) (rc_feature_variant r) status
    (rc_parent_token r) attempts available_at claimed_at (fst <$> lease) (snd <$> lease)
    completed_at (rc_last_payment_status r) (rc_last_operation_status r)
    (rc_last_failure_reason r) last_error (rc_carrier r) (rc_created r) now.

Definition recon_lease (expires now : Z) (r : ReconRow) : ReconRow :=
  mkRecon (rc_order_id r) (rc_authorize_request_id r) (rc_payment_id r) (rc_merchant_reference r)
    (rc_amount_minor r) (rc_currency r) (rc_method_type r) (rc_feature_variant r) (rc_status r)
    (rc_parent_token r) (rc_attempts r) (rc_available_at r) (rc_claimed_at r) (rc_lease_token r)
    (Some expires) (rc_completed_at r) (rc_last_payment_status r) (rc_last_operation_status r)
    (rc_last_failure_reason r) (rc_last_error r) (rc_carrier r) (rc_created r) now.

(** The lifecycle columns of a compensation task, and its operation marker. *)
Definition task_set (status : task_status) (attempts available_at : Z) (claimed_at : option Z)
    (claim_token : option string) (claim_expires completed_at : option Z)
    (last_error : option string) (now : Z) (t : TaskRow) : TaskRow :=
  mkTask (tk_order_id t) (tk_task_key t) (tk_kind t) (tk_reservation_id t) (tk_sku t)
    (tk_quantity t) (tk_payment_id t) (tk_request_id t) (tk_currency t) status attempts
    available_at claimed_at claim_token claim_expires completed_at last_error
    (tk_checkout_request_id t) (tk_checkout_lease_token t) (tk_operation_id t)
    (tk_operation_started t) (tk_operation_completed t) (tk_carrier t) (tk_created t) now.

Definition task_operation (operation_id : option string) (started completed : option Z)
    (last_error : option string) (now : Z) (t : TaskRow) : TaskRow :=
  mkTask (tk_order_id t) (tk_task_key t) (tk_kind t) (tk_reservation_id t) (tk_sku t)
    (tk_quantity t) (tk_payment_id t) (tk_request_id t) (tk_currency t) (tk_status t)
    (tk_attempts t) (tk_available_at t) (tk_claimed_at t) (tk_claim_token t) (tk_claim_expires t)
    (tk_completed_at t) last_error (tk_checkout_request_id t) (tk_checkout_lease_token t)
    operation_id started completed (tk_carrier t) (tk_created t) now.

(** ** Who may act *)

Definition attempt_is (a : AttemptRow) (token : string) : bool := String.eqb (at_lease_token a) token.
Definition attempt_in (statuses : list attempt_status) (a : AttemptRow) : bool :=
  bool_decide (at_status a ∈ statuses).

(** [status='started' AND lease_expires_at > CURRENT_TIMESTAMP] *)
Definition lease_live (now : Z) (a : AttemptRow) : bool :=
  attempt_in [AStarted] a && after_now (at_lease_expires a) now.

(** A reconciliation of the generation whose worker lease is live; [worker]
    restricts it to one worker. *)
Definition recon_live (db : Db) (now : Z) (tenant request parent : string) (worker : option string) :
    bool :=
  match db_recons db !! (tenant, request) with
  | Some r =>
      String.eqb (rc_parent_token r) parent
      && match worker with Some w => opt_is (rc_lease_token r) w | None => true end
      && bool_decide (rc_status r = RProcessing) && after_now (rc_lease_expires r) now
  | None => false
  end.

(** The parent generation of [lock_checkout_parent] and, with a worker, of the
    reconciliation fence. *)
Definition parent_current (db : Db) (now : Z) (tenant request token : string)
    (worker : option string) : bool :=
  match db_attempts db !! (tenant, request) with
  | Some a =>
      attempt_is a token
      && (attempt_in [AFailed] a || lease_live now a
          || attempt_in [APending] a && recon_live db now tenant request token worker)
  | None => false
  end.

(** The row a compensation worker has claimed. *)
Definition task_claimed (db : Db) (now : Z) (tenant task claim request token : string) : bool :=
  match db_tasks db !! (tenant, task) with
  | Some t =>
      opt_is (tk_claim_token t) claim && bool_decide (tk_status t = TProcessing)
      && after_now (tk_claim_expires t) now && String.eqb (tk_checkout_request_id t) request
      && String.eqb (tk_checkout_lease_token t) token
  | None => false
  end.

Definition lock_checkout_fence (fence : CheckoutFence) : Txn ApiError unit :=
  now <- tx_now ;;
  match fence with
  | Attempt lease =>
      current <- tx_read (fun db =>
        match db_attempts db !! (cl_tenant_id lease, cl_request_id lease) with
        | Some a => attempt_is a (cl_token lease) && lease_live now a
        | None => false
        end) ;;
      tx_ensure current (lease_lost "checkout parent generation is no longer current")
  | PaymentReconciliation tenant request parent worker =>
      current <- tx_read (fun db => parent_current db now tenant request parent (Some worker)) ;;
      tx_ensure current (lease_lost "checkout parent generation is no longer current") ;;
      current <- tx_read (fun db => recon_live db now tenant request parent (Some worker)) ;;
      tx_ensure current
        (lease_lost "payment reconciliation worker claim is no longer current")
  | Compensation tenant request token task claim =>
      current <- tx_read (fun db => parent_current db now tenant request token None) ;;
      tx_ensure current (lease_lost "checkout parent generation is no longer current") ;;
      current <- tx_read (fun db => task_claimed db now tenant task claim request token) ;;
      tx_ensure current (lease_lost "compensation worker claim is no longer current")
  end.

Definition fence_kind (f : CheckoutFence) : string :=
  match f with
  | Attempt _ => "attempt"
  | PaymentReconciliation _ _ _ _ => "payment_reconciliation"
  | Compensation _ _ _ _ _ => "compensation"
  end.

(** [assert_checkout_fence]: the same authority read without locking, from the
    child's side. *)
Definition assert_checkout_fence (fence : CheckoutFence) : Txn ApiError unit :=
  now <- tx_now ;;
  owned <- tx_read (fun db =>
    match fence with
    | Attempt lease =>
        match db_attempts db !! (cl_tenant_id lease, cl_request_id lease) with
        | Some a => attempt_is a (cl_token lease) && lease_live now a
        | None => false
        end
    | PaymentReconciliation tenant request parent worker =>
        recon_live db now tenant request parent (Some worker)
        && match db_attempts db !! (tenant, request) with
           | Some a => attempt_is a parent && (attempt_in [AFailed; APending] a || lease_live now a)
           | None => false
           end
    | Compensation tenant request token task claim =>
        task_claimed db now tenant task claim request token
        && parent_current db now tenant request token None
    end) ;;
  tx_ensure owned (lease_lost (fence_kind fence +:+ " lease is no longer current")).

(** ** The heartbeat *)

Definition refresh_checkout_fence (fence : CheckoutFence) : Txn ApiError unit :=
  now <- tx_now ;;
  let attempt_expires := (now + CHECKOUT_ATTEMPT_STALE_AFTER)%Z in
  match fence with
  | Attempt lease =>
      changed <- sql_update attempts (cl_tenant_id lease, cl_request_id lease)
                   (fun a => attempt_is a (cl_token lease) && lease_live now a)
                   (attempt_lease attempt_expires now) ;;
      tx_ensure (changed =? 1)%nat (lease_lost (fence_kind fence +:+ " lease is no longer current"))
  | PaymentReconciliation tenant request parent worker =>
      lock_checkout_fence fence ;;
      changed <- sql_update recons (tenant, request)
                   (fun r => String.eqb (rc_parent_token r) parent && opt_is (rc_lease_token r) worker
                             && bool_decide (rc_status r = RProcessing)
                             && after_now (rc_lease_expires r) now)
                   (recon_lease (now + PAYMENT_RECONCILIATION_STALE_AFTER) now) ;;
      tx_ensure (changed =? 1)%nat (lease_lost (fence_kind fence +:+ " lease is no longer current"))
  | Compensation tenant request token task claim =>
      lock_checkout_fence fence ;;
      changed <- sql_update tasks (tenant, task)
                   (fun t => opt_is (tk_claim_token t) claim && bool_decide (tk_status t = TProcessing)
                             && after_now (tk_claim_expires t) now
                             && String.eqb (tk_checkout_request_id t) request
                             && String.eqb (tk_checkout_lease_token t) token)
                   (fun t => task_set (tk_status t) (tk_attempts t) (tk_available_at t)
                               (tk_claimed_at t) (tk_claim_token t)
                               (Some (now + COMPENSATION_STALE_AFTER)%Z)
                               (tk_completed_at t) (tk_last_error t) now t) ;;
      tx_ensure (changed =? 1)%nat (lease_lost "compensation worker lease is no longer current") ;;
      _ <- sql_update attempts (tenant, request)
             (fun a => attempt_is a token && lease_live now a) (attempt_lease attempt_expires now) ;;
      _ <- sql_update recons (tenant, request)
             (fun r => String.eqb (rc_parent_token r) token && bool_decide (rc_status r = RProcessing)
                       && after_now (rc_lease_expires r) now)
             (recon_lease (now + PAYMENT_RECONCILIATION_STALE_AFTER) now) ;;
      tx_ret tt
  end.

(** ** Compensation tasks by key *)

Definition compensation_operation_id (task_key : string) : string :=
  "checkout-compensation:" +:+ task_key.

(** The row of UNIQUE (tenant_id, task_key). *)
Definition find_task (db : Db) (tenant task_key : string) : option (key * TaskRow) :=
  List.find (fun kt => String.eqb kt.1.1 tenant && String.eqb (tk_task_key kt.2) task_key)
    (map_to_list (db_tasks db)).

(** [UPDATE checkout_compensation_tasks ... WHERE tenant_id AND order_id AND
    task_key AND checkout_request_id AND checkout_lease_token AND ...] *)
Definition update_task (tenant order task_key request token : string) (guard : TaskRow -> bool)
    (set_ : TaskRow -> TaskRow) : Txn ApiError nat :=
  sql_update_where tasks
    (fun k t => String.eqb k.1 tenant && String.eqb (tk_order_id t) order
       && String.eqb (tk_task_key t) task_key && String.eqb (tk_checkout_request_id t) request
       && String.eqb (tk_checkout_lease_token t) token && guard t) set_.

Definition task_in (statuses : list task_status) (t : TaskRow) : bool :=
  bool_decide (tk_status t ∈ statuses).

Definition begin_compensation_operation (order : PendingOrder) (task_key : string)
    (fence : CheckoutFence) : Txn ApiError unit :=
  lock_checkout_fence fence ;;
  now <- tx_now ;;
  changed <- update_task (pd_tenant_id order) (pd_id order) task_key (fence_request_id fence)
               (fence_token fence) (task_in [TPrepared; TQueued; TProcessing])
               (fun t => task_operation (Some (compensation_operation_id task_key))
                           (Some (default now (tk_operation_started t))) None None now t) ;;
  tx_ensure (changed =? 1)%nat
    (lease_lost "compensation remote operation was not fenced by its durable task").

Definition complete_compensation_operation (order : PendingOrder) (task_key : string)
    (fence : CheckoutFence) : Txn ApiError unit :=
  lock_checkout_fence fence ;;
  now <- tx_now ;;
  changed <- update_task (pd_tenant_id order) (pd_id order) task_key (fence_request_id fence)
               (fence_token fence)
               (fun t => opt_is (tk_operation_id t) (compensation_operation_id task_key)
                         && bool_decide (is_Some (tk_operation_started t))
                         && task_in [TPrepared; TQueued; TProcessing] t)
               (fun t => task_operation (tk_operation_id t) (tk_operation_started t) (Some now)
                           (tk_last_error t) now t) ;;
  tx_ensure (changed =? 1)%nat
    (lease_lost "compensation remote operation completion lost its durable fence").

Local Close Scope txn_scope.

End CheckoutFence.

(** Durable compensation tasks (services/checkout/src/infrastructure.rs, lines
    1412 to 1778, and application.rs, lines 3540 to 3945): their creation as
    intents, activation, claim by a worker, completion, retry and dead letter,
    and the cancellation of an order once nothing is left to compensate. *)
Module CheckoutCompensation.

Import Propagation Schema Transactions CheckoutDomain CheckoutFence.

(** ** Keys *)

Definition payment_compensation_task_key (payment_id : string) : string :=
  "payment-compensation:" +:+ payment_id.
Definition inventory_compensation_task_key (reservation_id : string) : string :=
  "inventory-release:" +:+ reservation_id.

(** [s.ends_with(suffix)] *)
Fixpoint ends_with (s suffix : string) : bool :=
  String.eqb s suffix || match s with "" => false | String _ rest => ends_with rest suffix end.

Definition generation_compensation_task_key (base_key parent_token : string) : string :=
  let suffix := ":" +:+ parent_token in
  if ends_with base_key suffix then base_key else base_key +:+ suffix.

Local Open Scope txn_scope.

(** ** Work items *)

(** A claimed task: its key and the row the claim returned. *)
Record CompensationTask : Type := mkCompensationTask {
  ct_tenant_id : string; ct_id : string; ct_claim_token : string; ct_row : TaskRow
}.

Definition compensation_persistence_failed (status : Z) (m : string) : ApiError :=
  mkApiError status "compensation_persistence_failed" m.

(** The parent generation a claim requires: as [parent_current], for the
    task's own request and token. *)
Definition task_claimable (db : Db) (now : Z) (k : key) (t : TaskRow) : bool :=
  (tk_attempts t <? COMPENSATION_MAX_ATTEMPTS)
  && (task_in [TPrepared; TQueued] t && (tk_available_at t <=? now)
      || task_in [TProcessing] t && not_after_now (tk_claim_expires t) now)
  && parent_current db now k.1 (tk_checkout_request_id t) (tk_checkout_lease_token t) None.

(** ORDER BY available_at, created_at *)
Definition task_before (a b : key * TaskRow) : bool :=
  (tk_available_at a.2 <? tk_available_at b.2)
  || ((tk_available_at a.2 =? tk_available_at b.2) && (tk_created a.2 <=? tk_created b.2)).

Definition claimed_task (token : string) (now : Z) (t : TaskRow) : TaskRow :=
  task_set TProcessing (tk_attempts t + 1) (tk_available_at t) (Some now)
    (Some token) (Some (now + COMPENSATION_STALE_AFTER)) (tk_completed_at t) None now t.

(** The claim has been made when the row is decoded. *)
Definition claimed_result (k : key) (token : string) (t : TaskRow) : result ApiError CompensationTask :=
  if match tk_quantity t with Some q => 0 <=? q | None => true end
  then Ok (mkCompensationTask k.1 k.2 token t)
  else Err (compensation_persistence_failed INTERNAL_SERVER_ERROR
              "stored compensation quantity is out of range").

(** [FOR UPDATE OF t, a SKIP LOCKED]: neither the task nor its attempt is
    locked. *)
Definition claim_compensation_task (token : string) :
    Txn ApiError (option (result ApiError CompensationTask)) := fun env db =>
  let now := te_now env in
  (found <- sql_first_unlocked tasks
              (fun k t => task_claimable db now k t
                          && negb (te_locked env (k.1, tk_checkout_request_id t))) task_before ;;
   match found with
   | None => tx_ret None
   | Some (k, t) =>
       _ <- sql_update tasks k (fun _ => true) (claimed_task token now) ;;
       tx_ret (Some (claimed_result k token (claimed_task token now t)))
   end) env db.

(** ** Orders with nothing left to compensate *)

Definition open_task (tenant order : string) (k : key) (t : TaskRow) : bool :=
  String.eqb k.1 tenant && String.eqb (tk_order_id t) order
  && negb (task_in [TCompleted; TSuperseded] t).

Definition order_set (status : order_status) (placed_at : option Z) (now : Z) (o : OrderRow) : OrderRow :=
  mkOrder (or_customer_id o) (or_cart_id o) (or_order_number o) status (or_currency o)
    (or_subtotal_minor o) (or_discount_minor o) (or_tax_minor o) (or_shipping_minor o)
    (or_total_minor o) (or_checkout_request_id o) (or_promotion_code o) placed_at (or_items o)
    (or_created o) now.

Definition order_pending (o : OrderRow) : bool := bool_decide (or_status o = OPending).
Definition cancelled_order (now : Z) (o : OrderRow) : OrderRow :=
  order_set OCancelled (or_placed_at o) now o.

(** The generation of a task is still one that may cancel its order. *)
Definition task_generation_open (db : Db) (tenant order task : string) : bool :=
  match db_tasks db !! (tenant, task) with
  | Some t =>
      String.eqb (tk_order_id t) order
      && match db_attempts db !! (tenant, tk_checkout_request_id t) with
         | Some a =>
             attempt_is a (tk_checkout_lease_token t)
             && (attempt_in [AStarted; AFailed] a
                 || attempt_in [APending] a
                    && match db_recons db !! (tenant, tk_checkout_request_id t) with
                       | Some r => String.eqb (rc_parent_token r) (at_lease_token a)
                                   && bool_decide (rc_status r = RProcessing)
                       | None => false
                       end)
         | None => false
         end
  | None => false
  end.

(** ** The end of a task *)

Definition finish_compensation_task (task : CompensationTask) (terminal_error : option string) :
    Txn ApiError unit :=
  let t := ct_row task in
  now <- tx_now ;;
  lock_checkout_fence
    (Compensation (ct_tenant_id task) (tk_checkout_request_id t) (tk_checkout_lease_token t)
       (ct_id task) (ct_claim_token task)) ;;
  completed <- sql_update tasks (ct_tenant_id task, ct_id task)
                 (fun t => task_in [TProcessing] t && opt_is (tk_claim_token t) (ct_claim_token task)
                           && after_now (tk_claim_expires t) now)
                 (fun t => match terminal_error with
                           | None => task_set TCompleted (tk_attempts t) (tk_available_at t) None None None
                                       (Some now) None now t
                           | Some e => task_set TFailed (tk_attempts t) (tk_available_at t) None None None
                                         None (Some e) now t
                           end) ;;
  tx_ensure (completed =? 1)%nat
    (compensation_persistence_failed SERVICE_UNAVAILABLE
       "compensation task ownership was lost before completion") ;;
  match terminal_error with
  | Some _ => tx_ret tt
  | None =>
      settled <- tx_read (fun db =>
        negb (exists_row (open_task (ct_tenant_id task) (tk_order_id t)) (db_tasks db))
        && task_generation_open db (ct_tenant_id task) (tk_order_id t) (ct_id task)) ;;
      _ <- sql_update orders (ct_tenant_id task, tk_order_id t)
             (fun o => order_pending o && settled) (cancelled_order now) ;;
      tx_ret tt
  end.

Definition complete_compensation_task (task : CompensationTask) : Txn ApiError unit :=
  finish_compensation_task task None.

Definition dead_letter_compensation_task (task : CompensationTask) (e : ApiError) :
    Txn ApiError unit :=
  finish_compensation_task task
    (Some ("dead-lettered after " +:+ show_Z (tk_attempts (ct_row task)) +:+ " attempts: "
           +:+ bounded_error_message (ae_message e))).

(** An expired claim whose attempts are used up. *)
Definition dead_letter_expired_compensation_task : Txn ApiError bool := fun env db =>
  (let now := te_now env in
   found <- sql_first_unlocked tasks
              (fun _ t => task_in [TProcessing] t && (COMPENSATION_MAX_ATTEMPTS <=? tk_attempts t)
                          && not_after_now (tk_claim_expires t) now
                          && (tk_updated t <? now - COMPENSATION_STALE_AFTER))
              (fun a b => tk_updated a.2 <=? tk_updated b.2) ;;
   match found with
   | None => tx_ret false
   | Some (k, _) =>
       _ <- sql_update tasks k (fun _ => true)
              (fun t => task_set TFailed (tk_attempts t) (tk_available_at t) None None None None
                          (Some (default ("dead-lettered after " +:+ show_Z COMPENSATION_MAX_ATTEMPTS
                                   +:+ " attempts: worker lease expired") (tk_last_error t))) now t) ;;
       tx_ret true
   end) env db.

(** [RETRY_BASE.saturating_pow(attempts.clamp(1, 8)).min(300)] seconds *)
Definition retry_delay (base attempts : Z) : Z :=
  seconds (Z.min (i32_saturating_pow base (clamp attempts 1 8)) 300).

Definition reschedule_compensation_task (task : CompensationTask) (e : ApiError) :
    Txn ApiError unit :=
  now <- tx_now ;;
  _ <- sql_update tasks (ct_tenant_id task, ct_id task)
         (fun t => task_in [TProcessing] t
                   && opt_is (tk_claim_token t) (ct_claim_token task)
                   && after_now (tk_claim_expires t) now)
         (fun t => task_set TQueued (tk_attempts t)
                     (now + retry_delay COMPENSATION_RETRY_BASE (tk_attempts (ct_row task)))
                     None None None (tk_completed_at t) (Some (bounded_error_message (ae_message e))) now t) ;;
  tx_ret tt.

Definition compensation_attempts_exhausted (attempts : Z) : bool :=
  COMPENSATION_MAX_ATTEMPTS <=? attempts.

(** ** Intents *)

(** The generation in whose name an intent is written, by kind of fence: an
    attempt in one of [statuses], or a reconciliation being processed. *)
Definition fence_generation (db : Db) (tenant : string) (fence : CheckoutFence)
    (statuses : list attempt_status) : bool :=
  match fence with
  | Attempt _ =>
      match db_attempts db !! (tenant, fence_request_id fence) with
      | Some a => attempt_is a (fence_token fence) && attempt_in statuses a
      | None => false
      end
  | PaymentReconciliation _ _ _ _ =>
      match db_recons db !! (tenant, fence_request_id fence) with
      | Some r => String.eqb (rc_parent_token r) (fence_token fence)
                  && bool_decide (rc_status r = RProcessing)
      | None => false
      end
  | Compensation _ _ _ _ _ => false
  end.

(** ON CONFLICT: only a queued task is written again, and stays queued. *)
Definition requeued_task (fence : CheckoutFence) (carrier : option string * option string * option string)
    (now : Z) (t : TaskRow) : TaskRow :=
  if task_in [TCompleted; TProcessing; TPrepared; TFailed; TSuperseded] t then
    task_set (tk_status t) (tk_attempts t) (tk_available_at t) (tk_claimed_at t) (tk_claim_token t)
      (tk_claim_expires t)
      (if task_in [TCompleted] t then tk_completed_at t else None) (tk_last_error t) now t
  else
    mkTask (tk_order_id t) (tk_task_key t) (tk_kind t) (tk_reservation_id t) (tk_sku t)
      (tk_quantity t) (tk_payment_id t) (tk_request_id t) (tk_currency t) TQueued (tk_attempts t)
      now None (tk_claim_token t) (tk_claim_expires t) None None (fence_request_id fence)
      (fence_token fence) (tk_operation_id t) (tk_operation_started t) (tk_operation_completed t)
      carrier (tk_created t) now.

(** [INSERT ... SELECT ... WHERE <generation> ON CONFLICT (tenant_id, task_key)
    DO UPDATE ...]: the number of rows. *)
Definition insert_intent (tenant id : string) (fence : CheckoutFence) (fresh : TaskRow) :
    Txn ApiError nat :=
  now <- tx_now ;;
  current <- tx_read (fun db => fence_generation db tenant fence [AStarted; AFailed]) ;;
  if negb current then tx_ret 0%nat else
  existing <- tx_read (fun db => find_task db tenant (tk_task_key fresh)) ;;
  match existing with
  | Some (k, _) => sql_update tasks k (fun _ => true) (requeued_task fence (tk_carrier fresh) now)
  | None => sql_insert tasks (tenant, id) fresh ;; tx_ret 1%nat
  end.

Definition prepared_task (order : PendingOrder) (task_key : string) (kind : task_kind)
    (inventory : option (string * string * Z)) (payment : option (string * string * string))
    (fence : CheckoutFence) (carrier : option string * option string * option string) (now : Z) :
    TaskRow :=
  mkTask (pd_id order) task_key kind (fst ∘ fst <$> inventory) (snd ∘ fst <$> inventory)
    (snd <$> inventory) (fst ∘ fst <$> payment) (snd ∘ fst <$> payment) (snd <$> payment)
    TPrepared 0 now None None None None None (fence_request_id fence) (fence_token fence)
    None None None carrier now now.

Definition inventory_task_key (fence : CheckoutFence) (reservation_id : string) : string :=
  generation_compensation_task_key (inventory_compensation_task_key reservation_id) (fence_token fence).
Definition payment_task_key (fence : CheckoutFence) (payment_id : string) : string :=
  generation_compensation_task_key (payment_compensation_task_key payment_id) (fence_token fence).

(** One reservation of the loop; [id] is its fresh task id. *)
Definition insert_inventory_intent (order : PendingOrder) (fence : CheckoutFence)
    (carrier : option string * option string * option string)
    (ir : InventoryReservation * string) : Txn ApiError unit :=
  now <- tx_now ;;
  tx_ensure (fits_i32 (ir_quantity ir.1))
    (compensation_persistence_failed INTERNAL_SERVER_ERROR
       "inventory compensation quantity is out of range") ;;
  changed <- tx_with_err (fun m => compensation_persistence_failed SERVICE_UNAVAILABLE
                                     ("inventory compensation task: " +:+ m))
               (insert_intent (pd_tenant_id order) ("compensation-" +:+ ir.2) fence
                  (prepared_task order (inventory_task_key fence (ir_reservation_id ir.1))
                     KInventoryRelease
                     (Some (ir_reservation_id ir.1, ir_sku ir.1, ir_quantity ir.1)) None
                     fence carrier now)) ;;
  tx_ensure (negb (changed =? 0)%nat)
    (lease_lost "inventory compensation intent was not created by the current checkout fence").

Fixpoint insert_inventory_intents (order : PendingOrder) (fence : CheckoutFence)
    (carrier : option string * option string * option string)
    (reservations : list (InventoryReservation * string)) : Txn ApiError unit :=
  match reservations with
  | [] => tx_ret tt
  | r :: rest =>
      insert_inventory_intent order fence carrier r ;;
      insert_inventory_intents order fence carrier rest
  end.

(** The transactions of [enqueue_inventory_compensation_tasks] and
    [enqueue_payment_compensation_task]; the activations follow them. *)
Definition record_inventory_intents (order : PendingOrder) (fence : CheckoutFence)
    (carrier : option string * option string * option string)
    (reservations : list (InventoryReservation * string)) : Txn ApiError unit :=
  lock_checkout_fence fence ;;
  insert_inventory_intents order fence carrier reservations.

Definition record_payment_intent (order : PendingOrder) (payment_id request_id id : string)
    (carrier : option string * option string * option string) (fence : CheckoutFence) :
    Txn ApiError unit :=
  lock_checkout_fence fence ;;
  now <- tx_now ;;
  changed <- tx_with_err (fun m => compensation_persistence_failed SERVICE_UNAVAILABLE
                                     ("payment compensation task: " +:+ m))
               (insert_intent (pd_tenant_id order) ("compensation-" +:+ id) fence
                  (prepared_task order (payment_task_key fence payment_id) KPayment None
                     (Some (payment_id, request_id, pd_currency order)) fence carrier now)) ;;
  tx_ensure (negb (changed =? 0)%nat)
    (lease_lost "payment compensation intent was not created by the current checkout fence").

(** The status of the task with a key, for the order. *)
Definition task_status_of (tenant order task_key : string) : Txn ApiError (option task_status) :=
  tx_read (fun db =>
    match find_task db tenant task_key with
    | Some (_, t) => if String.eqb (tk_order_id t) order then Some (tk_status t) else None
    | None => None
    end).

Definition activate_compensation_intent (order : PendingOrder) (task_key : string)
    (fence : CheckoutFence) : Txn ApiError unit :=
  lock_checkout_fence fence ;;
  now <- tx_now ;;
  current <- tx_read (fun db =>
    fence_generation db (pd_tenant_id order) fence [AStarted; AFailed]) ;;
  changed <- update_task (pd_tenant_id order) (pd_id order) task_key (fence_request_id fence)
               (fence_token fence) (fun t => task_in [TPrepared] t && current)
               (fun t => task_set TQueued (tk_attempts t) (Z.min (tk_available_at t) now)
                           (tk_claimed_at t) (tk_claim_token t) (tk_claim_expires t) (tk_completed_at t) (tk_last_error t) now t) ;;
  if (changed =? 1)%nat then tx_ret tt else
  status <- task_status_of (pd_tenant_id order) (pd_id order) task_key ;;
  tx_ensure (bool_decide (status ∈ [Some TQueued; Some TProcessing; Some TCompleted]))
    (lease_lost "compensation intent could not be activated by the current checkout fence").

Definition resolve_compensation_intent (order : PendingOrder) (base_key : string)
    (fence : CheckoutFence) : Txn ApiError unit :=
  let task_key := generation_compensation_task_key base_key (fence_token fence) in
  lock_checkout_fence fence ;;
  now <- tx_now ;;
  current <- tx_read (fun db =>
    fence_generation db (pd_tenant_id order) fence [AStarted; AFailed]) ;;
  changed <- update_task (pd_tenant_id order) (pd_id order) task_key (fence_request_id fence)
               (fence_token fence) (fun t => task_in [TQueued] t && current)
               (fun t => task_set TCompleted (tk_attempts t) (tk_available_at t) None None None (Some now)
                           (tk_last_error t) now t) ;;
  tx_ensure (changed <=? 1)%nat
    (compensation_persistence_failed INTERNAL_SERVER_ERROR "duplicate compensation intents exist") ;;
  if (changed =? 0)%nat then
    status <- task_status_of (pd_tenant_id order) (pd_id order) task_key ;;
    tx_ensure (bool_decide (status ∈ [Some TProcessing; Some TCompleted]))
      (lease_lost "compensation intent ownership was lost before resolution")
  else tx_ret tt.

(** ** Cancelling the order *)

Definition cancel_order_fenced (order : PendingOrder) (fence : CheckoutFence) : Txn ApiError unit :=
  lock_checkout_fence fence ;;
  now <- tx_now ;;
  current <- tx_read (fun db => fence_generation db (pd_tenant_id order) fence [AStarted]) ;;
  changed <- sql_update orders (pd_tenant_id order, pd_id order)
               (fun o => order_pending o && current) (cancelled_order now) ;;
  tx_ensure (changed =? 1)%nat
    (mkApiError CONFLICT "order_state_conflict" "pending order could not be cancelled").

Definition cancel_order_if_compensated (order : PendingOrder) (fence : CheckoutFence) :
    Txn ApiError unit :=
  lock_checkout_fence fence ;;
  now <- tx_now ;;
  current <- tx_read (fun db =>
    negb (exists_row (open_task (pd_tenant_id order) (pd_id order)) (db_tasks db))
    && fence_generation db (pd_tenant_id order) fence [AStarted]) ;;
  changed <- sql_update orders (pd_tenant_id order, pd_id order)
               (fun o => order_pending o && current) (cancelled_order now) ;;
  tx_ensure (changed =? 1)%nat
    (mkApiError CONFLICT "order_state_conflict"
       "order was not cancelled because compensation is incomplete or state changed").

Local Close Scope txn_scope.

End CheckoutCompensation.

(** Checkout attempts (services/checkout/src/application.rs, lines 680 to 1142):
    the idempotency record of a request, its reclaim by a new generation once
    its lease ran out, and the durable record of its outcome. *)
Module CheckoutAttempts.

Import Propagation Proto Schema Transactions CheckoutDomain CheckoutFence.

Local Open Scope txn_scope.

Definition idempotency_corrupt (m : string) : ApiError :=
  mkApiError INTERNAL_SERVER_ERROR "checkout_idempotency_corrupt" m.

(** [COALESCE(lease_expires_at, updated_at + 10 minutes) <= CURRENT_TIMESTAMP] *)
Definition lease_stale (now : Z) (a : AttemptRow) : bool :=
  default (at_updated a + CHECKOUT_ATTEMPT_STALE_AFTER) (at_lease_expires a) <=? now.

Definition stale_reclaim_order_is_safe (order_id : option string) (status : option order_status) : bool :=
  bool_decide (order_id = None) || bool_decide (status = Some OPending).

Definition order_status_of (db : Db) (tenant : string) (order_id : option string) :
    option order_status :=
  order_id ≫= fun id => or_status <$> db_orders db !! (tenant, id).

(** ORDER BY created_at DESC LIMIT 1 of an order's payments *)
Definition latest_payment (db : Db) (tenant order_id : string) : option (key * PaymentRow) :=
  first_by (fun k p => String.eqb k.1 tenant && String.eqb (py_order_id p) order_id)
    (fun a b => py_created b.2 <=? py_created a.2) (db_payments db).

Definition opt_json (o : option string) : json :=
  match o with Some s => JStr s | None => JNull end.

(** The payload of a paid order whose response was lost. *)
Definition recovered_payload (tenant order_id customer : string) (o : OrderRow)
    (payment : option (key * PaymentRow)) : json :=
  JObj [("status", JStr "paid"); ("order_status", JStr "paid"); ("order_id", JStr order_id);
        ("order_number", JStr (or_order_number o)); ("tenant_id", JStr tenant);
        ("customer_id", JStr customer); ("currency", JStr (or_currency o));
        ("total_minor", JNum (or_total_minor o));
        ("payment_id", opt_json (snd ∘ fst <$> payment));
        ("payment_status", JStr (default "captured" (py_status ∘ snd <$> payment)));
        ("payment_recovered", JBool true)].

(** The stale attempt's order is paid: the attempt is completed and replayed. *)
Definition replay_paid (tenant request : string) (a : AttemptRow) : Txn ApiError CheckoutAttemptClaim :=
  now <- tx_now ;;
  order_id <- tx_lift (ok_or (at_order_id a)
                (idempotency_corrupt "paid checkout attempt has no order linkage")) ;;
  found <- sql_get orders (tenant, order_id) ;;
  match found with
  | Some o =>
      payment <- tx_read (fun db => latest_payment db tenant order_id) ;;
      match or_customer_id o with
      | Some customer =>
          let payload := recovered_payload tenant order_id customer o payment in
          updated <- sql_update attempts (tenant, request)
                       (fun a' => attempt_is a' (at_lease_token a) && attempt_in [AStarted] a'
                                  && opt_is (at_order_id a') order_id)
                       (fun a' => attempt_set APaid None (at_order_id a') (Some payload) None now a') ;;
          tx_ensure (updated =? 1)%nat (lease_lost "paid checkout reclaim lost its lease") ;;
          tx_ret (ClaimReplay payload)
      | None => tx_refused "error deserializing column 1"
      end
  | None => tx_refused "query returned an unexpected number of rows"
  end.

(** A row of the retired generation's reconciliation, and of its tasks. *)
Definition retired_recon (token : string) (now : Z) (r : ReconRow) : ReconRow :=
  let processing := bool_decide (rc_status r = RProcessing) in
  mkRecon (rc_order_id r) (rc_authorize_request_id r) (rc_payment_id r) (rc_merchant_reference r)
    (rc_amount_minor r) (rc_currency r) (rc_method_type r) (rc_feature_variant r)
    (if processing then
       if rc_attempts r <? PAYMENT_RECONCILIATION_MAX_ATTEMPTS then RQueued else RAwaitingProvider
     else rc_status r)
    token (rc_attempts r) (if processing then now else rc_available_at r) None None None
    (rc_completed_at r) (rc_last_payment_status r) (rc_last_operation_status r)
    (rc_last_failure_reason r)
    (if processing
     then Some (default "parent checkout generation reclaimed; worker claim retired" (rc_last_error r))
     else rc_last_error r)
    (rc_carrier r) (rc_created r) now.

Definition superseded_task (now : Z) (t : TaskRow) : TaskRow :=
  task_set TSuperseded (tk_attempts t) (tk_available_at t) None None None None
    (Some (default "parent checkout generation reclaimed; compensation intent quarantined"
             (tk_last_error t))) now t.

Definition retire_recons (tenant request previous token : string) : Txn ApiError nat :=
  now <- tx_now ;;
  sql_update recons (tenant, request)
    (fun r => String.eqb (rc_parent_token r) previous && bool_decide (rc_status r <> RCompleted))
    (retired_recon token now).

Definition retire_tasks (tenant request previous : string) : Txn ApiError nat :=
  now <- tx_now ;;
  sql_update_where tasks
    (fun k t => String.eqb k.1 tenant && String.eqb (tk_checkout_request_id t) request
       && String.eqb (tk_checkout_lease_token t) previous
       && bool_decide (tk_status t ∉ [TCompleted; TSuperseded]))
    (superseded_task now).

(** A new generation takes over a stale attempt and retires the old one's
    children in the same transaction. *)
Definition reclaim_attempt (tenant request new_token : string) (a : AttemptRow) :
    Txn ApiError CheckoutAttemptClaim :=
  now <- tx_now ;;
  reclaimed <- sql_update attempts (tenant, request)
                 (fun a' => attempt_is a' (at_lease_token a) && attempt_in [AStarted] a'
                            && lease_stale now a')
                 (fun a' => mkAttempt (at_fingerprint a') AStarted new_token
                              (Some (now + CHECKOUT_ATTEMPT_STALE_AFTER)) (at_order_id a') None
                              None None None now) ;;
  if (reclaimed =? 1)%nat then
    _ <- retire_recons tenant request (at_lease_token a) new_token ;;
    _ <- retire_tasks tenant request (at_lease_token a) ;;
    tx_ret (ClaimNew new_token)
  else tx_ret ClaimInProgress.

(** [StatusCode::from_u16] of the stored status *)
Definition stored_status (n : option Z) : Z :=
  match n with
  | Some n => if (100 <=? n) && (n <=? 999) then n else INTERNAL_SERVER_ERROR
  | None => INTERNAL_SERVER_ERROR
  end.

Definition stored_failure (a : AttemptRow) : ApiError :=
  mkApiError (stored_status (at_error_status a)) (replay_error_code (default "" (at_error_code a)))
    (default "checkout request previously failed" (at_error_message a)).

(** [claim_checkout_attempt]; the two tokens are the UUIDs it draws. *)
Definition claim_checkout_attempt (tenant request fingerprint token new_token : string) :
    Txn ApiError CheckoutAttemptClaim :=
  now <- tx_now ;;
  inserted <- sql_insert_ignore attempts (tenant, request)
                (mkAttempt fingerprint AStarted token (Some (now + CHECKOUT_ATTEMPT_STALE_AFTER))
                   None None None None None now) ;;
  if (inserted =? 1)%nat then tx_ret (ClaimNew token) else
  found <- sql_get attempts (tenant, request) ;;
  a <- tx_lift (ok_or found (idempotency_corrupt "checkout idempotency record disappeared")) ;;
  tx_ensure (String.eqb (at_fingerprint a) fingerprint)
    (mkApiError CONFLICT "checkout_request_conflict"
       "request_id was already used for different checkout input") ;;
  match at_status a with
  | AStarted =>
      if negb (lease_stale now a) then tx_ret ClaimInProgress else
      status <- tx_read (fun db => order_status_of db tenant (at_order_id a)) ;;
      if bool_decide (status = Some OPaid) then replay_paid tenant request a else
      tx_ensure (stale_reclaim_order_is_safe (at_order_id a) status)
        (mkApiError CONFLICT "checkout_reconciliation_required"
           "stale checkout attempt is linked to a non-pending order") ;;
      reclaim_attempt tenant request new_token a
  | APending | APaid | ADegraded =>
      payload <- tx_lift (ok_or (at_payload a)
                   (idempotency_corrupt "checkout idempotency response is invalid")) ;;
      tx_ret (match at_status a with
              | APending => ClaimPending payload
              | _ => ClaimReplay payload
              end)
  | AFailed => tx_ret (ClaimFailed (stored_failure a))
  end.

(** ** Outcomes *)

Definition record_checkout_response (tenant request token : string) (status : attempt_status)
    (order_id : option string) (payload : json) : Txn ApiError unit :=
  now <- tx_now ;;
  updated <- sql_update attempts (tenant, request)
               (fun a => attempt_is a token && lease_live now a)
               (attempt_set status None order_id (Some payload) None now) ;;
  tx_ensure (updated =? 1)%nat
    (lease_lost "checkout idempotency response no longer owns an active lease").

Definition record_checkout_failure (tenant request token : string) (e : ApiError) : Txn ApiError unit :=
  now <- tx_now ;;
  updated <- sql_update attempts (tenant, request)
               (fun a => attempt_is a token && lease_live now a)
               (fun a => attempt_set AFailed None (at_order_id a) None
                           (Some (ae_status e, ae_code e, ae_message e)) now a) ;;
  tx_ensure (updated =? 1)%nat
    (lease_lost "checkout idempotency failure no longer owns an active lease").

(** ** The pending payment's reconciliation *)

Definition payment_method_type (method : string) : Z :=
  let m := to_ascii_lowercase (trim method) in
  if one_of m ["bank_account"; "bank-account"] then PaymentMethodType_BankAccount
  else if String.eqb m "wallet" then PaymentMethodType_Wallet
  else PaymentMethodType_Card.

Definition stored_payment_method_type (method : string) : string :=
  let t := payment_method_type method in
  if t =? PaymentMethodType_Card then "card"
  else if t =? PaymentMethodType_BankAccount then "bank_account"
  else if t =? PaymentMethodType_Wallet then "wallet" else "unspecified".

Definition carrier : Type := option string * option string * option string.

(** ON CONFLICT (tenant_id, request_id) DO UPDATE, and its WHERE *)
Definition reregistered_recon (token : string) (payment_id : option string) (variant : string)
    (c : carrier) (now : Z) (r : ReconRow) : ReconRow :=
  let settled := bool_decide (rc_status r ∈ [RProcessing; RCompleted; RFailed]) in
  mkRecon (rc_order_id r) (rc_authorize_request_id r)
    (match rc_payment_id r with Some p => Some p | None => payment_id end)
    (rc_merchant_reference r) (rc_amount_minor r) (rc_currency r) (rc_method_type r) variant
    (if bool_decide (rc_status r ∈ [RAwaitingProvider; RProcessing; RCompleted; RFailed])
     then rc_status r else RAwaitingProvider)
    (if bool_decide (rc_status r = RCompleted) then rc_parent_token r else token)
    (rc_attempts r) (if settled then rc_available_at r else now) (rc_claimed_at r)
    (rc_lease_token r) (rc_lease_expires r) (rc_completed_at r) (rc_last_payment_status r)
    (rc_last_operation_status r) (rc_last_failure_reason r)
    (if settled then rc_last_error r else None) c (rc_created r) now.

Definition register_pending_payment_reconciliation_inner (order : PendingOrder)
    (lease : CheckoutLease) (payment_id : option string) (method variant : string)
    (c : carrier) (allow_expired_parent : bool) : Txn ApiError unit :=
  let '(tenant, request, token) := (cl_tenant_id lease, cl_request_id lease, cl_token lease) in
  let payment_id := non_blank payment_id in
  let authorize := request +:+ ":authorize" in
  now <- tx_now ;;
  started <- tx_read (fun db =>
    match db_attempts db !! (tenant, request) with
    | Some a => attempt_is a token && attempt_in [AStarted] a
    | None => false
    end) ;;
  (if allow_expired_parent
   then tx_ensure started (lease_lost "checkout finalization recovery lost its parent generation")
   else lock_checkout_fence (Attempt lease)) ;;
  existing <- sql_get recons (pd_tenant_id order, request) ;;
  changed <- (if negb started then tx_ret 0%nat else
              match existing with
              | Some _ =>
                  sql_update recons (pd_tenant_id order, request)
                    (fun r => String.eqb (rc_order_id r) (pd_id order)
                              && String.eqb (rc_authorize_request_id r) authorize)
                    (reregistered_recon token payment_id variant c now)
              | None =>
                  sql_insert recons (pd_tenant_id order, request)
                    (mkRecon (pd_id order) authorize payment_id (pd_id order)
                       (pd_total_minor order) (pd_currency order)
                       (stored_payment_method_type method) variant RAwaitingProvider token 0
                       now None None None None None None None None c now now) ;;
                  tx_ret 1%nat
              end) ;;
  tx_ensure (changed =? 1)%nat
    (lease_lost "payment reconciliation intent was not created by the current checkout lease").

(** The checks before the connection is taken. *)
Definition lease_matches (order : PendingOrder) (lease : CheckoutLease) : ApiResult unit :=
  ensure (String.eqb (cl_tenant_id lease) (pd_tenant_id order))
    (lease_lost "payment reconciliation lease tenant does not match the order").

Definition register_pending_payment_reconciliation (order : PendingOrder) (lease : CheckoutLease)
    (payment_id : option string) (method variant : string) (c : carrier) : Txn ApiError unit :=
  tx_lift (lease_matches order lease) ;;
  register_pending_payment_reconciliation_inner order lease payment_id method variant c false.

Definition queue_checkout_finalization_recovery (order : PendingOrder) (lease : CheckoutLease)
    (payment_id : option string) (method variant : string) (c : carrier) : Txn ApiError unit :=
  tx_lift (lease_matches order lease) ;;
  register_pending_payment_reconciliation_inner order lease payment_id method variant c true.

Local Close Scope txn_scope.

End CheckoutAttempts.

(** The durable reconciliation of pending payments
    (services/checkout/src/infrastructure.rs, lines 1025 to 1390): claimed by a
    worker, observed, rescheduled with a bounded number of polls, and completed
    or failed together with its checkout attempt. *)
Module CheckoutReconciliation.

Import Propagation Schema Transactions CheckoutDomain CheckoutFence CheckoutCompensation CheckoutAttempts.

Local Open Scope txn_scope.

(** ** Claiming *)

Definition recon_in (statuses : list recon_status) (r : ReconRow) : bool :=
  bool_decide (rc_status r ∈ statuses).

Definition recon_claimable (db : Db) (now : Z) (k : key) (r : ReconRow) : bool :=
  (rc_attempts r <? PAYMENT_RECONCILIATION_MAX_ATTEMPTS)
  && (recon_in [RQueued] r && (rc_available_at r <=? now)
      || recon_in [RProcessing] r && not_after_now (rc_lease_expires r) now)
  && match db_attempts db !! k with
     | Some a => attempt_is a (rc_parent_token r) && (attempt_in [AFailed; APending] a || lease_live now a)
     | None => false
     end.

(** ORDER BY available_at, created_at *)
Definition recon_before (a b : key * ReconRow) : bool :=
  (rc_available_at a.2 <? rc_available_at b.2)
  || ((rc_available_at a.2 =? rc_available_at b.2) && (rc_created a.2 <=? rc_created b.2)).

Definition claimed_recon (token : string) (now : Z) (r : ReconRow) : ReconRow :=
  recon_set RProcessing (rc_attempts r + 1) (rc_available_at r) (Some now)
    (Some (token, now + PAYMENT_RECONCILIATION_STALE_AFTER)) (rc_completed_at r) None now r.

(** The row the claim returns. *)
Definition recon_job (k : key) (token : string) (r : ReconRow) : PaymentReconciliationJob :=
  {| rj_tenant_id := k.1; rj_request_id := k.2; rj_order_id := rc_order_id r;
     rj_authorize_request_id := rc_authorize_request_id r; rj_payment_id := rc_payment_id r;
     rj_merchant_reference := rc_merchant_reference r; rj_amount_minor := rc_amount_minor r;
     rj_currency := rc_currency r; rj_method_type := rc_method_type r;
     rj_feature_variant := rc_feature_variant r; rj_attempts := rc_attempts r;
     rj_lease_token := token; rj_parent_lease_token := rc_parent_token r;
     rj_carrier := rc_carrier r |}.

(** A reconciliation and its attempt have the same key. *)
Definition claim_payment_reconciliation (token : string) :
    Txn ApiError (option PaymentReconciliationJob) := fun env db =>
  let now := te_now env in
  (found <- sql_first_unlocked recons (recon_claimable db now) recon_before ;;
   match found with
   | None => tx_ret None
   | Some (k, r) =>
       _ <- sql_update recons k (fun _ => true) (claimed_recon token now) ;;
       tx_ret (Some (recon_job k token (claimed_recon token now r)))
   end) env db.

(** A claim that ran out with no attempts left waits for the provider. *)
Definition reclaim_exhausted_payment_reconciliation : Txn ApiError bool :=
  now <- tx_now ;;
  changed <- sql_update_where recons
               (fun _ r => recon_in [RProcessing] r
                  && (PAYMENT_RECONCILIATION_MAX_ATTEMPTS <=? rc_attempts r)
                  && not_after_now (rc_lease_expires r) now)
               (fun r => recon_set RAwaitingProvider (rc_attempts r) now None None (rc_completed_at r)
                  (Some (default "bounded checkout polling exhausted; waiting for payment provider reconciliation"
                           (rc_last_error r))) now r) ;;
  tx_ret (negb (changed =? 0)%nat).

(** ** Waking

    Two statements on one connection, each its own transaction. *)

Definition reconciliation_status (tenant request : string) : Txn ApiError recon_status :=
  found <- sql_get recons (tenant, request) ;;
  tx_lift (ok_or (rc_status <$> found)
    (mkApiError CONFLICT "payment_reconciliation_missing"
       "pending checkout has no durable payment reconciliation job")).

Definition queue_reconciliation (tenant request : string) : Txn ApiError unit :=
  now <- tx_now ;;
  _ <- sql_update recons (tenant, request) (recon_in [RAwaitingProvider; RQueued])
         (fun r => recon_set RQueued (rc_attempts r) now None None (rc_completed_at r) None now r) ;;
  tx_ret tt.

Definition wakeable (s : recon_status) : bool := bool_decide (s ∈ [RAwaitingProvider; RQueued]).

(** ** The work of one claim *)

Definition job_fence (job : PaymentReconciliationJob) : CheckoutFence :=
  PaymentReconciliation (rj_tenant_id job) (rj_request_id job) (rj_parent_lease_token job)
    (rj_lease_token job).

(** [UPDATE ... WHERE tenant_id AND request_id AND status='processing' AND
    checkout_lease_token AND lease_token AND ...] *)
Definition update_job (job : PaymentReconciliationJob) (guard : ReconRow -> bool)
    (set_ : ReconRow -> ReconRow) : Txn ApiError nat :=
  sql_update recons (rj_tenant_id job, rj_request_id job)
    (fun r => recon_in [RProcessing] r && String.eqb (rc_parent_token r) (rj_parent_lease_token job)
              && opt_is (rc_lease_token r) (rj_lease_token job) && guard r) set_.

Definition with_payment (payment_id : option string) (payment operation failure : option string)
    (now : Z) (r : ReconRow) : ReconRow :=
  mkRecon (rc_order_id r) (rc_authorize_request_id r) payment_id (rc_merchant_reference r)
    (rc_amount_minor r) (rc_currency r) (rc_method_type r) (rc_feature_variant r) (rc_status r)
    (rc_parent_token r) (rc_attempts r) (rc_available_at r) (rc_claimed_at r) (rc_lease_token r)
    (rc_lease_expires r) (rc_completed_at r) payment operation failure (rc_last_error r)
    (rc_carrier r) (rc_created r) now.

Definition record_payment_reconciliation_observation (job : PaymentReconciliationJob)
    (payment_status operation_status failure_reason : string) : Txn ApiError unit :=
  lock_checkout_fence (job_fence job) ;;
  now <- tx_now ;;
  changed <- update_job job (fun _ => true)
               (fun r => with_payment (rc_payment_id r) (Some payment_status) (Some operation_status)
                           (Some failure_reason) now r) ;;
  tx_ensure (changed =? 1)%nat
    (lease_lost "payment reconciliation observation lease is no longer current").

Definition attach_payment_to_reconciliation (job : PaymentReconciliationJob) (payment_id : string) :
    Txn ApiError unit :=
  lock_checkout_fence (job_fence job) ;;
  now <- tx_now ;;
  changed <- update_job job
               (fun r => match rc_payment_id r with
                         | None => true
                         | Some p => String.eqb p payment_id
                         end)
               (fun r => with_payment (Some (default payment_id (rc_payment_id r)))
                           (rc_last_payment_status r) (rc_last_operation_status r)
                           (rc_last_failure_reason r) now r) ;;
  tx_ensure (changed =? 1)%nat
    (mkApiError CONFLICT "payment_reconciliation_conflict"
       "payment identity does not match the reconciliation job").

Definition reschedule_payment_reconciliation (job : PaymentReconciliationJob) (e : option ApiError) :
    Txn ApiError unit :=
  let exhausted := PAYMENT_RECONCILIATION_MAX_ATTEMPTS <=? rj_attempts job in
  let delay := retry_delay PAYMENT_RECONCILIATION_RETRY_BASE (rj_attempts job) in
  let message := bounded_error_message ∘ ae_message <$> e in
  lock_checkout_fence (job_fence job) ;;
  now <- tx_now ;;
  changed <- update_job job (fun _ => true)
               (fun r => recon_set (if exhausted then RAwaitingProvider else RQueued) (rc_attempts r)
                           (if exhausted then now else now + delay) None None (rc_completed_at r)
                           (match message with Some m => Some m | None => rc_last_error r end) now r) ;;
  tx_ensure (changed =? 1)%nat
    (lease_lost "payment reconciliation retry lease is no longer current").

(** The attempt of the job in a state it may still leave. *)
Definition job_attempt (job : PaymentReconciliationJob) (a : AttemptRow) : bool :=
  attempt_is a (rj_parent_lease_token job) && attempt_in [APending; AFailed; AStarted] a
  && opt_is (at_order_id a) (rj_order_id job).

Definition attempt_status_of (tenant request : string) : Txn ApiError (option attempt_status) :=
  tx_read (fun db => at_status <$> db_attempts db !! (tenant, request)).

Definition attempt_conflict (m : string) : ApiError :=
  mkApiError CONFLICT "payment_reconciliation_attempt_conflict" m.

Definition complete_payment_reconciliation (job : PaymentReconciliationJob) (payload : json) :
    Txn ApiError unit :=
  lock_checkout_fence (job_fence job) ;;
  now <- tx_now ;;
  attempt_changed <- sql_update attempts (rj_tenant_id job, rj_request_id job) (job_attempt job)
                       (attempt_set APaid None (Some (rj_order_id job)) (Some payload) None now) ;;
  (if (attempt_changed =? 1)%nat then tx_ret tt else
   status <- attempt_status_of (rj_tenant_id job) (rj_request_id job) ;;
   tx_ensure (bool_decide (status = Some APaid))
     (attempt_conflict "pending checkout attempt could not be finalized")) ;;
  job_changed <- update_job job (fun _ => true)
                   (fun r => recon_set RCompleted (rc_attempts r) (rc_available_at r) None None
                               (Some now) (rc_last_error r) now r) ;;
  tx_ensure (job_changed =? 1)%nat
    (lease_lost "payment reconciliation completion lease is no longer current").

Definition fail_payment_reconciliation (job : PaymentReconciliationJob) (e : ApiError) :
    Txn ApiError unit :=
  let message := bounded_error_message (ae_message e) in
  lock_checkout_fence (job_fence job) ;;
  now <- tx_now ;;
  attempt_changed <- sql_update attempts (rj_tenant_id job, rj_request_id job) (job_attempt job)
                       (fun a => attempt_set AFailed None (at_order_id a) None
                                   (Some (ae_status e, ae_code e, message)) now a) ;;
  (if negb (attempt_changed =? 0)%nat then tx_ret tt else
   status <- attempt_status_of (rj_tenant_id job) (rj_request_id job) ;;
   tx_ensure (bool_decide (status = Some AFailed))
     (attempt_conflict "pending checkout attempt could not be failed")) ;;
  settled <- tx_read (fun db => negb (exists_row (open_task (rj_tenant_id job) (rj_order_id job)) (db_tasks db))) ;;
  _ <- sql_update orders (rj_tenant_id job, rj_order_id job)
         (fun o => order_pending o && settled) (cancelled_order now) ;;
  job_changed <- update_job job (fun _ => true)
                   (fun r => recon_set RFailed (rc_attempts r) (rc_available_at r) None None None
                               (Some message) now r) ;;
  tx_ensure (job_changed =? 1)%nat
    (lease_lost "payment reconciliation failure lease is no longer current").

Local Close Scope txn_scope.

End CheckoutReconciliation.
