(* ===== verification/CheckoutOrders.v ===== *)
(** The durable order of a checkout (services/checkout/src/application.rs, lines
    1630 to 1937 and 3802 to 4197): its creation together with the cart, its
    reload, and its finalization with the outbox event in one transaction. *)

From S2P Require Import Prelude Proto Propagation Database CheckoutDomain CheckoutQuote CheckoutRecords.
Import Schema Transactions CheckoutDomain CheckoutQuote CheckoutFence CheckoutCompensation CheckoutAttempts.

Local Open Scope txn_scope.

(** ** Identifiers *)

(** [s.replace(pattern, "")] for a non-empty pattern: [skip] bytes of an
    occurrence are still to be dropped. *)
Fixpoint remove_pattern (pattern s : string) (skip : nat) : string :=
  match s with
  | "" => ""
  | String a rest =>
      match skip with
      | S skip' => remove_pattern pattern rest skip'
      | O =>
          if String.prefix pattern s then remove_pattern pattern rest (String.length pattern - 1)
          else String a (remove_pattern pattern rest 0)
      end
  end.

Definition order_number_of (tenant uuid : string) : string :=
  remove_pattern "tenant-" tenant 0 +:+ "-" +:+ uuid.

(** ** Stored orders *)

(** [c.session_id] of the LEFT JOIN with the order's cart *)
Definition order_session (db : Db) (tenant : string) (o : OrderRow) : option string :=
  or_cart_id o ≫= fun c => db_carts db !! (tenant, c) ≫= ca_session_id.

Definition stored_line (e : ApiError) (i : OrderItemRow) : ApiResult OrderLine :=
  if fits_u32 (oi_quantity i)
  then Ok (mkOrderLine (oi_product_id i) (oi_variant_id i) (oi_sku i) (oi_product_name i)
             (oi_quantity i) (oi_unit_price_minor i))
  else Err e.

(** The row with UNIQUE (tenant_id, checkout_request_id). *)
Definition find_order (db : Db) (tenant request : string) : option (key * OrderRow) :=
  List.find (fun ko => String.eqb ko.1.1 tenant && opt_is (or_checkout_request_id ko.2) request)
    (map_to_list (db_orders db)).

Definition stored_order (tenant id cart customer session : string) (lines : list OrderLine)
    (o : OrderRow) : PendingOrder :=
  {| pd_id := id; pd_order_number := or_order_number o; pd_cart_id := cart;
     pd_tenant_id := tenant; pd_customer_id := customer; pd_session_id := session;
     pd_currency := or_currency o; pd_lines := lines; pd_subtotal_minor := or_subtotal_minor o;
     pd_discount_minor := or_discount_minor o; pd_tax_minor := or_tax_minor o;
     pd_total_minor := or_total_minor o; pd_promotion_code := or_promotion_code o |}.

(** Links the attempt to its order, which must not be another one. *)
Definition link_attempt (tenant request token order_id message : string) : Txn ApiError unit :=
  now <- tx_now ;;
  linked <- sql_update attempts (tenant, request)
              (fun a => attempt_is a token && attempt_in [AStarted] a
                        && match at_order_id a with
                           | None => true
                           | Some o => String.eqb o order_id
                           end)
              (fun a => mkAttempt (at_fingerprint a) (at_status a) (at_lease_token a)
                          (at_lease_expires a) (Some order_id) (at_payload a) (at_error_status a)
                          (at_error_code a) (at_error_message a) now) ;;
  tx_ensure (linked =? 1)%nat (idempotency_corrupt message).

(** The order an earlier run of the request has created. *)
Definition resume_order (input : CheckoutInput) (session : string) (lease : CheckoutLease)
    (id : string) (o : OrderRow) : Txn ApiError (ApiResult PendingOrder) :=
  let tenant := in_tenant_id input in
  stored_session <- tx_read (fun db => order_session db tenant o) ;;
  tx_ensure (opt_is (or_customer_id o) (in_customer_id input)
             && String.eqb (or_currency o) (in_currency_code input)
             && opt_is stored_session session)
    (mkApiError CONFLICT "checkout_request_conflict"
       "checkout request is linked to a different order identity") ;;
  lines <- tx_lift (map_res (stored_line (idempotency_corrupt "stored order item quantity is invalid"))
                      (or_items o)) ;;
  link_attempt tenant (cl_request_id lease) (cl_token lease) id
    "checkout attempt is not linked to its durable order" ;;
  tx_ret (match or_cart_id o with
          | Some cart => Ok (stored_order tenant id cart (in_customer_id input) session lines o)
          | None => Err (idempotency_corrupt "stored order has no cart identity")
          end).

(** ** A new order *)

Record QuoteTotals : Type := mkQuoteTotals {
  qt_subtotal : Z; qt_discount : Z; qt_tax : Z; qt_total : Z }.

Local Open Scope result_scope.
Definition quote_totals (input : CheckoutInput) (quote : QuoteResponse) : ApiResult QuoteTotals :=
  subtotal <- quote_money (qp_subtotal quote) (in_currency_code input) "subtotal" ;;
  discount <- quote_money (qp_discount_total quote) (in_currency_code input) "discount" ;;
  total <- quote_money (qp_grand_total quote) (in_currency_code input) "grand_total" ;;
  tax <- quote_money (qp_tax_total quote) (in_currency_code input) "tax" ;;
  expected_total <- ok_or (checked_sub subtotal discount ≫= fun amount => checked_add amount tax)
                      (protocol_error "quote totals do not balance") ;;
  ensure (total =? expected_total) (protocol_error "quote totals do not balance") ;;
  Ok (mkQuoteTotals subtotal discount tax total).

Definition order_line (quote : QuoteResponse) (item : CheckoutItemInput)
    (row : option VariantProductRow) : ApiResult OrderLine :=
  row <- ok_or (match row with
                | Some r => if vp_variant_active r && vp_product_active r then Some r else None
                | None => None
                end)
           (mkApiError NOT_FOUND "product_not_found" ("unknown SKU: " +:+ ii_sku item)) ;;
  line <- ok_or (List.find (fun l => String.eqb (ql_sku l) (ii_sku item)) (qp_lines quote))
            (protocol_error ("missing quote line: " +:+ ii_sku item)) ;;
  price <- ok_or (amount_minor <$> ql_unit_price line)
             (protocol_error "quote line has no unit price") ;;
  i32_amount price ;;
  Ok {| ln_product_id := vp_product_id row; ln_variant_id := vp_variant_id row;
        ln_sku := ii_sku item;
        ln_product_name := vp_product_name row +:+ " / " +:+ vp_variant_name row;
        ln_quantity := ii_quantity item; ln_unit_price_minor := price |}.
Local Close Scope result_scope.

(** [INSERT INTO carts ... ON CONFLICT DO NOTHING]: a cart with the id, whatever
    its tenant, or with the session (UNIQUE (tenant_id, session_id)), leaves the
    table alone. *)
Definition cart_taken (tenant session cart : string) (k : key) (c : CartRow) : bool :=
  String.eqb k.2 cart || (String.eqb k.1 tenant && opt_is (ca_session_id c) session).

Definition insert_cart (input : CheckoutInput) (session cart : string) : Txn ApiError unit :=
  now <- tx_now ;;
  taken <- sql_exists carts (cart_taken (in_tenant_id input) session cart) ;;
  if taken then tx_ret tt else
  _ <- sql_insert_ignore carts (in_tenant_id input, cart)
         (mkCart (Some (in_customer_id input)) (Some session) CActive (in_currency_code input) ∅
            (Some (now + seconds (7 * 24 * 3600))) now) ;;
  tx_ret tt.

(** The cart is read back; a NULL session cannot be decoded. *)
Definition check_cart (input : CheckoutInput) (session cart : string) : Txn ApiError unit :=
  found <- sql_get carts (in_tenant_id input, cart) ;;
  c <- tx_lift (ok_or found (mkApiError INTERNAL_SERVER_ERROR "cart_persistence_failed"
                               "checkout cart was not persisted")) ;;
  match ca_session_id c with
  | None => tx_refused "error deserializing column 3"
  | Some s =>
      tx_ensure (opt_is (ca_customer_id c) (in_customer_id input)
                 && bool_decide (ca_status c = CActive)
                 && String.eqb (ca_currency c) (in_currency_code input) && String.eqb s session)
        (mkApiError CONFLICT "cart_scope_conflict"
           "cart does not belong to the checkout customer or is not active")
  end.

(** The amounts of a stored item: the generated line total is an INTEGER, and
    the CHECKs of [cart_items] and [order_items] hold. *)
Definition item_check (quantity price : Z) : bool := (0 <? quantity) && (0 <=? price).

Definition item_amounts (line : OrderLine) : Txn ApiError unit :=
  tx_ensure (fits_i32 (ln_quantity line))
    (mkApiError UNPROCESSABLE_ENTITY "quantity_out_of_range"
       "quantity exceeds PostgreSQL integer range") ;;
  tx_lift (i32_amount (ln_unit_price_minor line)) ;;
  if negb (fits_i32 (ln_quantity line * ln_unit_price_minor line)) then tx_refused "integer out of range"
  else if item_check (ln_quantity line) (ln_unit_price_minor line) then tx_ret tt
  else tx_refused "new row violates check constraint".

Definition set_cart_item (variant : string) (quantity price : Z) (c : CartRow) : CartRow :=
  mkCart (ca_customer_id c) (ca_session_id c) (ca_status c) (ca_currency c)
    (<[variant := (quantity, price)]> (ca_items c)) (ca_expires_at c) (ca_updated c).

Fixpoint upsert_cart_items (tenant cart : string) (lines : list OrderLine) : Txn ApiError unit :=
  match lines with
  | [] => tx_ret tt
  | line :: rest =>
      item_amounts line ;;
      _ <- sql_update carts (tenant, cart) (fun _ => true)
             (set_cart_item (ln_variant_id line) (ln_quantity line) (ln_unit_price_minor line)) ;;
      upsert_cart_items tenant cart rest
  end.

Fixpoint order_lines (input : CheckoutInput) (quote : QuoteResponse)
    (items : list CheckoutItemInput) : Txn ApiError (list OrderLine) :=
  match items with
  | [] => tx_ret []
  | item :: rest =>
      row <- sql_get variants (in_tenant_id input, ii_sku item) ;;
      line <- tx_lift (order_line quote item row) ;;
      lines <- order_lines input quote rest ;;
      tx_ret (line :: lines)
  end.

(** The CHECKs of [orders] on its amounts. *)
Definition order_balanced (o : OrderRow) : bool :=
  (0 <=? or_subtotal_minor o) && (0 <=? or_discount_minor o)
  && (or_discount_minor o <=? or_subtotal_minor o) && (0 <=? or_tax_minor o)
  && (or_total_minor o =? or_subtotal_minor o - or_discount_minor o + or_tax_minor o).

Definition insert_order (tenant id : string) (o : OrderRow) : Txn ApiError unit :=
  clash <- sql_exists orders
             (fun k o' => String.eqb k.1 tenant
                && (String.eqb (or_order_number o') (or_order_number o)
                    || match or_checkout_request_id o with
                       | Some r => opt_is (or_checkout_request_id o') r
                       | None => false
                       end)) ;;
  if clash then tx_refused "duplicate key value violates unique constraint" else
  if negb (order_balanced o) then tx_refused "new row violates check constraint" else
  sql_insert orders (tenant, id) o.

Definition order_item (line : OrderLine) : OrderItemRow :=
  mkOrderItem (ln_product_id line) (ln_variant_id line) (ln_sku line) (ln_product_name line)
    (ln_quantity line) (ln_unit_price_minor line).

Definition add_order_item (line : OrderLine) (o : OrderRow) : OrderRow :=
  mkOrder (or_customer_id o) (or_cart_id o) (or_order_number o) (or_status o) (or_currency o)
    (or_subtotal_minor o) (or_discount_minor o) (or_tax_minor o) (or_shipping_minor o)
    (or_total_minor o) (or_checkout_request_id o) (or_promotion_code o) (or_placed_at o)
    (or_items o ++ [order_item line]) (or_created o) (or_updated o).

(** UNIQUE (tenant_id, order_id, variant_id) on [order_items] *)
Fixpoint insert_order_items (tenant id : string) (lines : list OrderLine) : Txn ApiError unit :=
  match lines with
  | [] => tx_ret tt
  | line :: rest =>
      item_amounts line ;;
      added <- sql_update orders (tenant, id)
                 (fun o => negb (one_of (ln_variant_id line) (map oi_variant_id (or_items o))))
                 (add_order_item line) ;;
      if (added =? 1)%nat then insert_order_items tenant id rest
      else tx_refused "duplicate key value violates unique constraint"
  end.

Definition new_order_row (input : CheckoutInput) (cart number request : string) (totals : QuoteTotals)
    (now : Z) : OrderRow :=
  {| or_customer_id := Some (in_customer_id input); or_cart_id := Some cart;
     or_order_number := number; or_status := OPending; or_currency := in_currency_code input;
     or_subtotal_minor := qt_subtotal totals; or_discount_minor := qt_discount totals;
     or_tax_minor := qt_tax totals; or_shipping_minor := 0;
     or_total_minor := qt_total totals;
     or_checkout_request_id := Some request; or_promotion_code := in_promotion_code input;
     or_placed_at := None; or_items := []; or_created := now; or_updated := now |}.

Definition new_order (input : CheckoutInput) (quote : QuoteResponse) (session : string)
    (lease : CheckoutLease) (cart_uuid order_uuid : string) : Txn ApiError (ApiResult PendingOrder) :=
  let tenant := in_tenant_id input in
  now <- tx_now ;;
  totals <- tx_lift (quote_totals input quote) ;;
  let cart := default ("cart-" +:+ cart_uuid) (in_cart_id input) in
  insert_cart input session cart ;;
  check_cart input session cart ;;
  lines <- order_lines input quote (in_items input) ;;
  upsert_cart_items tenant cart lines ;;
  let order_id := "order-" +:+ order_uuid in
  let number := order_number_of tenant order_uuid in
  subtotal <- tx_lift (i32_amount (qt_subtotal totals)) ;;
  discount <- tx_lift (i32_amount (qt_discount totals)) ;;
  tax <- tx_lift (i32_amount (qt_tax totals)) ;;
  total <- tx_lift (i32_amount (qt_total totals)) ;;
  insert_order tenant order_id
    (new_order_row input cart number (cl_request_id lease) (mkQuoteTotals subtotal discount tax total) now) ;;
  insert_order_items tenant order_id lines ;;
  link_attempt tenant (cl_request_id lease) (cl_token lease) order_id
    "checkout attempt could not be linked to its durable order" ;;
  tx_ret (Ok {| pd_id := order_id; pd_order_number := number; pd_cart_id := cart;
                pd_tenant_id := tenant; pd_customer_id := in_customer_id input;
                pd_session_id := session; pd_currency := in_currency_code input; pd_lines := lines;
                pd_subtotal_minor := qt_subtotal totals; pd_discount_minor := qt_discount totals;
                pd_tax_minor := qt_tax totals; pd_total_minor := qt_total totals;
                pd_promotion_code := in_promotion_code input |}).

Definition create_pending_order_tx (input : CheckoutInput) (quote : QuoteResponse) (session : string)
    (lease : CheckoutLease) (cart_uuid order_uuid : string) : Txn ApiError (ApiResult PendingOrder) :=
  existing <- tx_read (fun db => find_order db (in_tenant_id input) (cl_request_id lease)) ;;
  match existing with
  | Some (k, o) => resume_order input session lease k.2 o
  | None => new_order input quote session lease cart_uuid order_uuid
  end.

(** The checks before the connection is taken. *)
Definition order_preconditions (input : CheckoutInput) (quote : QuoteResponse) : ApiResult string :=
  (validate_input input ;; validate_quote_response input quote ;;
   ok_or (in_session_id input)
     (mkApiError BAD_REQUEST "invalid_session" "checkout session identity is required"))%res.

(** The two UUIDs are drawn inside. *)
Definition create_pending_order (fault : option tx_fault) (now : Z) (input : CheckoutInput)
    (quote : QuoteResponse) (lease : CheckoutLease) (cart_uuid order_uuid : string) (db : Db) :
    ApiResult PendingOrder * Db :=
  match order_preconditions input quote with
  | Err e => (Err e, db)
  | Ok session =>
      match db_run fault now (fun _ => false)
              (create_pending_order_tx input quote session lease cart_uuid order_uuid) db with
      | (Ok r, db') => (r, db')
      | (Err e, db') => (Err e, db')
      end
  end.

(** ** Reloading an order for compensation *)

Definition load_failed (m : string) : ApiError :=
  compensation_persistence_failed SERVICE_UNAVAILABLE m.

(** The rows are read by two statements on one connection. *)
Definition load_pending_order (db : Db) (tenant id : string) : ApiResult PendingOrder :=
  (o <- ok_or (db_orders db !! (tenant, id))
          (mkApiError NOT_FOUND "order_not_found" "compensation order was not found") ;;
   cart <- ok_or (or_cart_id o) (load_failed "compensation order has no cart identity") ;;
   session <- ok_or (order_session db tenant o)
                (load_failed "compensation order has no session identity") ;;
   lines <- map_res (stored_line (load_failed "compensation order item quantity is invalid"))
              (or_items o) ;;
   customer <- ok_or (or_customer_id o) (load_failed "compensation order has no customer identity") ;;
   Ok (stored_order tenant id cart customer session lines o))%res.

(** ** Finalization *)

Definition paid_event_key (order_id : string) : string := order_id +:+ ":paid".
Definition exposure_key (order_id : string) : string := paid_event_key order_id +:+ ":checkoutFlow".

Definition event_recorded (tenant event_key : string) (k : key) (e : OutboxEventRow) : bool :=
  String.eqb k.1 tenant && String.eqb (ox_event_key e) event_key.

Definition order_status_text (s : order_status) : string :=
  match s with
  | OPending => "pending" | OConfirmed => "confirmed" | OPaid => "paid"
  | OProcessing => "processing" | OShipped => "shipped" | ODelivered => "delivered"
  | OCancelled => "cancelled" | ORefunded => "refunded"
  end.

Definition finalization_pending (m : string) : ApiError :=
  mkApiError SERVICE_UNAVAILABLE "finalization_reconciliation_pending" m.

Definition finalization_committed (db : Db) (order : PendingOrder) : ApiResult bool :=
  (o <- ok_or (db_orders db !! (pd_tenant_id order, pd_id order))
          (finalization_pending "finalized order is not observable yet") ;;
   let outbox_present :=
     exists_row (event_recorded (pd_tenant_id order) (paid_event_key (pd_id order))) (db_outbox db) in
   match or_status o with
   | OPaid => ensure outbox_present
                (finalization_pending "paid order is missing its transactional outbox event") ;;
              Ok true
   | OPending => Ok false
   | s => Err (finalization_pending ("order is in unexpected state: " +:+ order_status_text s))
   end)%res.

Definition line_payload (line : OrderLine) : json :=
  JObj [("sku", JStr (ln_sku line)); ("quantity", JNum (ln_quantity line));
        ("unit_price_minor", JNum (ln_unit_price_minor line))].

(** The body of the paid event. *)
Definition paid_payload (order : PendingOrder) (payment_id : string) : json :=
  JObj [("order_id", JStr (pd_id order)); ("order_number", JStr (pd_order_number order));
        ("tenant_id", JStr (pd_tenant_id order)); ("customer_id", JStr (pd_customer_id order));
        ("session_id", JStr (pd_session_id order)); ("currency", JStr (pd_currency order));
        ("subtotal_minor", JNum (pd_subtotal_minor order));
        ("discount_minor", JNum (pd_discount_minor order));
        ("tax_minor", JNum (pd_tax_minor order)); ("shipping_minor", JNum 0);
        ("total_minor", JNum (pd_total_minor order)); ("payment_id", JStr payment_id);
        ("payment_status", JStr "captured"); ("items", JArr (map line_payload (pd_lines order)))].

Definition context_payload (c : Context) (variant : string) : json :=
  JObj [("feature_variant", JStr variant);
        ("customer_segment", opt_json (baggage_get c "customer.segment"));
        ("region", opt_json (baggage_get c "region"));
        ("request_priority", opt_json (baggage_get c "request.priority"))].

(** The columns of the exposure and of the analytics event. *)
Definition exposure_row (order : PendingOrder) (c : Context) (variant : string) (now : Z) : json :=
  JObj [("customer_id", JStr (pd_customer_id order)); ("session_id", JStr (pd_session_id order));
        ("feature_key", JStr "checkoutFlow"); ("variant", JStr variant);
        ("context", context_payload c variant); ("exposed_at", JNum now)].

Definition analytics_row (order : PendingOrder) (c : Context) (variant payment_id trace_id span_id : string)
    (now : Z) : json :=
  JObj [("customer_id", JStr (pd_customer_id order)); ("session_id", JStr (pd_session_id order));
        ("event_name", JStr "order.paid"); ("event_version", JNum 1); ("source", JStr "checkout");
        ("entity_type", JStr "order"); ("entity_id", JStr (pd_id order)); ("occurred_at", JNum now);
        ("trace_id", opt_json (non_empty (Some trace_id)));
        ("span_id", opt_json (non_empty (Some span_id)));
        ("properties", paid_payload order payment_id); ("context", context_payload c variant)].

Definition paid_event (order : PendingOrder) (payment_id : string)
    (propagation : string * string * string) (now : Z) : OutboxEventRow :=
  {| ox_event_key := paid_event_key (pd_id order); ox_aggregate_type := "order";
     ox_aggregate_id := pd_id order; ox_event_type := "order.paid"; ox_schema_version := 1;
     ox_occurred_at := now; ox_payload := paid_payload order payment_id;
     ox_traceparent := propagation.1.1; ox_tracestate := propagation.1.2;
     ox_baggage := propagation.2; ox_status := XQueued; ox_attempts := 0; ox_available_at := now;
     ox_published_at := None; ox_created := now; ox_failure_code := None;
     ox_failure_message := None; ox_failed_at := None; ox_claim_token := None;
     ox_claim_expires := None |}.

Section propagation.
Variable inject_context : Context -> headers -> headers.

Definition propagation_invalid (m : string) : ApiError :=
  mkApiError INTERNAL_SERVER_ERROR "propagation_persistence_invalid" m.

Definition stored_propagation (c : Context) : ApiResult (string * string * string) :=
  (h <- res_map_err (fun m => propagation_invalid ("generated durable W3C carrier is invalid: " +:+ m))
          (inject_durable_context_headers inject_context c) ;;
   let header name :=
     ok_or (header_get name h ≫= id)
       (propagation_invalid ("generated durable W3C carrier is missing " +:+ name)) in
   traceparent <- header "traceparent" ;;
   tracestate <- header "tracestate" ;;
   baggage <- header "baggage" ;;
   Ok (traceparent, tracestate, baggage))%res.
End propagation.

Definition finalization_conflict (m : string) : ApiError :=
  mkApiError CONFLICT "finalization_state_conflict" m.

Definition checked_out_cart (now : Z) (c : CartRow) : CartRow :=
  mkCart (ca_customer_id c) (ca_session_id c) CCheckedOut (ca_currency c) (ca_items c)
    (ca_expires_at c) now.

Definition redeemable (now : Z) (p : PromoRow) : bool :=
  pm_active p && (pm_starts_at p <=? now)
  && match pm_ends_at p with None => true | Some e => now <? e end
  && match pm_max_redemptions p with None => true | Some m => pm_redemption_count p <? m end.

Definition redeemed (p : PromoRow) : PromoRow :=
  mkPromo (pm_active p) (pm_starts_at p) (pm_ends_at p) (pm_max_redemptions p)
    (pm_redemption_count p + 1).

Definition redeem_promotion (tenant : string) (code : option string) : Txn ApiError unit :=
  now <- tx_now ;;
  match non_empty code with
  | None => tx_ret tt
  | Some code =>
      redeemed <- sql_update promotions (tenant, code) (redeemable now) redeemed ;;
      tx_ensure (redeemed =? 1)%nat
        (mkApiError CONFLICT "promotion_redemption_unavailable" "promotion is no longer redeemable")
  end.

(** ON CONFLICT (tenant_id, event_key) DO NOTHING; the primary key still has to
    be free. *)
Definition insert_outbox (tenant id : string) (e : OutboxEventRow) : Txn ApiError unit :=
  recorded <- sql_exists outbox (event_recorded tenant (ox_event_key e)) ;;
  if recorded then tx_ret tt
  else tx_with_err (db_error_at "finalize outbox") (sql_insert outbox (tenant, id) e).

Definition outbox_id (order_id : string) : string := "outbox-" +:+ order_id.

Definition finalize_order_tx (c : Context) (order : PendingOrder) (payment_id variant : string)
    (trace_id span_id : string) (propagation : string * string * string) (fence : CheckoutFence) :
    Txn ApiError unit :=
  let tenant := pd_tenant_id order in
  lock_checkout_fence fence ;;
  now <- tx_now ;;
  current <- tx_read (fun db => fence_generation db tenant fence [AStarted]) ;;
  order_changed <- sql_update orders (tenant, pd_id order) (fun o => order_pending o && current)
                     (fun o => order_set OPaid (Some (default now (or_placed_at o))) now o) ;;
  tx_ensure (order_changed =? 1)%nat (finalization_conflict "order is no longer pending") ;;
  cart_changed <- sql_update carts (tenant, pd_cart_id order)
                    (fun c => bool_decide (ca_status c = CActive)) (checked_out_cart now) ;;
  tx_ensure (cart_changed =? 1)%nat (finalization_conflict "order cart is no longer active") ;;
  redeem_promotion tenant (pd_promotion_code order) ;;
  _ <- sql_insert_ignore exposures (tenant, exposure_key (pd_id order))
         (exposure_row order c variant now) ;;
  _ <- sql_insert_ignore analytics (tenant, paid_event_key (pd_id order))
         (analytics_row order c variant payment_id trace_id span_id now) ;;
  insert_outbox tenant (outbox_id (pd_id order)) (paid_event order payment_id propagation now).

Definition commit_ambiguous (m : string) : ApiError :=
  mkApiError SERVICE_UNAVAILABLE "finalization_commit_ambiguous"
    ("finalization commit outcome is unknown: " +:+ m).

Definition finalize_order (inject_context : Context -> headers -> headers) (fault : option tx_fault)
    (now : Z) (c : Context) (order : PendingOrder) (payment_id variant trace_id span_id : string)
    (fence : CheckoutFence) (db : Db) : ApiResult unit * Db :=
  match stored_propagation inject_context c with
  | Err e => (Err e, db)
  | Ok propagation =>
      run_tx database_timeout db_error commit_ambiguous fault now (fun _ => false)
        (finalize_order_tx c order payment_id variant trace_id span_id propagation fence) db
  end.

(** ** Contexts and quotes of the response *)

Definition context_with_checkout_variant (c : Context) (variant : string) : Context :=
  extend_baggage c [("feature.variant", variant)].

Definition context_with_session_id (c : Context) (session : option string) : Context :=
  match non_blank session with
  | Some s => extend_baggage c [("session.id", s)]
  | None => c
  end.

Definition context_with_identity (c : Context) (tenant session : string) : Context :=
  extend_baggage c [("tenant.id", tenant); ("session.id", session)].

Definition money_json (m : option Money) : json :=
  match m with
  | None => JNull
  | Some m => JObj [("currency_code", JStr (currency_code m)); ("amount_minor", JNum (amount_minor m))]
  end.

Definition quote_json (q : QuoteResponse) : json :=
  JObj [("quote_id", JStr (qp_quote_id q)); ("status", JNum (qp_status q));
        ("lines", JArr (map (fun l => JObj [("sku", JStr (ql_sku l)); ("quantity", JNum (ql_quantity l));
                                            ("unit_price", money_json (ql_unit_price l));
                                            ("line_total", money_json (ql_line_total l))])
                          (qp_lines q)));
        ("subtotal", money_json (qp_subtotal q));
        ("discount_total", money_json (qp_discount_total q));
        ("tax_total", money_json (qp_tax_total q));
        ("grand_total", money_json (qp_grand_total q));
        ("pricing_version", JStr (qp_pricing_version q))].

Local Close Scope txn_scope.
