(* ===== verification/CheckoutCart.v ===== *)
(** The cart endpoints' transactions (services/checkout/src/api.rs,
    [add_cart_item], [replace_cart_item] and [remove_cart_item]). *)

From S2P Require Import Prelude Proto Propagation PricingDomain PricingService Database CheckoutDomain CheckoutQuote CheckoutRecords CheckoutOrders.
Import Schema Transactions CheckoutDomain CheckoutQuote CheckoutFence CheckoutOrders.

Record AddCartItemInput : Type := mkAddCartItemInput {
  ac_tenant_id : string; ac_customer_id : string; ac_cart_id : option string;
  ac_session_id : option string; ac_sku : string; ac_quantity : Z; ac_currency_code : string }.

(** ** The current price of a SKU *)

Definition price_current (now : Z) (tenant variant currency : string) (p : PriceRow) : bool :=
  String.eqb (price_tenant p) tenant && String.eqb (price_variant p) variant
  && String.eqb (price_currency p) currency && price_is_default p && (price_valid_from p <=? now)
  && match price_valid_to p with None => true | Some t => now <? t end.

(** [ORDER BY pr.valid_from DESC LIMIT 1]; of two that start together, the first
    the table lists *)
Definition latest_price (rows : list PriceRow) : option PriceRow :=
  foldl (fun best p => match best with
                       | Some b => if price_valid_from b <? price_valid_from p then Some p else Some b
                       | None => Some p
                       end) None rows.

(** The variant of an active SKU and its current price *)
Definition priced_variant (db : Db) (prices : list PriceRow) (now : Z) (tenant sku currency : string) :
    option (string * Z) :=
  v ← db_variants db !! (tenant, sku);
  if vp_variant_active v then
    p ← latest_price (List.filter (price_current now tenant (vp_variant_id v) currency) prices);
    Some (vp_variant_id v, price_amount p)
  else None.

(** ** Cart rows *)

Definition with_cart_items (items : gmap string (Z * Z)) (updated : Z) (c : CartRow) : CartRow :=
  mkCart (ca_customer_id c) (ca_session_id c) (ca_status c) (ca_currency c) items (ca_expires_at c) updated.

Definition new_cart (i : AddCartItemInput) (session : string) (now : Z) : CartRow :=
  mkCart (Some (ac_customer_id i)) (Some session) CActive (ac_currency_code i) ∅
    (Some (now + seconds (7 * 24 * 3600))) now.

(** CHECK (char_length(currency) = 3 AND currency = upper(currency)), of three
    bytes that are their own upper case *)
Definition currency_check (currency : string) : bool :=
  str_forallb (fun a => (byte_of a <? 128)%N) currency.

Local Open Scope txn_scope.

(** A refused CHECK, or the [ON CONFLICT DO NOTHING RETURNING id] *)
Definition insert_new_cart (i : AddCartItemInput) (cart session : string) : Txn ApiError bool :=
  now <- tx_now ;;
  if negb (currency_check (ac_currency_code i)) then tx_refused "new row violates check constraint"
  else
    taken <- sql_exists carts (cart_taken (ac_tenant_id i) session cart) ;;
    if taken then tx_ret false
    else _ <- sql_insert_ignore carts (ac_tenant_id i, cart) (new_cart i session now) ;; tx_ret true.

(** [cart-new] without an id of the request: the session's cart, or else any
    active cart of the customer in the currency, or a new one *)
Definition open_cart (i : AddCartItemInput) (session : option string) (k : key) (c : CartRow) : bool :=
  String.eqb k.1 (ac_tenant_id i) && opt_is (ca_customer_id c) (ac_customer_id i)
  && match session with Some s => opt_is (ca_session_id c) s | None => true end
  && String.eqb (ca_currency c) (ac_currency_code i) && bool_decide (ca_status c = CActive).

(** [ORDER BY updated_at DESC LIMIT 1] *)
Definition latest_cart (where_ : key -> CartRow -> bool) : Txn ApiError (option key) :=
  found <- tx_read (fun db => first_by where_ (fun a b => ca_updated b.2 <=? ca_updated a.2) (db_carts db)) ;;
  tx_ret (fst <$> found).

Definition choose_cart (i : AddCartItemInput) (session cart_uuid : string) : Txn ApiError (string * bool) :=
  match ac_cart_id i with
  | Some cart => tx_ret (cart, true)
  | None =>
      session_cart <- latest_cart (open_cart i (Some session)) ;;
      existing <- match session_cart with
                  | Some k => tx_ret (Some k)
                  | None => latest_cart (open_cart i None)
                  end ;;
      tx_ret (match existing with
              | Some k => (k.2, false)
              | None => ("cart-" +:+ cart_uuid, true)
              end)
  end.

(** The insert, and a second one under a new session when the session is taken *)
Definition ensure_cart (i : AddCartItemInput) (cart session session_uuid : string) : Txn ApiError string :=
  inserted <- insert_new_cart i cart session ;;
  if inserted || bool_decide (is_Some (ac_cart_id i)) then tx_ret session
  else
    let session := "session-" +:+ session_uuid in
    again <- insert_new_cart i cart session ;;
    if again then tx_ret session else tx_refused "duplicate key value violates unique constraint".

Definition cart_not_found (m : string) : ApiError := mkApiError NOT_FOUND "cart_not_found" m.

(** The cart must be the customer's, active, in the currency and the session; a
    NULL session cannot be decoded. *)
Definition lock_cart (i : AddCartItemInput) (cart session : string) : Txn ApiError unit :=
  found <- sql_get carts (ac_tenant_id i, cart) ;;
  c <- tx_lift (ok_or found (cart_not_found "cart was not found for this tenant")) ;;
  match ca_session_id c with
  | None => tx_refused "error deserializing column 3"
  | Some s =>
      tx_ensure (opt_is (ca_customer_id c) (ac_customer_id i) && bool_decide (ca_status c = CActive)
                 && String.eqb (ca_currency c) (ac_currency_code i) && String.eqb s session)
        (cart_not_found "cart was not found for this customer")
  end.

(** The row the upsert leaves, or [None] when its WHERE refuses it *)
Definition upserted (old : option (Z * Z)) (quantity price : Z) : option (Z * Z) :=
  match old with
  | None => Some (quantity, price)
  | Some (held, _) => if held + quantity <=? MAX_QUANTITY then Some (held + quantity, price) else None
  end.

(** [INSERT INTO cart_items ... ON CONFLICT DO UPDATE ... WHERE]: the generated
    line total is an INTEGER. *)
Definition upsert_item (tenant cart variant : string) (quantity price : Z) : Txn ApiError nat :=
  c <- sql_get carts (tenant, cart) ;;
  match upserted (c ≫= fun c => ca_items c !! variant) quantity price with
  | None => tx_ret 0%nat
  | Some (q, p) =>
      if negb (fits_i32 (q * p)) then tx_refused "integer out of range"
      else if item_check q p then
        sql_update carts (tenant, cart) (fun _ => true) (set_cart_item variant q p)
      else tx_refused "new row violates check constraint"
  end.

Definition touch_cart (tenant cart : string) : Txn ApiError unit :=
  now <- tx_now ;;
  _ <- sql_update carts (tenant, cart) (fun _ => true) (fun c => with_cart_items (ca_items c) now c) ;;
  tx_ret tt.

(** Id of the cart, its session, and the unit price *)
Definition add_cart_item_tx (prices : list PriceRow) (i : AddCartItemInput) (session cart_uuid session_uuid : string) :
    Txn ApiError (string * string * Z) :=
  chosen <- choose_cart i session cart_uuid ;;
  let cart := chosen.1 in
  session <- (if chosen.2 : bool then ensure_cart i cart session session_uuid else tx_ret session) ;;
  lock_cart i cart session ;;
  now <- tx_now ;;
  row <- tx_read (fun db => priced_variant db prices now (ac_tenant_id i) (ac_sku i) (ac_currency_code i)) ;;
  vp <- tx_lift (ok_or row (mkApiError NOT_FOUND "product_not_found" "SKU has no active price")) ;;
  changed <- upsert_item (ac_tenant_id i) cart vp.1 (ac_quantity i) vp.2 ;;
  tx_ensure (changed =? 1)%nat
    (mkApiError BAD_REQUEST "cart_quantity_limit"
       ("cart item quantity cannot exceed " +:+ show_Z MAX_QUANTITY)) ;;
  touch_cart (ac_tenant_id i) cart ;;
  tx_ret (cart, session, vp.2).

(** ** Replacing and removing an item *)

Definition scoped_cart (s : CartItemScope) (session : option string) (c : CartRow) : bool :=
  opt_is (ca_customer_id c) (cs_customer_id s) && bool_decide (ca_status c = CActive)
  && match session with Some session => opt_is (ca_session_id c) session | None => true end.

(** The cart, locked, and its item of the SKU *)
Definition scoped_item (s : CartItemScope) (session : option string) (sku : string) :
    Txn ApiError (string * (Z * Z)) :=
  found <- sql_get carts (cs_tenant_id s, cs_cart_id s) ;;
  c <- tx_lift (ok_or (match found with
                       | Some c => if scoped_cart s session c then Some c else None
                       | None => None
                       end) (cart_not_found "active cart was not found")) ;;
  v <- sql_get Transactions.variants (cs_tenant_id s, sku) ;;
  tx_lift (ok_or (v ← v; item ← ca_items c !! vp_variant_id v; Some (vp_variant_id v, item))%stdpp
             (mkApiError NOT_FOUND "cart_item_not_found" "cart item was not found")).

Definition replace_cart_item_tx (s : CartItemScope) (session : option string) (sku : string) (quantity : Z) :
    Txn ApiError (Z * Z) :=
  found <- scoped_item s session sku ;;
  let '(variant, (_, price)) := found in
  (if negb (fits_i32 (quantity * price)) then tx_refused "integer out of range"
   else if item_check quantity price then
     _ <- sql_update carts (cs_tenant_id s, cs_cart_id s) (fun _ => true) (set_cart_item variant quantity price) ;;
     tx_ret tt
   else tx_refused "new row violates check constraint") ;;
  touch_cart (cs_tenant_id s) (cs_cart_id s) ;;
  tx_ret (quantity, price).

Definition delete_cart_item (variant : string) (c : CartRow) : CartRow :=
  with_cart_items (delete variant (ca_items c)) (ca_updated c) c.

Definition remove_cart_item_tx (s : CartItemScope) (session : option string) (sku : string) :
    Txn ApiError (Z * Z) :=
  found <- scoped_item s session sku ;;
  let '(variant, item) := found in
  _ <- sql_update carts (cs_tenant_id s, cs_cart_id s) (fun _ => true) (delete_cart_item variant) ;;
  touch_cart (cs_tenant_id s) (cs_cart_id s) ;;
  tx_ret item.
Local Close Scope txn_scope.
