(* ===== verification/CheckoutOutbox.v ===== *)
(** The transactional outbox of the checkout service
    (services/checkout/src/infrastructure.rs, lines 625 to 737 and 1779 to 2210):
    the claim of an event, its publication with a confirm, and the settling of
    the row; with the RabbitMQ channel it publishes on. *)

From S2P Require Import Prelude Propagation Database Runtime CheckoutDomain CheckoutRecords.
Import Schema Transactions Rabbit CheckoutDomain CheckoutFence.

(** ** Constants *)

Definition OUTBOX_LEASE : Z := seconds 30.
Definition OUTBOX_MAX_ATTEMPTS : Z := 3.
Definition OUTBOX_RETRY_BASE_SECONDS : Z := 2.
Definition OUTBOX_ERROR_LIMIT : nat := 1000.
Definition EXCHANGE : string := "commerce.events".
Definition RABBIT_RECONNECT_MIN_DELAY : Z := seconds 1.
Definition RABBIT_RECONNECT_MAX_DELAY : Z := seconds 30.

(** ** The channel *)

(** [RabbitPublisher]: the generation of the active channel and whether it is
    still connected, and the generation the next one gets. *)
Record RabbitPublisher : Type := mkRabbit { rb_active : option (Z * bool); rb_next : Z }.

Definition init_rabbit : RabbitPublisher := mkRabbit None 1.

(** [connect] is the outcome of [connect_rabbit] under its timeout. *)
Definition ensure_channel (connect : result string unit) (rb : RabbitPublisher) :
    result string Z * RabbitPublisher :=
  match rb_active rb with
  | Some (generation, true) => (Ok generation, rb)
  | _ =>
      match connect with
      | Err m => (Err m, mkRabbit None (rb_next rb))
      | Ok _ => (Ok (rb_next rb),
                 mkRabbit (Some (rb_next rb, true)) ((rb_next rb + 1) mod u64_modulus))
      end
  end.

Definition invalidate (generation : Z) (rb : RabbitPublisher) : RabbitPublisher :=
  match rb_active rb with
  | Some (g, _) => if g =? generation then mkRabbit None (rb_next rb) else rb
  | None => rb
  end.

Definition is_ready (rb : RabbitPublisher) : bool :=
  match rb_active rb with Some (_, connected) => connected | None => false end.

(** The supervisor's delay after an attempt to connect. *)
Definition supervisor_delay (connected : bool) (delay : Z) : Z :=
  if connected then RABBIT_RECONNECT_MIN_DELAY
  else Z.min (delay + delay) RABBIT_RECONNECT_MAX_DELAY.

(** ** Claiming an event *)

Local Open Scope txn_scope.

Definition outbox_set (status : outbox_status) (attempts available_at : Z)
    (published_at : option Z) (failure : option string * option string * option Z)
    (claim : option (string * Z)) (e : OutboxEventRow) : OutboxEventRow :=
  mkOutboxEvent (ox_event_key e) (ox_aggregate_type e) (ox_aggregate_id e) (ox_event_type e)
    (ox_schema_version e) (ox_occurred_at e) (ox_payload e) (ox_traceparent e) (ox_tracestate e)
    (ox_baggage e) status attempts available_at published_at (ox_created e) failure.1.1
    failure.1.2 failure.2 (fst <$> claim) (snd <$> claim).

Definition outbox_failure (e : OutboxEventRow) : option string * option string * option Z :=
  (ox_failure_code e, ox_failure_message e, ox_failed_at e).

Definition outbox_in (statuses : list outbox_status) (e : OutboxEventRow) : bool :=
  bool_decide (ox_status e ∈ statuses).

(** The lease of a processing event has run out. *)
Definition claim_expired (now : Z) (e : OutboxEventRow) : bool :=
  outbox_in [XProcessing] e && not_after_now (ox_claim_expires e) now.

Definition outbox_exhausted (now : Z) (e : OutboxEventRow) : bool :=
  (OUTBOX_MAX_ATTEMPTS <=? ox_attempts e) && (outbox_in [XQueued] e || claim_expired now e).

Definition dead_letter_event (now : Z) (e : OutboxEventRow) : OutboxEventRow :=
  outbox_set XFailed (ox_attempts e) (ox_available_at e) (ox_published_at e)
    (Some (default "publish_retry_exhausted" (ox_failure_code e)),
     Some (default "outbox publish retry budget exhausted" (ox_failure_message e)),
     Some (default now (ox_failed_at e))) None e.

Definition outbox_claimable (now : Z) (e : OutboxEventRow) : bool :=
  (ox_attempts e <? OUTBOX_MAX_ATTEMPTS)
  && (outbox_in [XQueued] e && (ox_available_at e <=? now) || claim_expired now e).

Definition claimed_event (token : string) (now : Z) (e : OutboxEventRow) : OutboxEventRow :=
  outbox_set XProcessing (ox_attempts e + 1) (now + OUTBOX_LEASE) (ox_published_at e)
    (outbox_failure e) (Some (token, now + OUTBOX_LEASE)) e.

(** A claimed event: its key, the claim's token and the row the claim returned. *)
Record OutboxRow : Type := mkOutboxRow {
  ob_tenant_id : string; ob_id : string; ob_claim_token : string; ob_row : OutboxEventRow
}.

Definition claim_outbox_tx (token : string) : Txn ApiError (option OutboxRow) :=
  now <- tx_now ;;
  _ <- sql_update_where outbox (fun _ e => outbox_exhausted now e) (dead_letter_event now) ;;
  found <- sql_first_unlocked outbox (fun _ e => outbox_claimable now e)
             (fun a b => ox_created a.2 <=? ox_created b.2) ;;
  match found with
  | None => tx_ret None
  | Some (k, e) =>
      _ <- sql_update outbox k (fun _ => true) (claimed_event token now) ;;
      tx_ret (Some (mkOutboxRow k.1 k.2 token (claimed_event token now e)))
  end.

(** A commit that fails after a claim is reported under its own stage. *)
Definition claim_outbox_event (fault : option tx_fault) (now : Z) (locked : key -> bool)
    (token : string) (db : Db) : ApiResult (option OutboxRow) * Db :=
  let stage := match claim_outbox_tx token (mkTxenv now db_error locked) db with
               | Ok (Some _, _) => "claim outbox event"
               | _ => "database"
               end in
  run_tx database_timeout db_error (db_error_at stage) fault now locked (claim_outbox_tx token) db.

(** ** Publishing *)

(** The messages carried with an event. *)
Record Message : Type := mkMessage {
  ms_exchange : string; ms_routing_key : string; ms_mandatory : bool; ms_delivery_mode : Z;
  ms_message_id : string; ms_headers : list (string * string); ms_body : string
}.

(** What happens to a message under the publish timeout. *)
Inductive publication : Type :=
| SendFailed (m : string)
| ConfirmFailed (m : string)
| PublishTimedOut
| Confirmed (c : Confirmation).

Definition unavailable (code m : string) : ApiError := mkApiError SERVICE_UNAVAILABLE code m.

Definition require_routed_confirmation (c : Confirmation) : ApiResult unit :=
  match c with
  | Ack false => Ok tt
  | Ack true => Err (unavailable "messaging_unroutable"
                       "RabbitMQ returned the published event because no route accepted it")
  | Nack => Err (unavailable "messaging_rejected"
                   "RabbitMQ negatively acknowledged the published event")
  | NotRequested => Err (unavailable "messaging_confirm_unavailable"
                           "RabbitMQ publisher confirmation was not requested")
  end.

Definition stored_propagation_invalid (m : string) : ApiError :=
  mkApiError INTERNAL_SERVER_ERROR "stored_propagation_invalid" m.

(** [HeaderValue::from_str]: visible bytes and tab *)
Definition header_byte (a : ascii) : bool :=
  let n := byte_of a in ((32 <=? n) && negb (n =? 127) || (n =? 9))%N.

(** [HeaderValue::to_str]: ASCII only *)
Definition header_text (value : string) : option string :=
  if str_forallb (fun a => (byte_of a <? 127)%N) value then Some value else None.

Definition insert_w3c_header (h : headers) (key : string) (value : option string) : ApiResult headers :=
  (value <- ok_or (non_empty value)
              (stored_propagation_invalid ("stored propagation field " +:+ key +:+ " is missing")) ;;
   ensure (str_forallb header_byte value)
     (stored_propagation_invalid
        ("stored propagation field " +:+ key +:+ " is invalid: failed to parse header value")) ;;
   Ok (List.filter (fun nv => negb (String.eqb nv.1 key)) h ++ [(key, header_text value)]))%res.

(** [insert_header] of the AMQP field table: an empty value is left out. *)
Definition insert_header (h : list (string * string)) (key : string) (value : option string) :
    list (string * string) :=
  match non_empty value with
  | Some v => assoc_insert key v h
  | None => h
  end.

Definition event_envelope (occurred_at : string) (o : OutboxRow) (payload : json) : json :=
  let e := ob_row o in
  JObj [("event_id", JStr (ob_id o)); ("event_key", JStr (ox_event_key e));
        ("schema_version", JNum (ox_schema_version e)); ("tenant_id", JStr (ob_tenant_id o));
        ("event_type", JStr (ox_event_type e)); ("occurred_at", JStr occurred_at);
        ("aggregate_type", JStr (ox_aggregate_type e)); ("aggregate_id", JStr (ox_aggregate_id e));
        ("payload", payload)].

Section publish.
(** OpenTelemetry's propagator, PostgreSQL's [to_char] of a timestamp and the
    reading of [payload::text], and serde_json's printer. *)
Variable extract_context : headers -> Context.
Variable inject_context : Context -> headers -> headers.
Variable iso_time : Z -> string.
Variable read_payload : json -> result string json.
Variable json_bytes : json -> result string string.

Definition extract_durable_context (h : headers) : result string Context :=
  (validate_durable_context h ;; Ok (sanitize_context (extract_context h)))%res.

Definition stored_carrier_context (traceparent tracestate baggage : option string) : ApiResult Context :=
  (h <- insert_w3c_header [] "traceparent" traceparent ;;
   h <- insert_w3c_header h "tracestate" tracestate ;;
   h <- insert_w3c_header h "baggage" baggage ;;
   res_map_err stored_propagation_invalid (extract_durable_context h))%res.

Definition stored_event_context (e : OutboxEventRow) : ApiResult Context :=
  stored_carrier_context (Some (ox_traceparent e)) (Some (ox_tracestate e)) (Some (ox_baggage e)).

(** The AMQP headers: a propagation field that is visible ASCII, and the
    routing identity. *)
Definition event_headers (o : OutboxRow) (c : Context) : list (string * string) :=
  let propagated := inject_context_headers inject_context c [] in
  let h := foldl (fun h key => insert_header h key (header_get key propagated ≫= id)) []
             ["traceparent"; "tracestate"; "baggage"] in
  let h := insert_header h "event-key" (Some (ox_event_key (ob_row o))) in
  let h := insert_header h "event-type" (Some (ox_event_type (ob_row o))) in
  insert_header h "tenant-id" (Some (ob_tenant_id o)).

Definition event_message (o : OutboxRow) (c : Context) (body : string) : Message :=
  mkMessage EXCHANGE (ox_event_type (ob_row o)) true 2 (ob_id o) (event_headers o c) body.

(** [current] is the context of the publishing span. *)
Definition publish_outbox_message (current : Context) (connect : result string unit)
    (broker : Message -> publication) (o : OutboxRow) (rb : RabbitPublisher) :
    ApiResult unit * RabbitPublisher :=
  let prepared :=
    (parent <- stored_event_context (ob_row o) ;;
     payload <- res_map_err (mkApiError INTERNAL_SERVER_ERROR "event_protocol_error")
                  (read_payload (ox_payload (ob_row o))) ;;
     Ok (with_safe_parent_baggage current parent,
         event_envelope (iso_time (ox_occurred_at (ob_row o))) o payload))%res in
  match prepared with
  | Err e => (Err e, rb)
  | Ok (context, envelope) =>
      match ensure_channel connect rb with
      | (Err m, rb) => (Err (unavailable "messaging_unavailable" m), rb)
      | (Ok generation, rb) =>
          match json_bytes envelope with
          | Err m => (Err (mkApiError INTERNAL_SERVER_ERROR "event_encode_failed" m), rb)
          | Ok body =>
              match broker (event_message o context body) with
              | SendFailed m => (Err (unavailable "messaging_unavailable" m), invalidate generation rb)
              | ConfirmFailed m => (Err (unavailable "messaging_rejected" m), invalidate generation rb)
              | PublishTimedOut =>
                  (Err (unavailable "messaging_timeout" "RabbitMQ publish confirmation timed out"),
                   invalidate generation rb)
              | Confirmed c => (require_routed_confirmation c, rb)
              end
          end
      end
  end.
End publish.

(** ** Settling the event *)

Definition is_transient_outbox_error (code : string) : bool :=
  one_of code ["messaging_unavailable"; "messaging_timeout"; "messaging_rejected"].

Definition outbox_failure_status (attempts : Z) (code : string) : outbox_status :=
  if negb (is_transient_outbox_error code) || (OUTBOX_MAX_ATTEMPTS <=? attempts)
  then XFailed else XQueued.

(** In seconds. *)
Definition outbox_retry_delay (attempts : Z) : Z :=
  clamp (i32_saturating_mul attempts OUTBOX_RETRY_BASE_SECONDS) 1 30.

Definition bounded_outbox_error (m : string) : string := take_chars OUTBOX_ERROR_LIMIT m.

Definition claim_owned (token : string) (now : Z) (e : OutboxEventRow) : bool :=
  outbox_in [XProcessing] e && opt_is (ox_claim_token e) token && after_now (ox_claim_expires e) now.

Definition published_event (now : Z) (e : OutboxEventRow) : OutboxEventRow :=
  outbox_set XPublished (ox_attempts e) (ox_available_at e) (Some now) (None, None, None) None e.

Definition failed_event (status : outbox_status) (delay : Z) (e0 : ApiError) (now : Z)
    (e : OutboxEventRow) : OutboxEventRow :=
  outbox_set status (ox_attempts e)
    (if bool_decide (status = XQueued) then now + seconds delay else now) (ox_published_at e)
    (Some (ae_code e0), Some (bounded_outbox_error (ae_message e0)),
     if bool_decide (status = XFailed) then Some now else None) None e.

Definition outbox_conflict (m : string) : ApiError :=
  mkApiError INTERNAL_SERVER_ERROR "outbox_state_conflict" m.

Definition settle_outbox (o : OutboxRow) (published : ApiResult unit) : Txn ApiError unit :=
  now <- tx_now ;;
  match published with
  | Ok _ =>
      updated <- sql_update outbox (ob_tenant_id o, ob_id o) (claim_owned (ob_claim_token o) now)
                   (published_event now) ;;
      tx_ensure (updated =? 1)%nat
        (outbox_conflict "confirmed outbox event could not be marked published")
  | Err e =>
      let attempts := ox_attempts (ob_row o) in
      updated <- sql_update outbox (ob_tenant_id o, ob_id o) (claim_owned (ob_claim_token o) now)
                   (failed_event (outbox_failure_status attempts (ae_code e))
                      (outbox_retry_delay attempts) e now) ;;
      tx_ensure (updated =? 1)%nat
        (outbox_conflict "failed outbox event could not be durably classified")
  end.

Local Close Scope txn_scope.

(** One round: [meanwhile] is what the other transactions do to the database
    while the message is published.  The claim's connection is kept, so the
    settling statement does not wait for the pool. *)
Definition publish_one_outbox (claim_fault settle_fault : option tx_fault) (claim_now settle_now : Z)
    (locked : key -> bool) (token : string) (publish : OutboxRow -> ApiResult unit)
    (meanwhile : Db -> Db) (db : Db) : ApiResult bool * Db :=
  match claim_outbox_event claim_fault claim_now locked token db with
  | (Err e, db) => (Err e, db)
  | (Ok None, db) => (Ok false, db)
  | (Ok (Some o), db) =>
      let published := publish o in
      match db_run settle_fault settle_now locked (settle_outbox o published) (meanwhile db) with
      | (Err e, db) => (Err e, db)
      | (Ok _, db) => (match published with Ok _ => Ok true | Err e => Err e end, db)
      end
  end.
