(* ===== verification/CheckoutSteps.v ===== *)
(** The steps of the checkout saga: its monad, the payment calls and the inventory calls. *)

From S2P Require Import Prelude Proto Propagation Database CheckoutDomain CheckoutQuote CheckoutRecords CheckoutOrders.

(** The effects of the checkout service's long-running operations: transactions
    on the shared database and calls to the other services, against an
    environment that chooses every reply, every fault and what the rest of the
    system does to the database in between.  A run is a function of that
    environment, and leaves a log of the calls it made. *)
Module CheckoutSaga.

Import Propagation Proto Schema Transactions CheckoutDomain CheckoutQuote CheckoutFence.

(** ** Calls to other services *)

Inductive Call : Type :=
| CatalogProduct (variables : json)
| PricingQuote (r : QuoteRequest)
| PaymentAuthorize (r : AuthorizeRequest)
| PaymentCapture (r : CaptureRequest)
| PaymentVoid (r : VoidRequest)
| PaymentRefund (r : RefundRequest)
| PaymentGet (r : GetPaymentRequest)
| InventoryPost (path : string) (body : json)
| Recommend (query : string).

(** A status of the payment service with its [payment-failure-reason]. *)
Record PaymentFailure : Type := mkPaymentFailure { pf_status : grpc_status; pf_reason : option string }.

(** The shared channel cannot be built, or the call's outcome. *)
Inductive payment_reply (A : Type) : Type :=
| NoPaymentChannel (m : string)
| PaymentAnswer (r : result PaymentFailure A).
Arguments NoPaymentChannel {A} _.
Arguments PaymentAnswer {A} _.

(** ** Environments *)

(** The [n]-th step of a run is a transaction or a call: its time, the fault and
    the locks it meets, what others do to the database up to it, the replies,
    and the UUIDs drawn in it; with the OpenTelemetry propagator and span ids,
    serde_json's printer, SHA-256, and the variant of the checkout flow ([None]:
    the evaluation took more than its 500 ms). *)
Record Environment : Type := mkEnvironment {
  ev_now : nat -> Z;
  ev_fault : nat -> option tx_fault;
  ev_locked : nat -> key -> bool;
  ev_meanwhile : nat -> Db -> Db;
  ev_uuid : nat -> nat -> string;
  ev_http : nat -> Call -> http_reply;
  ev_pricing : nat -> Call -> pricing_reply;
  ev_payment : nat -> Call -> payment_reply PaymentResponse;
  ev_snapshot : nat -> Call -> payment_reply GetPaymentResponse;
  ev_inject : Context -> headers -> headers;
  ev_extract : headers -> Context;
  ev_span : Context -> string * string;
  ev_json_text : json -> string;
  ev_sha256 : string -> string;
  ev_variant : CheckoutInput -> option string
}.

(** The database, the number of steps taken, and the calls made, each with the
    database at the time it was sent. *)
Record World : Type := mkWorld { w_db : Db; w_at : nat; w_calls : list (Call * Db) }.

(** ** The monad *)

Definition Saga (A : Type) : Type := Environment -> World -> ApiResult A * World.

Definition sg_ret {A} (a : A) : Saga A := fun _ w => (Ok a, w).
Definition sg_fail {A} (e : ApiError) : Saga A := fun _ w => (Err e, w).
Definition sg_lift {A} (r : ApiResult A) : Saga A := fun _ w => (r, w).
Definition sg_ensure (cond : bool) (e : ApiError) : Saga unit := sg_lift (ensure cond e).
Definition sg_bind {A B} (m : Saga A) (k : A -> Saga B) : Saga B := fun e w =>
  match m e w with
  | (Ok a, w') => k a e w'
  | (Err err, w') => (Err err, w')
  end.
(** The outcome of [m] as a value, for [match m.await { ... }]. *)
Definition sg_try {A} (m : Saga A) : Saga (ApiResult A) := fun e w =>
  let '(r, w') := m e w in (Ok r, w').

(** What happened to the database until the next step. *)
Definition w_next (e : Environment) (w : World) : Db := ev_meanwhile e (w_at w) (w_db w).

(** A transaction, with the error its commit becomes. *)
Definition sg_tx_commit {A} (commit_error : string -> ApiError) (m : Txn ApiError A) : Saga A :=
  fun e w =>
    let i := w_at w in
    let '(r, db) := run_tx database_timeout db_error commit_error (ev_fault e i) (ev_now e i)
                      (ev_locked e i) m (w_next e w) in
    (r, mkWorld db (S i) (w_calls w)).
Definition sg_tx {A} (m : Txn ApiError A) : Saga A := sg_tx_commit db_error m.
(** Statements that only read. *)
Definition sg_query {A} (f : Db -> A) : Saga A := sg_tx (tx_read f).

Definition sg_call {R} (reply : Environment -> nat -> Call -> R) (c : Call) : Saga R := fun e w =>
  (Ok (reply e (w_at w) c), mkWorld (w_next e w) (S (w_at w)) (w_calls w ++ [(c, w_db w)])).

(** The UUIDs of the coming step. *)
Definition sg_uuid (j : nat) : Saga string := fun e w => (Ok (ev_uuid e (w_at w) j), w).
Definition sg_uuids (n : nat) : Saga (list string) := fun e w =>
  (Ok (map (ev_uuid e (w_at w)) (seq 0 n)), w).
Definition sg_env {A} (f : Environment -> A) : Saga A := fun e w => (Ok (f e), w).

Declare Scope saga_scope.
Delimit Scope saga_scope with saga.
Notation "x <- m ;; k" := (sg_bind m (fun x => k))
  (at level 100, m at next level, right associativity) : saga_scope.
Notation "m ;; k" := (sg_bind m (fun _ => k))
  (at level 100, right associativity) : saga_scope.

Local Open Scope saga_scope.

(** ** The fence around a remote operation *)

(** The heartbeat that extends the lease during the operation is one of the
    transactions of [ev_meanwhile]. *)
Definition with_checkout_fence {A} (fence : CheckoutFence) (operation : Saga A) : Saga A :=
  sg_tx (assert_checkout_fence fence) ;;
  r <- sg_try operation ;;
  sg_tx (assert_checkout_fence fence) ;;
  sg_lift r.

Definition is_lease_lost (e : ApiError) : bool := String.eqb (ae_code e) "checkout_lease_lost".

Local Close Scope saga_scope.

(** ** Decoding a reply *)

End CheckoutSaga.

(** Checkout's client of the payment service (services/checkout/src/application.rs,
    lines 1978 to 2235 and 2541 to 2869): the calls, the validation of their
    answers, and the compensation of a payment whose outcome is not known. *)
Module CheckoutPayments.

Import Propagation Proto Schema Transactions CheckoutDomain CheckoutQuote CheckoutFence CheckoutCompensation
  CheckoutAttempts CheckoutOrders CheckoutSaga.

Local Open Scope saga_scope.

Definition PAYMENT_REQUIRED : Z := 402.
Definition ACCEPTED : Z := 202.

(** ** Errors *)

Definition payment_reconciliation_error (m : string) : ApiError :=
  mkApiError BAD_GATEWAY "payment_reconciliation_failed" m.
Definition payment_protocol_error (m : string) : ApiError :=
  mkApiError BAD_GATEWAY "payment_protocol_error" m.

Definition payment_operation_status (n : Z) : PaymentOperationStatus :=
  default OpUnspecified (PaymentOperationStatus_try_from n).
Definition payment_status (n : Z) : PaymentStatus := default PsUnspecified (PaymentStatus_try_from n).
Definition payment_failure_reason (n : Z) : PaymentFailureReason :=
  default FrUnspecified (PaymentFailureReason_try_from n).

Definition authorization_failure_status (r : PaymentFailureReason) : PaymentOperationStatus :=
  match r with
  | FrDeclined | FrInsufficientFunds | FrInvalidPaymentMethod => OpDeclined
  | _ => OpFailed
  end.

Definition payment_operation_error (operation : string) (status : PaymentOperationStatus)
    (reason : PaymentFailureReason) : ApiError :=
  let '(http_status, code) :=
    match reason with
    | FrInsufficientFunds => (PAYMENT_REQUIRED, "payment_insufficient_funds")
    | FrInvalidPaymentMethod => (BAD_REQUEST, "payment_invalid_method")
    | FrProviderUnavailable => (SERVICE_UNAVAILABLE, "payment_provider_unavailable")
    | FrAlreadyProcessed => (CONFLICT, "payment_already_processed")
    | FrInvalidState => (CONFLICT, "payment_invalid_state")
    | FrDeclined => (PAYMENT_REQUIRED, "payment_declined")
    | FrUnspecified =>
        match status with
        | OpDeclined => (PAYMENT_REQUIRED, "payment_declined")
        | OpPending => (ACCEPTED, "payment_pending")
        | OpFailed => (BAD_GATEWAY, "payment_failed")
        | OpSucceeded | OpUnspecified => (BAD_GATEWAY, "payment_protocol_error")
        end
    end in
  mkApiError http_status code
    (operation +:+ ": " +:+ PaymentOperationStatus_as_str_name status +:+ " ("
     +:+ PaymentFailureReason_as_str_name reason +:+ ")").

Definition payment_error (f : PaymentFailure) (operation : string) : ApiError :=
  let c := gs_code (pf_status f) in
  let reason :=
    default (match c with
             | Unavailable | DeadlineExceeded => FrProviderUnavailable
             | _ => FrUnspecified
             end)
      (pf_reason f ≫= PaymentFailureReason_from_str_name) in
  let code :=
    match c with
    | DeadlineExceeded => "payment_timeout"
    | Unavailable => "payment_provider_unavailable"
    | Internal => "payment_internal"
    | NotFound => "payment_not_found"
    | AlreadyExists => "payment_already_processed"
    | FailedPrecondition => "payment_invalid_state"
    | InvalidArgument => "payment_invalid_request"
    | _ => "payment_failed"
    end in
  let http_status :=
    match c with
    | InvalidArgument => BAD_REQUEST
    | AlreadyExists | FailedPrecondition => CONFLICT
    | NotFound => CheckoutDomain.NOT_FOUND
    | DeadlineExceeded => GATEWAY_TIMEOUT
    | Unavailable => SERVICE_UNAVAILABLE
    | _ => BAD_GATEWAY
    end in
  mkApiError http_status code
    (operation +:+ ": " +:+ gs_message (pf_status f) +:+ " ("
     +:+ PaymentFailureReason_as_str_name reason +:+ ")").

(** The channel, then the call. *)
Definition payment_answer {A} (operation : string) (r : payment_reply A) : ApiResult A :=
  match r with
  | NoPaymentChannel m => Err (mkApiError SERVICE_UNAVAILABLE "payment_provider_unavailable" m)
  | PaymentAnswer r => res_map_err (fun f => payment_error f operation) r
  end.

(** ** Authorization *)

Definition order_money (o : PendingOrder) (amount : Z) : option Money :=
  Some (mkMoney (pd_currency o) amount).

Definition authorize_request (o : PendingOrder) (request_id token method : string) : AuthorizeRequest :=
  mkAuthorizeRequest (request_id +:+ ":authorize") (pd_id o) (order_money o (pd_total_minor o))
    (Some (mkPaymentMethod (payment_method_type method) token)) (pd_tenant_id o).

Definition read_authorization (r : PaymentResponse) : ApiResult PaymentAuthorization :=
  (let operation_status := payment_operation_status (po_operation_status r) in
   let failure_reason := payment_failure_reason (po_failure_reason r) in
   payment_id <- ok_or (non_empty (pr_payment_id <$> po_payment r))
                   (payment_protocol_error
                      ("payment authorization returned "
                       +:+ PaymentOperationStatus_as_str_name operation_status
                       +:+ " without payment_id")) ;;
   match operation_status with
   | OpSucceeded | OpPending =>
       Ok (mkPaymentAuthorization payment_id operation_status failure_reason)
   | OpDeclined | OpFailed =>
       Err (payment_operation_error "payment authorization" operation_status failure_reason)
   | OpUnspecified =>
       Err (payment_protocol_error
              "payment authorization returned an unspecified operation status")
   end)%res.

Definition authorize_payment (o : PendingOrder) (request_id token method : string) :
    Saga PaymentAuthorization :=
  reply <- sg_call ev_payment (PaymentAuthorize (authorize_request o request_id token method)) ;;
  response <- sg_lift (payment_answer "payment authorization" reply) ;;
  sg_lift (read_authorization response).

(** ** The state of a payment *)

Definition amounts_valid (o : PendingOrder) (authorized captured refunded : Money) : bool :=
  String.eqb (currency_code authorized) (pd_currency o)
  && (amount_minor authorized =? pd_total_minor o)
  && String.eqb (currency_code captured) (currency_code authorized)
  && String.eqb (currency_code refunded) (currency_code authorized)
  && (0 <=? amount_minor authorized) && (0 <=? amount_minor captured) && (0 <=? amount_minor refunded)
  && (amount_minor captured <=? amount_minor authorized)
  && (amount_minor refunded <=? amount_minor captured).

Definition read_snapshot (o : PendingOrder) (payment_id : string) (r : GetPaymentResponse) :
    ApiResult PaymentSnapshot :=
  (payment <- ok_or (gp_payment r)
                (payment_reconciliation_error "payment reconciliation returned no payment record") ;;
   let status := payment_status (pr_status payment) in
   ensure (negb (bool_decide (status = PsUnspecified))
           && bool_decide (payment_status (gp_status r) = status))
     (payment_reconciliation_error "payment reconciliation returned inconsistent status") ;;
   ensure (String.eqb (pr_payment_id payment) payment_id
           && String.eqb (pr_merchant_reference payment) (pd_id o))
     (payment_reconciliation_error "payment reconciliation returned the wrong payment resource") ;;
   authorized <- ok_or (pr_authorized_amount payment)
                   (payment_reconciliation_error "payment reconciliation returned no authorized amount") ;;
   captured <- ok_or (pr_captured_amount payment)
                 (payment_reconciliation_error "payment reconciliation returned no captured amount") ;;
   refunded <- ok_or (pr_refunded_amount payment)
                 (payment_reconciliation_error "payment reconciliation returned no refunded amount") ;;
   ensure (amounts_valid o authorized captured refunded)
     (payment_reconciliation_error "payment reconciliation returned invalid amounts") ;;
   Ok {| ps_authorized_minor := amount_minor authorized; ps_currency := currency_code authorized;
         ps_status := status; ps_failure_reason := payment_failure_reason (pr_failure_reason payment);
         ps_captured_minor := amount_minor captured; ps_refunded_minor := amount_minor refunded |})%res.

Definition get_payment_snapshot (o : PendingOrder) (payment_id : string) : Saga PaymentSnapshot :=
  reply <- sg_call ev_snapshot (PaymentGet (mkGetPaymentRequest payment_id (pd_tenant_id o))) ;;
  response <- sg_lift (payment_answer "payment reconciliation lookup" reply) ;;
  sg_lift (read_snapshot o payment_id response).

(** The payment the authorization's request recorded, else the latest payment of
    the order. *)
Definition authorization_payment_id (db : Db) (o : PendingOrder) (request_id : string) : option string :=
  let recorded :=
    q ← db_payment_operations db !! (pd_tenant_id o, request_id +:+ ":authorize");
    p ← db_payments db !! (pd_tenant_id o, pq_payment_id q);
    if String.eqb (pq_operation q) "authorize" && String.eqb (py_order_id p) (pd_id o)
    then Some (pq_payment_id q) else None in
  match recorded with
  | Some p => Some p
  | None => snd ∘ fst <$> latest_payment db (pd_tenant_id o) (pd_id o)
  end.

Definition lookup_authorization_payment_id (o : PendingOrder) (request_id : string) :
    Saga (option string) :=
  sg_query (fun db => authorization_payment_id db o request_id).

(** ** Capture, void and refund *)

Definition operation_succeeded (operation : string) (r : PaymentResponse) : ApiResult unit :=
  let status := payment_operation_status (po_operation_status r) in
  ensure (bool_decide (status = OpSucceeded))
    (payment_operation_error operation status (payment_failure_reason (po_failure_reason r))).

Definition capture_request (o : PendingOrder) (payment_id request_id : string) : CaptureRequest :=
  mkCaptureRequest (request_id +:+ ":capture") payment_id (order_money o (pd_total_minor o))
    (pd_tenant_id o).

Definition capture_payment (o : PendingOrder) (payment_id request_id : string) : Saga unit :=
  reply <- sg_call ev_payment (PaymentCapture (capture_request o payment_id request_id)) ;;
  response <- sg_lift (payment_answer "payment capture" reply) ;;
  sg_lift (operation_succeeded "payment capture" response).

Definition void_payment (o : PendingOrder) (payment_id request_id : string) : Saga unit :=
  reply <- sg_call ev_payment
             (PaymentVoid (mkVoidRequest (request_id +:+ ":void") payment_id VoidReason_OrderCancelled
                             (pd_tenant_id o))) ;;
  response <- sg_lift (payment_answer "payment void" reply) ;;
  sg_lift (operation_succeeded "payment void" response).

Definition refund_payment (o : PendingOrder) (payment_id request_id : string) (amount : Z) : Saga unit :=
  reply <- sg_call ev_payment
             (PaymentRefund (mkRefundRequest (request_id +:+ ":refund:" +:+ show_Z amount) payment_id
                               (order_money o amount) RefundReason_OrderCancelled (pd_tenant_id o))) ;;
  response <- sg_lift (payment_answer "payment refund" reply) ;;
  sg_lift (operation_succeeded "payment refund" response).

(** ** Compensation *)

Definition payment_compensation_confirmed (s : PaymentSnapshot) : bool :=
  match ps_status s with
  | PsVoided | PsFailed => (ps_captured_minor s =? 0) && (ps_refunded_minor s =? 0)
  | PsPartiallyRefunded | PsRefunded => ps_captured_minor s =? ps_refunded_minor s
  | _ => false
  end.

(** What is still captured is refunded; an authorization is voided. *)
Definition compensation_action (o : PendingOrder) (payment_id request_id : string)
    (s : PaymentSnapshot) : option (Saga unit) :=
  let remaining := ps_captured_minor s - ps_refunded_minor s in
  if 0 <? remaining then Some (refund_payment o payment_id request_id remaining)
  else if bool_decide (ps_status s = PsAuthorized) then Some (void_payment o payment_id request_id)
  else None.

(** [for attempt in 0..3] *)
Fixpoint compensate_rounds (o : PendingOrder) (payment_id request_id : string) (rounds : nat) : Saga bool :=
  match rounds with
  | O => sg_ret false
  | S rounds =>
      before <- sg_try (get_payment_snapshot o payment_id) ;;
      match before with
      | Err _ => sg_ret false
      | Ok snapshot =>
          if payment_compensation_confirmed snapshot then sg_ret true else
          match compensation_action o payment_id request_id snapshot with
          | None => sg_ret false
          | Some action =>
              _ <- sg_try action ;;
              after <- sg_try (get_payment_snapshot o payment_id) ;;
              match after with
              | Err _ => sg_ret false
              | Ok snapshot =>
                  if payment_compensation_confirmed snapshot then sg_ret true
                  else compensate_rounds o payment_id request_id rounds
              end
          end
      end
  end.

Definition compensate_payment (o : PendingOrder) (payment_id request_id : string) : Saga bool :=
  compensate_rounds o payment_id request_id 3.

Definition compensate_payment_with_fence (o : PendingOrder) (payment_id request_id : string)
    (fence : CheckoutFence) : Saga bool :=
  let task_key := payment_task_key fence payment_id in
  sg_tx (begin_compensation_operation o task_key fence) ;;
  compensated <- with_checkout_fence fence (compensate_payment o payment_id request_id) ;;
  (if (compensated : bool) then sg_tx (complete_compensation_operation o task_key fence) else sg_ret tt) ;;
  sg_ret compensated.

(** ** Intents *)

Definition durable_carrier (c : Context) (inject : Context -> headers -> headers) : ApiResult carrier :=
  (p <- stored_propagation inject c ;; Ok (Some p.1.1, Some p.1.2, Some p.2))%res.

Definition saga_carrier (c : Context) : Saga carrier :=
  inject <- sg_env ev_inject ;;
  sg_lift (durable_carrier c inject).

Definition enqueue_payment_compensation_task (o : PendingOrder) (payment_id request_id : string)
    (c : Context) (fence : CheckoutFence) : Saga unit :=
  carrier <- saga_carrier c ;;
  id <- sg_uuid 0 ;;
  sg_tx (record_payment_intent o payment_id request_id id carrier fence) ;;
  sg_tx (activate_compensation_intent o (payment_task_key fence payment_id) fence).

(** ** Recovery of an ambiguous authorization *)

Definition recover_authorization (o : PendingOrder) (request_id token method : string) (c : Context)
    (fence : CheckoutFence) : Saga AuthorizationRecovery :=
  retry <- sg_try (authorize_payment o request_id token method) ;;
  match retry with
  | Ok authorization => sg_ret (Recovered authorization)
  | Err retry_error =>
      if negb (is_ambiguous_payment_failure retry_error) then sg_ret (Failed retry_error) else
      found <- lookup_authorization_payment_id o request_id ;;
      match found with
      | None => sg_ret Pending
      | Some payment_id =>
          snapshot <- get_payment_snapshot o payment_id ;;
          sg_ensure ((ps_authorized_minor snapshot =? pd_total_minor o)
                     && String.eqb (ps_currency snapshot) (pd_currency o))
            (payment_reconciliation_error "payment authorization does not match the order") ;;
          if ps_refunded_minor snapshot <? ps_captured_minor snapshot then
            enqueue_payment_compensation_task o payment_id request_id c fence ;;
            compensated <- compensate_payment_with_fence o payment_id request_id fence ;;
            if (compensated : bool) then
              sg_tx (resolve_compensation_intent o (payment_compensation_task_key payment_id) fence) ;;
              sg_ret Absent
            else sg_fail (payment_reconciliation_error
                            "captured funds remain after ambiguous authorization")
          else
            match ps_status snapshot with
            | PsPending =>
                sg_ret (Recovered (mkPaymentAuthorization payment_id OpPending
                                     (ps_failure_reason snapshot)))
            | PsAuthorized =>
                sg_ret (Recovered (mkPaymentAuthorization payment_id OpSucceeded
                                     (ps_failure_reason snapshot)))
            | PsVoided | PsRefunded => sg_ret Absent
            | PsFailed =>
                sg_ret (Failed (payment_operation_error "payment authorization"
                                  (authorization_failure_status (ps_failure_reason snapshot))
                                  (ps_failure_reason snapshot)))
            | PsCaptured | PsPartiallyRefunded =>
                sg_fail (payment_reconciliation_error
                           "payment state has no compensable captured balance")
            | PsUnspecified => sg_fail (payment_reconciliation_error "payment state is unspecified")
            end
      end
  end.

Local Close Scope saga_scope.

End CheckoutPayments.

(** Checkout's client of the inventory service (services/checkout/src/application.rs,
    lines 2871 to 3469 and 3540 to 3622): reserving the lines of an order,
    consuming the reservations, and releasing them under durable intents. *)
Module CheckoutStock.

Import Propagation Proto Schema Transactions CheckoutDomain CheckoutQuote CheckoutFence CheckoutCompensation
  CheckoutAttempts CheckoutOrders CheckoutSaga CheckoutPayments.

Local Open Scope saga_scope.

Definition inventory_protocol_error (m : string) : ApiError :=
  mkApiError BAD_GATEWAY "inventory_protocol_error" m.
Definition inventory_unavailable (m : string) : ApiError :=
  mkApiError SERVICE_UNAVAILABLE "inventory_unavailable" m.

(** ** Replies *)

Record http_response : Type := mkHttpResponse { hr_status : http_status; hr_json : result string json }.

Definition http_sent (failed : string -> ApiError) (r : http_reply) : ApiResult http_response :=
  match r with
  | HttpFailed m => Err (failed m)
  | HttpNotJson status m => Ok (mkHttpResponse status (Err m))
  | HttpJson status body => Ok (mkHttpResponse status (Ok body))
  end.

(** [http.post(...).send()] inside the fence. *)
Definition post_inventory (fence : CheckoutFence) (failed : string -> ApiError) (path : string)
    (body : json) : Saga http_response :=
  with_checkout_fence fence
    (reply <- sg_call ev_http (InventoryPost path body) ;; sg_lift (http_sent failed reply)).

Record InventoryReserveResponse : Type := mkReserveResponse {
  ir_resp_tenant_id : string; ir_resp_reservation_id : string; ir_resp_sku : string;
  ir_resp_reserved : Z; ir_resp_location_id : string; ir_resp_remaining : Z; ir_resp_status : string
}.

Definition read_reserve_response (v : json) : option InventoryReserveResponse :=
  fields ← struct_fields ["tenant_id"; "reservation_id"; "sku"; "reserved"; "location_id";
                          "remaining"; "status"] v;
  match fields with
  | [JStr tenant; JStr id; JStr sku; reserved; JStr location; remaining; JStr status] =>
      reserved ← as_int 0 u32_max reserved;
      remaining ← as_int i64_min i64_max remaining;
      Some (mkReserveResponse tenant id sku reserved location remaining status)
  | _ => None
  end.

Definition parse_inventory_reservation (body : json) (o : PendingOrder) (sku : string) (quantity : Z)
    (expected_id : string) : ApiResult InventoryReservation :=
  (r <- ok_or (read_reserve_response body)
          (inventory_protocol_error "inventory returned an incomplete reservation payload") ;;
   ensure (String.eqb (ir_resp_tenant_id r) (pd_tenant_id o)
           && String.eqb (ir_resp_reservation_id r) expected_id && String.eqb (ir_resp_sku r) sku
           && (ir_resp_reserved r =? quantity) && negb (is_blank (ir_resp_location_id r))
           && (0 <=? ir_resp_remaining r)
           && one_of (ir_resp_status r) ["reserved"; "already_reserved"; "already_consumed"])
     (inventory_protocol_error "inventory reservation payload does not match the request") ;;
   Ok {| ir_reservation_id := ir_resp_reservation_id r; ir_sku := ir_resp_sku r;
         ir_quantity := ir_resp_reserved r; ir_location_id := Some (ir_resp_location_id r) |})%res.

Record InventoryReleaseResponse : Type := mkReleaseResponse {
  rl_tenant_id : string; rl_reservation_id : string; rl_sku : string; rl_location_id : string;
  rl_requested : Z; rl_released : Z; rl_reserved_remaining : Z; rl_available : Z; rl_status : string
}.

Definition read_release_response (v : json) : option InventoryReleaseResponse :=
  fields ← struct_fields ["tenant_id"; "reservation_id"; "sku"; "location_id"; "requested"; "released";
                          "reserved_remaining"; "available"; "status"] v;
  match fields with
  | [JStr tenant; JStr id; JStr sku; JStr location; requested; released; remaining; available; JStr status] =>
      requested ← as_int 0 u32_max requested;
      released ← as_int i64_min i64_max released;
      remaining ← as_int i64_min i64_max remaining;
      available ← as_int i64_min i64_max available;
      Some (mkReleaseResponse tenant id sku location requested released remaining available status)
  | _ => None
  end.

Definition release_matches (r : InventoryReleaseResponse) (quantity : Z) : bool :=
  if String.eqb (rl_status r) "released" then rl_released r =? quantity
  else String.eqb (rl_status r) "already_released" && (rl_released r =? 0).

Definition validate_inventory_release_response (body : json) (o : PendingOrder)
    (reservation : InventoryReservation) : ApiResult unit :=
  (r <- ok_or (read_release_response body)
          (inventory_protocol_error "inventory returned an incomplete release payload") ;;
   ensure (String.eqb (rl_tenant_id r) (pd_tenant_id o)
           && String.eqb (rl_reservation_id r) (ir_reservation_id reservation)
           && String.eqb (rl_sku r) (ir_sku reservation) && negb (is_blank (rl_location_id r))
           && (rl_requested r =? ir_quantity reservation)
           && release_matches r (ir_quantity reservation)
           && (0 <=? rl_reserved_remaining r) && (0 <=? rl_available r))
     (inventory_protocol_error "inventory release payload does not match the request") ;;
   ensure (match ir_location_id reservation with
           | Some l => String.eqb l (rl_location_id r)
           | None => true
           end)
     (inventory_protocol_error "inventory release location does not match the reservation"))%res.

Record InventoryConsumeResponse : Type := mkConsumeResponse {
  cn_tenant_id : string; cn_consumed : Z; cn_reservation_count : Z; cn_status : string
}.

Definition read_consume_response (v : json) : option InventoryConsumeResponse :=
  fields ← struct_fields ["tenant_id"; "consumed"; "reservation_count"; "status"] v;
  match fields with
  | [JStr tenant; consumed; count; JStr status] =>
      consumed ← as_int 0 u32_max consumed;
      count ← as_int 0 (u64_modulus - 1) count;
      Some (mkConsumeResponse tenant consumed count status)
  | _ => None
  end.

(** [try_fold] with [u32::checked_add] *)
Definition total_quantity (reservations : list InventoryReservation) : option Z :=
  foldl (fun total r => t ← total; u32_checked_add t (ir_quantity r)) (Some 0) reservations.

(** ** Releasing *)

Definition opt_field (name : string) (o : option string) : list (string * json) :=
  match o with Some s => [(name, JStr s)] | None => [] end.

Definition release_body (o : PendingOrder) (fence : CheckoutFence) (r : InventoryReservation) : json :=
  JObj ([("tenant_id", JStr (pd_tenant_id o)); ("reservation_id", JStr (ir_reservation_id r));
         ("sku", JStr (ir_sku r)); ("quantity", JNum (ir_quantity r));
         ("checkout_request_id", JStr (fence_request_id fence));
         ("checkout_lease_token", JStr (fence_token fence))]
        ++ opt_field "location_id" (ir_location_id r)).

(** What a release's reply is worth: an absent reservation counts as released. *)
Definition release_outcome (o : PendingOrder) (r : InventoryReservation) (response : http_response) :
    ApiResult unit :=
  let status := hr_status response in
  if hs_code status =? CheckoutDomain.NOT_FOUND then Ok tt
  else if is_success status then
    match hr_json response with
    | Ok body => validate_inventory_release_response body o r
    | Err m => Err (inventory_protocol_error
                      ("inventory release payload could not be decoded: " +:+ m))
    end
  else Err (mkApiError (if hs_code status =? CONFLICT then CONFLICT else SERVICE_UNAVAILABLE)
              "inventory_release_failed"
              ("inventory release returned " +:+ hs_text status +:+ " for " +:+ ir_sku r)).

(** [first_error.get_or_insert] *)
Definition first_error (first : option ApiError) (r : ApiResult unit) : option ApiError :=
  match first, r with
  | Some e, _ => Some e
  | None, Err e => Some e
  | None, Ok _ => None
  end.

Fixpoint release_each (o : PendingOrder) (fence : CheckoutFence) (reservations : list InventoryReservation)
    (first : option ApiError) : Saga unit :=
  match reservations with
  | [] => match first with None => sg_ret tt | Some e => sg_fail e end
  | r :: rest =>
      sent <- sg_try (post_inventory fence
                        (mkApiError SERVICE_UNAVAILABLE "inventory_release_unavailable")
                        "/release" (release_body o fence r)) ;;
      match sent with
      | Err e => if is_lease_lost e then sg_fail e
                 else release_each o fence rest (first_error first (Err e))
      | Ok response =>
          sg_tx (assert_checkout_fence fence) ;;
          release_each o fence rest (first_error first (release_outcome o r response))
      end
  end.

Definition release_inventory (o : PendingOrder) (reservations : list InventoryReservation)
    (fence : CheckoutFence) : Saga unit :=
  release_each o fence reservations None.

Definition reservation_task_key (fence : CheckoutFence) (r : InventoryReservation) : string :=
  inventory_task_key fence (ir_reservation_id r).

Fixpoint sg_each {A} (f : A -> Saga unit) (l : list A) : Saga unit :=
  match l with
  | [] => sg_ret tt
  | a :: rest => f a ;; sg_each f rest
  end.

Definition enqueue_inventory_compensation_tasks (o : PendingOrder)
    (reservations : list InventoryReservation) (c : Context) (fence : CheckoutFence) : Saga unit :=
  match reservations with
  | [] => sg_ret tt
  | _ =>
      carrier <- saga_carrier c ;;
      ids <- sg_uuids (length reservations) ;;
      sg_tx_commit (fun m => compensation_persistence_failed SERVICE_UNAVAILABLE
                               ("inventory compensation commit: " +:+ m))
        (record_inventory_intents o fence carrier (zip reservations ids)) ;;
      sg_each (fun r => sg_tx (activate_compensation_intent o (reservation_task_key fence r) fence))
        reservations
  end.

Definition release_inventory_with_recovery (o : PendingOrder) (reservations : list InventoryReservation)
    (c : Context) (fence : CheckoutFence) : Saga unit :=
  enqueue_inventory_compensation_tasks o reservations c fence ;;
  sg_each (fun r => sg_tx (begin_compensation_operation o (reservation_task_key fence r) fence))
    reservations ;;
  release_inventory o reservations fence ;;
  sg_each (fun r =>
      sg_tx (complete_compensation_operation o (reservation_task_key fence r) fence) ;;
      sg_tx (resolve_compensation_intent o (inventory_compensation_task_key (ir_reservation_id r)) fence))
    reservations.

(** ** Reserving *)

Definition reservation_id_of (o : PendingOrder) (line : OrderLine) : string :=
  "reservation-" +:+ pd_id o +:+ "-" +:+ ln_variant_id line.

Definition reserve_body (o : PendingOrder) (fence : CheckoutFence) (line : OrderLine) : json :=
  JObj [("tenant_id", JStr (pd_tenant_id o)); ("reservation_id", JStr (reservation_id_of o line));
        ("sku", JStr (ln_sku line)); ("quantity", JNum (ln_quantity line));
        ("checkout_request_id", JStr (fence_request_id fence));
        ("checkout_lease_token", JStr (fence_token fence))].

(** The hold a failed reservation may have left. *)
Definition unknown_reservation (o : PendingOrder) (line : OrderLine) : InventoryReservation :=
  mkInventoryReservation (reservation_id_of o line) (ln_sku line) (ln_quantity line) None.

Definition reserve_outcome (o : PendingOrder) (line : OrderLine) (response : http_response) :
    ApiResult InventoryReservation :=
  (let status := hr_status response in
   ensure (is_success status)
     (mkApiError (if hs_code status =? CONFLICT then CONFLICT else SERVICE_UNAVAILABLE)
        "inventory_reservation_failed"
        ("inventory returned " +:+ hs_text status +:+ " for " +:+ ln_sku line)) ;;
   body <- res_map_err inventory_protocol_error (hr_json response) ;;
   parse_inventory_reservation body o (ln_sku line) (ln_quantity line) (reservation_id_of o line))%res.

(** Releases what was reserved, then fails; a failed release has its own error. *)
Definition abandon_reservations {A} (o : PendingOrder) (reservations : list InventoryReservation)
    (c : Context) (fence : CheckoutFence) (e : ApiError) : Saga A :=
  release_inventory_with_recovery o reservations c fence ;;
  sg_fail e.

Fixpoint reserve_each (o : PendingOrder) (c : Context) (fence : CheckoutFence) (lines : list OrderLine)
    (reservations : list InventoryReservation) : Saga (list InventoryReservation) :=
  match lines with
  | [] => sg_ret reservations
  | line :: rest =>
      let held := reservations ++ [unknown_reservation o line] in
      sent <- sg_try (post_inventory fence inventory_unavailable "/reserve" (reserve_body o fence line)) ;;
      match sent with
      | Err e => abandon_reservations o held c fence (inventory_unavailable (ae_message e))
      | Ok response =>
          sg_tx (assert_checkout_fence fence) ;;
          match reserve_outcome o line response with
          | Err e => abandon_reservations o held c fence e
          | Ok reservation => reserve_each o c fence rest (reservations ++ [reservation])
          end
      end
  end.

Definition reserve_inventory (o : PendingOrder) (c : Context) (fence : CheckoutFence) :
    Saga (list InventoryReservation) :=
  reserve_each o c fence (pd_lines o) [].

(** ** Consuming *)

Definition INVENTORY_CONSUME_ATTEMPTS : nat := 3.

Definition consume_body (o : PendingOrder) (fence : CheckoutFence)
    (reservations : list InventoryReservation) : json :=
  JObj [("tenant_id", JStr (pd_tenant_id o)); ("checkout_request_id", JStr (fence_request_id fence));
        ("checkout_lease_token", JStr (fence_token fence));
        ("reservations", JArr (map (fun r =>
           JObj [("reservation_id", JStr (ir_reservation_id r)); ("sku", JStr (ir_sku r));
                 ("quantity", JNum (ir_quantity r)); ("location_id", opt_json (ir_location_id r))])
           reservations))].

Definition commit_protocol_error (m : string) : ApiError :=
  mkApiError BAD_GATEWAY "inventory_commit_protocol_error" m.

Definition server_side (status : http_status) : bool :=
  (500 <=? hs_code status) && (hs_code status <=? 599) || (hs_code status =? 429).

Definition consume_outcome (o : PendingOrder) (reservations : list InventoryReservation)
    (response : http_response) : ApiResult unit :=
  (let status := hr_status response in
   ensure (is_success status)
     (mkApiError (if server_side status then SERVICE_UNAVAILABLE else CONFLICT)
        (if server_side status then "inventory_commit_unavailable" else "inventory_commit_failed")
        ("inventory consume returned " +:+ hs_text status)) ;;
   body <- res_map_err commit_protocol_error (hr_json response) ;;
   r <- ok_or (read_consume_response body)
          (commit_protocol_error "inventory returned an incomplete consume payload") ;;
   expected <- ok_or (total_quantity reservations)
                 (commit_protocol_error "inventory consume quantity overflowed") ;;
   ensure (String.eqb (cn_tenant_id r) (pd_tenant_id o)
           && (cn_reservation_count r =? Z.of_nat (length reservations))
           && (if String.eqb (cn_status r) "consumed" then cn_consumed r =? expected
               else String.eqb (cn_status r) "already_consumed" && (cn_consumed r =? 0)))
     (commit_protocol_error "inventory consume payload does not match the request"))%res.

Definition consume_inventory_attempt (o : PendingOrder) (reservations : list InventoryReservation)
    (fence : CheckoutFence) : Saga unit :=
  response <- post_inventory fence (mkApiError SERVICE_UNAVAILABLE "inventory_commit_unavailable")
                "/consume" (consume_body o fence reservations) ;;
  sg_tx (assert_checkout_fence fence) ;;
  sg_lift (consume_outcome o reservations response).

Definition is_retryable_inventory_consume_error (e : ApiError) : bool :=
  one_of (ae_code e) ["inventory_commit_unavailable"; "inventory_commit_protocol_error"].

(** [for attempt in 1..=3]: [remaining] attempts follow this one. *)
Fixpoint consume_attempts (o : PendingOrder) (reservations : list InventoryReservation)
    (fence : CheckoutFence) (remaining : nat) : Saga unit :=
  r <- sg_try (consume_inventory_attempt o reservations fence) ;;
  match r with
  | Ok _ => sg_ret tt
  | Err e =>
      match remaining with
      | S remaining =>
          if is_retryable_inventory_consume_error e then consume_attempts o reservations fence remaining
          else sg_fail e
      | O => sg_fail e
      end
  end.

Definition consume_inventory (o : PendingOrder) (reservations : list InventoryReservation)
    (fence : CheckoutFence) : Saga unit :=
  consume_attempts o reservations fence (INVENTORY_CONSUME_ATTEMPTS - 1).

Local Close Scope saga_scope.

End CheckoutStock.
