(* ===== verification/CheckoutRuns.v ===== *)
(** The checkout saga as a request runs it, and as the workers take it up again. *)

From S2P Require Import Prelude Proto Propagation PricingService Database CheckoutDomain CheckoutQuote CheckoutRecords CheckoutOrders CheckoutOutbox CheckoutSteps.

(** The checkout saga (services/checkout/src/application.rs, lines 27 to 653, 878
    to 934, 1279 to 1427, 3471 to 3538): from an accepted request to the durable
    answer of its attempt, with the compensation of every step that fails. *)
Module CheckoutFlow.

Import Propagation Proto PricingService Schema Transactions CheckoutDomain CheckoutQuote CheckoutFence
  CheckoutCompensation CheckoutAttempts CheckoutReconciliation CheckoutOrders CheckoutSaga CheckoutPayments
  CheckoutStock.

Local Open Scope saga_scope.

(** ** Catalog and quote *)

Fixpoint validate_catalog_items (input : CheckoutInput) (items : list CheckoutItemInput)
    (products : list json) : Saga (list json) :=
  match items with
  | [] => sg_ret products
  | item :: rest =>
      reply <- sg_call ev_http (CatalogProduct (catalog_variables input item)) ;;
      product <- sg_lift (catalog_product item reply) ;;
      validate_catalog_items input rest (products ++ [product])
  end.

Definition validate_catalog (input : CheckoutInput) : Saga (list json) :=
  validate_catalog_items input (in_items input) [].

(** [remaining] attempts follow this one. *)
Fixpoint quote_rounds (input : CheckoutInput) (request_id variant : string) (remaining : nat) :
    Saga QuoteResponse :=
  reply <- sg_call ev_pricing (PricingQuote (quote_request input request_id variant)) ;;
  match quote_once input reply with
  | Ok quote => sg_ret quote
  | Err e =>
      match remaining with
      | S remaining =>
          if quote_retryable e then quote_rounds input request_id variant remaining else sg_fail e
      | O => sg_fail e
      end
  end.

Definition quoted (input : CheckoutInput) (request_id variant : string) : Saga QuoteResponse :=
  quote_rounds input request_id variant (quote_attempts input - 1).

(** ** The order *)

Definition order_created (input : CheckoutInput) (quote : QuoteResponse) (lease : CheckoutLease) :
    Saga PendingOrder :=
  session <- sg_lift (order_preconditions input quote) ;;
  cart_uuid <- sg_uuid 0 ;;
  order_uuid <- sg_uuid 1 ;;
  created <- sg_tx (create_pending_order_tx input quote session lease cart_uuid order_uuid) ;;
  sg_lift created.

Definition order_loaded (tenant id : string) : Saga PendingOrder :=
  loaded <- sg_query (fun db => load_pending_order db tenant id) ;;
  sg_lift loaded.

Definition order_finalized (c : Context) (order : PendingOrder) (payment_id variant : string)
    (fence : CheckoutFence) : Saga unit :=
  inject <- sg_env ev_inject ;;
  ids <- sg_env (fun e => ev_span e c) ;;
  propagation <- sg_lift (stored_propagation inject c) ;;
  sg_tx_commit commit_ambiguous
    (finalize_order_tx c order payment_id variant ids.1 ids.2 propagation fence).

(** Whether a finalization whose outcome is not known took effect; an outcome
    that cannot be read yet counts as not. *)
Definition finalization_took_effect (order : PendingOrder) : Saga bool :=
  read <- sg_try (found <- sg_query (fun db => finalization_committed db order) ;; sg_lift found) ;;
  match read with
  | Ok committed => sg_ret committed
  | Err e => if String.eqb (ae_code e) "finalization_reconciliation_pending" then sg_ret false
             else sg_fail e
  end.

(** ** The durable reconciliation of the order's payment *)

Definition register_reconciliation (order : PendingOrder) (lease : CheckoutLease)
    (payment_id : option string) (method variant : string) (c : Context) : Saga unit :=
  sg_lift (lease_matches order lease) ;;
  carrier <- saga_carrier c ;;
  sg_tx (register_pending_payment_reconciliation order lease payment_id method variant carrier).

Definition queue_finalization_recovery (order : PendingOrder) (lease : CheckoutLease)
    (payment_id : option string) (method variant : string) (c : Context) : Saga unit :=
  sg_lift (lease_matches order lease) ;;
  carrier <- saga_carrier c ;;
  sg_tx (queue_checkout_finalization_recovery order lease payment_id method variant carrier).

(** Two statements on one connection. *)
Definition wake_pending_payment_reconciliation (tenant request : string) : Saga unit :=
  status <- sg_tx (reconciliation_status tenant request) ;;
  if wakeable status then sg_tx (queue_reconciliation tenant request) else sg_ret tt.

(** ** Recommendations *)

Definition upper_hex (n : N) : ascii :=
  ascii_of_N (if (n <? 10)%N then 48 + n else 55 + n).

Definition query_byte (a : ascii) : string :=
  if is_alphanumeric a || one_of (String a "") ["-"; "."; "_"; "~"] then String a ""
  else String "%" (String (upper_hex (N_of_ascii a / 16)) (String (upper_hex (N_of_ascii a mod 16)) "")).

Fixpoint recommendation_query_component (value : string) : string :=
  match value with
  | "" => ""
  | String a rest => query_byte a +:+ recommendation_query_component rest
  end.

Definition recommendation_query (tenant segment sku : string) : string :=
  "/recommend?sku=" +:+ recommendation_query_component sku
  +:+ "&tenant_id=" +:+ recommendation_query_component tenant
  +:+ "&segment=" +:+ recommendation_query_component segment.

Definition validate_recommendation_tenant (body : json) (tenant : string) : ApiResult unit :=
  ensure (opt_is (jget_str "tenant_id" body) tenant)
    (mkApiError BAD_GATEWAY "recommendation_protocol_error"
       "recommendation response tenant does not match the order").

Definition recommendation_unavailable (m : string) : ApiError :=
  mkApiError SERVICE_UNAVAILABLE "recommendation_unavailable" m.

Definition read_recommendation (tenant : string) (reply : http_reply) : ApiResult json :=
  (response <- http_sent recommendation_unavailable reply ;;
   ensure (is_success (hr_status response))
     (recommendation_unavailable ("recommendation returned " +:+ hs_text (hr_status response))) ;;
   body <- res_map_err (mkApiError BAD_GATEWAY "recommendation_protocol_error") (hr_json response) ;;
   validate_recommendation_tenant body tenant ;;
   Ok body)%res.

Definition recommendation (tenant segment sku : string) : Saga json :=
  reply <- sg_call ev_http (Recommend (recommendation_query tenant segment sku)) ;;
  sg_lift (read_recommendation tenant reply).

(** Left out of the control variant; a failure is part of the answer.  A validated
    input has an item. *)
Definition recommended (input : CheckoutInput) (order : PendingOrder) (variant : string) : Saga json :=
  if negb (checkout_variant_includes_recommendation variant) then sg_ret JNull else
  let sku := default "" (ii_sku <$> head (in_items input)) in
  found <- sg_try (recommendation (pd_tenant_id order) (in_segment input) sku) ;;
  sg_ret (match found with
          | Ok body => body
          | Err e => JObj [("error", JStr (ae_message e))]
          end).

(** ** The answers *)

Definition degraded_response (order : PendingOrder) (catalog : list json) (quote : QuoteResponse)
    (e : ApiError) : json :=
  JObj [("status", JStr "degraded"); ("order_id", JStr (pd_id order)); ("catalog", JArr catalog);
        ("quote", quote_json quote);
        ("payment", JObj [("status", JStr "unavailable"); ("error", JStr (ae_code e))]);
        ("payment_status", JStr "unavailable")].

(** The fields of an order whose payment is pending. *)
Definition pending_fields (order : PendingOrder) : list (string * json) :=
  [("status", JStr "payment_pending"); ("order_status", JStr "pending"); ("order_id", JStr (pd_id order));
   ("order_number", JStr (pd_order_number order)); ("tenant_id", JStr (pd_tenant_id order));
   ("customer_id", JStr (pd_customer_id order)); ("currency", JStr (pd_currency order));
   ("total_minor", JNum (pd_total_minor order))].

Definition unknown_payment_response (order : PendingOrder) (catalog : list json) (quote : QuoteResponse)
    (variant : string) : json :=
  JObj (pending_fields order ++
        [("payment_id", JNull); ("payment_status", JStr "unknown");
         ("payment_operation_status", JStr (PaymentOperationStatus_as_str_name OpUnspecified));
         ("payment_failure_reason", JStr (PaymentFailureReason_as_str_name FrProviderUnavailable));
         ("payment_reconciliation", JStr "pending"); ("degraded", JBool true);
         ("feature_variant", JStr variant); ("catalog", JArr catalog); ("quote", quote_json quote)]).

Definition pending_payment_response (order : PendingOrder) (catalog : list json) (quote : QuoteResponse)
    (variant : string) (a : PaymentAuthorization) : json :=
  JObj (pending_fields order ++
        [("payment_id", JStr (pa_payment_id a)); ("payment_status", JStr "pending");
         ("payment_operation_status",
          JStr (PaymentOperationStatus_as_str_name (pa_operation_status a)));
         ("payment_failure_reason", JStr (PaymentFailureReason_as_str_name (pa_failure_reason a)));
         ("feature_variant", JStr variant); ("catalog", JArr catalog); ("quote", quote_json quote)]).

Definition paid_response (order : PendingOrder) (catalog : list json) (quote : QuoteResponse)
    (variant payment_id : string) (recommended : json) : json :=
  JObj [("status", JStr "paid"); ("order_id", JStr (pd_id order));
        ("order_number", JStr (pd_order_number order)); ("tenant_id", JStr (pd_tenant_id order));
        ("customer_id", JStr (pd_customer_id order)); ("currency", JStr (pd_currency order));
        ("subtotal_minor", JNum (pd_subtotal_minor order));
        ("discount_minor", JNum (pd_discount_minor order));
        ("total_minor", JNum (pd_total_minor order)); ("payment_id", JStr payment_id);
        ("payment_status", JStr "captured"); ("event_key", JStr (paid_event_key (pd_id order)));
        ("feature_variant", JStr variant); ("catalog", JArr catalog); ("quote", quote_json quote);
        ("recommendation", recommended)].

Definition post_consume_reconciliation (m : string) : ApiError :=
  mkApiError SERVICE_UNAVAILABLE "checkout_post_consume_reconciliation" m.

(** ** The saga *)

Section flow.
(** The validated request, its lease, the flow's variant and context, and the
    payment method. *)
Variables (input : CheckoutInput) (lease : CheckoutLease) (variant : string) (c : Context).
Variables (token method : string) (catalog : list json) (quote : QuoteResponse).
Variable order : PendingOrder.

Local Notation fence := (Attempt lease).
Local Notation request_id := (cl_request_id lease).

(** A lost lease leaves the order to its reconciliation. *)
Definition unless_lost {A} (payment_id : option string) (e : ApiError) (otherwise : Saga A) : Saga A :=
  if is_lease_lost e then
    queue_finalization_recovery order lease payment_id method variant c ;; sg_fail e
  else otherwise.

(** Voids or refunds the payment under its durable intent; whether it is
    confirmed. *)
Definition payment_undone (payment_id : string) : Saga bool :=
  enqueue_payment_compensation_task order payment_id request_id c fence ;;
  compensated <- compensate_payment_with_fence order payment_id request_id fence ;;
  (if (compensated : bool)
   then sg_tx (resolve_compensation_intent order (payment_compensation_task_key payment_id) fence)
   else sg_ret tt) ;;
  sg_ret compensated.

(** After a reservation failed (it released what it held). *)
Definition undo_authorization (payment_id : string) : Saga unit :=
  compensated <- payment_undone payment_id ;;
  if (compensated : bool) then sg_tx (cancel_order_if_compensated order fence) else sg_ret tt.

(** After the capture or the consumption failed. *)
Definition undo_reservations (reservations : list InventoryReservation) (payment_id : string) :
    Saga unit :=
  released <- sg_try (release_inventory_with_recovery order reservations c fence) ;;
  compensated <- payment_undone payment_id ;;
  if (match released with Ok _ => true | Err _ => false end && compensated)%bool
  then sg_tx (cancel_order_if_compensated order fence) else sg_ret tt.

(** The order is paid, or an error leaves that to the reconciliation. *)
Definition pay_order (payment_id : string) : Saga unit :=
  finalized <- sg_try (order_finalized c order payment_id variant fence) ;;
  match finalized with
  | Ok _ => sg_ret tt
  | Err e =>
      unless_lost (Some payment_id) e
        (committed <- finalization_took_effect order ;;
         if (committed : bool) then sg_ret tt else
         register_reconciliation order lease (Some payment_id) method variant c ;;
         sg_fail (post_consume_reconciliation
           "inventory is already consumed; durable order finalization reconciliation is queued"))
  end.

(** From an authorization that succeeded. *)
Definition complete_authorized (payment_id : string) : Saga json :=
  reserved <- sg_try (reserve_inventory order c fence) ;;
  match reserved with
  | Err e =>
      unless_lost (Some payment_id) e (undo_authorization payment_id ;; sg_fail e)
  | Ok reservations =>
      captured <- sg_try (with_checkout_fence fence (capture_payment order payment_id request_id)) ;;
      match captured with
      | Err e =>
          unless_lost (Some payment_id) e (undo_reservations reservations payment_id ;; sg_fail e)
      | Ok _ =>
          consumed <- sg_try (consume_inventory order reservations fence) ;;
          match consumed with
          | Err e =>
              unless_lost (Some payment_id) e
                (if is_retryable_inventory_consume_error e then
                   register_reconciliation order lease (Some payment_id) method variant c ;;
                   sg_fail (post_consume_reconciliation
                     "inventory consume outcome is ambiguous; durable checkout reconciliation is queued")
                 else undo_reservations reservations payment_id ;; sg_fail e)
          | Ok _ =>
              pay_order payment_id ;;
              suggestion <- recommended input order variant ;;
              sg_ret (paid_response order catalog quote variant payment_id suggestion)
          end
      end
  end.

Definition continue_authorized (a : PaymentAuthorization) : Saga json :=
  if bool_decide (pa_operation_status a = OpPending) then
    register_reconciliation order lease (Some (pa_payment_id a)) method variant c ;;
    sg_ret (pending_payment_response order catalog quote variant a)
  else complete_authorized (pa_payment_id a).

(** The outcome of an ambiguous authorization, whose error is [e]. *)
Definition resume_authorization (e : ApiError) : Saga json :=
  recovery <- sg_try (with_checkout_fence fence
                        (recover_authorization order request_id token method c fence)) ;;
  match recovery with
  | Ok (Recovered a) => continue_authorized a
  | Ok Absent =>
      sg_tx (cancel_order_fenced order fence) ;;
      if in_degrade input then sg_ret (degraded_response order catalog quote e) else sg_fail e
  | Ok Pending =>
      register_reconciliation order lease None method variant c ;;
      if in_degrade input then sg_ret (unknown_payment_response order catalog quote variant)
      else sg_fail (payment_reconciliation_error "payment authorization outcome is not yet observable")
  | Ok (Failed failure) => sg_tx (cancel_order_fenced order fence) ;; sg_fail failure
  | Err _ => sg_fail e
  end.

Definition pay_for_order : Saga json :=
  authorized <- sg_try (with_checkout_fence fence (authorize_payment order request_id token method)) ;;
  match authorized with
  | Ok a => continue_authorized a
  | Err e =>
      unless_lost None e
        (if is_ambiguous_payment_failure e then resume_authorization e
         else sg_tx (cancel_order_fenced order fence) ;; sg_fail e)
  end.
End flow.

Definition checkout_flow (input : CheckoutInput) (c : Context) (lease : CheckoutLease) : Saga json :=
  credentials <- sg_lift (require_payment_credentials input) ;;
  sg_tx (assert_checkout_fence (Attempt lease)) ;;
  evaluated <- sg_env (fun e => ev_variant e input) ;;
  let variant := default "orchestrated" evaluated in
  let c := context_with_checkout_variant c variant in
  catalog <- validate_catalog input ;;
  quote <- quoted input (cl_request_id lease) variant ;;
  order <- order_created input quote lease ;;
  pay_for_order input lease variant c credentials.1 credentials.2 catalog quote order.

(** ** The request *)

Definition with_identity (tenant session request_id : string) (input : CheckoutInput) : CheckoutInput :=
  mkCheckoutInput tenant (in_customer_id input) (Some session) (in_cart_id input) (in_items input)
    (in_currency_code input) (in_promotion_code input) (in_segment input) (in_tier input)
    (in_region input) (in_priority input) (in_payment_method_token input)
    (in_payment_method_type input) (Some request_id) (in_delay_ms input) (in_slow input)
    (in_retry input) (in_timeout_ms input) (in_degrade input).

Definition response_status (payload : json) : attempt_status :=
  match jget_str "status" payload with
  | Some s => if String.eqb s "payment_pending" then APending
              else if String.eqb s "degraded" then ADegraded
              else if String.eqb s "paid" then APaid else AFailed
  | None => AFailed
  end.

(** The answer of the flow becomes the attempt's. *)
Definition record_answer (tenant request_id token : string) (answer : ApiResult json) : Saga json :=
  match answer with
  | Ok payload =>
      let status := response_status payload in
      sg_tx (record_checkout_response tenant request_id token status (jget_str "order_id" payload)
               payload) ;;
      (if bool_decide (status = APending) then wake_pending_payment_reconciliation tenant request_id
       else sg_ret tt) ;;
      sg_ret payload
  | Err e =>
      recorded <- sg_try (sg_tx (record_checkout_failure tenant request_id token e)) ;;
      match recorded with
      | Err e' =>
          if is_lease_lost e' then sg_ret tt else sg_fail e'
      | Ok _ => sg_ret tt
      end ;;
      (if String.eqb (ae_code e) "checkout_post_consume_reconciliation"
       then wake_pending_payment_reconciliation tenant request_id else sg_ret tt) ;;
      sg_fail e
  end.

(** The request with its identity, and the credentials it must carry. *)
Definition accept_request (c : Context) (request_id : string) (input : CheckoutInput) :
    ApiResult CheckoutInput :=
  (identity <- resolve_checkout_identity c (in_tenant_id input) (in_session_id input)
                 ("session-" +:+ request_id) ;;
   let input := with_identity identity.1 identity.2 request_id input in
   validate_input input ;;
   _ <- require_payment_credentials input ;;
   Ok input)%res.

(** The UUID of the request id is drawn when the request has none. *)
Definition checkout_inner (input : CheckoutInput) (c : Context) : Saga json :=
  fresh <- sg_uuid 2 ;;
  let request_id := default ("checkout-" +:+ fresh) (non_blank (in_request_id input)) in
  input <- sg_lift (accept_request c request_id input) ;;
  let tenant := in_tenant_id input in
  let c := context_with_identity c tenant (default "" (in_session_id input)) in
  fingerprint <- sg_env (fun e => checkout_request_fingerprint (ev_json_text e) (ev_sha256 e) input) ;;
  lease_token <- sg_uuid 0 ;;
  new_token <- sg_uuid 1 ;;
  claim <- sg_tx (claim_checkout_attempt tenant request_id fingerprint lease_token new_token) ;;
  match claim with
  | ClaimNew lease_token =>
      answer <- sg_try (checkout_flow input c (mkCheckoutLease tenant request_id lease_token)) ;;
      record_answer tenant request_id lease_token answer
  | ClaimPending payload =>
      wake_pending_payment_reconciliation tenant request_id ;; sg_ret payload
  | ClaimReplay payload => sg_ret payload
  | ClaimInProgress =>
      sg_fail (mkApiError CONFLICT "checkout_in_progress" "request_id is already being processed")
  | ClaimFailed e => sg_fail e
  end.

Local Close Scope saga_scope.

End CheckoutFlow.

(** The background workers of the checkout service: the reconciliation of a
    pending payment (services/checkout/src/application.rs, lines 2237 to 2539;
    infrastructure.rs, lines 978 to 1022) and the durable compensation tasks
    (infrastructure.rs, lines 1463 to 1639), one round each. *)
Module CheckoutWorkers.

Import Propagation Proto Schema Transactions CheckoutDomain CheckoutQuote CheckoutFence CheckoutCompensation
  CheckoutAttempts CheckoutReconciliation CheckoutOrders CheckoutOutbox CheckoutSaga CheckoutPayments
  CheckoutStock CheckoutFlow.

Local Open Scope saga_scope.

(** [stored_reconciliation_context] and [stored_compensation_context] *)
Definition stored_context (c : carrier) : Saga Context :=
  extract <- sg_env ev_extract ;;
  sg_lift (stored_carrier_context extract c.1.1 c.1.2 c.2).

(** ** The reconciliation of a pending payment *)

Definition reconciliation_operation_status (s : PaymentStatus) : PaymentOperationStatus :=
  match s with
  | PsPending => OpPending
  | PsAuthorized | PsCaptured => OpSucceeded
  | PsFailed | PsVoided | PsPartiallyRefunded | PsRefunded => OpFailed
  | PsUnspecified => OpUnspecified
  end.

Definition observe_payment (job : PaymentReconciliationJob) (s : PaymentSnapshot) : Saga unit :=
  sg_tx (record_payment_reconciliation_observation job (PaymentStatus_as_str_name (ps_status s))
           (PaymentOperationStatus_as_str_name (reconciliation_operation_status (ps_status s)))
           (PaymentFailureReason_as_str_name (ps_failure_reason s))).

(** The payload of the attempt, or one made of the order. *)
Definition order_payload (order : PendingOrder) : json :=
  JObj [("order_id", JStr (pd_id order)); ("order_number", JStr (pd_order_number order));
        ("tenant_id", JStr (pd_tenant_id order)); ("customer_id", JStr (pd_customer_id order));
        ("session_id", JStr (pd_session_id order)); ("currency", JStr (pd_currency order));
        ("total_minor", JNum (pd_total_minor order));
        ("items", JArr (map line_payload (pd_lines order)))].

(** [fields.insert] on an object; other values are left alone. *)
Definition set_fields (fields : list (string * json)) (payload : json) : json :=
  match payload with
  | JObj entries => JObj (foldl (fun entries f => assoc_insert f.1 f.2 entries) entries fields)
  | v => v
  end.

Definition paid_fields (job : PaymentReconciliationJob) (order : PendingOrder) (payment_id : string) :
    list (string * json) :=
  [("status", JStr "paid"); ("order_status", JStr "paid"); ("payment_id", JStr payment_id);
   ("payment_status", JStr "captured");
   ("payment_operation_status", JStr (PaymentOperationStatus_as_str_name OpSucceeded));
   ("payment_failure_reason", JStr (PaymentFailureReason_as_str_name FrUnspecified));
   ("feature_variant", JStr (rj_feature_variant job)); ("event_key", JStr (paid_event_key (pd_id order)))].

Definition attempt_payload (db : Db) (job : PaymentReconciliationJob) (order : PendingOrder) : json :=
  default (order_payload order)
    (a ← db_attempts db !! (rj_tenant_id job, rj_request_id job);
     if opt_is (at_order_id a) (pd_id order) then at_payload a else None).

Definition paid_reconciliation_payload (job : PaymentReconciliationJob) (order : PendingOrder)
    (payment_id : string) : Saga json :=
  payload <- sg_query (fun db => attempt_payload db job order) ;;
  sg_ret (set_fields (paid_fields job order payment_id) payload).

Definition reconcile_captured_payment_failure (order : PendingOrder) (payment_id request_id : string)
    (c : Context) (fence : CheckoutFence) (e : ApiError) : Saga PendingPaymentOutcome :=
  enqueue_payment_compensation_task order payment_id request_id c fence ;;
  compensated <- compensate_payment_with_fence order payment_id request_id fence ;;
  sg_ensure compensated
    (payment_reconciliation_error "captured payment compensation is not yet confirmed") ;;
  sg_tx (resolve_compensation_intent order (payment_compensation_task_key payment_id) fence) ;;
  sg_tx (cancel_order_if_compensated order fence) ;;
  sg_ret (PFailed e).

(** The outcome of a payment that cannot be captured any more. *)
Definition terminal_outcome (s : PaymentSnapshot) : option PendingPaymentOutcome :=
  match ps_status s with
  | PsPending => Some Retry
  | PsFailed =>
      Some (PFailed (payment_operation_error "payment authorization"
                       (authorization_failure_status (ps_failure_reason s)) (ps_failure_reason s)))
  | PsVoided | PsRefunded =>
      Some (PFailed (payment_reconciliation_error
                       "payment authorization was voided or refunded before checkout completed"))
  | PsPartiallyRefunded =>
      Some (PFailed (payment_reconciliation_error
                       "payment authorization has a partial refund and cannot complete checkout"))
  | PsAuthorized | PsCaptured | PsUnspecified => None
  end.

Section reconciliation.
Variables (job : PaymentReconciliationJob) (order : PendingOrder) (c : Context) (payment_id : string).

Local Notation fence := (job_fence job).
Local Notation request_id := (rj_request_id job).

Definition fenced_snapshot : Saga PaymentSnapshot :=
  snapshot <- with_checkout_fence fence (get_payment_snapshot order payment_id) ;;
  observe_payment job snapshot ;;
  sg_ret snapshot.

Definition reconciled : Saga PendingPaymentOutcome :=
  payload <- paid_reconciliation_payload job order payment_id ;;
  sg_ret (PCompleted payload).

Definition finalize_reconciled : Saga PendingPaymentOutcome :=
  finalized <- sg_try (order_finalized c order payment_id (rj_feature_variant job) fence) ;;
  match finalized with
  | Ok _ => reconciled
  | Err e =>
      if is_lease_lost e then sg_fail e else
      committed <- finalization_took_effect order ;;
      if (committed : bool) then reconciled else sg_fail e
  end.

(** Of a payment captured for the exact amount. *)
Definition settle_captured : Saga PendingPaymentOutcome :=
  reserved <- sg_try (reserve_inventory order c fence) ;;
  match reserved with
  | Err e =>
      if is_lease_lost e then sg_fail e
      else reconcile_captured_payment_failure order payment_id request_id c fence e
  | Ok reservations =>
      consumed <- sg_try (consume_inventory order reservations fence) ;;
      match consumed with
      | Err e =>
          if is_lease_lost e then sg_fail e else
          _ <- sg_try (release_inventory_with_recovery order reservations c fence) ;;
          reconcile_captured_payment_failure order payment_id request_id c fence e
      | Ok _ => finalize_reconciled
      end
  end.

Definition exactly_captured (s : PaymentSnapshot) : bool :=
  bool_decide (ps_status s = PsCaptured) && (ps_captured_minor s =? pd_total_minor order)
  && (ps_refunded_minor s =? 0).

Definition settle_exact (s : PaymentSnapshot) : Saga PendingPaymentOutcome :=
  if exactly_captured s then settle_captured
  else sg_ret (PFailed (payment_reconciliation_error
                          "payment capture did not settle the exact checkout amount")).

Definition settle_payment : Saga PendingPaymentOutcome :=
  snapshot <- fenced_snapshot ;;
  match terminal_outcome snapshot with
  | Some outcome => sg_ret outcome
  | None =>
      sg_ensure (negb (bool_decide (ps_status snapshot = PsUnspecified)))
        (payment_reconciliation_error "payment reconciliation returned an unspecified state") ;;
      if bool_decide (ps_status snapshot = PsAuthorized)
         && (ps_captured_minor snapshot <? pd_total_minor order)
      then
        with_checkout_fence fence (capture_payment order payment_id request_id) ;;
        snapshot <- fenced_snapshot ;;
        if bool_decide (ps_status snapshot ∈ [PsPending; PsAuthorized]) then sg_ret Retry
        else settle_exact snapshot
      else settle_exact snapshot
  end.
End reconciliation.

(** The statuses of a job the worker claimed are checked by the claim itself. *)
Definition job_valid (job : PaymentReconciliationJob) : bool :=
  String.eqb (rj_authorize_request_id job) (rj_request_id job +:+ ":authorize")
  && one_of (rj_method_type job) ["card"; "bank_account"; "wallet"; "unspecified"].

Definition job_matches (job : PaymentReconciliationJob) (order : PendingOrder) : bool :=
  String.eqb (pd_currency order) (rj_currency job) && (pd_total_minor order =? rj_amount_minor job)
  && String.eqb (rj_merchant_reference job) (pd_id order).

Definition job_payment_id (job : PaymentReconciliationJob) (order : PendingOrder) : Saga (option string) :=
  match rj_payment_id job with
  | Some p => sg_ret (Some p)
  | None => lookup_authorization_payment_id order (rj_request_id job)
  end.

Definition reconcile_pending_payment (job : PaymentReconciliationJob) : Saga PendingPaymentOutcome :=
  if negb (job_valid job) then
    sg_ret (PFailed (payment_reconciliation_error "payment reconciliation job identity is invalid"))
  else
    sg_tx (assert_checkout_fence (job_fence job)) ;;
    order <- order_loaded (rj_tenant_id job) (rj_order_id job) ;;
    if negb (job_matches job order) then
      sg_ret (PFailed (payment_reconciliation_error
                         "payment reconciliation job does not match its order"))
    else
      c <- stored_context (rj_carrier job) ;;
      found <- job_payment_id job order ;;
      match found with
      | None => sg_ret Retry
      | Some payment_id =>
          (if opt_is (rj_payment_id job) payment_id then sg_ret tt
           else sg_tx (attach_payment_to_reconciliation job payment_id)) ;;
          settle_payment job order c payment_id
      end.

(** One round of the worker: whether it found work. *)
Definition process_one_payment_reconciliation : Saga bool :=
  reclaimed <- sg_tx reclaim_exhausted_payment_reconciliation ;;
  if (reclaimed : bool) then sg_ret true else
  token <- sg_uuid 0 ;;
  claimed <- sg_tx (claim_payment_reconciliation token) ;;
  match claimed with
  | None => sg_ret false
  | Some job =>
      _ <- stored_context (rj_carrier job) ;;
      outcome <- sg_try (reconcile_pending_payment job) ;;
      match outcome with
      | Ok Retry => sg_tx (reschedule_payment_reconciliation job None)
      | Ok (PCompleted payload) => sg_tx (complete_payment_reconciliation job payload)
      | Ok (PFailed e) => sg_tx (fail_payment_reconciliation job e)
      | Err e => if is_lease_lost e then sg_ret tt
                 else sg_tx (reschedule_payment_reconciliation job (Some e))
      end ;;
      sg_ret true
  end.

(** ** Compensation tasks *)

Definition task_fence (task : CompensationTask) : CheckoutFence :=
  Compensation (ct_tenant_id task) (tk_checkout_request_id (ct_row task))
    (tk_checkout_lease_token (ct_row task)) (ct_id task) (ct_claim_token task).

(** The claim and the parent generation, read in one statement. *)
Definition compensation_fence (task : CompensationTask) : Saga CheckoutFence :=
  let t := ct_row task in
  current <- sg_tx (now <- tx_now ;;
                    tx_read (fun db =>
                      task_claimed db now (ct_tenant_id task) (ct_id task) (ct_claim_token task)
                        (tk_checkout_request_id t) (tk_checkout_lease_token t)
                      && parent_current db now (ct_tenant_id task) (tk_checkout_request_id t)
                           (tk_checkout_lease_token t) None))%txn ;;
  sg_ensure current (lease_lost "compensation task fence is no longer current") ;;
  sg_ret (task_fence task).

Definition task_missing (what : string) : ApiError :=
  compensation_persistence_failed INTERNAL_SERVER_ERROR what.

Definition process_inventory_release (task : CompensationTask) : Saga unit :=
  let t := ct_row task in
  fence <- compensation_fence task ;;
  order <- order_loaded (ct_tenant_id task) (tk_order_id t) ;;
  reservation_id <- sg_lift (ok_or (tk_reservation_id t)
                      (task_missing "inventory compensation task has no reservation_id")) ;;
  let task_key := inventory_task_key fence reservation_id in
  sg_tx (begin_compensation_operation order task_key fence) ;;
  sku <- sg_lift (ok_or (tk_sku t) (task_missing "inventory compensation task has no SKU")) ;;
  quantity <- sg_lift (ok_or (tk_quantity t)
                (task_missing "inventory compensation task has no quantity")) ;;
  release_inventory order [mkInventoryReservation reservation_id sku quantity None] fence ;;
  sg_tx (complete_compensation_operation order task_key fence).

Definition process_payment_compensation (task : CompensationTask) : Saga unit :=
  let t := ct_row task in
  fence <- compensation_fence task ;;
  order <- order_loaded (ct_tenant_id task) (tk_order_id t) ;;
  sg_ensure (opt_is (tk_currency t) (pd_currency order))
    (task_missing "payment compensation currency does not match the order") ;;
  payment_id <- sg_lift (ok_or (tk_payment_id t)
                  (task_missing "payment compensation task has no payment_id")) ;;
  compensated <- compensate_payment_with_fence order payment_id (default (ct_id task) (tk_request_id t))
                   fence ;;
  sg_ensure compensated
    (payment_reconciliation_error "durable payment compensation is not yet confirmed").

Definition process_compensation_task (task : CompensationTask) : Saga unit :=
  _ <- stored_context (tk_carrier (ct_row task)) ;;
  match tk_kind (ct_row task) with
  | KInventoryRelease => process_inventory_release task
  | KPayment => process_payment_compensation task
  end.

Definition process_one_compensation : Saga bool :=
  buried <- sg_tx dead_letter_expired_compensation_task ;;
  if (buried : bool) then sg_ret true else
  token <- sg_uuid 0 ;;
  claimed <- sg_tx (claim_compensation_task token) ;;
  match claimed with
  | None => sg_ret false
  | Some read =>
      task <- sg_lift read ;;
      _ <- stored_context (tk_carrier (ct_row task)) ;;
      outcome <- sg_try (process_compensation_task task) ;;
      match outcome with
      | Ok _ => sg_tx (complete_compensation_task task)
      | Err e =>
          if compensation_attempts_exhausted (tk_attempts (ct_row task))
          then sg_tx (dead_letter_compensation_task task e)
          else sg_tx (reschedule_compensation_task task e)
      end ;;
      sg_ret true
  end.

Local Close Scope saga_scope.

End CheckoutWorkers.
