(* ===== verification/CheckoutApi.v ===== *)
(** The HTTP layer of the checkout service (services/checkout/src/api.rs): the
    decoding and normalization of its requests, the order and cart endpoints,
    and the quote stream. *)

From stdpp Require Import sorting.
From S2P Require Import Prelude Values Proto Propagation PricingDomain PricingService Database CheckoutDomain CheckoutQuote CheckoutRecords CheckoutOrders CheckoutCart CheckoutSteps CheckoutRuns.
Import Text Serde Proto Propagation PricingDomain PricingService Schema Transactions CheckoutDomain
  CheckoutQuote CheckoutFence CheckoutCompensation CheckoutOrders CheckoutCart CheckoutSaga CheckoutFlow.

(** ** Requests *)

Definition read_item (v : json) : option CheckoutItemInput :=
  fields ← struct_with_defaults [("sku", required); ("quantity", required)] v;
  match fields with
  | [JStr sku; quantity] => quantity ← decode_u32 quantity; Some (mkCheckoutItem sku quantity)
  | _ => None
  end.

Definition read_checkout_input (v : json) : option CheckoutInput :=
  fields ← struct_with_defaults
    [("tenant_id", Some (JStr "")); ("customer_id", Some (JStr "")); ("session_id", optional);
     ("cart_id", optional); ("items", Some (JArr [])); ("currency_code", Some (JStr default_currency));
     ("promotion_code", optional); ("segment", Some (JStr default_segment)); ("tier", Some (JStr default_tier));
     ("region", Some (JStr default_region)); ("priority", Some (JStr default_priority));
     ("payment_method_token", optional); ("payment_method_type", optional); ("request_id", optional);
     ("delay_ms", Some (JNum 0)); ("slow", Some (JNum 0)); ("retry", Some (JNum 0));
     ("timeout_ms", Some (JNum default_timeout_ms)); ("degrade", Some (JBool false))] v;
  match fields with
  | [JStr tenant; JStr customer; session; cart; items; JStr currency; promotion; JStr segment; JStr tier;
     JStr region; JStr priority; token; method; request; delay; slow; retry; timeout; JBool degrade] =>
      session ← decode_option decode_str session;
      cart ← decode_option decode_str cart;
      items ← decode_vec read_item items;
      promotion ← decode_option decode_str promotion;
      token ← decode_option decode_str token;
      method ← decode_option decode_str method;
      request ← decode_option decode_str request;
      delay ← decode_u64 delay;
      slow ← decode_u64 slow;
      retry ← decode_u32 retry;
      timeout ← decode_u64 timeout;
      Some (mkCheckoutInput tenant customer session cart items currency promotion segment tier region
              priority token method request delay slow retry timeout degrade)
  | _ => None
  end.

Definition read_add_cart_item (v : json) : option AddCartItemInput :=
  fields ← struct_with_defaults
    [("tenant_id", Some (JStr "")); ("customer_id", Some (JStr "")); ("cart_id", optional);
     ("session_id", optional); ("sku", required); ("quantity", required);
     ("currency_code", Some (JStr default_currency))] v;
  match fields with
  | [JStr tenant; JStr customer; cart; session; JStr sku; quantity; JStr currency] =>
      cart ← decode_option decode_str cart;
      session ← decode_option decode_str session;
      quantity ← decode_u32 quantity;
      Some (mkAddCartItemInput tenant customer cart session sku quantity currency)
  | _ => None
  end.

Definition read_scope (v : json) : option CartItemScope :=
  fields ← struct_with_defaults
    [("tenant_id", Some (JStr "")); ("customer_id", Some (JStr "")); ("cart_id", Some (JStr ""))] v;
  match fields with
  | [JStr tenant; JStr customer; JStr cart] => Some (mkCartItemScope tenant customer cart)
  | _ => None
  end.

(** A structure with a flattened part is read from an object only. *)
Definition read_replacement (v : json) : option (CartItemScope * Z) :=
  match v with
  | JObj _ =>
      scope ← read_scope v;
      quantity ← decode_i64 (default (JNum 0) (jget "quantity" v));
      Some (scope, quantity)
  | _ => None
  end.

Record QuoteStreamQuery : Type := mkQuoteStreamQuery {
  qs_sku : string; qs_quantity : Z; qs_tenant_id : string; qs_customer_id : string;
  qs_session_id : option string; qs_cart_id : option string; qs_currency_code : string;
  qs_promotion_code : option string; qs_segment : string; qs_tier : string; qs_region : string;
  qs_priority : string; qs_request_id : option string; qs_delay_ms : Z; qs_slow : Z; qs_retry : Z;
  qs_timeout_ms : Z; qs_degrade : bool }.

Definition input_of_stream_query (q : QuoteStreamQuery) : CheckoutInput :=
  {| in_tenant_id := qs_tenant_id q; in_customer_id := qs_customer_id q; in_session_id := qs_session_id q;
     in_cart_id := qs_cart_id q; in_items := [mkCheckoutItem (qs_sku q) (qs_quantity q)];
     in_currency_code := qs_currency_code q; in_promotion_code := qs_promotion_code q;
     in_segment := qs_segment q; in_tier := qs_tier q; in_region := qs_region q;
     in_priority := qs_priority q; in_payment_method_token := None; in_payment_method_type := None;
     in_request_id := qs_request_id q; in_delay_ms := qs_delay_ms q; in_slow := qs_slow q;
     in_retry := qs_retry q; in_timeout_ms := qs_timeout_ms q; in_degrade := qs_degrade q |}.

Local Open Scope result_scope.

Definition resolve_http_tenant_id (h : headers) (requested : string) : ApiResult string :=
  res_map_err (fun e => match e with
    | TenantMissing => mkApiError BAD_REQUEST "tenant_required"
                         "tenant_id is required in the request or tenant.id baggage"
    | TenantInvalid => mkApiError BAD_REQUEST "invalid_identity" "tenant identity is invalid"
    | TenantConflicting => mkApiError CONFLICT "identity_conflict" "tenant identity sources conflict"
    end)
    (resolve_http_tenant_identity h (if is_blank requested then None else Some requested)).

Definition with_identity (i : CheckoutInput) (tenant session request : string) : CheckoutInput :=
  {| in_tenant_id := tenant; in_customer_id := in_customer_id i; in_session_id := Some session;
     in_cart_id := in_cart_id i; in_items := in_items i; in_currency_code := in_currency_code i;
     in_promotion_code := in_promotion_code i; in_segment := in_segment i; in_tier := in_tier i;
     in_region := in_region i; in_priority := in_priority i;
     in_payment_method_token := in_payment_method_token i;
     in_payment_method_type := in_payment_method_type i; in_request_id := Some request;
     in_delay_ms := in_delay_ms i; in_slow := in_slow i; in_retry := in_retry i;
     in_timeout_ms := in_timeout_ms i; in_degrade := in_degrade i |}.

(** [parent]: the context the headers carry; [uuid]: the text of a new UUID *)
Definition normalize_checkout_input (h : headers) (parent : Context) (input : CheckoutInput)
    (prefix uuid : string) : ApiResult CheckoutInput :=
  let request := default (prefix +:+ "-" +:+ uuid) (non_blank (in_request_id input)) in
  tenant <- resolve_http_tenant_id h (in_tenant_id input) ;;
  session <- CheckoutDomain.resolve_session_id parent (in_session_id input) ;;
  let session := default ("session-" +:+ request) session in
  ensure (negb (is_blank session)) (mkApiError BAD_REQUEST "invalid_session" "session_id is invalid") ;;
  let input := with_identity input tenant session request in
  validate_input input ;;
  Ok input.

Definition context_with_session_id (c : Context) (session : option string) : Context :=
  match non_blank session with
  | Some session => extend_baggage c [("session.id", session)]
  | None => c
  end.

(** The context a request is handled in; [span]: the context of its span *)
Definition request_context (span parent : Context) (input : CheckoutInput) : Context :=
  context_with_session_id
    (with_business_context_from_parent span parent (in_tenant_id input) (in_tier input) (in_segment input)
       (in_region input) (in_priority input)) (in_session_id input).

Definition checkout_request (h : headers) (span parent : Context) (uuid : string) (input : CheckoutInput) :
    Saga json := fun e w =>
  match normalize_checkout_input h parent input "checkout" uuid with
  | Ok input => checkout_inner input (request_context span parent input) e w
  | Err x => (Err x, w)
  end.

(** ** The quote stream *)

Definition stream_request (input : CheckoutInput) (uuid : string) : QuoteRequest :=
  {| qr_request_id := default ("stream-" +:+ uuid) (in_request_id input);
     qr_customer_id := in_customer_id input;
     qr_items := map (fun item => mkQuoteItem (ii_sku item) (ii_quantity item)) (in_items input);
     qr_currency_code := in_currency_code input;
     qr_context := list_to_map [("customer_segment", in_segment input); ("customer_tier", in_tier input);
                                ("region", in_region input); ("request_priority", in_priority input);
                                ("pricing_strategy", "standard")];
     qr_payment_method_type := None;
     qr_tenant_id := in_tenant_id input |}.

(** The loop over what the stream yields, each with the milliseconds since the
    start: the quotes counted, and whether the client cancelled *)
Fixpoint count_stream (cancel_after : Z) (items : list (result grpc_status QuoteResponse * Z)) (count : Z) :
    ApiResult (Z * bool) :=
  match items with
  | [] => Ok (count, false)
  | (Err status, _) :: _ => Err (pricing_error status)
  | (Ok _, elapsed) :: rest =>
      let count := count + 1 in
      if (0 <? cancel_after) && (cancel_after <=? elapsed) then Ok (count, true)
      else count_stream cancel_after rest count
  end.

Definition stream_reply (r : Z * bool) : json :=
  JObj [("streamed_quotes", JNum r.1); ("cancelled", JBool r.2)].

(** [channel]: the connection to pricing; [stream]: the answer to a request, or
    the status that refuses it *)
Definition quote_stream (h : headers) (parent : Context) (uuid stream_uuid : string) (q : QuoteStreamQuery)
    (channel : ApiResult unit)
    (stream : QuoteRequest -> result grpc_status (list (result grpc_status QuoteResponse * Z))) :
    ApiResult json :=
  input <- normalize_checkout_input h parent (input_of_stream_query q) "stream" uuid ;;
  channel ;;
  items <- res_map_err pricing_error (stream (stream_request input stream_uuid)) ;;
  r <- count_stream (in_delay_ms input) items 0 ;;
  Ok (stream_reply r).

(** ** Orders *)

Record OrderQuery : Type := mkOrderQuery {
  oq_tenant_id : string; oq_customer_id : option string; oq_session_id : option string }.

(** The identity of a read: tenant, customer and session *)
Definition query_identity (h : headers) (parent : Context) (q : OrderQuery) :
    ApiResult (string * string * option string) :=
  tenant <- resolve_http_tenant_id h (oq_tenant_id q) ;;
  customer <- require_customer_id (oq_customer_id q) ;;
  session <- CheckoutDomain.resolve_session_id parent (oq_session_id q) ;;
  Ok (tenant, customer, session).
Local Close Scope result_scope.

(** A read acquires a connection and runs one statement. *)
Definition db_read {A} (fault : option tx_fault) (f : Db -> A) (db : Db) : ApiResult A :=
  (db_run fault 0 (fun _ => false) (tx_read f) db).1.

Definition session_matches (session cart_session : option string) : bool :=
  match session with Some s => opt_is cart_session s | None => true end.

Definition visible_order (db : Db) (tenant customer : string) (session : option string) (k : key)
    (o : OrderRow) : bool :=
  String.eqb k.1 tenant && opt_is (or_customer_id o) customer
  && session_matches session (order_session db tenant o).

(** [ORDER BY o.created_at DESC LIMIT 100] *)
Definition newest_first (a b : key * OrderRow) : Prop := or_created b.2 <= or_created a.2.
#[export] Instance newest_first_dec a b : Decision (newest_first a b).
Proof. unfold newest_first. apply _. Defined.

Definition customer_orders (tenant customer : string) (session : option string) (db : Db) :
    list (key * OrderRow * option string) :=
  map (fun kr => (kr, order_session db tenant kr.2))
    (firstn 100 (merge_sort newest_first
       (List.filter (fun kr => visible_order db tenant customer session kr.1 kr.2) (map_to_list (db_orders db))))).

(** [duration_since(UNIX_EPOCH).ok().map(as_secs)], of microseconds *)
Definition epoch_seconds (t : Z) : json := if 0 <=? t then JNum (t / 1000000) else JNull.

Definition order_summary (tenant : string) (row : key * OrderRow * option string) : json :=
  let '(k, o, session) := row in
  JObj [("id", JStr k.2); ("order_number", JStr (or_order_number o)); ("tenant_id", JStr tenant);
        ("customer_id", option_json (or_customer_id o)); ("session_id", option_json session);
        ("status", JStr (order_status_text (or_status o))); ("currency", JStr (or_currency o));
        ("total_minor", JNum (or_total_minor o)); ("created_at", epoch_seconds (or_created o))].

Local Open Scope result_scope.

Definition list_orders (fault : option tx_fault) (h : headers) (parent : Context) (q : OrderQuery) (db : Db) :
    ApiResult json :=
  identity <- query_identity h parent q ;;
  let '(tenant, customer, session) := identity in
  rows <- db_read fault (customer_orders tenant customer session) db ;;
  Ok (JObj [("orders", JArr (map (order_summary tenant) rows)); ("tenant_id", JStr tenant);
            ("customer_id", JStr customer); ("session_id", option_json session)]).
Local Close Scope result_scope.

(** [ORDER BY created_at DESC LIMIT 1] over the payments of the order *)
Definition latest_payment (db : Db) (tenant order : string) : option (string * PaymentRow) :=
  (fun kr => (kr.1.2, kr.2)) <$>
    first_by (fun k p => String.eqb k.1 tenant && String.eqb (py_order_id p) order)
      (fun a b => py_created b.2 <=? py_created a.2) (db_payments db).

Definition visible_order_row (tenant order customer : string) (session : option string) (db : Db) :
    option (OrderRow * option (string * PaymentRow) * option string) :=
  o ← db_orders db !! (tenant, order);
  if visible_order db tenant customer session (tenant, order) o
  then Some (o, latest_payment db tenant order, order_session db tenant o) else None.

(** [EXTRACT(EPOCH FROM created_at)::BIGINT] rounds half away from zero. *)
Definition rounded_seconds (t : Z) : Z := Z.sgn t * ((Z.abs t + 500000) / 1000000).

Definition order_item_row_json (i : OrderItemRow) : json :=
  JObj [("sku", JStr (oi_sku i)); ("product_name", JStr (oi_product_name i)); ("quantity", JNum (oi_quantity i));
        ("unit_price_minor", JNum (oi_unit_price_minor i)); ("discount_minor", JNum 0);
        ("line_total_minor", JNum (oi_quantity i * oi_unit_price_minor i))].

(** The items of an order are inserted together, and read in that order. *)
Definition order_detail (tenant order : string) (o : OrderRow) (payment : option (string * PaymentRow))
    (session : option string) (items : list OrderItemRow) : json :=
  JObj [("id", JStr order); ("order_number", JStr (or_order_number o)); ("tenant_id", JStr tenant);
        ("customer_id", option_json (or_customer_id o)); ("session_id", option_json session);
        ("status", JStr (order_status_text (or_status o))); ("currency", JStr (or_currency o));
        ("subtotal_minor", JNum (or_subtotal_minor o)); ("discount_minor", JNum (or_discount_minor o));
        ("tax_minor", JNum (or_tax_minor o)); ("shipping_minor", JNum (or_shipping_minor o));
        ("total_minor", JNum (or_total_minor o)); ("created_at", JNum (rounded_seconds (or_created o)));
        ("payment_id", option_json (fst <$> payment));
        ("payment_status", option_json ((fun p => py_status p.2) <$> payment));
        ("items", JArr (map order_item_row_json items))].

Local Open Scope result_scope.

(** Two statements, [db] and then [db'] being what they see *)
Definition get_order (fault fault' : option tx_fault) (h : headers) (parent : Context) (order : string)
    (q : OrderQuery) (db db' : Db) : ApiResult json :=
  identity <- query_identity h parent q ;;
  let '(tenant, customer, session) := identity in
  row <- db_read fault (visible_order_row tenant order customer session) db ;;
  row <- ok_or row (mkApiError NOT_FOUND "order_not_found" "order was not found") ;;
  let '(o, payment, cart) := row in
  items <- db_read fault' (fun db => default [] (or_items <$> db_orders db !! (tenant, order))) db' ;;
  Ok (order_detail tenant order o payment cart items).
Local Close Scope result_scope.

(** ** Carts *)

(** [ORDER BY updated_at DESC LIMIT 1] *)
Definition active_cart (tenant customer : string) (session : option string) (db : Db) : option (key * CartRow) :=
  first_by (fun k c => String.eqb k.1 tenant && opt_is (ca_customer_id c) customer
                       && bool_decide (ca_status c = CActive) && session_matches session (ca_session_id c))
    (fun a b => ca_updated b.2 <=? ca_updated a.2) (db_carts db).

(** A row of the join: SKU, product name, quantity and unit price *)
Definition cart_line (db : Db) (tenant : string) (item : string * (Z * Z)) : option (string * string * Z * Z) :=
  v ← List.find (fun kv => String.eqb kv.1.1 tenant && String.eqb (vp_variant_id kv.2) item.1)
        (map_to_list (db_variants db));
  Some (v.1.2, vp_product_name v.2, item.2.1, item.2.2).

Section carts.
(** The order of the items, [ci.added_at] *)
Variable by_added : list (string * (Z * Z)) -> list (string * (Z * Z)).

Definition cart_lines (tenant cart : string) (db : Db) : list (string * string * Z * Z) :=
  omap (cart_line db tenant)
    (by_added (map_to_list (default ∅ (ca_items <$> db_carts db !! (tenant, cart))))).

Definition cart_line_json (l : string * string * Z * Z) : json :=
  let '(sku, name, quantity, price) := l in
  JObj [("sku", JStr sku); ("product_name", JStr name); ("quantity", JNum quantity);
        ("unit_price_minor", JNum price); ("line_total_minor", JNum (quantity * price))].

Definition cart_status_text (s : cart_status) : string :=
  match s with CActive => "active" | CAbandoned => "abandoned" | CCheckedOut => "checked_out" end.

Local Open Scope result_scope.

(** A cart's NULL session cannot be decoded: the read fails. *)
Definition get_cart (fault fault' : option tx_fault) (h : headers) (parent : Context) (q : OrderQuery)
    (db db' : Db) : ApiResult json :=
  identity <- query_identity h parent q ;;
  let '(tenant, customer, session) := identity in
  cart <- db_read fault (active_cart tenant customer session) db ;;
  match cart with
  | None => Ok (JObj [("cart", JNull); ("tenant_id", JStr tenant); ("session_id", option_json session)])
  | Some (k, c) =>
      lines <- db_read fault' (cart_lines tenant k.2) db' ;;
      session <- ok_or (ca_session_id c) (db_error "error deserializing column 4") ;;
      Ok (JObj [("cart", JObj [("id", JStr k.2); ("status", JStr (cart_status_text (ca_status c)));
                               ("currency", JStr (ca_currency c)); ("items", JArr (map cart_line_json lines))]);
                ("tenant_id", JStr tenant); ("session_id", JStr session)])
  end.
End carts.

Local Open Scope result_scope.

Definition with_cart_identity (i : AddCartItemInput) (tenant customer session : string) : AddCartItemInput :=
  mkAddCartItemInput tenant customer (ac_cart_id i) (Some session) (ac_sku i) (ac_quantity i)
    (ac_currency_code i).

Definition accept_cart_item (h : headers) (parent : Context) (i : AddCartItemInput) (uuid : string) :
    ApiResult (AddCartItemInput * string) :=
  tenant <- resolve_http_tenant_id h (ac_tenant_id i) ;;
  session <- CheckoutDomain.resolve_session_id parent (ac_session_id i) ;;
  let session := default ("session-" +:+ uuid) session in
  customer <- require_customer_id (Some (ac_customer_id i)) ;;
  ensure ((str_len (ac_currency_code i) =? 3)
          && String.eqb (ac_currency_code i) (to_ascii_uppercase (ac_currency_code i)))
    (mkApiError BAD_REQUEST "invalid_currency" "currency_code must be three uppercase letters") ;;
  ensure (negb ((ac_quantity i =? 0) || (MAX_QUANTITY <? ac_quantity i) || is_blank (ac_sku i)))
    (mkApiError BAD_REQUEST "invalid_cart_item" "sku and quantity are required") ;;
  Ok (with_cart_identity i tenant customer session, session).

(** A request that is checked first and then runs one transaction *)
Definition checked_tx {P A} (checked : ApiResult P) (body : P -> Txn ApiError A) (reply : P -> A -> json)
    (fault : option tx_fault) (now : Z) (locked : key -> bool) (db : Db) : ApiResult json * Db :=
  match checked with
  | Ok p =>
      let '(r, db') := db_run fault now locked (body p) db in
      (a <- r ;; Ok (reply p a), db')
  | Err e => (Err e, db)
  end.

Definition added_reply (p : AddCartItemInput * string) (a : string * string * Z) : json :=
  let '(cart, session, price) := a in
  JObj [("cart_id", JStr cart); ("session_id", JStr session); ("sku", JStr (ac_sku p.1));
        ("quantity_added", JNum (ac_quantity p.1)); ("unit_price_minor", JNum price)].

Definition add_cart_item (prices : list PriceRow) (h : headers) (parent : Context)
    (uuid cart_uuid session_uuid : string) (i : AddCartItemInput) :=
  checked_tx (accept_cart_item h parent i uuid)
    (fun p => add_cart_item_tx prices p.1 p.2 cart_uuid session_uuid) added_reply.

Definition scope_with_tenant (s : CartItemScope) (tenant : string) : CartItemScope :=
  mkCartItemScope tenant (cs_customer_id s) (cs_cart_id s).

Definition accept_replacement (h : headers) (parent : Context) (s : CartItemScope) (quantity : Z) (sku : string) :
    ApiResult (CartItemScope * option string * Z) :=
  tenant <- resolve_http_tenant_id h (cs_tenant_id s) ;;
  session <- CheckoutDomain.resolve_session_id parent None ;;
  quantity <- validate_replacement (scope_with_tenant s tenant) quantity sku ;;
  Ok (scope_with_tenant s tenant, session, quantity).

Definition replaced_reply (sku : string) (p : CartItemScope * option string * Z) (a : Z * Z) : json :=
  JObj [("cart_id", JStr (cs_cart_id p.1.1)); ("sku", JStr sku); ("quantity", JNum a.1);
        ("unit_price_minor", JNum a.2); ("line_total_minor", JNum (a.1 * a.2))].

Definition replace_cart_item (h : headers) (parent : Context) (sku : string) (s : CartItemScope) (quantity : Z) :=
  checked_tx (accept_replacement h parent s quantity sku)
    (fun p => replace_cart_item_tx p.1.1 p.1.2 sku p.2) (replaced_reply sku).

Definition accept_removal (h : headers) (parent : Context) (s : CartItemScope) (sku : string) :
    ApiResult (CartItemScope * option string) :=
  tenant <- resolve_http_tenant_id h (cs_tenant_id s) ;;
  session <- CheckoutDomain.resolve_session_id parent None ;;
  validate_scope (scope_with_tenant s tenant) ;;
  validate_cart_sku sku ;;
  Ok (scope_with_tenant s tenant, session).

Definition removed_reply (sku : string) (p : CartItemScope * option string) (a : Z * Z) : json :=
  JObj [("cart_id", JStr (cs_cart_id p.1)); ("sku", JStr sku); ("removed", JBool true);
        ("quantity_removed", JNum a.1); ("unit_price_minor", JNum a.2); ("line_total_minor", JNum (a.1 * a.2))].

Definition remove_cart_item (h : headers) (parent : Context) (sku : string) (s : CartItemScope) :=
  checked_tx (accept_removal h parent s sku) (fun p => remove_cart_item_tx p.1 p.2 sku) (removed_reply sku).
Local Close Scope result_scope.

(** ** Answers *)

Definition error_response (e : ApiError) : Z * json :=
  (ae_status e, JObj [("error", JStr (ae_code e)); ("message", JStr (ae_message e))]).

Definition api_response (r : ApiResult json) : Z * json :=
  match r with Ok body => (200, body) | Err e => error_response e end.

Record HealthSnapshot : Type := mkHealthSnapshot {
  hs_database : bool; hs_rabbit : bool; hs_catalog : bool; hs_pricing : bool; hs_payment : bool;
  hs_inventory : bool; hs_recommendation : bool }.

Definition health_response (s : HealthSnapshot) (require_messaging : bool) : Z * json :=
  let status := hs_database s && hs_catalog s && hs_pricing s && hs_payment s && hs_inventory s
                && hs_recommendation s && (negb require_messaging || hs_rabbit s) in
  let up (b : bool) := JStr (if b then "UP" else "DOWN") in
  (if status then 200 else 503,
   JObj [("status", up status); ("database", up (hs_database s)); ("messaging", up (hs_rabbit s));
         ("catalog", up (hs_catalog s)); ("pricing", up (hs_pricing s)); ("payment", up (hs_payment s));
         ("inventory", up (hs_inventory s)); ("recommendation", up (hs_recommendation s))]).
