(* ===== verification/CheckoutCartOutcomes.v ===== *)
(** What the cart endpoints of the checkout service do to the cart they name
    (services/checkout/src/api.rs): the item added, replaced or removed, the
    rest of the tables left as they were, and the carts they never reach. *)

From S2P Require Import Prelude Values Proto Propagation PricingDomain PricingService Database CheckoutDomain CheckoutQuote CheckoutRecords CheckoutOrders CheckoutCart CheckoutSteps CheckoutRuns CheckoutApi.
Import Text Serde Proto Propagation PricingDomain PricingService Schema Transactions CheckoutDomain
  CheckoutQuote CheckoutFence CheckoutOrders CheckoutCart CheckoutSaga CheckoutFlow CheckoutApi.

Implicit Types (env : txenv ApiError) (db : Db).

(** What a cart holds of a variant; nothing when there is no cart. *)
Definition cart_item (db : Db) (k : key) (variant : string) : option (Z * Z) :=
  db_carts db !! k ≫= fun c => ca_items c !! variant.

(** The tables differ in the row of one cart at most. *)
Definition only_cart (k : key) (db db' : Db) : Prop :=
  db' = set_carts (db_carts db') db /\ forall k', k' <> k -> db_carts db' !! k' = db_carts db !! k'.

Lemma only_cart_refl k db : only_cart k db db.
Proof. split; [by destruct db|done]. Qed.

Lemma only_cart_insert k c db : only_cart k db (set_carts (<[k := c]> (db_carts db)) db).
Proof. split; [done|]. intros k' Hne. simpl. by rewrite lookup_insert_ne. Qed.

Lemma only_cart_trans k db1 db2 db3 : only_cart k db1 db2 -> only_cart k db2 db3 -> only_cart k db1 db3.
Proof.
  intros [H1 K1] [H2 K2]. split; [rewrite H2, H1; by destruct db1|].
  intros k' Hne. by rewrite K2, K1.
Qed.

(** The cart is an active one of the customer, in the currency and session, and
    holds the items [items]. *)
Record cart_of (customer currency session : string) (items : gmap string (Z * Z)) (c : CartRow) : Prop := {
  co_customer : ca_customer_id c = Some customer;
  co_status : ca_status c = CActive;
  co_currency : ca_currency c = currency;
  co_session : ca_session_id c = Some session;
  co_items : ca_items c = items
}.

(** ** The statements *)

Lemma latest_cart_ok w env db r db' :
  latest_cart w env db = Ok (r, db') ->
  db' = db
  /\ match r with
     | Some k => exists c, db_carts db !! k = Some c /\ w k c = true
     | None => forall k c, db_carts db !! k = Some c -> w k c = false
     end.
Proof.
  unfold latest_cart. intros H. tx_inv. destruct (first_by _ _ _) as [[k c]|] eqn:Ef; simpl.
  - apply first_by_some in Ef. eauto.
  - split; [done|]. exact (proj1 (first_by_none _ _ _) Ef).
Qed.

Lemma insert_new_cart_ok i cart session env db b db' :
  insert_new_cart i cart session env db = Ok (b, db') ->
  only_cart (ac_tenant_id i, cart) db db'
  /\ match db_carts db !! (ac_tenant_id i, cart) with
     | Some c => db' = db
     | None => default ∅ (ca_items <$> db_carts db' !! (ac_tenant_id i, cart)) = ∅
     end.
Proof.
  unfold insert_new_cart. intros H. tx_inv. destruct (negb _); [by tx_inv|]. tx_inv.
  destruct (exists_row _ _) eqn:Ex; tx_inv.
  - split; [apply only_cart_refl|]. by destruct (db_carts db !! _) eqn:E.
  - match goal with Hi : sql_insert_ignore _ _ _ _ _ = _ |- _ =>
      apply sql_insert_ignore_ok in Hi as [(_ & Hn & ->)|(_ & [c Hs] & ->)] end; simpl in *.
    + split; [apply only_cart_insert|]. by rewrite Hn, lookup_insert_eq.
    + split; [apply only_cart_refl|]. by rewrite Hs.
Qed.

Lemma ensure_cart_ok i cart session su env db s db' :
  ensure_cart i cart session su env db = Ok (s, db') ->
  only_cart (ac_tenant_id i, cart) db db'
  /\ forall variant, cart_item db' (ac_tenant_id i, cart) variant = cart_item db (ac_tenant_id i, cart) variant.
Proof.
  assert (Hone : forall session b db db', insert_new_cart i cart session env db = Ok (b, db') ->
            only_cart (ac_tenant_id i, cart) db db'
            /\ forall variant, cart_item db' (ac_tenant_id i, cart) variant = cart_item db (ac_tenant_id i, cart) variant).
  { clear. intros session b db db' [Ho Hc]%insert_new_cart_ok. split; [done|]. intros variant. unfold cart_item.
    destruct (db_carts db !! _) as [c|] eqn:E; [by subst; rewrite E|].
    destruct (db_carts db' !! _) as [c|]; [|done]. simpl in *. by rewrite Hc, lookup_empty. }
  unfold ensure_cart. intros H. tx_inv. destruct (_ || _); tx_inv; [by eapply Hone|].
  match goal with H1 : insert_new_cart _ _ session _ _ = _ |- _ => apply Hone in H1 as [O1 I1] end.
  match goal with H2 : insert_new_cart _ _ _ _ _ = Ok (?b, _) |- _ => destruct b; tx_inv; apply Hone in H2 as [O2 I2] end.
  split; [by eapply only_cart_trans|]. intros variant. by rewrite I2.
Qed.

Lemma lock_cart_ok i cart session env db u db' :
  lock_cart i cart session env db = Ok (u, db') ->
  db' = db /\ exists c, db_carts db !! (ac_tenant_id i, cart) = Some c
    /\ cart_of (ac_customer_id i) (ac_currency_code i) session (ca_items c) c.
Proof.
  unfold lock_cart. intros H. tx_inv. destruct (ca_session_id _) as [s|] eqn:Es; [|by tx_inv]. tx_inv.
  bool_inv. rewrite opt_is_true in *. subst. split; [done|]. eexists. split; [done|]. by split.
Qed.

(** What the upsert leaves of an item. *)
Lemma upsert_item_ok tenant cart variant quantity price env db db' c :
  upsert_item tenant cart variant quantity price env db = Ok (1%nat, db') ->
  db_carts db !! (tenant, cart) = Some c ->
  exists q p, upserted (ca_items c !! variant) quantity price = Some (q, p)
    /\ fits_i32 (q * p) = true /\ item_check q p = true
    /\ db' = set_carts (<[(tenant, cart) := set_cart_item variant q p c]> (db_carts db)) db.
Proof.
  unfold upsert_item. intros H Hc. tx_inv. simpl in *. rewrite Hc in *. simpl in *.
  destruct (upserted _ _ _) as [[q p]|]; [|by tx_inv]. exists q, p.
  destruct (fits_i32 _) eqn:Ef; simpl in *; [|by tx_inv]. destruct (item_check q p) eqn:Ei; [|by tx_inv].
  match goal with Hu : sql_update carts _ _ _ _ _ = _ |- _ =>
    apply sql_update_one in Hu as (c' & Hc' & _ & ->) end.
  simpl in *. rewrite Hc in Hc'. by injection Hc' as <-.
Qed.

Lemma touch_cart_ok tenant cart env db u db' c :
  touch_cart tenant cart env db = Ok (u, db') -> db_carts db !! (tenant, cart) = Some c ->
  db' = set_carts (<[(tenant, cart) := with_cart_items (ca_items c) (te_now env) c]> (db_carts db)) db.
Proof.
  unfold touch_cart. intros H Hc. tx_inv.
  match goal with Hu : sql_update carts _ _ _ _ _ = _ |- _ =>
    apply sql_update_ok in Hu as [(_ & c' & Hc' & _ & ->)|(_ & -> & Hn)] end; simpl in *.
  - rewrite Hc in Hc'. by injection Hc' as <-.
  - by specialize (Hn c Hc).
Qed.

Lemma scoped_item_ok s session sku env db variant item db' :
  scoped_item s session sku env db = Ok ((variant, item), db') ->
  db' = db /\ exists c v, db_carts db !! (cs_tenant_id s, cs_cart_id s) = Some c
    /\ scoped_cart s session c = true
    /\ db_variants db !! (cs_tenant_id s, sku) = Some v /\ vp_variant_id v = variant
    /\ ca_items c !! variant = Some item.
Proof.
  unfold scoped_item. intros H. tx_inv. simpl in *.
  destruct (db_carts db !! _) as [c|] eqn:Ec; simpl in *; [|done].
  destruct (scoped_cart s session c) eqn:Es; [|done].
  destruct (db_variants db !! _) as [v|] eqn:Ev; simpl in *; [|done].
  simplify_eq. destruct (ca_items _ !! _) eqn:Ei; simpl in *; [|done]. simplify_eq. eauto 10.
Qed.

(** ** The transactions *)

Lemma set_carts_twice t t' db : set_carts t (set_carts t' db) = set_carts t db.
Proof. by destruct db. Qed.

(** The item of an accepted request, on top of what the cart held *)
Definition added_item (old : option (Z * Z)) (quantity price : Z) (item : Z * Z) : Prop :=
  item = (default 0 (fst <$> old) + quantity, price)
  /\ (is_Some old -> item.1 <= MAX_QUANTITY) /\ 0 < item.1 /\ fits_i32 (item.1 * item.2) = true.

Lemma upserted_added old quantity price q p :
  upserted old quantity price = Some (q, p) -> fits_i32 (q * p) = true -> item_check q p = true ->
  added_item old quantity price (q, p).
Proof.
  unfold upserted, added_item, item_check. intros Hu Hf Hi. bool_inv.
  destruct old as [[held hp]|]; simpl; [destruct (_ <=? _) eqn:El; [|done]; apply Z.leb_le in El|];
    simplify_eq; split_and!; try done; try lia.
Qed.

Lemma ensured_cart_ok (insert : bool) i cart session su env db s db' :
  (if insert then ensure_cart i cart session su else tx_ret session) env db = Ok (s, db') ->
  only_cart (ac_tenant_id i, cart) db db'
  /\ forall variant, cart_item db' (ac_tenant_id i, cart) variant = cart_item db (ac_tenant_id i, cart) variant.
Proof.
  destruct insert; [apply ensure_cart_ok|]. intros H. tx_inv. split; [apply only_cart_refl|done].
Qed.

Lemma choose_cart_ok i session cu env db chosen db' :
  choose_cart i session cu env db = Ok (chosen, db') -> db' = db.
Proof.
  unfold choose_cart. intros H. destruct (ac_cart_id i); tx_inv; [done|].
  match goal with H1 : latest_cart _ _ _ = Ok (?r, _) |- _ =>
    apply latest_cart_ok in H1 as [-> _]; destruct r; tx_inv; [done|] end.
  by match goal with H2 : latest_cart _ _ _ = _ |- _ => apply latest_cart_ok in H2 as [-> _] end.
Qed.

(** The cart of an item that was added. *)
Record item_added (prices : list PriceRow) (now : Z) (i : AddCartItemInput) (cart session : string) (price : Z)
    (db db' : Db) : Prop := {
  ia_only : only_cart (ac_tenant_id i, cart) db db';
  ia_cart : exists variant c,
    priced_variant db prices now (ac_tenant_id i) (ac_sku i) (ac_currency_code i) = Some (variant, price)
    /\ db_carts db' !! (ac_tenant_id i, cart) = Some c /\ ca_updated c = now
    /\ cart_of (ac_customer_id i) (ac_currency_code i) session (ca_items c) c
    /\ (exists item, ca_items c !! variant = Some item
          /\ added_item (cart_item db (ac_tenant_id i, cart) variant) (ac_quantity i) price item)
    /\ forall other, other <> variant ->
         ca_items c !! other = cart_item db (ac_tenant_id i, cart) other
}.

Lemma add_cart_item_ok prices i session cu su env db cart s price db' :
  add_cart_item_tx prices i session cu su env db = Ok ((cart, s, price), db') ->
  item_added prices (te_now env) i cart s price db db'.
Proof.
  unfold add_cart_item_tx. intros H. tx_inv.
  match goal with Hc : choose_cart _ _ _ _ _ = _ |- _ => apply choose_cart_ok in Hc as -> end.
  match goal with Hl : lock_cart _ _ _ _ ?d = _, He : _ = Ok (_, ?d) |- _ =>
    apply ensured_cart_ok in He as [[Hdb Hrows] Hitems]; rename d into db1 end.
  match goal with Hr : tx_ret _ _ _ = _ |- _ => apply tx_ret_ok in Hr as [[= -> -> ->] ->] end.
  match goal with Hl : lock_cart _ _ _ _ _ = _ |- _ => apply lock_cart_ok in Hl as (-> & c & Hc & [Hcu Hst Hcur Hses _]) end.
  match goal with Hu : upsert_item _ _ _ _ _ _ _ = _ |- _ =>
    destruct (upsert_item_ok _ _ _ _ _ _ _ _ _ Hu Hc) as (q & p & Hup & Hfit & Hcheck & ->) end.
  match goal with Ht : touch_cart _ _ _ _ = _ |- _ => eapply touch_cart_ok in Ht; [|by apply lookup_insert_eq] end.
  simpl in *. rewrite insert_insert_eq in *. subst. match goal with v : string * Z |- _ => destruct v as [variant price] end.
  assert (Hsame : priced_variant db1 prices = priced_variant db prices) by (by rewrite Hdb).
  simpl in *. rewrite Hsame in *. clear Hsame. split.
  - eapply only_cart_trans; [by split|]. rewrite set_carts_twice. apply only_cart_insert.
  - exists variant. eexists. split; [done|]. split_and!; [apply lookup_insert_eq|done|by split| |]; simpl.
    + exists (q, p). rewrite lookup_insert_eq. split; [done|].
      rewrite <- Hitems. unfold cart_item. rewrite Hc. simpl. by apply upserted_added.
    + intros other Hne. rewrite lookup_insert_ne by done. rewrite <- Hitems. unfold cart_item. by rewrite Hc.
Qed.

(** An update of a cart that is there *)
Lemma touch_cart_run tenant cart env db c :
  db_carts db !! (tenant, cart) = Some c ->
  touch_cart tenant cart env db
  = Ok (tt, set_carts (<[(tenant, cart) := with_cart_items (ca_items c) (te_now env) c]> (db_carts db)) db).
Proof.
  intros Hc. unfold touch_cart. tx_run. by erewrite tx_bind_run by (eapply (sql_update_run carts); [exact Hc|done]).
Qed.

Lemma replace_cart_item_ok s session sku quantity env db q p db' :
  replace_cart_item_tx s session sku quantity env db = Ok ((q, p), db') ->
  let k := (cs_tenant_id s, cs_cart_id s) in
  q = quantity /\ only_cart k db db'
  /\ exists c v held, db_carts db !! k = Some c /\ scoped_cart s session c = true
    /\ db_variants db !! (cs_tenant_id s, sku) = Some v
    /\ ca_items c !! vp_variant_id v = Some (held, p)
    /\ db_carts db' !! k
       = Some (with_cart_items (<[vp_variant_id v := (quantity, p)]> (ca_items c)) (te_now env) c).
Proof.
  unfold replace_cart_item_tx. intros H. tx_inv.
  match goal with x : string * (Z * Z) |- _ => destruct x as [variant [held price]] end. tx_inv.
  match goal with Hs : scoped_item _ _ _ _ _ = _ |- _ =>
    apply scoped_item_ok in Hs as (-> & c & v & Hc & Hsc & Hv & <- & Hi) end.
  destruct (negb _); [by tx_inv|]. destruct (item_check _ _); tx_inv.
  match goal with Hu : sql_update carts _ _ _ _ _ = _ |- _ =>
    apply sql_update_ok in Hu as [(_ & c' & Hc' & _ & ->)|(_ & -> & Hn)] end; simpl in *;
    [|by specialize (Hn c Hc)].
  rewrite Hc in Hc'. injection Hc' as <-.
  match goal with Hr : tx_ret _ _ _ = _ |- _ => apply tx_ret_ok in Hr as [[= -> ->] ->] end.
  match goal with Ht : touch_cart _ _ _ _ = _ |- _ => eapply touch_cart_ok in Ht; [|by apply lookup_insert_eq] end.
  simpl in *. rewrite insert_insert_eq in *. subst. split; [done|]. split.
  - rewrite set_carts_twice. apply only_cart_insert.
  - exists c, v, held. split_and!; [done..|]. simpl. by rewrite lookup_insert_eq.
Qed.

Lemma scoped_item_run s session sku env db c v item :
  db_carts db !! (cs_tenant_id s, cs_cart_id s) = Some c -> scoped_cart s session c = true ->
  db_variants db !! (cs_tenant_id s, sku) = Some v -> ca_items c !! vp_variant_id v = Some item ->
  scoped_item s session sku env db = Ok ((vp_variant_id v, item), db).
Proof.
  intros Hc Hs Hv Hi. unfold scoped_item. tx_run. simpl. rewrite Hc, Hs. simpl. tx_run.
  simpl. rewrite Hv. simpl. by rewrite Hi.
Qed.

Lemma remove_cart_item_run s session sku env db c v item :
  db_carts db !! (cs_tenant_id s, cs_cart_id s) = Some c -> scoped_cart s session c = true ->
  db_variants db !! (cs_tenant_id s, sku) = Some v -> ca_items c !! vp_variant_id v = Some item ->
  remove_cart_item_tx s session sku env db
  = Ok (item, set_carts (<[(cs_tenant_id s, cs_cart_id s) :=
                with_cart_items (delete (vp_variant_id v) (ca_items c)) (te_now env) c]> (db_carts db)) db).
Proof.
  intros Hc Hs Hv Hi. unfold remove_cart_item_tx.
  erewrite tx_bind_run by (by apply (scoped_item_run _ _ _ _ _ c v item)). cbv beta iota.
  erewrite tx_bind_run by (eapply (sql_update_run carts); [exact Hc|done]).
  erewrite tx_bind_run by (apply touch_cart_run; apply lookup_insert_eq).
  unfold tx_ret. simpl. by rewrite insert_insert_eq.
Qed.

(** A request that was checked and committed *)
Lemma checked_tx_ok {P A} checked (body : P -> Txn ApiError A) reply fault now locked db v db' :
  checked_tx checked body reply fault now locked db = (Ok v, db') ->
  fault = None /\ exists p a, checked = Ok p /\ v = reply p a
    /\ body p (mkTxenv now db_error locked) db = Ok (a, db').
Proof.
  unfold checked_tx. destruct checked as [p|e]; [|done].
  destruct (db_run _ _ _ _ _) as [[a|e] d] eqn:Er; simpl; [|done]. intros [= <- <-].
  apply run_tx_ok in Er as [-> Hb]. eauto 10.
Qed.

Lemma accept_cart_item_ok h parent i uuid i' session :
  accept_cart_item h parent i uuid = Ok (i', session) -> 0 <= ac_quantity i ->
  ac_cart_id i' = ac_cart_id i /\ ac_sku i' = ac_sku i /\ ac_quantity i' = ac_quantity i
  /\ 1 <= ac_quantity i' <= MAX_QUANTITY.
Proof.
  unfold accept_cart_item. intros H Hq. res_inv. simplify_eq. bool_inv. simpl. split_and!; try done; lia.
Qed.

(** ** What the endpoints do *)

(** C25: an accepted request to add an item changes one cart only, an active one
    of the customer in the requested currency and in the session of the answer:
    the item's quantity grows by the requested amount to at most the limit, its
    unit price becomes the current price of the SKU, its line total fits the
    database's integers, and the other items keep theirs. *)
Theorem add_cart_item_sound prices h parent uuid cu su i fault now locked db v db' :
  0 <= ac_quantity i ->
  add_cart_item prices h parent uuid cu su i fault now locked db = (Ok v, db') ->
  exists i' s0 cart session price,
    accept_cart_item h parent i uuid = Ok (i', s0)
    /\ v = added_reply (i', s0) (cart, session, price)
    /\ item_added prices now i' cart session price db db'
    /\ exists variant q, cart_item db' (ac_tenant_id i', cart) variant = Some (q, price)
         /\ 1 <= q <= MAX_QUANTITY.
Proof.
  intros Hq (_ & [i' s0] & [[cart session] price] & Ha & -> & Hb)%checked_tx_ok.
  apply add_cart_item_ok in Hb. cbn [fst snd te_now] in *. exists i', s0, cart, session, price. split_and!; [done..|].
  apply accept_cart_item_ok in Ha as (_ & _ & _ & Hn); [|done].
  destruct Hb as [_ (variant & c & _ & Hc & _ & _ & ([q p] & Hi & Hadd) & _)].
  destruct Hadd as ([= -> ->] & Hmax & Hpos & _). exists variant. eexists. unfold cart_item at 1. rewrite Hc.
  split; [exact Hi|]. simpl in *. destruct (cart_item db _ _) as [old|]; simpl in *; [|lia].
  specialize (Hmax ltac:(done)). lia.
Qed.

Definition demo_cart_input : AddCartItemInput :=
  mkAddCartItemInput "acme" "cust-1" None (Some "sess-1") "sku-1" 2 "USD".
Definition demo_prices : list PriceRow := [mkPriceRow "p-1" "acme" "v-1" "USD" 1299 0 None true].
Definition stocked_db : Db :=
  set_variants {[ ("acme", "sku-1") := mkVariantProduct "v-1" "prod-1" "Small" "Mug" true true ]} empty_db.
Definition demo_add := add_cart_item demo_prices [] (mkContext None ∅) "u-0" "u-1" "u-2" demo_cart_input.
Definition cart_added_db : Db := (demo_add None 5 (fun _ => false) stocked_db).2.

Lemma add_cart_item_sound_witness :
  exists i' s0 cart session price,
    accept_cart_item [] (mkContext None ∅) demo_cart_input "u-0" = Ok (i', s0)
    /\ JObj [("cart_id", JStr "cart-u-1"); ("session_id", JStr "sess-1"); ("sku", JStr "sku-1");
             ("quantity_added", JNum 2); ("unit_price_minor", JNum 1299)]
       = added_reply (i', s0) (cart, session, price)
    /\ item_added demo_prices 5 i' cart session price stocked_db cart_added_db
    /\ exists variant q, cart_item cart_added_db (ac_tenant_id i', cart) variant = Some (q, price)
         /\ 1 <= q <= MAX_QUANTITY.
Proof.
  apply (add_cart_item_sound demo_prices [] (mkContext None ∅) "u-0" "u-1" "u-2" demo_cart_input
           None 5 (fun _ => false) stocked_db); [vm_compute; discriminate|].
  vm_compute. reflexivity.
Defined.

Lemma priced_variant_some db prices now tenant sku currency variant price :
  priced_variant db prices now tenant sku currency = Some (variant, price) ->
  exists v, db_variants db !! (tenant, sku) = Some v /\ vp_variant_id v = variant.
Proof.
  unfold priced_variant. destruct (db_variants db !! _) as [v|]; simpl; [|done].
  destruct (vp_variant_active v); [|done]. destruct (latest_price _); simpl; [|done]. naive_solver.
Qed.

(** removing an item that was just added succeeds, for the cart, session and
    SKU of the answer, and touches that cart only; when the cart did not hold
    the variant before, it holds afterwards exactly the items it held before the
    item was added. *)
Theorem removal_undoes_addition prices h parent uuid cu su i i' s0 now locked db db1 cart session price
    h2 parent2 s session' now2 locked2 :
  accept_cart_item h parent i uuid = Ok (i', s0) ->
  add_cart_item prices h parent uuid cu su i None now locked db
  = (Ok (added_reply (i', s0) (cart, session, price)), db1) ->
  accept_removal h2 parent2 s (ac_sku i')
  = Ok (mkCartItemScope (ac_tenant_id i') (ac_customer_id i') cart, session') ->
  session' = None \/ session' = Some session ->
  exists v db2 variant,
    remove_cart_item h2 parent2 (ac_sku i') s None now2 locked2 db1 = (Ok v, db2)
    /\ only_cart (ac_tenant_id i', cart) db db2
    /\ cart_item db2 (ac_tenant_id i', cart) variant = None
    /\ forall other, other <> variant \/ cart_item db (ac_tenant_id i', cart) variant = None ->
         cart_item db2 (ac_tenant_id i', cart) other = cart_item db (ac_tenant_id i', cart) other.
Proof.
  intros Ha (_ & p & [[ct ss] pr] & Hp & Hr & Hb)%checked_tx_ok Hrem Hses.
  rewrite Ha in Hp. injection Hp as <-. injection Hr as <- <- <-.
  cbn [fst snd] in *. apply add_cart_item_ok in Hb as [Honly (variant & c & Hpv & Hc & _ & [Hcu Hst _ Hcs _] & (item & Hi & _) & Hother)].
  apply priced_variant_some in Hpv as (v & Hv & <-).
  assert (Hv1 : db_variants db1 !! (ac_tenant_id i', ac_sku i') = Some v) by (destruct Honly as [-> _]; exact Hv).
  assert (Hs : scoped_cart (mkCartItemScope (ac_tenant_id i') (ac_customer_id i') cart) session' c = true).
  { unfold scoped_cart. rewrite Hcu, Hst, Hcs. simpl. rewrite String.eqb_refl. simpl.
    destruct Hses as [-> | ->]; [done|]. apply String.eqb_refl. }
  pose proof (remove_cart_item_run (mkCartItemScope (ac_tenant_id i') (ac_customer_id i') cart) _ _ (mkTxenv now2 db_error locked2) _ c v item Hc Hs Hv1 Hi) as Hrun.
  unfold remove_cart_item, checked_tx. rewrite Hrem. unfold db_run, run_tx. cbn [fst snd]. rewrite Hrun.
  eexists _, _, (vp_variant_id v). split; [reflexivity|]. simpl. split_and!.
  - eapply only_cart_trans; [exact Honly|]. apply only_cart_insert.
  - unfold cart_item. simpl. rewrite lookup_insert_eq. apply lookup_delete_eq.
  - intros other Hne. unfold cart_item at 1. simpl. rewrite lookup_insert_eq. simpl.
    destruct (decide (other = vp_variant_id v)) as [->|Hno].
    + rewrite lookup_delete_eq. by destruct Hne.
    + rewrite lookup_delete_ne by done. by apply Hother.
Qed.

Lemma removal_undoes_addition_witness :
  exists v db2 variant,
    remove_cart_item [] (mkContext None ∅) "sku-1" (mkCartItemScope "acme" "cust-1" "cart-u-1") None 7
      (fun _ => false) cart_added_db = (Ok v, db2)
    /\ only_cart ("acme", "cart-u-1") stocked_db db2
    /\ cart_item db2 ("acme", "cart-u-1") variant = None
    /\ forall other, other <> variant \/ cart_item stocked_db ("acme", "cart-u-1") variant = None ->
         cart_item db2 ("acme", "cart-u-1") other = cart_item stocked_db ("acme", "cart-u-1") other.
Proof.
  apply (removal_undoes_addition demo_prices [] (mkContext None ∅) "u-0" "u-1" "u-2" demo_cart_input
           demo_cart_input "sess-1" 5 (fun _ => false) stocked_db cart_added_db "cart-u-1" "sess-1" 1299
           [] (mkContext None ∅) (mkCartItemScope "acme" "cust-1" "cart-u-1") None 7 (fun _ => false)).
  - vm_compute. reflexivity.
  - vm_compute. reflexivity.
  - vm_compute. reflexivity.
  - left. reflexivity.
Defined.

(** ** The customer's other carts *)

Lemma choose_fallback i session cu env db k0 c0 :
  ac_cart_id i = None ->
  (forall k c, db_carts db !! k = Some c -> open_cart i (Some session) k c = false) ->
  db_carts db !! k0 = Some c0 -> open_cart i None k0 c0 = true ->
  exists k c, choose_cart i session cu env db = Ok ((k.2, false), db)
    /\ db_carts db !! k = Some c /\ open_cart i None k c = true.
Proof.
  intros Hid Hnone Hk0 Hopen. unfold choose_cart. rewrite Hid.
  destruct (latest_cart (open_cart i (Some session)) env db) as [[r d]|e] eqn:E1; [|done].
  pose proof E1 as E1'. apply latest_cart_ok in E1 as [-> Hr]. destruct r as [k|].
  { destruct Hr as (c & Hc & Ho). by rewrite (Hnone _ _ Hc) in Ho. }
  destruct (latest_cart (open_cart i None) env db) as [[r d]|e] eqn:E2; [|done].
  pose proof E2 as E2'. apply latest_cart_ok in E2 as [-> Hr2]. destruct r as [k|].
  - destruct Hr2 as (c & Hc & Ho). exists k, c. split; [|done].
    erewrite tx_bind_run by exact E1'. cbv beta iota.
    unfold tx_bind at 1. rewrite E2'. done.
  - by rewrite (Hr2 _ _ Hk0) in Hopen.
Qed.

(** a request without a cart id, from a customer who has no active cart in
    the session and currency of the request but has one in the currency under
    another session, falls back to such a cart and is then always refused: the
    cart it chose is not of the session it checks, so the fallback never serves
    a request and the item is never added. *)
Theorem fallback_cart_refused prices h parent uuid cu su i i' session now locked db k0 c0 :
  accept_cart_item h parent i uuid = Ok (i', session) -> ac_cart_id i = None -> 0 <= ac_quantity i ->
  (forall k c, db_carts db !! k = Some c -> is_Some (ca_session_id c)) ->
  (forall k c, db_carts db !! k = Some c -> open_cart i' (Some session) k c = false) ->
  db_carts db !! k0 = Some c0 -> open_cart i' None k0 c0 = true ->
  add_cart_item prices h parent uuid cu su i None now locked db
  = (Err (cart_not_found "cart was not found for this customer"), db).
Proof.
  intros Ha Hid Hq Hsome Hnone Hk0 Hopen. pose proof Ha as (Hid' & _)%accept_cart_item_ok; [|done].
  destruct (choose_fallback i' session cu (mkTxenv now db_error locked) db k0 c0)
    as ([t cart] & c & Hch & Hc & Ho); [congruence|done..|].
  unfold add_cart_item, checked_tx. rewrite Ha. unfold db_run, run_tx. cbn [fst snd].
  unfold add_cart_item_tx. erewrite tx_bind_run by exact Hch. cbn [fst snd]. tx_run.
  assert (Hl : lock_cart i' cart session (mkTxenv now db_error locked) db
               = Err (cart_not_found "cart was not found for this customer")).
  { specialize (Hnone _ _ Hc). unfold open_cart in Ho, Hnone. cbn [fst snd] in *. bool_inv. subst t.
    unfold lock_cart. tx_run. simpl. rewrite Hc. simpl. tx_run.
    destruct (Hsome _ _ Hc) as [other Hs]. rewrite Hs. unfold tx_ensure, tx_lift, ensure.
    match goal with |- context [if ?b then _ else _] => destruct b eqn:Eb; [|done] end.
    exfalso. bool_inv. subst other. rewrite Hs in Hnone. simpl in Hnone.
    rewrite !String.eqb_refl in Hnone. simpl in Hnone.
    repeat match goal with
           | E : opt_is _ _ = true |- _ => rewrite E in Hnone; clear E
           | E : ca_currency c = _ |- _ => rewrite E in Hnone; clear E
           | E : ca_status c = _ |- _ => rewrite E in Hnone; clear E
           end.
    by rewrite String.eqb_refl in Hnone. }
  by rewrite (tx_bind_fail _ _ _ _ _ Hl).
Qed.

Definition other_session_input : AddCartItemInput :=
  mkAddCartItemInput "acme" "cust-1" None (Some "sess-2") "sku-1" 1 "USD".

(** The cart of [sess-1] is chosen for a request of [sess-2]. *)
Lemma fallback_cart_refused_witness :
  add_cart_item demo_prices [] (mkContext None ∅) "u-0" "u-3" "u-4" other_session_input None 9
    (fun _ => false) cart_added_db
  = (Err (cart_not_found "cart was not found for this customer"), cart_added_db).
Proof.
  assert (Hall : map_to_list (db_carts cart_added_db)
    = [(("acme", "cart-u-1"), default (new_cart demo_cart_input "sess-1" 5)
         (db_carts cart_added_db !! ("acme", "cart-u-1")))]) by (vm_compute; reflexivity).
  assert (Hone : forall k c, db_carts cart_added_db !! k = Some c ->
    (k, c) = (("acme", "cart-u-1"), default (new_cart demo_cart_input "sess-1" 5)
         (db_carts cart_added_db !! ("acme", "cart-u-1")))).
  { intros k c Hk. apply elem_of_map_to_list in Hk. rewrite Hall in Hk. by apply list_elem_of_singleton in Hk. }
  eapply (fallback_cart_refused demo_prices [] (mkContext None ∅) "u-0" "u-3" "u-4" other_session_input
           other_session_input "sess-2" 9 (fun _ => false) cart_added_db ("acme", "cart-u-1")).
  - vm_compute. reflexivity.
  - reflexivity.
  - vm_compute. discriminate.
  - intros k c Hk. apply Hone in Hk as [= -> ->]. vm_compute. by eexists.
  - intros k c Hk. apply Hone in Hk as [= -> ->]. vm_compute. reflexivity.
  - vm_compute. reflexivity.
  - vm_compute. reflexivity.
Defined.
