(* ===== verification/CheckoutEvolution.v ===== *)
(** How checkout's tables may evolve: the CHECK constraints of the schema, the
    lifecycle each row follows, and the preorder [evolves] between databases
    that every checkout transaction respects, with the rules that derive it for
    a transaction from its statements. *)

From S2P Require Import Prelude Propagation Database CheckoutDomain CheckoutRecords CheckoutOrders CheckoutOutbox.
Import Schema Transactions CheckoutDomain CheckoutFence CheckoutCompensation CheckoutAttempts
  CheckoutReconciliation CheckoutOrders CheckoutOutbox.

(** ** CHECK constraints, with the attempt budgets the workers keep *)

Definition some {A} (o : option A) : bool := match o with Some _ => true | None => false end.
Definition none {A} (o : option A) : bool := negb (some o).

Definition attempt_check (a : AttemptRow) : bool :=
  let no_error := none (at_error_status a) && none (at_error_code a) && none (at_error_message a) in
  match at_status a with
  | AStarted => none (at_payload a) && no_error && some (at_lease_expires a)
  | APending | APaid | ADegraded => some (at_payload a) && no_error
  | AFailed => none (at_payload a) && some (at_error_status a) && some (at_error_code a)
  end.

Definition recon_check (r : ReconRow) : bool :=
  (0 <=? rc_amount_minor r)
  && (0 <=? rc_attempts r) && (rc_attempts r <=? PAYMENT_RECONCILIATION_MAX_ATTEMPTS)
  && one_of (rc_method_type r) ["card"; "bank_account"; "wallet"; "unspecified"]
  && Bool.eqb (some (rc_completed_at r)) (bool_decide (rc_status r = RCompleted))
  && Bool.eqb (some (rc_lease_token r)) (bool_decide (rc_status r = RProcessing))
  && Bool.eqb (some (rc_claimed_at r)) (bool_decide (rc_status r = RProcessing))
  && Bool.eqb (some (rc_lease_expires r)) (bool_decide (rc_status r = RProcessing)).

Definition task_check (t : TaskRow) : bool :=
  (0 <=? tk_attempts t) && (tk_attempts t <=? COMPENSATION_MAX_ATTEMPTS)
  && match tk_quantity t with Some q => 0 <? q | None => true end
  && match tk_kind t with
     | KInventoryRelease =>
         some (tk_reservation_id t) && some (tk_sku t) && some (tk_quantity t)
         && none (tk_payment_id t) && none (tk_request_id t) && none (tk_currency t)
     | KPayment =>
         none (tk_reservation_id t) && none (tk_sku t) && none (tk_quantity t)
         && some (tk_payment_id t) && some (tk_request_id t) && some (tk_currency t)
     end
  && Bool.eqb (some (tk_completed_at t)) (bool_decide (tk_status t = TCompleted))
  && Bool.eqb (some (tk_claim_token t)) (bool_decide (tk_status t = TProcessing))
  && Bool.eqb (some (tk_claim_expires t)) (bool_decide (tk_status t = TProcessing))
  && Bool.eqb (some (tk_operation_id t)) (some (tk_operation_started t))
  && (some (tk_operation_started t) || none (tk_operation_completed t)).

Definition order_check (o : OrderRow) : bool :=
  order_balanced o && fits_i32 (or_subtotal_minor o) && fits_i32 (or_total_minor o)
  && forallb (fun i => item_check (oi_quantity i) (oi_unit_price_minor i)) (or_items o).

(** The items of a cart, with their generated line totals *)
Definition cart_item_check (i : Z * Z) : bool := item_check i.1 i.2 && fits_i32 (i.1 * i.2).
Definition cart_check (c : CartRow) : bool :=
  bool_decide (map_Forall (fun _ i => cart_item_check i = true) (ca_items c)).

Definition outbox_check (e : OutboxEventRow) : bool :=
  (0 <? ox_schema_version e) && (0 <=? ox_attempts e) && (ox_attempts e <=? OUTBOX_MAX_ATTEMPTS)
  && (negb (bool_decide (ox_status e = XPublished)) || some (ox_published_at e))
  && (negb (bool_decide (ox_status e = XFailed))
      || some (ox_failed_at e) && some (ox_failure_code e) && some (ox_failure_message e))
  && Bool.eqb (some (ox_claim_token e)) (bool_decide (ox_status e = XProcessing))
  && Bool.eqb (some (ox_claim_expires e)) (bool_decide (ox_status e = XProcessing)).

Definition promo_check (p : PromoRow) : bool :=
  (0 <=? pm_redemption_count p)
  && match pm_max_redemptions p with Some m => pm_redemption_count p <=? m | None => true end.

(** ** Row lifecycles *)

(** What the transactions under consideration may do: the lease and claim
    tokens they draw (UUIDs), and whether they may mark an order paid. *)
Class Policy : Type := { drawn : string -> Prop; may_pay : Prop }.

(** A worker's token is kept, cleared, or replaced by a drawn one. *)
Definition token_next `{Policy} (o o' : option string) : Prop :=
  o' = o \/ o' = None \/ exists t, o' = Some t /\ drawn t.

#[export] Instance token_next_preorder `{Policy} : PreOrder token_next.
Proof. split; [by left|]. unfold token_next. intros a b c H1 H2. naive_solver. Qed.

Definition attempt_next (s s' : attempt_status) : bool :=
  match s, s' with
  | AStarted, _ => true
  | APending, (APending | APaid | AFailed) => true
  | AFailed, (AFailed | APaid) => true
  | APaid, APaid | ADegraded, ADegraded => true
  | _, _ => false
  end.

Record attempt_step `{Policy} (a a' : AttemptRow) : Prop := {
  as_fingerprint : at_fingerprint a' = at_fingerprint a;
  as_status : attempt_next (at_status a) (at_status a') = true;
  as_token : at_status a <> AStarted -> at_lease_token a' = at_lease_token a;
  as_final : at_status a = APaid \/ at_status a = ADegraded -> a' = a;
  as_drawn : at_lease_token a' = at_lease_token a \/ drawn (at_lease_token a')
}.

Definition recon_waiting (r : ReconRow) : Prop :=
  rc_status r = RQueued \/ rc_status r = RAwaitingProvider.

Record recon_step `{Policy} (r r' : ReconRow) : Prop := {
  rs_identity : (rc_order_id r', rc_authorize_request_id r', rc_merchant_reference r',
                 rc_amount_minor r', rc_currency r', rc_method_type r', rc_created r')
                = (rc_order_id r, rc_authorize_request_id r, rc_merchant_reference r,
                   rc_amount_minor r, rc_currency r, rc_method_type r, rc_created r);
  rs_payment : forall p, rc_payment_id r = Some p -> rc_payment_id r' = Some p;
  rs_attempts : rc_attempts r <= rc_attempts r';
  rs_final : rc_status r = RCompleted \/ rc_status r = RFailed -> rc_status r' = rc_status r;
  rs_exhausted : PAYMENT_RECONCILIATION_MAX_ATTEMPTS <= rc_attempts r -> recon_waiting r ->
                 recon_waiting r';
  rs_worker : token_next (rc_lease_token r) (rc_lease_token r')
}.

Definition task_next (s s' : task_status) : bool :=
  match s, s' with
  | TCompleted, TCompleted | TSuperseded, TSuperseded => true
  | TFailed, (TFailed | TSuperseded) => true
  | (TPrepared | TQueued | TProcessing), _ => true
  | _, _ => false
  end.

Record task_step `{Policy} (t t' : TaskRow) : Prop := {
  ts_identity : (tk_order_id t', tk_task_key t', tk_kind t', tk_reservation_id t', tk_sku t',
                 tk_quantity t', tk_payment_id t', tk_request_id t', tk_currency t', tk_created t')
                = (tk_order_id t, tk_task_key t, tk_kind t, tk_reservation_id t, tk_sku t,
                   tk_quantity t, tk_payment_id t, tk_request_id t, tk_currency t, tk_created t);
  ts_status : task_next (tk_status t) (tk_status t') = true;
  ts_attempts : tk_attempts t <= tk_attempts t';
  ts_operation : forall s, tk_operation_started t = Some s -> tk_operation_started t' = Some s;
  ts_worker : token_next (tk_claim_token t) (tk_claim_token t')
}.

Definition order_next (s s' : order_status) : bool :=
  bool_decide (s = s')
  || bool_decide (s = OPending) && (bool_decide (s' = OPaid) || bool_decide (s' = OCancelled)).

Record order_step `{Policy} (o o' : OrderRow) : Prop := {
  os_identity : (or_customer_id o', or_cart_id o', or_order_number o', or_currency o',
                 or_subtotal_minor o', or_discount_minor o', or_tax_minor o', or_shipping_minor o',
                 or_total_minor o', or_checkout_request_id o', or_promotion_code o', or_created o')
                = (or_customer_id o, or_cart_id o, or_order_number o, or_currency o,
                   or_subtotal_minor o, or_discount_minor o, or_tax_minor o, or_shipping_minor o,
                   or_total_minor o, or_checkout_request_id o, or_promotion_code o, or_created o);
  os_status : order_next (or_status o) (or_status o') = true;
  os_placed : forall p, or_placed_at o = Some p -> or_placed_at o' = Some p;
  os_items : or_items o `prefix_of` or_items o';
  os_paid : or_status o' = OPaid -> or_status o = OPaid \/ may_pay
}.

Definition cart_next (s s' : cart_status) : bool :=
  bool_decide (s = s') || bool_decide (s = CActive) && bool_decide (s' = CCheckedOut).

Record cart_step (c c' : CartRow) : Prop := {
  cs_owner : (ca_customer_id c', ca_session_id c', ca_currency c')
             = (ca_customer_id c, ca_session_id c, ca_currency c);
  cs_status : cart_next (ca_status c) (ca_status c') = true
}.

Record outbox_step `{Policy} (e e' : OutboxEventRow) : Prop := {
  xs_event : (ox_event_key e', ox_aggregate_type e', ox_aggregate_id e', ox_event_type e',
              ox_schema_version e', ox_occurred_at e', ox_payload e', ox_traceparent e',
              ox_tracestate e', ox_baggage e', ox_created e')
             = (ox_event_key e, ox_aggregate_type e, ox_aggregate_id e, ox_event_type e,
                ox_schema_version e, ox_occurred_at e, ox_payload e, ox_traceparent e,
                ox_tracestate e, ox_baggage e, ox_created e);
  xs_attempts : ox_attempts e <= ox_attempts e';
  xs_final : ox_status e = XPublished \/ ox_status e = XFailed -> e' = e;
  xs_worker : token_next (ox_claim_token e) (ox_claim_token e')
}.

Record promo_step (p p' : PromoRow) : Prop := {
  ps_terms : (pm_active p', pm_starts_at p', pm_ends_at p', pm_max_redemptions p')
             = (pm_active p, pm_starts_at p, pm_ends_at p, pm_max_redemptions p);
  ps_count : pm_redemption_count p <= pm_redemption_count p'
}.

(** Rows are born in the first state of their lifecycle. *)
Definition attempt_born `{Policy} (a : AttemptRow) : Prop :=
  at_status a = AStarted /\ drawn (at_lease_token a).
Definition recon_born (r : ReconRow) : Prop :=
  rc_status r = RAwaitingProvider /\ rc_attempts r = 0 /\ rc_lease_token r = None.
Definition task_born (t : TaskRow) : Prop :=
  tk_status t = TPrepared /\ tk_attempts t = 0 /\ tk_claim_token t = None.
Definition order_born (o : OrderRow) : Prop := or_status o = OPending /\ or_items o = [].
Definition cart_born (c : CartRow) : Prop := ca_status c = CActive.
Definition outbox_born (e : OutboxEventRow) : Prop :=
  ox_status e = XQueued /\ ox_attempts e = 0 /\ ox_claim_token e = None.

Lemma cart_check_set c variant q p :
  cart_check c = true -> cart_item_check (q, p) = true -> cart_check (set_cart_item variant q p c) = true.
Proof.
  unfold cart_check. intros Hc%bool_decide_eq_true Hi. apply bool_decide_eq_true. by apply map_Forall_insert_2.
Qed.

(** Each lifecycle is a preorder. *)
#[export] Instance attempt_step_preorder `{Policy} : PreOrder attempt_step.
Proof.
  split.
  - intros a. split; try done; [by destruct (at_status a)|by left].
  - intros a b c [F1 S1 T1 E1 D1] [F2 S2 T2 E2 D2]. split.
    + congruence.
    + by destruct (at_status a), (at_status b), (at_status c).
    + intros Ha. rewrite T2, T1; [done..|]. intros Hb. rewrite Hb in S1. by destruct (at_status a).
    + intros Ha. specialize (E1 Ha) as ->. by apply E2.
    + destruct D2 as [->|]; [|by right]. done.
Qed.

#[export] Instance recon_step_preorder `{Policy} : PreOrder recon_step.
Proof.
  split.
  - intros r. split; done.
  - intros a b c [I1 P1 A1 F1 X1 W1] [I2 P2 A2 F2 X2 W2]. split.
    + congruence.
    + intros p Hp. by apply P2, P1.
    + lia.
    + intros Ha. specialize (F1 Ha). rewrite F2; [done|]. by rewrite F1.
    + intros Hn Hw. apply X2; [lia|]. by apply X1.
    + by etransitivity.
Qed.

#[export] Instance task_step_preorder `{Policy} : PreOrder task_step.
Proof.
  split.
  - intros t. split; try done. by destruct (tk_status t).
  - intros a b c [I1 S1 A1 O1 W1] [I2 S2 A2 O2 W2]. split.
    + congruence.
    + by destruct (tk_status a), (tk_status b), (tk_status c).
    + lia.
    + intros s Hs. by apply O2, O1.
    + by etransitivity.
Qed.

#[export] Instance order_step_preorder `{Policy} : PreOrder order_step.
Proof.
  split.
  - intros o. split; try done; [unfold order_next; by rewrite bool_decide_true|by left].
  - intros a b c [I1 S1 P1 L1 Y1] [I2 S2 P2 L2 Y2]. split.
    + congruence.
    + by destruct (or_status a), (or_status b), (or_status c).
    + intros p Hp. by apply P2, P1.
    + by etransitivity.
    + intros Hc. destruct (Y2 Hc); [auto|by right].
Qed.

#[export] Instance cart_step_preorder : PreOrder cart_step.
Proof.
  split.
  - intros c. split; [done|]. unfold cart_next. by rewrite bool_decide_true.
  - intros a b c [O1 S1] [O2 S2]. split; [congruence|].
    by destruct (ca_status a), (ca_status b), (ca_status c).
Qed.

#[export] Instance outbox_step_preorder `{Policy} : PreOrder outbox_step.
Proof.
  split.
  - intros e. split; done.
  - intros a b c [V1 A1 F1 W1] [V2 A2 F2 W2]. split; [congruence|lia| |by etransitivity].
    intros Ha. specialize (F1 Ha) as ->. by apply F2.
Qed.

#[export] Instance promo_step_preorder : PreOrder promo_step.
Proof.
  split; [intros p; split; done|]. intros a b c [T1 C1] [T2 C2]. split; [congruence|lia].
Qed.

(** ** Tables *)

(** A row that satisfies the checks keeps them and follows its lifecycle; a
    new row satisfies them and descends from a born one; no row disappears. *)
Definition row_evolves {R} (check : R -> bool) (step : R -> R -> Prop) (born : R -> Prop)
    (o o' : option R) : Prop :=
  match o, o' with
  | Some r, Some r' => check r = true -> check r' = true /\ step r r'
  | None, Some r' => check r' = true /\ exists r, check r = true /\ born r /\ step r r'
  | None, None => True
  | Some _, None => False
  end.

Definition table_evolves {R} (check : R -> bool) (step : R -> R -> Prop) (born : R -> Prop)
    (t t' : gmap key R) : Prop :=
  forall k, row_evolves check step born (t !! k) (t' !! k).

#[export] Instance table_evolves_preorder {R} (check : R -> bool) (step : R -> R -> Prop) (born : R -> Prop) `{!PreOrder step} :
  PreOrder (table_evolves check step born).
Proof.
  split.
  - intros t k. unfold row_evolves. destruct (t !! k); [|done]. intros. split; [done|reflexivity].
  - intros t1 t2 t3 H1 H2 k. specialize (H1 k). specialize (H2 k). unfold row_evolves in *.
    destruct (t1 !! k) as [r1|], (t2 !! k) as [r2|], (t3 !! k) as [r3|]; try done.
    + intros Hc. destruct (H1 Hc) as [Hc2 S1], (H2 Hc2) as [Hc3 S2]. split; [done|by etransitivity].
    + destruct H1 as (Hc2 & r & Hr & Hb & S1), (H2 Hc2) as [Hc3 S2].
      split; [done|]. exists r. split_and!; [done..|by etransitivity].
Qed.

(** The write of one row. *)
Lemma table_evolves_insert {R} (check : R -> bool) (step : R -> R -> Prop) (born : R -> Prop) `{!PreOrder step} (t : gmap key R) k r' :
  row_evolves check step born (t !! k) (Some r') ->
  table_evolves check step born t (<[k := r']> t).
Proof.
  intros Hr k'. destruct (decide (k' = k)) as [->|Hne].
  - by rewrite lookup_insert_eq.
  - rewrite lookup_insert_ne by done. unfold row_evolves. destruct (t !! k'); [|done].
    intros. split; [done|reflexivity].
Qed.

Lemma table_evolves_where {R} (check : R -> bool) (step : R -> R -> Prop) (born : R -> Prop) `{!PreOrder step} (t : gmap key R) w f :
  (forall k r, t !! k = Some r -> w k r = true -> check r = true -> check (f r) = true /\ step r (f r)) ->
  table_evolves check step born t (update_rows w f t).2.
Proof.
  intros Hf k. rewrite update_rows_lookup. unfold row_evolves.
  destruct (t !! k) as [r|] eqn:E; simpl; [|done]. intros Hc.
  destruct (w k r) eqn:Ew; [by apply (Hf k)|]. split; [done|reflexivity].
Qed.

(** ** Databases *)

Record evolves `{Policy} (db db' : Db) : Prop := {
  ev_attempts : table_evolves attempt_check attempt_step attempt_born (db_attempts db) (db_attempts db');
  ev_recons : table_evolves recon_check recon_step recon_born (db_recons db) (db_recons db');
  ev_tasks : table_evolves task_check task_step task_born (db_tasks db) (db_tasks db');
  ev_orders : table_evolves order_check order_step order_born (db_orders db) (db_orders db');
  ev_carts : table_evolves cart_check cart_step cart_born (db_carts db) (db_carts db');
  ev_outbox : table_evolves outbox_check outbox_step outbox_born (db_outbox db) (db_outbox db');
  ev_promotions : table_evolves promo_check promo_step (fun _ => False) (db_promotions db)
                    (db_promotions db');
  ev_events : db_exposures db ⊆ db_exposures db' /\ db_analytics db ⊆ db_analytics db';
  ev_frame : (db_payments db', db_payment_operations db', db_variants db', db_stock db',
              db_locations db', db_reservations db')
             = (db_payments db, db_payment_operations db, db_variants db, db_stock db,
                db_locations db, db_reservations db)
}.

#[export] Instance evolves_preorder `{Policy} : PreOrder evolves.
Proof.
  split.
  - intros db. split; try reflexivity. split; reflexivity.
  - intros a b c [A1 R1 T1 O1 C1 X1 P1 [E1 N1] F1] [A2 R2 T2 O2 C2 X2 P2 [E2 N2] F2].
    split; try (by etransitivity). split; by etransitivity.
Qed.

(** ** Statements and transactions *)

(** A table whose rows [evolves] governs. *)
Class Governed `{Policy} {R} (T : table R) : Type := {
  g_check : R -> bool;
  g_step : R -> R -> Prop;
  g_born : R -> Prop;
  g_preorder : PreOrder g_step;
  g_set : forall db t', table_evolves g_check g_step g_born (tget T db) t' -> evolves db (tset T t' db)
}.
#[export] Existing Instance g_preorder.

Ltac governed check step born :=
  refine (Build_Governed _ _ _ check step born _ _); intros db t' Ht;
  split; simpl; try reflexivity; [exact Ht || (split; reflexivity)..].

#[export] Instance attempts_governed `{Policy} : Governed attempts.
Proof. governed (attempt_check) (attempt_step) (attempt_born). Defined.
#[export] Instance recons_governed `{Policy} : Governed recons.
Proof. governed (recon_check) (recon_step) (recon_born). Defined.
#[export] Instance tasks_governed `{Policy} : Governed tasks.
Proof. governed (task_check) (task_step) (task_born). Defined.
#[export] Instance orders_governed `{Policy} : Governed orders.
Proof. governed (order_check) (order_step) (order_born). Defined.
#[export] Instance carts_governed `{Policy} : Governed carts.
Proof. governed (cart_check) (cart_step) (cart_born). Defined.
#[export] Instance outbox_governed `{Policy} : Governed outbox.
Proof. governed (outbox_check) (outbox_step) (outbox_born). Defined.
#[export] Instance promotions_governed `{Policy} : Governed promotions.
Proof. governed (promo_check) (promo_step) (fun _ : PromoRow => False). Defined.

(** A run of [m] from [db] respects the lifecycles. *)
Definition keeps `{Policy} {E A} (env : txenv E) (db : Db) (m : Txn E A) : Prop :=
  forall a db', m env db = Ok (a, db') -> evolves db db'.

Section keeps.
Context `{HP : Policy} {E : Type}.
Implicit Types (env : txenv E) (db : Db).

Lemma keeps_bind {A B} env db (m : Txn E A) (k : A -> Txn E B) :
  keeps env db m -> (forall a db1, m env db = Ok (a, db1) -> keeps env db1 (k a)) ->
  keeps env db (tx_bind m k).
Proof.
  intros Hm Hk b db' H. apply tx_bind_ok in H as (a & db1 & Ha & Hb).
  etransitivity; [by eapply Hm|by eapply Hk].
Qed.

(** Statements that leave the database alone. *)
Definition reads {A} (m : Txn E A) : Prop := forall env db a db', m env db = Ok (a, db') -> db' = db.

Lemma keeps_reads {A} env db (m : Txn E A) : reads m -> keeps env db m.
Proof. intros Hr a db' H. by rewrite (Hr _ _ _ _ H). Qed.

Lemma keeps_ret {A} env db (a : A) : keeps env db (tx_ret a).
Proof. apply keeps_reads. by intros ? ? ? ? [_ ->]%tx_ret_ok. Qed.
Lemma keeps_fail {A} env db e : keeps env db (tx_fail e : Txn E A).
Proof. by intros ? ?. Qed.
Lemma keeps_refused {A} env db m : keeps env db (tx_refused m : Txn E A).
Proof. by intros ? ?. Qed.
Lemma keeps_now env db : keeps env db tx_now.
Proof. apply keeps_reads. by intros ? ? ? ? [_ ->]%tx_now_ok. Qed.
Lemma keeps_read {A} env db (f : Db -> A) : keeps env db (tx_read f).
Proof. apply keeps_reads. by intros ? ? ? ? [_ ->]%tx_read_ok. Qed.
Lemma keeps_lift {A} env db (r : result E A) : keeps env db (tx_lift r).
Proof. apply keeps_reads. by intros ? ? ? ? [_ ->]%tx_lift_ok. Qed.
Lemma keeps_ensure env db c e : keeps env db (tx_ensure c e).
Proof. apply keeps_reads. by intros ? ? ? ? [_ ->]%tx_ensure_ok. Qed.
Lemma keeps_with_err {A} env db f (m : Txn E A) :
  (forall env', keeps env' db m) -> keeps env db (tx_with_err f m).
Proof. intros Hm a db' H. by eapply Hm. Qed.

Context {R : Type} (T : table R).

Lemma keeps_get env db k : keeps env db (sql_get T k).
Proof. apply keeps_reads. by intros ? ? ? ? [_ ->]%sql_get_ok. Qed.
Lemma keeps_exists env db w : keeps env db (sql_exists T w).
Proof. apply keeps_reads. by intros ? ? ? ? [_ ->]%sql_exists_ok. Qed.
Lemma keeps_first env db w b : keeps env db (sql_first_unlocked T w b).
Proof. intros a db' [= _ <-]. done. Qed.

Context `{!Governed T}.

Lemma keeps_update env db k w f :
  (forall r, tget T db !! k = Some r -> w r = true -> g_check r = true ->
             g_check (f r) = true /\ g_step r (f r)) ->
  keeps env db (sql_update T k w f).
Proof.
  intros Hf n db' [(_ & r & Hk & Hw & ->)|(_ & -> & _)]%sql_update_ok; [|done].
  apply g_set, table_evolves_insert; [apply _|]. rewrite Hk. simpl. by intros; apply Hf.
Qed.

Lemma keeps_update_where env db w f :
  (forall k r, tget T db !! k = Some r -> w k r = true -> g_check r = true ->
               g_check (f r) = true /\ g_step r (f r)) ->
  keeps env db (sql_update_where T w f).
Proof.
  intros Hf n db' [_ ->]%sql_update_where_ok.
  apply g_set, table_evolves_where; [apply _|]. by intros; eapply Hf.
Qed.

Lemma keeps_insert env db k r :
  g_check r = true -> g_born r -> keeps env db (sql_insert T k r).
Proof.
  intros Hc Hb n db' [Hk ->]%sql_insert_ok. apply g_set, table_evolves_insert; [apply _|].
  rewrite Hk. split; [done|]. exists r. split_and!; [done..|reflexivity].
Qed.

Lemma keeps_insert_ignore env db k r :
  g_check r = true -> g_born r -> keeps env db (sql_insert_ignore T k r).
Proof.
  intros Hc Hb n db' [(_ & Hk & ->)|(_ & _ & ->)]%sql_insert_ignore_ok; [|done].
  apply g_set, table_evolves_insert; [apply _|].
  rewrite Hk. split; [done|]. exists r. split_and!; [done..|reflexivity].
Qed.
End keeps.

Lemma keeps_exposure `{Policy} {E} (env : txenv E) db k v : keeps env db (sql_insert_ignore exposures k v).
Proof.
  intros n db' [(_ & Hk & ->)|(_ & _ & ->)]%sql_insert_ignore_ok; [|done].
  split; try reflexivity. split; [by apply insert_subseteq|reflexivity].
Qed.
Lemma keeps_analytics `{Policy} {E} (env : txenv E) db k v : keeps env db (sql_insert_ignore analytics k v).
Proof.
  intros n db' [(_ & Hk & ->)|(_ & _ & ->)]%sql_insert_ignore_ok; [|done].
  split; try reflexivity. split; [reflexivity|by apply insert_subseteq].
Qed.

(** Walks through a transaction; what is left are the obligations of its
    writes. *)
Create HintDb keeps.
#[export] Hint Resolve keeps_ret keeps_fail keeps_refused keeps_now keeps_read keeps_lift
  keeps_ensure keeps_get keeps_exists keeps_first keeps_exposure keeps_analytics : keeps.

Ltac keeps_step :=
  match goal with
  | |- keeps _ _ (tx_bind _ _) => apply keeps_bind; [|intros ? ? ?]
  | |- keeps _ _ (tx_with_err _ _) => apply keeps_with_err; intros ?
  | |- keeps _ _ _ => solve [eauto 2 with keeps]
  | |- keeps _ _ (match ?x with _ => _ end) => destruct x eqn:?
  | |- keeps _ _ (sql_update _ _ _ _) => refine (keeps_update _ _ _ _ _ _ _)
  | |- keeps _ _ (sql_update_where _ _ _) => refine (keeps_update_where _ _ _ _ _ _)
  | |- keeps _ _ (sql_insert _ _ _) => refine (keeps_insert _ _ _ _ _ _ _)
  | |- keeps _ _ (sql_insert_ignore _ _ _) => refine (keeps_insert_ignore _ _ _ _ _ _ _)
  end.
Ltac keeps_tac := cbv beta; repeat (keeps_step; cbv beta).

(** The obligation of a write, by cases on the old row's status. *)
Ltac row_unfold :=
  cbv [g_check g_step g_born attempts_governed recons_governed tasks_governed orders_governed
       carts_governed outbox_governed promotions_governed] in *;
  unfold attempt_in, recon_in, task_in, outbox_in, order_pending, lease_live, claim_expired,
    claim_owned, attempt_lease, attempt_set, recon_lease, recon_set, task_set, task_operation,
    order_set, outbox_set, attempt_check, recon_check, task_check, order_check, outbox_check,
    promo_check, PAYMENT_RECONCILIATION_MAX_ATTEMPTS, COMPENSATION_MAX_ATTEMPTS,
    OUTBOX_MAX_ATTEMPTS in *.

Ltac destruct_status :=
  repeat match goal with
  | s : attempt_status |- _ => destruct s
  | s : recon_status |- _ => destruct s
  | s : task_status |- _ => destruct s
  | s : order_status |- _ => destruct s
  | s : cart_status |- _ => destruct s
  | s : outbox_status |- _ => destruct s
  | s : task_kind |- _ => destruct s
  end.
Ltac compute_decide :=
  repeat match goal with
  | H : context [bool_decide ?P] |- _ =>
      let b := eval vm_compute in (bool_decide P) in
      match b with true => idtac | false => idtac end; change (bool_decide P) with b in H
  | |- context [bool_decide ?P] =>
      let b := eval vm_compute in (bool_decide P) in
      match b with true => idtac | false => idtac end; change (bool_decide P) with b
  end.
Ltac destruct_options :=
  repeat match goal with
  | H : context [some ?o] |- _ => is_var o; destruct o; simpl in H; try discriminate H
  | |- context [some ?o] => is_var o; destruct o; simpl
  end.
Ltac check_tac :=
  repeat (rewrite andb_true_iff; split); try reflexivity; try assumption;
  try (apply Z.leb_le; lia); try (apply Z.ltb_lt; lia); try done.
Ltac row_tac r :=
  row_unfold; destruct r; simpl in *; destruct_status; compute_decide; simpl in *;
  bool_inv; simpl in *; try discriminate; destruct_options; simpl in *; bool_inv; try discriminate;
  (refine (conj _ _); [check_tac|split; unfold recon_waiting, PAYMENT_RECONCILIATION_MAX_ATTEMPTS; simpl; try done; try lia; try congruence;
       try (by left); try (by right); try (by right; left); try (by right; right; eexists);
       try (intros; simplify_eq; intuition (try discriminate; try congruence; try lia))]).
Ltac row_obligation :=
  let Hk := fresh in let Hw := fresh in let Hc := fresh in
  intros * Hk Hw Hc; clear Hk;
  match type of Hc with _ ?r = true => row_tac r end.
Ltac keeps_rows := keeps_tac; try done; try row_obligation.

(** The row a claim found is the row its update rewrites. *)
Lemma keeps_claim `{Policy} {E A R} (T : table R) `{!Governed T} (env : txenv E) db w b f
    (m : key -> R -> Txn E A) (n : Txn E A) :
  (forall k r, w k r = true -> g_check r = true -> g_check (f r) = true /\ g_step r (f r)) ->
  (forall db k r, keeps env db (m k r)) -> (forall db, keeps env db n) ->
  keeps env db
    (tx_bind (sql_first_unlocked T w b) (fun found =>
       match found with
       | None => n
       | Some (k, r) => tx_bind (sql_update T k (fun _ => true) f) (fun _ => m k r)
       end)).
Proof.
  intros Hf Hm Hn. apply keeps_bind; [auto with keeps|]. intros found db1 [= Hfound <-].
  destruct found as [[k r]|]; [|done].
  apply keeps_bind; [|by intros].
  apply first_by_some in Hfound as [Hk Hw]. bool_inv.
  refine (keeps_update _ _ _ _ _ _ _). intros r' Hk' _ Hc. rewrite Hk in Hk'. injection Hk' as <-.
  by eapply Hf.
Qed.
