(* ===== verification/CheckoutTransactions.v ===== *)
(** Every transaction of the checkout service respects the lifecycles and the
    CHECK constraints of [CheckoutEvolution], one lemma per operation. *)

From S2P Require Import Prelude Proto Propagation Database CheckoutDomain CheckoutQuote CheckoutRecords CheckoutOrders CheckoutCart CheckoutOutbox CheckoutEvolution.
Import Schema Transactions CheckoutDomain CheckoutQuote CheckoutFence CheckoutCompensation CheckoutAttempts
  CheckoutReconciliation CheckoutOrders CheckoutCart CheckoutOutbox CheckoutEvolution.

(** ** Fences and markers *)

Lemma keeps_fence `{Policy} env db f : keeps env db (lock_checkout_fence f).
Proof. unfold lock_checkout_fence. keeps_tac. Qed.
#[export] Hint Resolve keeps_fence : keeps.

Lemma keeps_refresh `{Policy} env db f : keeps env db (refresh_checkout_fence f).
Proof. unfold refresh_checkout_fence. keeps_rows. Qed.

Lemma keeps_begin `{Policy} env db o key f : keeps env db (begin_compensation_operation o key f).
Proof. unfold begin_compensation_operation, update_task. keeps_rows. Qed.

Lemma keeps_complete_operation `{Policy} env db o key f :
  keeps env db (complete_compensation_operation o key f).
Proof. unfold complete_compensation_operation, update_task. keeps_rows. Qed.

(** ** Compensation tasks *)

Lemma keeps_claim_task `{Policy} env db token : drawn token -> keeps env db (claim_compensation_task token).
Proof.
  intros Htoken. refine (keeps_claim tasks env db _ _ _ (fun k t => tx_ret _) _ _ _ _); [|auto with keeps..].
  intros k t Hw Hc. unfold task_claimable in Hw. row_tac t.
Qed.

Lemma keeps_finish_task `{Policy} env db task e : keeps env db (finish_compensation_task task e).
Proof. destruct e; unfold finish_compensation_task; keeps_rows. Qed.

Lemma keeps_dead_letter_expired `{Policy} env db : keeps env db dead_letter_expired_compensation_task.
Proof.
  refine (keeps_claim tasks env db _ _ _ (fun k t => tx_ret _) _ _ _ _); [|auto with keeps..].
  intros k t Hw Hc. row_tac t.
Qed.

Lemma keeps_reschedule_task `{Policy} env db task e : keeps env db (reschedule_compensation_task task e).
Proof. unfold reschedule_compensation_task. keeps_rows. Qed.

Lemma keeps_intent `{Policy} env db tenant id fence t :
  task_check t = true -> task_born t -> keeps env db (insert_intent tenant id fence t).
Proof. intros Hok Hb. unfold insert_intent, requeued_task. keeps_rows. Qed.

Lemma keeps_inventory_intent `{Policy} env db o f c ir :
  0 < ir_quantity ir.1 -> keeps env db (insert_inventory_intent o f c ir).
Proof.
  intros Hq. unfold insert_inventory_intent. keeps_tac.
  apply keeps_intent; [|done]. unfold task_check. simpl. by apply Z.ltb_lt in Hq as ->.
Qed.

Definition positive_quantities (l : list (InventoryReservation * string)) : Prop :=
  Forall (fun ir => 0 < ir_quantity ir.1) l.

Lemma keeps_inventory_intents `{Policy} env db o f c l :
  positive_quantities l -> keeps env db (record_inventory_intents o f c l).
Proof.
  intros Hl. unfold record_inventory_intents. apply keeps_bind; [auto with keeps|].
  intros _ db1 _. revert db1. induction Hl as [|ir l Hq Hl IH]; intros db1; simpl; [auto with keeps|].
  apply keeps_bind; [by apply keeps_inventory_intent|auto].
Qed.

Lemma keeps_payment_intent `{Policy} env db o payment request id c f :
  keeps env db (record_payment_intent o payment request id c f).
Proof. unfold record_payment_intent. keeps_tac. by apply keeps_intent. Qed.

Lemma keeps_activate `{Policy} env db o key f : keeps env db (activate_compensation_intent o key f).
Proof. unfold activate_compensation_intent, update_task, task_status_of. keeps_rows. Qed.

Lemma keeps_resolve `{Policy} env db o key f : keeps env db (resolve_compensation_intent o key f).
Proof. unfold resolve_compensation_intent, update_task, task_status_of. keeps_rows. Qed.

Lemma keeps_cancel_fenced `{Policy} env db o f : keeps env db (cancel_order_fenced o f).
Proof. unfold cancel_order_fenced. keeps_rows. Qed.

Lemma keeps_cancel_compensated `{Policy} env db o f : keeps env db (cancel_order_if_compensated o f).
Proof. unfold cancel_order_if_compensated. keeps_rows. Qed.

(** ** Attempts *)

Lemma keeps_claim_attempt `{Policy} env db tenant request fp token new :
  drawn token -> drawn new ->
  keeps env db (claim_checkout_attempt tenant request fp token new).
Proof.
  intros Htoken Hnew. unfold claim_checkout_attempt, replay_paid, reclaim_attempt, retire_recons, retire_tasks.
  keeps_rows. all: by destruct (_ <? _).
Qed.

Lemma keeps_response `{Policy} env db tenant request token status order payload :
  status <> AStarted -> status <> AFailed ->
  keeps env db (record_checkout_response tenant request token status order payload).
Proof. intros H1 H2. unfold record_checkout_response. keeps_rows. Qed.

Lemma keeps_failure `{Policy} env db tenant request token e :
  keeps env db (record_checkout_failure tenant request token e).
Proof. unfold record_checkout_failure. keeps_rows. Qed.

Lemma keeps_register `{Policy} env db o lease payment method variant c expired :
  0 <= pd_total_minor o ->
  keeps env db (register_pending_payment_reconciliation_inner o lease payment method variant c expired).
Proof.
  intros Ht. unfold register_pending_payment_reconciliation_inner, reregistered_recon. keeps_rows.
  change (g_check ?r) with (recon_check r). unfold recon_check. simpl.
  apply Z.leb_le in Ht as ->. unfold stored_payment_method_type.
  by repeat case_match.
Qed.

Lemma keeps_register_pending `{Policy} env db o lease payment method variant c :
  0 <= pd_total_minor o ->
  keeps env db (register_pending_payment_reconciliation o lease payment method variant c).
Proof. intros Ht. apply keeps_bind; [auto with keeps|]. intros. by apply keeps_register. Qed.

Lemma keeps_queue_recovery `{Policy} env db o lease payment method variant c :
  0 <= pd_total_minor o ->
  keeps env db (queue_checkout_finalization_recovery o lease payment method variant c).
Proof. intros Ht. apply keeps_bind; [auto with keeps|]. intros. by apply keeps_register. Qed.

(** ** Reconciliations *)

Lemma keeps_claim_recon `{Policy} env db token : drawn token -> keeps env db (claim_payment_reconciliation token).
Proof.
  intros Htoken. refine (keeps_claim recons env db _ _ _ (fun k r => tx_ret _) _ _ _ _); [|auto with keeps..].
  intros k r Hw Hc. unfold recon_claimable in Hw. row_tac r.
Qed.

Lemma keeps_reclaim_exhausted `{Policy} env db : keeps env db reclaim_exhausted_payment_reconciliation.
Proof. unfold reclaim_exhausted_payment_reconciliation. keeps_rows. Qed.

Lemma keeps_wake `{Policy} env db tenant request : keeps env db (queue_reconciliation tenant request).
Proof. unfold queue_reconciliation. keeps_rows. Qed.

Lemma keeps_observation `{Policy} env db job p o f :
  keeps env db (record_payment_reconciliation_observation job p o f).
Proof. unfold record_payment_reconciliation_observation, update_job, with_payment. keeps_rows. Qed.

Lemma keeps_attach `{Policy} env db job p : keeps env db (attach_payment_to_reconciliation job p).
Proof. unfold attach_payment_to_reconciliation, update_job, with_payment. keeps_rows. Qed.

Lemma keeps_reschedule_recon `{Policy} env db job e : keeps env db (reschedule_payment_reconciliation job e).
Proof.
  unfold reschedule_payment_reconciliation, update_job.
  destruct (PAYMENT_RECONCILIATION_MAX_ATTEMPTS <=? rj_attempts job); keeps_rows.
Qed.

Lemma keeps_complete_recon `{Policy} env db job payload :
  keeps env db (complete_payment_reconciliation job payload).
Proof. unfold complete_payment_reconciliation, update_job, job_attempt, attempt_status_of. keeps_rows. Qed.

Lemma keeps_fail_recon `{Policy} env db job e : keeps env db (fail_payment_reconciliation job e).
Proof. unfold fail_payment_reconciliation, update_job, job_attempt, attempt_status_of. keeps_rows. Qed.

(** ** Orders *)

Lemma keeps_link `{Policy} env db tenant request token order m :
  keeps env db (link_attempt tenant request token order m).
Proof. unfold link_attempt. keeps_rows. Qed.

Lemma keeps_item_amounts `{Policy} env db line : keeps env db (item_amounts line).
Proof. unfold item_amounts. keeps_tac. Qed.
#[export] Hint Resolve keeps_link keeps_item_amounts : keeps.

Lemma item_amounts_check line (env : txenv ApiError) db u db' :
  item_amounts line env db = Ok (u, db') ->
  db' = db /\ fits_i32 (ln_quantity line) = true
  /\ item_check (ln_quantity line) (ln_unit_price_minor line) = true
  /\ fits_i32 (ln_quantity line * ln_unit_price_minor line) = true.
Proof.
  unfold item_amounts. intros H. tx_inv.
  destruct (fits_i32 (_ * _)) eqn:Ef; simpl in *; [|done]. destruct (item_check _ _) eqn:E; [|done]. by tx_inv.
Qed.

Lemma cart_item_set c variant q p :
  cart_check c = true -> cart_item_check (q, p) = true ->
  cart_check (set_cart_item variant q p c) = true /\ cart_step c (set_cart_item variant q p c).
Proof.
  intros Hc Hi. split; [by apply cart_check_set|]. split; [done|]. unfold cart_next. simpl.
  by rewrite bool_decide_true.
Qed.

Lemma keeps_cart_items `{Policy} env db tenant cart lines : keeps env db (upsert_cart_items tenant cart lines).
Proof.
  revert db. induction lines as [|line lines IH]; intros db; simpl; [auto with keeps|].
  keeps_tac. match goal with Hi : item_amounts _ _ _ = _ |- _ => apply item_amounts_check in Hi as (-> & _ & Hchk & Hfit) end.
  intros c _ _ Hc. apply cart_item_set; [exact Hc|]. unfold cart_item_check. simpl. by rewrite Hchk, Hfit.
Qed.

Lemma keeps_order_lines `{Policy} env db input quote items : keeps env db (order_lines input quote items).
Proof.
  revert db. induction items as [|item items IH]; intros db; simpl; [auto with keeps|].
  keeps_tac.
Qed.

Lemma keeps_insert_order `{Policy} env db tenant id o :
  fits_i32 (or_subtotal_minor o) = true -> fits_i32 (or_total_minor o) = true -> order_born o ->
  keeps env db (insert_order tenant id o).
Proof.
  intros H1 H2 Hb. unfold insert_order. keeps_tac; [|done].
  change (order_check o = true). unfold order_check. destruct Hb as [_ ->].
  by destruct (order_balanced o); [rewrite H1, H2|].
Qed.

Lemma keeps_order_items `{Policy} env db tenant id lines : keeps env db (insert_order_items tenant id lines).
Proof.
  revert db. induction lines as [|line lines IH]; intros db; simpl; [auto with keeps|].
  keeps_tac. match goal with Hi : item_amounts _ _ _ = _ |- _ => apply item_amounts_check in Hi as (-> & _ & Hi & _) end.
  intros o _ _ Hc. split.
  - change (order_check o = true) in Hc. change (order_check (add_order_item line o) = true).
    unfold order_check in *. simpl. rewrite forallb_app. simpl. by bool_inv; check_tac.
  - split; simpl; [done| |done| |auto]; [by destruct (or_status o)|by eexists].
Qed.

Lemma keeps_insert_cart `{Policy} env db input session cart : keeps env db (insert_cart input session cart).
Proof. unfold insert_cart. keeps_rows. Qed.

Lemma keeps_check_cart `{Policy} env db input session cart : keeps env db (check_cart input session cart).
Proof. unfold check_cart. keeps_tac. Qed.
#[export] Hint Resolve keeps_cart_items keeps_order_lines keeps_order_items keeps_insert_cart
  keeps_check_cart : keeps.

Lemma i32_amount_fits n m : i32_amount n = Ok m -> fits_i32 m = true.
Proof. unfold i32_amount. destruct (fits_i32 n) eqn:E; [|done]. by intros [= <-]. Qed.

Lemma keeps_create_order `{Policy} env db input quote session lease cu ou :
  keeps env db (create_pending_order_tx input quote session lease cu ou).
Proof.
  unfold create_pending_order_tx, resume_order, new_order. keeps_tac.
  repeat match goal with Hi : tx_lift (i32_amount _) _ _ = Ok _ |- _ =>
    apply tx_lift_ok in Hi as [Hi%i32_amount_fits ->] end.
  by apply keeps_insert_order.
Qed.

Lemma redeemed_step now p :
  redeemable now p = true -> promo_check p = true ->
  promo_check (redeemed p) = true /\ promo_step p (redeemed p).
Proof.
  unfold redeemable, promo_check, redeemed. destruct p as [active starts ends max n]; simpl.
  intros Hw Hc. bool_inv. split; [|split; simpl; [done|lia]].
  destruct max; bool_inv; check_tac.
Qed.

Lemma keeps_redeem `{Policy} env db tenant code : keeps env db (redeem_promotion tenant code).
Proof. unfold redeem_promotion. keeps_tac. intros p _. apply redeemed_step. Qed.

Lemma keeps_finalize `{Policy} env db c o payment variant t s p f :
  may_pay -> keeps env db (finalize_order_tx c o payment variant t s p f).
Proof.
  intros Hpay. unfold finalize_order_tx, insert_outbox, checked_out_cart. pose proof keeps_redeem. keeps_rows.
Qed.

(** ** The outbox *)

Lemma keeps_claim_outbox `{Policy} env db token : drawn token -> keeps env db (claim_outbox_tx token).
Proof.
  intros Htoken. unfold claim_outbox_tx. apply keeps_bind; [auto with keeps|]. intros now db1 _.
  apply keeps_bind; [unfold outbox_exhausted, dead_letter_event; keeps_rows|]. intros _ db2 _.
  refine (keeps_claim outbox env db2 _ _ _ (fun k e => tx_ret _) _ _ _ _); [|auto with keeps..].
  intros k e Hw Hc. unfold outbox_claimable in Hw. row_tac e.
Qed.

Lemma keeps_settle `{Policy} env db o published : keeps env db (settle_outbox o published).
Proof.
  unfold settle_outbox, published_event, failed_event, outbox_failure_status.
  destruct published as [|e]; [|destruct (_ || _)]; keeps_rows.
Qed.

(** ** The cart endpoints *)

Lemma cart_items_kept c updated :
  cart_check c = true ->
  cart_check (with_cart_items (ca_items c) updated c) = true
  /\ cart_step c (with_cart_items (ca_items c) updated c).
Proof. intros Hc. split; [exact Hc|]. split; [done|]. unfold cart_next. simpl. by rewrite bool_decide_true. Qed.

Lemma cart_item_deleted c variant :
  cart_check c = true ->
  cart_check (delete_cart_item variant c) = true /\ cart_step c (delete_cart_item variant c).
Proof.
  intros Hc. split.
  - unfold cart_check in *. apply bool_decide_eq_true in Hc. apply bool_decide_eq_true. by apply map_Forall_delete.
  - split; [done|]. unfold cart_next. simpl. by rewrite bool_decide_true.
Qed.

Lemma keeps_touch `{Policy} env db tenant cart : keeps env db (touch_cart tenant cart).
Proof. unfold touch_cart. keeps_tac. intros c _ _ Hc. by apply cart_items_kept. Qed.

Lemma keeps_insert_new_cart `{Policy} env db i cart session : keeps env db (insert_new_cart i cart session).
Proof. unfold insert_new_cart. keeps_rows. Qed.

Lemma keeps_latest_cart `{Policy} env db w : keeps env db (latest_cart w).
Proof. unfold latest_cart. keeps_tac. Qed.
#[export] Hint Resolve keeps_touch keeps_insert_new_cart keeps_latest_cart : keeps.

Lemma keeps_choose_cart `{Policy} env db i session uuid : keeps env db (choose_cart i session uuid).
Proof. unfold choose_cart. keeps_tac. Qed.

Lemma keeps_ensure_cart `{Policy} env db i cart session uuid : keeps env db (ensure_cart i cart session uuid).
Proof. unfold ensure_cart. keeps_tac. Qed.

Lemma keeps_lock_cart `{Policy} env db i cart session : keeps env db (lock_cart i cart session).
Proof. unfold lock_cart. keeps_tac. Qed.

Lemma keeps_upsert_item `{Policy} env db tenant cart variant quantity price :
  keeps env db (upsert_item tenant cart variant quantity price).
Proof.
  unfold upsert_item. keeps_tac. intros c _ _ Hc. apply cart_item_set; [exact Hc|].
  unfold cart_item_check. simpl. bool_inv. by apply andb_true_iff.
Qed.

Lemma keeps_scoped_item `{Policy} env db scope session sku : keeps env db (scoped_item scope session sku).
Proof. unfold scoped_item. keeps_tac. Qed.
#[export] Hint Resolve keeps_choose_cart keeps_ensure_cart keeps_lock_cart keeps_upsert_item
  keeps_scoped_item : keeps.

Lemma keeps_add_cart_item `{Policy} env db prices i session cu su :
  keeps env db (add_cart_item_tx prices i session cu su).
Proof. unfold add_cart_item_tx. keeps_tac. Qed.

Lemma keeps_replace_cart_item `{Policy} env db scope session sku quantity :
  keeps env db (replace_cart_item_tx scope session sku quantity).
Proof.
  unfold replace_cart_item_tx. keeps_tac. intros c _ _ Hc. apply cart_item_set; [exact Hc|].
  unfold cart_item_check. simpl. bool_inv. by apply andb_true_iff.
Qed.

Lemma keeps_remove_cart_item `{Policy} env db scope session sku :
  keeps env db (remove_cart_item_tx scope session sku).
Proof. unfold remove_cart_item_tx. keeps_tac. intros c _ _ Hc. by apply cart_item_deleted. Qed.
