(* ===== verification/CheckoutDemo.v ===== *)
(** A small run of the checkout service, computed by the model: the databases
    the concrete examples of the following files start from. *)

From S2P Require Import Prelude Proto Propagation Database Runtime CheckoutDomain CheckoutQuote CheckoutRecords CheckoutOrders CheckoutOutbox CheckoutEvolution.
Import Schema Transactions Rabbit CheckoutDomain CheckoutQuote CheckoutFence CheckoutCompensation
  CheckoutAttempts CheckoutReconciliation CheckoutOrders CheckoutOutbox CheckoutEvolution.

Definition demo_policy : Policy := {| drawn := fun _ => True; may_pay := True |}.
(** Tokens are drawn afresh: [lease-1] is not drawn again. *)
Definition later_policy : Policy := {| drawn := fun t => t <> "lease-1"; may_pay := True |}.

Definition demo_env (now : Z) : txenv ApiError := mkTxenv now db_error (fun _ => false).

(** The database after a transaction, unchanged when it is refused. *)
Definition after {A} (m : Txn ApiError A) (now : Z) (db : Db) : Db :=
  match m (demo_env now) db with Ok (_, db') => db' | Err _ => db end.

Definition demo_lease : CheckoutLease := mkCheckoutLease "acme" "req-1" "lease-1".
Definition demo_input : CheckoutInput := sample_input.
Definition demo_quote : QuoteResponse := sample_response.

Definition fresh_db : Db :=
  set_variants {[ ("acme", "sku-1") := mkVariantProduct "v-1" "prod-1" "Small" "Mug" true true ]} empty_db.

Definition claim_demo : Txn ApiError CheckoutAttemptClaim :=
  claim_checkout_attempt "acme" "req-1" "fp" "lease-1" "lease-2".
Definition claimed_db : Db := after claim_demo 0 fresh_db.

Definition create_demo : Txn ApiError (ApiResult PendingOrder) :=
  create_pending_order_tx demo_input demo_quote "sess-1" demo_lease "u-1" "u-2".
Definition ordered_db : Db := after create_demo (seconds 1) claimed_db.

Definition demo_order : PendingOrder :=
  mkPendingOrder "order-u-2" "acme-u-2" "cart-u-1" "acme" "cust-1" "sess-1" "USD"
    [mkOrderLine "prod-1" "v-1" "sku-1" "Mug / Small" 2 1299] 2598 0 0 2598 None.

Definition demo_context : Context := mkContext None ∅.
Definition demo_propagation : string * string * string :=
  ("00-4bf92f3577b34da6a3ce929d0e0e4736-00f067aa0ba902b7-01", "playground=commerce", "tenant.id=none").

Definition finalize_demo : Txn ApiError unit :=
  finalize_order_tx demo_context demo_order "pay-1" "treatment" "" ""
    demo_propagation (Attempt demo_lease).
Definition paid_db : Db := after finalize_demo (seconds 2) ordered_db.

Definition respond_demo : Txn ApiError unit :=
  record_checkout_response "acme" "req-1" "lease-1" APaid (Some "order-u-2") (JObj []).
Definition answered_db : Db := after respond_demo (seconds 3) paid_db.

(** The lease of [claimed_db] runs out after ten minutes. *)
Definition reclaim_demo : Txn ApiError CheckoutAttemptClaim :=
  claim_checkout_attempt "acme" "req-1" "fp" "unused" "lease-2".
Definition reclaimed_db : Db := after reclaim_demo (seconds 700) claimed_db.

(** A reconciliation that has used its polls. *)
Definition demo_recon : ReconRow :=
  mkRecon "order-u-2" "req-1:authorize" (Some "pay-1") "order-u-2" 2598 "USD" "card" "treatment"
    RAwaitingProvider "lease-1" 8 0 None None None None None None None None
    (Some "tp", Some "ts", Some "bg") 0 0.
Definition polled_db : Db := set_recons {[ ("acme", "req-1") := demo_recon ]} ordered_db.

(** Nothing was compensated: the order may be cancelled. *)
Definition cancel_demo : Txn ApiError unit := cancel_order_if_compensated demo_order (Attempt demo_lease).
Definition cancelled_db : Db := after cancel_demo (seconds 2) ordered_db.

(** One round of the outbox publisher on [paid_db] with a broker that routes
    every message. *)
Definition publish_demo : ApiResult bool * Db :=
  publish_one_outbox None None (seconds 4) (seconds 5) (fun _ => false) "claim-1"
    (fun o => (publish_outbox_message (fun _ => demo_context) sample_inject show_Z Ok
                 (fun _ => Ok "{}") demo_context (Ok tt) (fun _ => Confirmed (Ack false)) o init_rabbit).1)
    (fun db => db) paid_db.
Definition published_db : Db := publish_demo.2.
