(* ===== verification/CheckoutInvariants.v ===== *)
(** The checkout service as a step relation: any sequence of its transactions,
    in any interleaving.  Invariants by induction on the steps: the schema's
    CHECKs, the final states, the exclusion of superseded generations and
    workers, paid orders and their events, exhausted reconciliations. *)

From stdpp Require Import relations.
From S2P Require Import Prelude Proto Propagation Database InventoryService CheckoutDomain CheckoutQuote CheckoutRecords CheckoutOrders CheckoutCart CheckoutOutbox CheckoutEvolution CheckoutTransactions CheckoutDemo.
Import Schema Transactions Inventory CheckoutDomain CheckoutQuote CheckoutFence CheckoutCompensation
  CheckoutAttempts CheckoutReconciliation CheckoutOrders CheckoutCart CheckoutOutbox CheckoutEvolution
  CheckoutTransactions CheckoutDemo.

(** ** The transactions *)

(** Every transaction of the service; the side conditions are what its callers
    pass: an outcome with a payload, positive quantities, a balanced order. *)
Inductive checkout_txn `{Policy} : forall A : Type, Txn ApiError A -> Prop :=
| ct_claim_attempt tenant request fp token new :
    drawn token -> drawn new ->
    checkout_txn _ (claim_checkout_attempt tenant request fp token new)
| ct_response tenant request token status order payload :
    status <> AStarted -> status <> AFailed ->
    checkout_txn _ (record_checkout_response tenant request token status order payload)
| ct_failure tenant request token e : checkout_txn _ (record_checkout_failure tenant request token e)
| ct_register o lease payment method variant c :
    0 <= pd_total_minor o ->
    checkout_txn _ (register_pending_payment_reconciliation o lease payment method variant c)
| ct_queue_recovery o lease payment method variant c :
    0 <= pd_total_minor o ->
    checkout_txn _ (queue_checkout_finalization_recovery o lease payment method variant c)
| ct_create_order input quote session lease cu ou :
    checkout_txn _ (create_pending_order_tx input quote session lease cu ou)
| ct_finalize c o payment variant trace span p f :
    may_pay -> checkout_txn _ (finalize_order_tx c o payment variant trace span p f)
| ct_refresh f : checkout_txn _ (refresh_checkout_fence f)
| ct_begin o key f : checkout_txn _ (begin_compensation_operation o key f)
| ct_complete_operation o key f : checkout_txn _ (complete_compensation_operation o key f)
| ct_inventory_intents o f c l :
    positive_quantities l -> checkout_txn _ (record_inventory_intents o f c l)
| ct_payment_intent o payment request id c f :
    checkout_txn _ (record_payment_intent o payment request id c f)
| ct_activate o key f : checkout_txn _ (activate_compensation_intent o key f)
| ct_resolve o key f : checkout_txn _ (resolve_compensation_intent o key f)
| ct_cancel o f : checkout_txn _ (cancel_order_fenced o f)
| ct_cancel_compensated o f : checkout_txn _ (cancel_order_if_compensated o f)
| ct_claim_task token : drawn token -> checkout_txn _ (claim_compensation_task token)
| ct_finish_task task e : checkout_txn _ (finish_compensation_task task e)
| ct_dead_letter_expired : checkout_txn _ dead_letter_expired_compensation_task
| ct_reschedule_task task e : checkout_txn _ (reschedule_compensation_task task e)
| ct_claim_recon token : drawn token -> checkout_txn _ (claim_payment_reconciliation token)
| ct_reclaim_exhausted : checkout_txn _ reclaim_exhausted_payment_reconciliation
| ct_wake tenant request : checkout_txn _ (queue_reconciliation tenant request)
| ct_observe job p o f : checkout_txn _ (record_payment_reconciliation_observation job p o f)
| ct_attach job p : checkout_txn _ (attach_payment_to_reconciliation job p)
| ct_reschedule_recon job e : checkout_txn _ (reschedule_payment_reconciliation job e)
| ct_complete_recon job payload : checkout_txn _ (complete_payment_reconciliation job payload)
| ct_fail_recon job e : checkout_txn _ (fail_payment_reconciliation job e)
| ct_claim_outbox token : drawn token -> checkout_txn _ (claim_outbox_tx token)
| ct_settle_outbox o published : checkout_txn _ (settle_outbox o published)
| ct_add_cart_item prices i session cu su :
    checkout_txn _ (add_cart_item_tx prices i session cu su)
| ct_replace_cart_item scope session sku quantity :
    checkout_txn _ (replace_cart_item_tx scope session sku quantity)
| ct_remove_cart_item scope session sku : checkout_txn _ (remove_cart_item_tx scope session sku).

(** One committed transaction. *)
Definition checkout_step `{Policy} (db db' : Db) : Prop :=
  exists (A : Type) (m : Txn ApiError A) (env : txenv ApiError) (a : A),
    checkout_txn A m /\ m env db = Ok (a, db').

Create HintDb checkout.
#[export] Hint Resolve keeps_claim_attempt keeps_response keeps_failure keeps_register_pending
  keeps_queue_recovery keeps_create_order keeps_finalize keeps_refresh keeps_begin
  keeps_complete_operation keeps_inventory_intents keeps_payment_intent keeps_activate keeps_resolve
  keeps_cancel_fenced keeps_cancel_compensated keeps_claim_task keeps_finish_task
  keeps_dead_letter_expired keeps_reschedule_task keeps_claim_recon keeps_reclaim_exhausted keeps_wake
  keeps_observation keeps_attach keeps_reschedule_recon keeps_complete_recon keeps_fail_recon
  keeps_claim_outbox keeps_settle keeps_add_cart_item keeps_replace_cart_item keeps_remove_cart_item : checkout.

Lemma txn_keeps `{Policy} A m env db : checkout_txn A m -> keeps env db m.
Proof. destruct 1; auto 2 with checkout. Qed.

Lemma step_evolves `{Policy} db db' : checkout_step db db' -> evolves db db'.
Proof. intros (A & m & env & a & Hm & H1). by eapply txn_keeps. Qed.

Lemma steps_evolve `{Policy} db db' : rtc checkout_step db db' -> evolves db db'.
Proof. induction 1 as [|? ? ? Hs%step_evolves _ IH]; [done|by etransitivity]. Qed.

(** A transaction run against a failing database commits or changes nothing. *)
Lemma run_tx_step `{Policy} {A} pt dbe ce fault now locked (m : Txn ApiError A) db r db' :
  checkout_txn A m -> run_tx pt dbe ce fault now locked m db = (r, db') -> rtc checkout_step db db'.
Proof.
  intros Hm [->|[a Ha]]%run_tx_cases; [done|]. apply rtc_once. by do 4 eexists.
Qed.

Lemma step_runs `{Policy} {A} (m : Txn ApiError A) env db a db' :
  checkout_txn A m -> m env db = Ok (a, db') -> rtc checkout_step db db'.
Proof. intros Hm H1. apply rtc_once. by do 4 eexists. Qed.

(** The run of [CheckoutDemo]. *)
Lemma demo_ordered : rtc (@checkout_step demo_policy) fresh_db ordered_db.
Proof.
  transitivity claimed_db.
  - eapply (@step_runs demo_policy _ claim_demo (demo_env 0)); [by constructor|]. vm_compute. reflexivity.
  - eapply (@step_runs demo_policy _ create_demo (demo_env (seconds 1))); [by constructor|].
    vm_compute. reflexivity.
Qed.

Lemma demo_paid : rtc (@checkout_step demo_policy) ordered_db paid_db.
Proof.
  eapply (@step_runs demo_policy _ finalize_demo (demo_env (seconds 2))); [by constructor|].
  vm_compute. reflexivity.
Qed.

Lemma demo_answered : rtc (@checkout_step demo_policy) paid_db answered_db.
Proof.
  eapply (@step_runs demo_policy _ respond_demo (demo_env (seconds 3))); [by constructor|].
  vm_compute. reflexivity.
Qed.

(** ** The schema's CHECK constraints *)

Definition all_rows {R} (check : R -> bool) (t : gmap key R) : Prop :=
  forall k r, t !! k = Some r -> check r = true.

Record db_checks (db : Db) : Prop := {
  dc_attempts : all_rows attempt_check (db_attempts db);
  dc_recons : all_rows recon_check (db_recons db);
  dc_tasks : all_rows task_check (db_tasks db);
  dc_orders : all_rows order_check (db_orders db);
  dc_carts : all_rows cart_check (db_carts db);
  dc_outbox : all_rows outbox_check (db_outbox db);
  dc_promotions : all_rows promo_check (db_promotions db)
}.

(** The constraints as a test, for concrete databases. *)
Definition rows_pass {R} (check : R -> bool) (t : gmap key R) : bool :=
  forallb (fun kr => check kr.2) (map_to_list t).
Definition checks_pass (db : Db) : bool :=
  rows_pass attempt_check (db_attempts db) && rows_pass recon_check (db_recons db)
  && rows_pass task_check (db_tasks db) && rows_pass order_check (db_orders db)
  && rows_pass cart_check (db_carts db)
  && rows_pass outbox_check (db_outbox db) && rows_pass promo_check (db_promotions db).

Lemma rows_pass_all {R} (check : R -> bool) (t : gmap key R) : rows_pass check t = true -> all_rows check t.
Proof.
  unfold rows_pass. rewrite forallb_forall. intros H k r Hk. apply (H (k, r)).
  by apply list_elem_of_In, elem_of_map_to_list.
Qed.

Lemma checks_pass_all db : checks_pass db = true -> db_checks db.
Proof. unfold checks_pass. rewrite !andb_true_iff. intros H. split; apply rows_pass_all; tauto. Qed.

Lemma rows_evolve {R} (check : R -> bool) step born t t' :
  table_evolves check step born t t' -> all_rows check t -> all_rows check t'.
Proof.
  intros Ht Hc k r' Hk. specialize (Ht k). unfold row_evolves in Ht. rewrite Hk in Ht.
  destruct (t !! k) as [r|] eqn:E; [|by destruct Ht]. by destruct (Ht (Hc k r E)).
Qed.

Lemma row_evolve {R} (check : R -> bool) step born t t' k r :
  table_evolves check step born t t' -> check r = true -> t !! k = Some r ->
  exists r', t' !! k = Some r' /\ check r' = true /\ step r r'.
Proof.
  intros Ht Hc Hk. specialize (Ht k). unfold row_evolves in Ht. rewrite Hk in Ht.
  destruct (t' !! k) as [r'|]; [|done]. exists r'. split; [done|auto].
Qed.

Lemma evolves_checks `{Policy} db db' : evolves db db' -> db_checks db -> db_checks db'.
Proof. intros [] []. split; by eapply rows_evolve. Qed.




(** Final states are final.  Under any sequence of checkout transactions a
    paid or degraded attempt stays as it is, response included; an order that
    left [pending] keeps its status and its amounts; a published or
    dead-lettered event stays as it is; a completed or superseded compensation
    task and a completed or failed reconciliation are never reopened. *)
Theorem final_states_final `{Policy} (db db' : Db) (k : key) :
  db_checks db -> rtc checkout_step db db' ->
  (forall a, db_attempts db !! k = Some a -> at_status a = APaid \/ at_status a = ADegraded ->
     db_attempts db' !! k = Some a)
  /\ (forall o, db_orders db !! k = Some o -> or_status o <> OPending ->
     exists o', db_orders db' !! k = Some o' /\ or_status o' = or_status o
       /\ or_total_minor o' = or_total_minor o)
  /\ (forall e, db_outbox db !! k = Some e -> ox_status e = XPublished \/ ox_status e = XFailed ->
     db_outbox db' !! k = Some e)
  /\ (forall t, db_tasks db !! k = Some t -> tk_status t = TCompleted \/ tk_status t = TSuperseded ->
     exists t', db_tasks db' !! k = Some t' /\ tk_status t' = tk_status t)
  /\ (forall r, db_recons db !! k = Some r -> rc_status r = RCompleted \/ rc_status r = RFailed ->
     exists r', db_recons db' !! k = Some r' /\ rc_status r' = rc_status r).
Proof.
  intros [Ca Cr Ct Co Cc Cx Cp] [Ea Er Et Eo _ Ex _ _ _]%steps_evolve. split_and!.
  - intros a Hk Hs. destruct (row_evolve _ _ _ _ _ _ _ Ea (Ca _ _ Hk) Hk) as (a' & Hk' & _ & Hst).
    by rewrite (as_final _ _ Hst Hs) in Hk'.
  - intros o Hk Hs. destruct (row_evolve _ _ _ _ _ _ _ Eo (Co _ _ Hk) Hk) as (o' & Hk' & _ & [Hi Hst _ _ _]).
    exists o'. split_and!; [done| |congruence]. by destruct (or_status o), (or_status o').
  - intros e Hk Hs. destruct (row_evolve _ _ _ _ _ _ _ Ex (Cx _ _ Hk) Hk) as (e' & Hk' & _ & Hst).
    by rewrite (xs_final _ _ Hst Hs) in Hk'.
  - intros t Hk Hs. destruct (row_evolve _ _ _ _ _ _ _ Et (Ct _ _ Hk) Hk) as (t' & Hk' & _ & Hst).
    exists t'. split; [done|]. pose proof (ts_status _ _ Hst) as Hn.
    by destruct Hs as [Hs|Hs]; rewrite Hs in Hn |- *; destruct (tk_status t').
  - intros r Hk Hs. destruct (row_evolve _ _ _ _ _ _ _ Er (Cr _ _ Hk) Hk) as (r' & Hk' & _ & Hst).
    exists r'. split; [done|]. by apply (rs_final _ _ Hst).
Qed.

Lemma final_states_final_witness :
  exists o', db_orders answered_db !! ("acme", "order-u-2") = Some o'
    /\ or_status o' = OPaid /\ or_total_minor o' = 2598.
Proof.
  assert (Hc : db_checks paid_db) by (apply checks_pass_all; vm_compute; reflexivity).
  destruct (db_orders paid_db !! ("acme", "order-u-2")) as [o|] eqn:Ho; [|vm_compute in Ho; discriminate].
  destruct (@final_states_final demo_policy paid_db answered_db ("acme", "order-u-2") Hc demo_answered)
    as (_ & Hord & _).
  vm_compute in Ho. injection Ho as <-. apply (Hord _ eq_refl). discriminate.
Defined.


(** ** What a fence requires *)

(** The condition [lock_checkout_fence] tests, as one predicate. *)
Definition fence_held (db : Db) (now : Z) (f : CheckoutFence) : bool :=
  match f with
  | Attempt l =>
      match db_attempts db !! (cl_tenant_id l, cl_request_id l) with
      | Some a => attempt_is a (cl_token l) && lease_live now a
      | None => false
      end
  | PaymentReconciliation t r parent worker =>
      parent_current db now t r parent (Some worker) && recon_live db now t r parent (Some worker)
  | Compensation t r token task claim =>
      parent_current db now t r token None && task_claimed db now t task claim r token
  end.

Lemma checkout_fence_ok f (env : txenv ApiError) db u db' :
  lock_checkout_fence f env db = Ok (u, db') <-> db' = db /\ fence_held db (te_now env) f = true.
Proof.
  unfold lock_checkout_fence, fence_held. destruct u. split.
  - intros H. tx_inv. destruct f; tx_inv; split; try done.
    all: by rewrite andb_true_iff.
  - intros [-> H]. destruct f; simpl in H.
    + tx_run. by rewrite H.
    + apply andb_true_iff in H as [H1 H2]. tx_run. by rewrite H2.
    + apply andb_true_iff in H as [H1 H2]. tx_run. by rewrite H2.
Qed.

(** The two phrasings of the fence agree.  The read of
    [assert_checkout_fence], made from the child's side, succeeds exactly when
    the locking checks of [lock_checkout_fence] do, for every kind of fence,
    database and time; neither changes the database. *)
Theorem fence_checks_agree (f : CheckoutFence) (env : txenv ApiError) (db db' : Db) :
  assert_checkout_fence f env db = Ok (tt, db') <-> lock_checkout_fence f env db = Ok (tt, db').
Proof.
  rewrite checkout_fence_ok. unfold assert_checkout_fence.
  assert (Hiff : forall b e, (tx_ensure b e : Txn ApiError unit) env db = Ok (tt, db') <-> db' = db /\ b = true).
  { intros b e. rewrite tx_ensure_ok. naive_solver. }
  erewrite !tx_bind_run by reflexivity. rewrite Hiff. unfold fence_held.
  destruct f as [l|t r parent worker|t r token task claim]; [done| |by rewrite andb_comm].
  unfold parent_current. destruct (db_attempts db !! _) as [a|]; [|by rewrite andb_false_r].
  destruct (recon_live _ _ _ _ _ _); rewrite ?andb_true_r, ?andb_false_r; [|done]. simpl.
  unfold attempt_in. destruct (attempt_is a parent); [|done]. simpl.
  enough (bool_decide (at_status a ∈ [AFailed; APending]) || lease_live (te_now env) a
          = bool_decide (at_status a ∈ [AFailed]) || lease_live (te_now env) a
            || bool_decide (at_status a ∈ [APending])) as -> by done.
  unfold lease_live, attempt_in. by destruct (at_status a); destruct (after_now _ _).
Qed.

Lemma recon_live_any db now t r parent worker :
  recon_live db now t r parent worker = true -> recon_live db now t r parent None = true.
Proof.
  unfold recon_live. destruct (db_recons db !! _); [|done]. rewrite !andb_true_iff. naive_solver.
Qed.

(** the inventory service accepts what checkout holds.  Whenever a fence of
    any kind is held in the checkout service, the generation it names passes
    the inventory service's own test of the shared tables at the same instant,
    so a remote reserve, release or consume is not refused for its fence. *)
Theorem held_fence_accepted_by_inventory (f : CheckoutFence) (db : Db) (now : Z) :
  fence_held db now f = true -> all_rows recon_check (db_recons db) ->
  checkout_fence_current db now (fence_tenant_id f) (fence_request_id f) (fence_token f) = true.
Proof.
  intros Hf Hc.
  assert (Hp : parent_current db now (fence_tenant_id f) (fence_request_id f) (fence_token f) None = true).
  { destruct f as [l|t r parent worker|t r token task claim]; simpl in *.
    - unfold parent_current. destruct (db_attempts db !! _); [|done].
      apply andb_true_iff in Hf as [-> ->]. by rewrite orb_true_r.
    - apply andb_true_iff in Hf as [Hf Hr]. apply recon_live_any in Hr. unfold parent_current in *.
      destruct (db_attempts db !! _); [|done]. rewrite Hr. rewrite !andb_true_r in *.
      apply andb_true_iff in Hf as [-> Hf]. simpl. destruct (recon_live _ _ _ _ _ (Some worker)); [by rewrite andb_true_r in Hf|].
      rewrite andb_false_r, orb_false_r in Hf. by rewrite Hf.
    - by apply andb_true_iff in Hf as [Hf _]. }
  unfold parent_current, checkout_fence_current in *.
  destruct (db_attempts db !! _) as [a|]; [|done]. apply andb_true_iff in Hp as [Ha Hp].
  unfold attempt_is in Ha. rewrite Ha. simpl.
  unfold lease_live, attempt_in in Hp.
  destruct (at_status a) eqn:Hs; compute_decide; simpl in *; try done.
  - by rewrite orb_false_r in Hp.
  - unfold recon_live in Hp. destruct (db_recons db !! _) as [r|] eqn:Er; [|done].
    apply String.eqb_eq in Ha. rewrite Ha. bool_inv.
    destruct (rc_lease_token r) as [w|] eqn:Ew.
    + rewrite !andb_true_iff, String.eqb_eq, !bool_decide_eq_true. split_and!; try done; try (by eexists).
    + specialize (Hc _ _ Er). unfold recon_check in Hc. rewrite Ew, H1 in Hc.
      compute_decide. simpl in Hc. by rewrite !andb_false_r in Hc.
Qed.

Lemma held_fence_accepted_by_inventory_witness :
  checkout_fence_current ordered_db (seconds 5) "acme" "req-1" "lease-1" = true.
Proof.
  apply (held_fence_accepted_by_inventory (Attempt demo_lease) ordered_db (seconds 5)).
  - vm_compute. reflexivity.
  - apply rows_pass_all. vm_compute. reflexivity.
Defined.


(** ** Superseded generations *)

(** The current generation of the request is not the fence's. *)
Definition generation_lost (db : Db) (f : CheckoutFence) : Prop :=
  forall a, db_attempts db !! (fence_tenant_id f, fence_request_id f) = Some a ->
            at_lease_token a <> fence_token f.

Lemma lost_attempt_is db f a :
  generation_lost db f -> db_attempts db !! (fence_tenant_id f, fence_request_id f) = Some a ->
  attempt_is a (fence_token f) = false.
Proof. intros Hl Ha. unfold attempt_is. apply String.eqb_neq. by apply Hl. Qed.

Lemma lost_parent_current db f now worker :
  generation_lost db f ->
  parent_current db now (fence_tenant_id f) (fence_request_id f) (fence_token f) worker = false.
Proof.
  intros Hl. unfold parent_current. destruct (db_attempts db !! _) as [a|] eqn:Ea; [|done].
  by rewrite (lost_attempt_is _ _ _ Hl Ea).
Qed.

(** A transaction that is refused because its fence is lost. *)
Definition refused {A} (m : Txn ApiError A) (env : txenv ApiError) (db : Db) : Prop :=
  exists e, m env db = Err e /\ ae_code e = "checkout_lease_lost".

Lemma refused_bind {A B} (m : Txn ApiError A) (k : A -> Txn ApiError B) env db :
  refused m env db -> refused (tx_bind m k) env db.
Proof. intros (e & H & He). exists e. split; [by apply tx_bind_fail|done]. Qed.

Lemma refused_run {A B} (m : Txn ApiError A) (k : A -> Txn ApiError B) env db a :
  m env db = Ok (a, db) -> refused (k a) env db -> refused (tx_bind m k) env db.
Proof. intros H (e & Hk & He). exists e. split; [by rewrite (tx_bind_run _ _ _ _ _ _ H)|done]. Qed.

Lemma refused_ensure env db m : refused (tx_ensure false (lease_lost m)) env db.
Proof. by eexists. Qed.

Lemma lost_fence_refused db f env : generation_lost db f -> refused (lock_checkout_fence f) env db.
Proof.
  intros Hl. unfold lock_checkout_fence. destruct f as [lease|t r p w|t r p k c].
  - refine (ex_intro _ (CheckoutFence.lease_lost _) (conj _ eq_refl)). tx_run.
    destruct (db_attempts db !! (cl_tenant_id lease, cl_request_id lease)) as [a|] eqn:Ea; [|done].
    pose proof (lost_attempt_is _ _ _ Hl Ea) as Hf. simpl in Hf. by rewrite Hf.
  - pose proof (lost_parent_current _ _ (te_now env) (Some w) Hl) as Hf. simpl in Hf.
    refine (ex_intro _ (CheckoutFence.lease_lost _) (conj _ eq_refl)). tx_run. apply tx_bind_fail. by rewrite Hf.
  - pose proof (lost_parent_current _ _ (te_now env) None Hl) as Hf. simpl in Hf.
    refine (ex_intro _ (CheckoutFence.lease_lost _) (conj _ eq_refl)). tx_run. apply tx_bind_fail. by rewrite Hf.
Qed.

(** The transactions that act for the holder of a fence. *)
Inductive fenced_txn : CheckoutFence -> forall A : Type, Txn ApiError A -> Prop :=
| ft_refresh f : fenced_txn f _ (refresh_checkout_fence f)
| ft_response l status order payload :
    fenced_txn (Attempt l) _
      (record_checkout_response (cl_tenant_id l) (cl_request_id l) (cl_token l) status order payload)
| ft_failure l e :
    fenced_txn (Attempt l) _ (record_checkout_failure (cl_tenant_id l) (cl_request_id l) (cl_token l) e)
| ft_register o l payment method variant c :
    cl_tenant_id l = pd_tenant_id o ->
    fenced_txn (Attempt l) _ (register_pending_payment_reconciliation o l payment method variant c)
| ft_queue_recovery o l payment method variant c :
    cl_tenant_id l = pd_tenant_id o ->
    fenced_txn (Attempt l) _ (queue_checkout_finalization_recovery o l payment method variant c)
| ft_finalize c o payment variant trace span p f :
    fenced_txn f _ (finalize_order_tx c o payment variant trace span p f)
| ft_begin o key f : fenced_txn f _ (begin_compensation_operation o key f)
| ft_complete_operation o key f : fenced_txn f _ (complete_compensation_operation o key f)
| ft_inventory_intents o f c l : fenced_txn f _ (record_inventory_intents o f c l)
| ft_payment_intent o payment request id c f :
    fenced_txn f _ (record_payment_intent o payment request id c f)
| ft_activate o key f : fenced_txn f _ (activate_compensation_intent o key f)
| ft_resolve o key f : fenced_txn f _ (resolve_compensation_intent o key f)
| ft_cancel o f : fenced_txn f _ (cancel_order_fenced o f)
| ft_cancel_compensated o f : fenced_txn f _ (cancel_order_if_compensated o f)
| ft_finish_task task e :
    fenced_txn (Compensation (ct_tenant_id task) (tk_checkout_request_id (ct_row task))
                  (tk_checkout_lease_token (ct_row task)) (ct_id task) (ct_claim_token task)) _
      (finish_compensation_task task e)
| ft_observe job p o e :
    fenced_txn (job_fence job) _ (record_payment_reconciliation_observation job p o e)
| ft_attach job p : fenced_txn (job_fence job) _ (attach_payment_to_reconciliation job p)
| ft_reschedule job e : fenced_txn (job_fence job) _ (reschedule_payment_reconciliation job e)
| ft_complete job payload : fenced_txn (job_fence job) _ (complete_payment_reconciliation job payload)
| ft_fail job e : fenced_txn (job_fence job) _ (fail_payment_reconciliation job e).

(** An update of the attempt of a lost generation changes no row. *)
Lemma lost_update_refused db l guard set_ m env :
  generation_lost db (Attempt l) ->
  refused (tx_bind (sql_update attempts (cl_tenant_id l, cl_request_id l)
                      (fun a => attempt_is a (cl_token l) && guard a) set_)
             (fun n => tx_ensure (n =? 1)%nat (lease_lost m))) env db.
Proof.
  intros Hl. refine (ex_intro _ (CheckoutFence.lease_lost _) (conj _ eq_refl)). erewrite tx_bind_run; [|apply sql_update_miss].
  - done.
  - intros a Ha. pose proof (lost_attempt_is _ _ _ Hl Ha) as Hf. simpl in Hf. by rewrite Hf.
Qed.

Lemma lost_register_refused db o l payment method variant c expired env :
  generation_lost db (Attempt l) ->
  refused (register_pending_payment_reconciliation_inner o l payment method variant c expired) env db.
Proof.
  intros Hl. unfold register_pending_payment_reconciliation_inner.
  do 2 (eapply refused_run; [reflexivity|]). cbv beta. destruct expired.
  - apply refused_bind. destruct (db_attempts db !! _) as [a|] eqn:Ea; [|apply refused_ensure].
    pose proof (lost_attempt_is _ _ _ Hl Ea) as Hf. simpl in Hf. rewrite Hf. apply refused_ensure.
  - by apply refused_bind, lost_fence_refused.
Qed.

Lemma lost_txn_refused db f A (m : Txn ApiError A) env :
  generation_lost db f -> fenced_txn f A m -> refused m env db.
Proof.
  intros Hl Hm. destruct Hm as [f|l ? ? ?|l ?|o l ? ? ? ? Ht|o l ? ? ? ? Ht|?|?|?|?|?|?|?|?|?|?|?|?|?|?|?];
    try (by apply refused_bind, lost_fence_refused).
  - destruct f as [l|t r p w|t r p k c]; unfold refresh_checkout_fence;
      (eapply refused_run; [reflexivity|]); cbv beta.
    + by apply lost_update_refused.
    + by apply refused_bind, lost_fence_refused.
    + by apply refused_bind, lost_fence_refused.
  - eapply refused_run; [reflexivity|]. by apply lost_update_refused.
  - eapply refused_run; [reflexivity|]. by apply lost_update_refused.
  - eapply refused_run; [|by apply lost_register_refused].
    unfold lease_matches. by rewrite Ht, String.eqb_refl.
  - eapply refused_run; [|by apply lost_register_refused].
    unfold lease_matches. by rewrite Ht, String.eqb_refl.
  - eapply refused_run; [reflexivity|]. by apply refused_bind, lost_fence_refused.
Qed.

(** A token that is not drawn again never becomes current again. *)
Lemma generation_stays_lost `{Policy} db db' f :
  db_checks db -> evolves db db' -> ~ drawn (fence_token f) -> generation_lost db f ->
  generation_lost db' f.
Proof.
  intros [Ca _ _ _ _ _] [Ea _ _ _ _ _ _ _ _] Hd Hl a' Ha' Htok.
  pose proof (Ea (fence_tenant_id f, fence_request_id f)) as Hrow. unfold row_evolves in Hrow.
  rewrite Ha' in Hrow. destruct (db_attempts db !! _) as [a|] eqn:Ek.
  - destruct (Hrow (Ca _ _ Ek)) as [_ Hst]. destruct (as_drawn _ _ Hst) as [He|He]; [|congruence].
    apply (Hl a Ek). congruence.
  - destruct Hrow as (_ & a & _ & [_ Hb] & Hst).
    destruct (as_drawn _ _ Hst) as [He|He]; congruence.
Qed.




(** ** Claims of a request *)

(** What a second request with the same identifier is answered from a row. *)
Definition replay_answer (a : AttemptRow) (payload : json) : CheckoutAttemptClaim :=
  if bool_decide (at_status a = APending) then ClaimPending payload else ClaimReplay payload.

Lemma claim_existing env db tenant request fp token new a :
  db_attempts db !! (tenant, request) = Some a ->
  claim_checkout_attempt tenant request fp token new env db =
  if negb (String.eqb (at_fingerprint a) fp) then
    Err (mkApiError CONFLICT "checkout_request_conflict"
           "request_id was already used for different checkout input")
  else
    match at_status a with
    | AStarted =>
        (if negb (lease_stale (te_now env) a) then tx_ret ClaimInProgress else
         (status <- tx_read (fun db => order_status_of db tenant (at_order_id a)) ;;
          if bool_decide (status = Some OPaid) then replay_paid tenant request a else
          tx_ensure (stale_reclaim_order_is_safe (at_order_id a) status)
            (mkApiError CONFLICT "checkout_reconciliation_required"
               "stale checkout attempt is linked to a non-pending order") ;;
          reclaim_attempt tenant request new a)%txn) env db
    | AFailed => Ok (ClaimFailed (stored_failure a), db)
    | _ => match at_payload a with
           | Some p => Ok (replay_answer a p, db)
           | None => Err (idempotency_corrupt "checkout idempotency response is invalid")
           end
    end.
Proof.
  intros Ha. unfold claim_checkout_attempt. tx_run.
  erewrite tx_bind_run by (unfold sql_insert_ignore; simpl; by rewrite Ha).
  simpl. tx_run. erewrite tx_bind_run by (simpl; by rewrite Ha).
  destruct (String.eqb _ _); simpl; [|done]. erewrite tx_bind_run by reflexivity.
  unfold replay_answer. by destruct (at_status a), (at_payload a).
Qed.

(** a request has one outcome.  Once its attempt is paid or degraded, then
    after any sequence of checkout transactions a claim with the same
    fingerprint replays the recorded response and changes nothing, and a claim
    with another fingerprint is refused with [checkout_request_conflict]. *)
Theorem replay_is_stable `{Policy} (db db' : Db) (tenant request fp fp' token new : string)
    (a : AttemptRow) (env : txenv ApiError) :
  db_checks db -> rtc checkout_step db db' ->
  db_attempts db !! (tenant, request) = Some a -> at_fingerprint a = fp ->
  at_status a = APaid \/ at_status a = ADegraded ->
  (exists payload, at_payload a = Some payload
     /\ claim_checkout_attempt tenant request fp token new env db' = Ok (ClaimReplay payload, db'))
  /\ (fp' <> fp -> exists e, claim_checkout_attempt tenant request fp' token new env db' = Err e
        /\ ae_code e = "checkout_request_conflict").
Proof.
  intros [Ca _ _ _ _ _] [Ea _ _ _ _ _ _ _ _]%steps_evolve Ha <- Hs.
  destruct (row_evolve _ _ _ _ _ _ _ Ea (Ca _ _ Ha) Ha) as (a' & Ha' & _ & Hst).
  rewrite (as_final _ _ Hst Hs) in Ha'. pose proof (Ca _ _ Ha) as Hcheck. split.
  - unfold attempt_check in Hcheck.
    destruct Hs as [Hs|Hs]; rewrite Hs in Hcheck; destruct (at_payload a) as [p|] eqn:Ep; try done;
      (exists p; split; [done|]; rewrite (claim_existing _ _ _ _ _ _ _ _ Ha'), String.eqb_refl, Hs, Ep;
       unfold replay_answer; by rewrite Hs).
  - intros Hne. rewrite (claim_existing _ _ _ _ _ _ _ _ Ha').
    assert (String.eqb (at_fingerprint a) fp' = false) as -> by (apply String.eqb_neq; congruence).
    eexists. split; [reflexivity|done].
Qed.

Lemma replay_is_stable_witness :
  exists payload, claim_checkout_attempt "acme" "req-1" "fp" "t" "n" (demo_env (seconds 9)) answered_db
    = Ok (ClaimReplay payload, answered_db).
Proof.
  destruct (db_attempts answered_db !! ("acme", "req-1")) as [a|] eqn:Ha; [|vm_compute in Ha; discriminate].
  destruct (@replay_is_stable demo_policy answered_db answered_db "acme" "req-1" "fp" "other" "t" "n" a
              (demo_env (seconds 9))) as [(p & _ & Hc) _].
  - apply checks_pass_all. vm_compute. reflexivity.
  - constructor.
  - exact Ha.
  - vm_compute in Ha. injection Ha as <-. reflexivity.
  - vm_compute in Ha. injection Ha as <-. by left.
  - by exists p.
Defined.


(** No child of the generation may still act. *)
Record generation_retired (db : Db) (tenant request token : string) : Prop := {
  gr_tasks : forall id t, db_tasks db !! (tenant, id) = Some t ->
    tk_checkout_request_id t = request -> tk_checkout_lease_token t = token ->
    tk_status t = TCompleted \/ tk_status t = TSuperseded;
  gr_recon : forall r, db_recons db !! (tenant, request) = Some r -> rc_parent_token r = token ->
    rc_status r = RCompleted
}.

Lemma retire_tasks_ok tenant request old (env : txenv ApiError) db n db' :
  retire_tasks tenant request old env db = Ok (n, db') ->
  db_recons db' = db_recons db /\ db_attempts db' = db_attempts db
  /\ forall id t, db_tasks db' !! (tenant, id) = Some t -> tk_checkout_request_id t = request ->
     tk_checkout_lease_token t = old -> tk_status t = TCompleted \/ tk_status t = TSuperseded.
Proof.
  unfold retire_tasks. intros H. tx_inv. apply sql_update_where_ok in H0 as [_ ->].
  split_and!; [done..|]. intros id t Ht Hr Ho. simpl in Ht. rewrite map_lookup_imap in Ht.
  destruct (db_tasks db !! (tenant, id)) as [t0|]; [|done]. simpl in Ht.
  destruct (_ && _) eqn:Ew in Ht; injection Ht as <-; [by right|].
  rewrite String.eqb_refl, Hr, Ho, !String.eqb_refl in Ew. simpl in Ew.
  apply bool_decide_eq_false in Ew. set_unfold. destruct (tk_status t0); naive_solver.
Qed.

Lemma retire_recons_ok tenant request old new (env : txenv ApiError) db n db' :
  old <> new -> retire_recons tenant request old new env db = Ok (n, db') ->
  db_tasks db' = db_tasks db /\ db_attempts db' = db_attempts db
  /\ forall r, db_recons db' !! (tenant, request) = Some r -> rc_parent_token r = old ->
     rc_status r = RCompleted.
Proof.
  unfold retire_recons. intros Hne H. tx_inv.
  apply sql_update_ok in H0 as [(_ & r0 & Hk & Hw & ->)|(_ & -> & Hw)]; simpl in *.
  - split_and!; [done..|]. intros r. rewrite lookup_insert_eq. intros [= <-]. simpl. congruence.
  - split_and!; [done..|]. intros r Hr Ho. specialize (Hw r Hr). rewrite Ho, String.eqb_refl in Hw.
    simpl in Hw. apply bool_decide_eq_false in Hw. by destruct (decide (rc_status r = RCompleted)).
Qed.

Definition granted (a' : AttemptRow) (lease fp : string) (now : Z) : Prop :=
  at_status a' = AStarted /\ at_lease_token a' = lease /\ at_fingerprint a' = fp
  /\ at_lease_expires a' = Some (now + CHECKOUT_ATTEMPT_STALE_AFTER).

(** A claim is granted ([ClaimNew]) only for a request without an attempt,
    or for one whose attempt is [started] with the same fingerprint, an expired
    lease and no order or a pending one.  A reclaim installs the new token under
    a fresh lease, keeps the order link and, in the same transaction, retires
    the previous generation: none of its compensation tasks may still run and
    its reconciliation passes to the new generation. *)
Theorem claim_new_sound (db db' : Db) (tenant request fp token new lease : string) (env : txenv ApiError) :
  (forall a, db_attempts db !! (tenant, request) = Some a -> at_lease_token a <> new) ->
  claim_checkout_attempt tenant request fp token new env db = Ok (ClaimNew lease, db') ->
  exists a', db_attempts db' !! (tenant, request) = Some a' /\ granted a' lease fp (te_now env)
  /\ match db_attempts db !! (tenant, request) with
     | None => lease = token /\ at_order_id a' = None /\ db_tasks db' = db_tasks db
     | Some a =>
         lease = new /\ at_status a = AStarted /\ at_fingerprint a = fp
         /\ lease_stale (te_now env) a = true /\ at_order_id a' = at_order_id a
         /\ (at_order_id a = None \/ order_status_of db tenant (at_order_id a) = Some OPending)
         /\ generation_retired db' tenant request (at_lease_token a)
     end.
Proof.
  intros Hnew H. destruct (db_attempts db !! (tenant, request)) as [a|] eqn:Ha.
  - rewrite (claim_existing _ _ _ _ _ _ _ _ Ha) in H.
    destruct (String.eqb _ _) eqn:Hf; simpl in H; [|done].
    destruct (at_status a) eqn:Hs; [|destruct (at_payload a); unfold replay_answer in H; by repeat case_any..|done].
    destruct (lease_stale _ a) eqn:Hst; simpl in H; [|done].
    tx_inv. 
    destruct (bool_decide _) eqn:Hp; [unfold replay_paid in *; tx_inv; repeat case_any; by tx_inv|].
    unfold reclaim_attempt in *. tx_inv.
    match goal with Hu : sql_update attempts _ _ _ _ _ = Ok (?n, _) |- _ =>
      apply sql_update_ok in Hu as [(-> & a0 & Ha0 & Hw & ->)|(-> & -> & _)] end; simpl in *; [|by tx_inv].
    rewrite Ha in Ha0. injection Ha0 as <-. tx_inv.
    match goal with Hr : retire_recons _ _ _ _ _ _ = _ |- _ =>
      apply retire_recons_ok in Hr as (Et & Ea & Hr); [|by apply Hnew] end.
    match goal with Hr : retire_tasks _ _ _ _ _ = _ |- _ =>
      apply retire_tasks_ok in Hr as (Er & Ea' & Ht) end.
    match goal with Hr : tx_ret _ _ _ = Ok _ |- _ => apply tx_ret_ok in Hr as [[= ->] ->] end.
    simpl in *. rewrite Ea', Ea, lookup_insert_eq. bool_inv. eexists. split; [done|]. split; [by split_and!|].
    split_and!; try done.
    + unfold stale_reclaim_order_is_safe in *.
      match goal with Ho : _ || _ = true |- _ => apply orb_true_iff in Ho; rewrite !bool_decide_eq_true in Ho end.
      done.
    + split; [done|]. intros r. rewrite Er. eauto.
  - unfold claim_checkout_attempt in H.
    erewrite tx_bind_run in H by reflexivity.
    erewrite tx_bind_run in H by (unfold sql_insert_ignore; simpl; by rewrite Ha).
    injection H as <- <-. simpl. eexists. rewrite lookup_insert_eq. by split_and!.
Qed.

Lemma claim_new_sound_witness :
  exists a', db_attempts reclaimed_db !! ("acme", "req-1") = Some a'
    /\ granted a' "lease-2" "fp" (seconds 700).
Proof.
  destruct (claim_new_sound claimed_db reclaimed_db "acme" "req-1" "fp" "unused" "lease-2" "lease-2"
              (demo_env (seconds 700))) as (a' & Ha & Hg & _).
  - intros a Ha. vm_compute in Ha. injection Ha as <-. discriminate.
  - vm_compute. reflexivity.
  - by exists a'.
Defined.


(** ** Paid orders *)

Definition paid_order (now : Z) (o : OrderRow) : OrderRow :=
  order_set OPaid (Some (default now (or_placed_at o))) now o.

(** What a finalization leaves behind. *)
Record finalized (order : PendingOrder) (payment : string) (p : string * string * string) (now : Z)
    (db db' : Db) : Prop := {
  fz_order : exists o, db_orders db !! (pd_tenant_id order, pd_id order) = Some o
    /\ or_status o = OPending
    /\ db_orders db' = <[(pd_tenant_id order, pd_id order) := paid_order now o]> (db_orders db);
  fz_cart : exists c, db_carts db !! (pd_tenant_id order, pd_cart_id order) = Some c
    /\ ca_status c = CActive
    /\ db_carts db' = <[(pd_tenant_id order, pd_cart_id order) := checked_out_cart now c]> (db_carts db);
  fz_event : exists_row (event_recorded (pd_tenant_id order) (paid_event_key (pd_id order))) (db_outbox db')
             = true;
  fz_outbox : db_outbox db' = db_outbox db
    \/ db_outbox db' = <[(pd_tenant_id order, outbox_id (pd_id order)) := paid_event order payment p now]>
                         (db_outbox db);
  fz_children : (db_attempts db', db_recons db', db_tasks db', db_stock db', db_reservations db')
                = (db_attempts db, db_recons db, db_tasks db, db_stock db, db_reservations db)
}.

Lemma redeem_ok tenant code (env : txenv ApiError) db u db' :
  redeem_promotion tenant code env db = Ok (u, db') ->
  exists promos, db' = set_promotions promos db.
Proof.
  unfold redeem_promotion. intros H. tx_inv. destruct (non_empty code) as [c|]; tx_inv.
  - apply sql_update_ok in H as [(_ & r & _ & _ & ->)|(_ & -> & _)]; [by eexists|].
    exists (db_promotions db). by destruct db.
  - exists (db_promotions db). by destruct db.
Qed.

Lemma insert_ignore_state {R} (T : table R) k r (env : txenv ApiError) db n db' :
  sql_insert_ignore T k r env db = Ok (n, db') -> exists t, db' = tset T t db.
Proof.
  intros [(_ & _ & ->)|(_ & _ & ->)]%sql_insert_ignore_ok; [by eexists|].
  exists (tget T db). by rewrite tset_tget.
Qed.

Lemma insert_outbox_ok tenant id e (env : txenv ApiError) db u db' :
  insert_outbox tenant id e env db = Ok (u, db') ->
  exists_row (event_recorded tenant (ox_event_key e)) (db_outbox db') = true
  /\ (db' = db \/ db' = set_outbox (<[(tenant, id) := e]> (db_outbox db)) db).
Proof.
  unfold insert_outbox. intros H. tx_inv. destruct (exists_row _ _) eqn:E; tx_inv; [by auto|].
  unfold tx_with_err in *. tx_inv. split; [|by right].
  apply exists_row_true. exists (tenant, id), e. simpl. rewrite lookup_insert_eq. split; [done|].
  unfold event_recorded. simpl. by rewrite !String.eqb_refl.
Qed.

Lemma finalize_ok c order payment variant trace span p f env db u db' :
  finalize_order_tx c order payment variant trace span p f env db = Ok (u, db') ->
  finalized order payment p (te_now env) db db'.
Proof.
  unfold finalize_order_tx. intros H. tx_inv.
  match goal with Hl : lock_checkout_fence _ _ _ = _ |- _ => apply checkout_fence_ok in Hl as [-> _] end.
  match goal with Ho : sql_update orders _ _ _ _ _ = _ |- _ =>
    apply sql_update_one in Ho as (o & Ho & Hw & ->) end.
  match goal with Hc : sql_update carts _ _ _ _ _ = _ |- _ =>
    apply sql_update_one in Hc as (ca & Hc & Hw' & ->) end.
  match goal with Hr : redeem_promotion _ _ _ _ = _ |- _ => apply redeem_ok in Hr as [promos ->] end.
  repeat match goal with Hi : sql_insert_ignore _ _ _ _ _ = _ |- _ =>
    apply insert_ignore_state in Hi as [? ->] end.
  match goal with Hx : insert_outbox _ _ _ _ _ = _ |- _ => apply insert_outbox_ok in Hx as [Hev Hdb] end.
  unfold order_pending in Hw. bool_inv. simpl in *.
  destruct Hdb as [->| ->]; (split; simpl in *; [by exists o|by exists ca|done|auto|done]).
Qed.

Definition event_present (db : Db) (k : key) : Prop :=
  exists_row (event_recorded k.1 (paid_event_key k.2)) (db_outbox db) = true.

(** Every paid order has its [order.paid] event. *)
Definition paid_events (db : Db) : Prop :=
  forall k o, db_orders db !! k = Some o -> or_status o = OPaid -> event_present db k.

Lemma event_present_evolves `{Policy} db db' k :
  db_checks db -> evolves db db' -> event_present db k -> event_present db' k.
Proof.
  intros [_ _ _ _ _ Cx _] [_ _ _ _ _ Ex _ _ _] (k' & e & Hk & He)%exists_row_true.
  destruct (row_evolve _ _ _ _ _ _ _ Ex (Cx _ _ Hk) Hk) as (e' & Hk' & _ & [Hv _ _ _]).
  apply exists_row_true. exists k', e'. split; [done|]. unfold event_recorded in *.
  by assert (ox_event_key e' = ox_event_key e) as -> by congruence.
Qed.

(** Every transaction but finalization leaves no order newly paid. *)
Definition no_pay `{P : Policy} : Policy := {| drawn := drawn; may_pay := False |}.

#[local] Hint Constructors checkout_txn : checkout.

Lemma step_pays `{P : Policy} db db' :
  checkout_step db db' ->
  (exists order payment p now, finalized order payment p now db db') \/ @checkout_step no_pay db db'.
Proof.
  intros (A & m & env & a & Hm & Hrun).
  destruct Hm; try (right; do 4 eexists; split; [|exact Hrun]; solve [auto 2 with checkout]).
  left. do 4 eexists. by eapply finalize_ok.
Qed.

Lemma step_paid_events `{P : Policy} db db' :
  db_checks db -> paid_events db -> checkout_step db db' -> paid_events db'.
Proof.
  intros Hc Hp Hs k o' Hk Ho'. pose proof (step_evolves _ _ Hs) as He.
  assert (Hold : forall o, db_orders db !! k = Some o -> or_status o = OPaid -> event_present db' k).
  { intros o Hko Ho. eapply event_present_evolves; [done..|]. by eapply Hp. }
  destruct (step_pays _ _ Hs) as [(order & payment & p & now & [(o & Ho & _ & Heq) _ Hev _ _])|Hn].
  - rewrite Heq in Hk. apply lookup_insert_Some in Hk as [[<- _]|[_ Hk]]; [exact Hev|by eapply Hold].
  - pose proof (@step_evolves no_pay _ _ Hn) as [_ _ _ Eo _ _ _ _ _]. specialize (Eo k).
    unfold row_evolves in Eo. rewrite Hk in Eo. destruct (db_orders db !! k) as [o|] eqn:E.
    + destruct Hc as [_ _ _ Co _ _]. destruct (Eo (Co _ _ E)) as [_ Hst].
      destruct (os_paid _ _ Hst Ho') as [Hpaid|[]]. by eapply Hold.
    + destruct Eo as (_ & o & _ & [Hb _] & Hst).
      destruct (os_paid _ _ Hst Ho') as [Hpaid|[]]. congruence.
Qed.

(** no paid order without its event.  If every paid order has its
    [order.paid] event in the outbox, this still holds after any sequence of
    checkout transactions: an order becomes paid only in the transaction that
    writes the event, and events are never removed. *)
Theorem paid_orders_have_events `{P : Policy} (db db' : Db) :
  db_checks db -> paid_events db -> rtc checkout_step db db' -> paid_events db'.
Proof.
  intros Hc Hp Hs. induction Hs as [|db db1 db' Hs _ IH]; [done|].
  apply IH; [by eapply evolves_checks; [apply step_evolves|]|by eapply step_paid_events].
Qed.

Lemma paid_orders_have_events_witness : paid_events paid_db.
Proof.
  apply (@paid_orders_have_events demo_policy fresh_db paid_db).
  - apply checks_pass_all. vm_compute. reflexivity.
  - intros k o Hk. vm_compute in Hk. discriminate.
  - etransitivity; [apply demo_ordered|apply demo_paid].
Defined.
