(* ===== verification/CheckoutOutcomes.v ===== *)
(** What the checkout service's operations achieve: finalization with its
    outbox event, cancellation once everything is compensated, the bounded
    retries and the reconciliations they exhaust, and the publication of
    events. *)

From stdpp Require Import relations.
From S2P Require Import Prelude Proto Propagation Database Runtime CheckoutDomain CheckoutQuote CheckoutRecords CheckoutOrders CheckoutOutbox CheckoutEvolution CheckoutTransactions CheckoutDemo CheckoutInvariants.
Import Schema Transactions Rabbit CheckoutDomain CheckoutQuote CheckoutFence CheckoutCompensation
  CheckoutAttempts CheckoutReconciliation CheckoutOrders CheckoutOutbox CheckoutEvolution CheckoutTransactions
  CheckoutDemo CheckoutInvariants.

(** ** Finalization *)

Lemma finalized_committed order payment p now db db' :
  finalized order payment p now db db' -> finalization_committed db' order = Ok true.
Proof.
  intros [(o & _ & _ & Ho) _ He _ _]. unfold finalization_committed.
  rewrite Ho, lookup_insert_eq. simpl. by rewrite He.
Qed.

(** C9: finalization is all or nothing, and its outcome can be read back.
    When [finalize_order] succeeds, its fence was held, the pending order is
    paid, its active cart is checked out and the [order.paid] event is in the
    outbox; when it fails, nothing has changed, except that a commit whose
    acknowledgement was lost is reported as [finalization_commit_ambiguous] and
    [finalization_committed] then tells that it took effect. *)
Theorem finalize_order_atomic inject fault now c order payment variant trace span f db r db' :
  finalize_order inject fault now c order payment variant trace span f db = (r, db') ->
  match r with
  | Ok _ => fence_held db now f = true
            /\ (exists p, stored_propagation inject c = Ok p /\ finalized order payment p now db db')
            /\ finalization_committed db' order = Ok true
  | Err e => db' = db
             \/ ae_code e = "finalization_commit_ambiguous" /\ finalization_committed db' order = Ok true
  end.
Proof.
  unfold finalize_order. destruct (stored_propagation inject c) as [p|e] eqn:Ep; [|intros [= <- <-]; by left].
  set (env := mkTxenv now db_error (fun _ => false)).
  assert (Hbody : forall u d, finalize_order_tx c order payment variant trace span p f env db = Ok (u, d) ->
    fence_held db now f = true /\ finalized order payment p now db d).
  { intros u d H. split; [|by eapply (finalize_ok _ _ _ _ _ _ _ _ env)].
    unfold finalize_order_tx in H. apply tx_bind_ok in H as ([] & ? & Hl & _).
    by apply checkout_fence_ok in Hl as [_ Hl]. }
  unfold run_tx. fold env.
  destruct fault as [[]|]; try (intros [= <- <-]; by left);
    (destruct (finalize_order_tx _ _ _ _ _ _ _ _ env db) as [[u d]|e] eqn:Eb;
       [destruct (Hbody u d eq_refl) as [Hh Hf]; pose proof (finalized_committed _ _ _ _ _ _ Hf)
       |intros [= <- <-]; by left]);
    intros [= <- <-]; [by left|by right|eauto].
Qed.

Lemma finalize_order_atomic_witness : finalization_committed paid_db demo_order = Ok true.
Proof.
  destruct (finalize_order_atomic sample_inject None (seconds 2) demo_context demo_order "pay-1" "treatment" "" ""
              (Attempt demo_lease) ordered_db (Ok tt) paid_db) as (_ & _ & H).
  - vm_compute. reflexivity.
  - exact H.
Defined.


(** ** Cancellation *)

(** The transactions that cancel an order when its compensation is over. *)
Inductive settling_txn : forall A : Type, Txn ApiError A -> Prop :=
| st_finish task e : settling_txn _ (finish_compensation_task task e)
| st_cancel o f : settling_txn _ (cancel_order_if_compensated o f)
| st_fail job e : settling_txn _ (fail_payment_reconciliation job e).

Definition settled (db : Db) (tenant order : string) : bool :=
  negb (exists_row (open_task tenant order) (db_tasks db)).

Definition settled_order (db : Db) (k : key) : Prop :=
  forall id t, db_tasks db !! (k.1, id) = Some t -> tk_order_id t = k.2 ->
               tk_status t = TCompleted \/ tk_status t = TSuperseded.

Lemma settled_tasks db tenant order :
  settled db tenant order = true -> settled_order db (tenant, order).
Proof.
  unfold settled. intros H id t Ht Ho. bool_inv. apply exists_row_false with (k := (tenant, id)) (v := t) in H; [|done].
  unfold open_task, task_in in H. simpl in *. rewrite Ho, !String.eqb_refl in H. simpl in H.
  bool_inv. set_unfold. naive_solver.
Qed.

(** The guarded cancellation of an order. *)
Lemma cancel_update_settled tenant order current (f : OrderRow -> OrderRow) (env : txenv ApiError) db n db' k o o' :
  sql_update orders (tenant, order) (fun o => order_pending o && current) f env db = Ok (n, db') ->
  db_orders db !! k = Some o -> or_status o = OPending ->
  db_orders db' !! k = Some o' -> or_status o' = OCancelled ->
  current = true /\ k = (tenant, order) /\ db_tasks db' = db_tasks db.
Proof.
  intros [(_ & r & Hr & Hw & ->)|(_ & -> & _)]%sql_update_ok Ho Hp Ho' Hc; simpl in *; [|congruence].
  bool_inv. apply lookup_insert_Some in Ho' as [[<- _]|[_ Ho']]; [done|congruence].
Qed.

(** an order is cancelled only when nothing is left to compensate.  If the
    completion of a task, the final cancellation of a checkout or the failure of
    a reconciliation turns a pending order into a cancelled one, every
    compensation task of that order is completed or superseded; in particular
    a dead-lettered task keeps its order pending. *)
Theorem cancelled_order_compensated {A} (m : Txn ApiError A) env db a db' k o o' :
  settling_txn A m -> m env db = Ok (a, db') ->
  db_orders db !! k = Some o -> or_status o = OPending ->
  db_orders db' !! k = Some o' -> or_status o' = OCancelled -> settled_order db' k.
Proof.
  intros Hm H Ho Hp Ho' Hc. destruct Hm.
  - unfold finish_compensation_task in H. tx_inv.
    match goal with Hl : lock_checkout_fence _ _ _ = _ |- _ => apply checkout_fence_ok in Hl as [-> _] end.
    match goal with Hu : sql_update tasks _ _ _ _ _ = _ |- _ =>
      apply sql_update_one in Hu as (t & _ & _ & ->) end.
    destruct e; tx_inv; [simpl in *; congruence|].
    match goal with Hu : sql_update orders _ _ _ _ _ = _ |- _ =>
      apply (cancel_update_settled _ _ _ _ _ _ _ _ k o o') in Hu as (Hs & -> & Ht); [|assumption..] end.
    unfold settled_order. rewrite Ht. apply andb_true_iff in Hs as [Hs _]. by apply settled_tasks.
  - unfold cancel_order_if_compensated in H. tx_inv.
    match goal with Hl : lock_checkout_fence _ _ _ = _ |- _ => apply checkout_fence_ok in Hl as [-> _] end.
    match goal with Hu : sql_update orders _ _ _ _ _ = _ |- _ =>
      apply (cancel_update_settled _ _ _ _ _ _ _ _ k o o') in Hu as (Hs & -> & Ht); [|assumption..] end.
    unfold settled_order. rewrite Ht. apply andb_true_iff in Hs as [Hs _]. by apply settled_tasks.
  - unfold fail_payment_reconciliation, update_job in H. tx_inv.
    match goal with Hl : lock_checkout_fence _ _ _ = _ |- _ => apply checkout_fence_ok in Hl as [-> _] end.
    match goal with Hu : sql_update recons _ _ _ _ _ = _ |- _ =>
      apply sql_update_one in Hu as (r & _ & _ & ->) end.
    match goal with Hu : sql_update attempts _ _ _ _ _ = Ok (?n, ?d) |- _ =>
      assert (He : db_orders d = db_orders db /\ db_tasks d = db_tasks db)
        by (apply sql_update_ok in Hu as [(_ & r' & _ & _ & ->)|(_ & -> & _)]; done) end.
    destruct He as [Heo Het].
    match goal with Hi : (if _ then _ else _) _ ?d = Ok (_, ?d') |- _ =>
      assert (d' = d) as -> by (unfold attempt_status_of in Hi; destruct (negb _); by tx_inv) end.
    rewrite <- Heo in Ho. simpl in Ho'.
    match goal with Hu : sql_update orders _ _ _ _ _ = _ |- _ =>
      apply (cancel_update_settled _ _ _ _ _ _ _ _ k o o') in Hu as (Hs & -> & Ht); [|assumption..] end.
    unfold settled_order. simpl. rewrite Ht. by apply settled_tasks.
Qed.

Lemma cancelled_order_compensated_witness : settled_order cancelled_db ("acme", "order-u-2").
Proof.
  destruct (db_orders ordered_db !! ("acme", "order-u-2")) as [o|] eqn:Ho; [|vm_compute in Ho; discriminate].
  destruct (db_orders cancelled_db !! ("acme", "order-u-2")) as [o'|] eqn:Ho'; [|vm_compute in Ho'; discriminate].
  apply (cancelled_order_compensated cancel_demo (demo_env (seconds 2)) ordered_db tt cancelled_db
           ("acme", "order-u-2") o o').
  - constructor.
  - vm_compute. reflexivity.
  - exact Ho.
  - vm_compute in Ho. injection Ho as <-. reflexivity.
  - exact Ho'.
  - vm_compute in Ho'. injection Ho' as <-. reflexivity.
Defined.


(** ** Bounded retries *)

(** Retries back off within bounds.  The delay before the next attempt of
    a compensation task or of a payment poll grows with the number of attempts,
    is two seconds at least and 256 seconds at most; the delay of an outbox
    event is between one and thirty seconds, two per attempt in that range; the
    delay of the RabbitMQ supervisor never exceeds thirty seconds.  No attempt
    counter, however large, overflows the computation. *)
Theorem backoff_bounded (attempts attempts' : Z) :
  seconds 2 <= retry_delay COMPENSATION_RETRY_BASE attempts <= seconds 256
  /\ (attempts <= attempts' ->
      retry_delay COMPENSATION_RETRY_BASE attempts <= retry_delay COMPENSATION_RETRY_BASE attempts')
  /\ (1 <= attempts <= 8 -> retry_delay PAYMENT_RECONCILIATION_RETRY_BASE attempts = seconds (2 ^ attempts))
  /\ 1 <= outbox_retry_delay attempts <= 30
  /\ (1 <= attempts <= 15 -> outbox_retry_delay attempts = 2 * attempts)
  /\ (forall connected delay, delay <= RABBIT_RECONNECT_MAX_DELAY ->
      supervisor_delay connected delay <= RABBIT_RECONNECT_MAX_DELAY).
Proof.
  assert (Hpow : forall n, retry_delay 2 n = seconds (2 ^ clamp n 1 8)).
  { intros n. unfold retry_delay. f_equal. unfold i32_saturating_pow, i32_saturate.
    assert (Hc : 1 <= clamp n 1 8 <= 8) by (unfold clamp; lia).
    assert (H1 : 2 ^ 1 <= 2 ^ clamp n 1 8) by (apply Z.pow_le_mono_r; lia).
    assert (H2 : 2 ^ clamp n 1 8 <= 2 ^ 8) by (apply Z.pow_le_mono_r; lia).
    unfold i32_min, i32_max. lia. }
  unfold COMPENSATION_RETRY_BASE, PAYMENT_RECONCILIATION_RETRY_BASE, seconds. split_and!.
  - rewrite Hpow. unfold seconds. apply Z.mul_le_mono_nonneg_r; [lia|].
    apply (Z.pow_le_mono_r 2 1); unfold clamp; lia.
  - rewrite Hpow. unfold seconds. apply Z.mul_le_mono_nonneg_r; [lia|].
    apply (Z.pow_le_mono_r 2 _ 8); unfold clamp; lia.
  - intros Hle. rewrite !Hpow. unfold seconds. apply Z.mul_le_mono_nonneg_r; [lia|].
    apply Z.pow_le_mono_r; unfold clamp; lia.
  - intros Hb. rewrite Hpow. unfold seconds. f_equal. f_equal. unfold clamp. lia.
  - unfold outbox_retry_delay, clamp. lia.
  - unfold outbox_retry_delay, clamp. lia.
  - intros Hb. unfold outbox_retry_delay, i32_saturating_mul, i32_saturate, clamp, i32_min, i32_max,
      OUTBOX_RETRY_BASE_SECONDS. lia.
  - intros connected delay Hd. unfold supervisor_delay. destruct connected; [|lia].
    unfold RABBIT_RECONNECT_MIN_DELAY, RABBIT_RECONNECT_MAX_DELAY, seconds. lia.
Qed.

(** ** Exhausted reconciliations *)

(** A reconciliation that used its eight polls is never polled again by the
    checkout service on its own.  Whatever its transactions do afterwards, the
    retries of the request that wake it included, the row stays [queued] or
    [awaiting_provider] and no claim returns it: waking queues the row without
    giving it a new budget.  The payment service, which resets the count when the
    provider decides, is what makes such a row claimable again. *)
Theorem exhausted_reconciliation_stuck `{Policy} db db' k r :
  db_checks db -> db_recons db !! k = Some r ->
  PAYMENT_RECONCILIATION_MAX_ATTEMPTS <= rc_attempts r -> recon_waiting r ->
  rtc checkout_step db db' ->
  (exists r', db_recons db' !! k = Some r' /\ recon_waiting r')
  /\ (forall token env job db'', claim_payment_reconciliation token env db' = Ok (Some job, db'') ->
      (rj_tenant_id job, rj_request_id job) <> k).
Proof.
  intros [_ Cr _ _ _ _] Hk Hn Hw [_ Er _ _ _ _ _ _ _]%steps_evolve.
  destruct (row_evolve _ _ _ _ _ _ _ Er (Cr _ _ Hk) Hk) as (r' & Hk' & _ & Hst). split.
  { exists r'. split; [done|]. by apply (rs_exhausted _ _ Hst). }
  intros token env job db'' Hclaim. unfold claim_payment_reconciliation in Hclaim.
  apply tx_bind_ok in Hclaim as (found & d & [= Hf <-] & Hclaim).
  destruct found as [[[t q] r0]|]; [|by apply tx_ret_ok in Hclaim as [? _]].
  apply first_by_some in Hf as [Hk0 Hc]. 
  apply tx_bind_ok in Hclaim as (? & ? & _ & [[= ->] ->]%tx_ret_ok). simpl. intros <-. rewrite Hk' in Hk0. injection Hk0 as <-.
  unfold recon_claimable in Hc. bool_inv. pose proof (rs_attempts _ _ Hst). lia.
Qed.

(** The request retries and wakes the exhausted job: it is still not claimed. *)
Lemma exhausted_reconciliation_stuck_witness :
  let woken := after (queue_reconciliation "acme" "req-1") (seconds 9) polled_db in
  rc_status <$> db_recons woken !! ("acme", "req-1") = Some RQueued
  /\ forall token env job db'', claim_payment_reconciliation token env woken = Ok (Some job, db'') ->
     (rj_tenant_id job, rj_request_id job) <> ("acme", "req-1").
Proof.
  intros woken. split; [vm_compute; reflexivity|].
  apply (@exhausted_reconciliation_stuck demo_policy polled_db woken ("acme", "req-1") demo_recon).
  - apply checks_pass_all. vm_compute. reflexivity.
  - vm_compute. reflexivity.
  - vm_compute. discriminate.
  - by right.
  - eapply (@step_runs demo_policy _ (queue_reconciliation "acme" "req-1") (demo_env (seconds 9)));
      [constructor|]. vm_compute. reflexivity.
Defined.


(** ** Publication *)

Lemma dead_letter_claimable now e :
  outbox_exhausted now e = true -> outbox_claimable now (dead_letter_event now e) = false.
Proof.
  unfold outbox_claimable, claim_expired, outbox_in, dead_letter_event. simpl. intros _. compute_decide.
  by rewrite andb_false_r.
Qed.

(** The event a claim takes was claimable before the claim. *)
Lemma claim_outbox_ok token env db o db' :
  claim_outbox_tx token env db = Ok (Some o, db') ->
  exists e, db_outbox db !! (ob_tenant_id o, ob_id o) = Some e /\ outbox_claimable (te_now env) e = true
  /\ ob_row o = claimed_event token (te_now env) e /\ ob_claim_token o = token.
Proof.
  unfold claim_outbox_tx. intros H. tx_inv.
  match goal with Hu : sql_update_where _ _ _ _ _ = _ |- _ => apply sql_update_where_ok in Hu as [_ ->] end.
  match goal with Hf : sql_first_unlocked _ _ _ _ _ = _ |- _ => injection Hf as Hf <- end.
  match goal with Hf : first_by _ _ _ = ?x |- _ => destruct x as [[[t q] e]|]; [|by tx_inv] end.
  tx_inv. match goal with Hr : tx_ret _ _ _ = Ok _ |- _ => apply tx_ret_ok in Hr as [[= ->] ->] end.
  match goal with Hf : first_by _ _ _ = _ |- _ => apply first_by_some in Hf as [Hk Hw] end.
  simpl in *. rewrite map_lookup_imap in Hk. destruct (db_outbox db !! (t, q)) as [e0|]; [|done].
  simpl in Hk. bool_inv. destruct (outbox_exhausted (te_now env) e0) eqn:Ex; injection Hk as <-.
  - rewrite dead_letter_claimable in * by done. done.
  - by exists e0.
Qed.

(** An event counts as published only when the broker routed it.  When a
    round of the publisher answers [true], it had claimed a claimable event, the
    message it sent carried that event's stored payload and was acknowledged
    without being returned, and the claim was still owned and unexpired when the
    row was marked [published], whatever other transactions did in between. *)
Theorem published_means_routed extract inject iso read json_bytes current connect broker rb
    claim_fault settle_fault now1 now2 locked token meanwhile db db' :
  publish_one_outbox claim_fault settle_fault now1 now2 locked token
    (fun o => (publish_outbox_message extract inject iso read json_bytes current connect broker o rb).1)
    meanwhile db = (Ok true, db') ->
  exists db1, (claim_outbox_event claim_fault now1 locked token db).2 = db1 /\
  exists o context payload body e e',
    (exists e0, db_outbox db !! (ob_tenant_id o, ob_id o) = Some e0 /\ outbox_claimable now1 e0 = true
       /\ ob_row o = claimed_event token now1 e0)
    /\ read (ox_payload (ob_row o)) = Ok payload
    /\ json_bytes (event_envelope (iso (ox_occurred_at (ob_row o))) o payload) = Ok body
    /\ broker (event_message inject o context body) = Confirmed (Ack false)
    /\ db_outbox (meanwhile db1) !! (ob_tenant_id o, ob_id o) = Some e
    /\ claim_owned token now2 e = true
    /\ db_outbox db' !! (ob_tenant_id o, ob_id o) = Some e' /\ e' = published_event now2 e.
Proof.
  unfold publish_one_outbox. destruct (claim_outbox_event _ _ _ _ _) as [[[o|]|e] db1] eqn:Hce; try done.
  destruct (db_run _ _ _ _ _) as [[u|e] db2] eqn:Hs; [|done].
  destruct (publish_outbox_message _ _ _ _ _ _ _ _ _ _) as [pr rb'] eqn:Hp; simpl in *.
  destruct pr as [[]|e]; [|done]. intros [= <-].
  pose proof Hce as Hc. unfold claim_outbox_event in Hc. apply run_tx_ok in Hc as [_ Hc].
  unfold db_run in Hs. apply run_tx_ok in Hs as [_ Hs]. unfold settle_outbox in Hs. tx_inv.
  match goal with Hu : sql_update outbox _ _ _ _ _ = _ |- _ =>
    apply sql_update_one in Hu as (e & He & Hw & ->) end.
  exists db1. split; [done|].
  unfold publish_outbox_message in Hp. repeat case_any; simplify_eq.
  all: try (by unfold require_routed_confirmation in *; repeat case_any).
  res_inv. match goal with Hq : require_routed_confirmation ?q = Ok _ |- _ =>
    assert (q = Ack false) as -> by (unfold require_routed_confirmation in Hq; by repeat case_any) end.
  apply claim_outbox_ok in Hc as (e0 & Hk0 & Hw0 & Hr0 & Ht). subst token.
  destruct (read (ox_payload (ob_row o))) as [payload|] eqn:Er; simpl in *; [simplify_eq|done].
  exists o. do 3 eexists. exists e. eexists.
  split_and!; [by exists e0|exact Er|eassumption|eassumption|exact He|exact Hw| |reflexivity].
  simpl. by rewrite lookup_insert_eq.
Qed.

Lemma published_means_routed_witness :
  exists o, (exists e0, db_outbox paid_db !! (ob_tenant_id o, ob_id o) = Some e0
               /\ outbox_claimable (seconds 4) e0 = true)
    /\ exists e', db_outbox published_db !! (ob_tenant_id o, ob_id o) = Some e'.
Proof.
  destruct (published_means_routed (fun _ => demo_context) sample_inject show_Z Ok (fun _ => Ok "{}")
              demo_context (Ok tt) (fun _ => Confirmed (Ack false)) init_rabbit None None (seconds 4)
              (seconds 5) (fun _ => false) "claim-1" (fun db => db) paid_db published_db)
    as (db1 & _ & o & c & pl & body & e & e' & (e0 & He0 & Hc & _) & _ & _ & _ & _ & _ & He' & _).
  - vm_compute. reflexivity.
  - exists o. split; [exists e0; exact (conj He0 Hc)|exists e'; exact He'].
Defined.
