(* ===== verification/CheckoutOrderCreation.v ===== *)
(** The creation of the durable order: what a created order records, and that
    creating it again answers the same order. *)

From S2P Require Import Prelude Proto Propagation Database CheckoutDomain CheckoutQuote CheckoutRecords CheckoutOrders CheckoutEvolution CheckoutTransactions CheckoutDemo CheckoutInvariants.
Import Schema Transactions CheckoutDomain CheckoutQuote CheckoutFence CheckoutAttempts CheckoutOrders
  CheckoutEvolution CheckoutTransactions CheckoutDemo CheckoutInvariants.

(** UNIQUE (tenant_id, checkout_request_id) on [orders] *)
Definition orders_unique (db : Db) : Prop :=
  forall k1 k2 o1 o2 r, db_orders db !! k1 = Some o1 -> db_orders db !! k2 = Some o2 -> k1.1 = k2.1 ->
    or_checkout_request_id o1 = Some r -> or_checkout_request_id o2 = Some r -> k1 = k2.

Lemma find_order_some db tenant request k o :
  find_order db tenant request = Some (k, o) ->
  db_orders db !! k = Some o /\ k.1 = tenant /\ or_checkout_request_id o = Some request.
Proof.
  intros [Hin Hw]%find_some. simpl in Hw. bool_inv. apply opt_is_true in H0.
  apply list_elem_of_In, elem_of_map_to_list in Hin. done.
Qed.

Lemma find_order_unique db tenant request id o :
  orders_unique db -> db_orders db !! (tenant, id) = Some o -> or_checkout_request_id o = Some request ->
  find_order db tenant request = Some ((tenant, id), o).
Proof.
  intros Hu Ho Hr. destruct (find_order db tenant request) as [[k o']|] eqn:Ef.
  - apply find_order_some in Ef as (Hk & Ht & Hr').
    assert (k = (tenant, id)) as -> by (by eapply Hu). congruence.
  - unfold find_order in Ef. apply find_none with (x := ((tenant, id), o)) in Ef.
    + simpl in Ef. rewrite String.eqb_refl in Ef. simpl in Ef.
      apply not_true_iff_false in Ef. by rewrite opt_is_true in Ef.
    + by apply list_elem_of_In, elem_of_map_to_list.
Qed.

Lemma find_order_none db tenant request k o :
  find_order db tenant request = None -> db_orders db !! k = Some o -> k.1 = tenant ->
  or_checkout_request_id o <> Some request.
Proof.
  intros Hf Ho Ht Hr. unfold find_order in Hf. apply find_none with (x := (k, o)) in Hf.
  - simpl in Hf. rewrite Ht, String.eqb_refl in Hf. simpl in Hf.
    apply not_true_iff_false in Hf. by rewrite opt_is_true in Hf.
  - by apply list_elem_of_In, elem_of_map_to_list.
Qed.

(** The durable order of a request, as the pending order describes it. *)
Record order_stored (db : Db) (input : CheckoutInput) (session : string) (lease : CheckoutLease)
    (p : PendingOrder) : Prop := {
  so_order : exists o lines cart,
    db_orders db !! (in_tenant_id input, pd_id p) = Some o
    /\ or_checkout_request_id o = Some (cl_request_id lease)
    /\ or_customer_id o = Some (in_customer_id input)
    /\ or_currency o = in_currency_code input
    /\ or_cart_id o = Some cart
    /\ order_session db (in_tenant_id input) o = Some session
    /\ (forall e, map_res (stored_line e) (or_items o) = Ok lines)
    /\ p = stored_order (in_tenant_id input) (pd_id p) cart (in_customer_id input) session lines o;
  so_attempt : exists a,
    db_attempts db !! (in_tenant_id input, cl_request_id lease) = Some a
    /\ at_lease_token a = cl_token lease /\ at_status a = AStarted /\ at_order_id a = Some (pd_id p)
}.

(** ** Resuming *)

Lemma link_ok tenant request token id m env db u db' :
  link_attempt tenant request token id m env db = Ok (u, db') ->
  (exists a, db_attempts db' !! (tenant, request) = Some a
     /\ at_lease_token a = token /\ at_status a = AStarted /\ at_order_id a = Some id)
  /\ exists t, db' = set_attempts t db.
Proof.
  unfold link_attempt. intros H. tx_inv.
  match goal with Hu : sql_update attempts _ _ _ _ _ = _ |- _ =>
    apply sql_update_one in Hu as (a & _ & Hw & ->) end.
  unfold attempt_is, attempt_in in Hw. bool_inv. set_unfold. split; [|by eexists].
  eexists. simpl. rewrite lookup_insert_eq. split; [done|]. naive_solver.
Qed.

Lemma link_run tenant request token id m (env : txenv ApiError) db a :
  db_attempts db !! (tenant, request) = Some a -> at_lease_token a = token -> at_status a = AStarted ->
  at_order_id a = None \/ at_order_id a = Some id ->
  exists t, link_attempt tenant request token id m env db = Ok (tt, set_attempts t db).
Proof.
  intros Ha Ht Hs Ho. unfold link_attempt. tx_run. eexists.
  erewrite tx_bind_run; [|eapply sql_update_run; [exact Ha|]]; [done|].
  unfold attempt_is, attempt_in. rewrite Ht, Hs, String.eqb_refl.
  destruct Ho as [-> | ->]; simpl; [done|]. by rewrite String.eqb_refl.
Qed.

Lemma create_again input quote session lease p cu ou env db :
  orders_unique db -> order_stored db input session lease p ->
  exists t, create_pending_order_tx input quote session lease cu ou env db = Ok (Ok p, set_attempts t db).
Proof.
  intros Hu [(o & lines & cart & Ho & Hr & Hcu & Hcur & Hcart & Hses & Hlines & Hp) (a & Ha & Ht & Hs & Hl)].
  unfold create_pending_order_tx. tx_run. rewrite (find_order_unique _ _ _ _ _ Hu Ho Hr).
  unfold resume_order. tx_run. rewrite Hses, Hcu, Hcur. simpl. rewrite !String.eqb_refl. simpl. tx_run.
  rewrite Hlines. tx_run.
  destruct (link_run _ _ (cl_token lease) (pd_id p) "checkout attempt is not linked to its durable order" env db a Ha Ht Hs)
    as [t Hrun]; [by right|].
  exists t. erewrite tx_bind_run by (simpl; exact Hrun).
  rewrite Hcart. unfold tx_ret. simpl. by rewrite <- Hp.
Qed.

(** ** A new order *)

Lemma insert_cart_ok input session cart (env : txenv ApiError) db u db' :
  insert_cart input session cart env db = Ok (u, db') -> exists t, db' = set_carts t db.
Proof.
  unfold insert_cart. intros H. tx_inv. destruct (exists_row _ _); tx_inv.
  - exists (db_carts db). by destruct db.
  - match goal with Hi : sql_insert_ignore _ _ _ _ _ = _ |- _ =>
      apply sql_insert_ignore_ok in Hi as [(_ & _ & ->)|(_ & _ & ->)] end; [by eexists|].
    exists (db_carts db). by destruct db.
Qed.

Lemma check_cart_ok input session cart (env : txenv ApiError) db u db' :
  check_cart input session cart env db = Ok (u, db') ->
  db' = db /\ exists c, db_carts db !! (in_tenant_id input, cart) = Some c
    /\ ca_session_id c = Some session /\ ca_status c = CActive /\ ca_customer_id c = Some (in_customer_id input).
Proof.
  unfold check_cart. intros H. tx_inv. destruct (ca_session_id _) as [s|] eqn:Es; [|by tx_inv]. tx_inv.
  bool_inv. rewrite opt_is_true in *. split; [done|]. eexists. split_and!; [done| |done|done]. by subst.
Qed.

Lemma upsert_cart_items_ok tenant cart lines (env : txenv ApiError) db u db' :
  upsert_cart_items tenant cart lines env db = Ok (u, db') ->
  exists t, db' = set_carts t db
    /\ forall k, ca_session_id <$> t !! k = ca_session_id <$> db_carts db !! k.
Proof.
  revert db. induction lines as [|line lines IH]; intros db; simpl; intros H; tx_inv.
  - exists (db_carts db). by destruct db.
  - match goal with Hi : item_amounts _ _ _ = _ |- _ => apply item_amounts_check in Hi as (-> & _) end.
    match goal with Hi : upsert_cart_items _ _ _ _ _ = _ |- _ => apply IH in Hi as (t & -> & Ht) end.
    match goal with Hu : sql_update carts _ _ _ _ _ = _ |- _ =>
      apply sql_update_ok in Hu as [(_ & c & Hc & _ & ->)|(_ & -> & _)] end; [|by exists t].
    exists t. split; [done|]. intros k. rewrite Ht. simpl in *.
    destruct (decide (k = (tenant, cart))) as [->|Hne]; [rewrite lookup_insert_eq, Hc|rewrite lookup_insert_ne]; done.
Qed.

(** The line of an item keeps the item's SKU and quantity at the quoted price. *)
Definition line_of (quote : QuoteResponse) (item : CheckoutItemInput) (line : OrderLine) : Prop :=
  ln_sku line = ii_sku item /\ ln_quantity line = ii_quantity item
  /\ exists l, In l (qp_lines quote) /\ ql_sku l = ii_sku item
     /\ amount_minor <$> ql_unit_price l = Some (ln_unit_price_minor line).

Lemma order_line_ok quote item row line :
  order_line quote item row = Ok line -> line_of quote item line.
Proof.
  unfold order_line. intros H. res_inv.
  match goal with Hf : List.find _ _ = Some _ |- _ => apply find_some in Hf as [Hin Hs] end. bool_inv.
  split_and!; [done..|]. eexists. by split_and!.
Qed.

Lemma order_lines_ok input quote items (env : txenv ApiError) db lines db' :
  order_lines input quote items env db = Ok (lines, db') ->
  db' = db /\ Forall2 (line_of quote) items lines.
Proof.
  revert db lines. induction items as [|item items IH]; intros db lines; simpl; intros H; tx_inv; [done|].
  match goal with Hi : order_lines _ _ _ _ _ = _ |- _ => apply IH in Hi as [-> Hall] end.
  split; [done|]. constructor; [by eapply order_line_ok|done].
Qed.

Lemma insert_order_ok tenant id o (env : txenv ApiError) db u db' :
  insert_order tenant id o env db = Ok (u, db') ->
  db' = set_orders (<[(tenant, id) := o]> (db_orders db)) db
  /\ db_orders db !! (tenant, id) = None /\ order_balanced o = true
  /\ forall k o', db_orders db !! k = Some o' -> k.1 = tenant ->
       forall r, or_checkout_request_id o = Some r -> or_checkout_request_id o' <> Some r.
Proof.
  unfold insert_order. intros H. tx_inv. destruct (exists_row _ _) eqn:Ex; tx_inv.
  case_any; [by tx_inv|]. bool_inv. tx_inv. split_and!; [done..|].
  intros k o' Hk Ht r Hr Hr'. rewrite exists_row_false in Ex. specialize (Ex k o' Hk).
  rewrite Ht, String.eqb_refl, Hr in Ex. simpl in Ex. bool_inv.
  rewrite <- not_true_iff_false, opt_is_true in *. done.
Qed.

Definition with_items (lines : list OrderLine) (o : OrderRow) : OrderRow :=
  foldl (fun o line => add_order_item line o) o lines.

Lemma insert_order_items_ok tenant id lines (env : txenv ApiError) db u db' o :
  insert_order_items tenant id lines env db = Ok (u, db') -> db_orders db !! (tenant, id) = Some o ->
  db' = set_orders (<[(tenant, id) := with_items lines o]> (db_orders db)) db
  /\ Forall (fun l => fits_i32 (ln_quantity l) = true) lines.
Proof.
  revert db o. induction lines as [|line lines IH]; intros db o; simpl; intros H Ho; tx_inv.
  - rewrite insert_id by done. by destruct db.
  - match goal with Hi : item_amounts _ _ _ = _ |- _ => apply item_amounts_check in Hi as (-> & Hfit & _) end.
    match goal with Hu : sql_update orders _ _ _ _ _ = Ok (?n, _) |- _ =>
      apply sql_update_ok in Hu as [(-> & o0 & Ho0 & _ & ->)|(-> & -> & _)] end; [|by tx_inv].
    simpl in *. rewrite Ho in Ho0. injection Ho0 as <-.
    match goal with Hi : insert_order_items _ _ _ _ _ = _ |- _ => eapply IH in Hi as [Hi Hall]; [|simpl; by rewrite lookup_insert_eq] end.
    subst. simpl. rewrite insert_insert_eq. split; [done|]. by constructor.
Qed.

(** Reading the items of an order back gives its lines. *)
Lemma stored_lines_back e lines :
  Forall (fun l => fits_u32 (ln_quantity l) = true) lines ->
  map_res (stored_line e) (map order_item lines) = Ok lines.
Proof.
  induction 1 as [|l lines Hl _ IH]; simpl; [done|].
  unfold stored_line at 1. simpl. rewrite Hl. simpl. rewrite IH. simpl. by destruct l.
Qed.

Lemma stored_lines_any e e' items lines :
  map_res (stored_line e) items = Ok lines -> map_res (stored_line e') items = Ok lines.
Proof.
  revert lines. induction items as [|i items IH]; intros lines; simpl; [done|].
  unfold stored_line at 1 3. destruct (fits_u32 _); simpl; [|done].
  destruct (map_res (stored_line e) items); simpl; [|done]. intros [= <-].
  by rewrite (IH _ eq_refl).
Qed.

Lemma lines_unsigned quote items lines :
  Forall (fun i => 0 <= ii_quantity i) items -> Forall2 (line_of quote) items lines ->
  Forall (fun l => fits_i32 (ln_quantity l) = true) lines ->
  Forall (fun l => fits_u32 (ln_quantity l) = true) lines.
Proof.
  intros Hq Hall. revert Hq. induction Hall as [|i l items lines (_ & Hn & _) _ IH]; intros Hq Hf; [done|].
  inversion Hq; inversion Hf; subst. constructor; [|by apply IH].
  unfold fits_i32, fits_u32, i32_max, u32_max in *. bool_inv. apply andb_true_intro. split; apply Z.leb_le; lia.
Qed.


(** What a fresh order records. *)
Record order_fresh (db : Db) (input : CheckoutInput) (quote : QuoteResponse) (p : PendingOrder) : Prop := {
  of_pending : or_status <$> db_orders db !! (in_tenant_id input, pd_id p) = Some OPending;
  of_totals : quote_totals input quote
    = Ok (mkQuoteTotals (pd_subtotal_minor p) (pd_discount_minor p) (pd_tax_minor p) (pd_total_minor p));
  of_lines : Forall2 (line_of quote) (in_items input) (pd_lines p)
}.

Lemma orders_unique_insert db tenant id o :
  orders_unique db ->
  (forall k o', db_orders db !! k = Some o' -> k.1 = tenant ->
     forall r, or_checkout_request_id o = Some r -> or_checkout_request_id o' <> Some r) ->
  orders_unique (set_orders (<[(tenant, id) := o]> (db_orders db)) db).
Proof.
  intros Hu Hn k1 k2 o1 o2 r H1 H2 Hk Hr1 Hr2. simpl in *.
  apply lookup_insert_Some in H1 as [[<- <-]|[N1 H1]];
    apply lookup_insert_Some in H2 as [[<- <-]|[N2 H2]]; [done| | |by eapply Hu].
  - exfalso. by apply (Hn _ _ H2 (eq_sym Hk) r).
  - exfalso. by apply (Hn _ _ H1 Hk r).
Qed.

Lemma i32_amount_id n m : i32_amount n = Ok m -> m = n.
Proof. unfold i32_amount. case_any; [by intros [= <-]|done]. Qed.

(** The database of a successful [new_order]: the row with its items, over
    carts that still hold the session's cart. *)
Lemma new_order_steps input quote session lease cu ou (env : txenv ApiError) db r db' :
  new_order input quote session lease cu ou env db = Ok (r, db') ->
  exists totals lines t a,
    let cart := default ("cart-" +:+ cu) (in_cart_id input) in
    let o := new_order_row input cart (order_number_of (in_tenant_id input) ou)
               (cl_request_id lease) totals (te_now env) in
    r = Ok {| pd_id := "order-" +:+ ou; pd_order_number := or_order_number o; pd_cart_id := cart;
              pd_tenant_id := in_tenant_id input; pd_customer_id := in_customer_id input;
              pd_session_id := session; pd_currency := in_currency_code input; pd_lines := lines;
              pd_subtotal_minor := qt_subtotal totals; pd_discount_minor := qt_discount totals;
              pd_tax_minor := qt_tax totals; pd_total_minor := qt_total totals;
              pd_promotion_code := in_promotion_code input |}
    /\ quote_totals input quote = Ok totals
    /\ Forall2 (line_of quote) (in_items input) lines
    /\ Forall (fun l => fits_i32 (ln_quantity l) = true) lines
    /\ (db_carts db' !! (in_tenant_id input, cart) ≫= ca_session_id) = Some session
    /\ (forall k o', db_orders db !! k = Some o' -> k.1 = in_tenant_id input ->
          forall r, or_checkout_request_id o = Some r -> or_checkout_request_id o' <> Some r)
    /\ db' = set_attempts a (set_orders
                (<[(in_tenant_id input, "order-" +:+ ou) := with_items lines o]> (db_orders db))
                (set_carts t db))
    /\ exists at_, db_attempts db' !! (in_tenant_id input, cl_request_id lease) = Some at_
         /\ at_lease_token at_ = cl_token lease /\ at_status at_ = AStarted
         /\ at_order_id at_ = Some ("order-" +:+ ou).
Proof.
  unfold new_order. intros H. tx_inv.
  repeat match goal with Hi : i32_amount _ = Ok _ |- _ => apply i32_amount_id in Hi; subst end.
  match goal with Hi : insert_cart _ _ _ _ _ = _ |- _ => apply insert_cart_ok in Hi as [t1 ->] end.
  match goal with Hi : check_cart _ _ _ _ _ = _ |- _ => apply check_cart_ok in Hi as (-> & c & Hc & Hses & _) end.
  match goal with Hi : order_lines _ _ _ _ _ = _ |- _ => apply order_lines_ok in Hi as [-> Hlines] end.
  match goal with Hi : upsert_cart_items _ _ _ _ _ = _ |- _ => apply upsert_cart_items_ok in Hi as (t2 & -> & Ht2) end.
  match goal with Hi : insert_order _ _ _ _ _ = _ |- _ => apply insert_order_ok in Hi as (-> & _ & _ & Hfresh) end.
  match goal with Hi : insert_order_items _ _ _ _ _ = _ |- _ =>
    eapply insert_order_items_ok in Hi; [|apply lookup_insert_eq]; destruct Hi as [-> Hfit] end.
  match goal with Hi : link_attempt _ _ _ _ _ _ _ = _ |- _ => apply link_ok in Hi as [Hat [a ->]] end.
  match goal with Ht : quote_totals _ _ = Ok ?x |- _ => exists x; destruct x as [qs qd qx qt] end.
  simpl in *. eexists _, t2, a. split_and!; try done.
  - specialize (Ht2 (in_tenant_id input, default ("cart-" +:+ cu) (in_cart_id input))).
    rewrite Hc in Ht2. simpl in Ht2. destruct (t2 !! _); [|done]. simpl in *. congruence.
  - unfold set_attempts, set_orders, set_carts. simpl. by rewrite insert_insert_eq.
Qed.

Lemma with_items_row lines o :
  with_items lines o
  = mkOrder (or_customer_id o) (or_cart_id o) (or_order_number o) (or_status o) (or_currency o)
      (or_subtotal_minor o) (or_discount_minor o) (or_tax_minor o) (or_shipping_minor o)
      (or_total_minor o) (or_checkout_request_id o) (or_promotion_code o) (or_placed_at o)
      (or_items o ++ map order_item lines) (or_created o) (or_updated o).
Proof.
  revert o. induction lines as [|line lines IH]; intros o; simpl; [rewrite app_nil_r; by destruct o|].
  rewrite IH. simpl. by rewrite <- app_assoc.
Qed.

Lemma new_order_ok input quote session lease cu ou (env : txenv ApiError) db r db' :
  new_order input quote session lease cu ou env db = Ok (r, db') ->
  orders_unique db -> Forall (fun i => 0 <= ii_quantity i) (in_items input) ->
  exists p, r = Ok p /\ orders_unique db' /\ order_stored db' input session lease p
    /\ order_fresh db' input quote p.
Proof.
  intros H Hu Hq. apply new_order_steps in H as (totals & lines & t & a & -> & Ht & Hl & Hfit & Hses & Hfresh & -> & Hat).
  rewrite with_items_row in *. eexists. split; [done|]. split_and!.
  - refine (orders_unique_insert db _ _ _ Hu _). exact Hfresh.
  - split; [|exact Hat]. simpl. rewrite lookup_insert_eq. eexists _, lines, _. split_and!; try done.
    intros e. apply stored_lines_back. by eapply lines_unsigned.
  - split; simpl; [by rewrite lookup_insert_eq| |done]. by destruct totals.
Qed.

Lemma resume_order_ok input session lease id o (env : txenv ApiError) db r db' p :
  resume_order input session lease id o env db = Ok (r, db') -> r = Ok p ->
  db_orders db !! (in_tenant_id input, id) = Some o ->
  or_checkout_request_id o = Some (cl_request_id lease) ->
  order_stored db' input session lease p /\ db_orders db' = db_orders db.
Proof.
  unfold resume_order. intros H -> Ho Hr. tx_inv. bool_inv. rewrite opt_is_true in *.
  match goal with Hi : link_attempt _ _ _ _ _ _ _ = _ |- _ => apply link_ok in Hi as [Hat [a ->]] end.
  destruct (or_cart_id o) as [cart|] eqn:Ecart; [|by apply tx_ret_ok in H3 as [? _]].
  match goal with Hm : map_res _ _ = Ok ?l |- _ => rename Hm into Hm, l into lines end.
  apply tx_ret_ok in H3 as [[= ->] ->]. split; [|done]. split; [|exact Hat]. exists o, lines, cart. split_and!; try done.
  intros e. by eapply stored_lines_any.
Qed.

Lemma create_order_ok input quote session lease cu ou (env : txenv ApiError) db p db' :
  create_pending_order_tx input quote session lease cu ou env db = Ok (Ok p, db') ->
  orders_unique db -> Forall (fun i => 0 <= ii_quantity i) (in_items input) ->
  orders_unique db' /\ order_stored db' input session lease p
  /\ (find_order db (in_tenant_id input) (cl_request_id lease) = None -> order_fresh db' input quote p).
Proof.
  unfold create_pending_order_tx. intros H Hu Hq. tx_inv.
  destruct (find_order _ _ _) as [[[t id] o]|] eqn:Ef.
  - apply find_order_some in Ef as (Ho & Ht & Hr). simpl in Ht. subst t.
    match goal with Hi : resume_order _ _ _ _ _ _ _ = _ |- _ => eapply resume_order_ok in Hi as [Hs Heq]; try done end. split_and!; [|done|done].
    intros k1 k2 o1 o2 r. rewrite Heq. apply Hu.
  - match goal with Hi : new_order _ _ _ _ _ _ _ _ = _ |- _ =>
      apply new_order_ok in Hi as (p' & [= <-] & Hu' & Hs & Hf) end; done.
Qed.

Lemma create_pending_order_ok fault now input quote lease cu ou db p db' :
  create_pending_order fault now input quote lease cu ou db = (Ok p, db') ->
  exists session, in_session_id input = Some session /\ validate_input input = Ok tt
  /\ validate_quote_response input quote = Ok tt
  /\ create_pending_order_tx input quote session lease cu ou (mkTxenv now db_error (fun _ => false)) db
     = Ok (Ok p, db').
Proof.
  unfold create_pending_order, order_preconditions. destruct (_ ;; _)%res as [session|e] eqn:Ev; [|done].
  destruct (db_run _ _ _ _ _) as [[r|e] db1] eqn:Er; [|done]. intros [= -> ->].
  apply run_tx_ok in Er as [_ Er]. res_inv.
  repeat match goal with u : unit |- _ => destruct u end. by exists session.
Qed.

(** C12: creating the durable order of a checkout either resumes the order its
    request already has or stores a new one; either way the order answered is
    what the tables hold (its customer, currency, cart, session, lines and
    totals), it is the only one of its request, and the request's live attempt
    is linked to it.  A new order is pending, its lines are the requested
    items, each at the quoted unit price, and its totals are the validated
    quote's, which add up. *)
Theorem create_order_sound fault now input quote lease cu ou db p db' :
  orders_unique db -> Forall (fun i => 0 <= ii_quantity i) (in_items input) ->
  create_pending_order fault now input quote lease cu ou db = (Ok p, db') ->
  orders_unique db'
  /\ (exists session, in_session_id input = Some session /\ order_stored db' input session lease p)
  /\ (find_order db (in_tenant_id input) (cl_request_id lease) = None ->
        order_fresh db' input quote p
        /\ quote_consistent input quote (pd_subtotal_minor p) (pd_discount_minor p) (pd_tax_minor p)
             (pd_total_minor p)).
Proof.
  intros Hu Hq H. apply create_pending_order_ok in H as (session & Hses & _ & Hv & H).
  apply create_order_ok in H as (Hu' & Hs & Hf); [|done..]. split_and!; [done|by exists session|].
  intros Hnone. specialize (Hf Hnone). split; [done|]. destruct Hf as [_ Ht _].
  apply validate_quote_response_ok in Hv as (s & d & x & t & Hc).
  enough (s = pd_subtotal_minor p /\ d = pd_discount_minor p /\ x = pd_tax_minor p
          /\ t = pd_total_minor p) as (<- & <- & <- & <-) by done.
  destruct Hc as [_ _ _ [Es _] [Ed _] [Ex _] [Et _] _ _]. unfold quote_totals in Ht. res_inv.
  repeat match goal with Hm : quote_money _ _ _ = _ |- _ => apply quote_money_ok in Hm as [Hm _] end.
  split_and!; congruence.
Qed.

Lemma no_orders_unique db : db_orders db = ∅ -> orders_unique db.
Proof. intros He k1 k2 o1 o2 r H1. by rewrite He, lookup_empty in H1. Qed.

Lemma create_order_sound_witness : order_fresh ordered_db demo_input demo_quote demo_order.
Proof.
  destruct (create_order_sound None (seconds 1) demo_input demo_quote demo_lease "u-1" "u-2" claimed_db
              demo_order ordered_db) as (_ & _ & H).
  - apply no_orders_unique. vm_compute. reflexivity.
  - constructor; [vm_compute; discriminate|constructor].
  - vm_compute. reflexivity.
  - apply H. vm_compute. reflexivity.
Defined.


(** creating the order again under the same lease, whatever quote is
    offered, answers exactly the same order and writes no order and no cart:
    a checkout that is retried after the order was committed cannot create a
    second one or change its price. *)
Theorem create_order_idempotent fault now input quote lease cu ou db p db' now2 quote2 cu2 ou2 :
  orders_unique db -> Forall (fun i => 0 <= ii_quantity i) (in_items input) ->
  create_pending_order fault now input quote lease cu ou db = (Ok p, db') ->
  validate_quote_response input quote2 = Ok tt ->
  exists t, create_pending_order None now2 input quote2 lease cu2 ou2 db' = (Ok p, set_attempts t db').
Proof.
  intros Hu Hq H Hv2. apply create_pending_order_ok in H as (session & Hses & Hi & _ & H).
  apply create_order_ok in H as (Hu' & Hs & _); [|done..].
  destruct (create_again input quote2 session lease p cu2 ou2 (mkTxenv now2 db_error (fun _ => false)) db' Hu' Hs)
    as [t Hrun].
  exists t. unfold create_pending_order, order_preconditions. rewrite Hi, Hv2, Hses. simpl. unfold db_run, run_tx.
  by rewrite Hrun.
Qed.

Lemma create_order_idempotent_witness :
  exists t, create_pending_order None (seconds 2) demo_input demo_quote demo_lease "u-3" "u-4" ordered_db
            = (Ok demo_order, set_attempts t ordered_db).
Proof.
  apply (create_order_idempotent None (seconds 1) demo_input demo_quote demo_lease "u-1" "u-2" claimed_db
           demo_order ordered_db).
  - apply no_orders_unique. vm_compute. reflexivity.
  - constructor; [vm_compute; discriminate|constructor].
  - vm_compute. reflexivity.
  - vm_compute. reflexivity.
Defined.

(** ** One cart per session *)

(** A session that has a cart cannot check out without naming it: the new cart
    meets UNIQUE (tenant_id, session_id), ON CONFLICT DO NOTHING drops it, and
    reading it back fails as an internal error. *)
Lemma session_has_one_cart input quote session lease cu ou env db k c totals :
  in_cart_id input = None -> quote_totals input quote = Ok totals ->
  find_order db (in_tenant_id input) (cl_request_id lease) = None ->
  db_carts db !! k = Some c -> k.1 = in_tenant_id input -> ca_session_id c = Some session ->
  db_carts db !! (in_tenant_id input, "cart-" +:+ cu) = None ->
  create_pending_order_tx input quote session lease cu ou env db
  = Err (mkApiError INTERNAL_SERVER_ERROR "cart_persistence_failed" "checkout cart was not persisted").
Proof.
  intros Hid Hq Ho Hk Ht Hs Hn. unfold create_pending_order_tx. tx_run. rewrite Ho. unfold new_order. tx_run.
  rewrite Hq, Hid. tx_run.
  assert (Hi : insert_cart input session ("cart-" +:+ cu) env db = Ok (tt, db)).
  { unfold insert_cart. tx_run.
    assert (exists_row (cart_taken (in_tenant_id input) session ("cart-" +:+ cu)) (db_carts db) = true) as He.
    { apply exists_row_true. exists k, c. split; [exact Hk|]. unfold cart_taken.
      by rewrite Ht, Hs, String.eqb_refl, (proj2 (opt_is_true _ _) eq_refl), orb_true_r. }
    simpl. by rewrite He. }
  rewrite (tx_bind_run _ _ _ _ _ _ Hi). apply tx_bind_fail. unfold check_cart. tx_run.
  simpl. by rewrite Hn.
Qed.
