(* ===== verification/CheckoutSagas.v ===== *)
(** Reasoning on sagas: what a step may do to the database between its calls, and the concrete
    checkouts the witnesses run. *)

From stdpp Require Import relations.
From S2P Require Import Prelude Proto Propagation PricingService Database CheckoutDomain CheckoutQuote CheckoutRecords CheckoutOrders CheckoutSteps CheckoutRuns CheckoutEvolution CheckoutTransactions CheckoutDemo CheckoutInvariants.

(** Reasoning about the sagas: inversion of a run, and a program logic whose
    judgement [runs] says what a saga does to the database and which calls it
    makes, whatever the environment answers. *)
Module CheckoutSagaLogic.

Import Propagation Proto Schema Transactions CheckoutDomain CheckoutQuote CheckoutFence CheckoutCompensation
  CheckoutAttempts CheckoutReconciliation CheckoutOrders CheckoutSaga CheckoutEvolution CheckoutTransactions
  CheckoutInvariants.

(** ** Inversion *)

Section inversion.
Context (e : Environment).
Implicit Types w : World.

Lemma sg_bind_ok {A B} (m : Saga A) (k : A -> Saga B) w b w' :
  sg_bind m k e w = (Ok b, w') <-> exists a w1, m e w = (Ok a, w1) /\ k a e w1 = (Ok b, w').
Proof.
  unfold sg_bind. destruct (m e w) as [[a|err] w1]; [|naive_solver].
  split; [eauto|]. by intros (? & ? & [= <- <-] & ?).
Qed.

Lemma sg_try_ok {A} (m : Saga A) w r w' : sg_try m e w = (Ok r, w') -> m e w = (r, w').
Proof. unfold sg_try. destruct (m e w). naive_solver. Qed.

Lemma sg_ret_ok {A} (a b : A) w w' : sg_ret a e w = (Ok b, w') <-> b = a /\ w' = w.
Proof. unfold sg_ret. naive_solver. Qed.

Lemma sg_lift_ok {A} (r : ApiResult A) a w w' : sg_lift r e w = (Ok a, w') <-> r = Ok a /\ w' = w.
Proof. unfold sg_lift. naive_solver. Qed.

Lemma sg_ensure_ok c err u w w' : sg_ensure c err e w = (Ok u, w') <-> c = true /\ w' = w.
Proof. unfold sg_ensure, sg_lift, ensure. destruct c, u; naive_solver. Qed.

Lemma sg_env_ok {A} (f : Environment -> A) a w w' : sg_env f e w = (Ok a, w') <-> a = f e /\ w' = w.
Proof. unfold sg_env. naive_solver. Qed.

Lemma sg_uuid_ok j u w w' : sg_uuid j e w = (Ok u, w') <-> u = ev_uuid e (w_at w) j /\ w' = w.
Proof. unfold sg_uuid. naive_solver. Qed.

Lemma sg_call_ok {R} (reply : Environment -> nat -> Call -> R) c r w w' :
  sg_call reply c e w = (Ok r, w')
  <-> r = reply e (w_at w) c /\ w' = mkWorld (w_next e w) (S (w_at w)) (w_calls w ++ [(c, w_db w)]).
Proof. unfold sg_call. naive_solver. Qed.

Lemma sg_tx_commit_ok {A} ce (m : Txn ApiError A) a w w' :
  sg_tx_commit ce m e w = (Ok a, w') ->
  w' = mkWorld (w_db w') (S (w_at w)) (w_calls w)
  /\ m (mkTxenv (ev_now e (w_at w)) db_error (ev_locked e (w_at w))) (w_next e w) = Ok (a, w_db w').
Proof.
  unfold sg_tx_commit. destruct (run_tx _ _ _ _ _ _ _ _) as [r db] eqn:E. intros [= -> <-].
  by apply run_tx_ok in E as [_ E].
Qed.

Lemma sg_tx_ok {A} (m : Txn ApiError A) a w w' :
  sg_tx m e w = (Ok a, w') ->
  w' = mkWorld (w_db w') (S (w_at w)) (w_calls w)
  /\ m (mkTxenv (ev_now e (w_at w)) db_error (ev_locked e (w_at w))) (w_next e w) = Ok (a, w_db w').
Proof. apply sg_tx_commit_ok. Qed.

Lemma sg_tx_keeps_calls {A} ce (m : Txn ApiError A) r w w' :
  sg_tx_commit ce m e w = (r, w') -> w_calls w' = w_calls w.
Proof. unfold sg_tx_commit. destruct (run_tx _ _ _ _ _ _ _ _). by intros [= _ <-]. Qed.

Lemma sg_query_ok {A} (f : Db -> A) a w w' :
  sg_query f e w = (Ok a, w') ->
  a = f (w_next e w) /\ w' = mkWorld (w_next e w) (S (w_at w)) (w_calls w).
Proof.
  intros [Hw Hm]%sg_tx_ok. apply tx_read_ok in Hm as [-> Hd]. rewrite Hd in Hw. by subst.
Qed.

End inversion.

Ltac sg_step :=
  match goal with
  | H : sg_bind _ _ _ _ = (Ok _, _) |- _ => apply sg_bind_ok in H as (? & ? & ? & H)
  | H : sg_try _ _ _ = (Ok _, _) |- _ => apply sg_try_ok in H
  | H : sg_ret _ _ _ = (Ok _, _) |- _ => apply sg_ret_ok in H as [? ?]; subst
  | H : sg_fail _ _ _ = (Ok _, _) |- _ => discriminate H
  | H : sg_lift (Err _) _ _ = (Ok _, _) |- _ => discriminate H
  | H : sg_lift _ _ _ = (Ok _, _) |- _ => apply sg_lift_ok in H as [? ?]; subst
  | H : sg_ensure _ _ _ _ = (Ok _, _) |- _ => apply sg_ensure_ok in H as [? ?]; subst
  | H : sg_env _ _ _ = (Ok _, _) |- _ => apply sg_env_ok in H as [? ?]; subst
  | H : sg_uuid _ _ _ = (Ok _, _) |- _ => apply sg_uuid_ok in H as [? ?]; subst
  | H : sg_call _ _ _ _ = (Ok _, _) |- _ => apply sg_call_ok in H as [? ?]; subst
  end.
Ltac sg_inv := repeat (sg_step; cbv beta in * ).

(** ** What the rest of the system may do

    While a saga runs, other transactions keep the tables' CHECKs and the rows
    of the compensation tasks; the UUIDs drawn are ones the policy knows. *)

Definition task_kept (t t' : TaskRow) : Prop :=
  (tk_order_id t', tk_task_key t', tk_kind t', tk_payment_id t', tk_reservation_id t')
  = (tk_order_id t, tk_task_key t, tk_kind t, tk_payment_id t, tk_reservation_id t)
  /\ forall s, tk_operation_started t = Some s -> tk_operation_started t' = Some s.

Definition tasks_kept (db db' : Db) : Prop :=
  forall k t, db_tasks db !! k = Some t -> exists t', db_tasks db' !! k = Some t' /\ task_kept t t'.

#[export] Instance tasks_kept_preorder : PreOrder tasks_kept.
Proof.
  split.
  - intros db k t Hk. by exists t.
  - intros a b c H1 H2 k t Hk. destruct (H1 k t Hk) as (t1 & Hk1 & [I1 S1]).
    destruct (H2 k t1 Hk1) as (t2 & Hk2 & [I2 S2]). exists t2. split; [done|].
    split; [congruence|auto].
Qed.

Lemma evolves_tasks `{Policy} db db' : evolves db db' -> db_checks db -> tasks_kept db db'.
Proof.
  intros [_ _ Ht _ _ _ _ _ _] [_ _ Hc _ _ _] k t Hk.
  destruct (row_evolve _ _ _ _ _ k t Ht (Hc k t Hk) Hk) as (t' & Hk' & _ & [I S A O W]).
  exists t'. split; [done|]. split; [congruence|done].
Qed.

Record env_ok `{Policy} (e : Environment) : Prop := {
  eo_pay : may_pay;
  eo_drawn : forall n j, drawn (ev_uuid e n j);
  eo_checks : forall n db, db_checks db -> db_checks (ev_meanwhile e n db);
  eo_tasks : forall n db, db_checks db -> tasks_kept db (ev_meanwhile e n db)
}.

(** A committed transaction of the checkout service, or what others do. *)
Definition system_step `{Policy} (e : Environment) (db db' : Db) : Prop :=
  checkout_step db db' \/ exists n, db' = ev_meanwhile e n db.

Definition reach `{Policy} (e : Environment) : Db -> Db -> Prop := rtc (system_step e).

(** A step relation of which every interference is a part absorbs [reach]. *)
Lemma reach_checkout `{Policy} e db db' :
  (forall n db, rtc checkout_step db (ev_meanwhile e n db)) ->
  reach e db db' -> rtc checkout_step db db'.
Proof.
  intros Hm. induction 1 as [|a b c [Hs|[n ->]] _ IH]; [done| |].
  - by eapply rtc_l.
  - eapply (transitivity (R := rtc checkout_step)); [apply Hm|exact IH].
Qed.

(** ** The judgement *)

Section logic.
Context `{HP : Policy} (e : Environment) (He : env_ok e).

Lemma step_checks db db' : system_step e db db' -> db_checks db -> db_checks db'.
Proof. intros [Hs%step_evolves|[n ->]]; [by apply evolves_checks|by apply eo_checks]. Qed.

Lemma step_tasks db db' : system_step e db db' -> db_checks db -> tasks_kept db db'.
Proof.
  intros [Hs%step_evolves|[n ->]] Hc; [by apply evolves_tasks|by apply (eo_tasks e He)].
Qed.

Lemma reach_checks db db' : reach e db db' -> db_checks db -> db_checks db'.
Proof. induction 1; eauto using step_checks. Qed.

Lemma reach_tasks db db' : reach e db db' -> db_checks db -> tasks_kept db db'.
Proof.
  induction 1 as [|a b c Hs _ IH]; intros Hc; [done|].
  etransitivity; [by eapply step_tasks|eauto using step_checks].
Qed.

(** From a database that satisfies [P], every call made satisfies [C] of the
    call and the database it was sent from, and a result satisfies [Q]. *)
Definition runs (P : Db -> Prop) (C : Call -> Db -> Prop) {A} (m : Saga A) (Q : A -> Db -> Prop) : Prop :=
  forall w r w', m e w = (r, w') -> db_checks (w_db w) -> P (w_db w) ->
  reach e (w_db w) (w_db w')
  /\ (exists l, w_calls w' = w_calls w ++ l
        /\ Forall (fun cd => C cd.1 cd.2 /\ reach e (w_db w) cd.2) l)
  /\ (forall a, r = Ok a -> Q a (w_db w')).

(** What the rest of the system cannot undo. *)
Definition stable (P : Db -> Prop) : Prop := forall db db', tasks_kept db db' -> P db -> P db'.

Definition always : Db -> Prop := fun _ => True.
Definition anything {A} : A -> Db -> Prop := fun _ _ => True.

Lemma stable_always : stable always.
Proof. by intros ???. Qed.

Lemma stable_reach P db db' : stable P -> reach e db db' -> db_checks db -> P db -> P db'.
Proof. intros Hs Hr Hc. apply Hs. by apply reach_tasks. Qed.

Implicit Types (P : Db -> Prop) (C : Call -> Db -> Prop).

(** Runs that make no call and leave the database alone. *)
Lemma runs_done {A} P C (m : Saga A) (Q : A -> Db -> Prop) :
  (forall w, (m e w).2 = w /\ forall a, (m e w).1 = Ok a -> P (w_db w) -> Q a (w_db w)) -> runs P C m Q.
Proof.
  intros Hm w r w' H Hc HP'. destruct (Hm w) as [Hw Hq]. rewrite H in Hw, Hq. simpl in *. subst.
  split; [done|]. split; [|by intros a ->; apply Hq]. exists []. by rewrite app_nil_r.
Qed.

Lemma runs_ret {A} P C (a : A) (Q : A -> Db -> Prop) : (forall db, P db -> Q a db) -> runs P C (sg_ret a) Q.
Proof. intros Hq. apply runs_done. intros w. split; [done|]. intros ? [= <-]. apply Hq. Qed.
Lemma runs_lift {A} P C (r : ApiResult A) (Q : A -> Db -> Prop) :
  (forall a db, r = Ok a -> P db -> Q a db) -> runs P C (sg_lift r) Q.
Proof. intros Hq. apply runs_done. intros w. split; [done|]. eauto. Qed.
Lemma runs_fail {A} P C err (Q : A -> Db -> Prop) : runs P C (sg_fail err) Q.
Proof. by apply runs_done. Qed.

Lemma runs_bind {A B} P C (m : Saga A) (k : A -> Saga B) Q R :
  runs P C m Q -> (forall a, runs (Q a) C (k a) R) -> runs P C (sg_bind m k) R.
Proof.
  intros Hm Hk w r w' H Hc HP'. unfold sg_bind in H.
  destruct (m e w) as [[a|err] w1] eqn:E; destruct (Hm w _ w1 E Hc HP') as (Hr & (l & Hl & Hf) & Hq).
  - destruct (Hk a w1 r w' H) as (Hr' & (l' & Hl' & Hf') & Hq'); [by eapply reach_checks|by apply Hq|].
    split; [by etransitivity|]. split; [|done]. exists (l ++ l'). rewrite app_assoc, <- Hl. split; [done|].
    apply Forall_app. split; [done|]. eapply Forall_impl; [exact Hf'|].
    intros cd [Hcd Hd]. split; [done|by etransitivity].
  - injection H as <- <-. split; [done|]. split; [by exists l|done].
Qed.

Lemma runs_try {A} P C (m : Saga A) Q :
  runs P C m Q ->
  runs P C (sg_try m) (fun r db => match r with Ok a => Q a db | Err _ => True end).
Proof.
  intros Hm w r w' H Hc HP'. unfold sg_try in H. destruct (m e w) as [r0 w0] eqn:E. injection H as <- <-.
  destruct (Hm w r0 w0 E Hc HP') as (Hr & Hl & Hq). split; [done|]. split; [done|].
  intros ? [= <-]. by destruct r0; [apply Hq|].
Qed.

Lemma runs_conseq {A} P P' C C' (m : Saga A) Q Q' :
  runs P C m Q -> (forall db, P' db -> P db) -> (forall a db, Q a db -> Q' a db) ->
  (forall c db, C c db -> C' c db) -> runs P' C' m Q'.
Proof.
  intros Hm Hp Hq HC w r w' H Hc HP'. destruct (Hm w r w' H Hc (Hp _ HP')) as (Hr & (l & Hl & Hf) & Hq').
  split; [done|]. split; [|auto]. exists l. split; [done|]. eapply Forall_impl; [exact Hf|naive_solver].
Qed.

(** What is stable holds at every call and at the end. *)
Lemma runs_frame {A} P C C' (m : Saga A) Q :
  stable P -> runs always C m Q -> (forall c db, C c db -> P db -> C' c db) ->
  runs P C' m (fun a db => P db /\ Q a db).
Proof.
  intros Hs Hm HC w r w' H Hc HP'. destruct (Hm w r w' H Hc I) as (Hr & (l & Hl & Hf) & Hq).
  split; [done|]. split.
  - exists l. split; [done|]. eapply Forall_impl; [exact Hf|]. intros cd [Hcd Hd]. split; [|done].
    apply HC; [done|]. by eapply stable_reach.
  - intros a ->. split; [by eapply stable_reach|auto].
Qed.

(** A precondition that does not mention the database. *)
Lemma runs_pure {A} (p : Prop) C (m : Saga A) Q : (p -> runs always C m Q) -> runs (fun _ => p) C m Q.
Proof. intros Hm w r w' H Hc Hp. by apply (Hm Hp). Qed.

Lemma next_reach w : reach e (w_db w) (w_next e w).
Proof. apply rtc_once. right. by eexists. Qed.

Lemma runs_tx {A} ce P C (m : Txn ApiError A) (Q : A -> Db -> Prop) :
  (checkout_txn A m \/ reads m) -> stable P ->
  (forall env db a db', m env db = Ok (a, db') -> db_checks db -> db_checks db' -> P db' -> Q a db') ->
  runs P C (sg_tx_commit ce m) Q.
Proof.
  intros Hm Hs Hq w r w' H Hc HP'. unfold sg_tx_commit in H.
  destruct (run_tx _ _ _ _ _ _ _ _) as [r0 db] eqn:E. injection H as <- <-. simpl.
  pose proof (next_reach w) as Hn. pose proof (reach_checks _ _ Hn Hc) as Hcn.
  assert (reach e (w_next e w) db) as Hr.
  { apply run_tx_cases in E as [->|[a Ha]]; [done|].
    destruct Hm as [Hm|Hm]; [|by rewrite (Hm _ _ _ _ Ha)].
    apply rtc_once. left. by do 4 eexists. }
  split; [by etransitivity|]. split; [exists []; by rewrite app_nil_r|].
  intros a ->. apply run_tx_ok in E as [_ E]. eapply Hq; [exact E|done|by eapply reach_checks|].
  apply (stable_reach P (w_db w)); [done|by etransitivity|done..].
Qed.

Lemma runs_call {R} P C (reply : Environment -> nat -> Call -> R) c (Q : R -> Db -> Prop) :
  (forall db, P db -> C c db) -> stable P -> (forall r db, P db -> Q r db) ->
  runs P C (sg_call reply c) Q.
Proof.
  intros HC Hs Hq w r w' H Hc HP'. injection H as <- <-. simpl.
  pose proof (next_reach w). split; [done|]. split.
  - exists [(c, w_db w)]. split; [done|]. constructor; [|done]. split; [by apply HC|done].
  - intros a [= <-]. apply Hq. by eapply stable_reach.
Qed.
End logic.

End CheckoutSagaLogic.

(** Concrete runs of the checkout saga: every service answers as asked; the
    capture fails and everything is undone; the payment is decided later. *)
Module CheckoutSagaDemo.

Import Propagation Proto PricingService Schema Transactions CheckoutDomain CheckoutQuote CheckoutFence
  CheckoutCompensation CheckoutAttempts CheckoutReconciliation CheckoutOrders CheckoutSaga CheckoutFlow
  CheckoutWorkers CheckoutDemo.

Definition status_ok : http_status := mkHttpStatus 200 "200 OK".

(** The order that the run creates, and its reservation. *)
Definition saga_order_id : string := "order-u-4-1".
Definition saga_reservation_id : string := "reservation-" +:+ saga_order_id +:+ "-v-1".

Definition demo_http (n : nat) (c : Call) : http_reply :=
  match c with
  | CatalogProduct _ =>
      HttpJson status_ok (JObj [("data", JObj [("product", JObj [("sku", JStr "sku-1")])])])
  | InventoryPost path _ =>
      HttpJson status_ok
        (if String.eqb path "/reserve" then
           JObj [("tenant_id", JStr "acme"); ("reservation_id", JStr saga_reservation_id);
                 ("sku", JStr "sku-1"); ("reserved", JNum 2); ("location_id", JStr "loc-1");
                 ("remaining", JNum 5); ("status", JStr "reserved")]
         else if String.eqb path "/release" then
           JObj [("tenant_id", JStr "acme"); ("reservation_id", JStr saga_reservation_id);
                 ("sku", JStr "sku-1"); ("location_id", JStr "loc-1"); ("requested", JNum 2);
                 ("released", JNum 2); ("reserved_remaining", JNum 0); ("available", JNum 7);
                 ("status", JStr "released")]
         else
           JObj [("tenant_id", JStr "acme"); ("consumed", JNum 2); ("reservation_count", JNum 1);
                 ("status", JStr "consumed")])
  | _ => HttpJson status_ok (JObj [("tenant_id", JStr "acme")])
  end.

Definition demo_record (status captured refunded : Z) : PaymentRecord :=
  mkPaymentRecord "pay-1" saga_order_id (Some (mkMoney "USD" 2598)) status 1 "prov-1"
    (Some (mkMoney "USD" captured)) (Some (mkMoney "USD" refunded)) 0.

(** [authorized] and [captured]: the status of the answers to an authorization
    and to a capture.  [settled]: the step from which the payment service reports
    the payment in its final status. *)
Definition demo_payment (authorized captured : Z) (n : nat) (c : Call) : payment_reply PaymentResponse :=
  PaymentAnswer (Ok (mkPaymentResponse
    (match c with PaymentAuthorize _ => authorized | PaymentCapture _ => captured | _ => 1 end)
    (Some (demo_record 2 0 0)) 0)).

Definition demo_snapshot (settled : nat) (final captured : Z) (n : nat) (c : Call) :
    payment_reply GetPaymentResponse :=
  let '(status, captured) := if Nat.ltb n settled then (2, 0) else (final, captured) in
  PaymentAnswer (Ok (mkGetPaymentResponse (Some (demo_record status captured 0)) status)).

Definition demo_environment (authorized capture : Z) (settled : nat) (final captured : Z) : Environment := {|
  ev_now := fun n => seconds (Z.of_nat n);
  ev_fault := fun _ => None;
  ev_locked := fun _ _ => false;
  ev_meanwhile := fun _ db => db;
  ev_uuid := fun n j => "u-" +:+ show_Z (Z.of_nat n) +:+ "-" +:+ show_Z (Z.of_nat j);
  ev_http := demo_http;
  ev_pricing := fun _ _ => PricingAnswer (Ok sample_response);
  ev_payment := demo_payment authorized capture;
  ev_snapshot := demo_snapshot settled final captured;
  ev_inject := sample_inject;
  ev_extract := fun _ => demo_context;
  ev_span := fun _ => ("", "");
  ev_json_text := fun _ => "{}";
  ev_sha256 := fun _ => "fp";
  ev_variant := fun _ => Some "control"
|}.

Definition demo_world : World := mkWorld fresh_db 0 [].
Definition paid_environment : Environment := demo_environment 1 1 100 3 2598.
Definition undone_environment : Environment := demo_environment 1 4 30 4 0.
(** The authorization is pending, then the payment is captured. *)
Definition pending_environment : Environment := demo_environment 3 1 0 3 2598.

(** The attempt claimed, then the flow. *)
Definition flow_lease : CheckoutLease := mkCheckoutLease "acme" "req-1" "u-0-0".
Definition claimed_world : World :=
  (sg_tx (claim_checkout_attempt "acme" "req-1" "fp" "u-0-0" "u-0-1") paid_environment demo_world).2.
Definition flow_run : ApiResult json * World :=
  checkout_flow demo_input demo_context flow_lease paid_environment claimed_world.

(** The checkout that waits for its payment, and the reconciliation the worker
    claims. *)
Definition waiting_world : World :=
  (checkout_inner demo_input demo_context pending_environment demo_world).2.
Definition reconciling_run : ApiResult (option PaymentReconciliationJob) * World :=
  sg_tx (claim_payment_reconciliation "claim-1") pending_environment waiting_world.

(** The value of an [Ok]. *)
Definition ok_value {A} (d : A) (r : ApiResult A) : A :=
  match r with Ok a => a | Err _ => d end.
Definition is_ok {A} (r : ApiResult A) : bool :=
  match r with Ok _ => true | Err _ => false end.
Lemma ok_run {A} (d : A) (r : ApiResult A * World) :
  is_ok r.1 = true -> r = (Ok (ok_value d r.1), r.2).
Proof. destruct r as [[a|err] w]; [done|discriminate]. Qed.
Definition reconciling_job : PaymentReconciliationJob :=
  default (recon_job ("", "") "" demo_recon) (ok_value None reconciling_run.1).
Definition reconciled_run : ApiResult PendingPaymentOutcome * World :=
  reconcile_pending_payment reconciling_job pending_environment reconciling_run.2.

End CheckoutSagaDemo.
