(* ===== verification/CheckoutSagaRuns.v ===== *)
(** Every saga of the checkout service, whatever its environment answers, is a
    sequence of the service's transactions, and sends a compensating call only
    for an operation some durable task has recorded as started. *)

From stdpp Require Import relations.
From S2P Require Import Prelude Proto Propagation PricingService Database CheckoutDomain CheckoutQuote CheckoutRecords CheckoutOrders CheckoutSteps CheckoutRuns CheckoutEvolution CheckoutTransactions CheckoutDemo CheckoutInvariants CheckoutOrderCreation CheckoutSagas.
Import Schema Transactions CheckoutDomain CheckoutQuote CheckoutFence CheckoutCompensation CheckoutAttempts
  CheckoutReconciliation CheckoutOrders CheckoutSaga CheckoutPayments CheckoutStock CheckoutFlow
  CheckoutWorkers CheckoutEvolution CheckoutTransactions CheckoutDemo CheckoutInvariants CheckoutOrderCreation
  CheckoutSagaLogic CheckoutSagaDemo.

(** ** Compensating calls and their tasks *)

Definition compensating (c : Call) : bool :=
  match c with
  | PaymentVoid _ | PaymentRefund _ => true
  | InventoryPost path _ => String.eqb path "/release"
  | _ => false
  end.

(** A task of the tenant with this key has recorded its operation as started. *)
Definition started (db : Db) (tenant task_key : string) : Prop :=
  exists k t, db_tasks db !! k = Some t /\ k.1 = tenant /\ tk_task_key t = task_key
    /\ is_Some (tk_operation_started t).

Definition payment_started (db : Db) (tenant payment_id : string) : Prop :=
  exists token, started db tenant
    (generation_compensation_task_key (payment_compensation_task_key payment_id) token).

Definition release_started (db : Db) (body : json) : Prop :=
  exists tenant reservation_id token,
    jget_str "tenant_id" body = Some tenant /\ jget_str "reservation_id" body = Some reservation_id
    /\ jget_str "checkout_lease_token" body = Some token
    /\ started db tenant
         (generation_compensation_task_key (inventory_compensation_task_key reservation_id) token).

(** The call has its task. *)
Definition recorded (c : Call) (db : Db) : Prop :=
  match c with
  | PaymentVoid r => payment_started db (vr_tenant_id r) (vr_payment_id r)
  | PaymentRefund r => payment_started db (rr_tenant_id r) (rr_payment_id r)
  | InventoryPost path body => path = "/release" -> release_started db body
  | _ => True
  end.

Lemma not_compensating_recorded c db : compensating c = false -> recorded c db.
Proof. destruct c; simpl; try done. by intros Hp%String.eqb_neq. Qed.

Lemma stable_started tenant key : stable (fun db => started db tenant key).
Proof.
  intros db db' Hk (k & t & Ht & Hten & Hkey & [s Hs]).
  destruct (Hk k t Ht) as (t' & Ht' & [I S]). exists k, t'.
  split_and!; [done|done|congruence|]. exists s. auto.
Qed.

(** An order whose amounts and lines pass the CHECKs. *)
Definition order_ok (o : PendingOrder) : Prop :=
  0 <= pd_total_minor o /\ Forall (fun l => 0 < ln_quantity l) (pd_lines o).

Definition positive (r : InventoryReservation) : Prop := 0 < ir_quantity r.

(** Finds the constructor of a transaction by its name. *)
Create HintDb transactions discriminated.
#[export] Hint Constants Opaque : transactions.
#[export] Hint Transparent ApiResult : transactions.
#[export] Hint Constructors checkout_txn : transactions.

Section runs.
Context `{HP : Policy} (e : Environment) (He : env_ok e).

(** *** The rules, for any condition on the calls *)

Section rules.
Context {C : Call -> Db -> Prop}.

Local Notation yields m Q := (runs e always C m (fun a _ => Q a)).
Local Notation safe m := (runs e always C m anything).

Lemma yields_bind {A B} (m : Saga A) (k : A -> Saga B) Q R :
  yields m Q -> (forall a, Q a -> yields (k a) R) -> yields (sg_bind m k) R.
Proof.
  intros Hm Hk. eapply runs_bind; [done|exact Hm|]. intros a. apply (runs_pure e (Q a)), Hk.
Qed.

Lemma safe_bind {A B} (m : Saga A) (k : A -> Saga B) R :
  safe m -> (forall a, yields (k a) R) -> yields (sg_bind m k) R.
Proof.
  intros Hm Hk. apply (yields_bind m k (fun _ => True)); [|by intros].
  eapply runs_conseq; [exact Hm|done..].
Qed.

Lemma yields_safe {A} (m : Saga A) Q : yields m Q -> safe m.
Proof. intros Hm. eapply runs_conseq; [exact Hm|done..]. Qed.

Lemma yields_try {A} (m : Saga A) Q :
  yields m Q -> yields (sg_try m) (fun r => match r with Ok a => Q a | Err _ => True end).
Proof. intros Hm. eapply runs_conseq; [apply runs_try, Hm|done| |done]. by intros []. Qed.

Lemma safe_try {A} (m : Saga A) : safe m -> safe (sg_try m).
Proof. intros Hm. eapply runs_conseq; [apply runs_try, Hm|done..]. Qed.

Lemma yields_ret {A} (a : A) (Q : A -> Prop) : Q a -> yields (sg_ret a) Q.
Proof. intros. by apply runs_ret. Qed.
Lemma yields_lift {A} (r : ApiResult A) (Q : A -> Prop) : (forall a, r = Ok a -> Q a) -> yields (sg_lift r) Q.
Proof. intros Hq. apply runs_lift. auto. Qed.
Lemma yields_fail {A} err (Q : A -> Prop) : yields (sg_fail err : Saga A) Q.
Proof. apply runs_fail. Qed.
Lemma safe_lift {A} (r : ApiResult A) : safe (sg_lift r).
Proof. by apply runs_lift. Qed.
Lemma safe_ret {A} (a : A) : safe (sg_ret a).
Proof. by apply runs_ret. Qed.
Lemma safe_env {A} (f : Environment -> A) : safe (sg_env f).
Proof. by apply runs_done. Qed.
Lemma safe_uuid j : yields (sg_uuid j) (fun u => drawn u).
Proof. apply runs_done. intros w. split; [done|]. intros ? [= <-] _. apply (eo_drawn e He). Qed.
Lemma safe_uuids n : yields (sg_uuids n) (fun us => length us = n).
Proof.
  apply runs_done. intros w. split; [done|]. intros ? [= <-] _. by rewrite map_length, seq_length.
Qed.

Lemma safe_txn {A} ce (m : Txn ApiError A) : checkout_txn A m -> safe (sg_tx_commit ce m).
Proof. intros Hm. apply runs_tx; [done|by left|apply stable_always|done]. Qed.
Lemma safe_reads {A} ce (m : Txn ApiError A) : reads m -> safe (sg_tx_commit ce m).
Proof. intros Hm. apply runs_tx; [done|by right|apply stable_always|done]. Qed.
Lemma yields_tx {A} ce (m : Txn ApiError A) (Q : A -> Prop) :
  checkout_txn A m \/ reads m ->
  (forall env db a db', m env db = Ok (a, db') -> db_checks db -> db_checks db' -> Q a) ->
  yields (sg_tx_commit ce m) Q.
Proof. intros Hm Hq. apply runs_tx; [done..|apply stable_always|]. eauto. Qed.

Lemma safe_query {A} (f : Db -> A) : safe (sg_query f).
Proof. apply safe_reads. by intros ? ? ? ? [_ ->]%tx_read_ok. Qed.

Lemma safe_call {R} (reply : Environment -> nat -> Call -> R) c :
  (forall db, C c db) -> safe (sg_call reply c).
Proof. intros Hc. by apply runs_call; [..|apply stable_always|]. Qed.


Lemma reads_bind {E A B} (m : Txn E A) (k : A -> Txn E B) : reads m -> (forall a, reads (k a)) -> reads (tx_bind m k).
Proof.
  intros Hm Hk env db b db' H. apply tx_bind_ok in H as (a & d & H1 & H2).
  apply Hk in H2. apply Hm in H1. congruence.
Qed.
Lemma reads_now {E} : reads (tx_now (E := E)).
Proof. by intros ? ? ? ? [_ ->]%tx_now_ok. Qed.
Lemma reads_read {E A} (f : Db -> A) : reads (tx_read (E := E) f).
Proof. by intros ? ? ? ? [_ ->]%tx_read_ok. Qed.
Lemma reads_lift {E A} (r : result E A) : reads (tx_lift r).
Proof. by intros ? ? ? ? [_ ->]%tx_lift_ok. Qed.

Lemma reads_assert f : reads (assert_checkout_fence f).
Proof.
  apply reads_bind; [apply reads_now|]. intros now. apply reads_bind; [apply reads_read|].
  intros owned. apply reads_lift.
Qed.

Lemma reads_status tenant request : reads (reconciliation_status tenant request).
Proof. apply reads_bind; [apply reads_read|]. intros. apply reads_lift. Qed.

Lemma safe_assert f : safe (sg_tx (assert_checkout_fence f)).
Proof. apply safe_reads, reads_assert. Qed.

Lemma fence_runs {A} f P (m : Saga A) Q :
  stable P -> runs e P C m (fun a _ => Q a) ->
  runs e P C (with_checkout_fence f m) (fun a _ => Q a).
Proof.
  intros Hs Hm. unfold with_checkout_fence.
  apply (runs_bind e He P C _ _ (fun _ => P)).
  { apply runs_tx; [done|right; apply reads_assert|done|done]. }
  intros _. eapply runs_bind; [done|by apply runs_try|]. intros r. simpl.
  apply (runs_bind e He _ C _ _ (fun _ _ => match r with Ok a => Q a | Err _ => True end)).
  { apply runs_tx; [done|right; apply reads_assert| |done]. by intros ? ? _. }
  intros _. apply runs_lift. by intros a db -> .
Qed.

Lemma safe_fence {A} f (m : Saga A) : safe m -> safe (with_checkout_fence f m).
Proof.
  intros Hm. eapply runs_conseq; [apply (fence_runs f always m (fun _ => True)); [apply stable_always|]|done..].
  eapply runs_conseq; [exact Hm|done..].
Qed.
Lemma yields_fence {A} f (m : Saga A) Q : yields m Q -> yields (with_checkout_fence f m) Q.
Proof. intros Hm. apply fence_runs; [apply stable_always|done]. Qed.
End rules.

Local Notation yields m Q := (runs e always recorded m (fun a _ => Q a)).
Local Notation safe m := (runs e always recorded m anything).

(** Walks through a saga that needs nothing but its parts. *)
Local Ltac saga_leaf :=
  first [ apply safe_ret | apply yields_fail | apply safe_lift | apply safe_env | apply safe_query
        | apply safe_assert | (apply safe_call; intros; simpl; (done || by apply not_compensating_recorded)) | (apply safe_txn; solve [auto 2 with transactions nocore])
        | (eapply yields_safe; apply safe_uuid) | (eapply yields_safe; apply safe_uuids)
        | solve [eauto 2 with saga] ].
Local Ltac saga_step :=
  match goal with
  | |- runs _ _ _ (sg_bind _ _) _ => apply safe_bind; [|intros ?]
  | |- runs _ _ _ (sg_try _) _ => apply safe_try
  | |- runs _ _ _ (with_checkout_fence _ _) _ => apply safe_fence
  | |- runs _ _ _ (match ?x with _ => _ end) _ => destruct x eqn:?
  | |- _ => saga_leaf
  end.
Local Ltac saga_tac := cbv beta zeta; repeat (saga_step; cbv beta zeta).

(** ** Payments *)

Lemma safe_authorize o request token method : safe (authorize_payment o request token method).
Proof. unfold authorize_payment. saga_tac. Qed.
Lemma safe_snapshot o p : safe (get_payment_snapshot o p).
Proof. unfold get_payment_snapshot. saga_tac. Qed.
Lemma safe_capture o p request : safe (capture_payment o p request).
Proof. unfold capture_payment. saga_tac. Qed.
Hint Resolve safe_authorize safe_snapshot safe_capture : saga.

Lemma begin_started o key f env db u db' :
  begin_compensation_operation o key f env db = Ok (u, db') -> started db' (pd_tenant_id o) key.
Proof.
  unfold begin_compensation_operation, update_task. intros H. tx_inv.
  match goal with Hn : sql_update_where _ _ _ _ _ = _ |- _ =>
    apply sql_update_where_ok in Hn as [Hn ->] end.
  match goal with Hn : 1%nat = (update_rows ?w ?g ?t).1 |- _ =>
    destruct (update_rows_some w g t) as (k & t0 & Hk & Hw); [by rewrite <- Hn|] end.
  exists k. eexists. change (db_tasks ?d) with (tget tasks d).
  rewrite tget_tset, update_rows_lookup, Hk. cbn [fmap option_fmap option_map]. rewrite Hw.
  bool_inv. subst. split_and!; [done..|by eexists].
Qed.

Definition payment_call (o : PendingOrder) (p : string) (c : Call) (_ : Db) : Prop :=
  match c with
  | PaymentGet _ => True
  | PaymentVoid r => vr_tenant_id r = pd_tenant_id o /\ vr_payment_id r = p
  | PaymentRefund r => rr_tenant_id r = pd_tenant_id o /\ rr_payment_id r = p
  | _ => False
  end.

Lemma action_calls o p request s action :
  compensation_action o p request s = Some action ->
  runs e always (payment_call o p) action anything.
Proof.
  unfold compensation_action, void_payment, refund_payment.
  destruct (0 <? _); [|destruct (bool_decide _); [|done]]; intros [= <-]; saga_tac.
Qed.

Lemma rounds_calls o p request rounds :
  runs e always (payment_call o p) (compensate_rounds o p request rounds) anything.
Proof.
  induction rounds as [|rounds IH]; [saga_tac|].
  cbn [compensate_rounds]. unfold get_payment_snapshot. saga_tac. by eapply action_calls.
Qed.

Lemma stable_payment_started tenant p : stable (fun db => payment_started db tenant p).
Proof. intros db db' Hk [token Ht]. exists token. by eapply stable_started. Qed.

(** The calls of a compensation, once its task is started. *)
Lemma rounds_recorded o p request rounds :
  runs e (fun db => payment_started db (pd_tenant_id o) p) recorded
    (compensate_rounds o p request rounds) (fun _ _ => True).
Proof.
  eapply runs_conseq; [apply (runs_frame e He (fun db => payment_started db (pd_tenant_id o) p)
    (payment_call o p) recorded); [apply stable_payment_started|apply rounds_calls|]|done..].
  intros [] db; simpl; try done; by intros [-> ->].
Qed.

Lemma safe_compensate o p request f : safe (compensate_payment_with_fence o p request f).
Proof.
  unfold compensate_payment_with_fence, payment_task_key.
  eapply (runs_bind e He _ _ _ _ (fun _ db => payment_started db (pd_tenant_id o) p)).
  { apply runs_tx; [done|left; auto with transactions nocore|apply stable_always|].
    intros env db u db' H _ _ _. exists (fence_token f). by eapply begin_started. }
  intros _. eapply (runs_bind e He _ _ _ _ (fun _ _ => True)).
  { apply fence_runs; [apply stable_payment_started|]. apply rounds_recorded. }
  intros compensated. apply (runs_conseq e always _ recorded recorded _ anything); [|done..]. saga_tac.
Qed.
Hint Resolve safe_compensate : saga.

(** ** Intents *)

Lemma safe_carrier c : safe (saga_carrier c).
Proof. unfold saga_carrier. saga_tac. Qed.
Hint Resolve safe_carrier : saga.

Lemma safe_enqueue_payment o p request c f : safe (enqueue_payment_compensation_task o p request c f).
Proof. unfold enqueue_payment_compensation_task. saga_tac. Qed.

Lemma safe_lookup o request : safe (lookup_authorization_payment_id o request).
Proof. unfold lookup_authorization_payment_id. saga_tac. Qed.
Hint Resolve safe_enqueue_payment safe_lookup : saga.

Lemma safe_recover o request token method c f : safe (recover_authorization o request token method c f).
Proof. unfold recover_authorization. saga_tac. Qed.
Hint Resolve safe_recover : saga.

(** ** Releasing *)

Lemma safe_each {A} (f : A -> Saga unit) l : (forall a, safe (f a)) -> safe (sg_each f l).
Proof. intros Hf. induction l as [|a l IH]; simpl; saga_tac; auto. Qed.

Lemma zip_positive reservations ids : Forall positive reservations -> positive_quantities (zip reservations ids).
Proof.
  unfold positive_quantities, positive. intros Hp. revert ids.
  induction Hp as [|r rs Hr _ IH]; intros [|i ids]; simpl; constructor; auto.
Qed.

Lemma safe_enqueue_inventory o reservations c f :
  Forall positive reservations -> safe (enqueue_inventory_compensation_tasks o reservations c f).
Proof.
  intros Hp. unfold enqueue_inventory_compensation_tasks. destruct reservations as [|r rs]; [saga_tac|].
  saga_tac; [apply safe_txn; auto using zip_positive with transactions nocore|].
  apply safe_each. intros. saga_tac.
Qed.

Definition all_started (o : PendingOrder) (f : CheckoutFence) (reservations : list InventoryReservation)
    (db : Db) : Prop :=
  Forall (fun r => started db (pd_tenant_id o) (reservation_task_key f r)) reservations.

Lemma stable_all_started o f reservations : stable (all_started o f reservations).
Proof.
  intros db db' Hk Ha. eapply Forall_impl; [exact Ha|]. intros r. by apply stable_started.
Qed.

Lemma begins_started o f reservations :
  runs e always recorded
    (sg_each (fun r => sg_tx (begin_compensation_operation o (reservation_task_key f r) f)) reservations)
    (fun _ => all_started o f reservations).
Proof.
  induction reservations as [|r rs IH]; simpl; [by apply runs_ret; constructor|].
  eapply (runs_bind e He _ _ _ _ (fun _ db => started db (pd_tenant_id o) (reservation_task_key f r))).
  - apply runs_tx; [done|left; auto with transactions nocore|apply stable_always|].
    intros env db u db' H _ _ _. by eapply begin_started.
  - intros _. eapply runs_conseq; [apply (runs_frame e He
      (fun db => started db (pd_tenant_id o) (reservation_task_key f r)) recorded recorded);
      [apply stable_started|exact IH|done]|done| |done].
    intros _ db [H1 H2]. by constructor.
Qed.

Definition release_call (o : PendingOrder) (f : CheckoutFence) (reservations : list InventoryReservation)
    (c : Call) (_ : Db) : Prop :=
  exists r, In r reservations /\ c = InventoryPost "/release" (release_body o f r).

Lemma release_each_calls o f reservations first :
  runs e always (release_call o f reservations) (release_each o f reservations first) anything.
Proof.
  enough (forall rs, incl rs reservations ->
            runs e always (release_call o f reservations) (release_each o f rs first) anything)
    as H by apply H, incl_refl.
  intros rs. revert first. induction rs as [|r rs IH]; intros first Hi; cbn [release_each]; [saga_tac|].
  assert (incl rs reservations) as Hrs by (intros x Hx; apply Hi; by right).
  assert (In r reservations) as Hr by (apply Hi; by left).
  unfold post_inventory. saga_tac; auto.
  apply safe_call. intros db. by exists r.
Qed.

Lemma release_body_recorded o f r db :
  started db (pd_tenant_id o) (reservation_task_key f r) -> release_started db (release_body o f r).
Proof.
  intros Hs. exists (pd_tenant_id o), (ir_reservation_id r), (fence_token f). done.
Qed.

Lemma release_recorded o f reservations :
  runs e (all_started o f reservations) recorded (release_inventory o reservations f) (fun _ _ => True).
Proof.
  eapply runs_conseq; [apply (runs_frame e He (all_started o f reservations)
    (release_call o f reservations) recorded); [apply stable_all_started|apply release_each_calls|]|done..].
  intros c db (r & Hr & ->) Hs _. apply release_body_recorded.
  unfold all_started in Hs. rewrite Forall_forall in Hs. by apply Hs, list_elem_of_In.
Qed.

Lemma safe_release o reservations c f :
  Forall positive reservations -> safe (release_inventory_with_recovery o reservations c f).
Proof.
  intros Hp. unfold release_inventory_with_recovery.
  apply safe_bind; [by apply safe_enqueue_inventory|]. intros _.
  eapply (runs_bind e He); [apply begins_started|]. intros ?. cbv beta.
  eapply (runs_bind e He _ _ _ _ (fun _ _ => True)); [apply release_recorded|]. intros _.
  apply (runs_conseq e always _ recorded recorded _ anything); [|done..].
  apply safe_each. intros. saga_tac.
Qed.
Hint Resolve safe_release : saga.

(** ** Reserving and consuming *)

Lemma safe_post f failed path body : path <> "/release" -> safe (post_inventory f failed path body).
Proof.
  intros Hp. unfold post_inventory. saga_tac.
Qed.

Lemma parsed_quantity body o sku quantity id r :
  parse_inventory_reservation body o sku quantity id = Ok r -> ir_quantity r = quantity.
Proof. unfold parse_inventory_reservation. intros H. res_inv. bool_inv. simpl. lia. Qed.

Lemma reserved_positive o line response r :
  reserve_outcome o line response = Ok r -> 0 < ln_quantity line -> positive r.
Proof.
  unfold reserve_outcome. intros H Hl. res_inv.
  match goal with Hp : parse_inventory_reservation _ _ _ _ _ = _ |- _ => apply parsed_quantity in Hp end.
  unfold positive. lia.
Qed.

Lemma yields_abandon {A} o reservations c f err (Q : A -> Prop) :
  Forall positive reservations -> yields (abandon_reservations o reservations c f err) Q.
Proof. intros Hp. unfold abandon_reservations. saga_tac. Qed.

Lemma yields_reserve o c f lines reservations :
  Forall (fun l => 0 < ln_quantity l) lines -> Forall positive reservations ->
  yields (reserve_each o c f lines reservations) (Forall positive).
Proof.
  intros Hl. revert reservations. induction Hl as [|line lines Hq Hl IH]; intros reservations Hp;
    cbn [reserve_each]; [by apply yields_ret|].
  assert (Forall positive (reservations ++ [unknown_reservation o line])) as Hu
    by (apply Forall_app; split; [done|by repeat constructor]).
  apply safe_bind; [apply safe_try; by apply safe_post|].
  intros [response|err]; [|by apply yields_abandon].
  apply safe_bind; [saga_tac|]. intros _.
  destruct (reserve_outcome _ _ _) eqn:Eo; [|by apply yields_abandon].
  apply IH, Forall_app. split; [done|]. constructor; [|done]. by eapply reserved_positive.
Qed.

Lemma yields_reserve_inventory o c f : order_ok o -> yields (reserve_inventory o c f) (Forall positive).
Proof. intros [_ Hl]. by apply yields_reserve. Qed.

Lemma safe_consume o reservations f : safe (consume_inventory o reservations f).
Proof.
  unfold consume_inventory. generalize (INVENTORY_CONSUME_ATTEMPTS - 1)%nat as n.
  induction n as [|n IH]; cbn [consume_attempts]; unfold consume_inventory_attempt; saga_tac;
    by apply safe_post.
Qed.
Hint Resolve safe_consume : saga.

(** ** The order *)

Lemma stored_lines_positive err items lines :
  map_res (stored_line err) items = Ok lines ->
  forallb (fun i => item_check (oi_quantity i) (oi_unit_price_minor i)) items = true ->
  Forall (fun l => 0 < ln_quantity l) lines.
Proof.
  revert lines. induction items as [|i items IH]; intros lines; simpl; [by intros [= <-]|].
  unfold stored_line at 1. destruct (fits_u32 _); simpl; [|done].
  destruct (map_res _ items) as [rest|]; simpl; [|done]. intros [= <-] Hc. unfold item_check in Hc.
  bool_inv. constructor; [done|]. by apply IH.
Qed.

Lemma checked_total o : order_check o = true -> 0 <= or_total_minor o.
Proof. unfold order_check, order_balanced. intros H. bool_inv. lia. Qed.

Lemma stored_order_ok err db k o tenant id cart customer session lines :
  db_checks db -> db_orders db !! k = Some o -> map_res (stored_line err) (or_items o) = Ok lines ->
  order_ok (stored_order tenant id cart customer session lines o).
Proof.
  intros Hc Hk Hl. pose proof (dc_orders db Hc k o Hk) as Ho. split; simpl; [by apply checked_total|].
  eapply stored_lines_positive; [done|]. unfold order_check in Ho. by bool_inv.
Qed.

Lemma with_items_lines lines o :
  forallb (fun i => item_check (oi_quantity i) (oi_unit_price_minor i)) (or_items (with_items lines o)) = true ->
  or_items o = [] -> Forall (fun l => 0 < ln_quantity l) lines.
Proof.
  rewrite with_items_row. simpl. intros Hc Ho. rewrite Ho in Hc. simpl in Hc. clear Ho. induction lines as [|l lines IH]; [done|].
  simpl in Hc. unfold item_check at 1 in Hc. bool_inv. constructor; auto.
Qed.

Lemma created_order_ok input quote session lease cu ou env db r db' p :
  create_pending_order_tx input quote session lease cu ou env db = Ok (r, db') ->
  db_checks db -> db_checks db' -> r = Ok p -> order_ok p.
Proof.
  unfold create_pending_order_tx. intros H Hc Hc' ->. tx_inv.
  destruct (find_order _ _ _) as [[[t id] o]|] eqn:Ef.
  - apply find_order_some in Ef as (Ho & _ & _). unfold resume_order in *. tx_inv.
    match goal with Hm : map_res _ _ = Ok ?l |- _ => rename Hm into Hl end.
    destruct (or_cart_id o); match goal with Hr : tx_ret _ _ _ = _ |- _ => apply tx_ret_ok in Hr as [[= ->] _] end.
    eapply (stored_order_ok _ db); eassumption.
  - match goal with Hn : new_order _ _ _ _ _ _ _ _ = _ |- _ =>
      apply new_order_steps in Hn as (totals & lines & t & a & [= ->] & _ & _ & _ & _ & _ & -> & _) end.
    set (row := new_order_row _ _ _ _ _ _) in Hc'.
    assert (Ho : order_check (with_items lines row) = true).
    { eapply (dc_orders _ Hc'). simpl. apply lookup_insert_eq. }
    split; simpl.
    + apply checked_total in Ho. by rewrite with_items_row in Ho.
    + unfold order_check in Ho. bool_inv. by eapply with_items_lines.
Qed.

Lemma yields_created input quote lease : yields (order_created input quote lease) order_ok.
Proof.
  unfold order_created. apply safe_bind; [saga_tac|]. intros session.
  apply safe_bind; [saga_tac|]. intros cu. apply safe_bind; [saga_tac|]. intros ou.
  eapply (yields_bind _ _ (fun r => forall p, r = Ok p -> order_ok p)).
  - apply yields_tx; [left; auto with transactions nocore|]. intros env db r db' H Hc Hc' p.
    by eapply created_order_ok.
  - intros r Hr. by apply yields_lift.
Qed.

Lemma loaded_order_ok db tenant id p :
  db_checks db -> load_pending_order db tenant id = Ok p -> order_ok p.
Proof. unfold load_pending_order. intros Hc H. res_inv. by eapply stored_order_ok. Qed.

Lemma yields_loaded tenant id : yields (order_loaded tenant id) order_ok.
Proof.
  unfold order_loaded. eapply (yields_bind _ _ (fun r => forall p, r = Ok p -> order_ok p)).
  - apply yields_tx; [right; apply reads_read|]. intros env db r db' [-> ->]%tx_read_ok Hc _ p.
    by apply loaded_order_ok.
  - intros r Hr. by apply yields_lift.
Qed.

Lemma safe_finalized c o p variant f : safe (order_finalized c o p variant f).
Proof.
  unfold order_finalized. saga_tac. apply safe_txn. constructor. apply (eo_pay e He).
Qed.

Lemma safe_took_effect o : safe (finalization_took_effect o).
Proof. unfold finalization_took_effect. saga_tac. Qed.

Lemma safe_wake tenant request : safe (wake_pending_payment_reconciliation tenant request).
Proof.
  unfold wake_pending_payment_reconciliation. saga_tac. apply safe_reads, reads_status.
Qed.
Hint Resolve safe_finalized safe_took_effect safe_wake : saga.

Lemma safe_register o lease p method variant c :
  order_ok o -> safe (register_reconciliation o lease p method variant c).
Proof. intros [Ht _]. unfold register_reconciliation. saga_tac. Qed.

Lemma safe_queue o lease p method variant c :
  order_ok o -> safe (queue_finalization_recovery o lease p method variant c).
Proof. intros [Ht _]. unfold queue_finalization_recovery. saga_tac. Qed.
Hint Resolve safe_register safe_queue : saga.

(** ** Checkout *)

Lemma safe_catalog input : safe (validate_catalog input).
Proof.
  unfold validate_catalog. generalize (in_items input) as items, (@nil json) as products.
  induction items as [|item items IH]; intros products; cbn [validate_catalog_items]; saga_tac; auto.
Qed.

Lemma safe_quoted input request variant : safe (quoted input request variant).
Proof.
  unfold quoted. generalize (quote_attempts input - 1)%nat as n.
  induction n as [|n IH]; cbn [quote_rounds]; saga_tac; auto.
Qed.

Lemma safe_recommended input o variant : safe (recommended input o variant).
Proof. unfold recommended, recommendation. saga_tac. Qed.
Hint Resolve safe_catalog safe_quoted safe_recommended : saga.

(** An answer with a status of its own. *)
Definition answered (payload : json) : Prop :=
  response_status payload <> AStarted /\ response_status payload <> AFailed.

Lemma safe_undone lease c o p : safe (payment_undone lease c o p).
Proof. unfold payment_undone. saga_tac. Qed.
Hint Resolve safe_undone : saga.

Lemma safe_undo_authorization lease c o p : safe (undo_authorization lease c o p).
Proof. unfold undo_authorization. saga_tac. Qed.

Lemma safe_undo_reservations lease c o reservations p :
  Forall positive reservations -> safe (undo_reservations lease c o reservations p).
Proof. intros Hp. unfold undo_reservations. saga_tac. Qed.
Hint Resolve safe_undo_authorization safe_undo_reservations : saga.

Lemma yields_unless_lost {A} lease variant c method o p err (m : Saga A) Q :
  order_ok o -> yields m Q -> yields (unless_lost lease variant c method o p err m) Q.
Proof.
  intros Ho Hm. unfold unless_lost. destruct (is_lease_lost err); [|done].
  apply safe_bind; [by apply safe_queue|]. intros _. apply yields_fail.
Qed.

Lemma safe_pay_order lease variant c method o p : order_ok o -> safe (pay_order lease variant c method o p).
Proof.
  intros Ho. unfold pay_order, unless_lost. saga_tac.
Qed.
Hint Resolve safe_pay_order : saga.

Lemma yields_complete input lease variant c method catalog quote o p :
  order_ok o -> yields (complete_authorized input lease variant c method catalog quote o p) answered.
Proof.
  intros Ho. unfold complete_authorized.
  eapply yields_bind; [apply yields_try, (yields_reserve_inventory o c _ Ho)|].
  intros [reservations|err] Hp; [|apply yields_unless_lost; [done|saga_tac]].
  apply safe_bind; [saga_tac|]. intros [_|err]; [|apply yields_unless_lost; [done|saga_tac]].
  apply safe_bind; [saga_tac|]. intros [_|err]; [|apply yields_unless_lost; [done|saga_tac]].
  apply safe_bind; [saga_tac|]. intros _. apply safe_bind; [saga_tac|]. intros suggestion.
  by apply yields_ret.
Qed.

Lemma yields_continue input lease variant c method catalog quote o a :
  order_ok o -> yields (continue_authorized input lease variant c method catalog quote o a) answered.
Proof.
  intros Ho. unfold continue_authorized. destruct (bool_decide _); [|by apply yields_complete].
  apply safe_bind; [saga_tac|]. intros _. by apply yields_ret.
Qed.

Lemma yields_resume input lease variant c token method catalog quote o err :
  order_ok o -> yields (resume_authorization input lease variant c token method catalog quote o err) answered.
Proof.
  intros Ho. unfold resume_authorization. apply safe_bind; [saga_tac|].
  intros [[a| | |err']|err'].
  - by apply yields_continue.
  - apply safe_bind; [saga_tac|]. intros _. destruct (in_degrade input); [by apply yields_ret|saga_tac].
  - apply safe_bind; [saga_tac|]. intros _. destruct (in_degrade input); [by apply yields_ret|saga_tac].
  - saga_tac.
  - saga_tac.
Qed.

Lemma yields_pay input lease variant c token method catalog quote o :
  order_ok o -> yields (pay_for_order input lease variant c token method catalog quote o) answered.
Proof.
  intros Ho. unfold pay_for_order. apply safe_bind; [saga_tac|]. intros [a|err].
  - by apply yields_continue.
  - apply yields_unless_lost; [done|]. destruct (is_ambiguous_payment_failure err); [|saga_tac].
    by apply yields_resume.
Qed.

Lemma yields_flow input c lease : yields (checkout_flow input c lease) answered.
Proof.
  unfold checkout_flow. do 5 (apply safe_bind; [saga_tac|]; intros ?).
  eapply yields_bind; [apply yields_created|]. intros o Ho. by apply yields_pay.
Qed.

Lemma safe_answer tenant request token answer :
  match answer with Ok p => answered p | Err _ => True end ->
  safe (record_answer tenant request token answer).
Proof.
  intros Ha. unfold record_answer. destruct answer as [p|err]; [|saga_tac].
  destruct Ha as [H1 H2]. cbv zeta. saga_tac.
Qed.

Lemma safe_checkout input c : safe (checkout_inner input c).
Proof.
  unfold checkout_inner. do 3 (apply safe_bind; [saga_tac|]; intros ?).
  eapply yields_bind; [apply safe_uuid|]. intros t1 H1.
  eapply yields_bind; [apply safe_uuid|]. intros t2 H2.
  apply safe_bind; [saga_tac|]. intros claim. destruct claim as [t| | | |]; [|saga_tac..].
  eapply yields_bind; [apply yields_try, yields_flow|]. intros answer Ha. by apply safe_answer.
Qed.

(** ** The workers *)

Lemma safe_stored c : safe (stored_context c).
Proof. unfold stored_context. saga_tac. Qed.
Hint Resolve safe_stored : saga.

Lemma safe_fenced_snapshot job o p : safe (fenced_snapshot job o p).
Proof. unfold fenced_snapshot, observe_payment. saga_tac. Qed.

Lemma safe_reconciled job o p : safe (reconciled job o p).
Proof. unfold reconciled, paid_reconciliation_payload. saga_tac. Qed.
Hint Resolve safe_fenced_snapshot safe_reconciled : saga.

Lemma safe_finalize_reconciled job o c p : safe (finalize_reconciled job o c p).
Proof. unfold finalize_reconciled. saga_tac. Qed.

Lemma safe_captured_failure o p request c f err :
  safe (reconcile_captured_payment_failure o p request c f err).
Proof. unfold reconcile_captured_payment_failure. saga_tac. Qed.
Hint Resolve safe_finalize_reconciled safe_captured_failure : saga.

Lemma safe_settle_captured job o c p : order_ok o -> safe (settle_captured job o c p).
Proof.
  intros Ho. unfold settle_captured.
  eapply yields_bind; [apply yields_try, (yields_reserve_inventory o c _ Ho)|].
  intros [reservations|err] Hp; saga_tac.
Qed.
Hint Resolve safe_settle_captured : saga.

Lemma safe_settle job o c p : order_ok o -> safe (settle_payment job o c p).
Proof. intros Ho. unfold settle_payment, settle_exact. saga_tac. Qed.
Hint Resolve safe_settle : saga.

Lemma safe_reconcile job : safe (reconcile_pending_payment job).
Proof.
  unfold reconcile_pending_payment. destruct (negb _); [saga_tac|].
  apply safe_bind; [saga_tac|]. intros _. eapply yields_bind; [apply yields_loaded|].
  intros o Ho. unfold job_payment_id. saga_tac.
Qed.
Hint Resolve safe_reconcile : saga.

Lemma safe_process_reconciliation : safe process_one_payment_reconciliation.
Proof.
  unfold process_one_payment_reconciliation. apply safe_bind; [saga_tac|]. intros [|]; [saga_tac|].
  eapply yields_bind; [apply safe_uuid|]. intros token Ht. saga_tac.
Qed.

Lemma safe_compensation_fence task : yields (compensation_fence task) (fun f => f = task_fence task).
Proof.
  unfold compensation_fence. cbv zeta. apply safe_bind.
  - apply safe_reads. apply reads_bind; [apply reads_now|]. intros. apply reads_read.
  - intros current. apply safe_bind; [saga_tac|]. intros _. by apply yields_ret.
Qed.

Lemma safe_process_release task : safe (process_inventory_release task).
Proof.
  unfold process_inventory_release. cbv zeta.
  apply safe_bind; [eapply yields_safe, safe_compensation_fence|]. intros f.
  apply safe_bind; [eapply yields_safe, yields_loaded|]. intros o.
  apply safe_bind; [saga_tac|]. intros id.
  eapply (runs_bind e He _ _ _ _ (fun _ db => started db (pd_tenant_id o) (inventory_task_key f id))).
  { apply runs_tx; [done|left; auto with transactions nocore|apply stable_always|].
    intros env db u db' H _ _ _. by eapply begin_started. }
  intros _.
  set (P := fun db => started db (pd_tenant_id o) (inventory_task_key f id)).
  assert (Hlift : forall A (r : ApiResult A), runs e P recorded (sg_lift r) (fun _ => P)) by by intros; apply runs_lift.
  eapply (runs_bind e He); [apply Hlift|]. intros sku. cbv beta.
  eapply (runs_bind e He); [apply Hlift|]. intros quantity. cbv beta.
  eapply (runs_bind e He _ _ _ _ (fun _ _ => True)).
  - eapply (runs_conseq e); [apply (release_recorded o f [mkInventoryReservation id sku quantity None])|..]; [|done..].
    intros db Hdb. by constructor.
  - intros _. apply (runs_conseq e always _ recorded recorded _ anything); [|done..]. saga_tac.
Qed.

Lemma safe_process_payment task : safe (process_payment_compensation task).
Proof.
  unfold process_payment_compensation. cbv zeta.
  apply safe_bind; [eapply yields_safe, safe_compensation_fence|]. intros f.
  apply safe_bind; [eapply yields_safe, yields_loaded|]. intros o. saga_tac.
Qed.
Hint Resolve safe_process_release safe_process_payment : saga.

Lemma safe_process_compensation : safe process_one_compensation.
Proof.
  unfold process_one_compensation, process_compensation_task, complete_compensation_task,
    dead_letter_compensation_task. apply safe_bind; [saga_tac|]. intros [|]; [saga_tac|].
  eapply yields_bind; [apply safe_uuid|]. intros token Ht. saga_tac.
Qed.
End runs.

(** ** Theorems *)

(** The service's entry points: a checkout request, and a round of each of its
    two workers. *)
Inductive checkout_saga : forall A : Type, Saga A -> Prop :=
| cs_request input c : checkout_saga json (checkout_inner input c)
| cs_reconciliation : checkout_saga bool process_one_payment_reconciliation
| cs_compensation : checkout_saga bool process_one_compensation.

Lemma saga_runs `{HP : Policy} e A (m : Saga A) :
  env_ok e -> checkout_saga A m -> runs e always recorded m anything.
Proof.
  intros He [input c| |]; [by apply safe_checkout|by apply safe_process_reconciliation|
    by apply safe_process_compensation].
Qed.

(** C2: compensation is written ahead.  Whatever the other services answer and
    whatever other processes do meanwhile, as long as they keep the tables'
    CHECKs and the compensation tasks, every void, refund or release a request
    or a worker sends finds, at the moment it is sent, a durable task of the
    same tenant and of that very payment or reservation whose operation is
    recorded as started: a crash at any point leaves a task to resume from. *)
Theorem compensations_write_ahead `{HP : Policy} e A (m : Saga A) w r w' :
  env_ok e -> checkout_saga A m -> db_checks (w_db w) -> m e w = (r, w') ->
  exists l, w_calls w' = w_calls w ++ l /\ Forall (fun cd => recorded cd.1 cd.2) l.
Proof.
  intros He Hm Hc H. destruct (saga_runs e A m He Hm w r w' H Hc I) as (_ & (l & Hl & Hf) & _).
  exists l. split; [done|]. eapply Forall_impl; [exact Hf|]. by intros cd [].
Qed.


(** The run of [undone_environment]: the capture fails, the reservation is
    released and the authorization voided. *)
Definition undone_run : ApiResult json * World :=
  checkout_inner demo_input demo_context undone_environment demo_world.

Lemma fresh_checks : db_checks fresh_db.
Proof. apply checks_pass_all. vm_compute. reflexivity. Qed.

Lemma compensations_write_ahead_witness :
  Forall (fun cd => recorded cd.1 cd.2) (w_calls undone_run.2).
Proof.
  destruct (@compensations_write_ahead demo_policy undone_environment json
              (checkout_inner demo_input demo_context) demo_world undone_run.1 undone_run.2)
    as (l & Hl & Hf).
  - split; [exact I|by intros|by intros|by intros].
  - constructor.
  - apply fresh_checks.
  - apply surjective_pairing.
  - rewrite Hl. exact Hf.
Defined.

