(* ===== verification/CheckoutSagaOutcomes.v ===== *)
(** What the answers of the sagas mean: a checkout that answers [paid] and a
    reconciliation that completes. *)

From S2P Require Import Prelude Proto Propagation PricingService Database CheckoutDomain CheckoutQuote CheckoutRecords CheckoutOrders CheckoutSteps CheckoutRuns CheckoutEvolution CheckoutDemo CheckoutInvariants CheckoutOutcomes CheckoutSagas CheckoutSagaRuns.
Import Schema Transactions CheckoutDomain CheckoutQuote CheckoutFence CheckoutCompensation CheckoutAttempts
  CheckoutReconciliation CheckoutOrders CheckoutSaga CheckoutPayments CheckoutStock CheckoutFlow
  CheckoutWorkers CheckoutEvolution CheckoutDemo CheckoutInvariants CheckoutOutcomes CheckoutSagaLogic
  CheckoutSagaDemo CheckoutSagaRuns.

(** ** Runs without compensating calls *)

Definition calm (w w' : World) : Prop :=
  exists l, w_calls w' = w_calls w ++ l /\ Forall (fun cd => compensating cd.1 = false) l.

#[export] Instance calm_preorder : PreOrder calm.
Proof.
  split.
  - intros w. exists []. by rewrite app_nil_r.
  - intros a b c (l & Hl & Hc) (l' & Hl' & Hc'). exists (l ++ l').
    rewrite app_assoc, <- Hl. split; [done|by apply Forall_app].
Qed.

Lemma calm_same w w' : w_calls w' = w_calls w -> calm w w'.
Proof. intros H. exists []. by rewrite app_nil_r. Qed.

Section calm.
Context (e : Environment).

(** Whatever its outcome. *)
Definition silent {A} (m : Saga A) : Prop := forall w r w', m e w = (r, w') -> calm w w'.

Lemma silent_done {A} (m : Saga A) : (forall w, (m e w).2 = w) -> silent m.
Proof. intros Hm w r w' H. specialize (Hm w). rewrite H in Hm. by simpl in Hm; subst. Qed.
Lemma silent_bind {A B} (m : Saga A) (k : A -> Saga B) :
  silent m -> (forall a, silent (k a)) -> silent (sg_bind m k).
Proof.
  intros Hm Hk w r w'. unfold sg_bind. destruct (m e w) as [[a|err] w1] eqn:E.
  - intros H. etransitivity; [by eapply Hm|by eapply Hk].
  - intros [= _ <-]. by eapply Hm.
Qed.
Lemma silent_try {A} (m : Saga A) : silent m -> silent (sg_try m).
Proof. intros Hm w r w'. unfold sg_try. destruct (m e w) eqn:E. intros [= _ <-]. by eapply Hm. Qed.
Lemma silent_tx {A} ce (m : Txn ApiError A) : silent (sg_tx_commit ce m).
Proof. intros w r w' H. apply calm_same. by apply sg_tx_keeps_calls in H. Qed.
Lemma silent_call {R} (reply : Environment -> nat -> Call -> R) c :
  compensating c = false -> silent (sg_call reply c).
Proof. intros Hc w r w' [= _ <-]. eexists. split; [done|]. by repeat constructor. Qed.
Lemma silent_fence {A} f (m : Saga A) : silent m -> silent (with_checkout_fence f m).
Proof.
  intros Hm. unfold with_checkout_fence. repeat (apply silent_bind; [|intros ?]);
    [apply silent_tx|by apply silent_try|apply silent_tx|by apply silent_done].
Qed.
End calm.

Ltac silent_step :=
  match goal with
  | |- silent _ (sg_bind _ _) => apply silent_bind; [|intros ?]
  | |- silent _ (sg_try _) => apply silent_try
  | |- silent _ (with_checkout_fence _ _) => apply silent_fence
  | |- silent _ (sg_tx_commit _ _) => apply silent_tx
  | |- silent _ (sg_tx _) => apply silent_tx
  | |- silent _ (sg_query _) => apply silent_tx
  | |- silent _ (sg_call _ _) => apply silent_call; reflexivity
  | |- silent _ (match ?x with _ => _ end) => destruct x eqn:?
  | |- silent _ (sg_ret _) => by apply silent_done
  | |- silent _ (sg_fail _) => by apply silent_done
  | |- silent _ (sg_lift _) => by apply silent_done
  | |- silent _ (sg_ensure _ _) => by apply silent_done
  | |- silent _ (sg_env _) => by apply silent_done
  | |- silent _ (sg_uuid _) => by apply silent_done
  | |- silent _ _ => solve [eauto 2 with calm]
  end.
Ltac silent_tac := cbv beta zeta; repeat (silent_step; cbv beta zeta).
Create HintDb calm.

Section outcomes.
Context (e : Environment).

Lemma silent_authorize o request token method : silent e (authorize_payment o request token method).
Proof. unfold authorize_payment. silent_tac. Qed.
Lemma silent_snapshot o p : silent e (get_payment_snapshot o p).
Proof. unfold get_payment_snapshot. silent_tac. Qed.
Lemma silent_capture o p request : silent e (capture_payment o p request).
Proof. unfold capture_payment. silent_tac. Qed.
Lemma silent_consume o reservations f : silent e (consume_inventory o reservations f).
Proof.
  unfold consume_inventory. generalize (INVENTORY_CONSUME_ATTEMPTS - 1)%nat as n.
  induction n as [|n IH]; cbn [consume_attempts]; unfold consume_inventory_attempt, post_inventory; silent_tac; auto.
Qed.
Lemma silent_catalog input : silent e (validate_catalog input).
Proof.
  unfold validate_catalog. generalize (in_items input) as items, (@nil json) as products.
  induction items as [|item items IH]; intros products; cbn [validate_catalog_items]; silent_tac; auto.
Qed.
Lemma silent_quoted input request variant : silent e (quoted input request variant).
Proof.
  unfold quoted. generalize (quote_attempts input - 1)%nat as n.
  induction n as [|n IH]; cbn [quote_rounds]; silent_tac; auto.
Qed.
Lemma silent_created input quote lease : silent e (order_created input quote lease).
Proof. unfold order_created. silent_tac. Qed.
Lemma silent_finalized c o p variant f : silent e (order_finalized c o p variant f).
Proof. unfold order_finalized. silent_tac. Qed.
Lemma silent_took_effect o : silent e (finalization_took_effect o).
Proof. unfold finalization_took_effect. silent_tac. Qed.
Lemma silent_recommended input o variant : silent e (recommended input o variant).
Proof. unfold recommended, recommendation. silent_tac. Qed.
Lemma silent_lookup o request : silent e (lookup_authorization_payment_id o request).
Proof. unfold lookup_authorization_payment_id. silent_tac. Qed.
Hint Resolve silent_lookup silent_authorize silent_snapshot silent_capture silent_consume silent_catalog silent_quoted
  silent_created silent_finalized silent_took_effect silent_recommended : calm.

(** ** Parts *)

Lemma fence_ok {A} f (m : Saga A) w a w' :
  with_checkout_fence f m e w = (Ok a, w') ->
  exists w1 w2, m e w1 = (Ok a, w2) /\ w_calls w1 = w_calls w /\ w_calls w' = w_calls w2.
Proof.
  unfold with_checkout_fence. intros H. sg_inv.
  repeat match goal with Ht : sg_tx _ _ _ = (Ok _, _) |- _ => apply sg_tx_keeps_calls in Ht end.
  by do 2 eexists.
Qed.

(** The capture of the order's total was sent and answered as done. *)
Definition captured_exactly (o : PendingOrder) (payment_id request_id : string) (w : World) : Prop :=
  let call := PaymentCapture (capture_request o payment_id request_id) in
  (exists n response, ev_payment e n call = PaymentAnswer (Ok response)
     /\ payment_operation_status (po_operation_status response) = OpSucceeded)
  /\ exists db, In (call, db) (w_calls w).

Lemma capture_ok o p request w u w' :
  capture_payment o p request e w = (Ok u, w') -> captured_exactly o p request w'.
Proof.
  unfold capture_payment. intros H. sg_inv.
  match goal with H1 : payment_answer _ _ = Ok ?r, H2 : operation_succeeded _ ?r = _ |- _ =>
    rename H1 into Hanswer, H2 into Hdone, r into response end.
  split.
  - destruct (ev_payment e (w_at w) _) as [m|[r|s]] eqn:E; simpl in Hanswer; try done. injection Hanswer as ->.
    exists (w_at w), response. split; [done|]. apply ensure_ok in Hdone. by bool_inv.
  - exists (w_db w). simpl. apply in_or_app. right. by left.
Qed.
(** One reservation for each line of the order. *)
Definition reserved_for (o : PendingOrder) : list OrderLine -> list InventoryReservation -> Prop :=
  Forall2 (fun line r => ir_reservation_id r = reservation_id_of o line /\ ir_sku r = ln_sku line
                         /\ ir_quantity r = ln_quantity line).

Lemma parsed_reservation body o sku quantity id r :
  parse_inventory_reservation body o sku quantity id = Ok r ->
  ir_reservation_id r = id /\ ir_sku r = sku /\ ir_quantity r = quantity.
Proof. unfold parse_inventory_reservation. intros H. res_inv. bool_inv. simpl. split_and!; congruence || lia. Qed.

Lemma abandon_fails {A} o reservations c f err w (a : A) w' :
  abandon_reservations o reservations c f err e w <> (Ok a, w').
Proof. unfold abandon_reservations. intros H. sg_inv. Qed.

Lemma silent_post f failed path body :
  compensating (InventoryPost path body) = false -> silent e (post_inventory f failed path body).
Proof. intros Hp. unfold post_inventory. silent_tac. by apply silent_call. Qed.

Lemma reserve_each_ok o c f lines rs0 w rs w' :
  reserve_each o c f lines rs0 e w = (Ok rs, w') ->
  calm w w' /\ exists rs1, rs = rs0 ++ rs1 /\ reserved_for o lines rs1.
Proof.
  revert rs0 w. induction lines as [|line lines IH]; intros rs0 w; cbn [reserve_each]; intros H.
  - sg_inv. split; [done|]. exists []. rewrite app_nil_r. split; [done|constructor].
  - sg_inv. match goal with Hs : post_inventory _ _ _ _ _ _ = _ |- _ =>
      apply (silent_post f inventory_unavailable "/reserve" _ eq_refl) in Hs; rename Hs into Hcalm end.
    case_match; [|by apply abandon_fails in H]. sg_inv.
    match goal with Ht : sg_tx _ _ _ = _ |- _ => apply silent_tx in Ht; rename Ht into Hcalm2 end.
    destruct (reserve_outcome _ _ _) as [r|err] eqn:Eo; [|by apply abandon_fails in H].
    apply IH in H as (Hcalm3 & rs1 & -> & Hrs). split; [by do 2 (etransitivity; [done|])|].
    exists (r :: rs1). rewrite <- app_assoc. split; [done|]. constructor; [|done].
    unfold reserve_outcome in Eo. res_inv. by eapply parsed_reservation.
Qed.

(** The consumption of the reservations was sent and answered as done. *)
Definition consumed_exactly (o : PendingOrder) (reservations : list InventoryReservation)
    (f : CheckoutFence) (w : World) : Prop :=
  let call := InventoryPost "/consume" (consume_body o f reservations) in
  (exists n response,
     http_sent (mkApiError SERVICE_UNAVAILABLE "inventory_commit_unavailable") (ev_http e n call)
       = Ok response
     /\ consume_outcome o reservations response = Ok tt)
  /\ exists db, In (call, db) (w_calls w).

Lemma post_ok f failed path body w response w' :
  post_inventory f failed path body e w = (Ok response, w') ->
  (exists n, http_sent failed (ev_http e n (InventoryPost path body)) = Ok response)
  /\ exists db, In (InventoryPost path body, db) (w_calls w').
Proof.
  unfold post_inventory. intros H. apply fence_ok in H as (w1 & w2 & H & _ & Hw). sg_inv.
  split; [by eexists|]. exists (w_db w1). rewrite Hw. simpl. apply in_or_app. right. by left.
Qed.

Lemma consume_ok o reservations f w u w' :
  consume_inventory o reservations f e w = (Ok u, w') -> consumed_exactly o reservations f w'.
Proof.
  unfold consume_inventory. generalize (INVENTORY_CONSUME_ATTEMPTS - 1)%nat as n. intros n.
  revert w. induction n as [|n IH]; intros w; cbn [consume_attempts]; intros H; sg_inv;
    (case_match; [|try (case_match; [by eapply IH|]); by sg_inv]); sg_inv.
  all: match goal with Ha : consume_inventory_attempt _ _ _ _ _ = _ |- _ => unfold consume_inventory_attempt in Ha end.
  all: sg_inv; match goal with Hp : post_inventory _ _ _ _ _ _ = _ |- _ => apply post_ok in Hp as [[k Hk] [db Hdb]] end.
  all: match goal with Ht : sg_tx _ _ _ = _ |- _ => apply sg_tx_keeps_calls in Ht as Hcalls end.
  all: split; [exists k; eexists; split; [done|]|exists db; by rewrite Hcalls].
  all: match goal with Hc : consume_outcome _ _ _ = Ok ?u |- _ => by destruct u end.
Qed.

(** ** Finalization *)

Lemma took_effect_ok o w w' :
  finalization_took_effect o e w = (Ok true, w') -> finalization_committed (w_db w') o = Ok true.
Proof.
  unfold finalization_took_effect. intros H. sg_inv. case_match.
  - sg_inv. match goal with Hq : sg_query _ _ _ = _ |- _ => apply sg_query_ok in Hq as [Hf ->] end.
    exact (eq_sym Hf).
  - case_match; sg_inv. done.
Qed.

Lemma finalized_ok c o p variant f w u w' :
  order_finalized c o p variant f e w = (Ok u, w') -> finalization_committed (w_db w') o = Ok true.
Proof.
  unfold order_finalized. intros H. sg_inv. apply sg_tx_commit_ok in H as [_ H].
  apply finalize_ok in H. by eapply finalized_committed.
Qed.

Lemma pay_order_ok lease variant c method o p w u w' :
  pay_order lease variant c method o p e w = (Ok u, w') ->
  calm w w' /\ finalization_committed (w_db w') o = Ok true.
Proof.
  unfold pay_order. intros H. sg_inv. match goal with Hf : order_finalized _ _ _ _ _ _ _ = _ |- _ => rename Hf into Hfin end.
  pose proof (silent_finalized _ _ _ _ _ _ _ _ Hfin) as Hcalm. case_match.
  - sg_inv. split; [done|]. by eapply finalized_ok.
  - unfold unless_lost in H. case_match; sg_inv.
    match goal with Ht : finalization_took_effect _ _ _ = _ |- _ => rename Ht into Htook end.
    pose proof (silent_took_effect _ _ _ _ Htook). case_match; sg_inv.
    split; [by etransitivity|]. by eapply took_effect_ok.
Qed.

(** ** Checkout *)

Lemma recovered_calm o request token method c f w a w' :
  recover_authorization o request token method c f e w = (Ok (Recovered a), w') -> calm w w'.
Proof.
  unfold recover_authorization. intros H. sg_inv.
  match goal with Ha : authorize_payment _ _ _ _ _ _ = _ |- _ => pose proof (silent_authorize _ _ _ _ _ _ _ Ha) end.
  case_match; [by sg_inv|]. case_match; sg_inv; [done|].
  match goal with Hl : lookup_authorization_payment_id _ _ _ _ = _ |- _ => pose proof (silent_lookup _ _ _ _ _ Hl) end.
  case_match; sg_inv; [|done].
  match goal with Hs : get_payment_snapshot _ _ _ _ = _ |- _ => pose proof (silent_snapshot _ _ _ _ _ Hs) end.
  case_match; sg_inv; case_match; sg_inv; by do 2 (etransitivity; [done|]).
Qed.
(** What stands behind the answer [paid] of the flow. *)
Definition paid_run (lease : CheckoutLease) (payload : json) (w w' : World) : Prop :=
  calm w w'
  /\ exists o payment_id reservations,
       jget_str "order_id" payload = Some (pd_id o) /\ jget_str "payment_id" payload = Some payment_id
       /\ captured_exactly o payment_id (cl_request_id lease) w'
       /\ reserved_for o (pd_lines o) reservations
       /\ consumed_exactly o reservations (Attempt lease) w'
       /\ exists db, finalization_committed db o = Ok true
            /\ (w_db w' = db \/ exists n, w_db w' = ev_meanwhile e n db).

Lemma calm_in cd w w' : calm w w' -> In cd (w_calls w) -> In cd (w_calls w').
Proof. intros (l & -> & _) Hin. apply in_or_app. by left. Qed.

Lemma captured_calm o p request w w' :
  calm w w' -> captured_exactly o p request w -> captured_exactly o p request w'.
Proof. intros Hc [Ha [db Hdb]]. split; [done|]. exists db. by eapply calm_in. Qed.

Lemma consumed_calm o reservations f w w' :
  calm w w' -> consumed_exactly o reservations f w -> consumed_exactly o reservations f w'.
Proof. intros Hc [Ha [db Hdb]]. split; [done|]. exists db. by eapply calm_in. Qed.

Lemma paid_run_calm lease payload w w1 w' : calm w w1 -> paid_run lease payload w1 w' -> paid_run lease payload w w'.
Proof. intros Hc [Hc' Hp]. split; [by etransitivity|done]. Qed.

(** The recommendation leaves the database to others. *)
Lemma recommended_db input o variant w r w' :
  recommended input o variant e w = (r, w') -> w_db w' = w_db w \/ exists n, w_db w' = ev_meanwhile e n (w_db w).
Proof.
  unfold recommended. destruct (negb _); [intros [= _ <-]; by left|].
  unfold recommendation, sg_bind, sg_try, sg_call, sg_lift, sg_ret. simpl. intros [= _ <-]. right. by eexists.
Qed.

Lemma complete_paid input lease variant c method catalog quote o p w payload w' :
  complete_authorized input lease variant c method catalog quote o p e w = (Ok payload, w') ->
  paid_run lease payload w w'.
Proof.
  unfold complete_authorized, unless_lost. intros H. sg_inv.
  match goal with Hr : reserve_inventory _ _ _ _ _ = _ |- _ => rename Hr into Hreserve end.
  case_match; [|case_match; by sg_inv]. unfold reserve_inventory in Hreserve.
  apply reserve_each_ok in Hreserve as (Hc1 & rs & -> & Hrs). sg_inv.
  match goal with Hf : with_checkout_fence _ _ _ _ = (?r, _) |- _ => rename Hf into Hcapture; destruct r end;
    [|case_match; by sg_inv].
  assert (Hc2 : calm x0 x2) by (by eapply silent_fence; [apply silent_capture|]).
  apply fence_ok in Hcapture as (w1 & w2 & Hcapture%capture_ok & _ & Hw2).
  assert (Hcap : captured_exactly o p (cl_request_id lease) x2).
  { destruct Hcapture as [Ha [db Hdb]]. split; [done|]. exists db. by rewrite Hw2. }
  sg_inv. match goal with Hn : consume_inventory _ _ _ _ _ = (?r, _) |- _ => rename Hn into Hconsume; destruct r end;
    [|case_match; [by sg_inv|case_match; by sg_inv]].
  pose proof (silent_consume _ _ _ _ _ _ Hconsume) as Hc3. apply consume_ok in Hconsume. sg_inv.
  match goal with Hp : pay_order _ _ _ _ _ _ _ _ = _ |- _ => apply pay_order_ok in Hp as [Hc4 Hfin] end.
  match goal with Hr : recommended _ _ _ _ _ = _ |- _ =>
    pose proof (silent_recommended _ _ _ _ _ _ Hr) as Hc5; apply recommended_db in Hr as Hdb end.
  split; [by do 4 (etransitivity; [done|])|]. exists o, p, rs. split_and!; [done|done| |done| |].
  - eapply captured_calm; [|exact Hcap]. by do 2 (etransitivity; [done|]).
  - eapply consumed_calm; [|exact Hconsume]. by etransitivity.
  - eexists. split; [exact Hfin|done].
Qed.

Lemma continue_paid input lease variant c method catalog quote o a w payload w' :
  continue_authorized input lease variant c method catalog quote o a e w = (Ok payload, w') ->
  jget_str "status" payload = Some "paid" -> paid_run lease payload w w'.
Proof.
  unfold continue_authorized. destruct (bool_decide _); [|intros H _; by eapply complete_paid].
  intros H Hs. sg_inv. discriminate Hs.
Qed.

Lemma resume_paid input lease variant c token method catalog quote o err w payload w' :
  resume_authorization input lease variant c token method catalog quote o err e w = (Ok payload, w') ->
  jget_str "status" payload = Some "paid" -> paid_run lease payload w w'.
Proof.
  unfold resume_authorization. intros H Hs. sg_inv.
  match goal with Hf : with_checkout_fence _ _ _ _ = (?r, _) |- _ => rename Hf into Hrecover; destruct r as [[a| | |]|] end.
  - eapply paid_run_calm; [|by eapply continue_paid].
    apply fence_ok in Hrecover as (w1 & w2 & Hr%recovered_calm & Hw1 & Hw2).
    destruct Hr as (l & Hl & Hall). exists l. by rewrite Hw2, Hl, Hw1.
  - sg_inv. destruct (in_degrade input); sg_inv. discriminate Hs.
  - sg_inv. destruct (in_degrade input); sg_inv. discriminate Hs.
  - by sg_inv.
  - by sg_inv.
Qed.

(** ** Reconciliation *)

(** The payment service has reported the payment as captured for the exact
    total, nothing of it refunded. *)
Definition reported_captured (o : PendingOrder) (payment_id : string) : Prop :=
  exists n response s,
    ev_snapshot e n (PaymentGet (mkGetPaymentRequest payment_id (pd_tenant_id o)))
      = PaymentAnswer (Ok response)
    /\ read_snapshot o payment_id response = Ok s /\ exactly_captured o s = true.

Definition completed_run (job : PaymentReconciliationJob) (o : PendingOrder) (payment_id : string)
    (payload : json) (w w' : World) : Prop :=
  calm w w'
  /\ (exists base, payload = set_fields (paid_fields job o payment_id) base)
  /\ reported_captured o payment_id
  /\ exists reservations, reserved_for o (pd_lines o) reservations
       /\ consumed_exactly o reservations (job_fence job) w'
       /\ exists db n, finalization_committed db o = Ok true /\ w_db w' = ev_meanwhile e n db.

Lemma snapshot_ok o p w s w' :
  get_payment_snapshot o p e w = (Ok s, w') ->
  exists n response, ev_snapshot e n (PaymentGet (mkGetPaymentRequest p (pd_tenant_id o)))
                     = PaymentAnswer (Ok response) /\ read_snapshot o p response = Ok s.
Proof.
  unfold get_payment_snapshot. intros H. sg_inv.
  match goal with Ha : payment_answer _ ?r = Ok _ |- _ => destruct r as [m|[response|f]] eqn:E end; try done.
  simpl in *. res_inv. by do 2 eexists.
Qed.

Lemma silent_observed job o p : silent e (fenced_snapshot job o p).
Proof. unfold fenced_snapshot, observe_payment. silent_tac. Qed.

Lemma fenced_snapshot_ok job o p w s w' :
  fenced_snapshot job o p e w = (Ok s, w') ->
  exists n response, ev_snapshot e n (PaymentGet (mkGetPaymentRequest p (pd_tenant_id o)))
                     = PaymentAnswer (Ok response) /\ read_snapshot o p response = Ok s.
Proof.
  unfold fenced_snapshot. intros H. sg_inv.
  match goal with Hf : with_checkout_fence _ _ _ _ = _ |- _ => apply fence_ok in Hf as (w1 & w2 & Hf & _) end.
  by eapply snapshot_ok.
Qed.

Lemma reconciled_ok job o p w outcome w' :
  reconciled job o p e w = (Ok outcome, w') ->
  exists base, outcome = PCompleted (set_fields (paid_fields job o p) base)
    /\ calm w w' /\ exists n, w_db w' = ev_meanwhile e n (w_db w).
Proof.
  unfold reconciled, paid_reconciliation_payload. intros H. sg_inv.
  match goal with Hq : sg_query _ _ _ = _ |- _ => apply sg_query_ok in Hq as [-> ->] end.
  eexists. split; [done|]. split; [by apply calm_same|]. by eexists.
Qed.

Lemma captured_failure_fails o p request c f err w payload w' :
  reconcile_captured_payment_failure o p request c f err e w <> (Ok (PCompleted payload), w').
Proof. unfold reconcile_captured_payment_failure. intros H. by sg_inv. Qed.

Lemma finalize_reconciled_ok job o c p w payload w' :
  finalize_reconciled job o c p e w = (Ok (PCompleted payload), w') ->
  calm w w' /\ (exists base, payload = set_fields (paid_fields job o p) base)
  /\ exists db n, finalization_committed db o = Ok true /\ w_db w' = ev_meanwhile e n db.
Proof.
  unfold finalize_reconciled. intros H. sg_inv.
  match goal with Hf : order_finalized _ _ _ _ _ _ _ = (?r, _) |- _ =>
    pose proof (silent_finalized _ _ _ _ _ _ _ _ Hf) as Hc1; rename Hf into Hfin; destruct r as [u|err] end.
  - apply finalized_ok in Hfin. apply reconciled_ok in H as (base & [= ->] & Hc2 & n & Hn).
    split; [by etransitivity|]. split; [by eexists|]. eexists _, n. by split; [exact Hfin|].
  - destruct (is_lease_lost err); [by sg_inv|]. sg_inv.
    match goal with Ht : finalization_took_effect _ _ _ = _ |- _ =>
      pose proof (silent_took_effect _ _ _ _ Ht) as Hc2; rename Ht into Htook end.
    case_match; [|by sg_inv]. apply took_effect_ok in Htook.
    apply reconciled_ok in H as (base & [= ->] & Hc3 & n & Hn).
    split; [by do 2 (etransitivity; [done|])|]. split; [by eexists|]. eexists _, n. by split; [exact Htook|].
Qed.

Lemma settle_captured_ok job o c p w payload w' :
  settle_captured job o c p e w = (Ok (PCompleted payload), w') ->
  reported_captured o p -> completed_run job o p payload w w'.
Proof.
  unfold settle_captured. intros H Hrep. sg_inv.
  match goal with Hr : reserve_inventory _ _ _ _ _ = (?r, _) |- _ => rename Hr into Hreserve; destruct r end;
    [|destruct (is_lease_lost _); [by sg_inv|by apply captured_failure_fails in H]].
  unfold reserve_inventory in Hreserve. apply reserve_each_ok in Hreserve as (Hc1 & rs & -> & Hrs). sg_inv.
  match goal with Hn : consume_inventory _ _ _ _ _ = (?r, _) |- _ => rename Hn into Hconsume; destruct r end;
    [|destruct (is_lease_lost _); [by sg_inv|sg_inv; by apply captured_failure_fails in H]].
  pose proof (silent_consume _ _ _ _ _ _ Hconsume) as Hc2. apply consume_ok in Hconsume.
  apply finalize_reconciled_ok in H as (Hc3 & Hbase & Hdb).
  split; [by do 2 (etransitivity; [done|])|]. split_and!; [done..|]. exists rs. split_and!; [done| |done].
  by eapply consumed_calm.
Qed.

Lemma settle_exact_ok job o c p s w payload w' :
  settle_exact job o c p s e w = (Ok (PCompleted payload), w') ->
  (exists n response, ev_snapshot e n (PaymentGet (mkGetPaymentRequest p (pd_tenant_id o)))
                     = PaymentAnswer (Ok response) /\ read_snapshot o p response = Ok s) ->
  completed_run job o p payload w w'.
Proof.
  unfold settle_exact. destruct (exactly_captured o s) eqn:Es; [|intros H; by sg_inv].
  intros H (n & response & Hn & Hr). eapply settle_captured_ok; [done|]. by exists n, response, s.
Qed.

Lemma completed_run_calm job o p payload w w1 w' :
  calm w w1 -> completed_run job o p payload w1 w' -> completed_run job o p payload w w'.
Proof. intros Hc [Hc' Hp]. split; [by etransitivity|done]. Qed.

Lemma settle_ok job o c p w payload w' :
  settle_payment job o c p e w = (Ok (PCompleted payload), w') -> completed_run job o p payload w w'.
Proof.
  unfold settle_payment. intros H. sg_inv.
  match goal with Hf : fenced_snapshot _ _ _ _ _ = _ |- _ =>
    pose proof (silent_observed _ _ _ _ _ _ Hf); apply fenced_snapshot_ok in Hf end.
  destruct (terminal_outcome _) as [outcome|] eqn:Eo.
  - sg_inv. unfold terminal_outcome in Eo. by case_match.
  - sg_inv. destruct (bool_decide _ && _).
    + sg_inv. match goal with Hw : with_checkout_fence _ _ _ _ = _ |- _ =>
        eapply silent_fence in Hw; [|apply silent_capture] end.
      match goal with Hf : fenced_snapshot _ _ _ _ _ = _ |- _ =>
        pose proof (silent_observed _ _ _ _ _ _ Hf); apply fenced_snapshot_ok in Hf end.
      case_match; [by sg_inv|]. do 3 (eapply completed_run_calm; [eassumption|]). by eapply settle_exact_ok.
    + eapply completed_run_calm; [eassumption|]. by eapply settle_exact_ok.
Qed.

Lemma silent_loaded tenant id : silent e (order_loaded tenant id).
Proof. unfold order_loaded. silent_tac. Qed.
Lemma silent_context c : silent e (stored_context c).
Proof. unfold stored_context. silent_tac. Qed.
Lemma silent_job_payment job o : silent e (job_payment_id job o).
Proof. unfold job_payment_id. silent_tac. Qed.
Lemma silent_attached (b : bool) job p :
  silent e (if b then sg_ret tt else sg_tx (attach_payment_to_reconciliation job p)).
Proof. silent_tac. Qed.

End outcomes.

(** ** Concrete runs *)


Definition completed_payload : json :=
  match reconciled_run.1 with Ok (PCompleted payload) => payload | _ => JNull end.
Lemma completed_ok :
  match reconciled_run.1 with Ok (PCompleted _) => true | _ => false end = true ->
  reconciled_run = (Ok (PCompleted completed_payload), reconciled_run.2).
Proof.
  unfold completed_payload. destruct reconciled_run as [[[]|] w]; done.
Qed.

