(* ===== verification/CheckoutSettlement.v ===== *)
(** How a checkout ends: the refunds it may ask for, and the answer it stores. *)

From stdpp Require Import relations.
From S2P Require Import Prelude Proto Propagation PricingService Database CheckoutDomain CheckoutQuote CheckoutRecords CheckoutOrders CheckoutSteps CheckoutRuns CheckoutEvolution CheckoutTransactions CheckoutDemo CheckoutInvariants CheckoutSagas CheckoutSagaRuns CheckoutSagaOutcomes.

(** Compensating a payment: what [compensate_payment] sends, how much of it, and
    what a confirmed compensation rests on. *)
Module CheckoutRefunds.

Import Proto Schema Transactions CheckoutDomain CheckoutOrders CheckoutSaga CheckoutPayments CheckoutSagaLogic
  CheckoutSagaDemo CheckoutSagaRuns CheckoutSagaOutcomes.

Section refunds.
Context (e : Environment).

(** What compensating a payment sends: lookups, the void of the payment, refunds
    of a positive amount within the order's total; the request id of a refund is
    determined by its amount. *)
Inductive compensation_call (o : PendingOrder) (payment_id request_id : string) : Call -> Prop :=
| CcGet : compensation_call o payment_id request_id
            (PaymentGet (mkGetPaymentRequest payment_id (pd_tenant_id o)))
| CcVoid : compensation_call o payment_id request_id
             (PaymentVoid (mkVoidRequest (request_id +:+ ":void") payment_id VoidReason_OrderCancelled
                             (pd_tenant_id o)))
| CcRefund amount :
    0 < amount <= pd_total_minor o ->
    compensation_call o payment_id request_id
      (PaymentRefund (mkRefundRequest (request_id +:+ ":refund:" +:+ show_Z amount) payment_id
                        (order_money o amount) RefundReason_OrderCancelled (pd_tenant_id o))).

(** The payment service has reported that nothing captured is left. *)
Definition reported_compensated (o : PendingOrder) (payment_id : string) : Prop :=
  exists n response s,
    ev_snapshot e n (PaymentGet (mkGetPaymentRequest payment_id (pd_tenant_id o)))
      = PaymentAnswer (Ok response)
    /\ read_snapshot o payment_id response = Ok s
    /\ ps_status s ∈ [PsVoided; PsFailed; PsPartiallyRefunded; PsRefunded]
    /\ ps_captured_minor s = ps_refunded_minor s.

(** A run that sends such calls only, at most [bound] of them and at most
    [rounds] that change the payment. *)
Definition sends (o : PendingOrder) (payment_id request_id : string) (bound rounds : nat) (w w' : World) : Prop :=
  exists l, w_calls w' = w_calls w ++ l /\ (length l <= bound)%nat
    /\ (length (filter (fun cd => compensating cd.1 = true) l) <= rounds)%nat
    /\ Forall (fun cd => compensation_call o payment_id request_id cd.1) l.

Lemma sends_trans o p request a b c d w w1 w' :
  sends o p request a b w w1 -> sends o p request c d w1 w' -> sends o p request (a + c) (b + d) w w'.
Proof.
  intros (l & Hl & La & Lb & Hc) (l' & Hl' & La' & Lb' & Hc'). exists (l ++ l').
  rewrite app_assoc, <- Hl, filter_app, !length_app. split_and!; [done|lia|lia|by apply Forall_app].
Qed.

Lemma sends_le o p request a b a' b' w w' :
  sends o p request a b w w' -> (a <= a')%nat -> (b <= b')%nat -> sends o p request a' b' w w'.
Proof. intros (l & Hl & La & Lb & Hc) Ha Hb. exists l. split_and!; [done|lia|lia|done]. Qed.

Lemma tried_snapshot o p request w :
  exists r w1, sg_try (get_payment_snapshot o p) e w = (Ok r, w1) /\ sends o p request 1 0 w w1
    /\ forall s, r = Ok s ->
         exists n response, ev_snapshot e n (PaymentGet (mkGetPaymentRequest p (pd_tenant_id o)))
                            = PaymentAnswer (Ok response) /\ read_snapshot o p response = Ok s.
Proof.
  unfold sg_try. destruct (get_payment_snapshot o p e w) as [r w1] eqn:E. do 2 eexists. split; [done|]. split.
  - unfold get_payment_snapshot, sg_bind, sg_call, sg_lift in E.
    assert (w_calls w1 = w_calls w ++ [(PaymentGet (mkGetPaymentRequest p (pd_tenant_id o)), w_db w)]) as Hw
      by (destruct (payment_answer _ _); injection E as _ <-; done).
    eexists. split; [exact Hw|]. split_and!; [simpl; lia|simpl; lia|]. by repeat constructor.
  - intros s ->. by eapply snapshot_ok.
Qed.

Lemma sends_one o p request c w w1 :
  w_calls w1 = w_calls w ++ [(c, w_db w)] -> compensation_call o p request c ->
  sends o p request 1 1 w w1.
Proof.
  intros Hw Hc. eexists. split; [exact Hw|]. split_and!; [simpl; lia| |by repeat constructor].
  rewrite filter_cons. case_decide; simpl; lia.
Qed.

(** A refund never exceeds the order's total. *)
Lemma remaining_within o p response s :
  read_snapshot o p response = Ok s -> ps_captured_minor s - ps_refunded_minor s <= pd_total_minor o.
Proof.
  unfold read_snapshot, amounts_valid. intros H. res_inv. bool_inv. simpl. lia.
Qed.

(** A call whose answer is checked. *)
Lemma tried_answer c o p request operation w :
  compensation_call o p request c ->
  exists r w1,
    sg_try (sg_bind (sg_call ev_payment c) (fun reply =>
            sg_bind (sg_lift (payment_answer operation reply)) (fun response =>
            sg_lift (operation_succeeded operation response)))) e w = (Ok r, w1)
    /\ sends o p request 1 1 w w1.
Proof.
  intros Hc. unfold sg_try, sg_bind, sg_call, sg_lift.
  destruct (payment_answer _ _); do 2 eexists; (split; [reflexivity|]); by apply (sends_one o p request c).
Qed.

Lemma tried_action o p request s action response w :
  read_snapshot o p response = Ok s -> compensation_action o p request s = Some action ->
  exists r w1, sg_try action e w = (Ok r, w1) /\ sends o p request 1 1 w w1.
Proof.
  intros Hs%remaining_within. unfold compensation_action.
  destruct (0 <? _) eqn:Er; [|case_bool_decide]; intros [= <-]; bool_inv.
  - eapply (tried_answer (PaymentRefund _)). constructor. lia.
  - eapply (tried_answer (PaymentVoid _)). constructor.
Qed.

Lemma confirmed_reported o p response s n :
  ev_snapshot e n (PaymentGet (mkGetPaymentRequest p (pd_tenant_id o))) = PaymentAnswer (Ok response) ->
  read_snapshot o p response = Ok s -> payment_compensation_confirmed s = true ->
  reported_compensated o p.
Proof.
  intros Hn Hr Hc. exists n, response, s. split_and!; [done|done| |];
    unfold payment_compensation_confirmed in Hc; destruct (ps_status s); try done;
    bool_inv; try lia; set_solver.
Qed.

Lemma rounds_bounded o p request rounds w :
  exists confirmed w', compensate_rounds o p request rounds e w = (Ok confirmed, w')
    /\ sends o p request (3 * rounds) rounds w w'
    /\ (confirmed = true -> reported_compensated o p).
Proof.
  revert w. induction rounds as [|rounds IH]; intros w; cbn [compensate_rounds].
  { exists false, w. split_and!; [done| |done]. exists []. rewrite app_nil_r. repeat split; simpl; lia || done. }
  destruct (tried_snapshot o p request w) as (r & w1 & E & Hsent & Hr). unfold sg_bind. rewrite E.
  assert (forall b, (b = true -> reported_compensated o p) ->
    exists confirmed w', (Ok b : ApiResult bool, w1) = (Ok confirmed, w')
      /\ sends o p request (3 * S rounds) (S rounds) w w' /\ (confirmed = true -> reported_compensated o p))
    as Hstop by (intros b Hb; exists b, w1; split_and!; [done|eapply sends_le; [done|lia|lia]|done]).
  destruct r as [s|err]; [|by apply Hstop]. destruct (Hr s eq_refl) as (n & response & Hn & Hread).
  destruct (payment_compensation_confirmed s) eqn:Es; [apply Hstop; by eauto using confirmed_reported|].
  destruct (compensation_action o p request s) as [action|] eqn:Ea; [|by apply Hstop].
  destruct (tried_action _ _ _ _ _ _ w1 Hread Ea) as (r2 & w2 & E2 & Hsent2). rewrite E2.
  destruct (tried_snapshot o p request w2) as (r3 & w3 & E3 & Hsent3 & Hr3). rewrite E3.
  pose proof (sends_trans _ _ _ _ _ _ _ _ _ _ (sends_trans _ _ _ _ _ _ _ _ _ _ Hsent Hsent2) Hsent3) as Hall.
  assert (forall b, (b = true -> reported_compensated o p) ->
    exists confirmed w', (Ok b : ApiResult bool, w3) = (Ok confirmed, w')
      /\ sends o p request (3 * S rounds) (S rounds) w w' /\ (confirmed = true -> reported_compensated o p))
    as Hstop3 by (intros b Hb; exists b, w3; split_and!; [done|eapply sends_le; [done|lia|lia]|done]).
  destruct r3 as [s3|err3]; [|by apply Hstop3]. destruct (Hr3 s3 eq_refl) as (n3 & response3 & Hn3 & Hread3).
  destruct (payment_compensation_confirmed s3) eqn:Es3; [apply Hstop3; by eauto using confirmed_reported|].
  destruct (IH w3) as (confirmed & w' & Hrun & Hrest & Hconf). exists confirmed, w'.
  split_and!; [done| |done]. eapply sends_le; [by eapply sends_trans|lia|lia].
Qed.

(** C11: compensating a payment always ends with an answer, never with an error,
    whatever the payment service does: it sends at most nine calls, at most
    three of which void or refund; every refund is of a positive amount within
    the order's total and carries a request id that its amount determines, so a
    repeated refund is the same request; and it answers that the payment is
    compensated only when the payment service has reported a closed payment of
    which all that was captured is refunded. *)
Theorem compensation_bounded o payment_id request_id w :
  exists confirmed w', compensate_payment o payment_id request_id e w = (Ok confirmed, w')
    /\ sends o payment_id request_id 9 3 w w'
    /\ (confirmed = true -> reported_compensated o payment_id).
Proof. apply rounds_bounded. Qed.
End refunds.

End CheckoutRefunds.

(** Every answer of a checkout is durable: what the client is told is what the
    attempt of its request records. *)
Module CheckoutAnswers.

Import Propagation Proto PricingService Schema Transactions CheckoutDomain CheckoutQuote CheckoutFence
  CheckoutCompensation CheckoutAttempts CheckoutReconciliation CheckoutOrders CheckoutSaga CheckoutFlow
  CheckoutEvolution CheckoutTransactions CheckoutDemo CheckoutInvariants CheckoutSagaLogic CheckoutSagaDemo
  CheckoutSagaRuns.

(** The attempt of a request records an answer. *)
Definition stored (tenant request : string) (payload : json) (db : Db) : Prop :=
  exists a, db_attempts db !! (tenant, request) = Some a /\ at_payload a = Some payload
            /\ at_status a ∈ [APending; ADegraded; APaid].

Lemma replay_paid_stored tenant request a env db claim db' :
  replay_paid tenant request a env db = Ok (claim, db') ->
  exists payload, claim = ClaimReplay payload /\ stored tenant request payload db'.
Proof.
  unfold replay_paid. intros H. tx_inv. case_any; [|discriminate]. tx_inv.
  case_any; [|discriminate]. tx_inv.
  match goal with Hu : sql_update _ _ _ _ _ _ = _ |- _ =>
    apply sql_update_ok in Hu as [(_ & r & Hr & Hw & ->)|(? & _)] end; [|done].
  eexists. split; [done|]. eexists. split; [simpl; apply lookup_insert_eq|]. simpl. split; [done|set_solver].
Qed.

Lemma reclaim_claims tenant request new a env db claim db' :
  reclaim_attempt tenant request new a env db = Ok (claim, db') ->
  claim = ClaimNew new \/ claim = ClaimInProgress.
Proof. unfold reclaim_attempt. intros H. tx_inv. case_any; tx_inv; eauto. Qed.

(** A claim that replays answers what is stored. *)
Lemma claim_stored tenant request fp token new env db claim db' :
  claim_checkout_attempt tenant request fp token new env db = Ok (claim, db') ->
  match claim with
  | ClaimReplay payload | ClaimPending payload => stored tenant request payload db'
  | _ => True
  end.
Proof.
  destruct (db_attempts db !! (tenant, request)) as [a|] eqn:Ha.
  - rewrite (claim_existing _ _ _ _ _ _ _ _ Ha). destruct (negb _); [done|].
    assert (Hrow : forall p, at_status a ∈ [APending; ADegraded; APaid] -> at_payload a = Some p ->
      match replay_answer a p with ClaimReplay q | ClaimPending q => stored tenant request q db | _ => True end).
    { intros p Hs Hp. unfold replay_answer. case_bool_decide; simpl; by exists a. }
    destruct (at_status a) eqn:Es.
    + destruct (negb _); [intros H; by tx_inv|]. intros H. tx_inv. case_any.
      * match goal with Hp : replay_paid _ _ _ _ _ = _ |- _ =>
          by apply replay_paid_stored in Hp as (payload & -> & Hs) end.
      * tx_inv. match goal with Hp : reclaim_attempt _ _ _ _ _ _ = _ |- _ => apply reclaim_claims in Hp end.
        by match goal with Hp : _ \/ _ |- _ => destruct Hp as [-> | ->] end.
    + destruct (at_payload a) as [p|]; [|done]. intros [= <- <-]. apply Hrow; [set_solver|done].
    + destruct (at_payload a) as [p|]; [|done]. intros [= <- <-]. apply Hrow; [set_solver|done].
    + destruct (at_payload a) as [p|]; [|done]. intros [= <- <-]. apply Hrow; [set_solver|done].
    + by intros [= <- <-].
  - unfold claim_checkout_attempt. intros H. tx_inv.
    match goal with Hi : sql_insert_ignore _ _ _ _ _ = _ |- _ =>
      apply sql_insert_ignore_ok in Hi as [(-> & _ & _)|(_ & [r Hr] & _)] end; [|simpl in Hr; congruence].
    simpl in *. by tx_inv.
Qed.

Lemma record_stored tenant request token status order_id payload env db u db' :
  record_checkout_response tenant request token status order_id payload env db = Ok (u, db') ->
  status <> AStarted -> status <> AFailed -> stored tenant request payload db'.
Proof.
  unfold record_checkout_response. intros H Hs Hf. tx_inv.
  match goal with Hu : sql_update _ _ _ _ _ _ = _ |- _ =>
    apply sql_update_ok in Hu as [(_ & r & Hr & Hw & ->)|(? & _)] end; [|done].
  eexists. split; [simpl; apply lookup_insert_eq|]. simpl. split; [done|].
  destruct status; try done; set_solver.
Qed.

Section answers.
Context `{HP : Policy} (e : Environment) (He : env_ok e).

(** A part of a saga that only takes steps. *)
Lemma part_reach {A} (m : Saga A) w r w' :
  runs e always recorded m anything -> m e w = (r, w') -> db_checks (w_db w) ->
  reach e (w_db w) (w_db w') /\ db_checks (w_db w').
Proof.
  intros Hm H Hc. destruct (Hm w r w' H Hc I) as (Hr & _). split; [done|]. by eapply reach_checks.
Qed.

Lemma recorded_answer tenant request token answer w payload w' :
  match answer with Ok p => answered p | Err _ => True end -> db_checks (w_db w) ->
  record_answer tenant request token answer e w = (Ok payload, w') ->
  exists db, stored tenant request payload db /\ reach e (w_db w) db /\ reach e db (w_db w').
Proof.
  intros Ha Hc. unfold record_answer. destruct answer as [p|err]; intros H; [|by sg_inv].
  destruct Ha as [H1 H2]. cbv zeta in H. sg_inv.
  match goal with Ht : sg_tx (record_checkout_response _ _ _ _ _ _) _ _ = (_, ?w1) |- _ =>
    assert (reach e (w_db w) (w_db w1) /\ db_checks (w_db w1)) as [Hr Hc1]
      by (eapply part_reach; [apply safe_txn; [done|by constructor]|exact Ht|done]);
    apply sg_tx_commit_ok in Ht as [_ Ht]; apply record_stored in Ht; [|done..]; exists (w_db w1) end.
  split; [done|]. split; [done|].
  match goal with Hw : (if _ then _ else _) _ _ = _ |- _ => eapply part_reach in Hw as [Hw _]; [exact Hw| |done] end.
  case_match; [by apply safe_wake|by apply safe_ret].
Qed.

(** A claim, and the answer it may already hold. *)
Lemma claim_taken tenant request fp n j j' w claim w' :
  sg_tx (claim_checkout_attempt tenant request fp (ev_uuid e n j) (ev_uuid e n j')) e w = (Ok claim, w') ->
  db_checks (w_db w) ->
  reach e (w_db w) (w_db w') /\ db_checks (w_db w')
  /\ match claim with
     | ClaimReplay payload | ClaimPending payload => stored tenant request payload (w_db w')
     | _ => True
     end.
Proof.
  intros Ht Hc.
  assert (reach e (w_db w) (w_db w') /\ db_checks (w_db w')) as [Hr Hc'].
  { eapply part_reach; [apply safe_txn; [done|]; constructor; by apply eo_drawn|exact Ht|done]. }
  apply sg_tx_commit_ok in Ht as [_ Ht]. apply claim_stored in Ht. done.
Qed.
End answers.

(** C5: every answer of a checkout is durable.  When a request is answered with
    a payload, whatever the other services and processes do, the run passed
    through a database in which the attempt of that tenant and request records
    exactly this payload as pending, degraded or paid: an answer is never given
    before it is stored, and an answer that is replayed is the stored one. *)
Theorem answers_are_stored `{HP : Policy} e input c w payload w' :
  env_ok e -> db_checks (w_db w) -> checkout_inner input c e w = (Ok payload, w') ->
  exists input' request db,
    request = default ("checkout-" +:+ ev_uuid e (w_at w) 2) (non_blank (in_request_id input))
    /\ accept_request c request input = Ok input'
    /\ stored (in_tenant_id input') request payload db
    /\ reach e (w_db w) db /\ reach e db (w_db w').
Proof.
  intros He Hc. unfold checkout_inner. intros H. sg_inv.
  match goal with Ht : sg_tx _ _ _ = _ |- _ => apply (claim_taken e He) in Ht as (Hr & Hc1 & Hs); [|done] end.
  match goal with Ha : accept_request _ ?q _ = Ok ?i |- _ => rename Ha into Hi, i into input'; set (request := q) in * end.
  match type of H with _ _ ?v = _ => rename v into w1 end.
  enough (exists db, stored (in_tenant_id input') request payload db
            /\ reach e (w_db w1) db /\ reach e db (w_db w')) as (db & Hdb & Hr1 & Hr2).
  { exists input', request, db. split_and!; [done..| |done]. by etransitivity. }
  match type of H with (match ?x with _ => _ end) _ _ = _ => destruct x as [token| | | |] end.
  - sg_inv. match goal with Hf : checkout_flow _ _ _ _ _ = (?r, _) |- _ => rename Hf into Hflow, r into answer end.
    destruct (yields_flow e He _ _ _ _ _ _ Hflow Hc1 I) as (Hrf & _ & Hans).
    apply (recorded_answer e He) in H as (db & Hdb & Hr1 & Hr2); [|by destruct answer; [apply Hans|]|by eapply reach_checks].
    exists db. split_and!; [done| |done]. by etransitivity.
  - sg_inv. match goal with Hw : wake_pending_payment_reconciliation _ _ _ _ = _ |- _ =>
      apply (part_reach e He) in Hw as [Hw _]; [|by apply safe_wake|done] end. by exists (w_db w1).
  - sg_inv. by exists (w_db w1).
  - by sg_inv.
  - by sg_inv.
Qed.

(** The checkout that waits for its payment has its answer stored. *)
Definition waiting_run : ApiResult json * World :=
  checkout_inner demo_input demo_context pending_environment demo_world.

Lemma answers_are_stored_witness :
  exists input' request db,
    request = "req-1" /\ accept_request demo_context request demo_input = Ok input'
    /\ stored (in_tenant_id input') request (ok_value JNull waiting_run.1) db
    /\ @reach demo_policy pending_environment fresh_db db
    /\ @reach demo_policy pending_environment db (w_db waiting_run.2).
Proof.
  assert (waiting_run = (Ok (ok_value JNull waiting_run.1), waiting_run.2)) as Hrun
    by (apply ok_run; vm_compute; reflexivity).
  apply (@answers_are_stored demo_policy pending_environment demo_input demo_context demo_world).
  - split; [exact I|by intros|by intros|by intros].
  - apply fresh_checks.
  - exact Hrun.
Defined.

End CheckoutAnswers.
