(* ===== verification/CheckoutInventory.v ===== *)
(** Checkout against the inventory service itself: the bodies the client sends
    (application.rs, [reserve_inventory], [release_inventory],
    [consume_inventory_attempt]) are decoded and answered by the service's
    handlers (services/inventory/src/api.rs), and every answer of success is one
    the client accepts. *)

From S2P Require Import Prelude Propagation Database InventoryService InventoryLedger InventoryApi CheckoutDomain CheckoutQuote CheckoutRecords CheckoutOrders CheckoutSteps.
Import Schema Transactions InventoryDomain Inventory InventoryLedger InventoryApi CheckoutDomain CheckoutQuote
  CheckoutFence CheckoutCompensation CheckoutAttempts CheckoutOrders CheckoutSaga CheckoutPayments
  CheckoutStock.

(** ** The service as the client sees it *)

(** The routes of the service: what a decoded body is answered; [None] when the
    body does not decode or the path is not routed. *)
Definition inventory_answer (io : nat -> option string) (fault : option tx_fault) (now : Z)
    (locked : key -> bool) (h : headers) (path : string) (body : json) (db : Db) :
    option (response * Db) :=
  if String.eqb path "/reserve" then
    b ← read_reserve_body body; Some (reserve_post io fault now locked h b db)
  else if String.eqb path "/release" then
    b ← read_release_body body; Some (release_post fault now locked h b db)
  else if String.eqb path "/consume" then
    b ← read_consume_body body; Some (consume_post fault now locked h b db)
  else None.

(** The answer as it reaches the client. *)
Definition answered (text : string) (r : response) : http_response :=
  mkHttpResponse (mkHttpStatus r.1 text) (Ok r.2).

(** ** Decoding what the client sends *)

Definition sent_reserve (o : PendingOrder) (f : CheckoutFence) (line : OrderLine) : ReserveBody :=
  mkReserveBody (pd_tenant_id o) (reservation_id_of o line) (ln_sku line) (ln_quantity line)
    (Some (fence_request_id f)) (Some (fence_token f)).
Definition sent_release (o : PendingOrder) (f : CheckoutFence) (r : InventoryReservation) : ReleaseBody :=
  mkReleaseBody (pd_tenant_id o) (ir_reservation_id r) (ir_sku r) (ir_quantity r) (ir_location_id r)
    (Some (fence_request_id f)) (Some (fence_token f)).
Definition sent_reservation (r : InventoryReservation) : ConsumeReservation :=
  mkConsumeReservation (ir_reservation_id r) (ir_sku r) (ir_quantity r) (ir_location_id r).
Definition sent_consume (o : PendingOrder) (f : CheckoutFence) (rs : list InventoryReservation) : ConsumeBody :=
  mkConsumeBody (pd_tenant_id o) (Some (fence_request_id f)) (Some (fence_token f))
    (map sent_reservation rs).

Lemma read_u32_fits n : fits_u32 n = true -> read_u32 (JNum n) = Some n.
Proof. unfold fits_u32, read_u32. by intros ->. Qed.

Lemma decoded_reserve o f line :
  fits_u32 (ln_quantity line) = true ->
  read_reserve_body (reserve_body o f line) = Some (sent_reserve o f line).
Proof. intros H%read_u32_fits. unfold read_reserve_body. cbn -[read_u32]. by rewrite H. Qed.

Lemma decoded_release o f r :
  fits_u32 (ir_quantity r) = true ->
  read_release_body (release_body o f r) = Some (sent_release o f r).
Proof.
  intros H%read_u32_fits. unfold read_release_body, release_body, sent_release.
  destruct (ir_location_id r); cbn -[read_u32]; by rewrite H.
Qed.

Lemma decoded_consume o f rs :
  Forall (fun r => fits_u32 (ir_quantity r) = true) rs ->
  read_consume_body (consume_body o f rs) = Some (sent_consume o f rs).
Proof.
  intros Hall. unfold read_consume_body, consume_body. cbn -[read_consume_reservation].
  assert (mapM read_consume_reservation (map (fun r =>
     JObj [("reservation_id", JStr (ir_reservation_id r)); ("sku", JStr (ir_sku r));
           ("quantity", JNum (ir_quantity r)); ("location_id", opt_json (ir_location_id r))]) rs)
    = Some (map sent_reservation rs)) as ->; [|done].
  induction Hall as [|r rs Hr Hall IH]; [done|]. apply read_u32_fits in Hr. cbn -[read_consume_reservation].
  rewrite IH. unfold read_consume_reservation, sent_reservation.
  destruct (ir_location_id r); cbn -[read_u32]; by rewrite Hr.
Qed.

(** ** What the service's transactions answer *)

(** Stock rows lie at a named location and fit the INTEGER columns. *)
Definition placed (db : Db) : Prop :=
  forall k s, db_stock db !! k = Some s ->
  is_blank (st_location_id s) = false /\ st_on_hand s <= i32_max.

Lemma available_bounds db k s :
  Ledger db -> placed db -> db_stock db !! k = Some s ->
  0 <= available_quantity s <= i32_max /\ 0 <= st_reserved s <= i32_max.
Proof.
  intros HL HP Hs. pose proof (lg_bounds _ HL _ _ Hs). destruct (HP _ _ Hs). unfold available_quantity. lia.
Qed.

Lemma joined_placed t i env db r s db' :
  placed db -> joined_reservation t i env db = Ok (Some (r, s), db') -> is_blank (rv_location_id r) = false.
Proof.
  intros HP [-> Hj]%joined_reservation_ok. destruct (Hj _ _ eq_refl) as (_ & ks & Hs & (_ & _ & Hl) & _).
  rewrite <- Hl. by eapply HP.
Qed.

(** The transaction ends by returning [Some] answer. *)
Ltac ret_some :=
  match goal with Hr : tx_ret _ _ _ = Ok (Some _, _) |- _ =>
    let Ho := fresh in apply tx_ret_ok in Hr as [Ho _]; first [discriminate Ho|injection Ho as ->] end.

Lemma i32_or_max_small q : 0 <= q <= 1000000 -> i32_or_max q = q.
Proof.
  intros H. unfold i32_or_max, fits_i32, i32_min, i32_max. by rewrite !(proj2 (Z.leb_le _ _)) by lia.
Qed.

(** An answer of reserve that the client can use. *)
Definition good_reserve (o : ReserveOutcome) : Prop :=
  is_blank (ro_location_id o) = false /\ 0 <= ro_remaining o <= i32_max
  /\ one_of (ro_status o) ["reserved"; "already_reserved"; "already_consumed"] = true.

Lemma reserve_existing_good p request lease r s env db o db' ks :
  Ledger db -> placed db -> is_blank (rv_location_id r) = false ->
  0 <= rv_quantity r -> db_stock db !! ks = Some s ->
  goods_at ks s (rq_tenant_id p, rq_reservation_id p) r ->
  reserve_existing p request lease r s env db = Ok (o, db') -> good_reserve o.
Proof.
  intros HL HP Hl Hq Hs Hg H. pose proof (available_bounds _ _ _ HL HP Hs) as [Hb _].
  pose proof (stock_at_goods _ _ _ _ _ Hg) as Hat. unfold reserve_existing, read_stock in H. tx_inv. bool_inv.
  destruct (rv_status r); tx_inv; [|bool_inv; on_stock|]; (split; [done|]; split; [|done]); simpl; [done| |done].
  rewrite (find_stock_put db _ _ _ ks s) by done. simpl. unfold available_quantity in *. simpl. lia.
Qed.

Lemma reserve_new_good p env db o db' :
  Ledger db -> placed db -> 0 <= rq_quantity p ->
  reserve_new p env db = Ok (Some o, db') -> good_reserve o.
Proof.
  intros HL HP Hq H. unfold reserve_new in H. tx_inv.
  destruct (candidate db p) as [[ks s]|] eqn:Ec; tx_inv; ret_some.
  unfold candidate in Ec. destruct (db_variants db !! _) as [v|]; [|done].
  destruct (vp_variant_active v); [|done]. apply first_by_some in Ec as [Hs Hw]. bool_inv.
  pose proof (available_bounds _ _ _ HL HP Hs) as [Hb _].
  split; [by eapply HP|]. split; [simpl; lia|done].
Qed.

Lemma reserve_good io fault now locked p o db db' :
  Ledger db -> placed db -> 0 <= rq_quantity p ->
  reserve io fault now locked p db = (Ok (Some o), db') -> good_reserve o.
Proof.
  intros HL HP Hq H. unfold reserve, app_result, infrastructure_reserve in H.
  destruct (validate_reserve p); [|done]. destruct (scenario_failure _ _); [done|].
  destruct (rq_fail p); [done|]. destruct (inv_run _ _ _ _ _) as [[o'|] d] eqn:Er; [|done].
  injection H as -> <-. apply run_tx_ok in Er as [-> Er]. unfold reserve_tx in Er. tx_inv.
  match goal with Hf : lock_current_checkout_fence _ _ _ _ _ = _ |- _ =>
    apply lock_fence_ok in Hf as [-> _] end.
  match goal with Hj : joined_reservation _ _ _ _ = (Ok (?o, _)) |- _ => rename Hj into Hjoin, o into joined end.
  destruct joined as [[r s]|].
  - pose proof (joined_placed _ _ _ _ _ _ _ HP Hjoin) as Hl.
    apply joined_reservation_ok in Hjoin as [-> Hj]. destruct (Hj _ _ eq_refl) as (Hr & ks & Hs & Hg & _).
    tx_inv. ret_some. eapply reserve_existing_good; [done|done|done| |done|done|done].
    pose proof (proj1 (lg_check _ HL _ _ Hr)). lia.
  - apply joined_reservation_ok in Hjoin as [-> _]. by eapply reserve_new_good.
Qed.

(** An answer of release that the client can use. *)
Definition good_release (b : ReleaseBody) (o : ReleaseOutcome) : Prop :=
  is_blank (lo_location_id o) = false
  /\ match lb_location_id b with Some l => l = lo_location_id o | None => True end
  /\ 0 <= lo_reserved_remaining o <= i32_max /\ 0 <= lo_available o <= i32_max
  /\ (lo_status o = "released" /\ lo_released o = lb_quantity b
      \/ lo_status o = "already_released" /\ lo_released o = 0).

Lemma release_hold_good b request r env d o d' ks s :
  Ledger d -> placed d -> db_stock d !! ks = Some s ->
  goods_at ks s (lb_tenant_id b, lb_reservation_id b) r -> 0 <= rv_quantity r ->
  release_hold b request r env d = Ok (o, d') ->
  lo_location_id o = rv_location_id r /\ lo_released o = rv_quantity r /\ lo_status o = "released"
  /\ 0 <= lo_reserved_remaining o <= i32_max /\ 0 <= lo_available o <= i32_max.
Proof.
  intros HL HP Hs Hg Hq H. pose proof (available_bounds _ _ _ HL HP Hs) as [Ha Hb].
  pose proof (lg_bounds _ HL _ _ Hs). pose proof (HP _ _ Hs) as [_ Hmax].
  pose proof (stock_at_goods _ _ _ _ _ Hg) as Hat. unfold release_hold, read_stock in H. tx_inv. bool_inv.
  on_stock. rewrite (find_stock_put d _ _ _ ks s) by done.
  unfold available_quantity in *. simpl. split_and!; done || lia.
Qed.

Lemma release_good fault now locked b o db db' :
  Ledger db -> placed db -> fits_u32 (lb_quantity b) = true ->
  release fault now locked b db = (Ok (Some o), db') -> good_release b o.
Proof.
  intros HL HP Hu H. unfold release, app_result in H.
  destruct (validate_release b) as [u|] eqn:Ev; [|done].
  assert (Hq : i32_or_max (lb_quantity b) = lb_quantity b).
  { unfold validate_release, MAX_RELEASE_QUANTITY, fits_u32 in *. res_inv. bool_inv. apply i32_or_max_small. lia. }
  clear Ev. destruct (inv_run _ _ _ _ _) as [[o'|] d] eqn:Er; [|done].
  injection H as -> <-. apply run_tx_ok in Er as [-> Er]. unfold release_tx in Er. tx_inv.
  match goal with Hf : lock_current_checkout_fence _ _ _ _ _ = _ |- _ =>
    apply lock_fence_ok in Hf as [-> _] end.
  match goal with Hj : joined_reservation _ _ _ _ = (Ok (?o, _)) |- _ => rename Hj into Hjoin, o into joined end.
  destruct joined as [[r s]|]; [|tx_inv; ret_some].
  pose proof (joined_placed _ _ _ _ _ _ _ HP Hjoin) as Hl.
  apply joined_reservation_ok in Hjoin as [-> Hj]. destruct (Hj _ _ eq_refl) as (Hr & ks & Hs & Hg & Hat).
  tx_inv. ret_some.
  match goal with He : release_existing _ _ _ _ _ _ _ = _ |- _ => rename He into Hex end.
  unfold release_existing in Hex. tx_inv. bool_inv.
  assert (Hpos : 0 <= rv_quantity r) by (pose proof (proj1 (lg_check _ HL _ _ Hr)); lia).
  match goal with Hf : release_rebind _ _ _ _ _ _ = _ |- _ =>
    eapply release_rebind_ok in Hf as (Hm%moves_ledger & Hst & _); [|done|done] end.
  assert (Hloc : match lb_location_id b with Some l => l = rv_location_id r | None => True end)
    by (destruct (lb_location_id b); bool_inv; done).
  destruct (rv_status r); tx_inv.
  - rewrite <- Hst in Hs. match goal with Hh : release_hold _ _ _ _ _ = _ |- _ =>
      eapply release_hold_good in Hh as (Hlo & Hrel & Hstat & Hb1 & Hb2); [|done| |done..] end.
    + unfold good_release. rewrite Hlo, Hrel, Hstat. split_and!; try done || lia. left. split; [done|lia].
    + unfold placed. by rewrite Hst.
  - pose proof (available_bounds _ _ _ HL HP Hs) as [Ha Hb].
    unfold good_release. simpl. split_and!; try done || lia. by right.
Qed.

Lemma released_quantity fault now locked b o db db' :
  release fault now locked b db = (Ok o, db') -> lb_quantity b <= 1000000.
Proof.
  unfold release, app_result. destruct (validate_release b) as [u|] eqn:Ev; [|done]. intros _.
  unfold validate_release, MAX_RELEASE_QUANTITY in Ev. res_inv. by bool_inv.
Qed.

(** The rows a successful consumption names have the quantities it names. *)
Definition quantities_named (t : string) (db : Db) (cs : list ConsumeReservation) : Prop :=
  Forall (fun c => exists r, db_reservations db !! (t, cv_reservation_id c) = Some r
                   /\ rv_quantity r = i32_or_max (cv_quantity c)) cs.

Lemma consume_one_quantity t request lease c env db n db' :
  consume_one t request lease c env db = Ok (n, db') ->
  exists r, db_reservations db !! (t, cv_reservation_id c) = Some r
    /\ rv_quantity r = i32_or_max (cv_quantity c).
Proof.
  unfold consume_one. intros H. tx_inv.
  match goal with Hj : joined_reservation _ _ _ _ = _ |- _ => apply joined_reservation_ok in Hj as [-> Hrow] end.
  match goal with Hx : _ = Some ?y |- _ => destruct y as [r s]; destruct (Hrow _ _ Hx) as (Hr & _) end.
  simpl in *. bool_inv. by exists r.
Qed.

Lemma consume_all_quantities t request lease cs n env db m db' :
  Ledger db -> NoDup (map cv_reservation_id cs) ->
  consume_all t request lease cs n env db = Ok (m, db') -> quantities_named t db cs.
Proof.
  revert n db. induction cs as [|c cs IH]; intros n db HL Hnd H; simpl in H; [constructor|].
  inversion Hnd as [|? ? Hni Hnd']; subst. tx_inv.
  match goal with Hc : consume_one _ _ _ _ _ _ = _ |- _ =>
    pose proof (consume_one_quantity _ _ _ _ _ _ _ _ Hc) as Hq; apply consume_one_ok in Hc as [Hm _ Hoth]; [|done] end.
  match goal with Hc : consume_all _ _ _ _ _ _ _ = _ |- _ =>
    apply IH in Hc; [|by eapply moves_ledger|done]; rename Hc into Hrest end.
  constructor; [done|]. unfold quantities_named in *. rewrite List.Forall_forall in *.
  intros c' Hin. destruct (Hrest c' Hin) as (r & Hr & Hqr). exists r. split; [|done].
  rewrite <- Hoth; [done|]. intros [= He]. apply Hni. rewrite <- He.
  apply list_elem_of_In, in_map_iff. by exists c'.
Qed.

(** Either all of the reservations were consumed before, or none was. *)
Definition all_or_none (t : string) (db : Db) (cs : list ConsumeReservation) : Prop :=
  exists b, Forall (fun c => forall r, db_reservations db !! (t, cv_reservation_id c) = Some r ->
                             has_status IConsumed r = b) cs.

Definition units_named (cs : list ConsumeReservation) : Z := foldr (fun c acc => cv_quantity c + acc) 0 cs.

Lemma fresh_units_named t db cs :
  all_or_none t db cs -> quantities_named t db cs ->
  Forall (fun c => 0 <= cv_quantity c <= 1000000) cs ->
  fresh_units t db cs = 0 \/ fresh_units t db cs = units_named cs.
Proof.
  intros [b Hb] Hq Hu. destruct b; [left|right]; induction cs as [|c cs IH]; try done;
    inversion Hb; inversion Hq as [|? ? (r & Hr & Hqr)]; inversion Hu; subst; simpl; rewrite Hr;
    rewrite (H1 _ Hr); rewrite IH by done; [done|]. by rewrite Hqr, i32_or_max_small.
Qed.

(** ** The client accepts the answers *)

(** A tenant as checkout resolves it: trimmed, not empty, without control
    characters. *)
Definition resolved_tenant (t : string) : Prop := normalize_tenant_candidate t = Ok t.

Lemma tenant_agrees h t t' :
  resolved_tenant t -> resolve_http_tenant_identity h (requested_tenant t) = Ok t' -> t' = t.
Proof.
  intros Ht H. unfold resolve_http_tenant_identity in H.
  apply res_bind_ok in H as (es & _ & H). apply res_bind_ok in H as (bs & _ & H).
  apply resolve_candidates_ok in H as (_ & _ & _ & _ & Hreq & _).
  assert (Hb : requested_tenant t = Some t).
  { unfold requested_tenant, is_blank. apply normalize_ok in Ht as (<- & -> & _). done. }
  specialize (Hreq _ Hb). unfold resolved_tenant in Ht. congruence.
Qed.

Lemma fits_i32_i64 n :
  0 <= n <= i32_max -> (i64_min <=? n) && (n <=? i64_max) = true.
Proof. unfold i32_max, i64_min, i64_max. intros H. apply andb_true_iff. rewrite !Z.leb_le. lia. Qed.

Lemma reserve_accepted o line text oc p :
  good_reserve oc -> fits_u32 (ln_quantity line) = true ->
  rq_tenant_id p = pd_tenant_id o -> rq_reservation_id p = reservation_id_of o line ->
  rq_sku p = ln_sku line -> rq_quantity p = ln_quantity line ->
  reserve_outcome o line (answered text (reserve_response p (Ok (Some oc))))
  = Ok (mkInventoryReservation (reservation_id_of o line) (ln_sku line) (ln_quantity line)
          (Some (ro_location_id oc))).
Proof.
  intros (Hl & Hr & Hs) Hq Ht Hi Hk Hn. unfold reserve_outcome, answered, reserve_response, reserve_identity,
    parse_inventory_reservation, read_reserve_response.
  rewrite Ht, Hi, Hk, Hn. cbn -[one_of as_int is_blank]. unfold as_int. unfold fits_u32 in Hq. rewrite Hq.
  cbn -[one_of is_blank]. rewrite (fits_i32_i64 _ Hr). cbn -[one_of is_blank].
  rewrite !String.eqb_refl, Z.eqb_refl, Hl, Hs, (proj2 (Z.leb_le 0 _)) by lia. done.
Qed.

Lemma release_accepted o r text b oc :
  good_release b oc -> fits_u32 (ir_quantity r) = true -> ir_quantity r <= i32_max ->
  lb_tenant_id b = pd_tenant_id o -> lb_reservation_id b = ir_reservation_id r ->
  lb_sku b = ir_sku r -> lb_quantity b = ir_quantity r -> lb_location_id b = ir_location_id r ->
  release_outcome o r (answered text (release_response b (Ok (Some oc)))) = Ok tt.
Proof.
  intros (Hl & Hloc & Hr & Ha & Hs) Hu Hmax Ht Hi Hk Hn Hlo. unfold release_outcome, answered, release_response,
    release_identity, validate_inventory_release_response, read_release_response.
  rewrite Ht, Hi, Hk, Hn. cbn -[as_int is_blank release_matches]. unfold as_int. unfold fits_u32 in Hu. pose proof Hu as Hu'.
  apply andb_true_iff in Hu' as [H0%Z.leb_le _]. rewrite Hu. cbn -[is_blank release_matches].
  assert (Hrel : 0 <= lo_released oc <= i32_max) by (destruct Hs as [[_ ->]|[_ ->]]; lia).
  rewrite !fits_i32_i64 by done. cbn -[is_blank release_matches]. rewrite !String.eqb_refl, Z.eqb_refl, Hl.
  rewrite !(proj2 (Z.leb_le 0 _)) by lia. rewrite <- Hlo.
  assert (Hm : release_matches (mkReleaseResponse (pd_tenant_id o) (ir_reservation_id r) (ir_sku r)
      (lo_location_id oc) (ir_quantity r) (lo_released oc) (lo_reserved_remaining oc) (lo_available oc)
      (lo_status oc)) (ir_quantity r) = true).
  { unfold release_matches. simpl. destruct Hs as [[-> ->]|[-> ->]]; [|done]. simpl. rewrite Hn. apply Z.eqb_refl. }
  rewrite Hm. simpl. destruct (lb_location_id b); [|done]. subst. by rewrite String.eqb_refl.
Qed.

Lemma units_named_bounds cs :
  Forall (fun c => 0 <= cv_quantity c <= 1000000) cs ->
  0 <= units_named cs <= 1000000 * Z.of_nat (length cs).
Proof. induction 1 as [|c cs Hc _ IH]; simpl; lia. Qed.

Lemma total_quantity_sum rs n :
  0 <= n -> Forall (fun c => 0 <= cv_quantity c <= 1000000) (map sent_reservation rs) ->
  n + 1000000 * Z.of_nat (length rs) <= u32_max ->
  foldl (fun total r => t ← total; u32_checked_add t (ir_quantity r)) (Some n) rs
  = Some (n + units_named (map sent_reservation rs)).
Proof.
  revert n. induction rs as [|r rs IH]; intros n Hn Hall Hmax; simpl; [f_equal; lia|].
  inversion Hall as [|? ? Hr Hall']; subst. simpl in Hr, Hmax.
  unfold u32_checked_add at 2, fits_u32. rewrite !(proj2 (Z.leb_le _ _)) by lia. simpl.
  rewrite IH by (done || lia). f_equal. lia.
Qed.

(** A consumption answers all of its units, or none when it was done before. *)
Lemma consume_good fault now locked o f rs oc db db' :
  Ledger db -> all_or_none (pd_tenant_id o) db (map sent_reservation rs) ->
  Forall (fun r => fits_u32 (ir_quantity r) = true) rs ->
  consume fault now locked (sent_consume o f rs) db = (Ok oc, db') ->
  Forall (fun c => 0 <= cv_quantity c <= 1000000) (map sent_reservation rs)
  /\ (length rs <= 50)%nat
  /\ (co_consumed oc = 0 \/ co_consumed oc = units_named (map sent_reservation rs))
  /\ co_status oc = (if co_consumed oc =? 0 then "already_consumed" else "consumed").
Proof.
  intros HL Hone Hu H. unfold consume, app_result in H.
  destruct (validate_consume (sent_consume o f rs)) as [[]|] eqn:Ev; [|done].
  apply validate_consume_ok in Ev as (Hnd & Hlen & Hq & _). simpl in Hnd, Hlen, Hq.
  assert (Hall : Forall (fun c => 0 <= cv_quantity c <= 1000000) (map sent_reservation rs)).
  { rewrite Forall_map in *. eapply Forall_impl; [apply Forall_and; split; [exact Hq|exact Hu]|].
    unfold fits_u32. intros r [Hr Hr']. simpl in *. bool_inv. lia. }
  destruct (inv_run _ _ _ _ _) as [[o'|] d] eqn:Er; [|done]. injection H as <- <-.
  apply run_tx_ok in Er as [-> Er]. unfold consume_tx in Er. simpl in Er. tx_inv.
  match goal with Hf : lock_current_checkout_fence _ _ _ _ _ = _ |- _ => apply lock_fence_ok in Hf as [-> _] end.
  pose proof (sort_by_id_perm (map sent_reservation rs)) as Hp.
  match goal with Hc : consume_all _ _ _ _ _ _ _ = _ |- _ =>
    pose proof Hc as Hc'; apply consume_all_quantities in Hc'; [|done|by rewrite Hp];
    apply consume_all_ok in Hc as (_ & _ & -> & _); [|done|by rewrite Hp] end.
  assert (Hf : fresh_units (pd_tenant_id o) db (sort_by_id (map sent_reservation rs))
    = fresh_units (pd_tenant_id o) db (map sent_reservation rs)).
  { unfold fresh_units. apply (foldr_permutation_proper eq _ _); [|exact Hp].
    intros c1 c2 acc. repeat case_match; lia. }
  rewrite Hf, Z.add_0_l. clear Hf.
  assert (Hqn : quantities_named (pd_tenant_id o) db (map sent_reservation rs))
    by (unfold quantities_named in *; by rewrite <- Hp).
  rewrite length_map in Hlen. split_and!; [done|lia| |done]. by apply fresh_units_named.
Qed.

Lemma consume_accepted fault now locked o f rs text oc db db' :
  Ledger db -> all_or_none (pd_tenant_id o) db (map sent_reservation rs) ->
  Forall (fun r => fits_u32 (ir_quantity r) = true) rs ->
  consume fault now locked (sent_consume o f rs) db = (Ok oc, db') ->
  consume_outcome o rs (answered text (consume_response (sent_consume o f rs) (Ok oc))) = Ok tt.
Proof.
  intros HL Hone Hu H. destruct (consume_good _ _ _ _ _ _ _ _ _ HL Hone Hu H) as (Hall & Hlen & Hc & Hs).
  pose proof (units_named_bounds _ Hall) as Hb. rewrite length_map in Hb.
  unfold consume_outcome, answered, consume_response, read_consume_response. cbn -[as_int].
  assert (Hfit : as_int 0 u32_max (JNum (co_consumed oc)) = Some (co_consumed oc)).
  { unfold as_int, u32_max. rewrite !(proj2 (Z.leb_le _ _)) by lia. done. }
  assert (Hcount : as_int 0 (u64_modulus - 1) (JNum (Z.of_nat (length (map sent_reservation rs))))
                   = Some (Z.of_nat (length rs))).
  { rewrite length_map. unfold as_int, u64_modulus. rewrite !(proj2 (Z.leb_le _ _)) by lia. done. }
  rewrite Hfit, Hcount. cbn. unfold total_quantity. rewrite total_quantity_sum by (done || unfold u32_max; lia).
  cbn. rewrite Z.add_0_l, String.eqb_refl, Z.eqb_refl, Hs. simpl.
  destruct (Z.eqb_spec (co_consumed oc) 0) as [->|Hne]; [done|]. simpl.
  destruct Hc as [Hz|Hz]; [done|]. rewrite Hz. by rewrite Z.eqb_refl.
Qed.

(** ** Replies of the handlers *)

Lemma reserve_reply io fault now locked h o f line text db reply db' :
  Ledger db -> placed db -> resolved_tenant (pd_tenant_id o) -> fits_u32 (ln_quantity line) = true ->
  reserve_post io fault now locked h (sent_reserve o f line) db = (reply, db') ->
  reply.1 = 200 -> exists location,
    reserve_outcome o line (answered text reply)
    = Ok (mkInventoryReservation (reservation_id_of o line) (ln_sku line) (ln_quantity line) (Some location)).
Proof.
  intros HL HP Ht Hq. unfold reserve_post, reserve_get. simpl.
  destruct (resolve_http_tenant_identity _ _) as [t|err] eqn:Er; [|intros [= <- _]; by destruct err].
  apply tenant_agrees in Er as ->; [|done]. destruct (reserve _ _ _ _ _ _) as [res d] eqn:E.
  intros [= <- _] Hs. destruct res as [[oc|]|[|[|]]]; try done.
  eexists. apply reserve_accepted; try done. eapply reserve_good; [done|done| |done].
  unfold fits_u32 in Hq. simpl. bool_inv. lia.
Qed.

Lemma release_reply fault now locked h o f r text db reply db' :
  Ledger db -> placed db -> resolved_tenant (pd_tenant_id o) -> fits_u32 (ir_quantity r) = true ->
  release_post fault now locked h (sent_release o f r) db = (reply, db') ->
  reply.1 = 200 \/ reply.1 = 404 -> release_outcome o r (answered text reply) = Ok tt.
Proof.
  intros HL HP Ht Hq. unfold release_post. simpl.
  destruct (resolve_http_tenant_identity _ _) as [t|err] eqn:Er;
    [|intros [= <- _]; destruct err; by intros [|]].
  apply tenant_agrees in Er as ->; [|done]. destruct (release _ _ _ _ _) as [res d] eqn:E.
  intros [= <- _] Hs. destruct res as [[oc|]|[|[|]]]; try (by destruct Hs); try done.
  eapply release_accepted; try done; [by eapply release_good|].
  eapply released_quantity in E. simpl in E. unfold i32_max. lia.
Qed.

Lemma consume_reply fault now locked h o f rs text db reply db' :
  Ledger db -> resolved_tenant (pd_tenant_id o) ->
  Forall (fun r => fits_u32 (ir_quantity r) = true) rs ->
  consume_post fault now locked h (sent_consume o f rs) db = (reply, db') ->
  reply.1 = 200 -> all_or_none (pd_tenant_id o) db (map sent_reservation rs) ->
  consume_outcome o rs (answered text reply) = Ok tt.
Proof.
  intros HL Ht Hq. unfold consume_post. simpl.
  destruct (resolve_http_tenant_identity _ _) as [t|err] eqn:Er; [|intros [= <- _]; by destruct err].
  apply tenant_agrees in Er as ->; [|done].
  destruct (consume _ _ _ _ _) as [res d] eqn:E.
  intros [= <- _] Hs Hone. destruct res as [oc|[|[code|]]]; try done;
    [|simpl in Hs; by destruct (String.eqb code _)].
  by eapply consume_accepted.
Qed.


(** ** A concrete exchange: two units are released *)

Definition stocked_order : PendingOrder :=
  mkPendingOrder "ord-1" "n-1" "cart-1" "t-1" "cust-1" "sess-1" "USD"
    [mkOrderLine "p-1" "v-1" "SKU-1" "One" 2 500] 1000 0 0 1000 None.
Definition stocked_fence : CheckoutFence := Attempt (mkCheckoutLease "t-1" "req-1" "lease-1").
Definition held_reservation : InventoryReservation :=
  mkInventoryReservation "res-1" "SKU-1" 2 (Some "loc-1").
Definition release_reply0 : response :=
  match inventory_answer (fun _ => None) None 10 Demo.free [] "/release"
          (release_body stocked_order stocked_fence held_reservation) Demo.db0 with
  | Some (reply, _) => reply
  | None => (0, JNull)
  end.

