(* ===== verification/OrdersEnvelope.v ===== *)
(** The orders service's messages: the event and its AMQP envelope, and which headers are accepted. *)

From S2P Require Import Prelude Propagation Runtime.

(** The orders service's event and its AMQP envelope
    (services/orders/src/messaging.rs, lines 28 to 74 and 1194 to 1591): the
    message, its attempt number in body and header, and the W3C propagation
    headers every message must carry. *)
Module OrdersMessage.

Import Propagation Rabbit.

Local Open Scope result_scope.

Definition SYNTHETIC_EXCHANGE : string := "orders.synthetic".
Definition DEAD_LETTER_EXCHANGE : string := "commerce.dlx".
Definition ROUTING_KEY : string := "order.requested".
Definition DEAD_LETTER_ROUTING_KEY : string := "order.dead".
Definition MAX_ATTEMPTS : Z := 3.
Definition MAX_TRACESTATE_HEADER_BYTES : Z := 512.
Definition MAX_TRACESTATE_MEMBERS : Z := 32.
Definition MAX_TRACESTATE_MEMBER_BYTES : Z := 256.
Definition MAX_BAGGAGE_HEADER_BYTES : Z := 2048.
Definition MAX_BAGGAGE_MEMBERS : Z := 32.
Definition MAX_ENCODED_BAGGAGE_VALUE_BYTES : Z := 384.
Definition DEFAULT_TRACESTATE : string := "playground=commerce".

(** ** The message *)

Record OrderMessage : Type := mkOrderMessage {
  om_event_id : string; om_order_id : string; om_tenant_id : string; om_customer_id : string;
  om_event_type : string; om_poison : bool; om_lag_ms : Z; om_attempt : Z
}.

Definition read_order_message (v : json) : option OrderMessage :=
  fields ← struct_fields ["event_id"; "order_id"; "tenant_id"; "customer_id"; "event_type"; "poison";
                          "lag_ms"; "attempt"] v;
  match fields with
  | [JStr event; JStr order; JStr tenant; JStr customer; JStr type; JBool poison; lag; attempt] =>
      lag ← as_int 0 (u64_modulus - 1) lag;
      attempt ← as_int 0 u32_max attempt;
      Some (mkOrderMessage event order tenant customer type poison lag attempt)
  | _ => None
  end.

Definition order_message_json (m : OrderMessage) : json :=
  JObj [("event_id", JStr (om_event_id m)); ("order_id", JStr (om_order_id m));
        ("tenant_id", JStr (om_tenant_id m)); ("customer_id", JStr (om_customer_id m));
        ("event_type", JStr (om_event_type m)); ("poison", JBool (om_poison m));
        ("lag_ms", JNum (om_lag_ms m)); ("attempt", JNum (om_attempt m))].

(** [message.attempt = attempt] on a clone *)
Definition with_attempt (attempt : Z) (m : OrderMessage) : OrderMessage :=
  mkOrderMessage (om_event_id m) (om_order_id m) (om_tenant_id m) (om_customer_id m) (om_event_type m)
    (om_poison m) (om_lag_ms m) attempt.

(** A delivery of the queue: its data is the JSON it parses to, or the parser's
    error. *)
Record Delivery : Type := mkDelivery {
  dl_tag : Z; dl_message_id : option string; dl_headers : FieldTable; dl_data : result string json
}.

Definition validate_message (m : OrderMessage) (d : Delivery) : result string unit :=
  ensure (negb (is_blank (om_event_id m))) "order event_id is empty" ;;
  ensure (negb (is_blank (om_order_id m))) "order order_id is empty" ;;
  ensure (negb (is_blank (om_tenant_id m))) "order tenant_id is empty" ;;
  ensure (negb (is_blank (om_customer_id m))) "order customer_id is empty" ;;
  ensure (match dl_message_id d with
          | Some id => String.eqb id (om_event_id m)
          | None => true
          end) "RabbitMQ message_id does not match order event_id".

(** ** The attempt number *)

Definition header_attempt (h : FieldTable) : result string (option Z) :=
  match h !! "x-order-attempt" with
  | None => Ok None
  | Some (LongUInt n) =>
      if 0 <? n then Ok (Some n) else Err "x-order-attempt has an invalid AMQP type or value"
  | Some (LongLongInt n) =>
      if fits_u32 n && (0 <? n) then Ok (Some n)
      else Err "x-order-attempt is outside the positive u32 range"
  | Some _ => Err "x-order-attempt has an invalid AMQP type or value"
  end.

Definition i32_attempt (n : Z) : result string Z :=
  ensure (fits_i32 n) "order attempt does not fit PostgreSQL integer" ;; Ok n.

Definition canonical_attempt (message_attempt : Z) (h : FieldTable) : result string Z :=
  ensure (negb (message_attempt =? 0)) "order attempt must be positive" ;;
  ensure (message_attempt <=? MAX_ATTEMPTS) "order attempt exceeds MAX_ATTEMPTS" ;;
  header <- header_attempt h ;;
  match header with
  | None => i32_attempt message_attempt
  | Some header_attempt =>
      ensure (header_attempt =? message_attempt) "order body/header attempts disagree" ;;
      i32_attempt message_attempt
  end.

Definition delivery_message_id (d : Delivery) : string :=
  default ("delivery-" +:+ show_Z (dl_tag d)) (dl_message_id d).

(** ** The propagation headers *)

Definition amqp_header_value (h : FieldTable) (key : string) : option string :=
  h !! key ≫= amqp_text.

Definition required_amqp_header (h : FieldTable) (key : string) : result string string :=
  ok_or (value ← trim <$> amqp_header_value h key; if is_empty value then None else Some value)
    ("RabbitMQ " +:+ key +:+ " header is required").

Definition lower_hex_byte (a : ascii) : bool :=
  is_digit a || ((97 <=? byte_of a) && (byte_of a <=? 102))%N.
Definition hex_byte (a : ascii) : bool :=
  lower_hex_byte a || ((65 <=? byte_of a) && (byte_of a <=? 70))%N.

(** [bytes[i] == b'-'] *)
Definition dash_at (i : nat) (value : string) : bool :=
  match String.get i value with Some a => Ascii.eqb a "-" | None => false end.

Definition validate_traceparent (value : string) : result string unit :=
  let e := "RabbitMQ traceparent header is invalid" in
  ensure ((str_len value =? 55) && String.eqb (substring 0 3 value) "00-"
          && dash_at 35 value && dash_at 52 value) e ;;
  ensure (str_forallb lower_hex_byte (substring 3 32 value)
          && str_forallb lower_hex_byte (substring 36 16 value)
          && str_forallb lower_hex_byte (substring 53 2 value)
          && negb (all_zero_hex (substring 3 32 value))
          && negb (all_zero_hex (substring 36 16 value))) e.

Definition lower_alpha_numeric (a : ascii) : bool := is_lower a || is_digit a.

(** The first byte of a part is a lower-case letter or a digit, the others may
    also be one of [extra]. *)
Definition valid_key_part (extra : list N) (value : string) (max_length : Z) : bool :=
  match value with
  | "" => false
  | String a rest =>
      (str_len value <=? max_length) && lower_alpha_numeric a
      && str_forallb (fun b => lower_alpha_numeric b || existsb (fun n => (byte_of b =? n)%N) extra) rest
  end.

Definition valid_tracestate_key_part : string -> Z -> bool := valid_key_part [95; 42; 47; 45]%N.
Definition valid_baggage_key_part : string -> Z -> bool := valid_key_part [46; 95; 45]%N.

(** [split('@')]: at most two parts *)
Definition valid_tracestate_key (value : string) : bool :=
  match split_on "@" value with
  | [first] => valid_tracestate_key_part first 256
  | [first; second] => valid_tracestate_key_part first 241 && valid_tracestate_key_part second 14
  | _ => false
  end.
Definition valid_baggage_key (value : string) : bool :=
  match split_on "@" value with
  | [first] => valid_baggage_key_part first 256
  | [first; second] => valid_baggage_key_part first 256 && valid_baggage_key_part second 14
  | _ => false
  end.

Definition last_byte (value : string) : option ascii :=
  match str_rev value with String a _ => Some a | "" => None end.

Definition valid_tracestate_value (value : string) : bool :=
  negb (is_empty value)
  && negb (match last_byte value with Some a => (byte_of a =? 32)%N | None => false end)
  && str_forallb (fun a => let n := byte_of a in
       (((32 <=? n) && (n <=? 43)) || ((45 <=? n) && (n <=? 60)) || ((62 <=? n) && (n <=? 126)))%N) value.

Definition str_contains_byte (c : ascii) (value : string) : bool :=
  negb (str_forallb (fun a => negb (Ascii.eqb a c)) value).

Fixpoint check_tracestate (members : list string) (seen : list string) : result string unit :=
  match members with
  | [] => Ok tt
  | raw_member :: rest =>
      let e := "RabbitMQ tracestate header has an invalid member" in
      let member := trim_ows raw_member in
      kv <- ok_or (split_once "=" member) e ;;
      ensure (negb (is_empty member || is_empty kv.1 || is_empty kv.2 || str_contains_byte "=" kv.2
                    || (MAX_TRACESTATE_MEMBER_BYTES <? str_len member)
                    || negb (valid_tracestate_key kv.1)
                    || (MAX_TRACESTATE_MEMBER_BYTES <? str_len kv.2)
                    || negb (valid_tracestate_value kv.2) || one_of kv.1 seen)) e ;;
      check_tracestate rest (seen ++ [kv.1])
  end.

Definition validate_tracestate (value : string) : result string unit :=
  ensure (str_len value <=? MAX_TRACESTATE_HEADER_BYTES) "RabbitMQ tracestate header is too large" ;;
  let members := split_on "," value in
  ensure (negb (bool_decide (members = [])) && (Z.of_nat (length members) <=? MAX_TRACESTATE_MEMBERS))
    "RabbitMQ tracestate header has invalid members" ;;
  check_tracestate members [].

(** The byte loop of [valid_encoded_baggage_value]. *)
Fixpoint encoded_baggage_bytes (value : string) : bool :=
  match value with
  | "" => true
  | String a rest =>
      if (byte_of a =? 37)%N then
        match rest with
        | String h (String l rest') => hex_byte h && hex_byte l && encoded_baggage_bytes rest'
        | _ => false
        end
      else
        (let n := byte_of a in
         ((33 <=? n) && (n <=? 43)) || ((45 <=? n) && (n <=? 60)) || ((62 <=? n) && (n <=? 126)))%N
        && encoded_baggage_bytes rest
  end.

Definition valid_encoded_baggage_value (value : string) : bool :=
  negb (is_empty value) && (str_len value <=? MAX_ENCODED_BAGGAGE_VALUE_BYTES)
  && encoded_baggage_bytes value.

Fixpoint check_baggage_metadata (metadata : list string) : result string unit :=
  match metadata with
  | [] => Ok tt
  | raw :: rest =>
      let e := "RabbitMQ baggage header has an invalid member" in
      kv <- ok_or (split_once "=" (trim_ows raw)) e ;;
      ensure (valid_baggage_key (trim_ows kv.1) && valid_encoded_baggage_value (trim_ows kv.2)) e ;;
      check_baggage_metadata rest
  end.

Fixpoint check_baggage (members : list string) (seen : list string) : result string unit :=
  match members with
  | [] => Ok tt
  | raw_member :: rest =>
      let e := "RabbitMQ baggage header has an invalid member" in
      let member := trim_ows raw_member in
      kv <- ok_or (split_once "=" member) e ;;
      let key := trim_ows kv.1 in
      let values := split_on ";" kv.2 in
      let encoded_value := trim_ows (first_part values) in
      ensure (negb (is_empty member || negb (valid_baggage_key key)
                    || negb (valid_encoded_baggage_value encoded_value) || one_of key seen)) e ;;
      check_baggage_metadata (tail values) ;;
      check_baggage rest (seen ++ [key])
  end.

Definition validate_baggage (value : string) : result string unit :=
  ensure (str_len value <=? MAX_BAGGAGE_HEADER_BYTES) "RabbitMQ baggage header is too large" ;;
  let members := split_on "," value in
  ensure (negb (bool_decide (members = [])) && (Z.of_nat (length members) <=? MAX_BAGGAGE_MEMBERS))
    "RabbitMQ baggage header has invalid members" ;;
  check_baggage members [].

Definition validate_propagation_headers (h : FieldTable) : result string unit :=
  traceparent <- required_amqp_header h "traceparent" ;;
  tracestate <- required_amqp_header h "tracestate" ;;
  baggage <- required_amqp_header h "baggage" ;;
  validate_traceparent traceparent ;;
  validate_tracestate tracestate ;;
  validate_baggage baggage.

Definition orphan_marker (h : FieldTable) : result string bool :=
  match amqp_header_value h "messaging.orphan" with
  | None => Ok false
  | Some value =>
      let value := trim value in
      if String.eqb value "true" then Ok true
      else if String.eqb value "false" then Ok false
      else Err "RabbitMQ messaging.orphan header is invalid"
  end.

(** OpenTelemetry's propagator over a field table, and whether a context has a
    valid span context. *)
Class Propagator : Type := {
  amqp_extract : FieldTable -> Context;
  amqp_inject : Context -> FieldTable -> FieldTable;
  span_valid : Context -> bool
}.

Definition extract_context `{Propagator} (h : FieldTable) : result string Context :=
  validate_propagation_headers h ;;
  let c := sanitize_context (amqp_extract h) in
  ensure (span_valid c) "RabbitMQ traceparent could not be extracted" ;;
  Ok c.

Definition inject_context `{Propagator} (c : Context) (h : FieldTable) : FieldTable :=
  let h := amqp_inject (sanitize_context c) h in
  match amqp_header_value h "traceparent" with
  | Some traceparent =>
      if negb (is_blank traceparent)
         && match amqp_header_value h "tracestate" with Some t => is_blank t | None => true end
      then <["tracestate" := LongString (Some DEFAULT_TRACESTATE)]> h else h
  | None => h
  end.

Definition context_carrier `{Propagator} (c : Context) : option string * option string * option string :=
  let h := inject_context c ∅ in
  (amqp_header_value h "traceparent", amqp_header_value h "tracestate", amqp_header_value h "baggage").

Definition republish_headers `{Propagator} (c : Context) (attempt : Z) : result string FieldTable :=
  let h := inject_context c ∅ in
  validate_propagation_headers h ;;
  Ok (<["x-order-attempt" := LongUInt attempt]> h).

(** [context_with_inbound_baggage] replaces the baggage. *)
Definition context_with_inbound_baggage (c inbound : Context) : Context :=
  with_baggage c (cx_baggage inbound).

Definition require_routed_ack (c : Confirmation) : result string unit :=
  match c with
  | Ack false => Ok tt
  | Ack true => Err "RabbitMQ returned a mandatory publication"
  | Nack => Err "RabbitMQ negatively acknowledged publication"
  | NotRequested => Err "RabbitMQ publisher confirms are not enabled"
  end.

Local Close Scope result_scope.

End OrdersMessage.

(** The propagation headers of the order messages: orders' own validators
    against those of the shared propagation library. *)
Module OrdersHeaders.

Import Propagation OrdersMessage.

(** ** The traceparent *)

(** Write out a string of a known length. *)
Tactic Notation "spell" integer(n) hyp(v) hyp(Hl) :=
  do n (destruct v as [|? v]; [exfalso; clear -Hl; unfold str_len in Hl; simpl in Hl; lia|]);
  destruct v; [|exfalso; clear -Hl; unfold str_len in Hl; simpl String.length in Hl; lia].

(** A string with dashes where the orders validator looks for them. *)
Lemma cut_traceparent v :
  str_len v = 55 -> substring 0 3 v = "00-" -> dash_at 35 v = true -> dash_at 52 v = true ->
  v = "00-" +:+ substring 3 32 v +:+ "-" +:+ substring 36 16 v +:+ "-" +:+ substring 53 2 v
  /\ str_len (substring 3 32 v) = 32 /\ str_len (substring 36 16 v) = 16 /\ str_len (substring 53 2 v) = 2.
Proof.
  intros Hl H3 H35 H52.
  spell 55 v Hl.
  unfold dash_at in H35, H52. simpl in H35, H52. apply Ascii.eqb_eq in H35, H52. subst.
  injection H3 as -> -> ->. repeat split.
Qed.

Lemma cut_shape a b c :
  str_len a = 32 -> str_len b = 16 -> str_len c = 2 ->
  let v := "00-" +:+ a +:+ "-" +:+ b +:+ "-" +:+ c in
  str_len v = 55 /\ substring 0 3 v = "00-" /\ dash_at 35 v = true /\ dash_at 52 v = true
  /\ substring 3 32 v = a /\ substring 36 16 v = b /\ substring 53 2 v = c.
Proof. intros Ha Hb Hc. spell 32 a Ha. spell 16 b Hb. spell 2 c Hc. repeat split. Qed.

Lemma orders_traceparent v : validate_traceparent v = Ok tt <-> traceparent_shape v.
Proof.
  unfold validate_traceparent, traceparent_shape. split.
  - intros H. res_inv. bool_inv. match goal with
      Hl : str_len v = 55, H3 : substring 0 3 v = _, H35 : dash_at 35 v = true, H52 : dash_at 52 v = true |- _ =>
        destruct (cut_traceparent v Hl H3 H35 H52) as (Hv & Ht & Hp & Hf) end.
    exists (substring 3 32 v), (substring 36 16 v), (substring 53 2 v). split; [exact Hv|].
    unfold is_lower_hex. rewrite Ht, Hp, Hf. by split_and!.
  - intros (t & p & f & -> & Ht & Htz & Hp & Hpz & Hf). unfold is_lower_hex in Ht, Hp, Hf. bool_inv.
    match goal with Ha : str_len t = 32, Hb : str_len p = 16, Hc : str_len f = 2 |- _ =>
      destruct (cut_shape t p f Ha Hb Hc) as (-> & -> & -> & -> & -> & -> & ->) end.
    rewrite Htz, Hpz. simpl. unfold lower_hex_byte.
    repeat match goal with Hx : str_forallb _ _ = true |- _ => rewrite Hx; clear Hx end. done.
Qed.

(** ** The tracestate *)

Lemma rev_forallb p s : str_forallb p (str_rev s) = str_forallb p s.
Proof.
  unfold str_rev. assert (H : forall t acc, str_forallb p (str_rev_app t acc) = str_forallb p t && str_forallb p acc).
  { induction t as [|a t IH]; intros acc; [done|]. simpl. rewrite IH. simpl. by destruct (p a), (str_forallb p t). }
  by rewrite H, andb_true_r.
Qed.

Lemma str_forallb_ext p q s : (forall a, p a = q a) -> str_forallb p s = str_forallb q s.
Proof. intros H. induction s as [|a s IH]; simpl; [done|]. by rewrite H, IH. Qed.

Lemma key_part_agrees value n : valid_tracestate_key_part value n = Propagation.valid_tracestate_key_part value n.
Proof.
  destruct value as [|a rest]; [done|]. unfold valid_tracestate_key_part, valid_key_part, Propagation.valid_tracestate_key_part.
  f_equal. apply str_forallb_ext. intros b. unfold tracestate_key_byte, lower_alpha_numeric. simpl.
  by destruct (is_lower b), (is_digit b), (byte_of b =? 95)%N, (byte_of b =? 42)%N, (byte_of b =? 47)%N, (byte_of b =? 45)%N.
Qed.

Lemma key_agrees value : valid_tracestate_key value = Propagation.valid_tracestate_key value.
Proof.
  unfold valid_tracestate_key, Propagation.valid_tracestate_key.
  destruct (split_on "@" value) as [|a [|b [|c l]]]; by rewrite ?key_part_agrees.
Qed.

Lemma value_bytes_agree s :
  str_forallb (fun a => let n := byte_of a in
    (((32 <=? n) && (n <=? 43)) || ((45 <=? n) && (n <=? 60)) || ((62 <=? n) && (n <=? 126)))%N) s
  = str_forallb (fun a => let n := byte_of a in ((32 <=? n) && (n <=? 126) && negb ((n =? 44) || (n =? 61)))%N) s.
Proof. apply str_forallb_ext. intros a. by destruct a as [[] [] [] [] [] [] [] []]. Qed.

Lemma value_agrees value : is_empty value = false ->
  valid_tracestate_value value = Propagation.valid_tracestate_value value.
Proof.
  intros Hne. unfold valid_tracestate_value, Propagation.valid_tracestate_value.
  rewrite value_bytes_agree, Hne. simpl negb.
  destruct (str_forallb _ value) eqn:Hb; [|by rewrite !andb_false_r]. rewrite !andb_true_r. simpl. f_equal.
  unfold last_byte, ends_with_ows. rewrite <- rev_forallb in Hb. destruct (str_rev value) as [|a rest]; [done|].
  simpl in Hb. apply andb_true_iff in Hb as [Hb _]. unfold is_ows.
  destruct (N.eqb_spec (byte_of a) 9) as [Ha|Ha]; [by rewrite Ha in Hb|]. by rewrite orb_false_r.
Qed.

(** One member, its key and value. *)
Lemma member_agrees member kv seen :
  split_once "=" member = Some kv ->
  negb (is_empty member || is_empty kv.1 || is_empty kv.2 || str_contains_byte "=" kv.2
        || (MAX_TRACESTATE_MEMBER_BYTES <? str_len member) || negb (valid_tracestate_key kv.1)
        || (MAX_TRACESTATE_MEMBER_BYTES <? str_len kv.2) || negb (valid_tracestate_value kv.2) || one_of kv.1 seen)
  = (str_len member <=? 256) && Propagation.valid_tracestate_key kv.1 && negb (is_empty kv.2)
    && (str_len kv.2 <=? 256) && Propagation.valid_tracestate_value kv.2 && negb (one_of kv.1 seen).
Proof.
  intros Hs. destruct kv as [k v]. simpl. unfold MAX_TRACESTATE_MEMBER_BYTES.
  assert (Hm : is_empty member = false) by by destruct member.
  rewrite Hm, !Z.ltb_antisym, !negb_orb, !negb_involutive, key_agrees. simpl.
  destruct (is_empty v) eqn:Ev; [by rewrite ?andb_false_r|]. rewrite value_agrees by done.
  assert (Hk : is_empty k = true -> Propagation.valid_tracestate_key k = false) by by destruct k.
  assert (Hc : Propagation.valid_tracestate_value v = true -> str_contains_byte "=" v = false).
  { unfold Propagation.valid_tracestate_value, str_contains_byte. intros [_ Hb]%andb_true_iff.
    apply negb_false_iff. revert Hb. apply str_forallb_impl. intros a. by destruct a as [[] [] [] [] [] [] [] []]. }
  destruct (is_empty k), (Propagation.valid_tracestate_key k), (Propagation.valid_tracestate_value v),
    (str_contains_byte "=" v), (str_len member <=? 256), (str_len v <=? 256), (one_of k seen);
    simpl; try done; try (by specialize (Hk eq_refl)); by specialize (Hc eq_refl).
Qed.

Lemma members_agree members : forall n seen keys k,
  (forall x, one_of x seen = one_of x keys) ->
  check_tracestate_members members n keys = Ok k <->
  check_tracestate members seen = Ok tt /\ k = (n + length members)%nat /\ (members = [] \/ (k <= 32)%nat).
Proof.
  induction members as [|raw rest IH]; intros n seen keys k Hsame; simpl.
  - split; [intros [= <-]; split_and!; [done|lia|by left]|]. intros (_ & -> & _). f_equal. lia.
  - destruct (split_once "=" (trim_ows raw)) as [kv|] eqn:Es; simpl.
    2: { destruct (is_empty (trim_ows raw)), (_ <=? _)%nat; simpl; by split; [|intros []]. }
    assert (Hm : is_empty (trim_ows raw) = false) by by destruct (trim_ows raw).
    rewrite (member_agrees _ _ seen Es), (Hsame kv.1), Hm. simpl.
    destruct (_ && negb (one_of kv.1 keys)); simpl.
    2: { destruct (_ <=? _)%nat; simpl; by split; [|intros []]. }
    assert (Hnext : forall x, one_of x (seen ++ [kv.1]) = one_of x (kv.1 :: keys)).
    { intros x. unfold one_of. rewrite existsb_app. simpl. fold (one_of x seen) (one_of x keys).
      rewrite Hsame, orb_false_r. apply orb_comm. }
    specialize (IH (S n) _ _ k Hnext).
    destruct (Nat.leb_spec n 31) as [Hle|Hgt]; simpl.
    + rewrite IH. split; intros (Hc & -> & Hl); (split; [done|]); (split; [lia|]).
      * right. destruct Hl as [-> | Hl]; simpl; lia.
      * destruct rest; [by left|]. right. destruct Hl; [done|lia].
    + split; [done|]. intros (_ & -> & [?|?]); [done|lia].
Qed.

Lemma orders_tracestate v : validate_tracestate v = Ok tt <-> validate_tracestate_header v = Ok tt.
Proof.
  unfold validate_tracestate, validate_tracestate_header, MAX_TRACESTATE_HEADER_BYTES. cbv zeta.
  destruct (str_len v <=? 512); simpl; [|done].
  pose proof (split_on_nonempty "," v) as Hne. rewrite bool_decide_eq_false_2 by done. simpl.
  unfold OrdersMessage.MAX_TRACESTATE_MEMBERS. split.
  - intros H. res_inv. bool_inv.
    rewrite (proj2 (members_agree (split_on "," v) 0 [] [] (length (split_on "," v)) (fun _ => eq_refl)));
      [|split_and!; [done|lia|right; lia]].
    simpl. by destruct (split_on "," v).
  - intros H. res_inv. match goal with Hc : check_tracestate_members _ _ _ = Ok _ |- _ =>
      apply (members_agree _ _ [] _ _ (fun _ => eq_refl)) in Hc as (-> & -> & [Hl|Hl]) end; [done|].
    simpl in Hl. rewrite (proj2 (Z.leb_le _ _)) by lia. done.
Qed.

(** the two implementations of W3C trace context agree.  The orders
    consumer's own checks of the traceparent and tracestate headers, which look
    at fixed places and keep a list of the keys seen, accept exactly the values that
    the shared propagation library accepts. *)
Theorem validators_agree v :
  (validate_traceparent v = Ok tt <-> validate_traceparent_header v = Ok tt)
  /\ (validate_tracestate v = Ok tt <-> validate_tracestate_header v = Ok tt).
Proof. split; [by rewrite orders_traceparent, traceparent_header_shape|apply orders_tracestate]. Qed.

End OrdersHeaders.
