(* ===== verification/OrdersDelivery.v ===== *)
(** The orders service's deliveries: the inbox that makes them idempotent and the consumer. *)

From stdpp Require Import relations.
From S2P Require Import Prelude Propagation Runtime OrdersEnvelope.

(** The durable inbox of the orders consumer
    (services/orders/src/messaging.rs, lines 867 to 1069, and
    deploy/postgres/migrations/006-orders-consumer-inbox.sql): the claim of an
    event, the marks that settle it, and what any sequence of them preserves. *)
Module OrdersInbox.

Import Propagation OrdersMessage.

Local Open Scope result_scope.

(** ** The table *)

Inductive inbox_status : Type := Processing | RetryScheduled | Completed | DeadLettered.
#[export] Instance inbox_status_eq_dec : EqDecision inbox_status.
Proof. solve_decision. Defined.

Definition inbox_carrier : Type := option string * option string * option string.

Record InboxRow : Type := mkInboxRow {
  ib_status : inbox_status;
  ib_attempts : Z;
  ib_lease_until : Z;
  ib_carrier : inbox_carrier;
  ib_last_error : option string;
  ib_completed_at : option Z;
  ib_updated : Z
}.

(** Rows by tenant and event. *)
Notation Inbox := (gmap (string * string) InboxRow).

Record InboxClaim : Type := mkInboxClaim {
  ic_tenant_id : string; ic_event_id : string; ic_attempts : Z }.

Inductive ClaimOutcome : Type :=
| Claimed (claim : InboxClaim)
| AlreadyHandled
| InFlight.

Definition claim_key (c : InboxClaim) : string * string := (ic_tenant_id c, ic_event_id c).

(** ** The claim *)

Definition LEASE : Z := seconds 30.

(** The WHERE of ON CONFLICT (tenant_id, event_id) DO UPDATE *)
Definition claimable (now incoming : Z) (r : InboxRow) : bool :=
  negb (bool_decide (ib_status r ∈ [Completed; DeadLettered]))
  && (bool_decide (ib_status r = RetryScheduled) && (ib_attempts r <? incoming)
      || bool_decide (ib_status r = Processing) && (ib_lease_until r <=? now)
      || bool_decide (ib_status r = Processing) && (ib_attempts r <? incoming)).

Definition next_attempts (incoming : Z) (r : InboxRow) : Z :=
  if ib_attempts r <? incoming then incoming else ib_attempts r + 1.

Definition or_else (new old : option string) : option string :=
  match new with Some s => Some s | None => old end.

Definition claimed_row (now incoming : Z) (c : inbox_carrier) (r : InboxRow) : InboxRow :=
  mkInboxRow Processing (next_attempts incoming r) (now + LEASE)
    (or_else c.1.1 (ib_carrier r).1.1, or_else c.1.2 (ib_carrier r).1.2, or_else c.2 (ib_carrier r).2)
    None (ib_completed_at r) now.

Definition inbox_claim (tenant event : string) (incoming : Z) (c : inbox_carrier) (now : Z) (t : Inbox) :
    result string (ClaimOutcome * Inbox) :=
  ensure (fits_i32 incoming) "order attempt does not fit PostgreSQL integer" ;;
  match t !! (tenant, event) with
  | None =>
      ensure (0 <? incoming) "new row violates check constraint" ;;
      Ok (Claimed (mkInboxClaim tenant event incoming),
          <[(tenant, event) := mkInboxRow Processing incoming (now + LEASE) c None None now]> t)
  | Some r =>
      if claimable now incoming r then
        ensure (fits_i32 (next_attempts incoming r)) "integer out of range" ;;
        ensure (0 <=? next_attempts incoming r) "durable order attempt is negative" ;;
        Ok (Claimed (mkInboxClaim tenant event (next_attempts incoming r)),
            <[(tenant, event) := claimed_row now incoming c r]> t)
      else
        Ok (match ib_status r with Processing => InFlight | _ => AlreadyHandled end, t)
  end.

(** ** Settling a claim *)

(** WHERE tenant_id = $1 AND event_id = $2 AND attempts = $3 AND status =
    'processing' *)
Definition claim_holds (c : InboxClaim) (r : InboxRow) : bool :=
  (ib_attempts r =? ic_attempts c) && bool_decide (ib_status r = Processing).

Definition ERROR_LIMIT : nat := 1024.
Definition bounded_text (value : string) : string := take_chars ERROR_LIMIT value.

(** How an update leaves the row; the lease ends now. *)
Definition settled_row (status : inbox_status) (completed : option Z) (error : option string) (now : Z)
    (r : InboxRow) : InboxRow :=
  mkInboxRow status (ib_attempts r) now (ib_carrier r) error completed now.

Definition update_claim (c : InboxClaim) (set_ : InboxRow -> InboxRow) (t : Inbox) :
    result string (nat * Inbox) :=
  ensure (fits_i32 (ic_attempts c)) "durable order attempt overflow" ;;
  Ok (update_row (claim_key c) (claim_holds c) set_ t).

Definition require_one_row (affected : nat) (operation : string) : result string unit :=
  ensure (affected =? 1)%nat (operation +:+ " affected " +:+ show_Z (Z.of_nat affected) +:+ " rows").

(** An update that must change one row; when it changed none, nothing is lost. *)
Definition mark_claim (c : InboxClaim) (operation : string) (set_ : InboxRow -> InboxRow) (t : Inbox) :
    result string (unit * Inbox) :=
  changed <- update_claim c set_ t ;;
  require_one_row changed.1 operation ;;
  Ok (tt, changed.2).

Definition mark_completed (c : InboxClaim) (now : Z) : Inbox -> result string (unit * Inbox) :=
  mark_claim c "complete durable order inbox claim" (settled_row Completed (Some now) None now).

Definition mark_retry_scheduled (c : InboxClaim) (reason : string) (now : Z) :
    Inbox -> result string (unit * Inbox) :=
  mark_claim c "schedule durable order inbox retry"
    (fun r => settled_row RetryScheduled (ib_completed_at r) (Some (bounded_text reason)) now r).

Definition mark_dead_lettered (c : InboxClaim) (reason : string) (now : Z) :
    Inbox -> result string (unit * Inbox) :=
  mark_claim c "mark durable order inbox dead-lettered"
    (fun r => settled_row DeadLettered (ib_completed_at r) (Some (bounded_text reason)) now r).

Definition release_claim (c : InboxClaim) (error : string) (now : Z) (t : Inbox) :
    result string (unit * Inbox) :=
  changed <- update_claim c
    (fun r => settled_row (ib_status r) (ib_completed_at r) (Some (bounded_text error)) now r) t ;;
  Ok (tt, changed.2).

Local Close Scope result_scope.

(** ** What any sequence of operations preserves *)

(** The CHECKs of the table. *)
Definition inbox_row_check (r : InboxRow) : Prop :=
  0 < ib_attempts r /\ (ib_status r = Completed -> is_Some (ib_completed_at r)).
Definition inbox_checks (t : Inbox) : Prop := forall k r, t !! k = Some r -> inbox_row_check r.

Definition handled (r : InboxRow) : Prop := ib_status r = Completed \/ ib_status r = DeadLettered.

(** The operations of any consumer. *)
Inductive inbox_step (t : Inbox) : Inbox -> Prop :=
| IsClaim tenant event incoming c now outcome t' :
    inbox_claim tenant event incoming c now t = Ok (outcome, t') -> inbox_step t t'
| IsCompleted c now t' : mark_completed c now t = Ok (tt, t') -> inbox_step t t'
| IsRetryScheduled c reason now t' : mark_retry_scheduled c reason now t = Ok (tt, t') -> inbox_step t t'
| IsDeadLettered c reason now t' : mark_dead_lettered c reason now t = Ok (tt, t') -> inbox_step t t'
| IsReleased c error now t' : release_claim c error now t = Ok (tt, t') -> inbox_step t t'.

(** Attempts only grow; a settled row changes only with a larger attempt, and a
    handled one never. *)
Record row_later (r r' : InboxRow) : Prop := {
  rl_handled : handled r -> r' = r;
  rl_attempts : ib_attempts r <= ib_attempts r';
  rl_settled : ib_status r <> Processing -> ib_attempts r' = ib_attempts r -> r' = r
}.

Definition inbox_later (t t' : Inbox) : Prop :=
  forall k r, t !! k = Some r -> exists r', t' !! k = Some r' /\ row_later r r'.

Lemma row_later_refl r : row_later r r.
Proof. by split. Qed.

#[export] Instance inbox_later_preorder : PreOrder inbox_later.
Proof.
  split.
  - intros t k r Hk. exists r. split; [done|apply row_later_refl].
  - intros a b c Hab Hbc k r Hk. destruct (Hab k r Hk) as (r1 & Hk1 & [F1 A1 S1]).
    destruct (Hbc k r1 Hk1) as (r2 & Hk2 & [F2 A2 S2]). exists r2. split; [done|]. split; [|lia|].
    + intros H. rewrite (F1 H) in *. by apply F2.
    + intros H He. rewrite (S1 H) in * by lia. by apply S2.
Qed.

Lemma insert_later t k r r' : t !! k = Some r -> row_later r r' -> inbox_later t (<[k := r']> t).
Proof.
  intros Hk Hl k1 r1 Hk1. destruct (decide (k1 = k)) as [->|Hne].
  - rewrite lookup_insert_eq. rewrite Hk in Hk1. injection Hk1 as <-. by exists r'.
  - rewrite lookup_insert_ne by done. exists r1. split; [done|apply row_later_refl].
Qed.

Lemma fresh_later t k r : t !! k = None -> inbox_later t (<[k := r]> t).
Proof.
  intros Hk k1 r1 Hk1. rewrite lookup_insert_ne by congruence. exists r1. split; [done|apply row_later_refl].
Qed.

(** What a claim did. *)
Lemma claim_ok tenant event incoming c now t outcome t' :
  inbox_claim tenant event incoming c now t = Ok (outcome, t') ->
  match outcome with
  | Claimed claim =>
      claim_key claim = (tenant, event) /\ incoming <= ic_attempts claim /\ 0 <= ic_attempts claim
      /\ exists r', t' = <[(tenant, event) := r']> t /\ claim_holds claim r' = true
         /\ (ib_completed_at r' = ib_completed_at (default r' (t !! (tenant, event))))
         /\ forall r, t !! (tenant, event) = Some r -> ib_attempts r < ic_attempts claim /\ ~ handled r
  | AlreadyHandled => t' = t /\ exists r, t !! (tenant, event) = Some r /\ ib_status r <> Processing
  | InFlight => t' = t /\ exists r, t !! (tenant, event) = Some r /\ ib_status r = Processing
  end.
Proof.
  unfold inbox_claim, claim_holds. intros H. res_inv. destruct (t !! (tenant, event)) as [r|] eqn:Er.
  - destruct (claimable now incoming r) eqn:Ec; res_inv.
    + bool_inv. simpl. assert (Hn : ib_attempts r < next_attempts incoming r /\ incoming <= next_attempts incoming r).
      { unfold next_attempts. destruct (Z.ltb_spec (ib_attempts r) incoming); lia. }
      split_and!; [done|lia|done|]. eexists. split_and!; [done| |done|].
      * simpl. by rewrite Z.eqb_refl.
      * intros r0 [= <-]. split; [lia|]. unfold claimable in Ec. apply andb_true_iff in Ec as [Ec _].
        apply negb_true_iff, bool_decide_eq_false in Ec. intros [Hh|Hh]; apply Ec; rewrite Hh; set_solver.
    + destruct (ib_status r) eqn:Es; (split; [done|]); exists r; split; congruence || done.
  - res_inv. bool_inv. simpl. split_and!; [done|lia|lia|]. eexists. split_and!; [done| |done|done].
    simpl. by rewrite Z.eqb_refl.
Qed.

(** What a mark did. *)
Lemma mark_ok c operation set_ t t' :
  mark_claim c operation set_ t = Ok (tt, t') ->
  exists r, t !! claim_key c = Some r /\ claim_holds c r = true /\ t' = <[claim_key c := set_ r]> t.
Proof.
  unfold mark_claim, update_claim. intros H. res_inv. unfold require_one_row in *. res_inv. bool_inv.
  match goal with Hn : (_ =? 1)%nat = true |- _ => apply Nat.eqb_eq in Hn end.
  destruct (update_row _ _ _ _) as [n t1] eqn:E. simpl in *. subst. apply update_row_one in E. naive_solver.
Qed.

Lemma held_processing c r : claim_holds c r = true -> ib_attempts r = ic_attempts c /\ ib_status r = Processing.
Proof. unfold claim_holds. intros H. bool_inv. done. Qed.

Lemma settle_later r status completed error now :
  ib_status r = Processing -> row_later r (settled_row status completed error now r).
Proof. intros Hs. split; [|simpl; lia|done]. intros [H|H]; congruence. Qed.

Lemma release_ok c error now t t' :
  release_claim c error now t = Ok (tt, t') ->
  t' = t \/ exists r, t !! claim_key c = Some r /\ claim_holds c r = true
              /\ t' = <[claim_key c := settled_row (ib_status r) (ib_completed_at r) (Some (bounded_text error)) now r]> t.
Proof.
  unfold release_claim, update_claim. intros H. res_inv. simpl.
  destruct (update_row _ _ _ _) as [n t1] eqn:E. destruct (decide (n = 1%nat)) as [->|Hn].
  - apply update_row_one in E. right. naive_solver.
  - apply update_row_zero in E as [-> _]; [|done]. by left.
Qed.

Lemma step_later t t' : inbox_step t t' -> inbox_later t t'.
Proof.
  assert (Hmark : forall c op set_ t', mark_claim c op set_ t = Ok (tt, t') ->
    (forall r, ib_status r = Processing -> row_later r (set_ r)) -> inbox_later t t').
  { intros c op set_ t1 (r & Hr & [_ Hs]%held_processing & ->)%mark_ok Hset. by eapply insert_later; [|apply Hset]. }
  intros [tenant event incoming c now outcome t1 H|c now t1 H|c reason now t1 H|c reason now t1 H|c error now t1 H].
  - apply claim_ok in H. destruct outcome as [claim| |]; [|by destruct H as [-> _]..].
    destruct H as (_ & _ & _ & r' & -> & [Ha Hs]%held_processing & _ & Hr).
    destruct (t !! (tenant, event)) as [r|] eqn:Er; [|by apply fresh_later].
    destruct (Hr r eq_refl) as [Hlt Hn]. eapply insert_later; [done|]. split; [done|lia|lia].
  - eapply Hmark; [exact H|]. intros r Hs. by apply settle_later.
  - eapply Hmark; [exact H|]. intros r Hs. by apply settle_later.
  - eapply Hmark; [exact H|]. intros r Hs. by apply settle_later.
  - apply release_ok in H as [->|(r & Hr & [_ Hs]%held_processing & ->)]; [done|].
    eapply insert_later; [done|]. by apply settle_later.
Qed.

Lemma steps_later t t' : rtc inbox_step t t' -> inbox_later t t'.
Proof. induction 1 as [|a b c Hs _ IH]; [done|]. etransitivity; [by apply step_later|done]. Qed.

(** ** Claims *)

(** A claim the row has outgrown can settle nothing. *)
Lemma outgrown_inert c t r op set_ error now :
  t !! claim_key c = Some r -> ic_attempts c < ib_attempts r ->
  (exists m, mark_claim c op set_ t = Err m)
  /\ (fits_i32 (ic_attempts c) = true -> release_claim c error now t = Ok (tt, t)).
Proof.
  intros Hr Hlt. assert (Hh : claim_holds c r = false).
  { unfold claim_holds. by rewrite (proj2 (Z.eqb_neq _ _)) by lia. }
  split.
  - unfold mark_claim, update_claim. destruct (fits_i32 _); simpl; [|by eexists].
    unfold update_row. rewrite Hr, Hh. simpl. by eexists.
  - intros Hf. unfold release_claim, update_claim. rewrite Hf. simpl. unfold update_row. by rewrite Hr, Hh.
Qed.

(** C14: a claim is a fencing token.  Once another consumer has claimed the same
    event again, whatever operations any consumers run before and after, the
    newer claim has a larger attempt number, and the older one can no longer
    complete, reschedule, dead-letter or release the event: its updates fail or
    change nothing. *)
Theorem newer_claim_fences tenant event incoming carrier now t c t1 t2 incoming' carrier' now' c' t3 t4 :
  inbox_claim tenant event incoming carrier now t = Ok (Claimed c, t1) ->
  rtc inbox_step t1 t2 ->
  inbox_claim tenant event incoming' carrier' now' t2 = Ok (Claimed c', t3) ->
  rtc inbox_step t3 t4 ->
  ic_attempts c < ic_attempts c'
  /\ (forall later, exists m, mark_completed c later t4 = Err m)
  /\ (forall reason later, exists m, mark_retry_scheduled c reason later t4 = Err m)
  /\ (forall reason later, exists m, mark_dead_lettered c reason later t4 = Err m)
  /\ (forall error later, fits_i32 (ic_attempts c) = true -> release_claim c error later t4 = Ok (tt, t4)).
Proof.
  intros H1 H12%steps_later H3 H34%steps_later.
  apply claim_ok in H1 as (Hk & _ & _ & r1 & -> & [Ha1 _]%held_processing & _).
  apply claim_ok in H3 as (_ & _ & _ & r3 & -> & [Ha3 _]%held_processing & _ & Hlt).
  destruct (H12 (tenant, event) r1) as (r2 & Hr2 & [_ Hle _]); [apply lookup_insert_eq|].
  destruct (Hlt r2 Hr2) as [Hlt2 _].
  destruct (H34 (tenant, event) r3) as (r4 & Hr4 & [_ Hle4 _]); [apply lookup_insert_eq|].
  rewrite <- Hk in Hr4. assert (Hin : ic_attempts c < ib_attempts r4) by lia.
  split; [lia|]. split_and!; intros; eapply (outgrown_inert c t4 r4); done || exact "" || exact 0.
Qed.

(** A handled event stays handled.  Once an event is completed or
    dead-lettered, then after any operations of any consumers every further
    delivery of it, with whatever attempt number, is told that it is already
    handled, and changes nothing: an event is completed at most once. *)
Theorem handled_event_final k r t t' incoming carrier now :
  t !! k = Some r -> handled r -> rtc inbox_step t t' -> fits_i32 incoming = true ->
  t' !! k = Some r /\ inbox_claim k.1 k.2 incoming carrier now t' = Ok (AlreadyHandled, t').
Proof.
  intros Hr Hh Hs%steps_later Hi. destruct (Hs k r Hr) as (r' & Hr' & [Hf _ _]). rewrite (Hf Hh) in Hr'.
  split; [done|]. unfold inbox_claim. rewrite Hi. simpl. destruct k as [tenant event]. simpl. rewrite Hr'.
  unfold claimable. destruct Hh as [-> | ->]; done.
Qed.

(** ** A small history: claimed, taken over after its lease, completed *)

Definition history0 : Inbox := ∅.
Definition claim_of {A} (d : A) (r : result string (ClaimOutcome * A)) : InboxClaim * A :=
  match r with Ok (Claimed c, t) => (c, t) | Ok (_, t) => (mkInboxClaim "" "" 0, t) | Err _ => (mkInboxClaim "" "" 0, d) end.
Definition is_claimed {A} (r : result string (ClaimOutcome * A)) : bool :=
  match r with Ok (Claimed _, _) => true | _ => false end.
Lemma claimed_run {A} (d : A) r : is_claimed r = true -> r = Ok (Claimed (claim_of d r).1, (claim_of d r).2).
Proof. by destruct r as [[[]]|]. Qed.
Definition no_carrier : inbox_carrier := (None, None, None).
Definition first_claim := claim_of history0 (inbox_claim "acme" "ev-1" 1 no_carrier 0 history0).
Definition second_claim := claim_of history0 (inbox_claim "acme" "ev-1" 1 no_carrier (seconds 40) first_claim.2).
Definition completed_inbox : Inbox :=
  match mark_completed second_claim.1 (seconds 41) second_claim.2 with Ok (_, t) => t | Err _ => history0 end.

Lemma completed_run :
  match mark_completed second_claim.1 (seconds 41) second_claim.2 with Ok _ => true | Err _ => false end = true ->
  mark_completed second_claim.1 (seconds 41) second_claim.2 = Ok (tt, completed_inbox).
Proof. unfold completed_inbox. by destruct (mark_completed _ _ _) as [[[] t]|]. Qed.

Lemma newer_claim_fences_witness :
  ic_attempts first_claim.1 < ic_attempts second_claim.1
  /\ exists m, mark_completed first_claim.1 (seconds 50) completed_inbox = Err m.
Proof.
  destruct (newer_claim_fences "acme" "ev-1" 1 no_carrier 0 history0 first_claim.1 first_claim.2 first_claim.2
              1 no_carrier (seconds 40) second_claim.1 second_claim.2 completed_inbox) as (Hlt & Hm & _).
  - apply claimed_run. vm_compute. reflexivity.
  - apply rtc_refl.
  - apply claimed_run. vm_compute. reflexivity.
  - apply rtc_once. apply (IsCompleted _ second_claim.1 (seconds 41)). apply completed_run. vm_compute. reflexivity.
  - split; [exact Hlt|apply Hm].
Defined.

Lemma handled_event_final_witness :
  inbox_claim "acme" "ev-1" 3 no_carrier (seconds 100) completed_inbox = Ok (AlreadyHandled, completed_inbox).
Proof.
  destruct (completed_inbox !! ("acme", "ev-1")) as [r|] eqn:E; [|vm_compute in E; discriminate E].
  apply (handled_event_final ("acme", "ev-1") r completed_inbox completed_inbox 3 no_carrier (seconds 100) E).
  - vm_compute in E. injection E as <-. by left.
  - apply rtc_refl.
  - reflexivity.
Defined.

End OrdersInbox.

(** The orders consumer (services/orders/src/messaging.rs, lines 76 to 865): one
    delivery from its headers to its acknowledgement, with the recovery of a
    delivery that failed, and the reconnection of the consumer. *)
Module OrdersConsumer.

Import Propagation Rabbit Effects OrdersMessage OrdersInbox.

(** ** Effects

    The broker decides what it answers; the environment of the process chooses
    the clock, the faults of the statements and what other consumers do to the
    inbox between two steps. *)

(** What becomes of a publication. *)
Inductive publish_reply : Type :=
| PublishTimedOut
| PublishFailed (m : string)
| ConfirmationTimedOut
| ConfirmationFailed (m : string)
| Confirmation_ (c : Confirmation).

(** The broker's answers and the current tracing context, by the number of the
    step. *)
Record Broker : Type := mkBroker {
  bk_publish : nat -> publish_reply;
  bk_settle : nat -> option string;
  bk_current : nat -> Context
}.

Record Publication : Type := mkPublication {
  pb_exchange : string; pb_routing_key : string; pb_message_id : string;
  pb_headers : FieldTable; pb_payload : result string json
}.

Inductive action : Type :=
| Published (p : Publication) (reply : publish_reply)
| Acked (tag : Z)
| Nacked (tag : Z) (requeue : bool).

(** A process over the inbox. *)
Definition Consumer (X A : Type) : Type := Proc Inbox action X A.
Local Open Scope proc_scope.

(** ** Publishing *)

Record PublishError : Type := mkPublishError { pe_error : string; pe_outcome_unknown : bool }.
Definition known (m : string) : PublishError := mkPublishError m false.
Definition unknown (m : string) : PublishError := mkPublishError m true.

Definition publish_outcome (r : publish_reply) : result PublishError unit :=
  match r with
  | PublishTimedOut => Err (unknown "RabbitMQ publish timed out")
  | PublishFailed m => Err (unknown m)
  | ConfirmationTimedOut => Err (unknown "RabbitMQ publisher confirmation timed out")
  | ConfirmationFailed m => Err (unknown m)
  | Confirmation_ c => res_map_err known (require_routed_ack c)
  end.

Record RepublishDestination : Type := mkDestination { rd_exchange : string; rd_routing_key : string }.
Definition dead_letter : RepublishDestination := mkDestination DEAD_LETTER_EXCHANGE DEAD_LETTER_ROUTING_KEY.
Definition retry : RepublishDestination := mkDestination SYNTHETIC_EXCHANGE ROUTING_KEY.

(** ** Failures of a delivery *)

Record DeliveryFailure : Type := mkDeliveryFailure {
  df_error : string; df_malformed : bool; df_dead_letter_without_republish : bool;
  df_claim : option InboxClaim; df_ack_outcome_unknown : bool;
  df_publication_outcome_unknown : bool
}.
Definition malformed (m : string) : DeliveryFailure := mkDeliveryFailure m true false None false false.
Definition retryable (c : option InboxClaim) (publication_unknown : bool) (m : string) : DeliveryFailure :=
  mkDeliveryFailure m false false c false publication_unknown.
Definition ack_unknown (c : option InboxClaim) (publication_unknown : bool) (m : string) : DeliveryFailure :=
  mkDeliveryFailure m false false c true publication_unknown.
Definition invalid_context (m : string) : DeliveryFailure := mkDeliveryFailure m true true None false false.

Section consumer.
Context `{Propagator} (b : Broker).

(** The message is mandatory and persistent. *)
Definition publish_confirm_with_outcome (p : Publication) : Consumer PublishError unit :=
  pr_lift (res_map_err (fun _ => known "invalid RabbitMQ propagation headers")
             (validate_propagation_headers (pb_headers p))) ;;
  pr_send (fun i => Published p (bk_publish b i)) (fun i => publish_outcome (bk_publish b i)).

Definition settle (a : action) : Consumer string unit :=
  pr_send (fun _ => a) (fun i => match bk_settle b i with Some m => Err m | None => Ok tt end).
Definition ack_delivery (d : Delivery) : Consumer string unit := settle (Acked (dl_tag d)).
Definition nack_delivery (d : Delivery) (requeue : bool) : Consumer string unit :=
  settle (Nacked (dl_tag d) requeue).

Definition republish (payload : result string json) (inbound_headers : FieldTable) (message_id : string)
    (attempt : Z) (destination : RepublishDestination) : Consumer PublishError unit :=
  inbound <- pr_lift (res_map_err (fun _ => known "invalid RabbitMQ propagation headers")
                        (extract_context inbound_headers)) ;;
  step <- pr_at ;;
  h <- pr_lift (res_map_err known
                  (republish_headers (context_with_inbound_baggage (bk_current b step) inbound) attempt)) ;;
  let h := match amqp_header_value inbound_headers "messaging.orphan" with
           | Some marker => <["messaging.orphan" := LongString (Some (trim marker))]> h
           | None => h
           end in
  publish_confirm_with_outcome
    (mkPublication (rd_exchange destination) (rd_routing_key destination) message_id h payload).

(** ** One delivery *)

Definition publish_or_fail (m : OrderMessage) (h : FieldTable) (attempt : Z)
    (destination : RepublishDestination) (c : InboxClaim) : Consumer DeliveryFailure unit :=
  pr_map_err (fun pe => retryable (Some c) (pe_outcome_unknown pe) (pe_error pe))
    (republish (Ok (order_message_json (with_attempt attempt m))) h (om_event_id m) attempt destination).

(** The mark after a confirmed publication, then the acknowledgement. *)
Definition settle_published (d : Delivery) (c : InboxClaim)
    (mark : Z -> Inbox -> result string (unit * Inbox)) : Consumer DeliveryFailure unit :=
  pr_map_err (retryable (Some c) true) (pr_store mark) ;;
  pr_map_err (ack_unknown (Some c) true) (ack_delivery d).

Definition dead_letter_delivery (d : Delivery) (m : OrderMessage) (c : InboxClaim) (reason : string) :
    Consumer DeliveryFailure unit :=
  publish_or_fail m (dl_headers d) MAX_ATTEMPTS dead_letter c ;;
  settle_published d c (fun now => mark_dead_lettered c reason now).

Definition process_poison (d : Delivery) (m : OrderMessage) (c : InboxClaim) :
    Consumer DeliveryFailure unit :=
  next_attempt <- pr_lift (res_map_err (retryable (Some c) false)
                    (ok_or (u32_checked_add (ic_attempts c) 1) "durable order attempt overflow")) ;;
  if MAX_ATTEMPTS <? next_attempt
  then dead_letter_delivery d m c "poison event exhausted durable attempts"
  else
    publish_or_fail m (dl_headers d) next_attempt retry c ;;
    settle_published d c (fun now => mark_retry_scheduled c "poison event retry confirmed" now).

Definition process_claimed (d : Delivery) (m : OrderMessage) (c : InboxClaim) :
    Consumer DeliveryFailure unit :=
  if MAX_ATTEMPTS <? ic_attempts c
  then dead_letter_delivery d m c "durable redelivery budget exhausted"
  else if om_poison m then process_poison d m c
  else
    pr_map_err (retryable (Some c) false) (pr_store (fun now => mark_completed c now)) ;;
    pr_map_err (ack_unknown (Some c) false) (ack_delivery d).

(** The body decoded and checked, with its attempt. *)
Definition accepted_message (d : Delivery) : result string (OrderMessage * Z) :=
  (v <- dl_data d ;;
   m <- ok_or (read_order_message v) "order message cannot be decoded" ;;
   attempt <- canonical_attempt (om_attempt m) (dl_headers d) ;;
   validate_message m d ;;
   Ok (m, attempt))%res.

Definition process_outcome (d : Delivery) (m : OrderMessage) (outcome : ClaimOutcome) :
    Consumer DeliveryFailure unit :=
  match outcome with
  | Claimed c => process_claimed d m c
  | AlreadyHandled => pr_map_err (ack_unknown None false) (ack_delivery d)
  | InFlight =>
      pr_fail (retryable None false "order event is currently owned by another consumer lease")
  end.

Definition process_delivery (d : Delivery) (inbound : Context) : Consumer DeliveryFailure unit :=
  accepted <- pr_lift (res_map_err malformed (accepted_message d)) ;;
  let '(m, attempt) := accepted in
  outcome <- pr_map_err (retryable None false)
    (pr_store (inbox_claim (om_tenant_id m) (om_event_id m) attempt (context_carrier inbound))) ;;
  process_outcome d m outcome.

(** ** Recovery *)

Definition failure_requires_reconnect (f : DeliveryFailure) : bool :=
  df_ack_outcome_unknown f || df_publication_outcome_unknown f.

Definition recover_failed_delivery (d : Delivery) (f : DeliveryFailure) : Consumer string unit :=
  if failure_requires_reconnect f then
    pr_fail ("delivery outcome is unknown; reconnecting without republishing: " +:+ df_error f)
  else
    match df_claim f with
    | None => pr_fail ("durable inbox claim did not complete; reconnecting without settling: "
                       +:+ df_error f)
    | Some c =>
        pr_store (release_claim c (df_error f)) ;;
        nack_delivery d true
    end.

Definition recover_malformed_delivery (d : Delivery) : Consumer string unit :=
  pr_map_err pe_error
    (republish (dl_data d) (dl_headers d) (delivery_message_id d) MAX_ATTEMPTS dead_letter) ;;
  ack_delivery d.

Definition recover_invalid_context (d : Delivery) : Consumer string unit := nack_delivery d false.

Definition recover (d : Delivery) (f : DeliveryFailure) : Consumer string unit :=
  if df_malformed f then
    if df_dead_letter_without_republish f then recover_invalid_context d
    else recover_malformed_delivery d
  else recover_failed_delivery d f.

(** The propagation context of a delivery, when it and the orphan marker are
    valid. *)
Definition delivery_context (h : FieldTable) : result string Context :=
  (c <- extract_context h ;;
   _ <- orphan_marker h ;;
   Ok c)%res.

(** The body of the consumer's loop: an error leaves the loop to reconnect. *)
Definition handle_delivery (d : Delivery) : Consumer string unit :=
  pr_match (match delivery_context (dl_headers d) with
            | Err m => pr_fail (invalid_context m)
            | Ok inbound => process_delivery d inbound
            end)
    (fun r => match r with
              | Ok _ => pr_ret tt
              | Err f => recover d f
              end).
End consumer.

(** ** Reconnecting *)

Definition RECONNECT_DELAY_INITIAL : Z := seconds 1.
Definition RECONNECT_DELAY_MAX : Z := seconds 30.
Definition MAX_RECONNECT_FAILURES : Z := 10.

Definition next_reconnect_delay (current : Z) : Z :=
  if RECONNECT_DELAY_MAX / 2 <=? current then RECONNECT_DELAY_MAX else current + current.

(** One turn of the consumer's loop after its subscription was lost: the process
    ends ([None]), or waits and tries to connect. *)
Record Reconnect : Type := mkReconnect { rc_delay : Z; rc_failures : Z }.
Definition reconnect_turn (connected : bool) (s : Reconnect) : option Reconnect :=
  let failures := rc_failures s + 1 in
  if MAX_RECONNECT_FAILURES <=? failures then None
  else Some (if connected then mkReconnect RECONNECT_DELAY_INITIAL 0
             else mkReconnect (next_reconnect_delay (rc_delay s)) failures).

Local Close Scope proc_scope.

End OrdersConsumer.
