(* ===== verification/OrdersOutcomes.v ===== *)
(** What handling a delivery does: the protocol every run follows towards the
    broker, and its refinement to the steps of the inbox. *)

From stdpp Require Import relations.
From S2P Require Import Prelude Propagation Runtime OrdersEnvelope OrdersDelivery.
Import Rabbit Effects OrdersMessage OrdersInbox OrdersConsumer.

Section outcomes.
Context `{HP : Propagator} (b : Broker) (e : Env Inbox).

Notation does := (does inbox_step e).
Notation moved := (moved inbox_step e).

Lemma settle_does a : does (settle b a) (fun t0 _ l _ => l = [(a, t0)]).
Proof. eapply does_conseq; [apply does_send|]. by intros t0 r l _ (i & -> & _). Qed.

(** ** The protocol of a delivery *)

Definition routed : publish_reply := Confirmation_ (Ack false).

(** The accepted message of the delivery is recorded with this status. *)
Definition recorded_as (d : Delivery) (status : inbox_status) (t : Inbox) : Prop :=
  exists m attempt r, accepted_message d = Ok (m, attempt)
    /\ t !! (om_tenant_id m, om_event_id m) = Some r /\ ib_status r = status.

Inductive purpose : Type := Retry | DeadLetter | MalformedDeadLetter.

(** What may be published for a delivery: a retry of a poisoned message with a
    larger attempt within the budget, the message to the dead-letter exchange
    with the last attempt, or what was not understood, as it came. *)
Definition publishes_for (d : Delivery) (p : Publication) (why : purpose) : Prop :=
  match why with
  | Retry => exists m attempt n, accepted_message d = Ok (m, attempt) /\ om_poison m = true
      /\ attempt < n <= MAX_ATTEMPTS
      /\ pb_exchange p = SYNTHETIC_EXCHANGE /\ pb_routing_key p = ROUTING_KEY
      /\ pb_message_id p = om_event_id m /\ pb_payload p = Ok (order_message_json (with_attempt n m))
      /\ pb_headers p !! "x-order-attempt" = Some (LongUInt n)
  | DeadLetter => exists m attempt, accepted_message d = Ok (m, attempt)
      /\ pb_exchange p = DEAD_LETTER_EXCHANGE /\ pb_routing_key p = DEAD_LETTER_ROUTING_KEY
      /\ pb_message_id p = om_event_id m
      /\ pb_payload p = Ok (order_message_json (with_attempt MAX_ATTEMPTS m))
  | MalformedDeadLetter => (exists err, accepted_message d = Err err)
      /\ pb_exchange p = DEAD_LETTER_EXCHANGE /\ pb_routing_key p = DEAD_LETTER_ROUTING_KEY
      /\ pb_payload p = dl_data d
  end.

Definition settles (d : Delivery) (why : purpose) (t : Inbox) : Prop :=
  match why with
  | Retry => recorded_as d RetryScheduled t
  | DeadLetter => recorded_as d DeadLettered t
  | MalformedDeadLetter => True
  end.

Definition valid_headers (p : Publication) : Prop := validate_propagation_headers (pb_headers p) = Ok tt.

(** The broker is known not to have taken the message. *)
Definition refused (reply : publish_reply) : Prop := exists m, publish_outcome reply = Err (known m).

Inductive delivery_protocol (d : Delivery) : list (action * Inbox) -> Prop :=
| DpSilent : delivery_protocol d []
| DpRejected t err : delivery_context (dl_headers d) = Err err ->
    delivery_protocol d [(Nacked (dl_tag d) false, t)]
| DpAcked t status : recorded_as d status t -> status <> Processing ->
    delivery_protocol d [(Acked (dl_tag d), t)]
| DpRequeued t : delivery_protocol d [(Nacked (dl_tag d) true, t)]
| DpSent p reply why t : publishes_for d p why -> valid_headers p ->
    delivery_protocol d [(Published p reply, t)]
| DpSentRequeued p reply why t t' : publishes_for d p why -> valid_headers p -> refused reply ->
    delivery_protocol d [(Published p reply, t); (Nacked (dl_tag d) true, t')]
| DpSentAcked p why t t' : publishes_for d p why -> valid_headers p -> settles d why t' ->
    delivery_protocol d [(Published p routed, t); (Acked (dl_tag d), t')].

(** ** What the parts of a delivery do *)

(** Nothing was sent, or one valid message was, and the result is its outcome. *)
Definition sends (is_ours : Publication -> Prop) (r : result PublishError unit)
    (l : list (action * Inbox)) : Prop :=
  (exists err, r = Err (known err) /\ l = [])
  \/ exists p reply t, valid_headers p /\ is_ours p /\ l = [(Published p reply, t)]
      /\ r = publish_outcome reply.

Lemma publish_does p : does (publish_confirm_with_outcome b p) (fun _ r l _ => sends (eq p) r l).
Proof.
  eapply does_bind with (Q := fun (_ : unit) _ r l _ => exists reply t, l = [(Published p reply, t)] /\ r = publish_outcome reply);
    [apply does_lift| |..].
  - intros _ _ _ _ _ w r w' Hrun. injection Hrun as <- <-. simpl. split; [apply next_moved|]. eauto 6.
  - intros t0 l t err (Hr & -> & _). left. unfold res_map_err in Hr. destruct (validate_propagation_headers _); [done|].
    injection Hr as ->. by eexists.
  - intros t0 l1 t1 [] r l2 t2 (Hr & -> & _) (reply & t & -> & ->). right. exists p, reply, t. split_and!; try done.
    unfold valid_headers. by destruct (validate_propagation_headers _) as [[]|].
Qed.

(** The message a republication sends. *)
Definition republication (payload : result string json) (message_id : string) (attempt : Z)
    (destination : RepublishDestination) (p : Publication) : Prop :=
  pb_exchange p = rd_exchange destination /\ pb_routing_key p = rd_routing_key destination
  /\ pb_message_id p = message_id /\ pb_payload p = payload
  /\ pb_headers p !! "x-order-attempt" = Some (LongUInt attempt).

Lemma republish_does payload h id attempt destination :
  does (republish b payload h id attempt destination)
    (fun _ r l _ => sends (republication payload id attempt destination) r l).
Proof.
  assert (Hnone : forall err, does (pr_fail (known err))
            (fun _ r l _ => sends (republication payload id attempt destination) r l)).
  { intros err. apply does_nothing. intros w. split; [done|]. left. by exists err. }
  intros w r w' H. unfold republish, pr_bind, pr_lift in H.
  destruct (extract_context h) as [inbound|err]; [|exact (Hnone _ _ _ _ H)]. simpl in H.
  destruct (republish_headers _ attempt) as [h1|err] eqn:Eh; [|exact (Hnone _ _ _ _ H)]. simpl in H.
  apply publish_does in H as (M & l & L & Hs). split; [done|]. exists l. split; [done|].
  destruct Hs as [Hk|(p & reply & t1 & Hv & <- & -> & ->)]; [by left|]. right. eexists _, reply, t1.
  split_and!; [exact Hv| |done..]. split_and!; [done..|]. simpl.
  assert (Ha : h1 !! "x-order-attempt" = Some (LongUInt attempt)).
  { unfold republish_headers in Eh. cbv zeta in Eh. destruct (res_bind _ _) eqn:Eb in Eh; [|done].
    simpl in Eh. res_inv. apply lookup_insert_eq. }
  destruct (amqp_header_value h "messaging.orphan"); [|done]. by rewrite lookup_insert_ne.
Qed.

Definition processed (d : Delivery) (r : result DeliveryFailure unit) (l : list (action * Inbox)) : Prop :=
  match r with
  | Ok _ => delivery_protocol d l
  | Err f =>
      if df_malformed f
      then (exists err, accepted_message d = Err err) /\ df_dead_letter_without_republish f = false /\ l = []
      else delivery_protocol d l
           /\ (failure_requires_reconnect f = false ->
               l = [] \/ exists p reply why t, l = [(Published p reply, t)] /\ publishes_for d p why
                          /\ valid_headers p /\ refused reply)
  end.

(** Runs of mapped parts. *)
Lemma map_err_run {X Y A} (f : X -> Y) (m : Consumer X A) P w r w' :
  does m P -> pr_map_err f m e w = (r, w') ->
  exists r0, r = res_map_err f r0 /\ moved (w_store w) (w_store w')
    /\ exists l, w_log w' = w_log w ++ l /\ P (w_store w) r0 l (w_store w').
Proof.
  intros Hm H. unfold pr_map_err in H. destruct (m e w) as [r0 w0] eqn:Em. injection H as <- <-.
  exists r0. split; [done|]. by apply Hm.
Qed.

(** A mark of the claim, then the acknowledgement: when nothing is sent, the
    failure says whether a publication preceded. *)
Definition marks_and_acks (d : Delivery) (status : inbox_status) (published : bool)
    (r : result DeliveryFailure unit) (l : list (action * Inbox)) : Prop :=
  (l = [] /\ exists f, r = Err f /\ df_malformed f = false /\ df_publication_outcome_unknown f = published)
  \/ exists t, recorded_as d status t /\ l = [(Acked (dl_tag d), t)]
     /\ forall f, r = Err f -> df_malformed f = false /\ df_ack_outcome_unknown f = true.

Lemma ack_does {X} (f : string -> X) d :
  does (pr_map_err f (ack_delivery b d))
    (fun t0 r l _ => l = [(Acked (dl_tag d), t0)] /\ forall x, r = Err x -> exists m, x = f m).
Proof.
  eapply does_map_err; [apply settle_does|]. intros t0 r l t ->. split; [done|].
  intros x. destruct r; simpl; [done|]. intros [= <-]. by eexists.
Qed.

Lemma mark_ack_does d c status published mark :
  (forall now t t', mark now t = Ok (tt, t') -> inbox_step t t' /\ recorded_as d status t') ->
  does (pr_bind (pr_map_err (retryable (Some c) published) (pr_store mark))
          (fun _ => pr_map_err (ack_unknown (Some c) published) (ack_delivery b d)))
    (fun _ r l _ => marks_and_acks d status published r l).
Proof.
  intros Hm. eapply does_bind with
    (Q := fun (_ : unit) t0 r l (_ : Inbox) =>
       l = [(Acked (dl_tag d), t0)] /\ forall x, r = Err x -> exists m, x = ack_unknown (Some c) published m)
    (P := fun (_ : Inbox) r l t =>
       l = [] /\ (forall err, r = Err err -> df_malformed err = false /\ df_publication_outcome_unknown err = published)
       /\ forall a, r = Ok a -> recorded_as d status t).
  - eapply does_map_err; [apply does_store; intros now t [] t' Hb; by apply (Hm now)|].
    intros t0 [[]|err] l t [-> Hr]; (split; [done|]); split; try done.
    + intros _ _. destruct (Hr tt eq_refl) as (now & t1 & Ht). by apply (Hm now t1).
    + by intros ? [= <-].
  - intros _ _ _ _ _. apply ack_does.
  - intros t0 l t err (-> & Hr & _). left. split; [done|]. exists err. split; [done|]. by apply Hr.
  - intros t0 l1 t1 [] r l2 t2 (-> & _ & Hr) (-> & Hx). right. exists t1. split; [by apply (Hr tt)|].
    split; [done|]. intros f Hf. by destruct (Hx f Hf) as (m & ->).
Qed.

(** A publication of the claimed message, then the mark and the
    acknowledgement. *)
Lemma published_does d m c attempt destination why status mark :
  (forall p, republication (Ok (order_message_json (with_attempt attempt m))) (om_event_id m) attempt
               destination p -> publishes_for d p why) ->
  (forall t, recorded_as d status t -> settles d why t) ->
  (forall now t t', mark now t = Ok (tt, t') -> inbox_step t t' /\ recorded_as d status t') ->
  does (pr_bind (publish_or_fail b m (dl_headers d) attempt destination c)
          (fun _ => settle_published b d c mark)) (fun _ r l _ => processed d r l).
Proof.
  intros Hp Hs Hm. eapply does_bind with
    (Q := fun (_ : unit) (_ : Inbox) r l (_ : Inbox) => marks_and_acks d status true r l)
    (P := fun (_ : Inbox) r l (_ : Inbox) => exists r0, r = res_map_err (fun pe => retryable (Some c) (pe_outcome_unknown pe) (pe_error pe)) r0
       /\ sends (fun p => publishes_for d p why) r0 l).
  - eapply does_map_err; [apply republish_does|]. intros t0 r l t Hr. exists r. split; [done|].
    destruct Hr as [Hr|(p & reply & t1 & Hv & Ho & Hl)]; [by left|]. right. exists p, reply, t1. eauto 6.
  - intros _ _ _ _ _. by apply mark_ack_does.
  - intros t0 l t err (r0 & Hr & Hsent). destruct Hsent as [(m0 & -> & ->)|(p & reply & t1 & Hv & Ho & -> & ->)].
    + injection Hr as ->. split; [constructor|]. by left.
    + destruct (publish_outcome reply) as [|[x u]] eqn:Er; [done|]. injection Hr as ->.
      split; [by econstructor|]. intros Hu. unfold failure_requires_reconnect in Hu. simpl in Hu. subst u. right.
      assert (refused reply) by by exists x. eauto 10.
  - intros t0 l1 t1 [] r l2 t2 (r0 & Hr & Hsent) Hma. destruct Hsent as [(m0 & -> & ->)|(p & reply & t3 & Hv & Ho & -> & ->)]; [done|].
    assert (reply = routed) as ->.
    { destruct reply as [| | | |[[]| |]]; simpl in Hr; done. }
    assert (Hsent : delivery_protocol d [(Published p routed, t3)]) by by econstructor.
    destruct Hma as [(-> & f & -> & Hf & Hu)|(t4 & Hrec & -> & Hf)].
    + simpl. rewrite Hf. split; [done|]. unfold failure_requires_reconnect. by rewrite Hu, orb_true_r.
    + assert (Hdone : delivery_protocol d [(Published p routed, t3); (Acked (dl_tag d), t4)]).
      { eapply DpSentAcked; eauto. }
      destruct r as [|f]; simpl; [done|]. destruct (Hf f eq_refl) as [-> Ha]. split; [done|].
      unfold failure_requires_reconnect. by rewrite Ha.
Qed.

(** ** The claimed message *)

Lemma mark_records d m attempt c op set_ status t t' :
  accepted_message d = Ok (m, attempt) -> claim_key c = (om_tenant_id m, om_event_id m) ->
  mark_claim c op set_ t = Ok (tt, t') -> (forall r, ib_status (set_ r) = status) -> recorded_as d status t'.
Proof.
  intros Hacc Hk (r & Hr & _ & ->)%mark_ok Hs. exists m, attempt, (set_ r). rewrite Hk, lookup_insert_eq. eauto.
Qed.

Lemma dead_letter_does d m attempt c reason :
  accepted_message d = Ok (m, attempt) -> claim_key c = (om_tenant_id m, om_event_id m) ->
  does (dead_letter_delivery b d m c reason) (fun _ r l _ => processed d r l).
Proof.
  intros Hacc Hk. apply (published_does _ _ _ _ _ DeadLetter DeadLettered).
  - intros p (? & ? & ? & ? & _). exists m, attempt. eauto 10.
  - done.
  - intros now t t' Hm. split; [by eapply IsDeadLettered|]. exact (mark_records _ _ _ _ _ _ _ _ _ Hacc Hk Hm (fun _ => eq_refl)).
Qed.

Lemma failed_does d f :
  df_malformed f = false -> does (pr_fail f) (fun _ r l _ => processed d r l).
Proof.
  intros Hf. apply does_nothing. intros w. split; [done|]. simpl. rewrite Hf. split; [constructor|]. by left.
Qed.

Lemma poison_does d m attempt c :
  accepted_message d = Ok (m, attempt) -> claim_key c = (om_tenant_id m, om_event_id m) ->
  attempt <= ic_attempts c -> om_poison m = true ->
  does (process_poison b d m c) (fun _ r l _ => processed d r l).
Proof.
  intros Hacc Hk Ha Hp. unfold process_poison, u32_checked_add.
  destruct (fits_u32 (ic_attempts c + 1)).
  - change (does (if MAX_ATTEMPTS <? ic_attempts c + 1
                  then dead_letter_delivery b d m c "poison event exhausted durable attempts"
                  else pr_bind (publish_or_fail b m (dl_headers d) (ic_attempts c + 1) retry c) (fun _ =>
                    settle_published b d c (fun now => mark_retry_scheduled c "poison event retry confirmed" now)))
              (fun _ r l _ => processed d r l)).
    destruct (Z.ltb_spec MAX_ATTEMPTS (ic_attempts c + 1)); [by eapply dead_letter_does|].
    apply (published_does _ _ _ _ _ Retry RetryScheduled).
    + intros p (? & ? & ? & ? & ?). exists m, attempt, (ic_attempts c + 1). split_and!; try done; lia.
    + done.
    + intros now t t' Hm. split; [by eapply IsRetryScheduled|]. exact (mark_records _ _ _ _ _ _ _ _ _ Hacc Hk Hm (fun _ => eq_refl)).
  - by apply failed_does.
Qed.

Lemma claimed_does d m attempt c :
  accepted_message d = Ok (m, attempt) -> claim_key c = (om_tenant_id m, om_event_id m) ->
  attempt <= ic_attempts c -> does (process_claimed b d m c) (fun _ r l _ => processed d r l).
Proof.
  intros Hacc Hk Ha. unfold process_claimed. destruct (MAX_ATTEMPTS <? ic_attempts c); [by eapply dead_letter_does|].
  destruct (om_poison m) eqn:Hp; [by eapply poison_does|].
  eapply does_conseq; [apply (mark_ack_does d c Completed)|].
  - intros now t t' Hm. split; [by eapply IsCompleted|]. exact (mark_records _ _ _ _ _ _ _ _ _ Hacc Hk Hm (fun _ => eq_refl)).
  - intros _ r l _ [(-> & f & -> & Hf & Hu)|(t & Hr & -> & Hf)].
    + simpl. rewrite Hf. split; [constructor|]. by left.
    + assert (Hd : delivery_protocol d [(Acked (dl_tag d), t)]) by by eapply DpAcked.
      destruct r as [|f]; [done|]. simpl. destruct (Hf f eq_refl) as [-> Hu]. split; [done|].
      unfold failure_requires_reconnect. by rewrite Hu.
Qed.

(** What the claim answered, of the message of the delivery. *)
Definition claim_answers (d : Delivery) (m : OrderMessage) (attempt : Z) (o : ClaimOutcome) (t : Inbox) : Prop :=
  match o with
  | Claimed c => claim_key c = (om_tenant_id m, om_event_id m) /\ attempt <= ic_attempts c
  | AlreadyHandled => exists status, recorded_as d status t /\ status <> Processing
  | InFlight => True
  end.

Lemma process_outcome_does d m attempt o t :
  accepted_message d = Ok (m, attempt) -> claim_answers d m attempt o t ->
  does (process_outcome b d m o) (fun t0 r l _ => claim_answers d m attempt o t0 -> processed d r l).
Proof.
  intros Hacc Ho. destruct o as [c| |]; unfold process_outcome.
  - destruct Ho as [Hk Ha]. eapply does_conseq; [by eapply claimed_does|]. by intros t0 r l t1 Hp _.
  - eapply does_conseq; [apply ack_does|]. intros t0 r l _ [-> Hx] (status & Hr & Hs).
    assert (Hd : delivery_protocol d [(Acked (dl_tag d), t0)]) by by eapply DpAcked.
    destruct r as [|f]; [done|]. destruct (Hx f eq_refl) as (x & ->). by split.
  - eapply does_conseq; [by apply (failed_does d)|]. by intros t0 r l t1 Hp _.
Qed.

Lemma process_delivery_does d inbound : does (process_delivery b d inbound) (fun _ r l _ => processed d r l).
Proof.
  unfold process_delivery. destruct (accepted_message d) as [[m attempt]|err] eqn:Hacc.
  2: { apply does_nothing. intros w. split; [done|]. simpl. by eauto. }
  change (does (pr_bind (pr_map_err (retryable None false)
      (pr_store (inbox_claim (om_tenant_id m) (om_event_id m) attempt (context_carrier inbound))))
      (process_outcome b d m)) (fun _ r l _ => processed d r l)).
  eapply does_bind with
    (P := fun (_ : Inbox) r l t => l = [] /\ (forall f, r = Err f -> df_malformed f = false)
       /\ forall o, r = Ok o -> claim_answers d m attempt o t)
    (Q := fun o t0 r l (_ : Inbox) => claim_answers d m attempt o t0 -> processed d r l).
  - eapply does_map_err; [apply does_store; intros; by eapply IsClaim|].
    intros t0 [o|err] l t [-> Hr]; (split; [done|]); split; try done; [|by intros ? [= <-]].
    intros ? [= <-]. destruct (Hr o eq_refl) as (now & t1 & Hc). apply claim_ok in Hc. destruct o as [c| |]; [| |done].
    + split; [by destruct Hc|]. by destruct Hc as (_ & ? & _).
    + destruct Hc as (-> & r & Hr1 & Hs). exists (ib_status r). split; [|done]. by exists m, attempt, r.
  - intros o _ _ t (_ & _ & Ho). by eapply process_outcome_does, Ho.
  - intros t0 l t err (-> & Hr & _). simpl. rewrite (Hr err eq_refl). split; [constructor|]. by left.
  - intros t0 l1 t1 o r l2 t2 (-> & _ & Ho) Hq. by apply Hq, Ho.
Qed.

(** ** Recovery, and the whole delivery *)

Lemma failed_delivery_does d f l1 :
  df_malformed f = false -> processed d (Err f) l1 ->
  does (recover_failed_delivery b d f) (fun _ _ l2 _ => delivery_protocol d (l1 ++ l2)).
Proof.
  unfold processed, recover_failed_delivery. intros Hf. rewrite Hf. intros [Hd Hl].
  assert (Hstop : forall err, does (pr_fail err) (fun _ (_ : result string unit) l2 _ => delivery_protocol d (l1 ++ l2))).
  { intros err. apply does_nothing. intros w. by rewrite app_nil_r. }
  destruct (failure_requires_reconnect f); [apply Hstop|]. destruct (df_claim f) as [c|]; [|apply Hstop].
  eapply does_bind with (P := fun _ _ l _ => l = [])
    (Q := fun (_ : unit) t0 _ l (_ : Inbox) => l = [(Nacked (dl_tag d) true, t0)]).
  - eapply does_conseq; [apply does_store|].
    + intros now t [] t' Hb. by eapply IsReleased.
    + by intros t0 r l t [-> _].
  - intros _ _ _ _ _. eapply does_conseq; [apply settle_does|]. done.
  - intros t0 l t err ->. by rewrite app_nil_r.
  - intros t0 l0 t1 [] r l2 t2 -> ->. destruct (Hl eq_refl) as [->|(p & reply & why & t & -> & Hp & Hv & Hne)]; simpl.
    + constructor.
    + by eapply DpSentRequeued.
Qed.

Lemma malformed_delivery_does d err :
  accepted_message d = Err err ->
  does (recover_malformed_delivery b d) (fun _ _ l _ => delivery_protocol d l).
Proof.
  intros Hacc. eapply does_bind with
    (P := fun _ r l _ => exists r0, r = res_map_err pe_error r0
       /\ sends (fun p => publishes_for d p MalformedDeadLetter) r0 l)
    (Q := fun (_ : unit) t0 _ l (_ : Inbox) => l = [(Acked (dl_tag d), t0)]).
  - eapply does_map_err; [apply republish_does|]. intros t0 r l t Hr. exists r. split; [done|].
    destruct Hr as [Hr|(p & reply & t1 & Hv & Ho & Hl)]; [by left|]. right. exists p, reply, t1.
    destruct Ho as (? & ? & _ & ? & _). split; [done|]. split; [|done]. split; [by eexists|done].
  - intros _ _ _ _ _. eapply does_conseq; [apply settle_does|]. done.
  - intros t0 l t m (r0 & Hr & [(m0 & -> & ->)|(p & reply & t1 & Hv & Hp & -> & ->)]); [constructor|].
    by eapply DpSent.
  - intros t0 l t [] r l2 t2 (r0 & Hr & [(m0 & -> & ->)|(p & reply & t1 & Hv & Hp & -> & ->)]) ->; [done|].
    assert (reply = routed) as -> by (destruct reply as [| | | |[[]| |]]; done).
    by apply (DpSentAcked _ _ MalformedDeadLetter).
Qed.

Lemma recover_does d f l1 :
  processed d (Err f) l1 -> does (recover b d f) (fun _ _ l2 _ => delivery_protocol d (l1 ++ l2)).
Proof.
  intros Hp. unfold recover. destruct (df_malformed f) eqn:Ef.
  - simpl in Hp. rewrite Ef in Hp. destruct Hp as ((err & Ha) & -> & ->). by apply (malformed_delivery_does _ err).
  - by apply failed_delivery_does.
Qed.

Lemma handle_delivery_does d : does (handle_delivery b d) (fun _ _ l _ => delivery_protocol d l).
Proof.
  unfold handle_delivery. destruct (delivery_context (dl_headers d)) as [inbound|err] eqn:Ec.
  - eapply does_match with (Q := fun _ l1 _ _ l2 _ => delivery_protocol d (l1 ++ l2));
      [apply process_delivery_does| |done].
    intros [[]|f] t0 l1 t Hp; [|by apply recover_does].
    apply does_nothing. intros w. split; [done|]. by rewrite app_nil_r.
  - intros w r w' H. apply settle_does in H as (M & l & L & ->). split; [done|]. eexists. split; [exact L|].
    by eapply DpRejected.
Qed.

(** C13: what a delivery does to the inbox and the broker.  Whatever the message,
    the faults of the database, the answers of the broker and the other
    consumers, handling a delivery makes only the steps of the inbox, and what
    it sends follows the protocol: a delivery is acknowledged only after its
    message is recorded with a status of its own, after the confirmed and routed
    publication that status speaks of, or after what could not be understood
    reached the dead-letter exchange; it is returned to the queue only when
    nothing was confirmed; and at most one message is published, with valid
    propagation headers, and when its outcome is unknown nothing is settled. *)
Theorem delivery_follows_protocol d w :
  let w' := (handle_delivery b d e w).2 in
  moved (w_store w) (w_store w') /\ exists l, w_log w' = w_log w ++ l /\ delivery_protocol d l.
Proof.
  destruct (handle_delivery b d e w) as [r w'] eqn:Eh. apply handle_delivery_does in Eh as (M & l & L & Hp). eauto.
Qed.

(** ** Retries *)

Definition integers_fit (m : OrderMessage) : Prop :=
  0 <= om_lag_ms m <= u64_modulus - 1 /\ 0 <= om_attempt m <= u32_max.

Lemma read_back_message m : integers_fit m -> read_order_message (order_message_json m) = Some m.
Proof.
  intros [Hl Ha]. unfold read_order_message, order_message_json. simpl. unfold as_int.
  rewrite !(proj2 (Z.leb_le _ _)) by lia. by destruct m.
Qed.

Lemma as_int_some lo hi v n : as_int lo hi v = Some n -> lo <= n <= hi.
Proof. unfold as_int. destruct v; try done. case_match; [|done]. intros [= ->]. bool_inv. lia. Qed.

Lemma read_message_fits v m : read_order_message v = Some m -> integers_fit m.
Proof.
  unfold read_order_message. intros H. repeat (case_match || apply bind_Some in H as (? & ? & H)); try done.
  simplify_eq. split; by eapply as_int_some.
Qed.

Lemma accepted_fits d m attempt :
  accepted_message d = Ok (m, attempt) -> integers_fit m /\ om_attempt m = attempt /\ validate_message m d = Ok tt.
Proof.
  unfold accepted_message. intros H. res_inv. match goal with Hv : read_order_message _ = Some _ |- _ =>
    apply read_message_fits in Hv end. split; [done|]. split; [|by match goal with u : unit |- _ => destruct u end].
  unfold canonical_attempt, i32_attempt in *. res_inv. match goal with o : option Z |- _ => destruct o end; res_inv; done.
Qed.

(** The message with a larger attempt passes wherever it is delivered. *)
Lemma accepted_again d d' m attempt n :
  accepted_message d = Ok (m, attempt) -> attempt < n <= MAX_ATTEMPTS ->
  dl_data d' = Ok (order_message_json (with_attempt n m)) ->
  dl_headers d' !! "x-order-attempt" = Some (LongUInt n) ->
  dl_message_id d' = Some (om_event_id m) ->
  accepted_message d' = Ok (with_attempt n m, n).
Proof.
  intros ([Hl Ha] & Hm & Hv)%accepted_fits Hn Hd Hh Hid. unfold MAX_ATTEMPTS in Hn.
  unfold accepted_message. rewrite Hd. simpl. rewrite read_back_message by (split; unfold u32_max; simpl; lia). simpl.
  unfold canonical_attempt, header_attempt, MAX_ATTEMPTS, i32_attempt. rewrite Hh.
  rewrite (proj2 (Z.eqb_neq n 0)), (proj2 (Z.leb_le n 3)), (proj2 (Z.ltb_lt 0 n)) by lia. simpl.
  rewrite Z.eqb_refl. simpl.
  assert (Hf : fits_i32 n = true) by (unfold fits_i32, i32_min, i32_max; lia). rewrite Hf. simpl.
  unfold validate_message in *. rewrite Hid, String.eqb_refl. simpl. res_inv.
  repeat match goal with Hx : _ = true |- _ => rewrite Hx; clear Hx end. done.
Qed.

Lemma protocol_publishes d l p reply t :
  delivery_protocol d l -> In (Published p reply, t) l ->
  valid_headers p /\ exists why, publishes_for d p why.
Proof. destruct 1; intros Hin; simpl in Hin; naive_solver. Qed.

(** C15: a poisoned message is retried as a message the same consumer accepts.
    Whatever a delivery publishes back to the queue's own exchange was accepted
    with a smaller attempt; when the broker delivers it, its headers are valid,
    its body decodes to the same message with that larger attempt, and body,
    header and message id agree; so the attempts of an event only grow, to at
    most MAX_ATTEMPTS. *)
Theorem retry_is_deliverable d w r w' l p reply t d' :
  handle_delivery b d e w = (r, w') -> w_log w' = w_log w ++ l -> In (Published p reply, t) l ->
  pb_exchange p = SYNTHETIC_EXCHANGE ->
  dl_data d' = pb_payload p -> dl_headers d' = pb_headers p -> dl_message_id d' = Some (pb_message_id p) ->
  exists m attempt n, accepted_message d = Ok (m, attempt) /\ om_poison m = true
    /\ attempt < n <= MAX_ATTEMPTS
    /\ validate_propagation_headers (dl_headers d') = Ok tt
    /\ accepted_message d' = Ok (with_attempt n m, n).
Proof.
  intros Hrun Hlog Hin Hx Hdata Hhead Hid. apply handle_delivery_does in Hrun as (_ & l' & Hl' & Hp).
  rewrite Hlog in Hl'. apply app_inv_head in Hl' as <-.
  destruct (protocol_publishes _ _ _ _ _ Hp Hin) as [Hv [why Hwhy]]. rewrite Hhead.
  destruct why; [|by destruct Hwhy as (m & attempt & _ & Hex & _); rewrite Hx in Hex
                 |by destruct Hwhy as (_ & Hex & _); rewrite Hx in Hex].
  destruct Hwhy as (m & attempt & n & Hacc & Hpois & Hn & _ & _ & Hpid & Hpay & Hatt).
  exists m, attempt, n. split_and!; [done|done|lia|unfold MAX_ATTEMPTS in *; lia|exact Hv|].
  eapply accepted_again; [exact Hacc|exact Hn|congruence..].
Qed.
End outcomes.

(** ** A run: a poisoned message is retried, and the retry accepted *)

#[local] Instance fixed_propagator : Propagator := {|
  amqp_extract _ := mkContext (Some "00-4bf92f3577b34da6a3ce929d0e0e4736-00f067aa0ba902b7-01") ∅;
  amqp_inject _ h :=
    <["traceparent" := LongString (Some "00-4bf92f3577b34da6a3ce929d0e0e4736-00f067aa0ba902b7-01")]>
    (<["baggage" := LongString (Some "tenant.id=acme")]> h);
  span_valid c := match cx_span c with Some _ => true | None => false end
|}.

Definition quiet_env : Env Inbox :=
  mkEnv (fun n => seconds (Z.of_nat n)) (fun _ => None) (fun _ t => t).
Definition willing_broker : Broker :=
  mkBroker (fun _ => routed) (fun _ => None) (fun _ => mkContext None ∅).
Definition empty_world : World Inbox action := mkWorld ∅ 0 [].

Definition poisoned : OrderMessage := mkOrderMessage "ev-1" "or-1" "acme" "cu-1" "order.requested" true 0 1.
Definition poisoned_delivery : Delivery :=
  mkDelivery 7 (Some "ev-1") (inject_context (mkContext None ∅) ∅) (Ok (order_message_json poisoned)).
Definition poisoned_run : result string unit * World Inbox action :=
  handle_delivery willing_broker poisoned_delivery quiet_env empty_world.

(** The first message of a log, and whether it has one. *)
Definition first_published (l : list (action * Inbox)) : Publication :=
  match l with (Published p _, _) :: _ => p | _ => mkPublication "" "" "" ∅ (Err "") end.
Definition starts_published (l : list (action * Inbox)) : bool :=
  match l with (Published _ _, _) :: _ => true | _ => false end.
Lemma first_published_in l :
  starts_published l = true -> exists reply t, In (Published (first_published l) reply, t) l.
Proof. destruct l as [|[[]] l]; simpl; try done. intros _. eauto. Qed.

Definition retried : Publication := first_published (w_log poisoned_run.2).
Definition retried_delivery : Delivery :=
  mkDelivery 8 (Some (pb_message_id retried)) (pb_headers retried) (pb_payload retried).

Lemma retry_is_deliverable_witness :
  exists m attempt n, accepted_message poisoned_delivery = Ok (m, attempt) /\ attempt < n
    /\ accepted_message retried_delivery = Ok (with_attempt n m, n).
Proof.
  assert (Hs : starts_published (w_log poisoned_run.2) = true) by (vm_compute; reflexivity).
  assert (Hx : pb_exchange retried = SYNTHETIC_EXCHANGE) by (vm_compute; reflexivity).
  destruct (first_published_in _ Hs) as (reply & t & Hin).
  destruct (retry_is_deliverable (HP := fixed_propagator) willing_broker quiet_env poisoned_delivery empty_world poisoned_run.1 poisoned_run.2
    (w_log poisoned_run.2) retried reply t retried_delivery (surjective_pairing poisoned_run) eq_refl
    Hin Hx eq_refl eq_refl eq_refl) as (m & attempt & n & Ha & _ & [Hn _] & _ & Hr).
  exact (ex_intro _ m (ex_intro _ attempt (ex_intro _ n (conj Ha (conj Hn Hr))))).
Defined.

(** The run reserves the event for the retry, then acknowledges. *)
Example poisoned_run_ok :
  poisoned_run.1 = Ok tt
  /\ map fst (w_log poisoned_run.2) = [Published retried routed; Acked 7]
  /\ (ib_status <$> w_store poisoned_run.2 !! ("acme", "ev-1")) = Some RetryScheduled.
Proof. split_and!; vm_compute; reflexivity. Qed.
