(* ===== verification/OrdersApi.v ===== *)
(** The publish endpoint of the orders service (services/orders/src/api.rs), and
    what its consumer makes of what it publishes. *)

From stdpp Require Import relations.
From S2P Require Import Prelude Values Propagation Runtime OrdersEnvelope OrdersDelivery OrdersOutcomes.
Import Text Propagation Rabbit Effects OrdersMessage OrdersInbox OrdersConsumer OrdersOutcomes.

(** ** The request *)

Record PublishQuery : Type := mkPublishQuery {
  pq_poison : bool; pq_orphan : bool; pq_lag_ms : Z; pq_tenant_id : option string;
  pq_customer_id : string }.

Definition default_customer : string := "customer-acme-ava".

Definition de_flag (value : string) : bool := one_of value ["1"; "true"; "yes"; "on"].

Definition occurrences (name : string) (pairs : list (string * string)) : nat :=
  length (List.filter (fun kv => String.eqb kv.1 name) pairs).

(** The decoded pairs of the query string; a field named twice is refused. *)
Definition read_publish_query (pairs : list (string * string)) : option PublishQuery :=
  if forallb (fun name => (occurrences name pairs <=? 1)%nat)
       ["poison"; "orphan"; "lag_ms"; "tenant_id"; "customer_id"] then
    let flag name := match assoc name pairs with Some value => de_flag value | None => false end in
    lag ← match assoc "lag_ms" pairs with Some value => parse_u64 value | None => Some 0 end;
    Some (mkPublishQuery (flag "poison") (flag "orphan") lag (assoc "tenant_id" pairs)
            (default default_customer (assoc "customer_id" pairs)))
  else None.

(** ** Publishing *)

Definition tenant_identity_error (e : TenantIdentityError) : Z * json :=
  let '(status, code, message) :=
    match e with
    | TenantMissing => (400, "tenant_required", "tenant identity is required")
    | TenantInvalid => (400, "invalid_tenant", "tenant identity is invalid")
    | TenantConflicting => (409, "identity_conflict", "tenant identity sources conflict")
    end in
  (status, JObj [("error", JStr code); ("message", JStr message)]).

Definition internal_error : Z * json := (503, JObj [("error", JStr "messaging_unavailable")]).

Definition MAX_LAG_MS : Z := 30000.

(** [flag]: the poisonMessage feature flag *)
Definition published_message (q : PublishQuery) (tenant message_id : string) (flag : bool) : OrderMessage :=
  mkOrderMessage message_id message_id tenant (pq_customer_id q) "order.requested"
    (pq_poison q || flag) (Z.min (pq_lag_ms q) MAX_LAG_MS) 1.

Section publish.
Context `{HP : Propagator} (b : Broker).

(** [span]: the context of the producer's span, [parent] the request's *)
Definition publish_context (q : PublishQuery) (span parent : Context) (tenant : string) : Context :=
  if pq_orphan q then with_business_context span tenant "standard" "standard" "us-east-1" "normal"
  else with_business_context_from_parent span parent tenant "standard" "standard" "us-east-1" "normal".

Definition publish_headers (q : PublishQuery) (c : Context) : FieldTable :=
  let carrier := <["x-order-attempt" := LongUInt 1]> (inject_context c ∅) in
  if pq_orphan q then <["messaging.orphan" := LongString (Some "true")]> carrier else carrier.

Local Open Scope proc_scope.
Definition publish (h : headers) (parent : Context) (q : PublishQuery) (message_id : string) (flag : bool) :
    Consumer (Z * json) json :=
  tenant <- pr_lift (res_map_err tenant_identity_error
              (resolve_http_tenant_identity h (pq_tenant_id q))) ;;
  i <- pr_at ;;
  let c := publish_context q (bk_current b i) parent tenant in
  let m := published_message q tenant message_id flag in
  pr_map_err (fun _ => internal_error)
    (publish_confirm_with_outcome b
       (mkPublication SYNTHETIC_EXCHANGE ROUTING_KEY (om_order_id m) (publish_headers q c)
          (Ok (order_message_json m)))) ;;
  pr_ret (JObj [("order_id", JStr (om_order_id m)); ("status", JStr "published");
                ("messaging_system", JStr "rabbitmq")]).
Local Close Scope proc_scope.

(** [GET /healthz]: every part up, or what is not. *)
Definition health (rabbitmq consumer durable_inbox : bool) : Z * json :=
  if rabbitmq && consumer && durable_inbox then
    (200, JObj [("status", JStr "UP"); ("messaging", JStr "rabbitmq"); ("consumer", JStr "ready");
                ("durable_inbox", JStr "ready")])
  else
    (503, JObj [("status", JStr "DOWN");
                ("messaging", JStr (if rabbitmq then "rabbitmq" else "unavailable"));
                ("consumer", JStr (if consumer then "ready" else "stopped"));
                ("durable_inbox", JStr (if durable_inbox then "ready" else "unavailable"))]).

(** ** What is published *)

Definition our_publication (h : headers) (q : PublishQuery) (message_id : string) (flag : bool)
    (p : Publication) : Prop :=
  exists tenant c, resolve_http_tenant_identity h (pq_tenant_id q) = Ok tenant
    /\ p = mkPublication SYNTHETIC_EXCHANGE ROUTING_KEY message_id (publish_headers q c)
             (Ok (order_message_json (published_message q tenant message_id flag))).

Lemma publish_sends e h parent q message_id flag w r w' :
  publish h parent q message_id flag e w = (r, w') ->
  exists l, w_log w' = w_log w ++ l
  /\ (l = [] /\ (forall a, r <> Ok a)
      \/ exists p reply t, l = [(Published p reply, t)] /\ valid_headers p
          /\ our_publication h q message_id flag p /\ (forall a, r = Ok a -> reply = routed)).
Proof.
  unfold publish. destruct (resolve_http_tenant_identity h (pq_tenant_id q)) as [tenant|err] eqn:Et.
  2: { intros [= <- <-]. exists []. rewrite app_nil_r. by split; [|left]. }
  unfold pr_bind at 1 2, pr_lift, pr_at. simpl. cbv zeta. set (c := publish_context _ _ _ _).
  set (p := mkPublication _ _ _ _ _). unfold pr_bind, pr_map_err. intros H.
  destruct (publish_confirm_with_outcome b p e w) as [r1 w1] eqn:Ep.
  apply publish_does in Ep as (_ & l & L & Hs). exists l.
  assert (Ho : our_publication h q message_id flag p) by by exists tenant, c.
  destruct Hs as [(m & -> & ->)|(p' & reply & t & Hv & <- & -> & ->)].
  - injection H as <- <-. split; [exact L|]. by left.
  - destruct (publish_outcome reply) as [[]|pe] eqn:Er; injection H as <- <-; (split; [exact L|]); right;
      exists p, reply, t; split_and!; try done.
    intros _ _. by destruct reply as [| | | |[[]| |]].
Qed.
End publish.

(** ** What the consumer makes of it *)

(** A resolved tenant is a trimmed value. *)
Lemma normalized_trimmed v t : normalize_tenant_candidate v = Ok t -> is_blank t = false.
Proof. intros (-> & He & _)%normalize_ok. by apply trimmed_not_blank. Qed.

Lemma candidates_trimmed ms cs :
  baggage_candidates ms = Ok cs -> Forall (fun t => is_blank t = false) cs.
Proof.
  revert cs. induction ms as [|m ms IH]; intros cs; simpl; [by intros [= <-]|].
  destruct (split_once "=" m) as [[key raw]|]; [|apply IH].
  destruct (negb _); [apply IH|]. intros H. res_inv. constructor; [by eapply normalized_trimmed|by apply IH].
Qed.

Lemma resolved_tenant_not_blank h request t :
  resolve_http_tenant_identity h request = Ok t -> is_blank t = false.
Proof.
  unfold resolve_http_tenant_identity. intros H. apply res_bind_ok in H as (es & _ & H).
  apply res_bind_ok in H as (bs & _ & H).
  apply resolve_candidates_ok in H as (tagged & Htag & Hall & Hexp & Hreq & Hsome).
  destruct Hsome as [Hs|[Hs|Hs]].
  - destruct request as [v|]; [|done]. by eapply normalized_trimmed, Hreq.
  - destruct es as [|v es]; [done|]. inversion Hexp; subst. by eapply normalized_trimmed.
  - assert (Hb : Forall (fun t => is_blank t = false) (concat tagged)).
    { clear -Htag. induction Htag as [|v c vs cs Hc _ IH]; simpl; [constructor|].
      apply Forall_app. split; [by eapply candidates_trimmed|exact IH]. }
    destruct (concat tagged) as [|c cs]; [done|]. inversion Hall; subst. by inversion Hb.
Qed.

Lemma parse_digits_range s acc n :
  0 <= acc < u64_modulus -> parse_digits s acc = Some n -> 0 <= n < u64_modulus.
Proof.
  revert acc. induction s as [|a s IH]; intros acc Ha; simpl; [by intros [= <-]|].
  destruct (is_digit a) eqn:Ed; [|done]. destruct (Z.ltb_spec (acc * 10 + (Z.of_N (byte_of a) - 48)) u64_modulus); [|done].
  apply IH. unfold is_digit in Ed. apply andb_true_iff in Ed as [?%N.leb_le ?%N.leb_le]. lia.
Qed.

Lemma parse_u64_range s n : parse_u64 s = Some n -> 0 <= n < u64_modulus.
Proof.
  unfold parse_u64. destruct s as [|a r]; [done|]. assert (H0 : 0 <= 0 < u64_modulus) by done.
  destruct (_ =? 43)%N; [destruct (is_empty r); [done|]|]; by apply parse_digits_range.
Qed.

Lemma query_lag pairs q : read_publish_query pairs = Some q -> 0 <= pq_lag_ms q < u64_modulus.
Proof.
  unfold read_publish_query. destruct (forallb _ _); [|done]. intros H.
  apply bind_Some in H as (lag & Hl & [= <-]). simpl. destruct (assoc "lag_ms" pairs); [by apply parse_u64_range in Hl|].
  by injection Hl as <-.
Qed.

(** The delivery of a publication. *)
Definition delivers (d : Delivery) (p : Publication) : Prop :=
  dl_data d = pb_payload p /\ dl_headers d = pb_headers p /\ dl_message_id d = Some (pb_message_id p).

Lemma publication_accepted `{HP : Propagator} h q message_id flag p d pairs :
  our_publication h q message_id flag p -> delivers d p -> is_blank message_id = false ->
  read_publish_query pairs = Some q ->
  exists tenant, resolve_http_tenant_identity h (pq_tenant_id q) = Ok tenant
  /\ accepted_message d =
     if is_blank (pq_customer_id q) then Err "order customer_id is empty"
     else Ok (published_message q tenant message_id flag, 1).
Proof.
  intros (tenant & c & Ht & ->) (Hdata & Hhead & Hid) Hb Hq. exists tenant. split; [done|].
  assert (Hlag := query_lag _ _ Hq). unfold accepted_message. rewrite Hdata. simpl.
  rewrite read_back_message by (split; simpl; unfold u32_max, u64_modulus, MAX_LAG_MS in *; lia). simpl.
  assert (Ha : header_attempt (dl_headers d) = Ok (Some 1)).
  { rewrite Hhead. unfold header_attempt, publish_headers. simpl.
    assert (Hl : <["x-order-attempt" := LongUInt 1]> (inject_context c ∅) !! "x-order-attempt" = Some (LongUInt 1))
      by apply lookup_insert_eq.
    destruct (pq_orphan q); [rewrite lookup_insert_ne by done|]; by rewrite Hl. }
  unfold canonical_attempt. simpl. rewrite Ha. simpl. unfold validate_message. simpl.
  rewrite Hb, (resolved_tenant_not_blank _ _ _ Ht), Hid. simpl.
  destruct (is_blank (pq_customer_id q)); simpl; [done|]. by rewrite String.eqb_refl.
Qed.

(** C16: what publish confirms the consumer understands.  When the endpoint
    answers that an order is published, exactly one message went to the
    exchange, routed, and every delivery of it has valid propagation headers and
    decodes to the published order with attempt one; except that an empty
    customer is accepted by the endpoint and refused by the consumer. *)
Theorem published_order_accepted `{HP : Propagator} b e h parent q message_id flag pairs w a w' :
  publish b h parent q message_id flag e w = (Ok a, w') ->
  read_publish_query pairs = Some q -> is_blank message_id = false ->
  exists p t, w_log w' = w_log w ++ [(Published p routed, t)]
  /\ forall d, delivers d p ->
     validate_propagation_headers (dl_headers d) = Ok tt
     /\ exists tenant, resolve_http_tenant_identity h (pq_tenant_id q) = Ok tenant
        /\ accepted_message d =
           if is_blank (pq_customer_id q) then Err "order customer_id is empty"
           else Ok (published_message q tenant message_id flag, 1).
Proof.
  intros Hp Hq Hb. apply publish_sends in Hp as (l & L & [[_ Hn]|(p & reply & t & -> & Hv & Ho & Hr)]);
    [by destruct (Hn a)|]. rewrite (Hr a eq_refl) in L. exists p, t. split; [exact L|].
  intros d Hd. split; [|by eapply publication_accepted]. destruct Hd as (_ & -> & _). exact Hv.
Qed.

(** ** A published order *)

Definition publish_pairs : list (string * string) := [("tenant_id", "acme"); ("lag_ms", "99999"); ("poison", "no")].
Definition sample_query : PublishQuery := mkPublishQuery false false 99999 (Some "acme") default_customer.
Definition publish_run : result (Z * json) json * World Inbox action :=
  publish (HP := fixed_propagator) willing_broker [] (mkContext None ∅) sample_query "order-1" false quiet_env empty_world.
Definition published_answer : json :=
  JObj [("order_id", JStr "order-1"); ("status", JStr "published"); ("messaging_system", JStr "rabbitmq")].

Lemma published_order_accepted_witness :
  exists p t, w_log publish_run.2 = w_log empty_world ++ [(Published p routed, t)]
  /\ forall d, delivers d p -> validate_propagation_headers (dl_headers d) = Ok tt.
Proof.
  assert (Hr : publish_run.1 = Ok published_answer) by (vm_compute; reflexivity).
  destruct (published_order_accepted (HP := fixed_propagator) willing_broker quiet_env [] (mkContext None ∅)
    sample_query "order-1" false publish_pairs empty_world published_answer publish_run.2) as (p & t & Hl & Hd).
  - rewrite <- Hr. exact (surjective_pairing publish_run).
  - vm_compute. reflexivity.
  - vm_compute. reflexivity.
  - exists p, t. split; [exact Hl|]. intros d Hdp. exact (proj1 (Hd d Hdp)).
Defined.
