(* ===== verification/NotifyService.v ===== *)
(** The notification service: the store of notifications and the worker that delivers them. *)

From S2P Require Import Prelude Values Propagation Database Runtime.

(** The durable store of the notifications service
    (services/notifications/src/store.rs, domain.rs, and migrations 001 and
    013): the queue of deliveries, their attempts, the channel messages, and
    every statement the service runs on them. *)
Module NotifyStore.

Import Serde Propagation Schema Transactions Effects.

Local Open Scope result_scope.

Definition MAX_ATTEMPTS : Z := 4.
Definition MAX_ERROR_LENGTH : nat := 512.
Definition NOTIFY_LEASE : Z := seconds 30.

(** ** Tables *)

Inductive delivery_status : Type :=
| NAccepted | NQueued | NProcessing | NDelivered | NFailed | NDeadLettered.
#[export] Instance delivery_status_eq_dec : EqDecision delivery_status.
Proof. solve_decision. Defined.

Definition status_text (s : delivery_status) : string :=
  match s with
  | NAccepted => "accepted" | NQueued => "queued" | NProcessing => "processing"
  | NDelivered => "delivered" | NFailed => "failed" | NDeadLettered => "dead_lettered"
  end.

Inductive attempt_outcome : Type := NtProcessing | NtDelivered | NtRetry | NtDeadLettered.

Record Carrier : Type := mkCarrier {
  ca_traceparent : option string; ca_tracestate : option string; ca_baggage : option string }.

Record DeliveryRow : Type := mkDeliveryRow {
  dr_event_key : string; dr_order_id : string; dr_channel : string; dr_payload : json;
  dr_carrier : Carrier; dr_created_at : Z;
  dr_status : delivery_status; dr_attempts : Z; dr_next_attempt_at : Z;
  dr_lease_until : option Z; dr_lease_token : option string; dr_last_error : option string;
  dr_delivered_at : option Z; dr_acknowledged_at : option Z; dr_dead_lettered_at : option Z;
  dr_updated_at : Z
}.

(** [UPDATE ... SET] of the columns that change. *)
Definition set_delivery (r : DeliveryRow) (status : delivery_status) (attempts next : Z)
    (lease : option Z) (token error : option string) (delivered acknowledged dead : option Z)
    (now : Z) : DeliveryRow :=
  mkDeliveryRow (dr_event_key r) (dr_order_id r) (dr_channel r) (dr_payload r) (dr_carrier r)
    (dr_created_at r) status attempts next lease token error delivered acknowledged dead now.

Record AttemptRow : Type := mkAttemptRow {
  ar_outcome : attempt_outcome; ar_error : option string; ar_started_at : Z;
  ar_completed_at : option Z }.

Record MessageRow : Type := mkMessageRow {
  mr_order_id : string; mr_channel : string; mr_payload : json; mr_acknowledged_at : Z;
  mr_reference : string }.

(** Deliveries and messages by tenant and delivery, attempts by delivery and
    number; the orders are those of the commerce tables. *)
Record NotifyDb : Type := mkNotifyDb {
  nd_deliveries : gmap key DeliveryRow;
  nd_attempts : gmap (key * Z) AttemptRow;
  nd_messages : gmap key MessageRow;
  nd_orders : gset key
}.

Definition set_deliveries t db := mkNotifyDb t (nd_attempts db) (nd_messages db) (nd_orders db).
Definition set_notify_attempts t db := mkNotifyDb (nd_deliveries db) t (nd_messages db) (nd_orders db).
Definition set_messages t db := mkNotifyDb (nd_deliveries db) (nd_attempts db) t (nd_orders db).

(** ** Requests *)

Record NotificationRequest : Type := mkNotificationRequest {
  nr_tenant_id : option string; nr_event_key : string; nr_order_id : string;
  nr_channel : string; nr_payload : json }.

Definition default_channel : string := "webhook".

Definition read_notification_request (v : json) : option NotificationRequest :=
  fields ← struct_with_defaults
    [("tenant_id", Some JNull); ("event_key", Some (JStr "")); ("order_id", None);
     ("channel", Some (JStr default_channel)); ("payload", Some JNull)] v;
  match fields with
  | [JNull; JStr event; JStr order; JStr channel; payload] =>
      Some (mkNotificationRequest None event order channel payload)
  | [JStr tenant; JStr event; JStr order; JStr channel; payload] =>
      Some (mkNotificationRequest (Some tenant) event order channel payload)
  | _ => None
  end.

(** ** Recording a delivery *)

Definition header_value (h : headers) (name : string) : option string :=
  match header_get name h with Some v => v | None => None end.

Definition header_values (h : headers) (name : string) : option string :=
  match omap (fun v => v) (get_all name h) with
  | [] => None
  | values => Some (join_on "," values)
  end.

Definition carrier_of (h : headers) : Carrier :=
  mkCarrier (header_value h "traceparent") (header_value h "tracestate") (header_values h "baggage").

Definition is_object (v : json) : bool := match v with JObj _ => true | _ => false end.

(** What RETURNING gives back. *)
Record Recorded : Type := mkRecorded {
  rd_id : string; rd_attempts : Z; rd_status : delivery_status; rd_order_id : string;
  rd_channel : string }.
Definition recorded_row (id : string) (r : DeliveryRow) : Recorded :=
  mkRecorded id (dr_attempts r) (dr_status r) (dr_order_id r) (dr_channel r).

(** The row of an event key: it is unique in its tenant. *)
Definition find_event (tenant event : string) (db : NotifyDb) : option (key * DeliveryRow) :=
  head (List.filter (fun kr => String.eqb kr.1.1 tenant && String.eqb (dr_event_key kr.2) event)
          (map_to_list (nd_deliveries db))).

(** [INSERT ... ON CONFLICT (tenant_id, event_key) DO UPDATE], with the CHECKs
    and the foreign key of an inserted row. *)
Definition insert_delivery (id tenant event : string) (request : NotificationRequest) (payload : json)
    (carrier : Carrier) (now : Z) (db : NotifyDb) : result string (Recorded * NotifyDb) :=
  match find_event tenant event db with
  | Some (k, r) =>
      let r' := set_delivery r (dr_status r) (dr_attempts r) (dr_next_attempt_at r) (dr_lease_until r)
        (dr_lease_token r) (dr_last_error r) (dr_delivered_at r) (dr_acknowledged_at r)
        (dr_dead_lettered_at r) now in
      Ok (recorded_row k.2 r', set_deliveries (<[k := r']> (nd_deliveries db)) db)
  | None =>
      ensure (negb (bool_decide (is_Some (nd_deliveries db !! (tenant, id)))))
        "duplicate key value violates unique constraint" ;;
      ensure (one_of (nr_channel request) ["email"; "webhook"; "in_app"])
        "new row violates check constraint" ;;
      ensure (is_object payload) "new row violates check constraint" ;;
      ensure (bool_decide ((tenant, nr_order_id request) ∈ nd_orders db))
        "insert violates foreign key constraint" ;;
      let r := mkDeliveryRow event (nr_order_id request) (nr_channel request) payload carrier now
        NQueued 0 now None None None None None None now in
      Ok (recorded_row id r, set_deliveries (<[(tenant, id) := r]> (nd_deliveries db)) db)
  end.

(** ** Claims *)

Record DeliveryJob : Type := mkDeliveryJob {
  dj_id : string; dj_tenant_id : string; dj_event_key : string; dj_order_id : string;
  dj_channel : string; dj_payload : json; dj_attempt : Z; dj_lease_token : string;
  dj_carrier : Carrier }.
Definition job_key (j : DeliveryJob) : key := (dj_tenant_id j, dj_id j).

Definition waiting (r : DeliveryRow) : bool :=
  bool_decide (dr_status r = NAccepted) || bool_decide (dr_status r = NQueued).
Definition lease_over (now : Z) (r : DeliveryRow) : bool :=
  bool_decide (dr_status r = NProcessing)
  && match dr_lease_until r with Some t => t <=? now | None => false end.

Definition claimable (now : Z) (r : DeliveryRow) : bool :=
  (dr_attempts r <? MAX_ATTEMPTS)
  && ((waiting r && (dr_next_attempt_at r <=? now)) || lease_over now r).

(** [ORDER BY next_attempt_at, created_at, id], ids in the database's collation *)
Definition due_before (id_before : string -> string -> bool) (a b : key * DeliveryRow) : bool :=
  let na := dr_next_attempt_at a.2 in let nb := dr_next_attempt_at b.2 in
  let ca := dr_created_at a.2 in let cb := dr_created_at b.2 in
  (na <? nb) || ((na =? nb) && ((ca <? cb) || ((ca =? cb) && id_before a.1.2 b.1.2))).

Definition claimed_delivery (token : string) (now : Z) (r : DeliveryRow) : DeliveryRow :=
  set_delivery r NProcessing (dr_attempts r + 1) (dr_next_attempt_at r) (Some (now + NOTIFY_LEASE))
    (Some token) (dr_last_error r) (dr_delivered_at r) (dr_acknowledged_at r) (dr_dead_lettered_at r) now.

Definition job_of (k : key) (token : string) (r : DeliveryRow) : DeliveryJob :=
  mkDeliveryJob k.2 k.1 (dr_event_key r) (dr_order_id r) (dr_channel r) (dr_payload r) (dr_attempts r)
    token (dr_carrier r).

(** [INSERT INTO notification_delivery_attempts ... ON CONFLICT (delivery_id,
    attempt) DO UPDATE]: the row for a claim *)
Definition start_attempt (k : key) (attempt now : Z) (db : NotifyDb) : NotifyDb :=
  set_notify_attempts (<[(k, attempt) := mkAttemptRow NtProcessing None now None]> (nd_attempts db)) db.

Definition claim_next (id_before : string -> string -> bool) (locked : key -> bool) (token : string)
    (now : Z) (db : NotifyDb) : result string (option DeliveryJob * NotifyDb) :=
  match first_by (fun k r => claimable now r && negb (locked k)) (due_before id_before)
          (nd_deliveries db) with
  | None => Ok (None, db)
  | Some (k, r) =>
      let r' := claimed_delivery token now r in
      Ok (Some (job_of k token r'),
          start_attempt k (dr_attempts r') now (set_deliveries (<[k := r']> (nd_deliveries db)) db))
  end.

(** ** The exhausted deliveries *)

Definition exhausted (now : Z) (r : DeliveryRow) : bool :=
  (MAX_ATTEMPTS <=? dr_attempts r) && (waiting r || lease_over now r).

Definition retire_delivery (now : Z) (r : DeliveryRow) : DeliveryRow :=
  set_delivery r NDeadLettered (dr_attempts r) (dr_next_attempt_at r) None None
    (Some (default "delivery retry budget exhausted" (dr_last_error r))) (dr_delivered_at r)
    (dr_acknowledged_at r) (Some (default now (dr_dead_lettered_at r))) now.

(** The first statement, with the deliveries and attempts it returns. *)
Definition retire_exhausted (now : Z) (db : NotifyDb) : result string (list (key * Z) * NotifyDb) :=
  let t := nd_deliveries db in
  Ok (map (fun kr => (kr.1, dr_attempts kr.2))
        (List.filter (fun kr => exhausted now kr.2) (map_to_list t)),
      set_deliveries (update_rows (fun _ => exhausted now) (retire_delivery now) t).2 db).

(** Then one for each: the attempt keeps when it started. *)
Definition record_exhausted (k : key) (attempt : Z) (now : Z) (db : NotifyDb) :
    result string (unit * NotifyDb) :=
  let started := match nd_attempts db !! (k, attempt) with Some a => ar_started_at a | None => now end in
  Ok (tt, set_notify_attempts
    (<[(k, attempt) := mkAttemptRow NtDeadLettered (Some "delivery retry budget exhausted") started (Some now)]>
       (nd_attempts db)) db).

(** ** The outcomes of a job *)

Definition holds_lease (j : DeliveryJob) (r : DeliveryRow) : bool :=
  bool_decide (dr_status r = NProcessing) && bool_decide (dr_lease_token r = Some (dj_lease_token j)).

(** The update of the delivery the job holds, which must change it, and of its
    attempt. *)
Definition settle_job (j : DeliveryJob) (lost : string) (set_ : DeliveryRow -> DeliveryRow)
    (outcome : attempt_outcome) (error : option string) (now : Z) (db : NotifyDb) :
    result string (unit * NotifyDb) :=
  let '(updated, t) := update_row (job_key j) (holds_lease j) set_ (nd_deliveries db) in
  ensure (updated =? 1)%nat lost ;;
  let attempts := update_row (job_key j, dj_attempt j) (fun _ => true)
    (fun a => mkAttemptRow outcome error (ar_started_at a) (Some now)) (nd_attempts db) in
  Ok (tt, set_notify_attempts attempts.2 (set_deliveries t db)).

Definition mark_delivered (j : DeliveryJob) (now : Z) (db : NotifyDb) : result string (unit * NotifyDb) :=
  settle_job j "notification delivery lease was lost before acknowledgement"
    (fun r => set_delivery r NDelivered (dr_attempts r) (dr_next_attempt_at r) None None None (Some now)
                (Some now) (dr_dead_lettered_at r) now)
    NtDelivered None now db.

Definition dead_letter_row (error : string) (now : Z) (r : DeliveryRow) : DeliveryRow :=
  set_delivery r NDeadLettered (dr_attempts r) (dr_next_attempt_at r) None None (Some error)
    (dr_delivered_at r) (dr_acknowledged_at r) (Some now) now.

Definition requeue_row (error : string) (next now : Z) (r : DeliveryRow) : DeliveryRow :=
  set_delivery r NQueued (dr_attempts r) next None None (Some error) (dr_delivered_at r)
    (dr_acknowledged_at r) (dr_dead_lettered_at r) now.

Definition backoff (attempt : Z) : Z :=
  Z.min (i32_saturating_pow 2 (clamp (i32_saturate (attempt - 1)) 0 4)) 30.

Definition truncate_error (error : string) : string := take_chars MAX_ERROR_LENGTH error.

(** [CURRENT_TIMESTAMP + $4 * INTERVAL '1 second'] with an i32 for [$4]: the
    interval the driver and the server make of it, in microseconds, or the
    error of a parameter whose type does not fit. *)
Definition mark_failed_or_dead_letter (bind_seconds : Z -> result string Z) (j : DeliveryJob)
    (error : string) (now : Z) (db : NotifyDb) : result string (unit * NotifyDb) :=
  let terminal := MAX_ATTEMPTS <=? dj_attempt j in
  let stored_error := truncate_error error in
  let lost := "notification delivery lease was lost before retry state update" in
  if terminal then
    settle_job j lost (dead_letter_row stored_error now) NtDeadLettered (Some stored_error) now db
  else
    delay <- bind_seconds (backoff (dj_attempt j)) ;;
    settle_job j lost (requeue_row stored_error (now + delay) now) NtRetry (Some stored_error) now db.

Definition dead_letter_invalid_propagation (j : DeliveryJob) (error : string) (now : Z) (db : NotifyDb) :
    result string (unit * NotifyDb) :=
  let stored_error := truncate_error ("invalid W3C propagation: " +:+ error) in
  settle_job j "notification delivery lease was lost before propagation quarantine"
    (dead_letter_row stored_error now) NtDeadLettered (Some stored_error) now db.

(** ** Channel messages *)

(** [ON CONFLICT (delivery_id) DO UPDATE SET acknowledged_at] to what it is. *)
Definition persist_channel_message (j : DeliveryJob) (acknowledgement : string) (now : Z) (db : NotifyDb) :
    result string (unit * NotifyDb) :=
  match nd_messages db !! job_key j with
  | Some _ => Ok (tt, db)
  | None =>
      ensure (bool_decide ((dj_tenant_id j, dj_order_id j) ∈ nd_orders db))
        "insert violates foreign key constraint" ;;
      Ok (tt, set_messages (<[job_key j := mkMessageRow (dj_order_id j) (dj_channel j) (dj_payload j) now
                                             acknowledgement]> (nd_messages db)) db)
  end.

Local Close Scope result_scope.

End NotifyStore.

(** The notifications service at work (services/notifications/src/store.rs and
    api.rs): the notify endpoint, and one round of the delivery worker with the
    dispatch of a job to its channel. *)
Module NotifyWorker.

Import Text Propagation Schema Transactions Effects NotifyStore.

(** ** Channels *)

Record AppState : Type := mkAppState { webhook_url : option string; email_url : option string }.

Record ChannelEndpoint : Type := mkChannelEndpoint { ce_url : string; ce_provider : string }.

Definition configured (provider : string) (url : option string) : option ChannelEndpoint :=
  value ← url;
  if is_blank value then None else Some (mkChannelEndpoint (trim value) provider).

(** An [url] of the payload that is not a string hides its [endpoint]. *)
Definition resolve_channel_endpoint (channel : string) (payload : json) (s : AppState) :
    option ChannelEndpoint :=
  let request_url :=
    value ← match jget "url" payload with Some v => Some v | None => jget "endpoint" payload end;
    text ← as_str value;
    let url := trim text in
    if is_empty url then None else Some url in
  match request_url with
  | Some url => Some (mkChannelEndpoint url "request_endpoint")
  | None =>
      if String.eqb channel "webhook" then configured "NOTIFICATIONS_WEBHOOK_URL" (webhook_url s)
      else if String.eqb channel "email" then configured "NOTIFICATIONS_EMAIL_URL" (email_url s)
      else None
  end.

Definition require_channel_endpoint (channel : string) (payload : json) (s : AppState) :
    result string ChannelEndpoint :=
  ok_or (resolve_channel_endpoint channel payload s)
    ("notification channel " +:+ channel +:+ " has no configured real provider").

Definition channel_provider (channel : string) (payload : json) (s : AppState) : string :=
  if String.eqb channel "in_app" then "in_app_durable_sink"
  else match resolve_channel_endpoint channel payload s with
       | Some endpoint => ce_provider endpoint
       | None => "unconfigured"
       end.

(** ** The stored propagation of a job *)

Local Open Scope result_scope.

Definition insert_header (h : headers) (name : string) (value : option string) : result string headers :=
  value <- ok_or value ("durable W3C " +:+ name +:+ " header is missing") ;;
  ensure (header_text value) ("durable W3C " +:+ name +:+ " header is invalid") ;;
  Ok (header_insert name value h).

Definition job_context_headers (c : Carrier) : result string headers :=
  h <- insert_header [] "traceparent" (ca_traceparent c) ;;
  h <- insert_header h "tracestate" (ca_tracestate c) ;;
  h <- insert_header h "baggage" (ca_baggage c) ;;
  validate_durable_context h ;;
  Ok h.

Local Close Scope result_scope.

(** ** What the service talks to *)

(** A provider's answer: an error of the client, or a status with the text of
    its [x-ack-id] header. *)
Inductive http_reply : Type :=
| HttpFailed (m : string)
| HttpStatus (status : Z) (ack_id : option string).

Record Dispatch : Type := mkDispatch {
  dp_url : string; dp_tenant : string; dp_idempotency_key : string; dp_body : json;
  dp_reply : http_reply }.

Inductive acquire_reply : Type := Acquired | AcquireFailed (m : string) | AcquireTimedOut.

(** The pool, the UUIDs, the rows others have locked, the providers, how a
    status is written, the collation of ids, and what becomes of an i32 bound
    as a number of seconds. *)
Record Outside : Type := mkOutside {
  os_acquire : nat -> acquire_reply;
  os_uuid : nat -> string;
  os_locked : nat -> key -> bool;
  os_http : nat -> http_reply;
  os_status_text : Z -> string;
  os_id_before : string -> string -> bool;
  os_bind_seconds : Z -> result string Z
}.

Definition Notifier (X A : Type) : Type := Proc NotifyDb Dispatch X A.
Local Open Scope proc_scope.

Section service.
Context (o : Outside) (s : AppState).

(** ** The endpoint *)

Inductive StoreError : Type :=
| StoreTimeout | StoreInvalid (m : string) | StoreConflict | StoreDatabase (m : string).

Record DeliveryRecord : Type := mkDeliveryRecord {
  de_id : string; de_attempts : Z; de_status : delivery_status; de_channel : string;
  de_provider : string }.

Definition acquired (r : acquire_reply) : result StoreError unit :=
  match r with
  | Acquired => Ok tt
  | AcquireFailed m => Err (StoreDatabase m)
  | AcquireTimedOut => Err StoreTimeout
  end.

Definition record_delivery (request : NotificationRequest) (event_key : string) (payload : json)
    (h : headers) : Notifier StoreError DeliveryRecord :=
  pr_lift (res_map_err (fun m => StoreInvalid ("invalid W3C propagation: " +:+ m))
             (validate_durable_context h)) ;;
  tenant <- pr_lift (ok_or (nr_tenant_id request) (StoreInvalid "tenant identity is required")) ;;
  i <- pr_at ;;
  pr_lift (acquired (os_acquire o i)) ;;
  let id := "notification-" +:+ os_uuid o i in
  row <- pr_map_err StoreDatabase
    (pr_store (insert_delivery id tenant event_key request payload (carrier_of h))) ;;
  pr_lift (ensure (String.eqb (rd_order_id row) (nr_order_id request)
                   && String.eqb (rd_channel row) (nr_channel request)) StoreConflict) ;;
  pr_ret (mkDeliveryRecord (rd_id row) (rd_attempts row) (rd_status row) (rd_channel row)
            (channel_provider (nr_channel request) payload s)).

Definition tenant_identity_error (e : TenantIdentityError) : Z * json :=
  let '(status, code, message) :=
    match e with
    | TenantMissing => (400, "tenant_required",
        "tenant identity is required")
    | TenantInvalid => (400, "invalid_tenant", "tenant identity is invalid")
    | TenantConflicting => (409, "identity_conflict", "tenant identity sources conflict")
    end in
  (status, JObj [("error", JStr code); ("message", JStr message)]).

Definition error_reply (status : Z) (code : string) : Z * json := (status, JObj [("error", JStr code)]).

Definition store_error_reply (e : StoreError) : Z * json :=
  match e with
  | StoreTimeout => error_reply 503 "database_timeout"
  | StoreInvalid m => error_reply 400 m
  | StoreConflict => error_reply 409 "notification_identity_conflict"
  | StoreDatabase _ => error_reply 503 "notification_store_unavailable"
  end.

Definition event_key_of (request : NotificationRequest) : string :=
  if is_blank (nr_event_key request)
  then "notification:" +:+ nr_order_id request +:+ ":" +:+ nr_channel request
  else nr_event_key request.

Definition payload_of (request : NotificationRequest) : json :=
  if is_object (nr_payload request) then nr_payload request
  else JObj [("value", nr_payload request)].

Definition accepted_reply (event_key : string) (r : DeliveryRecord) : Z * json :=
  (202, JObj [("delivery_id", JStr (de_id r)); ("event_key", JStr event_key);
              ("status", JStr (status_text (de_status r))); ("attempts", JNum (de_attempts r));
              ("channel", JStr (de_channel r)); ("provider", JStr (de_provider r))]).

Definition with_tenant (tenant : string) (r : NotificationRequest) : NotificationRequest :=
  mkNotificationRequest (Some tenant) (nr_event_key r) (nr_order_id r) (nr_channel r) (nr_payload r).

(** Every branch answers: there is no error left. *)
Definition notify_inner (request : NotificationRequest) (h : headers) : Notifier Empty_set (Z * json) :=
  match resolve_http_tenant_identity h (nr_tenant_id request) with
  | Err e => pr_ret (tenant_identity_error e)
  | Ok tenant =>
      let request := with_tenant tenant request in
      if is_blank (nr_order_id request)
         || negb (one_of (nr_channel request) ["email"; "webhook"; "in_app"])
      then pr_ret (error_reply 400 "invalid_notification")
      else
        let event_key := event_key_of request in
        pr_match (record_delivery request event_key (payload_of request) h)
          (fun r => pr_ret (match r with
                            | Ok record => accepted_reply event_key record
                            | Err e => store_error_reply e
                            end))
  end.

(** ** Dispatch *)

Definition success_status (status : Z) : bool := (200 <=? status) && (status <=? 299).

Definition dispatch_body (j : DeliveryJob) : json :=
  JObj [("delivery_id", JStr (dj_id j)); ("event_key", JStr (dj_event_key j));
        ("tenant_id", JStr (dj_tenant_id j)); ("order_id", JStr (dj_order_id j));
        ("channel", JStr (dj_channel j)); ("payload", dj_payload j)].

(** The acknowledgement a reply carries. *)
Definition acknowledgement (r : http_reply) : result string string :=
  match r with
  | HttpFailed _ => Err "dispatch notification channel request"
  | HttpStatus status ack =>
      if success_status status then
        Ok (match ack with
            | Some id => if is_blank id then "http-" +:+ os_status_text o status else id
            | None => "http-" +:+ os_status_text o status
            end)
      else Err ("notification channel returned HTTP " +:+ os_status_text o status)
  end.

Definition dispatch_external (j : DeliveryJob) : Notifier string unit :=
  endpoint <- pr_lift (require_channel_endpoint (dj_channel j) (dj_payload j) s) ;;
  pr_lift (ensure (header_text (dj_tenant_id j)) "encode notification tenant header") ;;
  pr_lift (ensure (header_text (dj_id j)) "encode notification idempotency header") ;;
  ack <- pr_send (fun i => mkDispatch (ce_url endpoint) (dj_tenant_id j) (dj_id j) (dispatch_body j) (os_http o i))
           (fun i => acknowledgement (os_http o i)) ;;
  pr_map_err (fun _ => "persist external notification acknowledgement")
    (pr_store (persist_channel_message j ack)).

Definition dispatch_notification (j : DeliveryJob) : Notifier string unit :=
  if String.eqb (dj_channel j) "in_app" then
    pr_map_err (fun _ => "acknowledge in-app channel") (pr_store (persist_channel_message j "in-app"))
  else if one_of (dj_channel j) ["webhook"; "email"] then dispatch_external j
  else pr_fail ("unsupported notification channel " +:+ dj_channel j).

(** Failures to record an outcome are only logged. *)
Definition logged (m : Notifier string unit) : Notifier Empty_set unit :=
  pr_match m (fun _ => pr_ret tt).

Definition process_job (j : DeliveryJob) : Notifier Empty_set unit :=
  match job_context_headers (dj_carrier j) with
  | Err error => logged (pr_store (dead_letter_invalid_propagation j error))
  | Ok _ =>
      pr_match (dispatch_notification j)
        (fun r => match r with
                  | Ok _ => logged (pr_store (mark_delivered j))
                  | Err error => logged (pr_store (mark_failed_or_dead_letter (os_bind_seconds o) j error))
                  end)
  end.

(** ** The worker *)

Fixpoint record_all_exhausted (rows : list (key * Z)) : Notifier string unit :=
  match rows with
  | [] => pr_ret tt
  | (k, attempt) :: rest => pr_store (record_exhausted k attempt) ;; record_all_exhausted rest
  end.

Definition reclaim_exhausted : Notifier string unit :=
  rows <- pr_store retire_exhausted ;;
  record_all_exhausted rows.

Definition claim : Notifier string (option DeliveryJob) :=
  i <- pr_at ;;
  pr_store (claim_next (os_id_before o) (os_locked o i) (os_uuid o i)).

(** The body of the worker's loop: what it found, or why it could not claim. *)
Definition worker_round : Notifier string (option DeliveryJob) :=
  pr_match reclaim_exhausted (fun _ =>
    found <- claim ;;
    match found with
    | None => pr_ret None
    | Some j => pr_match (process_job j) (fun _ => pr_ret (Some j))
    end).
End service.

Local Close Scope proc_scope.

End NotifyWorker.
