(* ===== verification/NotifyInvariants.v ===== *)
(** The notifications store under any sequence of the service's operations, by
    any number of its processes: its rows only evolve, its constraints hold, and
    the leases fence. *)

From stdpp Require Import relations.
From S2P Require Import Prelude Propagation Database Runtime NotifyService.
Import Schema Transactions Effects NotifyStore NotifyWorker.

(** ** The operations as steps *)

(** A carrier the worker accepts. *)
Definition carrier_ok (c : Carrier) : Prop := exists h, job_context_headers c = Ok h.

(** A step of any process whose claims use the tokens [fresh]; a delivery is
    marked delivered only after its message is persisted, and recorded only with
    a carrier that validates. *)
Inductive notify_step (fresh : string -> Prop) (db : NotifyDb) : NotifyDb -> Prop :=
| NsRecord id tenant event request payload carrier now row db' :
    carrier_ok carrier ->
    insert_delivery id tenant event request payload carrier now db = Ok (row, db') ->
    notify_step fresh db db'
| NsClaim id_before locked token now found db' :
    fresh token -> claim_next id_before locked token now db = Ok (found, db') -> notify_step fresh db db'
| NsRetire now rows db' : retire_exhausted now db = Ok (rows, db') -> notify_step fresh db db'
| NsExhausted k attempt now db' :
    record_exhausted k attempt now db = Ok (tt, db') -> notify_step fresh db db'
| NsPersist j ack now db' : persist_channel_message j ack now db = Ok (tt, db') -> notify_step fresh db db'
| NsDelivered j now db' :
    is_Some (nd_messages db !! job_key j) -> mark_delivered j now db = Ok (tt, db') ->
    notify_step fresh db db'
| NsFailed bind_seconds j error now db' :
    mark_failed_or_dead_letter bind_seconds j error now db = Ok (tt, db') -> notify_step fresh db db'
| NsQuarantined j error now db' :
    dead_letter_invalid_propagation j error now db = Ok (tt, db') -> notify_step fresh db db'.

(** ** What an operation did *)

(** The columns that identify a delivery. *)
Definition delivery_identity (r : DeliveryRow) : string * string * string * json * Carrier * Z :=
  (dr_event_key r, dr_order_id r, dr_channel r, dr_payload r, dr_carrier r, dr_created_at r).

Definition final (r : DeliveryRow) : Prop := dr_status r = NDelivered \/ dr_status r = NDeadLettered.

(** What an operation may make of a row: touch it, claim it, retire it, or
    settle it for the job that holds it. *)
Inductive row_step (fresh : string -> Prop) (messaged : Prop) (r : DeliveryRow) : DeliveryRow -> Prop :=
| RsSame : row_step fresh messaged r r
| RsTouched now :
    row_step fresh messaged r (set_delivery r (dr_status r) (dr_attempts r) (dr_next_attempt_at r)
      (dr_lease_until r) (dr_lease_token r) (dr_last_error r) (dr_delivered_at r) (dr_acknowledged_at r)
      (dr_dead_lettered_at r) now)
| RsClaimed token now : fresh token -> claimable now r = true ->
    row_step fresh messaged r (claimed_delivery token now r)
| RsRetired now : exhausted now r = true -> row_step fresh messaged r (retire_delivery now r)
| RsDelivered now : dr_status r = NProcessing -> messaged ->
    row_step fresh messaged r (set_delivery r NDelivered (dr_attempts r) (dr_next_attempt_at r) None None
      None (Some now) (Some now) (dr_dead_lettered_at r) now)
| RsDead error now : dr_status r = NProcessing ->
    row_step fresh messaged r (dead_letter_row error now r)
| RsRequeued error next now : dr_status r = NProcessing ->
    row_step fresh messaged r (requeue_row error next now r).

(** A row just inserted. *)
Record born (r : DeliveryRow) : Prop := {
  bn_status : dr_status r = NQueued;
  bn_attempts : dr_attempts r = 0;
  bn_token : dr_lease_token r = None;
  bn_carrier : carrier_ok (dr_carrier r)
}.

(** Everything an operation does to the store. *)
Record store_step (fresh : string -> Prop) (db db' : NotifyDb) : Prop := {
  ss_messages : forall k m, nd_messages db !! k = Some m -> nd_messages db' !! k = Some m;
  ss_rows : forall k r, nd_deliveries db !! k = Some r ->
    exists r', nd_deliveries db' !! k = Some r' /\ row_step fresh (is_Some (nd_messages db !! k)) r r';
  ss_born : forall k r', nd_deliveries db !! k = None -> nd_deliveries db' !! k = Some r' ->
    born r' /\ find_event k.1 (dr_event_key r') db = None;
  ss_one : forall k k' r r', nd_deliveries db !! k = None -> nd_deliveries db' !! k = Some r ->
    nd_deliveries db !! k' = None -> nd_deliveries db' !! k' = Some r' -> k = k'
}.

Lemma same_rows fresh db db' :
  nd_deliveries db' = nd_deliveries db ->
  (forall k m, nd_messages db !! k = Some m -> nd_messages db' !! k = Some m) -> store_step fresh db db'.
Proof.
  intros Hd Hm. split; [done| | |]; rewrite Hd; [|congruence..].
  intros k r Hr. exists r. split; [done|constructor].
Qed.

Lemma one_row fresh db db' k r r' :
  nd_deliveries db !! k = Some r -> nd_deliveries db' = <[k := r']> (nd_deliveries db) ->
  nd_messages db' = nd_messages db -> row_step fresh (is_Some (nd_messages db !! k)) r r' ->
  store_step fresh db db'.
Proof.
  intros Hr Hd Hm Hs. split.
  - by rewrite Hm.
  - intros k0 r0 Hr0. rewrite Hd. destruct (decide (k0 = k)) as [->|Hne].
    + rewrite lookup_insert_eq. rewrite Hr in Hr0. injection Hr0 as <-. eauto.
    + rewrite lookup_insert_ne by done. exists r0. split; [done|constructor].
  - intros k0 r0 Hn Hr0. rewrite Hd in Hr0. destruct (decide (k0 = k)) as [->|Hne]; [congruence|].
    rewrite lookup_insert_ne in Hr0 by done. congruence.
  - intros k1 k2 r1 r2 Hn Hr1 _ _. rewrite Hd in Hr1. destruct (decide (k1 = k)) as [->|Hne]; [congruence|].
    rewrite lookup_insert_ne in Hr1 by done. congruence.
Qed.

(** The row of an event key, and how to know there is none. *)
Lemma event_rows tenant event db k r :
  In (k, r) (List.filter (fun kr => String.eqb kr.1.1 tenant && String.eqb (dr_event_key kr.2) event)
               (map_to_list (nd_deliveries db))) <->
  nd_deliveries db !! k = Some r /\ k.1 = tenant /\ dr_event_key r = event.
Proof.
  rewrite filter_In, <- list_elem_of_In, elem_of_map_to_list. simpl.
  rewrite andb_true_iff, !String.eqb_eq. naive_solver.
Qed.

Lemma find_event_some tenant event db k r :
  find_event tenant event db = Some (k, r) ->
  nd_deliveries db !! k = Some r /\ k.1 = tenant /\ dr_event_key r = event.
Proof.
  unfold find_event. intros H. apply event_rows.
  destruct (List.filter _ _) as [|a l]; [done|]. injection H as ->. by left.
Qed.

Lemma find_event_none tenant event db :
  find_event tenant event db = None <->
  forall k r, nd_deliveries db !! k = Some r -> k.1 = tenant -> dr_event_key r <> event.
Proof.
  unfold find_event. split.
  - intros H k r Hr Hk He.
    assert (Hin := proj2 (event_rows tenant event db k r) (conj Hr (conj Hk He))).
    by destruct (List.filter _ _).
  - intros H. destruct (List.filter _ _) as [|[k r] l] eqn:El; [done|]. exfalso.
    destruct (proj1 (event_rows tenant event db k r)) as (Hr & Hk & He); [rewrite El; by left|].
    by apply (H k r).
Qed.

(** What settling a job did. *)
Lemma settle_job_ok j lost set_ outcome error now db db' :
  settle_job j lost set_ outcome error now db = Ok (tt, db') ->
  exists r, nd_deliveries db !! job_key j = Some r /\ dr_status r = NProcessing
    /\ dr_lease_token r = Some (dj_lease_token j)
    /\ nd_deliveries db' = <[job_key j := set_ r]> (nd_deliveries db) /\ nd_messages db' = nd_messages db.
Proof.
  unfold settle_job. destruct (update_row (job_key j) _ _ _) as [n t] eqn:Eu. intros H. res_inv.
  match goal with Hn : (_ =? 1)%nat = true |- _ => apply Nat.eqb_eq in Hn; subst end.
  apply update_row_one in Eu as (r & Hr & Hh & ->). unfold holds_lease in Hh. bool_inv. eauto 10.
Qed.

Lemma settled_step fresh db db' j (set_ : DeliveryRow -> DeliveryRow) :
  (exists r, nd_deliveries db !! job_key j = Some r /\ dr_status r = NProcessing
    /\ dr_lease_token r = Some (dj_lease_token j)
    /\ nd_deliveries db' = <[job_key j := set_ r]> (nd_deliveries db) /\ nd_messages db' = nd_messages db) ->
  (forall r, dr_status r = NProcessing -> row_step fresh (is_Some (nd_messages db !! job_key j)) r (set_ r)) ->
  store_step fresh db db'.
Proof. intros (r & Hr & Hs & _ & Hd & Hm) Hset. by eapply one_row; [|exact Hd|exact Hm|apply Hset]. Qed.

Lemma step_store fresh db db' : notify_step fresh db db' -> store_step fresh db db'.
Proof.
  intros [id tenant event request payload carrier now row db1 Hc H
         |id_before locked token now found db1 Hf H|now rows db1 H|k attempt now db1 H|j ack now db1 H
         |j now db1 Hm H|bind j error now db1 H|j error now db1 H].
  - unfold insert_delivery in H. destruct (find_event tenant event db) as [[k r]|] eqn:Ef.
    + injection H as _ <-. apply find_event_some in Ef as (Hr & _).
      eapply one_row; [exact Hr|done..|]. constructor.
    + res_inv. bool_inv. split; [done| | |].
      * intros k r Hr. exists r. simpl. split; [|constructor]. rewrite lookup_insert_ne; [done|].
        intros <-. match goal with Hn : ¬ is_Some _ |- _ => apply Hn; by eexists end.
      * intros k r' Hn Hr'. simpl in Hr'. destruct (decide (k = (tenant, id))) as [->|Hne].
        -- rewrite lookup_insert_eq in Hr'. injection Hr' as <-. by split.
        -- rewrite lookup_insert_ne in Hr' by done. congruence.
      * assert (Hnew : forall k r', nd_deliveries db !! k = None ->
          <[(tenant, id) := mkDeliveryRow event (nr_order_id request) (nr_channel request) payload carrier now
             NQueued 0 now None None None None None None now]> (nd_deliveries db) !! k = Some r' -> k = (tenant, id)).
        { intros k r' Hn Hr'. destruct (decide (k = (tenant, id))) as [|Hne]; [done|].
          rewrite lookup_insert_ne in Hr' by done. congruence. }
        intros k k' r r' Hn Hr Hn' Hr'. rewrite (Hnew k r Hn Hr). symmetry. exact (Hnew k' r' Hn' Hr').
  - unfold claim_next in H. destruct (first_by _ _ _) as [[k r]|] eqn:Ef; injection H as _ <-; [|by apply same_rows].
    apply first_by_some in Ef as [Hr Hw]. bool_inv. eapply one_row; [exact Hr|done..|]. by constructor.
  - unfold retire_exhausted in H. injection H as _ <-. split; [done| | |].
    + intros k r Hr. cbn [set_deliveries nd_deliveries]. rewrite map_lookup_imap, Hr. simpl. eexists. split; [done|].
      destruct (exhausted now r) eqn:Ee; by constructor.
    + intros k r' Hn. cbn [set_deliveries nd_deliveries]. by rewrite map_lookup_imap, Hn.
    + intros k k' r r' Hn Hr. cbn in Hr. by rewrite map_lookup_imap, Hn in Hr.
  - injection H as <-. by apply same_rows.
  - unfold persist_channel_message in H. destruct (nd_messages db !! job_key j) eqn:Em; res_inv; [by apply same_rows|].
    apply same_rows; [done|]. intros k m Hk. simpl. rewrite lookup_insert_ne; [done|]. congruence.
  - apply settle_job_ok in H. eapply settled_step; [exact H|]. intros r Hr. by constructor.
  - unfold mark_failed_or_dead_letter in H. cbv zeta in H. destruct (MAX_ATTEMPTS <=? dj_attempt j).
    + apply settle_job_ok in H. eapply settled_step; [exact H|]. intros r Hr. by constructor.
    + apply res_bind_ok in H as (delay & _ & H). apply settle_job_ok in H.
      eapply settled_step; [exact H|]. intros r Hr. by constructor.
  - apply settle_job_ok in H. eapply settled_step; [exact H|]. intros r Hr. by constructor.
Qed.

(** ** What any sequence of operations preserves *)

Record row_ok (messaged : Prop) (r : DeliveryRow) : Prop := {
  ro_attempts : 0 <= dr_attempts r <= MAX_ATTEMPTS;
  ro_delivered : dr_status r = NDelivered -> is_Some (dr_delivered_at r) /\ messaged;
  ro_dead : dr_status r = NDeadLettered -> is_Some (dr_dead_lettered_at r);
  ro_lease : dr_status r = NProcessing ->
    0 < dr_attempts r /\ is_Some (dr_lease_until r) /\ is_Some (dr_lease_token r);
  ro_carrier : carrier_ok (dr_carrier r)
}.

Record store_ok (db : NotifyDb) : Prop := {
  so_rows : forall k r, nd_deliveries db !! k = Some r -> row_ok (is_Some (nd_messages db !! k)) r;
  so_events : forall k k' r r', nd_deliveries db !! k = Some r -> nd_deliveries db !! k' = Some r' ->
    k.1 = k'.1 -> dr_event_key r = dr_event_key r' -> k = k'
}.

Lemma claimable_open now r : claimable now r = true -> dr_attempts r < MAX_ATTEMPTS /\ ~ final r.
Proof.
  unfold claimable, waiting, lease_over, final. intros H. bool_inv. split; [done|].
  destruct (dr_status r); simpl in *; naive_solver.
Qed.

Lemma exhausted_open now r : exhausted now r = true -> ~ final r.
Proof.
  unfold exhausted, waiting, lease_over, final. intros H. bool_inv. destruct (dr_status r); simpl in *; naive_solver.
Qed.

Lemma row_step_ok fresh messaged messaged' r r' :
  (messaged -> messaged') -> row_step fresh messaged r r' -> row_ok messaged r -> row_ok messaged' r'.
Proof.
  intros Hm Hs [Ha Hdl Hdd Hl Hc].
  destruct Hs as [|now|token now Hf Hcl|now He|now Hp Hms|error now Hp|error next now Hp]; split; simpl;
    try done; try (intros Hx; naive_solver).
  all: try (apply claimable_open in Hcl as [Hlt _]; lia).
  all: intros _; apply claimable_open in Hcl as [Hlt _]; split_and!; [lia|by eexists..].
Qed.

Lemma row_step_identity fresh messaged r r' :
  row_step fresh messaged r r' -> delivery_identity r' = delivery_identity r.
Proof. by destruct 1. Qed.

Lemma born_ok messaged r : born r -> row_ok messaged r.
Proof. intros [Hs Ha Ht Hc]. unfold MAX_ATTEMPTS. split; rewrite ?Hs, ?Ha; done || lia. Qed.

Lemma step_ok fresh db db' : store_step fresh db db' -> store_ok db -> store_ok db'.
Proof.
  intros [Hm Hr Hb H1] [Hrows Hev].
  assert (Hmg : forall k, is_Some (nd_messages db !! k) -> is_Some (nd_messages db' !! k)).
  { intros k [m Hk]. exists m. by apply Hm. }
  assert (Hback : forall k r', nd_deliveries db' !! k = Some r' ->
    (exists r, nd_deliveries db !! k = Some r /\ row_step fresh (is_Some (nd_messages db !! k)) r r')
    \/ nd_deliveries db !! k = None).
  { intros k r' Hr'. destruct (nd_deliveries db !! k) as [r|] eqn:Ek; [|by right]. left.
    destruct (Hr k r Ek) as (r1 & Hr1 & Hs). rewrite Hr' in Hr1. injection Hr1 as <-. eauto. }
  split.
  - intros k r' Hr'. destruct (Hback k r' Hr') as [(r & Hk & Hs)|Hn].
    + eapply row_step_ok; [apply Hmg|exact Hs|by apply Hrows].
    + by apply born_ok, (Hb k r' Hn Hr').
  - intros k k' r r' Hk Hk' Ht He.
    destruct (Hback k r Hk) as [(r0 & Hk0 & Hs)|Hn], (Hback k' r' Hk') as [(r0' & Hk0' & Hs')|Hn'].
    + apply row_step_identity in Hs, Hs'. unfold delivery_identity in Hs, Hs'. simplify_eq.
      by eapply (Hev k k' r0 r0'); congruence.
    + exfalso. destruct (Hb k' r' Hn' Hk') as [_ Hnone]. apply row_step_identity in Hs.
      unfold delivery_identity in Hs. simplify_eq.
      eapply (proj1 (find_event_none _ _ _) Hnone k r0); [done|done|congruence].
    + exfalso. destruct (Hb k r Hn Hk) as [_ Hnone]. apply row_step_identity in Hs'.
      unfold delivery_identity in Hs'. simplify_eq.
      eapply (proj1 (find_event_none _ _ _) Hnone k' r0'); [done|done|congruence].
    + by eapply H1.
Qed.

(** How a row grows: its identity stays, its attempts grow, and a final row
    keeps its outcome. *)
Record delivery_later (r r' : DeliveryRow) : Prop := {
  dl_identity : delivery_identity r' = delivery_identity r;
  dl_attempts : dr_attempts r <= dr_attempts r';
  dl_final : final r -> dr_status r' = dr_status r /\ dr_attempts r' = dr_attempts r
    /\ dr_delivered_at r' = dr_delivered_at r /\ dr_dead_lettered_at r' = dr_dead_lettered_at r
}.

Record store_later (db db' : NotifyDb) : Prop := {
  sl_rows : forall k r, nd_deliveries db !! k = Some r ->
    exists r', nd_deliveries db' !! k = Some r' /\ delivery_later r r';
  sl_messages : forall k m, nd_messages db !! k = Some m -> nd_messages db' !! k = Some m
}.

#[export] Instance delivery_later_preorder : PreOrder delivery_later.
Proof.
  split; [by split|]. intros a b c [I1 A1 F1] [I2 A2 F2]. split; [congruence|lia|].
  intros Hf. destruct (F1 Hf) as (Hs & Ha & Hd & Hdd). destruct F2 as (Hs2 & Ha2 & Hd2 & Hdd2).
  { unfold final in *. by rewrite Hs. }
  split_and!; congruence.
Qed.

#[export] Instance store_later_preorder : PreOrder store_later.
Proof.
  split; [split; [|done]; intros k r Hr; by exists r|]. intros a b c [R1 M1] [R2 M2]. split; [|by eauto].
  intros k r Hr. destruct (R1 k r Hr) as (r1 & Hr1 & L1). destruct (R2 k r1 Hr1) as (r2 & Hr2 & L2).
  exists r2. split; [done|]. by etransitivity.
Qed.

Lemma row_step_later fresh messaged r r' : row_step fresh messaged r r' -> delivery_later r r'.
Proof.
  intros Hs. split; [by eapply row_step_identity| |].
  - destruct Hs; simpl; lia.
  - intros Hf. destruct Hs as [| |token now Hfr Hc|now He|now Hp|error now Hp|error next now Hp]; try done.
    + by apply claimable_open in Hc as [_ Hn].
    + by apply exhausted_open in He.
    + by destruct Hf; congruence.
    + by destruct Hf; congruence.
    + by destruct Hf; congruence.
Qed.

Lemma notify_later fresh db db' : notify_step fresh db db' -> store_later db db'.
Proof.
  intros [Hm Hr _ _]%step_store. split; [|done]. intros k r Hk.
  destruct (Hr k r Hk) as (r' & Hk' & Hs). exists r'. split; [done|]. by eapply row_step_later.
Qed.

Lemma notify_all_later fresh db db' : rtc (notify_step fresh) db db' -> store_later db db'.
Proof. induction 1 as [|a b c Hs _ IH]; [done|]. etransitivity; [by eapply notify_later|done]. Qed.

Lemma steps_ok fresh db db' : rtc (notify_step fresh) db db' -> store_ok db -> store_ok db'.
Proof. induction 1 as [|a b c Hs _ IH]; [done|]. intros Hok. by eapply IH, step_ok, Hok; apply step_store. Qed.

(** What a claim did. *)
Lemma claim_next_ok id_before locked token now db j db' :
  claim_next id_before locked token now db = Ok (Some j, db') ->
  exists r, nd_deliveries db !! job_key j = Some r /\ claimable now r = true
    /\ dj_attempt j = dr_attempts r + 1 /\ dj_lease_token j = token
    /\ nd_deliveries db' !! job_key j = Some (claimed_delivery token now r)
    /\ delivery_identity r = (dj_event_key j, dj_order_id j, dj_channel j, dj_payload j, dj_carrier j, dr_created_at r).
Proof.
  unfold claim_next. destruct (first_by _ _ _) as [[[t i] r]|] eqn:Ef; [|done]. intros [= <- <-].
  apply first_by_some in Ef as [Hr Hw]. apply andb_true_iff in Hw as [Hw _]. exists r.
  unfold job_key. simpl. split_and!; try done. by rewrite lookup_insert_eq.
Qed.


(** the retry budget.  Two claims of the same delivery, whatever happens
    between them, have increasing attempts, and none exceeds MAX_ATTEMPTS: a
    delivery is handed to a worker at most four times. *)
Theorem claims_within_budget fresh b1 l1 t1 n1 db j1 db1 db2 b2 l2 t2 n2 j2 db3 :
  claim_next b1 l1 t1 n1 db = Ok (Some j1, db1) -> rtc (notify_step fresh) db1 db2 ->
  claim_next b2 l2 t2 n2 db2 = Ok (Some j2, db3) -> job_key j1 = job_key j2 ->
  dj_attempt j1 < dj_attempt j2 <= MAX_ATTEMPTS.
Proof.
  intros (r1 & _ & _ & Ha1 & _ & Hk1 & _)%claim_next_ok [Hl _]%notify_all_later (r2 & Hr2 & Hc2 & Ha2 & _)%claim_next_ok He.
  destruct (Hl _ _ Hk1) as (r & Hr & [_ Hat _]). simpl in Hat. rewrite He, Hr2 in Hr. injection Hr as <-.
  apply claimable_open in Hc2 as [Hlt _]. lia.
Qed.

(** The token of a row is one of the claims since. *)
Lemma step_token token db db' k r r' :
  notify_step (fun t => t <> token) db db' -> nd_deliveries db !! k = Some r ->
  dr_lease_token r <> Some token -> nd_deliveries db' !! k = Some r' -> dr_lease_token r' <> Some token.
Proof.
  intros [_ Hr _ _]%step_store Hk Ht Hk'. destruct (Hr k r Hk) as (r1 & Hk1 & Hs).
  rewrite Hk' in Hk1. injection Hk1 as <-. destruct Hs; simpl; congruence.
Qed.

Lemma steps_token token db db' : rtc (notify_step (fun t => t <> token)) db db' ->
  forall k r r', nd_deliveries db !! k = Some r -> dr_lease_token r <> Some token ->
  nd_deliveries db' !! k = Some r' -> dr_lease_token r' <> Some token.
Proof.
  induction 1 as [|a b c Hs _ IH]; intros k r r' Hk Ht Hk'; [congruence|].
  destruct (notify_later _ _ _ Hs) as [Hl _]. destruct (Hl k r Hk) as (r1 & Hk1 & _).
  eapply IH; [exact Hk1| |exact Hk']. by eapply step_token.
Qed.

(** A job whose token the row no longer has settles nothing. *)
Lemma settle_refused j lost set_ outcome error now db r :
  nd_deliveries db !! job_key j = Some r -> dr_lease_token r <> Some (dj_lease_token j) ->
  settle_job j lost set_ outcome error now db = Err lost.
Proof.
  intros Hr Ht. unfold settle_job, update_row. rewrite Hr. unfold holds_lease.
  rewrite (bool_decide_eq_false_2 (dr_lease_token r = _)) by done. by rewrite andb_false_r.
Qed.

(** the lease fences.  When a delivery has been claimed again with another
    token, the worker of the older claim can neither mark it delivered, nor
    reschedule it, nor dead-letter it, then or after any further operations that
    do not reuse its token. *)
Theorem stale_worker_refused id_before locked t2 n2 j1 j2 db2 db3 db4 :
  claim_next id_before locked t2 n2 db2 = Ok (Some j2, db3) -> job_key j1 = job_key j2 ->
  t2 <> dj_lease_token j1 -> rtc (notify_step (fun t => t <> dj_lease_token j1)) db3 db4 ->
  forall now, (exists m, mark_delivered j1 now db4 = Err m)
  /\ (forall bind error, exists m, mark_failed_or_dead_letter bind j1 error now db4 = Err m)
  /\ (forall error, exists m, dead_letter_invalid_propagation j1 error now db4 = Err m).
Proof.
  intros (r2 & _ & _ & _ & _ & Hk2 & _)%claim_next_ok He Ht Hs now. rewrite <- He in Hk2.
  destruct (notify_all_later _ _ _ Hs) as [Hl _]. destruct (Hl _ _ Hk2) as (r4 & Hk4 & _).
  assert (Hn : dr_lease_token r4 <> Some (dj_lease_token j1)).
  { eapply steps_token; [exact Hs|exact Hk2| |exact Hk4]. simpl. congruence. }
  split_and!.
  - eexists. by eapply settle_refused.
  - intros bind error. unfold mark_failed_or_dead_letter. cbv zeta.
    destruct (MAX_ATTEMPTS <=? dj_attempt j1); [by eexists; eapply settle_refused|].
    destruct (bind _) as [delay|m]; simpl; [by eexists; eapply settle_refused|by eexists].
  - intros error. eexists. by eapply settle_refused.
Qed.

(** What recording did. *)
Lemma insert_ok id tenant event request payload carrier now db row db1 :
  insert_delivery id tenant event request payload carrier now db = Ok (row, db1) ->
  exists k r, nd_deliveries db1 !! k = Some r /\ k.1 = tenant /\ dr_event_key r = event
    /\ row = recorded_row k.2 r.
Proof.
  unfold insert_delivery. destruct (find_event tenant event db) as [[k r]|] eqn:Ef; intros H.
  - injection H as <- <-. apply find_event_some in Ef as (_ & Hk & He).
    eexists k, _. simpl. by rewrite lookup_insert_eq.
  - res_inv. eexists (tenant, id), _. simpl. by rewrite lookup_insert_eq.
Qed.

(** a recorded event is one delivery.  Recording the same event key of a
    tenant again, after any operations, answers with the id, order and channel
    of the first recording, so a repeated request never queues a second
    delivery and a different one is told of the conflict. *)
Theorem recording_is_idempotent fresh id tenant event request payload carrier now db row db1 db2
    id' request' payload' carrier' now' row' db3 :
  store_ok db ->
  insert_delivery id tenant event request payload carrier now db = Ok (row, db1) -> carrier_ok carrier ->
  rtc (notify_step fresh) db1 db2 ->
  insert_delivery id' tenant event request' payload' carrier' now' db2 = Ok (row', db3) ->
  rd_id row' = rd_id row /\ rd_order_id row' = rd_order_id row /\ rd_channel row' = rd_channel row
  /\ size (nd_deliveries db3) = size (nd_deliveries db2).
Proof.
  intros Hok H1 Hc Hs H2.
  assert (Hok2 : store_ok db2).
  { eapply steps_ok; [exact Hs|]. apply (step_ok fresh db db1); [|done]. apply step_store. by eapply NsRecord. }
  destruct (insert_ok _ _ _ _ _ _ _ _ _ _ H1) as (k & r & Hk & Ht & He & ->).
  destruct (notify_all_later _ _ _ Hs) as [Hl _]. destruct (Hl k r Hk) as (r2 & Hr2 & [Hi _ _]).
  unfold delivery_identity in Hi. simplify_eq. unfold insert_delivery in H2.
  destruct (find_event k.1 (dr_event_key r) db2) as [[k' r']|] eqn:Ef.
  - apply find_event_some in Ef as (Hr' & Hk' & He').
    assert (k' = k) as -> by (eapply (so_events _ Hok2 k' k r' r2); congruence).
    rewrite Hr2 in Hr'. injection Hr' as <-. injection H2 as <- <-. simpl. split_and!; [done..|].
    by apply map_size_insert_Some.
  - exfalso. by eapply (proj1 (find_event_none _ _ _) Ef k r2).
Qed.

(** When the driver can not bind an i32 as the number of seconds, a failed job
    that has attempts left is not rescheduled: its row stays as it is, and only
    the end of its lease makes it claimable again. *)
Lemma unbound_seconds_never_reschedule bind j error now db :
  (forall n, exists m, bind n = Err m) -> dj_attempt j < MAX_ATTEMPTS ->
  exists m, mark_failed_or_dead_letter bind j error now db = Err m.
Proof.
  intros Hb Ha. unfold mark_failed_or_dead_letter. cbv zeta. rewrite (proj2 (Z.leb_gt _ _)) by done.
  destruct (Hb (backoff (dj_attempt j))) as [m ->]. by exists m.
Qed.

(** ** A small history: a delivery recorded, claimed, and claimed again *)

Definition or_default {A} (d : A) (r : result string A) : A := match r with Ok a => a | Err _ => d end.
Definition is_ok {A} (r : result string A) : bool := match r with Ok _ => true | Err _ => false end.
Lemma or_default_ok {A} (d : A) r : is_ok r = true -> r = Ok (or_default d r).
Proof. by destruct r. Qed.

Definition sample_carrier : Carrier :=
  mkCarrier (Some "00-4bf92f3577b34da6a3ce929d0e0e4736-00f067aa0ba902b7-01") (Some "playground=commerce")
    (Some "tenant.id=acme").
Definition sample_request : NotificationRequest :=
  mkNotificationRequest (Some "acme") "ev-1" "or-1" "webhook" (JObj []).
Definition empty_queue : NotifyDb := mkNotifyDb ∅ ∅ ∅ {[("acme", "or-1")]}.
Definition record_sample (id : string) (now : Z) (db : NotifyDb) : result string (Recorded * NotifyDb) :=
  insert_delivery id "acme" "ev-1" sample_request (JObj []) sample_carrier now db.
Definition recorded_sample : Recorded * NotifyDb :=
  or_default (mkRecorded "" 0 NFailed "" "", empty_queue) (record_sample "n-1" 0 empty_queue).
Definition claim_sample (token : string) (now : Z) (db : NotifyDb) : result string (option DeliveryJob * NotifyDb) :=
  claim_next (fun _ _ => true) (fun _ => false) token now db.
Definition is_claimed (r : result string (option DeliveryJob * NotifyDb)) : bool :=
  match r with Ok (Some _, _) => true | _ => false end.
Definition claimed_of (r : result string (option DeliveryJob * NotifyDb)) : DeliveryJob * NotifyDb :=
  match r with
  | Ok (Some j, db) => (j, db)
  | _ => (mkDeliveryJob "" "" "" "" "" JNull 0 "" sample_carrier, empty_queue)
  end.
Lemma claimed_of_ok r : is_claimed r = true -> r = Ok (Some (claimed_of r).1, (claimed_of r).2).
Proof. by destruct r as [[[]]|]. Qed.
Definition first_job : DeliveryJob * NotifyDb := claimed_of (claim_sample "token-1" 0 recorded_sample.2).
Definition second_job : DeliveryJob * NotifyDb := claimed_of (claim_sample "token-2" (seconds 40) first_job.2).

Lemma sample_carrier_ok : carrier_ok sample_carrier.
Proof. eexists. vm_compute. reflexivity. Qed.
Lemma empty_queue_ok : store_ok empty_queue.
Proof. split; done. Qed.
Lemma sample_recorded : record_sample "n-1" 0 empty_queue = Ok recorded_sample.
Proof. apply or_default_ok. vm_compute. reflexivity. Qed.
Lemma sample_claimed : claim_sample "token-1" 0 recorded_sample.2 = Ok (Some first_job.1, first_job.2).
Proof. apply claimed_of_ok. vm_compute. reflexivity. Qed.
Lemma sample_claimed_again : claim_sample "token-2" (seconds 40) first_job.2 = Ok (Some second_job.1, second_job.2).
Proof. apply claimed_of_ok. vm_compute. reflexivity. Qed.
Lemma sample_record_step fresh : notify_step fresh empty_queue recorded_sample.2.
Proof.
  eapply NsRecord; [apply sample_carrier_ok|]. rewrite <- surjective_pairing. exact sample_recorded.
Qed.


Lemma claims_within_budget_witness : dj_attempt first_job.1 < dj_attempt second_job.1 <= MAX_ATTEMPTS.
Proof.
  eapply (claims_within_budget (fun _ => True)); [exact sample_claimed|apply rtc_refl|exact sample_claimed_again|].
  vm_compute. reflexivity.
Defined.

Lemma stale_worker_refused_witness : exists m, mark_delivered first_job.1 (seconds 41) second_job.2 = Err m.
Proof.
  apply (stale_worker_refused (fun _ _ => true) (fun _ => false) "token-2" (seconds 40) first_job.1 second_job.1
           first_job.2 second_job.2 second_job.2).
  - exact sample_claimed_again.
  - vm_compute. reflexivity.
  - vm_compute. intros H. discriminate H.
  - apply rtc_refl.
Defined.

Definition recorded_again : Recorded * NotifyDb :=
  or_default (mkRecorded "" 0 NFailed "" "", empty_queue) (record_sample "n-2" (seconds 50) first_job.2).
Lemma sample_recorded_again : record_sample "n-2" (seconds 50) first_job.2 = Ok (recorded_again.1, recorded_again.2).
Proof. rewrite <- surjective_pairing. apply or_default_ok. vm_compute. reflexivity. Qed.

Lemma recording_is_idempotent_witness :
  rd_id recorded_again.1 = rd_id recorded_sample.1
  /\ size (nd_deliveries recorded_again.2) = size (nd_deliveries first_job.2).
Proof.
  destruct (recording_is_idempotent (fun _ => True) "n-1" "acme" "ev-1" sample_request (JObj []) sample_carrier 0
              empty_queue recorded_sample.1 recorded_sample.2 first_job.2 "n-2" sample_request (JObj [])
              sample_carrier (seconds 50) recorded_again.1 recorded_again.2) as (Hid & _ & _ & Hsize).
  - exact empty_queue_ok.
  - rewrite <- surjective_pairing. exact sample_recorded.
  - exact sample_carrier_ok.
  - apply rtc_once. eapply NsClaim; [exact I|exact sample_claimed].
  - exact sample_recorded_again.
  - exact (conj Hid Hsize).
Defined.
