(* ===== verification/NotifyOutcomes.v ===== *)
(** Runs of the notifications service: its endpoint and its worker refine the
    steps of the store, what a round sends, and what the endpoint records the
    worker accepts. *)

From stdpp Require Import relations.
From S2P Require Import Prelude Values Propagation Database Runtime NotifyService NotifyInvariants.
Import Text Propagation Schema Transactions Effects NotifyStore NotifyWorker NotifyInvariants.

(** ** Carriers

    [HeaderValue::to_str] gives only visible ASCII, blanks and tabs. *)

Definition text_headers (h : headers) : Prop :=
  forall name value, In (name, Some value) h -> header_text value = true.

Lemma get_all_in name h v : In v (get_all name h) -> In (name, v) h.
Proof.
  unfold get_all. intros Hin. apply in_map_iff in Hin as ([n v'] & <- & Hf).
  apply filter_In in Hf as [Hf Hn]. simpl in *. by apply String.eqb_eq in Hn as ->.
Qed.

(** A header the validator takes as single is the one that is stored. *)
Lemma single_stored h name v :
  single_header h name = Ok (Some v) -> get_all name h = [Some v] /\ is_empty v = false.
Proof.
  unfold single_header, strings_or. intros H. apply res_bind_ok in H as (values & Hv & H).
  destruct values as [|v1 [|v2 rest]]; [done| |done]. destruct (is_empty v1) eqn:Ee; [done|]. injection H as ->.
  apply map_res_ok in Hv. destruct (get_all name h) as [|o [|o' l]]; inversion Hv; subst;
    [|match goal with Hf : Forall2 _ (_ :: _) [] |- _ => by inversion Hf end].
  match goal with Ho : ok_or o _ = Ok v |- _ => apply ok_or_ok in Ho as -> end. done.
Qed.

Lemma all_strings {E} (e : E) vs values : strings_or e vs = Ok values -> vs = map Some values.
Proof.
  unfold strings_or. intros H. apply map_res_ok in H. induction H as [|o v vs values Ho _ IH]; [done|].
  apply ok_or_ok in Ho as ->. simpl. by f_equal.
Qed.

Lemma omap_somes (values : list string) : omap (fun v => v) (map Some values) = values.
Proof. induction values as [|v values IH]; simpl; [done|]. by f_equal. Qed.

Lemma joined_stored h name v :
  joined_header h name = Ok (Some v) ->
  exists values, get_all name h = map Some values /\ values <> [] /\ v = join_on "," values
    /\ existsb is_empty values = false.
Proof.
  unfold joined_header. intros H. apply res_bind_ok in H as (values & Hv & H). apply all_strings in Hv.
  destruct values as [|v1 rest]; [done|]. destruct (existsb is_empty (v1 :: rest)) eqn:Ee; [done|].
  injection H as <-. by exists (v1 :: rest).
Qed.

Lemma header_text_app s t : header_text (s +:+ t) = header_text s && header_text t.
Proof. unfold header_text. induction s as [|a s IH]; [done|]. simpl. rewrite IH. by destruct (header_byte a). Qed.

Lemma join_text values : Forall (fun v => header_text v = true) values -> header_text (join_on "," values) = true.
Proof.
  induction 1 as [|v values Hv Hvs IH]; [done|]. destruct values as [|v' values]; [done|].
  change (join_on "," (v :: v' :: values)) with (v +:+ String "," (join_on "," (v' :: values))).
  rewrite header_text_app, Hv. exact IH.
Qed.

(** The three headers that are stored pass the same validation. *)
Lemma stored_validates tp ts bg :
  is_empty tp = false -> is_empty ts = false -> is_empty bg = false ->
  validate_traceparent_header tp = Ok tt -> validate_tracestate_header ts = Ok tt ->
  validate_baggage_header bg = Ok tt ->
  validate_durable_context [("traceparent", Some tp); ("tracestate", Some ts); ("baggage", Some bg)] = Ok tt.
Proof.
  intros Etp Ets Ebg Htp Hts Hbg. unfold validate_durable_context, single_header, joined_header, get_all. simpl.
  rewrite Etp. simpl. rewrite Ets. simpl. rewrite Ebg. simpl. by rewrite Htp, Hts, Hbg.
Qed.

Lemma recorded_carrier_ok h :
  validate_durable_context h = Ok tt -> text_headers h ->
  exists tp ts bg, carrier_of h = mkCarrier (Some tp) (Some ts) (Some bg)
    /\ job_context_headers (carrier_of h)
       = Ok [("traceparent", Some tp); ("tracestate", Some ts); ("baggage", Some bg)].
Proof.
  intros Hv Htext. unfold validate_durable_context in Hv.
  apply res_bind_ok in Hv as (tp' & Htp & Hv). apply res_bind_ok in Hv as (tp & Etp & Hv). apply ok_or_ok in Etp as ->.
  apply res_bind_ok in Hv as (ts' & Hts & Hv). apply res_bind_ok in Hv as (ts & Ets & Hv). apply ok_or_ok in Ets as ->.
  apply res_bind_ok in Hv as (bg' & Hbg & Hv). apply res_bind_ok in Hv as (bg & Ebg & Hv). apply ok_or_ok in Ebg as ->.
  apply res_bind_ok in Hv as ([] & Vtp & Hv). apply res_bind_ok in Hv as ([] & Vts & Vbg).
  apply single_stored in Htp as [Gtp Ntp]. apply single_stored in Hts as [Gts Nts].
  apply joined_stored in Hbg as (values & Gbg & Hne & -> & _).
  assert (Xtp : header_text tp = true) by (eapply Htext, get_all_in; rewrite Gtp; by left).
  assert (Xts : header_text ts = true) by (eapply Htext, get_all_in; rewrite Gts; by left).
  assert (Xbg : header_text (join_on "," values) = true).
  { apply join_text, Forall_forall. intros v Hin. eapply Htext, get_all_in. rewrite Gbg.
    by apply in_map, list_elem_of_In. }
  assert (Nbg : is_empty (join_on "," values) = false).
  { unfold validate_baggage_header in Vbg. by destruct (is_empty (join_on "," values)). }
  assert (Hc : carrier_of h = mkCarrier (Some tp) (Some ts) (Some (join_on "," values))).
  { unfold carrier_of, header_value, header_values, header_get. rewrite Gtp, Gts, Gbg, omap_somes.
    by destruct values. }
  exists tp, ts, (join_on "," values). split; [done|]. rewrite Hc. clear Hc Gbg Hne.
  generalize dependent (join_on "," values). intros bg Vbg Xbg Nbg.
  unfold job_context_headers, insert_header. cbn [ca_traceparent ca_tracestate ca_baggage ok_or res_bind].
  rewrite Xtp, Xts, Xbg. cbn [ensure res_bind]. unfold header_insert. simpl.
  by rewrite stored_validates.
Qed.

(** what the endpoint accepts the worker accepts.  The propagation headers
    of a request that pass validation, possibly with several baggage headers,
    are stored as three columns from which the worker rebuilds headers that pass
    the same validation, so a recorded delivery is never quarantined for its
    propagation. *)
Theorem recorded_carrier_accepted h :
  validate_durable_context h = Ok tt -> text_headers h ->
  exists tp ts bg, carrier_of h = mkCarrier (Some tp) (Some ts) (Some bg)
    /\ job_context_headers (carrier_of h)
       = Ok [("traceparent", Some tp); ("tracestate", Some ts); ("baggage", Some bg)].
Proof. apply recorded_carrier_ok. Qed.

Definition sample_durable_headers : headers :=
  [("traceparent", Some "00-4bf92f3577b34da6a3ce929d0e0e4736-00f067aa0ba902b7-01");
   ("tracestate", Some "playground=commerce"); ("baggage", Some "tenant.id=acme");
   ("baggage", Some "region=eu"); ("x-raw", None)].

Lemma sample_headers_valid : validate_durable_context sample_durable_headers = Ok tt.
Proof. vm_compute. reflexivity. Qed.
Lemma sample_headers_text : text_headers sample_durable_headers.
Proof.
  intros name value Hin. simpl in Hin.
  repeat match type of Hin with _ \/ _ => destruct Hin as [Hin|Hin] end; try done;
    injection Hin as _ <-; vm_compute; reflexivity.
Qed.

Lemma recorded_carrier_accepted_witness :
  exists tp ts bg, carrier_of sample_durable_headers = mkCarrier (Some tp) (Some ts) (Some bg)
    /\ job_context_headers (carrier_of sample_durable_headers)
       = Ok [("traceparent", Some tp); ("tracestate", Some ts); ("baggage", Some bg)].
Proof.
  exact (recorded_carrier_accepted sample_durable_headers sample_headers_valid sample_headers_text).
Defined.

(** ** Runs *)

Section runs.
Context (o : Outside) (s : AppState) (e : Env NotifyDb) (fresh : string -> Prop).
(** Others run the same operations; the UUIDs of this process are fresh. *)
Hypothesis others_step : forall n db, rtc (notify_step fresh) db (en_meanwhile e n db).
Hypothesis uuids_fresh : forall i, fresh (os_uuid o i).

Notation step := (notify_step fresh).
Notation does := (does step e).
Notation does_from := (does_from step e).

Lemma moved_steps db db' : moved step e db db' -> rtc step db db'.
Proof.
  unfold moved. induction 1 as [|a b c [Hs|[n ->]] _ IH]; [done| |].
  - by eapply rtc_l.
  - etransitivity; [apply others_step|exact IH].
Qed.

(** What a job sends: nothing, or one request to its endpoint, under its own
    idempotency key; when the dispatch succeeds, the provider acknowledged it. *)
Definition job_sends (j : DeliveryJob) (ok : Prop) (l : list (Dispatch * NotifyDb)) : Prop :=
  l = [] /\ (ok -> dj_channel j = "in_app")
  \/ exists endpoint reply db,
       l = [(mkDispatch (ce_url endpoint) (dj_tenant_id j) (dj_id j) (dispatch_body j) reply, db)]
       /\ one_of (dj_channel j) ["webhook"; "email"] = true
       /\ resolve_channel_endpoint (dj_channel j) (dj_payload j) s = Some endpoint
       /\ (ok -> exists ack, acknowledgement o reply = Ok ack).

Definition messaged (j : DeliveryJob) (db : NotifyDb) : Prop := is_Some (nd_messages db !! job_key j).

Lemma messaged_later j db db' : rtc step db db' -> messaged j db -> messaged j db'.
Proof. intros [_ Hm]%notify_all_later [m Hk]. exists m. by apply Hm. Qed.

Lemma persisted j ack now db db' : persist_channel_message j ack now db = Ok (tt, db') -> messaged j db'.
Proof.
  unfold persist_channel_message, messaged. destruct (nd_messages db !! job_key j) as [m|] eqn:Em; intros H; res_inv.
  - by eexists.
  - simpl. rewrite lookup_insert_eq. by eexists.
Qed.

Lemma persist_does j ack f :
  does (pr_map_err f (pr_store (persist_channel_message j ack)) : Notifier string unit)
    (fun _ r l db => l = [] /\ (r = Ok tt -> messaged j db)).
Proof.
  eapply does_map_err; [apply does_store; intros now db [] db' H; by eapply NsPersist|].
  intros db0 r l db [-> Hr]. split; [done|]. destruct r as [[]|]; [|done].
  intros _. destruct (Hr tt eq_refl) as (now & db1 & Hp). by eapply persisted.
Qed.

Definition dispatched (j : DeliveryJob) (r : result string unit) (l : list (Dispatch * NotifyDb))
    (db : NotifyDb) : Prop :=
  job_sends j (r = Ok tt) l /\ (r = Ok tt -> messaged j db).

Lemma refused_dispatch j m :
  does (pr_fail m : Notifier string unit) (fun _ r l db => dispatched j r l db).
Proof. apply does_nothing. intros w. split; [done|]. split; [left|]; done. Qed.

Lemma dispatch_external_does j :
  one_of (dj_channel j) ["webhook"; "email"] = true ->
  does (dispatch_external o s j) (fun _ r l db => dispatched j r l db).
Proof.
  intros Hc. unfold dispatch_external, require_channel_endpoint.
  destruct (resolve_channel_endpoint _ _ _) as [endpoint|] eqn:Ep; [|by apply (refused_dispatch j)].
  destruct (header_text (dj_tenant_id j)) eqn:Ht; [|by apply (refused_dispatch j)].
  destruct (header_text (dj_id j)) eqn:Hi; [|by apply (refused_dispatch j)].
  change (does (pr_bind (pr_send
      (fun i => mkDispatch (ce_url endpoint) (dj_tenant_id j) (dj_id j) (dispatch_body j) (os_http o i))
      (fun i => acknowledgement o (os_http o i)))
    (fun ack => pr_map_err (fun _ => "persist external notification acknowledgement")
       (pr_store (persist_channel_message j ack)))) (fun _ r l db => dispatched j r l db)).
  eapply does_bind with (Q := fun _ _ r l db => l = [] /\ (r = Ok tt -> messaged j db));
    [apply does_send|intros ack _ _ _ _; apply persist_does| |].
  - intros db0 l db m (i & -> & Hm). split; [|done]. right. exists endpoint, (os_http o i), db0.
    split_and!; try done.
  - intros db0 l1 db1 ack r l2 db2 (i & -> & Hm) [-> Hr]. split; [|done]. right.
    exists endpoint, (os_http o i), db0. split_and!; try done. intros _. by exists ack.
Qed.

Lemma dispatch_does j : does (dispatch_notification o s j) (fun _ r l db => dispatched j r l db).
Proof.
  unfold dispatch_notification. destruct (String.eqb_spec (dj_channel j) "in_app") as [Hc|].
  - eapply does_conseq; [apply persist_does|]. intros db0 r l db [-> Hr]. split; [by left|done].
  - destruct (one_of _ _) eqn:Ho; [by apply dispatch_external_does|apply refused_dispatch].
Qed.

(** A logged statement that is a step where it runs. *)
Lemma logged_does pre (body : Z -> NotifyDb -> result string (unit * NotifyDb)) :
  (forall db n now db', pre db -> body now (en_meanwhile e n db) = Ok (tt, db') ->
     step (en_meanwhile e n db) db') ->
  does_from pre (logged (pr_store body)) (fun _ _ l _ => l = []).
Proof.
  intros Hb. eapply does_from_match with (Q := fun _ _ _ _ l _ => l = []).
  - apply does_from_store. intros db n now db1 [] db' Hp -> H. by eapply Hb.
  - intros r l. apply does_from_any, does_nothing. done.
  - by intros db0 l1 db1 r0 r l2 db2 _ [-> _] ->.
Qed.

Lemma process_job_does j :
  does (process_job o s j) (fun _ _ l _ => job_sends j False l).
Proof.
  unfold process_job. destruct (job_context_headers (dj_carrier j)) as [h|m].
  - eapply does_from_true, does_from_match with (Q := fun _ _ _ _ l _ => l = []);
      [apply does_from_any, dispatch_does| |].
    + intros [[]|m] l.
      * apply logged_does. intros db n now db' (db0 & _ & _ & Hm) H. eapply NsDelivered; [|exact H].
        eapply messaged_later; [apply others_step|]. by apply Hm.
      * apply logged_does. intros db n now db' _ H. by eapply NsFailed.
    + intros db0 l1 db1 r0 r l2 db2 _ [Hs _] ->. rewrite app_nil_r.
      destruct Hs as [[-> _]|(endpoint & reply & db & -> & Hc & Hep & _)]; [by left|].
      right. exists endpoint, reply, db. by split_and!.
  - eapply does_from_true, does_from_conseq; [apply (logged_does (fun _ => True))|done|].
    + intros db n now db' _ H. by eapply NsQuarantined.
    + intros db0 r l db _ ->. by left.
Qed.

Lemma record_all_does rows : does (record_all_exhausted rows) (fun _ _ l _ => l = []).
Proof.
  induction rows as [|[k attempt] rest IH]; simpl; [by apply does_nothing|].
  eapply does_bind with (Q := fun _ _ _ l _ => l = []);
    [apply does_store; intros now db [] db' H; by eapply NsExhausted|by intros _ _ _ _ _| |].
  - by intros db0 l db m [-> _].
  - by intros db0 l1 db1 a r l2 db2 [-> _] ->.
Qed.

Lemma reclaim_does : does reclaim_exhausted (fun _ _ l _ => l = []).
Proof.
  unfold reclaim_exhausted. eapply does_bind with (Q := fun _ _ _ l _ => l = []);
    [apply does_store; intros now db rows db' H; by eapply NsRetire|intros rows _ _ _ _; apply record_all_does| |].
  - by intros db0 l db m [-> _].
  - by intros db0 l1 db1 a r l2 db2 [-> _] ->.
Qed.

Lemma claim_does : does (claim o) (fun _ r l _ => l = []).
Proof.
  intros w r w' H. unfold claim, pr_bind, pr_at in H.
  eapply (does_store step) in H as (M & l & L & -> & _); [by eauto|].
  intros now db found db' Hc. eapply NsClaim; [apply uuids_fresh|exact Hc].
Qed.

(** What a round sends: at most one request, for the job it found. *)
Lemma worker_round_does :
  does (worker_round o s) (fun _ r l _ =>
    l = [] \/ exists j, r = Ok (Some j) /\ job_sends j False l).
Proof.
  unfold worker_round. eapply does_match with (Q := fun _ _ _ r l _ =>
    l = [] \/ exists j, r = Ok (Some j) /\ job_sends j False l); [apply reclaim_does| |].
  - intros _ _ _ _ _. eapply does_bind with (Q := fun found _ r l _ =>
      match found with None => l = [] | Some j => r = Ok (Some j) /\ job_sends j False l end);
      [apply claim_does| | |].
    + intros [j|] _ _ _ _; [|by apply does_nothing].
      eapply does_match with (Q := fun _ _ _ r l _ => r = Ok (Some j) /\ l = []); [apply process_job_does| |].
      * intros r _ l _ _. by apply does_nothing.
      * intros db0 l1 db1 r0 r l2 db2 Hj [-> ->]. by rewrite app_nil_r.
    + intros db0 l db m ->. by left.
    + intros db0 l1 db1 [j|] r l2 db2 -> Hq; simpl; [right|by left]. by exists j.
  - intros db0 l1 db1 r0 r l2 db2 -> Hq. exact Hq.
Qed.

Lemma record_delivery_does request event_key payload h :
  text_headers h -> does (record_delivery o s request event_key payload h) (fun _ _ l _ => l = []).
Proof.
  intros Htext. unfold record_delivery.
  destruct (validate_durable_context h) as [[]|m] eqn:Hv; [|by apply does_nothing].
  destruct (nr_tenant_id request) as [tenant|]; [|by apply does_nothing].
  assert (Hc : carrier_ok (carrier_of h)).
  { destruct (recorded_carrier_ok h Hv Htext) as (tp & ts & bg & _ & Hj). by eexists. }
  intros w r w' H. unfold pr_bind, pr_lift, pr_at in H. simpl in H.
  destruct (acquired (os_acquire o (w_at w))) as [[]|m].
  2: { injection H as <- <-. split; [constructor|]. exists []. by rewrite app_nil_r. }
  destruct (pr_map_err StoreDatabase _ e w) as [r1 w1] eqn:Em.
  assert (Hd : does (pr_map_err StoreDatabase (pr_store (insert_delivery ("notification-" +:+ os_uuid o (w_at w))
      tenant event_key request payload (carrier_of h))) : Notifier StoreError Recorded) (fun _ _ l _ => l = [])).

  { eapply does_map_err; [apply does_store; intros; by eapply NsRecord|]. by intros db0 r0 l db [Hl _]. }
  apply Hd in Em as (M & l & L & ->).
  destruct r1 as [row|m]; [destruct (ensure _ _) as [[]|m]|]; injection H as <- <-; (split; [exact M|]);
    exists []; done.
Qed.

Lemma notify_does request h :
  text_headers h -> does (notify_inner o s request h) (fun _ _ l _ => l = []).
Proof.
  intros Htext. unfold notify_inner. destruct (resolve_http_tenant_identity _ _) as [tenant|m];
    [|by apply does_nothing]. destruct (_ || _); [by apply does_nothing|].
  eapply does_match with (Q := fun _ _ _ _ l _ => l = []); [by apply record_delivery_does| |].
  - intros r _ l _ _. by apply does_nothing.
  - by intros db0 l1 db1 r0 r l2 db2 -> ->.
Qed.

(** C17: the service refines its queue.  Every request to the endpoint and every
    round of the worker, whatever the faults of the database, the answers of the
    providers and the other processes, is a sequence of steps of the queue: in
    particular a delivery is marked delivered only when its channel message is
    stored, and recorded only with propagation the worker accepts. *)
Theorem notifications_are_steps w request h :
  text_headers h ->
  rtc step (w_store w) (w_store (worker_round o s e w).2)
  /\ rtc step (w_store w) (w_store (notify_inner o s request h e w).2).
Proof.
  intros Htext. split; apply moved_steps.
  - destruct (worker_round o s e w) as [r w'] eqn:Er. by apply worker_round_does in Er as [M _].
  - destruct (notify_inner o s request h e w) as [r w'] eqn:Er. by apply (notify_does _ _ Htext) in Er as [M _].
Qed.

(** a round of the worker sends at most one request, of the delivery it
    claimed, to the endpoint its payload or the configuration names, under the
    delivery's own idempotency key. *)
Theorem round_sends_once w r w' :
  worker_round o s e w = (r, w') ->
  exists l, w_log w' = w_log w ++ l
  /\ (l = [] \/ exists j endpoint reply db, r = Ok (Some j)
       /\ l = [(mkDispatch (ce_url endpoint) (dj_tenant_id j) (dj_id j) (dispatch_body j) reply, db)]
       /\ resolve_channel_endpoint (dj_channel j) (dj_payload j) s = Some endpoint).
Proof.
  intros (_ & l & L & Hl)%worker_round_does. exists l. split; [exact L|].
  destruct Hl as [->|(j & -> & [[-> _]|(endpoint & reply & db & -> & _ & Hep & _)])]; [by left..|].
  right. by exists j, endpoint, reply, db.
Qed.
End runs.

(** ** A worker alone: it claims the sample delivery and sends it *)

Definition willing_outside : Outside :=
  mkOutside (fun _ => Acquired) (fun i => "uuid-" +:+ show_Z (Z.of_nat i)) (fun _ _ => false)
    (fun _ => HttpStatus 200 (Some "ack-1")) (fun n => show_Z n) (fun _ _ => true)
    (fun n => Ok (seconds n)).
Definition sample_app : AppState := mkAppState (Some "http://hooks.test/notify") None.
Definition alone : Env NotifyDb := mkEnv (fun n => seconds (Z.of_nat n)) (fun _ => None) (fun _ db => db).
Definition queued_world : World NotifyDb Dispatch := mkWorld recorded_sample.2 0 [].
Definition sample_round : result string (option DeliveryJob) * World NotifyDb Dispatch :=
  worker_round willing_outside sample_app alone queued_world.

(** The round delivers it, with the provider's acknowledgement. *)
Example sample_round_delivers :
  map (fun d => (dp_url d.1, dp_idempotency_key d.1)) (w_log sample_round.2) = [("http://hooks.test/notify", "n-1")]
  /\ (dr_status <$> nd_deliveries (w_store sample_round.2) !! ("acme", "n-1")) = Some NDelivered
  /\ (mr_reference <$> nd_messages (w_store sample_round.2) !! ("acme", "n-1")) = Some "ack-1".
Proof. split_and!; vm_compute; reflexivity. Qed.

Lemma notifications_are_steps_witness :
  rtc (notify_step (fun _ => True)) (w_store queued_world) (w_store sample_round.2).
Proof.
  apply (notifications_are_steps willing_outside sample_app alone (fun _ => True) (fun n db => rtc_refl _ db)
           (fun _ => I) queued_world sample_request sample_durable_headers sample_headers_text).
Defined.

Lemma round_sends_once_witness :
  exists l, w_log sample_round.2 = w_log queued_world ++ l
  /\ (l = [] \/ exists j endpoint reply db, sample_round.1 = Ok (Some j)
       /\ l = [(mkDispatch (ce_url endpoint) (dj_tenant_id j) (dj_id j) (dispatch_body j) reply, db)]
       /\ resolve_channel_endpoint (dj_channel j) (dj_payload j) sample_app = Some endpoint).
Proof.
  apply (round_sends_once willing_outside sample_app alone (fun _ => True) (fun n db => rtc_refl _ db)
           (fun _ => I) queued_world). exact (surjective_pairing sample_round).
Defined.
