(* ===== verification/StoreDomain.v ===== *)
(** What the storefront makes of its downstreams' answers
    (services/storefront/src/domain.rs and the wire types of infrastructure.rs):
    the catalog's products, a quote, a cart, a checkout, an order, and the
    identifier of an analytics event. *)

From S2P Require Import Prelude Values Proto CheckoutDomain.
Import Text Serde Proto CheckoutDomain.

(** ** The catalog *)

Record CatalogCategory : Type := mkCatalogCategory {
  cc_id : string; cc_tenant_id : string; cc_slug : string; cc_name : string }.

Record CatalogPriceSnapshot : Type := mkCatalogPriceSnapshot {
  cp_id : string; cp_currency : string; cp_amount_minor : Z; cp_compare_at_minor : option Z;
  cp_valid_from : string }.

Record CatalogProductVariant : Type := mkCatalogProductVariant {
  gv_id : string; gv_tenant_id : string; gv_product_id : string; gv_sku : string; gv_name : string;
  gv_options : string; gv_price : option CatalogPriceSnapshot }.

Record CatalogReview : Type := mkCatalogReview {
  rw_id : string; rw_product_id : string; rw_title : string; rw_text : string; rw_stars : Z;
  rw_verified_purchase : bool; rw_created_at : string }.

(** [risk_score] is the number as it is written. *)
Record CatalogProduct : Type := mkCatalogProduct {
  cd_id : string; cd_tenant_id : string; cd_slug : string; cd_sku : string; cd_name : string;
  cd_description : string; cd_brand : option string; cd_category : CatalogCategory;
  cd_price_minor : option Z; cd_price : option CatalogPriceSnapshot;
  cd_variants : list CatalogProductVariant; cd_reviews : list CatalogReview;
  cd_reviews_slow : list CatalogReview; cd_risk_score : option json }.

Record CatalogProductPage : Type := mkCatalogProductPage {
  cg_items : list CatalogProduct; cg_page : Z; cg_size : Z; cg_total_elements : Z; cg_total_pages : Z;
  cg_has_next : bool; cg_experience : string }.

Definition read_category (v : json) : option CatalogCategory :=
  fields ← struct_with_defaults
    [("id", required); ("tenantId", required); ("slug", required); ("name", required)] v;
  match fields with
  | [JStr id; JStr tenant; JStr slug; JStr name] => Some (mkCatalogCategory id tenant slug name)
  | _ => None
  end.

Definition read_price (v : json) : option CatalogPriceSnapshot :=
  fields ← struct_with_defaults
    [("id", required); ("currency", required); ("amountMinor", required); ("compareAtMinor", optional);
     ("validFrom", required)] v;
  match fields with
  | [JStr id; JStr currency; amount; compare_at; JStr valid_from] =>
      amount ← decode_i32 amount;
      compare_at ← decode_option decode_i32 compare_at;
      Some (mkCatalogPriceSnapshot id currency amount compare_at valid_from)
  | _ => None
  end.

Definition read_variant (v : json) : option CatalogProductVariant :=
  fields ← struct_with_defaults
    [("id", required); ("tenantId", required); ("productId", required); ("sku", required);
     ("name", required); ("options", required); ("price", optional)] v;
  match fields with
  | [JStr id; JStr tenant; JStr product; JStr sku; JStr name; JStr options; price] =>
      price ← decode_option read_price price;
      Some (mkCatalogProductVariant id tenant product sku name options price)
  | _ => None
  end.

Definition read_review (v : json) : option CatalogReview :=
  fields ← struct_with_defaults
    [("id", required); ("productId", required); ("title", required); ("text", required);
     ("stars", required); ("verifiedPurchase", required); ("createdAt", required)] v;
  match fields with
  | [JStr id; JStr product; JStr title; JStr text; stars; JBool verified; JStr created_at] =>
      stars ← decode_i32 stars;
      Some (mkCatalogReview id product title text stars verified created_at)
  | _ => None
  end.

Definition read_product (v : json) : option CatalogProduct :=
  fields ← struct_with_defaults
    [("id", required); ("tenantId", required); ("slug", required); ("sku", required); ("name", required);
     ("description", required); ("brand", optional); ("category", required); ("priceMinor", optional);
     ("price", optional); ("variants", Some (JArr [])); ("reviews", Some (JArr []));
     ("reviewsSlow", Some (JArr [])); ("riskScore", optional)] v;
  match fields with
  | [JStr id; JStr tenant; JStr slug; JStr sku; JStr name; JStr description; brand; category;
     price_minor; price; variants; reviews; reviews_slow; risk] =>
      brand ← decode_option decode_str brand;
      category ← read_category category;
      price_minor ← decode_option decode_i32 price_minor;
      price ← decode_option read_price price;
      variants ← decode_vec read_variant variants;
      reviews ← decode_vec read_review reviews;
      reviews_slow ← decode_vec read_review reviews_slow;
      risk ← decode_option decode_f64 risk;
      Some (mkCatalogProduct id tenant slug sku name description brand category price_minor price
              variants reviews reviews_slow risk)
  | _ => None
  end.

Definition read_page (v : json) : option CatalogProductPage :=
  fields ← struct_with_defaults
    [("items", required); ("page", required); ("size", required); ("totalElements", required);
     ("totalPages", required); ("hasNext", required); ("experience", required)] v;
  match fields with
  | [items; page; size; elements; pages; JBool has_next; JStr experience] =>
      items ← decode_vec read_product items;
      page ← decode_i32 page;
      size ← decode_i32 size;
      elements ← decode_i32 elements;
      pages ← decode_i32 pages;
      Some (mkCatalogProductPage items page size elements pages has_next experience)
  | _ => None
  end.

(** ** What is shown of it *)

Record Category : Type := mkCategory {
  ca_id : string; ca_tenant_id : string; ca_slug : string; ca_name : string }.
Record PriceSnapshot : Type := mkPriceSnapshot {
  sn_id : string; sn_currency : string; sn_amount_minor : Z; sn_compare_at_minor : option Z;
  sn_valid_from : string }.
Record ProductVariant : Type := mkProductVariant {
  va_id : string; va_tenant_id : string; va_product_id : string; va_sku : string; va_name : string;
  va_options : string; va_price : option PriceSnapshot }.
Record Review : Type := mkReview {
  re_id : string; re_product_id : string; re_title : string; re_text : string; re_stars : Z;
  re_verified_purchase : bool; re_created_at : string }.
Record Product : Type := mkProduct {
  pt_id : string; pt_tenant_id : string; pt_slug : string; pt_sku : string; pt_name : string;
  pt_description : string; pt_brand : option string; pt_category : Category;
  pt_price_minor : option Z; pt_price : option PriceSnapshot; pt_variants : list ProductVariant;
  pt_reviews : list Review; pt_reviews_slow : list Review; pt_risk_score : option json }.
Record ProductPage : Type := mkProductPage {
  pg_items : list Product; pg_page : Z; pg_size : Z; pg_total_elements : Z; pg_total_pages : Z;
  pg_has_next : bool; pg_experience : string }.
Record PriceChange : Type := mkPriceChange {
  ch_product : Product; ch_variant : ProductVariant; ch_price : PriceSnapshot; ch_observed_at : string }.

Definition category_from_catalog (v : CatalogCategory) : Category :=
  mkCategory (cc_id v) (cc_tenant_id v) (cc_slug v) (cc_name v).
Definition price_from_catalog (v : CatalogPriceSnapshot) : PriceSnapshot :=
  mkPriceSnapshot (cp_id v) (cp_currency v) (cp_amount_minor v) (cp_compare_at_minor v) (cp_valid_from v).
Definition variant_from_catalog (v : CatalogProductVariant) : ProductVariant :=
  mkProductVariant (gv_id v) (gv_tenant_id v) (gv_product_id v) (gv_sku v) (gv_name v) (gv_options v)
    (price_from_catalog <$> gv_price v).
Definition review_from_catalog (v : CatalogReview) : Review :=
  mkReview (rw_id v) (rw_product_id v) (rw_title v) (rw_text v) (rw_stars v) (rw_verified_purchase v)
    (rw_created_at v).
Definition product_from_catalog (v : CatalogProduct) : Product :=
  mkProduct (cd_id v) (cd_tenant_id v) (cd_slug v) (cd_sku v) (cd_name v) (cd_description v) (cd_brand v)
    (category_from_catalog (cd_category v)) (cd_price_minor v) (price_from_catalog <$> cd_price v)
    (map variant_from_catalog (cd_variants v)) (map review_from_catalog (cd_reviews v))
    (map review_from_catalog (cd_reviews_slow v)) (cd_risk_score v).
Definition page_from_catalog (v : CatalogProductPage) : ProductPage :=
  mkProductPage (map product_from_catalog (cg_items v)) (cg_page v) (cg_size v) (cg_total_elements v)
    (cg_total_pages v) (cg_has_next v) (cg_experience v).

(** ** Quotes *)

Record Money : Type := mkMoney { sm_currency_code : string; sm_amount_minor : Z }.
Record QuoteLine : Type := mkQuoteLine {
  sl_sku : string; sl_quantity : Z; sl_unit_price : option Money; sl_line_total : option Money }.
Record Quote : Type := mkQuote {
  sq_quote_id : string; sq_status : string; sq_lines : list QuoteLine; sq_subtotal : option Money;
  sq_discount_total : option Money; sq_tax_total : option Money; sq_grand_total : option Money;
  sq_valid_for_seconds : Z; sq_pricing_version : string }.

(** [currency.len() != 3 || ...], as three places of the storefront check it *)
Definition three_letters (currency : string) : bool :=
  (str_len currency =? 3) && String.eqb currency (to_ascii_uppercase currency)
  && str_forallb is_alphabetic currency.

Definition money_from_proto (m : Proto.Money) : Money := mkMoney (currency_code m) (amount_minor m).

Local Open Scope result_scope.

Definition required_money (value : option Proto.Money) (name : string) : result string Money :=
  money <- ok_or value ("quote " +:+ name +:+ " is missing") ;;
  ensure (three_letters (currency_code money) && negb (amount_minor money <? 0))
    ("quote " +:+ name +:+ " is invalid") ;;
  Ok (money_from_proto money).

Definition line_try_from_proto (value : Proto.QuoteLine) : result string QuoteLine :=
  ensure (negb (is_blank (ql_sku value)) && negb (ql_quantity value =? 0))
    "quote line identity or quantity is invalid" ;;
  unit_price <- required_money (ql_unit_price value) "line unit_price" ;;
  line_total <- required_money (ql_line_total value) "line line_total" ;;
  ensure (String.eqb (sm_currency_code unit_price) (sm_currency_code line_total)
          && bool_decide (checked_mul (sm_amount_minor unit_price) (ql_quantity value)
                          = Some (sm_amount_minor line_total)))
    "quote line amount does not match quantity" ;;
  quantity <- ok_or (if fits_i32 (ql_quantity value) then Some (ql_quantity value) else None)
                "quote quantity exceeds GraphQL Int" ;;
  Ok (mkQuoteLine (ql_sku value) quantity (Some unit_price) (Some line_total)).

(** [iter().map(f).collect::<Result<Vec<_>>>()] *)
Fixpoint collect {A B} (f : A -> result string B) (l : list A) : result string (list B) :=
  match l with
  | [] => Ok []
  | a :: rest => b <- f a ;; bs <- collect f rest ;; Ok (b :: bs)
  end.

(** The [try_fold] over the lines *)
Fixpoint line_subtotal (lines : list QuoteLine) (total : Z) : result string Z :=
  match lines with
  | [] => Ok total
  | line :: rest =>
      line_total <- ok_or (sl_line_total line) "quote line total is missing" ;;
      total <- ok_or (checked_add total (sm_amount_minor line_total)) "quote subtotal overflowed" ;;
      line_subtotal rest total
  end.

Definition quote_try_from_proto (value : QuoteResponse) : result string Quote :=
  ensure ((0 <=? qp_status value) && (qp_status value <=? 3)) "quote status is invalid" ;;
  ensure (qp_status value =? QuoteStatus_Ready) "quote is not ready" ;;
  ensure (negb (is_blank (qp_quote_id value) || is_blank (qp_pricing_version value)))
    "quote identity is incomplete" ;;
  ensure (negb (qp_valid_for_seconds value =? 0)) "quote expiration is missing" ;;
  ensure (negb (bool_decide (qp_lines value = [])) && (Z.of_nat (length (qp_lines value)) <=? 50))
    "quote line count is invalid" ;;
  lines <- collect line_try_from_proto (qp_lines value) ;;
  subtotal <- required_money (qp_subtotal value) "subtotal" ;;
  discount <- required_money (qp_discount_total value) "discount_total" ;;
  tax <- required_money (qp_tax_total value) "tax_total" ;;
  grand <- required_money (qp_grand_total value) "grand_total" ;;
  ensure (forallb (fun m => String.eqb (sm_currency_code m) (sm_currency_code subtotal)) [discount; tax; grand])
    "quote currencies do not match" ;;
  sum <- line_subtotal lines 0 ;;
  ensure ((sum =? sm_amount_minor subtotal) && (sm_amount_minor discount <=? sm_amount_minor subtotal))
    "quote totals do not match quote lines" ;;
  expected <- ok_or (match checked_sub (sm_amount_minor subtotal) (sm_amount_minor discount) with
                     | Some total => checked_add total (sm_amount_minor tax)
                     | None => None
                     end) "quote total arithmetic overflowed" ;;
  ensure (expected =? sm_amount_minor grand) "quote totals do not balance" ;;
  valid_for <- ok_or (if fits_i32 (qp_valid_for_seconds value) then Some (qp_valid_for_seconds value) else None)
                 "quote validity exceeds GraphQL Int" ;;
  Ok (mkQuote (qp_quote_id value) "QUOTE_STATUS_READY" lines (Some subtotal) (Some discount) (Some tax)
        (Some grand) valid_for (qp_pricing_version value)).

(** ** Fields of a downstream's answer *)

Definition required_string_field (value : json) (name : string) : result string string :=
  match jget name value with
  | Some (JStr field) => if is_blank field then Err (name +:+ " is empty") else Ok field
  | Some JNull | None => Err (name +:+ " is missing")
  | Some _ => Err (name +:+ " is not a string")
  end.

Definition optional_string_field (value : json) (name : string) : result string (option string) :=
  match jget name value with
  | None | Some JNull => Ok None
  | Some (JStr field) => if is_blank field then Err (name +:+ " is empty") else Ok (Some field)
  | Some _ => Err (name +:+ " is not a string")
  end.

(** [as_i64] or else [as_u64] *)
Definition as_integer (number : Z) : option Z :=
  if fits_i64 number then Some number
  else if (0 <=? number) && (number <? u64_modulus) then Some number else None.

Definition optional_numeric_string_field (value : json) (name : string) : result string (option string) :=
  match jget name value with
  | None | Some JNull => Ok None
  | Some (JNum number) =>
      number <- ok_or (as_integer number) (name +:+ " is not an integer") ;; Ok (Some (show_Z number))
  | Some (JReal _) => Err (name +:+ " is not an integer")
  | Some (JStr field) =>
      number <- ok_or (parse_i64 field) (name +:+ " is not an integer") ;; Ok (Some (show_Z number))
  | Some _ => Err (name +:+ " is not numeric")
  end.

Definition required_numeric_string_field (value : json) (name : string) : result string string :=
  field <- optional_numeric_string_field value name ;;
  ok_or field (name +:+ " is missing").

Definition optional_timestamp_string_field (value : json) (name : string) : result string (option string) :=
  match jget name value with
  | None | Some JNull => Ok None
  | Some (JStr field) => if is_blank field then Err (name +:+ " is empty") else Ok (Some field)
  | Some (JNum number) =>
      number <- ok_or (as_integer number) (name +:+ " is not a timestamp") ;; Ok (Some (show_Z number))
  | Some _ => Err (name +:+ " is not a timestamp")
  end.

Definition required_i32_field (value : json) (name : string) : result string Z :=
  field <- ok_or (jget name value) (name +:+ " is missing") ;;
  match field with
  | JNum number => ok_or (decode_i32 (JNum number)) (name +:+ " is not a 32-bit integer")
  | JReal _ => Err (name +:+ " is not a 32-bit integer")
  | JStr field => ok_or (parse_i32 field) (name +:+ " is not a 32-bit integer")
  | _ => Err (name +:+ " is not an integer")
  end.

Definition u64_field (value : json) (name : string) : option Z :=
  match jget name value ≫= decode_u64 with
  | Some n => Some n
  | None => jget_str name value ≫= parse_u64
  end.

(** ** Carts, checkouts and orders *)

Record CartItem : Type := mkCartItem {
  ki_sku : string; ki_product_name : string; ki_quantity : Z; ki_unit_price_minor : Z;
  ki_line_total_minor : Z }.
Record Cart : Type := mkCart {
  sk_id : string; sk_status : string; sk_currency : string; sk_items : list CartItem }.
Record CartItemAdded : Type := mkCartItemAdded {
  kd_cart_id : string; kd_sku : string; kd_quantity_added : Z; kd_unit_price_minor : Z }.

Definition read_cart_item (v : json) : option CartItem :=
  (fields ← struct_with_defaults
    [("sku", required); ("product_name", required); ("quantity", required);
     ("unit_price_minor", required); ("line_total_minor", required)] v;
  match fields with
  | [JStr sku; JStr name; quantity; unit_price; line_total] =>
      quantity ← decode_i32 quantity;
      unit_price ← decode_i32 unit_price;
      line_total ← decode_i32 line_total;
      Some (mkCartItem sku name quantity unit_price line_total)
  | _ => None
  end)%stdpp.

Definition read_cart (v : json) : option Cart :=
  (fields ← struct_with_defaults
    [("id", required); ("status", required); ("currency", required); ("items", required)] v;
  match fields with
  | [JStr id; JStr status; JStr currency; items] =>
      items ← decode_vec read_cart_item items;
      Some (mkCart id status currency items)
  | _ => None
  end)%stdpp.

Definition read_item_added (v : json) : option CartItemAdded :=
  (fields ← struct_with_defaults
    [("cart_id", required); ("sku", required); ("quantity_added", required); ("unit_price_minor", required)] v;
  match fields with
  | [JStr cart; JStr sku; quantity; unit_price] =>
      quantity ← decode_i32 quantity;
      unit_price ← decode_i32 unit_price;
      Some (mkCartItemAdded cart sku quantity unit_price)
  | _ => None
  end)%stdpp.

Definition item_added_from_value (value : json) : result string CartItemAdded :=
  ok_or (read_item_added value) "cart item add returned an invalid durable cart payload".

Record CheckoutResult : Type := mkCheckoutResult {
  kr_order_id : option string; kr_status : option string; kr_payment_status : option string;
  kr_currency : option string; kr_total_minor : option string; kr_event_key : option string;
  kr_feature_variant : option string }.

Definition checkout_result_try_from_value (value : json) : result string CheckoutResult :=
  order_id <- required_string_field value "order_id" ;;
  status <- required_string_field value "status" ;;
  payment_status <- optional_string_field value "payment_status" ;;
  currency <- optional_string_field value "currency" ;;
  total_minor <- optional_numeric_string_field value "total_minor" ;;
  event_key <- optional_string_field value "event_key" ;;
  feature_variant <- optional_string_field value "feature_variant" ;;
  Ok (mkCheckoutResult (Some order_id) (Some status) payment_status currency total_minor event_key
        feature_variant).

Record OrderItem : Type := mkOrderItem {
  si_sku : string; si_product_name : option string; si_quantity : Z; si_unit_price_minor : option string;
  si_discount_minor : option string; si_line_total_minor : option string }.

Record Order : Type := mkOrder {
  so_id : string; so_order_number : string; so_tenant_id : option string; so_customer_id : option string;
  so_status : option string; so_payment_status : option string; so_currency : option string;
  so_subtotal_minor : option string; so_discount_minor : option string; so_tax_minor : option string;
  so_shipping_minor : option string; so_total_minor : option string; so_created_at : option string;
  so_items : list OrderItem }.

Definition order_item_try_from_value (value : json) : result string OrderItem :=
  quantity <- required_i32_field value "quantity" ;;
  ensure (negb (quantity <=? 0)) "order item quantity must be positive" ;;
  sku <- required_string_field value "sku" ;;
  product_name <- optional_string_field value "product_name" ;;
  unit_price_minor <- required_numeric_string_field value "unit_price_minor" ;;
  discount_minor <- required_numeric_string_field value "discount_minor" ;;
  line_total_minor <- required_numeric_string_field value "line_total_minor" ;;
  Ok (mkOrderItem sku product_name quantity (Some unit_price_minor) (Some discount_minor)
        (Some line_total_minor)).

Definition order_items (value : json) : result string (list OrderItem) :=
  match jget "items" value with
  | None => Ok []
  | Some (JArr values) => collect order_item_try_from_value values
  | Some JNull => Err "order payload items are null"
  | Some _ => Err "order payload items are not an array"
  end.

Definition order_try_from_value (value : json) : result string Order :=
  id <- (match jget "id" value with
         | Some _ => required_string_field value "id"
         | None => required_string_field value "order_id"
         end) ;;
  items <- order_items value ;;
  order_number <- required_string_field value "order_number" ;;
  tenant_id <- required_string_field value "tenant_id" ;;
  customer_id <- required_string_field value "customer_id" ;;
  status <- required_string_field value "status" ;;
  payment_status <- optional_string_field value "payment_status" ;;
  currency <- required_string_field value "currency" ;;
  subtotal_minor <- optional_numeric_string_field value "subtotal_minor" ;;
  discount_minor <- optional_numeric_string_field value "discount_minor" ;;
  tax_minor <- optional_numeric_string_field value "tax_minor" ;;
  shipping_minor <- optional_numeric_string_field value "shipping_minor" ;;
  total_minor <- optional_numeric_string_field value "total_minor" ;;
  created_at <- optional_timestamp_string_field value "created_at" ;;
  Ok (mkOrder id order_number (Some tenant_id) (Some customer_id) (Some status) payment_status
        (Some currency) subtotal_minor discount_minor tax_minor shipping_minor total_minor created_at items).

(** [order_list_from_value] of application.rs: every order must be in scope. *)
Definition in_scope (tenant : string) (customer : option string) (o : Order) : bool :=
  opt_is (so_tenant_id o) tenant
  && match customer with Some c => opt_is (so_customer_id o) c | None => true end.

Definition order_list_from_value (value : json) (tenant : string) (customer : option string) :
    result string (list Order) :=
  values <- ok_or (match value with
                   | JArr values => Some values
                   | _ => match jget "orders" value with Some (JArr values) => Some values | _ => None end
                   end) "order query returned no order list" ;;
  orders <- collect order_try_from_value values ;;
  ensure (forallb (in_scope tenant customer) orders) "order list contains an out-of-scope identity" ;;
  Ok orders.

(** The derived encodings *)
Definition order_item_json (i : OrderItem) : json :=
  JObj [("sku", JStr (si_sku i)); ("product_name", option_json (si_product_name i));
        ("quantity", JNum (si_quantity i)); ("unit_price_minor", option_json (si_unit_price_minor i));
        ("discount_minor", option_json (si_discount_minor i));
        ("line_total_minor", option_json (si_line_total_minor i))].

Definition order_json (o : Order) : json :=
  JObj [("id", JStr (so_id o)); ("order_number", JStr (so_order_number o));
        ("tenant_id", option_json (so_tenant_id o)); ("customer_id", option_json (so_customer_id o));
        ("status", option_json (so_status o)); ("payment_status", option_json (so_payment_status o));
        ("currency", option_json (so_currency o)); ("subtotal_minor", option_json (so_subtotal_minor o));
        ("discount_minor", option_json (so_discount_minor o)); ("tax_minor", option_json (so_tax_minor o));
        ("shipping_minor", option_json (so_shipping_minor o)); ("total_minor", option_json (so_total_minor o));
        ("created_at", option_json (so_created_at o)); ("items", JArr (map order_item_json (so_items o)))].

(** ** Analytics *)

Record AnalyticsEvent : Type := mkAnalyticsEvent {
  ae_event_id : string; ae_tenant_id : string; ae_event_key : string; ae_customer_id : option string;
  ae_event_name : string; ae_event_version : Z; ae_source : string; ae_entity_type : string;
  ae_entity_id : string; ae_occurred_at : string; ae_trace_id : string; ae_span_id : string;
  ae_traceparent : string; ae_tracestate : string; ae_baggage : string; ae_feature_variant : string;
  ae_properties : string; ae_context : string }.

Definition read_analytics_event (v : json) : option AnalyticsEvent :=
  (fields ← struct_with_defaults
    [("event_id", required); ("tenant_id", required); ("event_key", required); ("customer_id", optional);
     ("event_name", required); ("event_version", required); ("source", required); ("entity_type", required);
     ("entity_id", required); ("occurred_at", required); ("trace_id", required); ("span_id", required);
     ("traceparent", required); ("tracestate", required); ("baggage", required);
     ("feature_variant", required); ("properties", required); ("context", required)] v;
  match fields with
  | [JStr id; JStr tenant; JStr key; customer; JStr name; version; JStr source; JStr entity_type;
     JStr entity_id; JStr occurred_at; JStr trace_id; JStr span_id; JStr traceparent; JStr tracestate;
     JStr baggage; JStr variant; JStr properties; JStr context] =>
      customer ← decode_option decode_str customer;
      version ← decode_i32 version;
      Some (mkAnalyticsEvent id tenant key customer name version source entity_type entity_id occurred_at
              trace_id span_id traceparent tracestate baggage variant properties context)
  | _ => None
  end)%stdpp.

Definition event_identity (tenant event_key : string) : string :=
  "parallax.analytics.v1" +:+ String (ascii_of_N 0) (tenant +:+ String (ascii_of_N 0) event_key).

Definition set_bits (mask bits : Z) (b : ascii) : ascii :=
  ascii_of_N (Z.to_N (Z.lor (Z.land (Z.of_N (byte_of b)) mask) bits)).

(** The first sixteen bytes of the digest with the version and the variant of a
    UUID; [sha256] is the digest, [uuid_text] the text of sixteen bytes. *)
Definition event_uuid_bytes (digest : string) : list ascii :=
  let bytes := firstn 16 (list_ascii_of_string digest) in
  alter (set_bits 63 128) 8%nat (alter (set_bits 15 80) 6%nat bytes).

Definition deterministic_event_id (sha256 : string -> string) (uuid_text : list ascii -> string)
    (tenant event_key : string) : string :=
  uuid_text (event_uuid_bytes (sha256 (event_identity tenant event_key))).

Local Close Scope result_scope.
