(* ===== verification/StoreUpstream.v ===== *)
(** The storefront's side of an upstream call: the request context, the errors a user may see
    and the client. *)

From S2P Require Import Prelude Values Proto Propagation CheckoutDomain StoreDomain.

(** The context of a storefront request (services/storefront/src/application.rs):
    whose request it is, the business context it carries, what its downstreams
    are sent of both, and the validation of its inputs. *)
Module StoreContext.

Import Text Serde Propagation Proto CheckoutDomain StoreDomain.

Definition MAX_CART_ITEM_QUANTITY : Z := 100.
Definition STOREFRONT_REQUEST_TIMEOUT : Z := seconds 10.
Definition DOWNSTREAM_REQUEST_TIMEOUT : Z := seconds 4.

Record StoreContext : Type := mkStoreContext {
  st_catalog_url : string; st_pricing_endpoint : string; st_checkout_endpoint : string;
  st_clickhouse_url : string; st_clickhouse_user : option string; st_clickhouse_password : option string;
  st_propagation : Context; st_inbound_tenant_id : option string; st_inbound_tenant_error : option string;
  st_inbound_session_id : option string; st_request_deadline : option Z }.

Definition with_inbound (s : StoreContext) (propagation : Context) (tenant session : option string) :
    StoreContext :=
  mkStoreContext (st_catalog_url s) (st_pricing_endpoint s) (st_checkout_endpoint s) (st_clickhouse_url s)
    (st_clickhouse_user s) (st_clickhouse_password s) propagation tenant (st_inbound_tenant_error s)
    session (st_request_deadline s).

Definition with_request (s : StoreContext) (tenant tenant_error : option string) (deadline : option Z) :
    StoreContext :=
  mkStoreContext (st_catalog_url s) (st_pricing_endpoint s) (st_checkout_endpoint s) (st_clickhouse_url s)
    (st_clickhouse_user s) (st_clickhouse_password s) (st_propagation s) tenant tenant_error
    (st_inbound_session_id s) deadline.

Definition baggage_or (c : Context) (key default_value : string) : string :=
  default default_value (baggage_get c key).

(** The four business attributes with their defaults *)
Definition business_entries (c : Context) : list (string * string) :=
  [(USER_TIER, baggage_or c USER_TIER "standard");
   ("customer.segment", baggage_or c "customer.segment" "standard");
   ("region", baggage_or c "region" "us-east-1");
   ("request.priority", baggage_or c "request.priority" "normal")].

Section tracing.
(** OpenTelemetry's [SpanContext::is_valid] *)
Variable span_valid : Context -> bool.

(** [span]: the context of the current span *)
Definition with_request_context (s : StoreContext) (span inbound : Context) : StoreContext :=
  let inbound := sanitize_context inbound in
  let base := if span_valid span then span else inbound in
  with_inbound s (extend_baggage (with_safe_parent_baggage base inbound) (business_entries inbound))
    (non_empty (baggage_get inbound TENANT_ID)) (non_empty (baggage_get inbound "session.id")).

Definition tenant_error_text (e : TenantIdentityError) : string :=
  match e with
  | TenantMissing => "tenant identity is required"
  | TenantInvalid => "tenant identity is invalid"
  | TenantConflicting => "tenant identity sources conflict"
  end.

(** [inbound]: what the propagator extracts from the headers *)
Definition for_request (s : StoreContext) (span inbound : Context) (h : headers) (now : Z) : StoreContext :=
  let '(tenant, error) :=
    match resolve_http_tenant_identity h None with
    | Ok tenant => (Some tenant, None)
    | Err TenantMissing => (None, None)
    | Err e => (None, Some (tenant_error_text e))
    end in
  with_request (with_request_context s span inbound) tenant error
    (Some (now + STOREFRONT_REQUEST_TIMEOUT)).

Local Open Scope result_scope.

Definition remaining_timeout (s : StoreContext) (operation : string) (now : Z) : result string Z :=
  let left := match st_request_deadline s with
              | Some deadline => Z.max 0 (deadline - now)
              | None => DOWNSTREAM_REQUEST_TIMEOUT
              end in
  let timeout := Z.min left DOWNSTREAM_REQUEST_TIMEOUT in
  ensure (negb (timeout =? 0)) (operation +:+ " exceeded the storefront request deadline") ;;
  Ok timeout.

(** ** Identity *)

Definition validate_identity_component (value name : string) : result string unit :=
  ensure (negb (is_blank value || (128 <? str_len value) || has_control value)) (name +:+ " is invalid").

(** [map(str::trim).filter(|value| !value.is_empty())] *)
Definition trimmed (o : option string) : option string := non_empty (trim <$> o).

Definition or_else {A} (a b : option A) : option A := match a with Some _ => a | None => b end.

Definition resolve_tenant_id (s : StoreContext) (requested : option string) : result string string :=
  match st_inbound_tenant_error s with
  | Some error => Err error
  | None =>
      let requested := trimmed requested in
      let propagated := st_inbound_tenant_id s in
      ensure (negb (disagree requested propagated))
        "tenant identity conflicts with propagated request identity" ;;
      tenant <- ok_or (or_else requested propagated)
                  "tenant_id is required in the request or tenant.id baggage" ;;
      validate_identity_component tenant "tenant_id" ;;
      Ok tenant
  end.

Definition resolve_session_id (s : StoreContext) (requested : option string) : result string (option string) :=
  let requested := trimmed requested in
  match requested with
  | Some value => validate_identity_component value "session_id"
  | None => Ok tt
  end ;;
  let propagated := st_inbound_session_id s in
  ensure (negb (disagree requested propagated))
    "session identity conflicts with propagated request identity" ;;
  Ok (or_else requested propagated).

Record CommerceIdentity : Type := mkCommerceIdentity {
  id_tenant_id : string; id_customer_id : string; id_session_id : option string }.

(** [uuid]: the text of a new UUID *)
Definition resolve_identity (s : StoreContext) (tenant customer session : option string)
    (require_session : bool) (uuid : string) : result string CommerceIdentity :=
  tenant <- resolve_tenant_id s tenant ;;
  customer <- ok_or (trimmed customer) "customer_id is required" ;;
  validate_identity_component customer "customer_id" ;;
  session <- resolve_session_id s session ;;
  let session := match session with
                 | Some session => Some session
                 | None => if require_session then Some ("session-" +:+ uuid) else None
                 end in
  match session with
  | Some session => validate_identity_component session "session_id"
  | None => Ok tt
  end ;;
  Ok (mkCommerceIdentity tenant customer session).

Definition context_for_identity (s : StoreContext) (identity : CommerceIdentity) : Context :=
  extend_baggage (st_propagation s)
    ((TENANT_ID, id_tenant_id identity)
     :: match id_session_id identity with Some session => [("session.id", session)] | None => [] end).

(** The business context of [propagation] on the active span, for a tenant *)
Definition on_active_span (active propagation : Context) (tenant : string) : Context :=
  if span_valid active then
    with_business_context_from_parent active propagation tenant
      (baggage_or propagation USER_TIER "standard") (baggage_or propagation "customer.segment" "standard")
      (baggage_or propagation "region" "us-east-1") (baggage_or propagation "request.priority" "normal")
  else propagation.

Definition outbound_context_for_identity (s : StoreContext) (active : Context) (identity : CommerceIdentity) :
    Context :=
  on_active_span active (context_for_identity s identity) (id_tenant_id identity).

Definition outbound_context_for_tenant (s : StoreContext) (active : Context) (tenant : string) :
    result string Context :=
  tenant <- resolve_tenant_id s (Some tenant) ;;
  Ok (on_active_span active (extend_baggage (st_propagation s) [(TENANT_ID, tenant)]) tenant).

Definition outbound_context (s : StoreContext) (active : Context) : Context :=
  if span_valid active then
    extend_baggage (with_safe_parent_baggage active (st_propagation s)) (business_entries (st_propagation s))
  else st_propagation s.
End tracing.

(** ** The business context *)

Record ValidatedBusinessContext : Type := mkBusinessContext {
  bc_segment : string; bc_tier : string; bc_region : string; bc_priority : string;
  bc_pricing_strategy : string; bc_promotion_code : option string; bc_payment_method_type : Z }.

Record BusinessContextInput : Type := mkBusinessContextInput {
  bi_segment : option string; bi_tier : option string; bi_region : option string; bi_priority : option string;
  bi_pricing_strategy : option string; bi_promotion_code : option string;
  bi_payment_method_type : option string }.

Definition payment_method_type_name (method : Z) : string :=
  match method with 2 => "bank_account" | 3 => "wallet" | _ => "card" end.

Definition parse_payment_method_type (value : string) : result string Z :=
  let normalized := to_ascii_lowercase value in
  if String.eqb normalized "card" then Ok PaymentMethodType_Card
  else if one_of normalized ["bank_account"; "bank-account"] then Ok PaymentMethodType_BankAccount
  else if String.eqb normalized "wallet" then Ok PaymentMethodType_Wallet
  else Err ("unsupported payment method type: " +:+ value).

Local Open Scope result_scope.

Definition validated_context_value (override : option string) (c : Context)
    (baggage_key default_value name : string) : result string string :=
  let value := match override with
               | Some value => trim value
               | None => trim (baggage_or c baggage_key default_value)
               end in
  validate_identity_component value name ;;
  Ok value.

Definition validated_business_context (c : Context) (input : BusinessContextInput) :
    result string ValidatedBusinessContext :=
  segment <- validated_context_value (bi_segment input) c "customer.segment" "standard" "segment" ;;
  tier <- validated_context_value (bi_tier input) c USER_TIER "standard" "tier" ;;
  region <- validated_context_value (bi_region input) c "region" "us-east-1" "region" ;;
  priority <- validated_context_value (bi_priority input) c "request.priority" "normal" "priority" ;;
  let promotion := trimmed (bi_promotion_code input) in
  match promotion with
  | Some value => validate_identity_component value "promotion_code"
  | None => Ok tt
  end ;;
  let strategy := match trimmed (bi_pricing_strategy input) with
                  | Some strategy => strategy
                  | None => if promotion then "promotional" else "standard"
                  end in
  ensure (one_of strategy ["standard"; "promotional"]) "pricing_strategy is not supported" ;;
  ensure (negb (bool_decide (is_Some promotion) && negb (String.eqb strategy "promotional")))
    "pricing_strategy must be promotional when promotion_code is supplied" ;;
  ensure (negb (bool_decide (promotion = None) && String.eqb strategy "promotional"))
    "promotion_code is required for promotional pricing_strategy" ;;
  method <- parse_payment_method_type (default "card" (bi_payment_method_type input)) ;;
  Ok (mkBusinessContext segment tier region priority strategy promotion method).

Definition pricing_context (b : ValidatedBusinessContext) : gmap string string :=
  let context : gmap string string :=
    list_to_map [("customer_segment", bc_segment b); ("customer_tier", bc_tier b); ("region", bc_region b);
                 ("request_priority", bc_priority b); ("pricing_strategy", bc_pricing_strategy b);
                 ("payment_method_type", payment_method_type_name (bc_payment_method_type b))] in
  match bc_promotion_code b with
  | Some code => <["promotion_code" := code]> context
  | None => context
  end.

Definition apply_to_context (b : ValidatedBusinessContext) (c : Context) : Context :=
  extend_baggage c [(USER_TIER, bc_tier b); ("customer.segment", bc_segment b); ("region", bc_region b);
                    ("request.priority", bc_priority b)].

(** ** Inputs *)

Record CartItemInput : Type := mkCartItemInput { ci_sku : string; ci_quantity : Z }.

(** The loop over the items, with the SKUs seen so far *)
Fixpoint validate_item_list (items : list CartItemInput) (skus : list string) (operation : string) :
    result string unit :=
  match items with
  | [] => Ok tt
  | item :: rest =>
      validate_identity_component (ci_sku item) "sku" ;;
      ensure (negb ((ci_quantity item <=? 0) || (MAX_CART_ITEM_QUANTITY <? ci_quantity item)))
        (operation +:+ " item quantity must be between 1 and " +:+ show_Z MAX_CART_ITEM_QUANTITY) ;;
      ensure (negb (one_of (ci_sku item) skus)) (operation +:+ " SKUs must be unique") ;;
      validate_item_list rest (ci_sku item :: skus) operation
  end.

Definition validate_items (items : list CartItemInput) (operation : string) : result string unit :=
  ensure (negb (bool_decide (items = [])) && (Z.of_nat (length items) <=? 50))
    (operation +:+ " requires at least one item") ;;
  validate_item_list items [] operation.

Definition validate_currency_code (value : string) : result string unit :=
  ensure (three_letters value) "currency_code must be a three-letter uppercase code".

Record AddCartItemInput : Type := mkAddCartItemInput {
  ai_sku : string; ai_quantity : Z; ai_tenant_id : option string; ai_customer_id : option string;
  ai_cart_id : option string; ai_session_id : option string; ai_currency_code : option string }.

Definition validate_add_cart_item_input (input : AddCartItemInput) : result string unit :=
  ensure (negb ((ai_quantity input <=? 0) || (MAX_CART_ITEM_QUANTITY <? ai_quantity input)))
    ("cart item needs a SKU and quantity between 1 and " +:+ show_Z MAX_CART_ITEM_QUANTITY) ;;
  validate_identity_component (ai_sku input) "sku" ;;
  currency <- ok_or (non_blank (ai_currency_code input)) "currency_code is required" ;;
  validate_currency_code currency.

Record AnalyticsInput : Type := mkAnalyticsInput {
  an_tenant_id : string; an_event_key : string; an_event_name : string; an_entity_type : string;
  an_entity_id : string; an_customer_id : option string; an_session_id : option string;
  an_occurred_at : string; an_properties : option string; an_context : option string }.

Fixpoint require_all (fields : list (string * string)) : result string unit :=
  match fields with
  | [] => Ok tt
  | (name, value) :: rest => ensure (negb (is_blank value)) (name +:+ " is required") ;; require_all rest
  end.

Definition validate_analytics_input (input : AnalyticsInput) : result string unit :=
  require_all [("tenant_id", an_tenant_id input); ("event_key", an_event_key input);
               ("event_name", an_event_name input); ("entity_type", an_entity_type input);
               ("entity_id", an_entity_id input); ("occurred_at", an_occurred_at input)] ;;
  ensure (negb ((64 <? str_len (an_occurred_at input)) || has_control (an_occurred_at input)))
    "occurred_at is invalid".

Local Close Scope result_scope.

End StoreContext.

(** What the storefront tells its clients of a failure, what it logs of one, and
    which browsers it answers (services/storefront/src/api.rs). *)
Module StoreErrors.

Import Text Serde Propagation StoreContext.

(** ** Failures *)

(** An [anyhow::Error] of the storefront: a message, or the HTTP answer of a
    downstream. *)
Inductive StoreError : Type :=
| Message (m : string)
| DownstreamHttpError (status : Z) (status_text body : string).

(** [error.to_string()] *)
Definition error_text (e : StoreError) : string :=
  match e with
  | Message m => m
  | DownstreamHttpError _ text _ => "downstream returned HTTP " +:+ text
  end.

Record ClientSafeError : Type := mkClientSafeError { se_code : string; se_message : string }.

Definition DOWNSTREAM_ERROR : ClientSafeError :=
  mkClientSafeError "downstream_error" "downstream request failed".

Definition client_safe_table : list (list string * (string * string)) :=
  [(["invalid_request"], ("invalid_request", "the request is invalid"));
   (["invalid_identity"], ("invalid_identity", "the request identity is invalid"));
   (["invalid_tenant"], ("invalid_tenant", "the tenant identity is invalid"));
   (["tenant_required"], ("tenant_required", "tenant identity is required"));
   (["identity_conflict"], ("identity_conflict", "request identity conflicts with the authenticated identity"));
   (["customer_required"], ("customer_required", "customer identity is required"));
   (["invalid_session"], ("invalid_session", "the session identity is invalid"));
   (["invalid_cart"], ("invalid_cart", "the cart is invalid"));
   (["cart_not_found"], ("cart_not_found", "the cart was not found"));
   (["invalid_cart_item"], ("invalid_cart_item", "the cart item is invalid"));
   (["cart_item_not_found"], ("cart_item_not_found", "the cart item was not found"));
   (["invalid_cart_quantity"; "invalid_quantity"], ("invalid_quantity", "the item quantity is invalid"));
   (["cart_quantity_limit"], ("cart_quantity_limit", "the item quantity exceeds the allowed limit"));
   (["invalid_currency"], ("invalid_currency", "the currency is invalid"));
   (["invalid_items"], ("invalid_items", "the checkout items are invalid"));
   (["invalid_sku"; "invalid_cart_sku"], ("invalid_sku", "the product SKU is invalid"));
   (["invalid_promotion"], ("invalid_promotion", "the promotion is invalid"));
   (["payment_method_required"], ("payment_method_required", "a payment method is required"));
   (["invalid_payment_method_token"], ("invalid_payment_method_token", "the payment method is invalid"));
   (["invalid_payment_method_type"], ("invalid_payment_method_type", "the payment method type is invalid"));
   (["checkout_in_progress"], ("checkout_in_progress", "checkout is already in progress"));
   (["checkout_request_conflict"], ("checkout_request_conflict", "the checkout request conflicts with an existing request"));
   (["order_not_found"], ("order_not_found", "the order was not found"));
   (["order_state_conflict"], ("order_state_conflict", "the order cannot be changed in its current state"));
   (["product_not_found"], ("product_not_found", "the product was not found"));
   (["payment_invalid_request"], ("payment_invalid_request", "the payment request is invalid"));
   (["payment_invalid_method"], ("payment_invalid_method", "the payment method was rejected"));
   (["payment_invalid_state"], ("payment_invalid_state", "the payment is in an invalid state"));
   (["payment_not_found"], ("payment_not_found", "the payment was not found"));
   (["payment_already_processed"], ("payment_already_processed", "the payment was already processed"));
   (["payment_declined"], ("payment_declined", "the payment was declined"));
   (["payment_insufficient_funds"], ("payment_insufficient_funds", "the payment could not be completed with the available funds"));
   (["payment_pending"], ("payment_pending", "payment confirmation is pending"));
   (["inventory_unavailable"], ("inventory_unavailable", "inventory is temporarily unavailable"));
   (["payment_provider_unavailable"], ("payment_provider_unavailable", "the payment provider is temporarily unavailable"));
   (["payment_timeout"], ("payment_timeout", "payment confirmation timed out"));
   (["catalog_unavailable"], ("catalog_unavailable", "the catalog is temporarily unavailable"));
   (["pricing_unavailable"], ("pricing_unavailable", "pricing is temporarily unavailable"));
   (["recommendation_unavailable"], ("recommendation_unavailable", "recommendations are temporarily unavailable"));
   (["messaging_unavailable"], ("messaging_unavailable", "messaging is temporarily unavailable"))].

Definition category (code : string) : string :=
  if one_of code
      ["payment_declined"; "payment_insufficient_funds"] then "decline"
  else if one_of code
      ["invalid_request"; "invalid_identity"; "invalid_tenant"; "tenant_required";
       "identity_conflict"; "customer_required"; "invalid_session"; "invalid_cart";
       "invalid_cart_item"; "invalid_quantity"; "cart_quantity_limit"; "invalid_currency";
       "invalid_items"; "invalid_sku"; "invalid_promotion"; "payment_method_required";
       "invalid_payment_method_token"; "invalid_payment_method_type"; "payment_invalid_request";
       "payment_invalid_method"; "payment_invalid_state"; "product_not_found"; "payment_not_found"] then "invalid"
  else if one_of code
      ["checkout_in_progress"; "payment_pending"; "payment_provider_unavailable"; "payment_timeout";
       "payment_internal"; "inventory_unavailable"; "catalog_unavailable"; "pricing_unavailable";
       "recommendation_unavailable"; "messaging_unavailable"; "downstream_error"] then "retryable"
  else if one_of code
      ["checkout_request_conflict"; "order_state_conflict"] then "conflict"
  else "failure".

Definition retryable (e : ClientSafeError) : bool := String.eqb (category (se_code e)) "retryable".

Definition graphql_extensions (e : ClientSafeError) : json :=
  JObj [("code", JStr (se_code e)); ("category", JStr (category (se_code e)));
        ("retryable", JBool (retryable e))].

Definition client_safe_error_for_code (code : option string) : ClientSafeError :=
  match code with
  | Some code =>
      match List.find (fun row => one_of code row.1) client_safe_table with
      | Some (_, (code, message)) => mkClientSafeError code message
      | None => DOWNSTREAM_ERROR
      end
  | None => DOWNSTREAM_ERROR
  end.

Definition client_safe_error_from_message (message : string) : ClientSafeError :=
  let message := to_ascii_lowercase message in
  let contains needle := str_contains needle message in
  client_safe_error_for_code
    (if contains "tenant identity conflicts" then Some "identity_conflict"
     else if contains "tenant_id is required" then Some "tenant_required"
     else if contains "customer_id is required" then Some "customer_required"
     else if contains "payment_method_token is required" then Some "payment_method_required"
     else if contains "unsupported payment method type" then Some "invalid_payment_method_type"
     else if contains "currency_code" then Some "invalid_currency"
     else if contains "pricing_strategy" then Some "invalid_request"
     else if contains "pricing connection" || contains "pricing quote failed" then Some "pricing_unavailable"
     else if contains "required" || contains "invalid" || contains "unsupported" || contains "quantity"
             || contains "sku" then Some "invalid_request"
     else None).

(** ** What is logged of a downstream's answer *)

Definition REDACTED_LOG_VALUE : string := "[REDACTED]".

Definition log_char (a : ascii) : bool := is_alphanumeric a || one_of (String a "") ["_"; "-"; "."; ":"].

(** Each character that is not allowed becomes one underscore. *)
Fixpoint log_chars (s : string) : string :=
  match s with
  | "" => ""
  | String a r =>
      if utf8_cont a then log_chars r
      else String (if log_char a then a else "_") (log_chars r)
  end.

Definition redact_log_token (value : string) : string := log_chars (take_chars 64 (trim value)).

(** [key]: whether the value is that of an [error], [code] or [type] field *)
Fixpoint redact_downstream_value (value : json) (key : bool) : json :=
  match value with
  | JObj fields =>
      JObj (map (fun kv => (kv.1, if one_of kv.1 ["error"; "code"; "type"]
                                  then redact_downstream_value kv.2 true
                                  else JStr REDACTED_LOG_VALUE)) fields)
  | JArr values => JArr (map (fun v => redact_downstream_value v false) values)
  | JStr s => JStr (if key then redact_log_token s else REDACTED_LOG_VALUE)
  | value => value
  end.

Section text.
(** serde_json's parser and printer *)
Variables (parse_json : string -> option json) (json_text : json -> string).

Definition redacted_downstream_body (body : string) : string :=
  match parse_json body with
  | Some payload => json_text (redact_downstream_value payload false)
  | None => "non_json_body(bytes=" +:+ show_Z (str_len body) +:+ ")"
  end.

Definition client_safe_downstream_error (body : string) : ClientSafeError :=
  client_safe_error_for_code (trim <$> (parse_json body ≫= jget_str "error")).

Definition client_safe_error (e : StoreError) : ClientSafeError :=
  match e with
  | DownstreamHttpError _ _ body => client_safe_downstream_error body
  | Message m => client_safe_error_from_message m
  end.

(** ** What a client is told *)

Definition is_client_error (status : Z) : bool := (400 <=? status) && (status <=? 499).

Definition api_error (e : StoreError) : Z * json :=
  match e with
  | DownstreamHttpError status _ body =>
      let safe := client_safe_downstream_error body in
      (if is_client_error status then status else 502,
       JObj [("error", JStr (se_code safe)); ("message", JStr (se_message safe));
             ("category", JStr (category (se_code safe))); ("retryable", JBool (retryable safe))])
  | Message m =>
      if str_contains "tenant identity conflicts" m then
        (409, JObj [("error", JStr "identity_conflict");
                    ("message", JStr "tenant identity conflicts with the supplied customer")])
      else if str_contains "tenant_id is required" m || str_contains "tenant_id is invalid" m then
        (400, JObj [("error", JStr "tenant_required");
                    ("message", JStr "tenant identity is required and must be valid")])
      else (502, JObj [("error", JStr "downstream_unavailable")])
  end.

(** The message and the extensions of a GraphQL error *)
Definition field_error (e : StoreError) : string * json :=
  let safe := client_safe_error e in (se_message safe, graphql_extensions safe).
End text.

(** ** Readiness *)

Record DependencyReadiness : Type := mkReadiness {
  rd_catalog : bool; rd_pricing : bool; rd_checkout : bool; rd_postgres : bool }.

Definition is_ready (r : DependencyReadiness) : bool :=
  rd_catalog r && rd_pricing r && rd_checkout r && rd_postgres r.

Definition up (b : bool) : json := JStr (if b then "UP" else "DOWN").

Definition readiness_response (r : DependencyReadiness) : Z * json :=
  (if is_ready r then 200 else 503,
   JObj [("status", up (is_ready r));
         ("dependencies", JObj [("catalog", up (rd_catalog r)); ("pricing", up (rd_pricing r));
                                ("checkout", up (rd_checkout r)); ("postgres", up (rd_postgres r))])]).

Definition analytics_readiness_response (clickhouse : bool) : Z * json :=
  (if clickhouse then 200 else 503,
   JObj [("status", up clickhouse); ("dependencies", JObj [("clickhouse", up clickhouse)])]).

(** ** Cross-origin requests *)

Definition CORS_ALLOWED_METHODS : string := "GET, POST, OPTIONS".
Definition CORS_ALLOWED_HEADERS : string := "content-type, traceparent, tracestate, baggage, sentry-trace".
Definition CORS_ALLOWED_HEADER_NAMES : list string :=
  ["content-type"; "traceparent"; "tracestate"; "baggage"; "sentry-trace"].
Definition CORS_MAX_AGE_SECONDS : string := "600".
Definition DEFAULT_WEB_ORIGIN : string := "http://localhost:5173".

(** Header values as their bytes *)
Definition CorsConfig : Type := list string.

Definition from_origins (origins : list string) : CorsConfig := List.filter header_text origins.

(** [web_origin]: the environment variable [WEB_ORIGIN] *)
Definition cors_from_env (web_origin : option string) : CorsConfig :=
  match web_origin with
  | Some origins => from_origins (map trim (split_on "," origins))
  | None => from_origins [DEFAULT_WEB_ORIGIN]
  end.

Definition allowed_origin (config : CorsConfig) (origin : string) : option string :=
  List.find (fun allowed => String.eqb allowed origin) config.

(** [to_str]: visible ASCII and the tab *)
Definition header_str (value : string) : bool :=
  str_forallb (fun a => ((32 <=? byte_of a) && (byte_of a <? 127) || (byte_of a =? 9))%N) value.

Definition request_headers_are_allowed (value : string) : bool :=
  header_str value
  && forallb (fun name =>
       let name := trim name in
       negb (is_empty name)
       && existsb (fun allowed => String.eqb (to_ascii_lowercase allowed) (to_ascii_lowercase name))
            CORS_ALLOWED_HEADER_NAMES)
     (split_on "," value).

(** A header block as names and bytes; [get] is the first value. *)
Definition raw_headers : Type := list (string * string).
Definition raw_get (name : string) (h : raw_headers) : option string := assoc name h.
Definition raw_insert (name value : string) (h : raw_headers) : raw_headers :=
  List.filter (fun nv => negb (String.eqb nv.1 name)) h ++ [(name, value)].
Definition raw_append (name value : string) (h : raw_headers) : raw_headers := h ++ [(name, value)].

Definition preflight_is_allowed (h : raw_headers) : bool :=
  match raw_get "access-control-request-method" h with
  | Some method => one_of method ["GET"; "POST"]
  | None => true
  end
  && match raw_get "access-control-request-headers" h with
     | Some value => request_headers_are_allowed value
     | None => true
     end.

Definition add_cors_headers (h : raw_headers) (origin : string) (preflight : bool) : raw_headers :=
  let h := raw_append "vary" "Origin" (raw_insert "access-control-allow-origin" origin h) in
  if preflight then
    let h := raw_insert "access-control-allow-methods" CORS_ALLOWED_METHODS h in
    let h := raw_insert "access-control-allow-headers" CORS_ALLOWED_HEADERS h in
    let h := raw_insert "access-control-max-age" CORS_MAX_AGE_SECONDS h in
    raw_append "vary" "Access-Control-Request-Headers" (raw_append "vary" "Access-Control-Request-Method" h)
  else h.

Record Response : Type := mkResponse { rs_status : Z; rs_headers : raw_headers }.

(** [next]: the rest of the service, which runs only when it is called *)
Definition cors_middleware (config : CorsConfig) (method : string) (request : raw_headers)
    (next : unit -> Response) : Response :=
  match raw_get "origin" request with
  | None => next tt
  | Some origin =>
      match allowed_origin config origin with
      | None => mkResponse 403 []
      | Some allowed =>
          if String.eqb method "OPTIONS" then
            if preflight_is_allowed request then mkResponse 204 (add_cors_headers [] allowed true)
            else mkResponse 403 []
          else
            let response := next tt in
            mkResponse (rs_status response) (add_cors_headers (rs_headers response) allowed false)
      end
  end.

(** ** Lemmas *)

(** A token of the log: at most 64 harmless bytes. *)
Definition log_token (s : string) : Prop := str_forallb log_char s = true /\ (String.length s <= 64)%nat.

Lemma log_char_ascii a : log_char a = true -> utf8_cont a = false /\ visible a = true.
Proof.
  destruct a as [[] [] [] [] [] [] [] []]; vm_compute; intros H; first [discriminate H|by split].
Qed.

Lemma log_chars_allowed s : str_forallb log_char (log_chars s) = true.
Proof.
  induction s as [|a s IH]; simpl; [done|]. destruct (utf8_cont a); [done|]. simpl. rewrite IH.
  by destruct (log_char a) eqn:E; rewrite ?E.
Qed.

Lemma log_chars_length n s : (String.length (log_chars (take_chars n s)) <= n)%nat.
Proof.
  revert n. induction s as [|a s IH]; intros n; simpl; [lia|]. destruct (utf8_cont a) eqn:E; simpl; rewrite ?E.
  - apply IH.
  - destruct n as [|n]; simpl; [lia|]. rewrite E. simpl. specialize (IH n). lia.
Qed.

Lemma log_token_made s : log_token (redact_log_token s).
Proof. split; [apply log_chars_allowed|apply log_chars_length]. Qed.

Lemma log_chars_same s : str_forallb log_char s = true -> log_chars s = s.
Proof.
  induction s as [|a s IH]; simpl; [done|]. intros [Ha Hs]%andb_true_iff.
  destruct (log_char_ascii a Ha) as [-> _]. by rewrite Ha, IH.
Qed.

Lemma take_chars_same n s :
  str_forallb log_char s = true -> (String.length s <= n)%nat -> take_chars n s = s.
Proof.
  revert n. induction s as [|a s IH]; intros n; simpl; [done|]. intros [Ha Hs]%andb_true_iff Hn.
  destruct (log_char_ascii a Ha) as [-> _]. destruct n as [|n]; [lia|]. rewrite IH; [done..|lia].
Qed.

Lemma visible_trim_start s : str_forallb visible s = true -> trim_start s = s.
Proof.
  intros Hs. apply trim_start_same. destruct s as [|a s]; [done|]. simpl in *.
  apply andb_true_iff in Hs as [Ha _]. destruct (visible_white a Ha) as (-> & H2 & H3).
  destruct s as [|b s]; [done|]. rewrite H2. destruct s as [|c s]; [done|]. by rewrite H3.
Qed.

Lemma visible_trim_start_rev s : str_forallb visible s = true -> trim_start_rev s = s.
Proof.
  intros Hs. apply trim_start_rev_same. destruct s as [|a s]; [done|]. simpl in *.
  apply andb_true_iff in Hs as [Ha Hs]. destruct (visible_white a Ha) as (-> & _ & _).
  destruct s as [|b s]; [done|]. simpl in Hs. apply andb_true_iff in Hs as [Hb Hs].
  destruct (visible_white b Hb) as (_ & -> & _). destruct s as [|c s]; [done|]. simpl in Hs.
  apply andb_true_iff in Hs as [Hc _]. by destruct (visible_white c Hc) as (_ & _ & ->).
Qed.

Lemma forallb_rev p s : str_forallb p (str_rev s) = str_forallb p s.
Proof.
  assert (Happ : forall s t, str_forallb p (s +:+ t) = str_forallb p s && str_forallb p t).
  { intros s1 t. induction s1 as [|a s1 IH]; [done|]. rewrite str_append_cons. simpl. by rewrite IH, andb_assoc. }
  induction s as [|a s IH]; [done|]. rewrite str_rev_cons, Happ, IH. simpl. by rewrite andb_true_r, andb_comm.
Qed.

Lemma visible_trim s : str_forallb visible s = true -> trim s = s.
Proof.
  intros Hs. unfold trim. rewrite visible_trim_start by done.
  rewrite visible_trim_start_rev by (by rewrite forallb_rev). apply str_rev_involutive.
Qed.

Lemma log_token_again s : log_token s -> redact_log_token s = s.
Proof.
  intros [Hs Hn]. unfold redact_log_token. rewrite visible_trim, take_chars_same, log_chars_same; try done.
  eapply str_forallb_impl; [|exact Hs]. intros a Ha. by apply log_char_ascii.
Qed.

(** The strings of a value. *)
Fixpoint strings_of (v : json) : list string :=
  match v with
  | JStr s => [s]
  | JArr l => concat (map strings_of l)
  | JObj fields => concat (map (fun kv => strings_of kv.2) fields)
  | _ => []
  end.

(** ** Properties *)

(** the log never holds a downstream's text.  Every string of a redacted
    answer is the redaction mark or a token of at most 64 letters, digits and
    separators, wherever it stands, and redacting twice changes nothing. *)
Theorem redaction_hides v key :
  Forall (fun s => s = REDACTED_LOG_VALUE \/ log_token s) (strings_of (redact_downstream_value v key))
  /\ redact_downstream_value (redact_downstream_value v key) key = redact_downstream_value v key.
Proof.
  revert key. induction v as [|b|n|t|s|l IH|fields IH] using json_nested_ind; intros key;
    cbn [redact_downstream_value strings_of]; try done.
  - destruct key; cbn [redact_downstream_value strings_of].
    + split; [|by rewrite log_token_again by apply log_token_made].
      constructor; [right; apply log_token_made|constructor].
    + split; [|done]. constructor; [by left|constructor].
  - split.
    + apply Forall_concat, Forall_map, Forall_map. eapply Forall_impl; [exact IH|]. intros v Hv. apply Hv.
    + f_equal. rewrite map_map. apply map_ext_Forall. eapply Forall_impl; [exact IH|]. intros v Hv. apply Hv.
  - split.
    + apply Forall_concat, Forall_map, Forall_map. eapply Forall_impl; [exact IH|]. intros [k v] Hv. cbn [fst snd] in *.
      destruct (one_of k ["error"; "code"; "type"]); [apply Hv|]. cbn [strings_of]. constructor; [by left|constructor].
    + f_equal. rewrite map_map. apply map_ext_Forall. eapply Forall_impl; [exact IH|]. intros [k v] Hv. cbn [fst snd] in *.
      destruct (one_of k ["error"; "code"; "type"]) eqn:E; rewrite ?E; [|done]. by rewrite (proj2 (Hv true)).
Qed.

(** The errors a client can be told, and the bodies it can be sent. *)
Definition public_errors : list ClientSafeError :=
  DOWNSTREAM_ERROR :: map (fun row => mkClientSafeError row.2.1 row.2.2) client_safe_table.
Definition public_body (e : ClientSafeError) : json :=
  JObj [("error", JStr (se_code e)); ("message", JStr (se_message e));
        ("category", JStr (category (se_code e))); ("retryable", JBool (retryable e))].
Definition identity_bodies : list json :=
  [JObj [("error", JStr "identity_conflict");
         ("message", JStr "tenant identity conflicts with the supplied customer")];
   JObj [("error", JStr "tenant_required");
         ("message", JStr "tenant identity is required and must be valid")];
   JObj [("error", JStr "downstream_unavailable")]].

Lemma public_error code : In (client_safe_error_for_code code) public_errors.
Proof.
  destruct code as [code|]; [|by left]. unfold client_safe_error_for_code.
  destruct (List.find (fun row => one_of code row.1) client_safe_table) as [[keys [c m]]|] eqn:E; [|by left].
  right. apply find_some in E as [Hin _].
  exact (in_map (fun row => mkClientSafeError row.2.1 row.2.2) _ _ Hin).
Qed.

Lemma public_safe_error parse e : In (client_safe_error parse e) public_errors.
Proof. destruct e; apply public_error. Qed.

(** a client is never told more than the storefront's own words.  Whatever
    failed, and whatever a downstream answered, the body of the HTTP answer and
    the GraphQL error are members of a fixed list, and the status is the
    downstream's only when it is a client error. *)
Theorem client_answers_are_public parse e :
  In (api_error parse e).2 (map public_body public_errors ++ identity_bodies)
  /\ In (field_error parse e) (map (fun safe => (se_message safe, graphql_extensions safe)) public_errors)
  /\ 400 <= (api_error parse e).1 <= 502.
Proof.
  split_and!.
  - apply in_app_iff. destruct e as [m|status text body]; cbn [api_error snd].
    + right. unfold identity_bodies. repeat case_match; cbn [snd In]; tauto.
    + left. apply (in_map public_body), public_error.
  - unfold field_error. apply (in_map (fun safe => (se_message safe, graphql_extensions safe))), public_safe_error.
  - destruct e as [m|status text body]; cbn [api_error fst]; repeat case_match; cbn [fst]; try lia.
    unfold is_client_error in *; bool_inv; lia.
  - destruct e as [m|status text body]; cbn [api_error fst]; repeat case_match; cbn [fst]; try lia.
    unfold is_client_error in *; bool_inv; lia.
Qed.

(** a conflict between the tenants a request's own headers name is reported
    as a failing downstream: retryable to a GraphQL client and 502 to a REST
    client, where a conflict with the tenant of the arguments is an
    [identity_conflict]. *)
Theorem header_conflict_blames_downstream parse :
  field_error parse (Message (tenant_error_text TenantConflicting))
    = (se_message DOWNSTREAM_ERROR, graphql_extensions DOWNSTREAM_ERROR)
  /\ retryable DOWNSTREAM_ERROR = true
  /\ api_error parse (Message (tenant_error_text TenantConflicting))
     = (502, JObj [("error", JStr "downstream_unavailable")])
  /\ (api_error parse (Message "tenant identity conflicts with propagated request identity")).1 = 409.
Proof. split_and!; reflexivity. Qed.

Lemma find_allowed config origin allowed :
  allowed_origin config origin = Some allowed -> allowed = origin /\ In origin config.
Proof. intros [Hin He]%find_some. cbv beta in He. apply String.eqb_eq in He as ->. by split. Qed.

Lemma find_refused config origin : allowed_origin config origin = None -> ~ In origin config.
Proof. intros H Hin. apply (find_none _ _ H) in Hin. by rewrite String.eqb_refl in Hin. Qed.

Lemma raw_get_app name h k : raw_get name (h ++ k) = match raw_get name h with Some v => Some v | None => raw_get name k end.
Proof. unfold raw_get. induction h as [|[n v] h IH]; [done|]. simpl. by destruct (String.eqb name n). Qed.

Lemma raw_get_insert name value h : raw_get name (raw_insert name value h) = Some value.
Proof.
  unfold raw_insert. rewrite raw_get_app. unfold raw_get.
  induction h as [|[n v] h IH]; simpl; [by rewrite String.eqb_refl|].
  destruct (String.eqb n name) eqn:E; simpl; [done|]. rewrite String.eqb_sym in E. by rewrite E.
Qed.

Lemma raw_get_insert_ne name other value h :
  String.eqb name other = false -> raw_get name (raw_insert other value h) = raw_get name h.
Proof.
  intros Hne. unfold raw_insert. rewrite raw_get_app. unfold raw_get.
  assert (Hf : assoc name (List.filter (fun nv => negb (String.eqb nv.1 other)) h) = assoc name h).
  { induction h as [|[n v] h IH]; [done|]. simpl. destruct (String.eqb_spec n other) as [->|]; simpl.
    - by rewrite Hne.
    - by destruct (String.eqb name n). }
  rewrite Hf. destruct (assoc name h); [done|]. simpl. by rewrite Hne.
Qed.

Lemma raw_get_append name other value h :
  String.eqb name other = false -> raw_get name (raw_append other value h) = raw_get name h.
Proof. intros Hne. unfold raw_append. rewrite raw_get_app. destruct (raw_get name h); [done|]. unfold raw_get. simpl. by rewrite Hne. Qed.

Lemma cors_origin h origin preflight :
  raw_get "access-control-allow-origin" (add_cors_headers h origin preflight) = Some origin.
Proof.
  unfold add_cors_headers. destruct preflight.
  - rewrite !raw_get_append, !raw_get_insert_ne, raw_get_append by done. apply raw_get_insert.
  - rewrite raw_get_append by done. apply raw_get_insert.
Qed.

(** only configured origins are let in.  A request from an origin that is
    not configured is answered 403 and the service behind never runs; one from
    a configured origin is answered with exactly that origin, unless it is a
    refused preflight. *)
Theorem only_configured_origins config method request origin next :
  raw_get "origin" request = Some origin ->
  (~ In origin config /\ cors_middleware config method request next = mkResponse 403 [])
  \/ (In origin config
      /\ (raw_get "access-control-allow-origin" (rs_headers (cors_middleware config method request next)) = Some origin
          \/ (method = "OPTIONS" /\ preflight_is_allowed request = false
              /\ cors_middleware config method request next = mkResponse 403 []))).
Proof.
  intros Ho. unfold cors_middleware. rewrite Ho. destruct (allowed_origin config origin) as [allowed|] eqn:Ea.
  - apply find_allowed in Ea as [-> Hin]. right. split; [done|].
    destruct (String.eqb_spec method "OPTIONS") as [->|]; [|left; apply cors_origin].
    destruct (preflight_is_allowed request); [left; apply cors_origin|by right].
  - left. split; [by apply find_refused|done].
Qed.

Definition sample_preflight : raw_headers :=
  [("origin", "http://localhost:5173"); ("access-control-request-method", "POST");
   ("access-control-request-headers", "Content-Type, baggage")].

Lemma only_configured_origins_witness :
  In DEFAULT_WEB_ORIGIN (cors_from_env None)
  /\ rs_status (cors_middleware (cors_from_env None) "OPTIONS" sample_preflight (fun _ => mkResponse 200 [])) = 204.
Proof.
  destruct (only_configured_origins (cors_from_env None) "OPTIONS" sample_preflight DEFAULT_WEB_ORIGIN
    (fun _ => mkResponse 200 []) eq_refl) as [[Hn _]|[Hin _]].
  - exfalso. apply Hn. by left.
  - split; [exact Hin|reflexivity].
Defined.

End StoreErrors.

(** What the storefront asks of its downstreams and what it makes of their
    answers (services/storefront/src/application.rs): the catalog's GraphQL, the
    pricing service, the checkout service's HTTP endpoints and ClickHouse. *)
Module StoreClient.

Import Text Serde Proto Propagation CheckoutDomain StoreDomain StoreContext StoreErrors.

(** ** GraphQL answers *)

Record GraphQlError : Type := mkGraphQlError { gq_message : string; gq_path : option (list json) }.
Record GraphQlEnvelope : Type := mkEnvelope { gq_data : option json; gq_errors : option (list GraphQlError) }.

Definition decode_any (v : json) : option json := Some v.
Definition decode_array (v : json) : option (list json) :=
  match v with JArr l => Some l | _ => None end.

Definition read_graphql_error (v : json) : option GraphQlError :=
  fields ← struct_with_defaults [("message", required); ("path", optional)] v;
  match fields with
  | [JStr message; path] => path ← decode_option decode_array path; Some (mkGraphQlError message path)
  | _ => None
  end.

Definition read_envelope (v : json) : option GraphQlEnvelope :=
  fields ← struct_with_defaults [("data", optional); ("errors", optional)] v;
  match fields with
  | [data; errors] =>
      data ← decode_option decode_any data;
      errors ← decode_option (decode_vec read_graphql_error) errors;
      Some (mkEnvelope data errors)
  | _ => None
  end.

Definition is_null (v : json) : bool := match v with JNull => true | _ => false end.

(** An error below the root, in a nullable field of it *)
Definition below_root (root : string) (e : GraphQlError) : bool :=
  match gq_path e with
  | Some (JStr first :: _ :: _) => String.eqb first root
  | _ => false
  end.

(** [as_object().get(name)] *)
Definition object_get (name : string) (v : json) : option json :=
  match v with JObj _ => jget name v | _ => None end.

Local Open Scope result_scope.

(** [value]: the parsed text, if it parses *)
Definition parse_graphql_data (value : option json) (label root_name : string) (root_may_be_null : bool) :
    result string json :=
  envelope <- ok_or (value ≫= read_envelope) (label +:+ " returned invalid GraphQL JSON") ;;
  data <- ok_or (gq_data envelope) (label +:+ " returned no GraphQL data") ;;
  root <- ok_or (object_get root_name data) (label +:+ " response omitted " +:+ root_name) ;;
  ensure (root_may_be_null || negb (is_null root)) (label +:+ " response returned a null required root") ;;
  let errors := default [] (gq_errors envelope) in
  ensure (bool_decide (length errors = 0%nat) || (negb (is_null root) && forallb (below_root root_name) errors))
    (label +:+ " returned a GraphQL error affecting " +:+ root_name) ;;
  Ok data.

(** ** One exchange with a downstream *)

Record HttpRequest : Type := mkHttpRequest {
  hr_method : string; hr_url : string; hr_query : list (string * string); hr_context : Context;
  hr_auth : option (string * string); hr_body : option json }.

Inductive BodyRead : Type :=
| BodyText (text : string)
| BodyFailed
| BodyTimeout.

(** What comes of sending a request: the status, with its text, and the body *)
Inductive HttpAnswer : Type :=
| SendTimeout
| SendFailed
| Answered (status : Z) (status_text : string) (body : BodyRead).

Inductive ChannelAnswer : Type :=
| ChannelOpen
| ChannelInvalid
| ChannelTimeout
| ChannelFailed.

Definition is_success (status : Z) : bool := (200 <=? status) && (status <=? 299).

Definition truncate (value : string) : string := take_chars 512 value.

(** [trim_end_matches('/')] and [trim_start_matches('/')] *)
Fixpoint drop_slashes (s : string) : string :=
  match s with
  | String a r => if Ascii.eqb a "/" then drop_slashes r else s
  | "" => ""
  end.
Definition join_endpoint (base path : string) : string :=
  str_rev (drop_slashes (str_rev base)) +:+ "/" +:+ drop_slashes path.

Definition params_with_query (query : string) (params : list (string * string)) : list (string * string) :=
  ("query", query) :: params.

Definition fails {A} (r : result string A) : result StoreError A := res_map_err Message r.

Definition deadline_text (operation : string) : string :=
  operation +:+ " exceeded the storefront request deadline".

Section client.
Variables (span_valid : Context -> bool) (url_ok : string -> bool) (parse_json : string -> option json)
  (json_text : json -> string).
(** The network, the time of a request and that of the read of its answer, and
    the context of the active span *)
Variables (http : HttpRequest -> HttpAnswer) (now later : Z) (active : Context).

(** The timeouts are computed from the deadline of the request. *)
Definition send_http (s : StoreContext) (request : HttpRequest) (operation : string) :
    result StoreError (Z * string * BodyRead) :=
  fails (remaining_timeout s operation now) ;;
  match http request with
  | SendTimeout => Err (Message (deadline_text operation))
  | SendFailed => Err (Message (operation +:+ " request failed"))
  | Answered status text body => Ok (status, text, body)
  end.

Definition read_response_text (s : StoreContext) (body : BodyRead) (operation : string) :
    result StoreError string :=
  fails (remaining_timeout s operation later) ;;
  match body with
  | BodyText text => Ok text
  | BodyFailed => Err (Message (operation +:+ " response read failed"))
  | BodyTimeout => Err (Message (deadline_text operation))
  end.

Definition decode_json_response (s : StoreContext) (answer : Z * string * BodyRead) (operation : string) :
    result StoreError json :=
  let '(status, status_text, body) := answer in
  text <- read_response_text s body operation ;;
  if is_success status then ok_or (parse_json text) (Message (operation +:+ " returned invalid JSON"))
  else Err (DownstreamHttpError status status_text (truncate text)).

Definition check_url (url : string) : result StoreError unit :=
  ensure (url_ok url) (Message "downstream URL is invalid").

Definition post_json_value_with_context (s : StoreContext) (url : string) (body : json) (operation : string)
    (context : Context) : result StoreError json :=
  answer <- send_http s (mkHttpRequest "POST" url [] context None (Some body)) operation ;;
  decode_json_response s answer operation.

Definition get_query_value_with_context (s : StoreContext) (url : string) (params : list (string * string))
    (operation : string) (context : Context) : result StoreError json :=
  check_url url ;;
  answer <- send_http s (mkHttpRequest "GET" url params context None None) operation ;;
  decode_json_response s answer operation.

(** Both credentials or neither *)
Definition clickhouse_request (s : StoreContext) : result StoreError (option (string * string)) :=
  match st_clickhouse_user s, st_clickhouse_password s with
  | None, None => Ok None
  | Some user, Some password => Ok (Some (user, password))
  | _, _ => Err (Message "CLICKHOUSE_USER and CLICKHOUSE_PASSWORD must be configured together")
  end.

Definition clickhouse_query_value_with_context (s : StoreContext) (url : string)
    (params : list (string * string)) (operation : string) (context : Context) : result StoreError json :=
  check_url url ;;
  auth <- clickhouse_request s ;;
  answer <- send_http s (mkHttpRequest "GET" url params context auth None) operation ;;
  decode_json_response s answer operation.

(** ** The catalog *)

Variables (catalog_product_query catalog_products_query catalog_categories_query : string).

Definition catalog_query_with_context (s : StoreContext) (label name query : string) (variables : json)
    (root : string) (root_may_be_null : bool) (context : Context) : result StoreError json :=
  let body := JObj [("operationName", JStr name); ("query", JStr query); ("variables", variables)] in
  answer <- send_http s (mkHttpRequest "POST" (st_catalog_url s) [] context None (Some body)) label ;;
  let '(status, status_text, body) := answer in
  text <- read_response_text s body label ;;
  ensure (is_success status)
    (Message (label +:+ " returned HTTP " +:+ status_text +:+ ": " +:+ truncate text)) ;;
  fails (parse_graphql_data (parse_json text) label root root_may_be_null).

Definition outbound_for_tenant (s : StoreContext) (tenant : string) : result StoreError Context :=
  fails (outbound_context_for_tenant span_valid s active tenant).

Definition catalog_product (s : StoreContext) (tenant sku segment : string) :
    result StoreError (option Product) :=
  tenant <- fails (resolve_tenant_id s (Some tenant)) ;;
  context <- outbound_for_tenant s tenant ;;
  data <- catalog_query_with_context s "catalog.product" "StorefrontProduct" catalog_product_query
            (JObj [("sku", JStr sku); ("tenantId", JStr tenant); ("segment", JStr segment)])
            "product" true context ;;
  value <- ok_or (jget "product" data) (Message "catalog.product response omitted product") ;;
  if is_null value then Ok None
  else
    product <- ok_or (read_product value) (Message "catalog.product payload is invalid") ;;
    Ok (Some (product_from_catalog product)).

Inductive ProductSort : Type := Featured | Newest | PriceAsc | PriceDesc | Relevance.

Definition catalog_value (sort : ProductSort) : string :=
  match sort with
  | Featured => "FEATURED" | Newest => "NEWEST" | PriceAsc => "PRICE_ASC" | PriceDesc => "PRICE_DESC"
  | Relevance => "RELEVANCE"
  end.

Record CatalogProductsRequest : Type := mkProductsRequest {
  cr_tenant_id : string; cr_search : option string; cr_category : option string;
  cr_sort : option ProductSort; cr_page : Z; cr_size : Z; cr_segment : string }.

Definition catalog_products (s : StoreContext) (r : CatalogProductsRequest) : result StoreError ProductPage :=
  tenant <- fails (resolve_tenant_id s (Some (cr_tenant_id r))) ;;
  context <- outbound_for_tenant s tenant ;;
  data <- catalog_query_with_context s "catalog.products" "StorefrontProducts" catalog_products_query
            (JObj [("search", option_json (cr_search r)); ("category", option_json (cr_category r));
                   ("sort", option_json (catalog_value <$> cr_sort r)); ("tenantId", JStr tenant);
                   ("page", JNum (cr_page r)); ("size", JNum (cr_size r)); ("segment", JStr (cr_segment r))])
            "products" false context ;;
  products <- ok_or (jget "products" data) (Message "catalog.products response omitted products") ;;
  page <- ok_or (read_page products) (Message "catalog.products payload is invalid") ;;
  Ok (page_from_catalog page).

Definition catalog_categories (s : StoreContext) (tenant : string) : result StoreError (list Category) :=
  tenant <- fails (resolve_tenant_id s (Some tenant)) ;;
  context <- outbound_for_tenant s tenant ;;
  data <- catalog_query_with_context s "catalog.categories" "StorefrontCategories" catalog_categories_query
            (JObj [("tenantId", JStr tenant)]) "categories" false context ;;
  categories <- ok_or (jget "categories" data ≫= decode_array)
                  (Message "catalog.categories response omitted categories") ;;
  categories <- ok_or (decode_vec read_category (JArr categories))
                  (Message "catalog.categories payload is invalid") ;;
  Ok (map category_from_catalog categories).

(** ** Price changes *)

Record PriceChangeNotification : Type := mkPriceNotification {
  pn_sequence : Z; pn_tenant_id : string; pn_sku : string; pn_product_id : string; pn_variant_id : string;
  pn_price_id : string; pn_currency : string; pn_amount_minor : Z; pn_compare_at_minor : option Z;
  pn_valid_from : string; pn_observed_at : string }.

Definition notified_price (e : PriceChangeNotification) : PriceSnapshot :=
  mkPriceSnapshot (pn_price_id e) (pn_currency e) (pn_amount_minor e) (pn_compare_at_minor e) (pn_valid_from e).

Definition with_price (price : PriceSnapshot) (v : ProductVariant) : ProductVariant :=
  mkProductVariant (va_id v) (va_tenant_id v) (va_product_id v) (va_sku v) (va_name v) (va_options v) (Some price).

Definition with_variants (p : Product) (variants : list ProductVariant) : Product :=
  mkProduct (pt_id p) (pt_tenant_id p) (pt_slug p) (pt_sku p) (pt_name p) (pt_description p) (pt_brand p)
    (pt_category p) (pt_price_minor p) (pt_price p) variants (pt_reviews p) (pt_reviews_slow p)
    (pt_risk_score p).

Definition with_product_price (price : PriceSnapshot) (p : Product) : Product :=
  mkProduct (pt_id p) (pt_tenant_id p) (pt_slug p) (pt_sku p) (pt_name p) (pt_description p) (pt_brand p)
    (pt_category p) (Some (sn_amount_minor price)) (Some price) (pt_variants p) (pt_reviews p)
    (pt_reviews_slow p) (pt_risk_score p).

Definition notified_variant (e : PriceChangeNotification) (v : ProductVariant) : Prop :=
  va_id v = pn_variant_id e /\ va_sku v = pn_sku e.
#[export] Instance notified_variant_dec e v : Decision (notified_variant e v).
Proof. unfold notified_variant. apply _. Defined.

(** What the product the catalog holds makes of a notification *)
Definition price_change_of (e : PriceChangeNotification) (product : option Product) : option PriceChange :=
  match product with
  | Some product =>
      if String.eqb (pt_id product) (pn_product_id e) then
        match list_find (notified_variant e) (pt_variants product) with
        | Some (i, variant) =>
            let price := notified_price e in
            let variant := with_price price variant in
            let product := with_variants product (<[i := variant]> (pt_variants product)) in
            let product := if String.eqb (pt_sku product) (pn_sku e) then with_product_price price product
                           else product in
            Some (mkPriceChange product variant price (pn_observed_at e))
        | None => None
        end
      else None
  | None => None
  end.

Definition price_change_from_notification (s : StoreContext) (e : PriceChangeNotification) :
    result StoreError (option PriceChange) :=
  product <- catalog_product s (pn_tenant_id e) (pn_sku e) "standard" ;;
  Ok (price_change_of e product).
End client.
Local Close Scope result_scope.

End StoreClient.
