(* ===== verification/StoreSchema.v ===== *)
(** The storefront's GraphQL operations and its HTTP surface. *)

From S2P Require Import Prelude Values Proto Propagation CheckoutDomain StoreDomain StoreUpstream.

(** The storefront's commerce operations
    (services/storefront/src/application.rs): quotes, checkouts, carts, orders
    and analytics, each with the one request it sends. *)
Module StoreCommerce.

Import Text Serde Proto Propagation CheckoutDomain StoreDomain StoreContext StoreErrors StoreClient.

(** ** Inputs *)

Record QuoteInput : Type := mkQuoteInput {
  qn_items : list CartItemInput; qn_tenant_id : option string; qn_customer_id : option string;
  qn_currency_code : option string; qn_request_id : option string; qn_business : BusinessContextInput }.

Record CheckoutInput : Type := mkCheckoutInput {
  kn_items : list CartItemInput; kn_tenant_id : option string; kn_customer_id : option string;
  kn_cart_id : option string; kn_session_id : option string; kn_currency_code : option string;
  kn_payment_method_token : option string; kn_request_id : option string;
  kn_business : BusinessContextInput }.

Definition item_input_json (i : CartItemInput) : json :=
  JObj [("sku", JStr (ci_sku i)); ("quantity", JNum (ci_quantity i))].

Local Open Scope result_scope.

(** [filter(|value| !value.trim().is_empty())] and the check of the code *)
Definition required_currency (code : option string) : result string string :=
  code <- ok_or (non_blank code) "currency_code is required" ;;
  validate_currency_code code ;;
  Ok code.

Definition quote_items (items : list CartItemInput) : result string (list QuoteItem) :=
  collect (fun item =>
    ensure (negb (is_blank (ci_sku item)) && negb (ci_quantity item <=? 0))
      "each quote item needs a SKU and positive quantity" ;;
    Ok (mkQuoteItem (ci_sku item) (ci_quantity item))) items.

Section commerce.
Variables (span_valid : Context -> bool) (active : Context).

(** ** Quotes *)

(** The request and the context it is sent with *)
Definition quote_request (s : StoreContext) (uuid : string) (input : QuoteInput) :
    result string (QuoteRequest * Context) :=
  identity <- resolve_identity s (qn_tenant_id input) (qn_customer_id input) None false uuid ;;
  validate_items (qn_items input) "quote" ;;
  items <- quote_items (qn_items input) ;;
  currency <- required_currency (qn_currency_code input) ;;
  let context := outbound_context_for_identity span_valid s active identity in
  business <- validated_business_context context (qn_business input) ;;
  Ok ({| qr_request_id := default ("storefront-" +:+ uuid) (non_blank (qn_request_id input));
         qr_customer_id := id_customer_id identity; qr_items := items; qr_currency_code := currency;
         qr_context := pricing_context business;
         qr_payment_method_type := Some (bc_payment_method_type business);
         qr_tenant_id := id_tenant_id identity |},
      apply_to_context business context).

(** [open]: what comes of opening the channel when it is not open yet *)
Definition pricing_channel (s : StoreContext) (now : Z) (open : ChannelAnswer) : result StoreError unit :=
  fails (remaining_timeout s "pricing connection" now) ;;
  match open with
  | ChannelOpen => Ok tt
  | ChannelInvalid => Err (Message "pricing endpoint is invalid")
  | ChannelTimeout => Err (Message (deadline_text "pricing connection"))
  | ChannelFailed => Err (Message "pricing connection failed")
  end.

(** [pricing]: the answer to a request, or [None] past the deadline *)
Definition quote (s : StoreContext) (uuid : string) (input : QuoteInput) (now later : Z)
    (open : ChannelAnswer) (pricing : QuoteRequest -> Context -> option (result grpc_status QuoteResponse)) :
    result StoreError Quote :=
  request <- fails (quote_request s uuid input) ;;
  pricing_channel s now open ;;
  fails (remaining_timeout s "pricing quote" later) ;;
  match pricing request.1 request.2 with
  | None => Err (Message (deadline_text "pricing quote"))
  | Some (Err _) => Err (Message "pricing quote failed")
  | Some (Ok response) => fails (quote_try_from_proto response)
  end.

(** ** Checkouts *)

Definition checkout_body (s : StoreContext) (uuid : string) (input : CheckoutInput) :
    result string (json * Context) :=
  validate_items (kn_items input) "checkout" ;;
  identity <- resolve_identity s (kn_tenant_id input) (kn_customer_id input) (kn_session_id input) true uuid ;;
  currency <- required_currency (kn_currency_code input) ;;
  token <- ok_or (trimmed (kn_payment_method_token input)) "payment_method_token is required" ;;
  let context := outbound_context_for_identity span_valid s active identity in
  business <- validated_business_context context (kn_business input) ;;
  Ok (JObj [("request_id", option_json (kn_request_id input)); ("tenant_id", JStr (id_tenant_id identity));
            ("customer_id", JStr (id_customer_id identity)); ("cart_id", option_json (kn_cart_id input));
            ("session_id", option_json (id_session_id identity)); ("currency_code", JStr currency);
            ("promotion_code", option_json (bc_promotion_code business));
            ("pricing_strategy", JStr (bc_pricing_strategy business)); ("payment_method_token", JStr token);
            ("payment_method_type", JStr (payment_method_type_name (bc_payment_method_type business)));
            ("segment", JStr (bc_segment business)); ("tier", JStr (bc_tier business));
            ("region", JStr (bc_region business)); ("priority", JStr (bc_priority business));
            ("items", JArr (map item_input_json (kn_items input)))],
      apply_to_context business context).

Variables (url_ok : string -> bool) (parse_json : string -> option json) (http : HttpRequest -> HttpAnswer)
  (now later : Z).

Definition get_value := get_query_value_with_context url_ok parse_json http now later.
Definition post_value := post_json_value_with_context parse_json http now later.

Definition checkout (s : StoreContext) (uuid : string) (input : CheckoutInput) : result StoreError json :=
  request <- fails (checkout_body s uuid input) ;;
  post_value s (join_endpoint (st_checkout_endpoint s) "/checkout") request.1 "checkout" request.2.

(** ** Carts *)

(** The tenant, the customer and the session of a read *)
Definition identity_params (tenant : string) (customer session : option string) : list (string * string) :=
  ("tenant_id", tenant)
  :: match customer with Some customer => [("customer_id", customer)] | None => [] end
  ++ match session with Some session => [("session_id", session)] | None => [] end.

Definition cart (s : StoreContext) (uuid tenant customer : string) (session : option string) :
    result StoreError (option Cart) :=
  identity <- fails (resolve_identity s (Some tenant) (Some customer) session false uuid) ;;
  let context := outbound_context_for_identity span_valid s active identity in
  value <- get_value s (join_endpoint (st_checkout_endpoint s) "/api/cart")
             (identity_params (id_tenant_id identity) (Some (id_customer_id identity)) (id_session_id identity))
             "cart query" context ;;
  cart <- ok_or (jget "cart" value) (Message "cart query response omitted cart") ;;
  if is_null cart then Ok None
  else
    cart <- ok_or (read_cart cart) (Message "cart query returned an invalid durable cart payload") ;;
    Ok (Some cart).

Definition add_item_body (s : StoreContext) (uuid : string) (input : AddCartItemInput) :
    result string (json * Context) :=
  validate_add_cart_item_input input ;;
  identity <- resolve_identity s (ai_tenant_id input) (ai_customer_id input) (ai_session_id input) true uuid ;;
  currency <- required_currency (ai_currency_code input) ;;
  Ok (JObj [("tenant_id", JStr (id_tenant_id identity)); ("customer_id", JStr (id_customer_id identity));
            ("cart_id", option_json (non_blank (ai_cart_id input)));
            ("session_id", option_json (id_session_id identity)); ("sku", JStr (ai_sku input));
            ("quantity", JNum (ai_quantity input)); ("currency_code", JStr currency)],
      outbound_context_for_identity span_valid s active identity).

Definition add_cart_item (s : StoreContext) (uuid : string) (input : AddCartItemInput) :
    result StoreError CartItemAdded :=
  request <- fails (add_item_body s uuid input) ;;
  value <- post_value s (join_endpoint (st_checkout_endpoint s) "/api/cart/items") request.1 "cart item add"
             request.2 ;;
  fails (item_added_from_value value).

(** ** Orders *)

Definition checked_customer (customer : option string) : result string (option string) :=
  match trimmed customer with
  | Some value => validate_identity_component value "customer_id" ;; Ok (Some value)
  | None => Ok None
  end.

Definition orders (s : StoreContext) (tenant : string) (customer session : option string) :
    result StoreError (list Order) :=
  tenant <- fails (resolve_tenant_id s (Some tenant)) ;;
  customer <- fails (checked_customer customer) ;;
  session <- fails (resolve_session_id s session) ;;
  context <- outbound_for_tenant span_valid active s tenant ;;
  value <- get_value s (join_endpoint (st_checkout_endpoint s) "/api/orders")
             (identity_params tenant customer session) "order query" context ;;
  fails (order_list_from_value value tenant customer).

Definition order (s : StoreContext) (uuid tenant order_id customer : string) (session : option string) :
    result StoreError (option Order) :=
  identity <- fails (resolve_identity s (Some tenant) (Some customer) session false uuid) ;;
  let context := outbound_context_for_identity span_valid s active identity in
  value <- get_value s (join_endpoint (st_checkout_endpoint s) ("/api/orders/" +:+ order_id))
             (identity_params (id_tenant_id identity) (Some (id_customer_id identity)) (id_session_id identity))
             "order query" context ;;
  if is_null value then Ok None
  else
    order <- fails (order_try_from_value value) ;;
    ensure (opt_is (so_tenant_id order) (id_tenant_id identity)
            && opt_is (so_customer_id order) (id_customer_id identity))
      (Message "order response identity does not match the request") ;;
    Ok (Some order).

(** ** Analytics *)

Definition query_clickhouse := clickhouse_query_value_with_context url_ok parse_json http now later.

Definition analytics_query (event_name : option string) : string :=
  "SELECT toString(event_id) AS event_id, tenant_id, event_key, customer_id, "
  +:+ "event_name, event_version, source, entity_type, entity_id, "
  +:+ "toString(occurred_at) AS occurred_at, ifNull(trace_id, '') AS trace_id, "
  +:+ "ifNull(span_id, '') AS span_id, ifNull(traceparent, '') AS traceparent, "
  +:+ "ifNull(tracestate, '') AS tracestate, ifNull(baggage, '') AS baggage, "
  +:+ "ifNull(feature_variant, '') AS feature_variant, "
  +:+ "ifNull(properties, '{}') AS properties, ifNull(context, '{}') AS context "
  +:+ "FROM analytics.analytics_events FINAL "
  +:+ "WHERE tenant_id = {tenant_id:String}"
  +:+ (if event_name then " AND event_name = {event_name:String}" else "")
  +:+ " ORDER BY occurred_at DESC LIMIT {limit:UInt32} FORMAT JSON".

Definition event_name_param (event_name : option string) : list (string * string) :=
  match event_name with Some name => [("param_event_name", name)] | None => [] end.

Definition analytics (s : StoreContext) (tenant : string) (event_name : option string) (limit : Z) :
    result StoreError (list AnalyticsEvent) :=
  tenant <- fails (resolve_tenant_id s (Some tenant)) ;;
  context <- outbound_for_tenant span_valid active s tenant ;;
  value <- query_clickhouse s (st_clickhouse_url s)
             (params_with_query (analytics_query event_name)
                (("param_tenant_id", tenant) :: ("param_limit", show_Z limit) :: event_name_param event_name))
             "analytics query" context ;;
  rows <- ok_or (jget "data" value) (Message "analytics query returned no data") ;;
  ok_or (decode_vec read_analytics_event rows) (Message "analytics response rows are invalid").

Definition summary_query (event_name : option string) : string :=
  "SELECT count() AS event_count, uniqExact(customer_id) AS unique_customers, "
  +:+ "minOrNull(toString(occurred_at)) AS first_occurred_at, "
  +:+ "maxOrNull(toString(occurred_at)) AS last_occurred_at "
  +:+ "FROM analytics.analytics_events FINAL "
  +:+ "WHERE tenant_id = {tenant_id:String}"
  +:+ (if event_name then " AND event_name = {event_name:String}" else "")
  +:+ " FORMAT JSON".

Record AnalyticsSummary : Type := mkSummary {
  su_tenant_id : string; su_event_name : option string; su_event_count : Z; su_unique_customers : Z;
  su_first_occurred_at : option string; su_last_occurred_at : option string }.

Definition count_field (row : json) (name : string) : option Z :=
  n ← u64_field row name; if fits_i32 n then Some n else None.

Definition analytics_summary (s : StoreContext) (tenant : string) (event_name : option string) :
    result StoreError AnalyticsSummary :=
  tenant <- fails (resolve_tenant_id s (Some tenant)) ;;
  context <- outbound_for_tenant span_valid active s tenant ;;
  value <- query_clickhouse s (st_clickhouse_url s)
             (params_with_query (summary_query event_name)
                (("param_tenant_id", tenant) :: event_name_param event_name))
             "analytics summary query" context ;;
  rows <- ok_or (jget "data" value ≫= decode_array) (Message "analytics summary query returned no rows") ;;
  row <- ok_or (head rows) (Message "analytics summary query returned an empty result") ;;
  events <- ok_or (count_field row "event_count") (Message "analytics event count exceeds GraphQL Int") ;;
  customers <- ok_or (count_field row "unique_customers")
                 (Message "analytics customer count exceeds GraphQL Int") ;;
  first <- fails (optional_string_field row "first_occurred_at") ;;
  last <- fails (optional_string_field row "last_occurred_at") ;;
  Ok (mkSummary tenant event_name events customers first last).
End commerce.

End StoreCommerce.

(** The storefront's endpoints (services/storefront/src/api.rs): the GraphQL
    resolvers, the REST routes, and the recording of an analytics event
    (application.rs). *)
Module StoreApi.

Import Text Serde Proto Propagation CheckoutDomain StoreDomain StoreContext StoreErrors StoreClient
  StoreCommerce.

(** ** Recording an analytics event *)

Definition ANALYTICS_INSERT_QUERY : string :=
  "
INSERT INTO analytics.analytics_events
(
  event_id, tenant_id, event_key, customer_id, session_id, event_name, event_version,
  source, entity_type, entity_id, occurred_at, trace_id, span_id, traceparent,
  tracestate, baggage, feature_variant, properties, context
)
SELECT
  {event_id:UUID},
  {tenant_id:String},
  {event_key:String},
  nullIf({customer_id:String}, ''),
  nullIf({session_id:String}, ''),
  {event_name:String},
  {event_version:UInt16},
  {source:String},
  {entity_type:String},
  {entity_id:String},
  parseDateTime64BestEffort({occurred_at:String}, 3, 'UTC'),
  {trace_id:String},
  {span_id:String},
  {traceparent:String},
  {tracestate:String},
  {baggage:String},
  {feature_variant:String},
  {properties:String},
  {context:String}
".

Record AnalyticsAck : Type := mkAnalyticsAck { ak_event_key : string; ak_status : string }.

Definition is_object (v : json) : bool := match v with JObj _ => true | _ => false end.

(** A header's value as text, empty when it has none *)
Definition header_or_empty (name : string) (h : headers) : string :=
  default "" (default None (header_get name h)).

Local Open Scope result_scope.

Section api.
Variables (span_valid : Context -> bool) (active : Context) (url_ok : string -> bool)
  (parse_json : string -> option json) (json_text : json -> string) (http : HttpRequest -> HttpAnswer)
  (now later : Z).
(** The propagator's injection, the ids of a span in hexadecimal, the entries of
    a baggage in its order, SHA-256 and the text of a UUID's bytes *)
Variables (inject_context : Context -> headers -> headers) (trace_hex span_hex : Context -> string)
  (baggage_iter : Context -> list (string * string)) (sha256 : string -> string)
  (uuid_text : list ascii -> string).

Definition trace_id (c : Context) : string := if span_valid c then trace_hex c else "".
Definition span_id (c : Context) : string := if span_valid c then span_hex c else "".

(** [traceparent], [tracestate] and [baggage] *)
Definition propagation_headers (c : Context) : string * string * string :=
  let h := inject_context_headers inject_context c [] in
  (header_or_empty "traceparent" h, header_or_empty "tracestate" h, header_or_empty "baggage" h).

Definition baggage_value (c : Context) (key : string) : string := default "" (baggage_get c key).

(** The keys in the order of a serde_json map *)
Definition analytics_context_json (c : Context) (input : json) : json :=
  let '(traceparent, tracestate, baggage) := propagation_headers c in
  JObj ((if is_object input then [("attributes", input)] else [])
        ++ [("baggage", JStr baggage);
            ("baggage_items", JObj (map (fun kv => (kv.1, JStr kv.2)) (baggage_iter c)));
            ("feature_variant", JStr (baggage_value c "feature.variant"));
            ("traceparent", JStr traceparent); ("tracestate", JStr tracestate)]).

(** A text that must be a JSON object; ["{}"] when there is none *)
Definition object_text (name : string) (text : option string) : result string json :=
  value <- (match text with
            | Some text => ok_or (parse_json text) ("analytics " +:+ name +:+ " must be valid JSON")
            | None => Ok (JObj [])
            end) ;;
  ensure (is_object value) ("analytics " +:+ name +:+ " must be a JSON object") ;;
  Ok value.

(** The event's parameters *)
Definition analytics_event_params (s : StoreContext) (input : AnalyticsInput) :
    result string (list (string * string)) :=
  validate_analytics_input input ;;
  tenant <- resolve_tenant_id s (Some (an_tenant_id input)) ;;
  customer <- checked_customer (an_customer_id input) ;;
  session <- resolve_session_id s (an_session_id input) ;;
  session <- ok_or session "analytics session identity is required" ;;
  properties <- object_text "properties" (an_properties input) ;;
  context_value <- object_text "context" (an_context input) ;;
  context <- outbound_context_for_tenant span_valid s active tenant ;;
  let propagation := extend_baggage context [("session.id", session)] in
  let '(traceparent, tracestate, baggage) := propagation_headers propagation in
  Ok [("query", ANALYTICS_INSERT_QUERY);
      ("param_event_id", deterministic_event_id sha256 uuid_text tenant (an_event_key input));
      ("param_tenant_id", tenant); ("param_event_key", an_event_key input);
      ("param_customer_id", default "" customer); ("param_session_id", session);
      ("param_occurred_at", an_occurred_at input); ("param_event_name", an_event_name input);
      ("param_event_version", "1"); ("param_source", "storefront");
      ("param_entity_type", an_entity_type input); ("param_entity_id", an_entity_id input);
      ("param_trace_id", trace_id propagation); ("param_span_id", span_id propagation);
      ("param_traceparent", traceparent); ("param_tracestate", tracestate); ("param_baggage", baggage);
      ("param_feature_variant", baggage_value propagation "feature.variant");
      ("param_properties", json_text properties);
      ("param_context", json_text (analytics_context_json propagation context_value))].

Definition record_analytics (s : StoreContext) (input : AnalyticsInput) : result StoreError AnalyticsAck :=
  params <- fails (analytics_event_params s input) ;;
  check_url url_ok (st_clickhouse_url s) ;;
  auth <- clickhouse_request s ;;
  answer <- send_http http now s
              (mkHttpRequest "POST" (st_clickhouse_url s) params (outbound_context span_valid s active) auth None)
              "analytics insert" ;;
  let '(status, status_text, body) := answer in
  if is_success status then Ok (mkAnalyticsAck (an_event_key input) "recorded")
  else
    let text := match read_response_text later s body "analytics insert" with Ok text => text | Err _ => "" end in
    Err (Message ("analytics insert returned HTTP " +:+ status_text +:+ ": " +:+ truncate text)).

(** ** GraphQL resolvers *)

Definition FieldResult (A : Type) : Type := result (string * json) A.
Definition field {A} (r : result StoreError A) : FieldResult A := res_map_err (field_error parse_json) r.
Definition field_fails {A} (r : result string A) : FieldResult A := field (fails r).

Variables (catalog_product_query catalog_products_query catalog_categories_query : string) (uuid : string).

Definition query_product (s : StoreContext) (sku : string) (tenant segment : option string) :
    FieldResult (option Product) :=
  tenant <- field_fails (resolve_tenant_id s tenant) ;;
  field (catalog_product span_valid parse_json http now later active catalog_product_query
           s tenant sku (default "standard" segment)).

Definition query_products (s : StoreContext) (search cat : option string) (sort : option ProductSort)
    (tenant : option string) (page size : option Z) (segment : option string) : FieldResult ProductPage :=
  tenant <- field_fails (resolve_tenant_id s tenant) ;;
  field (catalog_products span_valid parse_json http now later active catalog_products_query s
           (mkProductsRequest tenant search cat sort (Z.max (default 0 page) 0) (clamp (default 20 size) 1 100)
              (default "standard" segment))).

Definition query_categories (s : StoreContext) (tenant : option string) : FieldResult (list Category) :=
  tenant <- field_fails (resolve_tenant_id s tenant) ;;
  field (catalog_categories span_valid parse_json http now later active catalog_categories_query s tenant).

Definition query_quote (s : StoreContext) (input : QuoteInput) (open : ChannelAnswer)
    (pricing : QuoteRequest -> Context -> option (result grpc_status QuoteResponse)) : FieldResult Quote :=
  field (quote span_valid active s uuid input now later open pricing).

Definition required_customer (customer : option string) : FieldResult string :=
  field_fails (ok_or (trimmed customer) "customer_id is required").

Definition query_cart (s : StoreContext) (tenant customer session : option string) :
    FieldResult (option Cart) :=
  tenant <- field_fails (resolve_tenant_id s tenant) ;;
  customer <- required_customer customer ;;
  field (cart span_valid active url_ok parse_json http now later s uuid tenant customer session).

Definition query_order (s : StoreContext) (order_id : string) (tenant customer session : option string) :
    FieldResult (option Order) :=
  tenant <- field_fails (resolve_tenant_id s tenant) ;;
  customer <- required_customer customer ;;
  field (order span_valid active url_ok parse_json http now later s uuid tenant order_id customer session).

Definition query_orders (s : StoreContext) (tenant customer session : option string) :
    FieldResult (list Order) :=
  tenant <- field_fails (resolve_tenant_id s tenant) ;;
  field (orders span_valid active url_ok parse_json http now later s tenant customer session).

(** [analytics] and [analyticsEvents] *)
Definition query_analytics (s : StoreContext) (tenant event_name : option string) (limit : option Z) :
    FieldResult (list AnalyticsEvent) :=
  tenant <- field_fails (resolve_tenant_id s tenant) ;;
  field (analytics span_valid active url_ok parse_json http now later s tenant event_name
           (clamp (default 50 limit) 1 100)).

Definition query_summary (s : StoreContext) (tenant event_name : option string) : FieldResult AnalyticsSummary :=
  tenant <- field_fails (resolve_tenant_id s tenant) ;;
  field (analytics_summary span_valid active url_ok parse_json http now later s tenant event_name).

Definition mutation_checkout (s : StoreContext) (input : CheckoutInput) : FieldResult CheckoutResult :=
  field (value <- checkout span_valid active parse_json http now later s uuid input ;;
         fails (checkout_result_try_from_value value)).

Definition mutation_add_cart_item (s : StoreContext) (input : AddCartItemInput) : FieldResult CartItemAdded :=
  field (add_cart_item span_valid active parse_json http now later s uuid input).

Definition mutation_record_analytics (s : StoreContext) (input : AnalyticsInput) : FieldResult AnalyticsAck :=
  field (record_analytics s input).

(** ** REST routes *)

Definition StoreApiResult : Type := result (Z * json) json.
Definition route {A} (r : result StoreError A) : result (Z * json) A := res_map_err (api_error parse_json) r.
Definition route_fails {A} (r : result string A) : result (Z * json) A := route (fails r).

Definition checkout_route (s : StoreContext) (input : CheckoutInput) : StoreApiResult :=
  route (checkout span_valid active parse_json http now later s uuid input).

Definition orders_route (s : StoreContext) (tenant customer session : option string) : StoreApiResult :=
  tenant <- route_fails (resolve_tenant_id s tenant) ;;
  session <- route_fails (resolve_session_id s session) ;;
  orders <- route (orders span_valid active url_ok parse_json http now later s tenant customer session) ;;
  Ok (JObj [("orders", JArr (map order_json orders)); ("tenant_id", JStr tenant);
            ("customer_id", option_json customer); ("session_id", option_json session)]).

Definition order_route (s : StoreContext) (order_id : string) (tenant customer session : option string) :
    StoreApiResult :=
  tenant <- route_fails (resolve_tenant_id s tenant) ;;
  customer <- route_fails (ok_or (trimmed customer) "customer_id is required") ;;
  session <- route_fails (resolve_session_id s session) ;;
  found <- route (order span_valid active url_ok parse_json http now later s uuid tenant order_id customer session) ;;
  match found with
  | Some order => Ok (order_json order)
  | None => Err (404, JObj [("error", JStr "order_not_found"); ("order_id", JStr order_id)])
  end.

Definition analytics_event_json (e : AnalyticsEvent) : json :=
  JObj [("event_id", JStr (ae_event_id e)); ("tenant_id", JStr (ae_tenant_id e));
        ("event_key", JStr (ae_event_key e)); ("customer_id", option_json (ae_customer_id e));
        ("event_name", JStr (ae_event_name e)); ("event_version", JNum (ae_event_version e));
        ("source", JStr (ae_source e)); ("entity_type", JStr (ae_entity_type e));
        ("entity_id", JStr (ae_entity_id e)); ("occurred_at", JStr (ae_occurred_at e));
        ("trace_id", JStr (ae_trace_id e)); ("span_id", JStr (ae_span_id e));
        ("traceparent", JStr (ae_traceparent e)); ("tracestate", JStr (ae_tracestate e));
        ("baggage", JStr (ae_baggage e)); ("feature_variant", JStr (ae_feature_variant e));
        ("properties", JStr (ae_properties e)); ("context", JStr (ae_context e))].

Definition analytics_route (s : StoreContext) (tenant event_name : option string) (limit : option Z) :
    StoreApiResult :=
  tenant <- route_fails (resolve_tenant_id s tenant) ;;
  events <- route (analytics span_valid active url_ok parse_json http now later s tenant event_name
                     (clamp (default 50 limit) 1 100)) ;;
  Ok (JArr (map analytics_event_json events)).

Definition record_analytics_route (s : StoreContext) (input : AnalyticsInput) : StoreApiResult :=
  ack <- route (record_analytics s input) ;;
  Ok (JObj [("event_key", JStr (ak_event_key ack)); ("status", JStr (ak_status ack))]).
End api.

End StoreApi.
