(* ===== verification/StorePrices.v ===== *)
(** The price-change subscription of the storefront
    (services/storefront/src/api.rs, [run_price_change_subscription], and the
    listener of infrastructure.rs): a loop that reads the catalog's durable
    journal and delivers each change to one client. *)

From stdpp Require Import sorting.
From S2P Require Import Prelude Values Propagation StoreDomain StoreUpstream.
Import Text Serde Propagation StoreDomain StoreContext StoreErrors StoreClient.

(** ** The journal *)

(** The committed rows of [price_change_events] *)
Definition journal : Type := list PriceChangeNotification.

(** [WHERE tenant_id=$1 AND ($2::text IS NULL OR sku=$2::text)] *)
Definition event_in (tenant : string) (sku : option string) (e : PriceChangeNotification) : bool :=
  String.eqb (pn_tenant_id e) tenant
  && match sku with Some sku => String.eqb (pn_sku e) sku | None => true end.

Definition by_sequence (a b : PriceChangeNotification) : Prop := pn_sequence a <= pn_sequence b.
#[export] Instance by_sequence_dec a b : Decision (by_sequence a b).
Proof. unfold by_sequence. apply _. Defined.
#[export] Instance by_sequence_total : Total by_sequence.
Proof. intros a b. unfold by_sequence. lia. Qed.
#[export] Instance by_sequence_trans : Transitive by_sequence.
Proof. intros a b c. unfold by_sequence. lia. Qed.

(** [COALESCE(MAX(sequence), 0)] *)
Definition latest_sequence (tenant : string) (sku : option string) (j : journal) : Z :=
  match map pn_sequence (List.filter (event_in tenant sku) j) with
  | [] => 0
  | n :: rest => foldl Z.max n rest
  end.

(** [AND sequence>$3 ORDER BY sequence] *)
Definition events_after (tenant : string) (sku : option string) (sequence : Z) (j : journal) : journal :=
  merge_sort by_sequence
    (List.filter (fun e => event_in tenant sku e && (sequence <? pn_sequence e)) j).

(** ** The task *)

(** Where the task waits. *)
Inductive phase : Type :=
| Connecting
| Capturing
| Replaying
| Projecting (events : journal) (notified : bool)
| Waiting
| Backoff
| Stopped.

Record Task : Type := mkTask { tk_phase : phase; tk_sequence : Z; tk_captured : bool }.

Definition new_task : Task := mkTask Connecting 0 false.

Definition in_phase (p : phase) (t : Task) : Task := mkTask p (tk_sequence t) (tk_captured t).

(** What the task is answered where it waits.  [Shutdown] and [Closed] are the
    branches of its selects, and its checks, that end it. *)
Inductive answer : Type :=
| Ready (notified : bool)
| Projected (product : result StoreError (option Product))
| Failed
| Shutdown
| Closed.

(** The loop over the events of a replay: those at or below the sequence are
    passed over, and a notification that came with the replay starts another. *)
Fixpoint skip_seen (sequence : Z) (events : journal) : journal :=
  match events with
  | [] => []
  | e :: rest => if pn_sequence e <=? sequence then skip_seen sequence rest else events
  end.

Definition after_replay (events : journal) (notified : bool) (t : Task) : Task :=
  match skip_seen (tk_sequence t) events with
  | [] => in_phase (if notified then Replaying else Waiting) t
  | events => in_phase (Projecting events notified) t
  end.

Section task.
Variables (tenant : string) (sku : option string).

(** One answer: the task that goes on and what it made of an event, when the
    answer is one the task waits for there.  Sending a change to a client that
    left ends the task with the change undelivered. *)
Definition task_step (closed : bool) (j : journal) (t : Task) (a : answer) :
    option (Task * option (PriceChangeNotification * option PriceChange)) :=
  match tk_phase t, a with
  | Connecting, Ready _ => Some (in_phase (if tk_captured t then Replaying else Capturing) t, None)
  | Connecting, Failed => Some (in_phase Backoff t, None)
  | Connecting, (Shutdown | Closed) => Some (in_phase Stopped t, None)
  | Capturing, Ready _ => Some (mkTask Replaying (latest_sequence tenant sku j) true, None)
  | Capturing, Failed => Some (in_phase Backoff t, None)
  | Replaying, Ready notified =>
      Some (after_replay (events_after tenant sku (tk_sequence t) j) notified t, None)
  | Replaying, Failed => Some (in_phase Backoff t, None)
  | Projecting (e :: rest) notified, Projected (Ok product) =>
      let t := mkTask (tk_phase t) (pn_sequence e) (tk_captured t) in
      match price_change_of e product with
      | Some change =>
          if closed then Some (in_phase Stopped t, None)
          else Some (after_replay rest notified t, Some (e, Some change))
      | None => Some (after_replay rest notified t, Some (e, None))
      end
  | Projecting (_ :: _) _, Projected (Err _) => Some (in_phase Backoff t, None)
  | Waiting, Ready _ => Some (in_phase Replaying t, None)
  | Waiting, Failed => Some (in_phase Backoff t, None)
  | Waiting, Closed => Some (in_phase Stopped t, None)
  | Backoff, Ready _ => Some (in_phase Connecting t, None)
  | Backoff, Closed => Some (in_phase Stopped t, None)
  | (Capturing | Replaying | Projecting _ _ | Waiting | Backoff), Shutdown => Some (in_phase Stopped t, None)
  | _, _ => None
  end.

(** ** Runs *)

(** The journal, whether the client has left and the service shuts down, the
    task, and the events it has handled, the last one first *)
Record World : Type := mkWorld {
  wd_journal : journal; wd_closed : bool; wd_down : bool; wd_task : Task;
  wd_handled : list (PriceChangeNotification * option PriceChange) }.

Definition new_world (j : journal) : World := mkWorld j false false new_task [].

Inductive event : Type :=
| Commit (e : PriceChangeNotification)
| Leave
| ShutDown
| Run (a : answer).

(** An answer that ends the task comes only when its cause has happened. *)
Definition allowed (w : World) (a : answer) : bool :=
  match a with Shutdown => wd_down w | Closed => wd_closed w | _ => true end.

Definition world_step (w : World) (e : event) : World :=
  match e with
  | Commit e => mkWorld (e :: wd_journal w) (wd_closed w) (wd_down w) (wd_task w) (wd_handled w)
  | Leave => mkWorld (wd_journal w) true (wd_down w) (wd_task w) (wd_handled w)
  | ShutDown => mkWorld (wd_journal w) (wd_closed w) true (wd_task w) (wd_handled w)
  | Run a =>
      if allowed w a then
        match task_step (wd_closed w) (wd_journal w) (wd_task w) a with
        | Some (t, handled) =>
            mkWorld (wd_journal w) (wd_closed w) (wd_down w) t (option_list handled ++ wd_handled w)
        | None => w
        end
      else w
  end.

Definition run_world (w : World) (es : list event) : World := foldl world_step w es.

(** What the client was sent, in order *)
Definition delivered (w : World) : list (PriceChangeNotification * PriceChange) :=
  rev (omap (fun h => (fun c => (h.1, c)) <$> h.2) (wd_handled w)).
End task.

(** ** The tasks of all subscriptions *)

(** The registered tasks, each finished or not, and whether the service has
    begun to stop *)
Record SubscriptionRegistry : Type := mkRegistry { rg_cancelled : bool; rg_tasks : list bool }.

Definition registry_spawn (r : SubscriptionRegistry) : bool * SubscriptionRegistry :=
  let tasks := List.filter negb (rg_tasks r) in
  if rg_cancelled r then (false, mkRegistry (rg_cancelled r) tasks)
  else (true, mkRegistry (rg_cancelled r) (tasks ++ [false])).

Definition registry_cancel (r : SubscriptionRegistry) : SubscriptionRegistry := mkRegistry true (rg_tasks r).

(** How a task ends while the registry drains: by itself, by a failure, or not
    before the deadline, which aborts it *)
Inductive task_end : Type :=
| Ended
| TaskFailed (m : string)
| Overdue.

Definition drain_error (e : task_end) : option string :=
  match e with
  | Ended => None
  | TaskFailed m => Some ("storefront price subscription task failed: " +:+ m)
  | Overdue => Some "storefront price subscription did not stop before the drain deadline"
  end.

(** The first error is the one reported. *)
Definition registry_shutdown (r : SubscriptionRegistry) (ends : list task_end) :
    result string unit * SubscriptionRegistry :=
  (match head (omap drain_error ends) with Some m => Err m | None => Ok tt end, mkRegistry true []).
