(* ===== verification/StorePriceRuns.v ===== *)
(** What a price-change subscription delivers: in the order of the journal, each
    event at most once, nothing between two deliveries passed over when the
    journal's sequence follows its commits, and what happens when it does not. *)

From stdpp Require Import sorting.
From S2P Require Import Prelude Values Propagation StoreDomain StoreUpstream StorePrices.
Import Text Serde Propagation StoreDomain StoreContext StoreErrors StoreClient StorePrices.

Section runs.
Variables (tenant : string) (sku : option string).
Notation step := (world_step tenant sku).
Notation run := (run_world tenant sku).
Notation matches := (event_in tenant sku).

(** ** The journal's queries *)

Lemma events_after_in sequence j e :
  In e (events_after tenant sku sequence j) <-> In e j /\ matches e = true /\ sequence < pn_sequence e.
Proof.
  unfold events_after. rewrite <- list_elem_of_In, merge_sort_Permutation, list_elem_of_In, filter_In.
  rewrite andb_true_iff, Z.ltb_lt. done.
Qed.

Lemma events_after_sorted sequence j : StronglySorted by_sequence (events_after tenant sku sequence j).
Proof. apply (StronglySorted_merge_sort by_sequence). Qed.

Lemma foldl_max l n : n <= foldl Z.max n l /\ forall m, In m l -> m <= foldl Z.max n l.
Proof.
  revert n. induction l as [|a l IH]; intros n; simpl; [split; [lia|done]|].
  destruct (IH (Z.max n a)) as [H1 H2]. split; [lia|]. intros m [->|Hm]; [lia|by apply H2].
Qed.

Lemma latest_sequence_max j e : In e j -> matches e = true -> pn_sequence e <= latest_sequence tenant sku j.
Proof.
  intros Hin Hm. unfold latest_sequence.
  assert (H : In (pn_sequence e) (map pn_sequence (List.filter matches j))).
  { apply in_map. by apply filter_In. }
  destruct (map _ _) as [|n rest]; [done|]. destruct (foldl_max rest n) as [H1 H2].
  destruct H as [<-|H]; [done|by apply H2].
Qed.

(** ** The events of a replay *)

Lemma skip_seen_spec sequence events :
  StronglySorted by_sequence events ->
  StronglySorted by_sequence (skip_seen sequence events)
  /\ forall e, In e (skip_seen sequence events) <-> In e events /\ sequence < pn_sequence e.
Proof.
  induction 1 as [|e rest Hs IH Hle]; simpl; [split; [constructor|naive_solver]|].
  destruct (pn_sequence e <=? sequence) eqn:E; bool_inv.
  - destruct IH as [IH1 IH2]. split; [done|]. intros e'. rewrite IH2. split; [tauto|].
    intros [[<-|Hin] Hlt]; [lia|done].
  - split; [by constructor|]. intros e'. simpl. split; [|tauto]. intros Hin. split; [done|].
    destruct Hin as [<-|Hin]; [done|]. rewrite Forall_forall in Hle. specialize (Hle e').
    rewrite list_elem_of_In in Hle. unfold by_sequence in Hle. specialize (Hle Hin). lia.
Qed.

(** What the task holds while it projects *)
Definition queued (t : Task) : journal :=
  match tk_phase t with Projecting events _ => events | _ => [] end.

(** The task and the events it has handled, over a journal *)
Record task_ok (j : journal) (t : Task) (handled : list (PriceChangeNotification * option PriceChange)) : Prop := {
  to_sorted : StronglySorted by_sequence (queued t);
  to_queued : forall e, In e (queued t) -> In e j /\ matches e = true /\ tk_sequence t < pn_sequence e;
  to_handled : StronglySorted (fun a b => pn_sequence b < pn_sequence a) (map fst handled);
  to_below : forall h, In h handled ->
    In h.1 j /\ matches h.1 = true /\ pn_sequence h.1 <= tk_sequence t
    /\ exists product, h.2 = price_change_of h.1 product;
  to_captured : match tk_phase t with
                | Capturing => tk_captured t = false
                | Replaying | Projecting _ _ | Waiting => tk_captured t = true
                | Connecting | Backoff | Stopped => True
                end;
  to_fresh : tk_captured t = false -> handled = []
}.

Lemma queued_after_replay events notified t :
  StronglySorted by_sequence events ->
  queued (after_replay events notified t) = skip_seen (tk_sequence t) events
  /\ tk_sequence (after_replay events notified t) = tk_sequence t
  /\ tk_captured (after_replay events notified t) = tk_captured t.
Proof. unfold after_replay. destruct (skip_seen _ _); [by destruct notified|done]. Qed.

Lemma after_replay_ok j t events notified handled :
  StronglySorted by_sequence events ->
  (forall e, In e events -> In e j /\ matches e = true) ->
  StronglySorted (fun a b => pn_sequence b < pn_sequence a) (map fst handled) ->
  (forall h, In h handled -> In h.1 j /\ matches h.1 = true /\ pn_sequence h.1 <= tk_sequence t
     /\ exists product, h.2 = price_change_of h.1 product) ->
  tk_captured t = true ->
  task_ok j (after_replay events notified t) handled.
Proof.
  intros Hs Hj Hh Hb Hc. destruct (queued_after_replay events notified t Hs) as (Hq & Hseq & Hcap).
  destruct (skip_seen_spec (tk_sequence t) events Hs) as [Hsk Hin].
  split; rewrite ?Hq, ?Hseq, ?Hcap; try done.
  - intros e He. apply Hin in He as [He Hlt]. destruct (Hj e He). done.
  - unfold after_replay. destruct (skip_seen _ _); [by destruct notified|done].
  - congruence.
Qed.

Lemma in_phase_ok j t handled p :
  task_ok j t handled -> (forall events n, p <> Projecting events n) ->
  (match p with Replaying | Waiting => tk_captured t = true | Capturing => tk_captured t = false | _ => True end) ->
  task_ok j (in_phase p t) handled.
Proof.
  intros [H1 H2 H3 H4 H5 H6] Hp Hc. split; simpl; try done.
  - unfold queued. simpl. destruct p; try constructor. by edestruct Hp.
  - unfold queued. simpl. destruct p; try done. by edestruct Hp.
  - destruct p; try done. by edestruct Hp.
Qed.

Lemma task_step_ok closed j t a t' handled new :
  task_ok j t handled -> task_step tenant sku closed j t a = Some (t', new) ->
  task_ok j t' (option_list new ++ handled).
Proof.
  intros Hok Hstep. unfold task_step in Hstep. pose proof Hok as [H1 H2 H3 H4 H5 H6].
  destruct (tk_phase t) as [| | |events notified| | |] eqn:Ep; try (by destruct a).
  all: try (destruct a; simplify_eq; simpl; try done; apply in_phase_ok; try done; by destruct (tk_captured t)).
  - destruct a; simplify_eq; simpl; try (by apply in_phase_ok).
    rewrite (H6 H5). by split; simpl; try constructor.
  - destruct a; simplify_eq; simpl; try (by apply in_phase_ok).
    apply after_replay_ok; try done; [apply events_after_sorted|].
    intros e He. apply events_after_in in He. tauto.
  - unfold queued in *. rewrite Ep in *. destruct events as [|e rest]; [destruct a; simplify_eq; by apply in_phase_ok|].
    destruct a as [n|[product|err]| | |]; try done; simplify_eq; simpl; try (by apply in_phase_ok).
    inversion_clear H1 as [|? ? Hrest Hle]. destruct (H2 e (or_introl eq_refl)) as (Hj & Hm & Hlt).
    assert (Hup : forall h, In h handled -> In h.1 j /\ matches h.1 = true /\ pn_sequence h.1 <= pn_sequence e
               /\ exists product, h.2 = price_change_of h.1 product).
    { intros h Hh. destruct (H4 h Hh) as (? & ? & ? & ?). split_and!; [done|done|lia|done]. }
    assert (Hdone : task_ok j (after_replay rest notified (mkTask (Projecting (e :: rest) notified) (pn_sequence e) (tk_captured t)))
              ((e, price_change_of e product) :: handled)).
    { apply after_replay_ok; simpl; try done.
      - intros e' He'. destruct (H2 e' (or_intror He')). tauto.
      - constructor; [done|]. apply Forall_map, Forall_forall. intros h Hh. apply list_elem_of_In in Hh.
        destruct (H4 h Hh) as (_ & _ & ? & _). simpl. lia.
      - intros h [<-|Hh]; [|by apply Hup]. simpl. split_and!; [done|done|lia|by exists product]. }
    destruct (price_change_of e product) as [change|] eqn:Ech; [destruct closed|]; simplify_eq; simpl; [|done|done].
    split; simpl; try done. constructor.
Qed.

(** ** Runs *)

Definition world_ok (w : World) : Prop := task_ok (wd_journal w) (wd_task w) (wd_handled w).

Lemma task_ok_grows j e t handled : task_ok j t handled -> task_ok (e :: j) t handled.
Proof.
  intros [H1 H2 H3 H4 H5 H6]. split; try done.
  - intros e' He'. destruct (H2 e' He') as (? & ? & ?). split_and!; [by right|done|done].
  - intros h Hh. destruct (H4 h Hh) as (? & ? & ? & ?). split_and!; [by right|done..].
Qed.

Lemma world_step_ok w e : world_ok w -> world_ok (step w e).
Proof.
  unfold world_ok. intros Hok. destruct e as [e| | |a]; simpl; try done; [by apply task_ok_grows|].
  destruct (allowed w a); [|done]. destruct (task_step _ _ _ _ _ _) as [[t new]|] eqn:E; [|done]. simpl.
  by eapply task_step_ok.
Qed.

Lemma run_ok es w : world_ok w -> world_ok (run w es).
Proof. revert w. induction es as [|e es IH]; intros w Hw; simpl; [done|]. apply IH. by apply world_step_ok. Qed.

Lemma new_world_ok j : world_ok (new_world j).
Proof. split; simpl; try done; constructor. Qed.

Lemma run_app es1 es2 w : run w (es1 ++ es2) = run (run w es1) es2.
Proof. apply foldl_app. Qed.

(** A task that has its baseline keeps it, and its sequence only grows. *)
Lemma task_step_grows closed j t a t' handled new :
  task_ok j t handled -> task_step tenant sku closed j t a = Some (t', new) -> tk_captured t = true ->
  tk_captured t' = true /\ tk_sequence t <= tk_sequence t'
  /\ forall h, new = Some h -> tk_sequence t < pn_sequence h.1.
Proof.
  intros Hok Hstep Hcap. unfold task_step in Hstep. pose proof Hok as [H1 H2 _ _ H5 _].
  destruct (tk_phase t) as [| | |events notified| | |] eqn:Ep; try (by destruct a);
    try (destruct a; simplify_eq; simpl; split_and!; done).
  - by rewrite Hcap in H5.
  - destruct a; simplify_eq; simpl; try (by split_and!).
    destruct (queued_after_replay (events_after tenant sku (tk_sequence t) j) notified t
                (events_after_sorted _ _)) as (_ & -> & ->). by split_and!.
  - unfold queued in *. rewrite Ep in *. destruct events as [|e rest]; [destruct a; by simplify_eq|].
    inversion_clear H1 as [|? ? Hrest Hle]. destruct (H2 e (or_introl eq_refl)) as (_ & _ & Hlt).
    pose proof (queued_after_replay rest notified
                  (mkTask (Projecting (e :: rest) notified) (pn_sequence e) (tk_captured t)) Hrest) as (_ & Hs & Hc).
    destruct a as [n|[product|err]| | |]; try done; simplify_eq; simpl; try (by split_and!).
    destruct (price_change_of e product); [destruct closed|]; simplify_eq; simpl in *; rewrite ?Hs, ?Hc;
      split_and!; try done; try lia; intros h [= <-]; done.
Qed.

Lemma world_step_grows w e :
  world_ok w -> tk_captured (wd_task w) = true ->
  tk_captured (wd_task (step w e)) = true /\ tk_sequence (wd_task w) <= tk_sequence (wd_task (step w e))
  /\ forall h, In h (wd_handled (step w e)) -> In h (wd_handled w) \/ tk_sequence (wd_task w) < pn_sequence h.1.
Proof.
  intros Hok Hcap. destruct e as [e| | |a]; simpl; try (split_and!; [done|lia|by left]).
  destruct (allowed w a); [|split_and!; [done|lia|by left]].
  destruct (task_step _ _ _ _ _ _) as [[t new]|] eqn:E; [|split_and!; [done|lia|by left]]. simpl.
  destruct (task_step_grows _ _ _ _ _ _ _ Hok E Hcap) as (? & ? & Hnew). split_and!; [done|done|].
  intros h Hh. apply in_app_or in Hh as [Hh|Hh]; [|by left]. right. apply Hnew. by destruct new as [h'|]; [destruct Hh as [<-|[]]|].
Qed.

Lemma run_grows es w :
  world_ok w -> tk_captured (wd_task w) = true ->
  tk_captured (wd_task (run w es)) = true /\ tk_sequence (wd_task w) <= tk_sequence (wd_task (run w es))
  /\ forall h, In h (wd_handled (run w es)) -> In h (wd_handled w) \/ tk_sequence (wd_task w) < pn_sequence h.1.
Proof.
  revert w. induction es as [|e es IH]; intros w Hok Hcap; simpl; [split_and!; [done|lia|by left]|].
  destruct (world_step_grows w e Hok Hcap) as (Hc & Hs & Hh).
  destruct (IH (step w e)) as (Hc' & Hs' & Hh'); [by apply world_step_ok|done|]. split_and!; [done|lia|].
  intros h Hin. destruct (Hh' h Hin) as [Hin'|Hlt]; [by apply Hh|right; lia].
Qed.

(** ** Nothing is passed over *)

(** Sequences are unique in a journal. *)
Definition unique (j : journal) : Prop :=
  forall a b, In a j -> In b j -> pn_sequence a = pn_sequence b -> a = b.

(** The commits of a run come in the order of their sequences, which are positive. *)
Fixpoint ordered (j : journal) (es : list event) : Prop :=
  match es with
  | [] => True
  | Commit e :: rest =>
      (0 < pn_sequence e /\ forall x, In x j -> pn_sequence x < pn_sequence e) /\ ordered (e :: j) rest
  | _ :: rest => ordered j rest
  end.

(** The queue of a task holds every matching row up to its last, and the
    sequence is that of a row, or no row's. *)
Record queue_ok (j : journal) (t : Task) : Prop := {
  qo_unique : unique j;
  qo_known : tk_sequence t <= 0 \/ exists x, In x j /\ tk_sequence t = pn_sequence x;
  qo_queued : forall e x, In e j -> matches e = true -> In x (queued t) ->
    tk_sequence t < pn_sequence e <= pn_sequence x -> In e (queued t)
}.

(** Every matching row at or below the sequence is one of [base] or was handled. *)
Definition behind (base : journal) (w : World) : Prop :=
  tk_phase (wd_task w) <> Stopped ->
  forall e, In e (wd_journal w) -> matches e = true -> pn_sequence e <= tk_sequence (wd_task w) ->
    In e base \/ In e (map fst (wd_handled w)).

Lemma latest_sequence_known j :
  latest_sequence tenant sku j <= 0 \/ exists x, In x j /\ latest_sequence tenant sku j = pn_sequence x.
Proof.
  unfold latest_sequence. destruct (map pn_sequence (List.filter matches j)) as [|n rest] eqn:E; [left; lia|].
  right. assert (Hin : In (foldl Z.max n rest) (n :: rest)).
  { clear E. revert n. induction rest as [|a rest IH]; intros n; simpl; [by left|].
    destruct (IH (Z.max n a)) as [H|H]; [|by auto]. rewrite <- H. destruct (Z.max_spec n a) as [[_ ->]|[_ ->]]; auto. }
  rewrite <- E in Hin. apply in_map_iff in Hin as (x & Hx & Hin). apply filter_In in Hin as [Hin _].
  by exists x.
Qed.

Lemma queue_ok_commit e j t :
  (0 < pn_sequence e /\ forall x, In x j -> pn_sequence x < pn_sequence e) ->
  (forall x, In x (queued t) -> In x j) ->
  queue_ok j t -> queue_ok (e :: j) t /\ tk_sequence t < pn_sequence e.
Proof.
  intros [Hpos He] Hq [Hu Hk Hc].
  assert (Hlt : tk_sequence t < pn_sequence e).
  { destruct Hk as [Hk|(x & Hx & ->)]; [lia|by apply He]. }
  split; [|done]. split.
  - intros a b [<-|Ha] [<-|Hb] Hab; [done| | |by apply Hu].
    + specialize (He b Hb). lia.
    + specialize (He a Ha). lia.
  - destruct Hk as [Hk|(x & Hx & Hs)]; [by left|]. right. exists x. split; [by right|done].
  - intros a x [<-|Ha] Hm Hx Hle; [|by apply (Hc a x)].
    pose proof (He x (Hq x Hx)). lia.
Qed.

Lemma queue_ok_idle j t : unique j ->
  (tk_sequence t <= 0 \/ exists x, In x j /\ tk_sequence t = pn_sequence x) -> queued t = [] -> queue_ok j t.
Proof. intros Hu Hk Hq. split; [done|done|]. intros e x _ _ Hx. by rewrite Hq in Hx. Qed.

(** Handling the first of a queue moves the sequence to it, past no other row. *)
Lemma queue_ok_handled j t e rest notified :
  queue_ok j t -> In e j -> StronglySorted by_sequence (e :: rest) -> queued t = e :: rest ->
  (forall x, In x (e :: rest) -> tk_sequence t < pn_sequence x) ->
  queue_ok j (after_replay rest notified (mkTask (tk_phase t) (pn_sequence e) (tk_captured t)))
  /\ forall e', In e' j -> matches e' = true -> tk_sequence t < pn_sequence e' <= pn_sequence e -> e' = e.
Proof.
  intros [Hu Hk Hc] He Hsort Hq Hqueue. inversion_clear Hsort as [|? ? Hrest Hle]. split.
  - set (t' := mkTask _ _ _). destruct (queued_after_replay rest notified t' Hrest) as (Hq' & Hs' & _).
    destruct (skip_seen_spec (tk_sequence t') rest Hrest) as [_ Hin].
    split; rewrite ?Hq', ?Hs'; [done|right; by exists e|].
    intros a x Ha Hm Hx Hax. apply Hin in Hx as [Hx Hlt]. apply Hin. split; [|lia].
    assert (Hle' : pn_sequence e <= pn_sequence x).
    { rewrite Forall_forall in Hle. apply (Hle x). by apply list_elem_of_In. }
    destruct (decide (tk_sequence t < pn_sequence a)) as [Hta|Hta].
    + rewrite Hq in Hc. destruct (Hc a x Ha Hm (or_intror Hx)) as [<-|Hin']; simpl in *; [lia|lia|done].
    + simpl in *. specialize (Hqueue e (or_introl eq_refl)). lia.
  - intros e' He' Hm [Hlo Hhi]. rewrite Hq in Hc.
    destruct (Hc e' e He' Hm (or_introl eq_refl)) as [<-|Hin]; [lia|done|]. apply Hu; [done|done|].
    rewrite Forall_forall in Hle. specialize (Hle e'). rewrite list_elem_of_In in Hle.
    specialize (Hle Hin). unfold by_sequence in Hle. lia.
Qed.

Lemma task_step_queue closed j t a t' new handled :
  task_ok j t handled -> queue_ok j t -> task_step tenant sku closed j t a = Some (t', new) ->
  queue_ok j t'
  /\ (tk_captured t = true -> tk_phase t' <> Stopped ->
       forall e, In e j -> matches e = true -> pn_sequence e <= tk_sequence t' ->
         pn_sequence e <= tk_sequence t \/ In e (map fst (option_list new))).
Proof.
  intros Hok Hq Hstep. pose proof Hok as [H1 H2 _ _ H5 _]. pose proof Hq as [Hu Hk Hc].
  assert (Hidle : forall p, (forall events n, p <> Projecting events n) -> queue_ok j (in_phase p t)).
  { intros p Hp. apply queue_ok_idle; [done|done|]. unfold queued. simpl. destruct p; try done. by edestruct Hp. }
  assert (Hgo : forall p, (forall events n, p <> Projecting events n) -> in_phase p t = t' -> new = None ->
    queue_ok j t'
    /\ (tk_captured t = true -> tk_phase t' <> Stopped ->
         forall e, In e j -> matches e = true -> pn_sequence e <= tk_sequence t' ->
           pn_sequence e <= tk_sequence t \/ In e (map fst (option_list new)))).
  { intros p Hp <- ->. split; [by apply Hidle|]. intros _ _ e _ _ Hle. by left. }
  unfold task_step in Hstep. destruct (tk_phase t) as [| | |events notified| | |] eqn:Ep; try (by destruct a);
    try (destruct a; simplify_eq; (eapply Hgo; [|reflexivity|reflexivity]); intros events n; by destruct (tk_captured t)).
  - destruct a; simplify_eq; try (by eapply Hgo; [|reflexivity|reflexivity]). split; [|intros Hcap; by rewrite Hcap in H5].
    apply queue_ok_idle; [done|apply latest_sequence_known|done].
  - destruct a as [n|[]| | |]; simplify_eq; try (by eapply Hgo; [|reflexivity|reflexivity]).
    destruct (queued_after_replay _ n t (events_after_sorted (tk_sequence t) j)) as (Hqa & Hsa & _).
    destruct (skip_seen_spec (tk_sequence t) _ (events_after_sorted (tk_sequence t) j)) as [_ Hin].
    split; [|rewrite Hsa; by left]. split; rewrite ?Hqa, ?Hsa; [done|done|].
    intros e x He Hm _ Hlt. apply Hin. split; [|lia]. apply events_after_in. split_and!; [done|done|lia].
  - unfold queued in H1, H2. rewrite Ep in H1, H2.
    destruct events as [|e rest]; [destruct a; simplify_eq; by eapply Hgo; [|reflexivity|reflexivity]|].
    assert (Hqe : queued t = e :: rest) by (unfold queued; by rewrite Ep).
    destruct (queue_ok_handled j t e rest notified Hq) as [Hnext Honly];
      [by apply H2; left|done|done|by intros x Hx; apply H2|]. rewrite Ep in Hnext.
    inversion_clear H1 as [|? ? Hrest Hle].
    destruct a as [n|[product|err]| | |]; try done; simplify_eq; try (by eapply Hgo; [|reflexivity|reflexivity]).
    pose proof (queued_after_replay rest notified
                  (mkTask (Projecting (e :: rest) notified) (pn_sequence e) (tk_captured t)) Hrest) as (_ & Hs & _).
    assert (Hnew : forall e', In e' j -> matches e' = true -> pn_sequence e' <= pn_sequence e ->
              pn_sequence e' <= tk_sequence t \/ e = e').
    { intros e' He' Hm Hle'. destruct (decide (pn_sequence e' <= tk_sequence t)) as [|Hgt]; [by left|].
      right. symmetry. apply Honly; [done|done|lia]. }
    destruct (price_change_of e product); [destruct closed|]; simplify_eq; simpl.
    + split; [|done]. apply queue_ok_idle; [done| |done]. right. exists e. split; [by apply H2; left|done].
    + split; [done|]. intros _ _ e' He' Hm Hlt. rewrite Hs in Hlt. simpl in *. destruct (Hnew e'); auto.
    + split; [done|]. intros _ _ e' He' Hm Hlt. rewrite Hs in Hlt. simpl in *. destruct (Hnew e'); auto.
Qed.

Lemma stopped_stays w e : tk_phase (wd_task w) = Stopped -> tk_phase (wd_task (step w e)) = Stopped.
Proof.
  intros Hp. destruct e as [e| | |a]; simpl; try done. destruct (allowed w a); [|done].
  unfold task_step. rewrite Hp. by destruct a.
Qed.

Definition next_journal (j : journal) (e : event) : journal :=
  match e with Commit e => e :: j | _ => j end.

Lemma world_step_journal w e : wd_journal (step w e) = next_journal (wd_journal w) e.
Proof.
  destruct e as [e| | |a]; simpl; try done. destruct (allowed w a); [|done]. by destruct (task_step _ _ _ _ _ _) as [[]|].
Qed.

Lemma ordered_cons j e es : ordered j (e :: es) -> ordered (next_journal j e) es.
Proof. destruct e; simpl; tauto. Qed.

(** A step whose commit follows the journal's sequence keeps the queue and what
    is behind it. *)
Lemma world_step_behind base w e es :
  world_ok w -> queue_ok (wd_journal w) (wd_task w) -> ordered (wd_journal w) (e :: es) ->
  queue_ok (wd_journal (step w e)) (wd_task (step w e))
  /\ (tk_captured (wd_task w) = true -> behind base w -> behind base (step w e)).
Proof.
  intros Hok Hq Hord. destruct e as [e| | |a]; simpl in *; try done.
  - destruct Hord as [He _].
    destruct (queue_ok_commit e _ _ He (fun x Hx => proj1 (to_queued _ _ _ Hok x Hx)) Hq) as [Hq' Hlt].
    split; [done|]. intros _ Hb Hp x [<-|Hx] Hm Hle; simpl in *; [lia|by apply Hb].
  - destruct (allowed w a); [|done]. destruct (task_step _ _ _ _ _ _) as [[t new]|] eqn:E; [|done]. simpl.
    destruct (task_step_queue _ _ _ _ _ _ _ Hok Hq E) as [Hq' Hnew]. split; [done|].
    intros Hcap Hb Hp x Hx Hm Hle. simpl in *. rewrite map_app. destruct (Hnew Hcap Hp x Hx Hm Hle) as [Hle'|Hin].
    + destruct (Hb) with (e := x) as [|Hh]; try done; [|by left|right; apply in_or_app; by right].
      intros Hs. unfold task_step in E. rewrite Hs in E. by destruct a.
    + right. apply in_or_app. by left.
Qed.

Lemma run_queue es w :
  world_ok w -> queue_ok (wd_journal w) (wd_task w) -> ordered (wd_journal w) es ->
  queue_ok (wd_journal (run w es)) (wd_task (run w es)).
Proof.
  revert w. induction es as [|e es IH]; intros w Hok Hq Hord; simpl; [done|].
  destruct (world_step_behind [] w e es Hok Hq Hord) as [Hq' _]. apply IH; [by apply world_step_ok|done|].
  rewrite world_step_journal. by apply ordered_cons in Hord.
Qed.

Lemma run_behind base es w :
  world_ok w -> queue_ok (wd_journal w) (wd_task w) -> ordered (wd_journal w) es ->
  tk_captured (wd_task w) = true -> behind base w -> behind base (run w es).
Proof.
  revert w. induction es as [|e es IH]; intros w Hok Hq Hord Hcap Hb; simpl; [done|].
  destruct (world_step_behind base w e es Hok Hq Hord) as [Hq' Hb']. apply IH; try done; [by apply world_step_ok| | |by apply Hb'].
  - rewrite world_step_journal. by apply ordered_cons in Hord.
  - by apply (world_step_grows w e Hok Hcap).
Qed.

(** The events committed in an ordered run are later than the journal it began with. *)
Lemma ordered_fresh es j e : ordered j es -> In (Commit e) es -> ~ In e j.
Proof.
  revert j. induction es as [|x es IH]; intros j Hord Hin; [done|]. destruct Hin as [->|Hin].
  - destruct Hord as [[_ Hlt] _]. intros Hj. specialize (Hlt e Hj). lia.
  - apply ordered_cons in Hord. intros Hj. apply (IH _ Hord Hin). by destruct x; simpl; [right| | |].
Qed.

Lemma committed_stays es w e :
  In (Commit e) es \/ In e (wd_journal w) -> In e (wd_journal (run w es)).
Proof.
  revert w. induction es as [|x es IH]; intros w Hin; simpl; [by destruct Hin|].
  apply IH. rewrite world_step_journal. destruct Hin as [[->|Hin]|Hin]; [right; by left|by left|right].
  by destruct x; simpl; [right| | |].
Qed.

(** C24: a subscription's deliveries come in the order of the journal, each event
    at most once, whatever the connection, the catalog and the client do: their
    sequences strictly increase, each is a committed event of the tenant (and of
    the SKU, when one is asked for), and each carries the change that the event
    makes of a product the catalog answered. *)
Theorem deliveries_in_order j es :
  let w := run (new_world j) es in
  StronglySorted Z.lt (map (fun d => pn_sequence d.1) (delivered w))
  /\ Forall (fun d => In d.1 (wd_journal w) /\ matches d.1 = true
                      /\ exists product, price_change_of d.1 product = Some d.2) (delivered w).
Proof.
  intros w. destruct (run_ok es (new_world j) (new_world_ok j)) as [_ _ Hs Hb _ _]. fold w in Hs, Hb. split.
  - unfold delivered. induction (wd_handled w) as [|[e c] l IH]; simpl; [constructor|].
    inversion_clear Hs as [|? ? Hs' Hle]. specialize (IH Hs' (fun h Hh => Hb h (or_intror Hh))).
    destruct c as [c|]; simpl; [|done]. rewrite map_app. apply StronglySorted_app; split_and!; [|done|repeat constructor].
    simpl. intros n m Hn Hm. apply list_elem_of_singleton in Hm as ->.
    apply list_elem_of_In, in_map_iff in Hn as (d & <- & Hd). apply in_rev in Hd.
    apply list_elem_of_In, list_elem_of_omap in Hd as (h & Hh & Hd).
    rewrite Forall_forall in Hle. destruct h as [e' [c'|]]; [|done]. injection Hd as <-. simpl.
    apply Hle. apply list_elem_of_fmap. by exists (e', Some c').
  - apply Forall_forall. intros d Hd. unfold delivered in Hd. apply list_elem_of_In, in_rev, list_elem_of_In, list_elem_of_omap in Hd as (h & Hh & Hd).
    apply list_elem_of_In in Hh. destruct (Hb h Hh) as (Hj & Hm & _ & product & Hp).
    destruct h as [e [c|]]; [|done]. injection Hd as <-. simpl in *. split_and!; [done|done|by exists product].
Qed.

(** while the journal's sequence follows its commits, a subscription that has
    its baseline passes over no event: any event of its tenant and SKU committed
    afterwards, up to the sequence the task has reached, has been handled, as
    long as the task has not been stopped. *)
Theorem no_event_skipped j es1 es2 e :
  unique j -> ordered j (es1 ++ es2) -> tk_captured (wd_task (run (new_world j) es1)) = true ->
  let w := run (new_world j) (es1 ++ es2) in
  tk_phase (wd_task w) <> Stopped ->
  In (Commit e) es2 -> matches e = true -> pn_sequence e <= tk_sequence (wd_task w) ->
  In e (map fst (wd_handled w)).
Proof.
  intros Hu Hord Hcap w Hrun Hin Hm Hle. unfold w in *. rewrite run_app in *.
  assert (Hsplit : ordered j es1 /\ ordered (wd_journal (run (new_world j) es1)) es2).
  { clear -Hord. change j with (wd_journal (new_world j)) in Hord at 1. change j with (wd_journal (new_world j)) at 1.
    generalize dependent (new_world j). induction es1 as [|x es IH]; intros w0 Hord; simpl in *; [done|].
    assert (Ho : ordered (wd_journal (step w0 x)) (es ++ es2)).
    { rewrite world_step_journal. by apply ordered_cons in Hord. }
    destruct (IH _ Ho) as [H1 H2]. split; [|done]. rewrite world_step_journal in H1.
    destruct x; simpl in *; tauto. }
  destruct Hsplit as [H1 H2]. pose proof (run_ok es1 _ (new_world_ok j)) as Hok.
  assert (Hq : queue_ok (wd_journal (run (new_world j) es1)) (wd_task (run (new_world j) es1))).
  { apply run_queue; [apply new_world_ok| |done]. apply queue_ok_idle; [done|by left|done]. }
  pose proof (run_behind (wd_journal (run (new_world j) es1)) es2 _ Hok Hq H2 Hcap) as Hb.
  destruct (Hb ltac:(intros ? ? ?; by left) Hrun e) as [Hold|Hh]; try done.
  - apply committed_stays. by left.
  - by destruct (ordered_fresh es2 _ e H2 Hin).
Qed.

Lemma skip_none sequence events :
  (forall e, In e events -> sequence < pn_sequence e) -> skip_seen sequence events = events.
Proof.
  destruct events as [|e rest]; intros H; simpl; [done|].
  specialize (H e (or_introl eq_refl)). destruct (_ <=? _) eqn:E; [|done]. bool_inv. lia.
Qed.

Definition handled_of (catalog : PriceChangeNotification -> option Product) (e : PriceChangeNotification) :
    PriceChangeNotification * option PriceChange := (e, price_change_of e (catalog e)).

(** The catalog answers each event in turn. *)
Lemma run_projecting catalog events notified sequence captured j down handled :
  StronglySorted (fun a b => pn_sequence a < pn_sequence b) events ->
  (forall e, In e events -> sequence < pn_sequence e) ->
  run (mkWorld j false down (after_replay events notified (mkTask Waiting sequence captured)) handled)
    (map (fun e => Run (Projected (Ok (catalog e)))) events)
  = mkWorld j false down
      (mkTask (if notified then Replaying else Waiting) (foldl Z.max sequence (map pn_sequence events)) captured)
      (rev (map (handled_of catalog) events) ++ handled).
Proof.
  intros Hs. revert sequence handled. induction Hs as [|e rest Hs IH Hlt]; intros sequence handled Hlo; simpl; [done|].
  unfold after_replay. cbn [tk_sequence]. rewrite skip_none by done. cbn [in_phase tk_sequence tk_captured].
  rewrite <- app_assoc. cbn [app]. specialize (Hlo e (or_introl eq_refl)).
  rewrite (Z.max_r sequence (pn_sequence e)) by lia. rewrite <- IH.
  - f_equal. unfold world_step, allowed, task_step, handled_of. simpl. by destruct (price_change_of e (catalog e)).
  - intros e' He'. rewrite Forall_forall in Hlt. apply Hlt. by apply list_elem_of_In.
Qed.

Lemma unique_sorted j events :
  unique j -> NoDup events -> (forall e, In e events -> In e j) -> StronglySorted by_sequence events ->
  StronglySorted (fun a b => pn_sequence a < pn_sequence b) events.
Proof.
  intros Hu Hn Hj Hs. induction Hs as [|e rest Hs IH Hle]; [constructor|].
  apply NoDup_cons in Hn as [He Hn]. constructor; [apply IH; [done|intros; apply Hj; by right]|].
  rewrite Forall_forall in *. intros x Hx. specialize (Hle x Hx). unfold by_sequence in Hle.
  destruct (Z.eq_dec (pn_sequence e) (pn_sequence x)) as [Heq|Hne]; [|lia].
  destruct He. rewrite (Hu e x); [done| | |done]; apply Hj; [by left|right; by apply list_elem_of_In].
Qed.

(** a waiting subscription whose client is there catches up: the wake-up, one
    replay and the catalog's answers bring it back to waiting with every event
    of the journal past its sequence handled, in the journal's order, and the
    changes they make delivered behind the earlier ones. *)
Theorem wake_up_delivers (catalog : PriceChangeNotification -> option Product) w :
  unique (wd_journal w) -> NoDup (wd_journal w) -> tk_phase (wd_task w) = Waiting -> wd_closed w = false ->
  let pending := events_after tenant sku (tk_sequence (wd_task w)) (wd_journal w) in
  let w' := run w (Run (Ready true) :: Run (Ready false)
                   :: map (fun e => Run (Projected (Ok (catalog e)))) pending) in
  tk_phase (wd_task w') = Waiting
  /\ delivered w' = delivered w
       ++ omap (fun e => (fun c => (e, c)) <$> price_change_of e (catalog e)) pending
  /\ forall e, In e (wd_journal w') -> matches e = true -> pn_sequence e <= tk_sequence (wd_task w').
Proof.
  intros Hu Hn Hp Hcl pending w'. destruct w as [j closed down [p n captured] handled]. simpl in *. subst p closed.
  assert (Hw : w' = mkWorld j false down (mkTask Waiting (foldl Z.max n (map pn_sequence pending)) captured)
                      (rev (map (handled_of catalog) pending) ++ handled)).
  { unfold w'. rewrite <- (run_projecting catalog pending false n captured j down handled).
    - reflexivity.
    - apply (unique_sorted j); [done| | |apply events_after_sorted].
      + unfold pending, events_after. rewrite merge_sort_Permutation. apply NoDup_ListNoDup, List.NoDup_filter.
        by apply NoDup_ListNoDup.
      + intros e He. by apply events_after_in in He as [He _].
    - intros e He. by apply events_after_in in He as (_ & _ & He). }
  rewrite Hw. split_and!; [done| |].
  - unfold delivered. simpl. rewrite omap_app, rev_app_distr. f_equal.
    clear. induction pending as [|e l IH]; [done|]. simpl. rewrite omap_app, rev_app_distr, IH. simpl.
    by destruct (price_change_of e (catalog e)).
  - intros e He Hm. simpl in *. destruct (foldl_max (map pn_sequence pending) n) as [Hlo Hmax].
    destruct (decide (pn_sequence e <= n)) as [|Hgt]; [lia|]. apply Hmax, in_map, events_after_in.
    split_and!; [done|done|lia].
Qed.

(** an event whose sequence is below the one the task has reached when it is
    committed is lost to the subscription: whatever happens afterwards, wake-ups,
    replays and reconnections included, it is never handled.  The journal's
    sequence is drawn when a row is inserted, not when it is committed, so two
    overlapping price changes are enough. *)
Theorem late_commit_never_delivered j es1 e es2 :
  let w := run (new_world j) es1 in
  tk_captured (wd_task w) = true -> pn_sequence e <= tk_sequence (wd_task w) ->
  ~ In e (map fst (wd_handled w)) ->
  ~ In e (map fst (wd_handled (run (step w (Commit e)) es2))).
Proof.
  intros w Hcap Hle Hnot Hin. apply in_map_iff in Hin as (h & <- & Hh).
  destruct (run_grows es2 (step w (Commit h.1))) as (_ & _ & Hgrow); [|done|].
  - apply world_step_ok, run_ok, new_world_ok.
  - destruct (Hgrow h Hh) as [Hold|Hlt]; simpl in *; [|lia]. apply Hnot. by apply in_map.
Qed.
End runs.

(** ** Examples *)

Definition demo_event (sequence amount : Z) : PriceChangeNotification :=
  mkPriceNotification sequence "acme" "sku-1" "prod-1" "v-1" ("price-" +:+ show_Z sequence) "USD" amount None
    "2026-01-01" "2026-01-01".
Definition demo_variant : ProductVariant := mkProductVariant "v-1" "acme" "prod-1" "sku-1" "Small" "{}" None.
Definition demo_product : Product :=
  mkProduct "prod-1" "acme" "mug" "sku-1" "Mug" "A mug" None (mkCategory "c-1" "acme" "mugs" "Mugs")
    None None [demo_variant] [] [] None.

(** The subscription connects and captures its baseline over an empty journal,
    replays nothing and waits. *)
Definition subscribed : list event := [Run (Ready false); Run (Ready false); Run (Ready false)].
(** It is woken, replays, and the catalog answers one event. *)
Definition woken : list event :=
  [Run (Ready true); Run (Ready false); Run (Projected (Ok (Some demo_product)))].

Lemma no_event_skipped_witness :
  In (demo_event 2 900) (map fst (wd_handled (run_world "acme" None (new_world [])
    (subscribed ++ [Commit (demo_event 2 900)] ++ woken)))).
Proof.
  apply (no_event_skipped "acme" None [] subscribed ([Commit (demo_event 2 900)] ++ woken)).
  - intros a b [].
  - simpl. split_and!; [reflexivity|intros x []|exact I].
  - vm_compute. reflexivity.
  - vm_compute. discriminate.
  - left. reflexivity.
  - vm_compute. reflexivity.
  - vm_compute. discriminate.
Defined.

Definition pending_world : World :=
  run_world "acme" None (new_world []) (subscribed ++ [Commit (demo_event 2 900); Commit (demo_event 3 800)]).

Lemma wake_up_delivers_witness :
  delivered (run_world "acme" None pending_world
    (Run (Ready true) :: Run (Ready false)
       :: map (fun e => Run (Projected (Ok (Some demo_product))))
            (events_after "acme" None (tk_sequence (wd_task pending_world)) (wd_journal pending_world))))
  = delivered pending_world
    ++ omap (fun e => (fun c => (e, c)) <$> price_change_of e (Some demo_product))
         (events_after "acme" None (tk_sequence (wd_task pending_world)) (wd_journal pending_world)).
Proof.
  apply (wake_up_delivers "acme" None (fun _ => Some demo_product) pending_world).
  - intros a b Ha Hb. destruct Ha as [<-|[<-|[]]]; destruct Hb as [<-|[<-|[]]]; vm_compute; congruence.
  - apply NoDup_cons. split; [|apply NoDup_singleton].
    intros H. apply list_elem_of_singleton in H. discriminate H.
  - vm_compute. reflexivity.
  - vm_compute. reflexivity.
Defined.

(** Event 1 is inserted before event 2 and committed after it. *)
Lemma late_commit_never_delivered_witness :
  ~ In (demo_event 1 700) (map fst (wd_handled (run_world "acme" None
      (world_step "acme" None (run_world "acme" None (new_world [])
         (subscribed ++ [Commit (demo_event 2 900)] ++ woken)) (Commit (demo_event 1 700))) woken))).
Proof.
  apply (late_commit_never_delivered "acme" None [] (subscribed ++ [Commit (demo_event 2 900)] ++ woken)).
  - vm_compute. reflexivity.
  - vm_compute. discriminate.
  - intros [H|[]]. discriminate H.
Defined.
