(* ===== verification/StoreOutcomes.v ===== *)
(** The storefront against its downstreams: the requests it sends are ones the
    pricing and checkout services accept, and their answers are ones it shows. *)

From stdpp Require Import sorting.
From S2P Require Import Prelude Values Proto Propagation PricingDomain PricingService Database CheckoutDomain CheckoutQuote CheckoutRecords CheckoutOrders CheckoutCart CheckoutApi CheckoutDemo StoreDomain StoreUpstream StoreSchema.
Import Text Serde Proto Propagation PricingDomain PricingService Schema Transactions CheckoutDomain
  CheckoutQuote CheckoutFence CheckoutOrders CheckoutCart CheckoutApi CheckoutDemo StoreDomain StoreContext
  StoreErrors StoreClient StoreCommerce.

(** ** Identities *)

Definition component_ok (s : string) : Prop :=
  is_blank s = false /\ str_len s <= 128 /\ has_control s = false.

Lemma validate_component_ok s name u : validate_identity_component s name = Ok u -> component_ok s.
Proof.
  unfold validate_identity_component. intros H. res_inv. bool_inv. split_and!; [done|lia|done].
Qed.

Lemma resolve_tenant_ok s requested t : resolve_tenant_id s requested = Ok t -> component_ok t.
Proof.
  unfold resolve_tenant_id. destruct (st_inbound_tenant_error s); [done|]. intros H. res_inv.
  by eapply validate_component_ok.
Qed.

Lemma resolve_identity_ok s tenant customer session required uuid i :
  resolve_identity s tenant customer session required uuid = Ok i ->
  component_ok (id_tenant_id i) /\ component_ok (id_customer_id i)
  /\ (forall session, id_session_id i = Some session -> component_ok session)
  /\ (required = true -> is_Some (id_session_id i)).
Proof.
  unfold resolve_identity. intros H. res_inv. simpl.
  repeat match goal with Hv : validate_identity_component _ _ = _ |- _ => apply validate_component_ok in Hv end.
  match goal with Ht : resolve_tenant_id _ _ = _ |- _ => apply resolve_tenant_ok in Ht end.
  match goal with |- context [match ?o with Some session => Some session | None => _ end] => destruct o as [session'|] end;
    [|destruct required]; split_and!; try done; intros ? [= <-]; by eapply validate_component_ok.
Qed.

(** ** Quotes *)

Lemma validate_item_list_ok items skus operation u :
  validate_item_list items skus operation = Ok u ->
  Forall (fun i => component_ok (ci_sku i) /\ 1 <= ci_quantity i <= 100) items
  /\ NoDup (map ci_sku items) /\ forall i, In i items -> ~ In (ci_sku i) skus.
Proof.
  revert skus. induction items as [|i items IH]; intros skus; simpl; [intros _; split_and!; try constructor; done|].
  intros H. res_inv. bool_inv. unfold MAX_CART_ITEM_QUANTITY in *.
  match goal with Hv : validate_identity_component _ _ = _ |- _ => apply validate_component_ok in Hv end.
  match goal with Hv : validate_item_list _ _ _ = _ |- _ => apply IH in Hv as (Hall & Hnd & Hfresh) end.
  assert (Hnot : ~ In (ci_sku i) skus) by (rewrite <- one_of_In; congruence). split_and!.
  - constructor; [|done]. split; [done|lia].
  - constructor; [|done]. intros Hin. apply list_elem_of_In, in_map_iff in Hin as (j & Hj & Hin).
    apply (Hfresh j Hin). left. done.
  - intros j [<-|Hj] Hs; [done|]. apply (Hfresh j Hj). by right.
Qed.

Lemma validate_items_ok items operation u :
  validate_items items operation = Ok u ->
  Forall (fun i => component_ok (ci_sku i) /\ 1 <= ci_quantity i <= 100) items
  /\ NoDup (map ci_sku items) /\ (1 <= length items <= 50)%nat.
Proof.
  unfold validate_items. intros H. res_inv. bool_inv.
  match goal with Hv : validate_item_list _ _ _ = _ |- _ => apply validate_item_list_ok in Hv as (? & ? & _) end.
  split_and!; [done|done| |lia]. destruct items; [done|]. simpl. lia.
Qed.

Lemma quote_items_ok items out :
  quote_items items = Ok out -> out = map (fun i => mkQuoteItem (ci_sku i) (ci_quantity i)) items.
Proof.
  unfold quote_items. revert out. induction items as [|i items IH]; intros out; simpl; [by intros [= <-]|].
  intros H. res_inv. f_equal. by apply IH.
Qed.

Lemma required_currency_ok code c : required_currency code = Ok c -> three_letters c = true.
Proof. unfold required_currency, validate_currency_code. intros H. by res_inv. Qed.

Lemma validated_value_ok override c key default name v :
  validated_context_value override c key default name = Ok v -> component_ok v.
Proof.
  unfold validated_context_value. intros H. res_inv.
  by match goal with Hv : validate_identity_component _ _ = _ |- _ => apply validate_component_ok in Hv end.
Qed.

(** The business context as it is sent. *)
Record business_ok (b : ValidatedBusinessContext) : Prop := {
  bo_segment : component_ok (bc_segment b);
  bo_tier : component_ok (bc_tier b);
  bo_region : component_ok (bc_region b);
  bo_priority : component_ok (bc_priority b);
  bo_promotion : forall code, bc_promotion_code b = Some code -> component_ok code;
  bo_strategy : bc_pricing_strategy b = if bc_promotion_code b then "promotional" else "standard";
  bo_method : In (bc_payment_method_type b) [PaymentMethodType_Card; PaymentMethodType_BankAccount; PaymentMethodType_Wallet]
}.

Lemma parse_payment_method_ok v m :
  parse_payment_method_type v = Ok m ->
  In m [PaymentMethodType_Card; PaymentMethodType_BankAccount; PaymentMethodType_Wallet].
Proof.
  unfold parse_payment_method_type. repeat case_match; intros [= <-]; simpl; tauto.
Qed.

Lemma business_context_ok c input b : validated_business_context c input = Ok b -> business_ok b.
Proof.
  unfold validated_business_context. intros H. res_inv.
  repeat match goal with Hv : validated_context_value _ _ _ _ _ = _ |- _ => apply validated_value_ok in Hv end.
  match goal with Hm : parse_payment_method_type _ = _ |- _ => apply parse_payment_method_ok in Hm end.
  split; simpl; try done.
  - intros code Hcode. rewrite Hcode in *. by eapply validate_component_ok.
  - match goal with Hp : one_of _ _ = true |- _ => apply one_of_In in Hp; rename Hp into Hin end.
    destruct (trimmed (bi_promotion_code input)) as [code|];
      match goal with |- ?x = _ => set (strategy := x) in * end;
      destruct (String.eqb strategy "promotional") eqn:E; try done.
    + by apply String.eqb_eq in E.
    + apply String.eqb_neq in E. destruct Hin as [Hs|[Hs|[]]]; [done|by rewrite <- Hs in E].
Qed.

Lemma pricing_context_values b name value :
  business_ok b -> pricing_context b !! name = Some value ->
  str_len value <= 128 /\ has_control value = false.
Proof.
  intros [Hs Ht Hr Hp Hc Hst Hm] Hv. unfold pricing_context in Hv.
  assert (Hbase : forall n v, (list_to_map [("customer_segment", bc_segment b); ("customer_tier", bc_tier b);
      ("region", bc_region b); ("request_priority", bc_priority b); ("pricing_strategy", bc_pricing_strategy b);
      ("payment_method_type", payment_method_type_name (bc_payment_method_type b))] : gmap string string) !! n
      = Some v -> str_len v <= 128 /\ has_control v = false).
  { intros n v Hn. apply elem_of_list_to_map_2 in Hn. rewrite !elem_of_cons, elem_of_nil in Hn.
    destruct Hn as [[= _ ->]|[[= _ ->]|[[= _ ->]|[[= _ ->]|[[= _ ->]|[[= _ ->]|[]]]]]]];
      try (match goal with Hc : component_ok _ |- _ => by destruct Hc as (_ & ? & ?) end);
      try (by destruct Hs as (_ & ? & ?)); try (by destruct Ht as (_ & ? & ?)); try (by destruct Hr as (_ & ? & ?));
      try (by destruct Hp as (_ & ? & ?)).
    - rewrite Hst. by destruct (bc_promotion_code b).
    - simpl in Hm. by destruct Hm as [<-|[<-|[<-|[]]]]. }
  destruct (bc_promotion_code b) as [code|]; [|by eapply Hbase].
  apply lookup_insert_Some in Hv as [[_ <-]|[_ Hv]]; [|by eapply Hbase].
  by destruct (Hc code eq_refl) as (_ & ? & ?).
Qed.

Lemma pricing_context_strategy b :
  pricing_context b !! "pricing_strategy" = Some (bc_pricing_strategy b).
Proof. unfold pricing_context. destruct (bc_promotion_code b); [rewrite lookup_insert_ne by done|]; reflexivity. Qed.

Lemma prefixed_not_blank a s uuid : visible a = true -> is_blank (String a s +:+ uuid) = false.
Proof. intros Ha. rewrite str_append_cons. by apply visible_not_blank. Qed.

Lemma non_blank_some o s : non_blank o = Some s -> is_blank s = false.
Proof. unfold non_blank. destruct o as [t|]; [|done]. destruct (is_blank t) eqn:E; [done|]. by intros [= <-]. Qed.

(** The request of an accepted input is one the pricing service accepts. *)
Lemma quote_request_ok span_valid active s uuid input r c :
  quote_request span_valid active s uuid input = Ok (r, c) ->
  request_ok r /\ is_blank (qr_request_id r) = false /\ (0 < length (qr_items r))%nat
  /\ Forall (fun i => 1 <= qi_quantity i <= 100) (qr_items r).
Proof.
  unfold quote_request. intros H. res_inv.
  match goal with Hi : resolve_identity _ _ _ _ _ _ = _ |- _ => apply resolve_identity_ok in Hi as ((Ht & Htl & _) & (Hc & Hcl & _) & _) end.
  match goal with Hi : validate_items _ _ = _ |- _ => apply validate_items_ok in Hi as (Hall & Hnd & Hlen) end.
  match goal with Hi : quote_items _ = _ |- _ => apply quote_items_ok in Hi as -> end.
  match goal with Hi : required_currency _ = _ |- _ => apply required_currency_ok in Hi as Hcur end.
  match goal with Hi : validated_business_context _ _ = _ |- _ => apply business_context_ok in Hi as Hb end.
  split_and!; simpl.
  - split; simpl; try done.
    + by rewrite length_map.
    + apply Forall_map. eapply Forall_impl; [exact Hall|]. intros i ((Hs & Hl & _) & Hq). split_and!; simpl; try done; lia.
    + by rewrite map_map.
    + intros name value _ Hv. by eapply pricing_context_values.
    + intros st Hst. rewrite pricing_context_strategy, (bo_strategy _ Hb) in Hst.
      destruct (bc_promotion_code _); injection Hst as <-; auto.
  - destruct (non_blank (qn_request_id input)) as [id|] eqn:E; simpl; [by eapply non_blank_some|].
    by apply prefixed_not_blank.
  - rewrite length_map. lia.
  - apply Forall_map. eapply Forall_impl; [exact Hall|]. by intros i (_ & Hq).
Qed.

Lemma required_money_run m name :
  three_letters (currency_code m) = true -> 0 <= amount_minor m ->
  required_money (Some m) name = Ok (money_from_proto m).
Proof. intros Hc Hm. unfold required_money. simpl. rewrite Hc. apply Z.ltb_ge in Hm as ->. done. Qed.

Lemma priced_line_shown currency item line :
  three_letters currency = true -> prices_item item line -> is_blank (qi_sku item) = false ->
  1 <= qi_quantity item <= 100 ->
  line_try_from_proto (line_to_proto currency line)
  = Ok (mkQuoteLine (cl_sku line) (cl_quantity line) (Some (StoreDomain.mkMoney currency (cl_unit_minor line)))
          (Some (StoreDomain.mkMoney currency (cl_line_minor line)))).
Proof.
  intros Hc (Hs & Hq & Hu & Hl & Hm) Hb Hn. unfold line_try_from_proto, line_to_proto. simpl.
  rewrite Hs, Hb. simpl. rewrite (proj2 (Z.eqb_neq _ 0)) by lia. simpl.
  rewrite !required_money_run by (simpl; first [done|nia]). simpl. rewrite String.eqb_refl. simpl.
  unfold checked_mul. rewrite i64_run by (unfold i64_min; nia). rewrite <- Hl, bool_decide_eq_true_2 by done. simpl.
  unfold fits_i32. rewrite (proj2 (Z.leb_le _ _)), (proj2 (Z.leb_le _ _)) by (unfold i32_max, i32_min; lia). done.
Qed.

(** The line a priced line is shown as *)
Definition shown_line (currency : string) (line : CachedLine) : QuoteLine :=
  mkQuoteLine (cl_sku line) (cl_quantity line) (Some (StoreDomain.mkMoney currency (cl_unit_minor line)))
    (Some (StoreDomain.mkMoney currency (cl_line_minor line))).

Lemma priced_lines_shown currency items lines :
  three_letters currency = true -> Forall2 prices_item items lines ->
  Forall (fun i => is_blank (qi_sku i) = false /\ 1 <= qi_quantity i <= 100) items ->
  collect line_try_from_proto (map (line_to_proto currency) lines) = Ok (map (shown_line currency) lines).
Proof.
  intros Hc HF. induction HF as [|i l items lines Hp HF IH]; intros Hall; [done|].
  inversion_clear Hall as [|? ? [Hb Hq] Hall']. simpl. rewrite (priced_line_shown currency i l) by done. simpl.
  by rewrite IH.
Qed.

Lemma shown_subtotal currency lines acc :
  Forall (fun l => 0 <= cl_line_minor l) lines -> 0 <= acc -> acc + total lines <= i64_max ->
  line_subtotal (map (shown_line currency) lines) acc = Ok (acc + total lines).
Proof.
  revert acc. induction lines as [|l lines IH]; intros acc Hn Ha Hm; simpl; [by rewrite Z.add_0_r|].
  inversion_clear Hn as [|? ? Hl Hn']. simpl in Hm. pose proof (total_nonneg _ Hn').
  unfold checked_add. rewrite i64_run by (unfold i64_min; lia). simpl. rewrite IH by (done || lia). f_equal. lia.
Qed.

(** A quote that is shown: the priced lines and the totals of the quote *)
Definition shown_quote (q : CachedQuote) (valid_for : Z) : Quote :=
  let money n := Some (StoreDomain.mkMoney (cq_currency q) n) in
  mkQuote (cq_quote_id q) "QUOTE_STATUS_READY" (map (shown_line (cq_currency q)) (cq_lines q))
    (money (cq_subtotal_minor q)) (money (cq_discount_minor q)) (money 0) (money (cq_grand_total_minor q))
    valid_for (cq_pricing_version q).

(** A quote lives for at most its time to live, rounded up. *)
Lemma fresh_validity q clock now n :
  quote_expiry_from clock = Ok (cq_expires_at_unix_ms q) -> clock <= now ->
  remaining_validity_seconds q now = Ok n -> n <> 0 -> 1 <= n <= QUOTE_TTL_SECONDS.
Proof.
  unfold quote_expiry_from, remaining_validity_seconds, unix_millis. intros He Hle Hr Hn. res_inv. bool_inv.
  unfold checked_mul, checked_sub, checked_add in *.
  repeat match goal with Hc : (if ?b then Ok _ else Err _) = Ok _ |- _ => destruct b eqn:?; [|done]; res_inv end.
  match goal with Hc : (if ?b then _ else _) = Ok n |- _ => destruct b eqn:Eb; [congruence|] end. res_inv.
  match goal with Hc : (if ?b then _ else _) = Ok n |- _ => destruct b; [|done] end. res_inv. bool_inv.
  repeat match goal with Hc : i64_checked _ = Some _ |- _ => apply i64_checked_some in Hc as [Hc _] end.
  subst. unfold QUOTE_TTL_SECONDS, MILLIS_PER_SECOND in *.
  assert (Hms : clock / 1000000 <= now / 1000000) by (apply Z.div_le_mono; lia).
  rewrite Z.quot_div_nonneg by lia. div_lia.
Qed.

Lemma fits_i32_run n : i32_min <= n <= i32_max -> fits_i32 n = true.
Proof. intros [? ?]. unfold fits_i32. by rewrite (proj2 (Z.leb_le _ _)), (proj2 (Z.leb_le _ _)). Qed.

(** A sound quote for a request that was accepted is shown as it is. *)
Lemma sound_quote_shown r clock q now resp :
  request_ok r -> is_blank (qr_request_id r) = false -> Forall (fun i => 1 <= qi_quantity i <= 100) (qr_items r) ->
  quote_sound r clock q -> is_blank (cq_pricing_version q) = false -> clock <= now ->
  to_proto_at q now = Ok resp ->
  exists n, 1 <= n <= QUOTE_TTL_SECONDS /\ quote_try_from_proto resp = Ok (shown_quote q n).
Proof.
  intros Hr Hid Hq [Hlines [Hsub Hmax] Hdisc Htot Hcur Hexp Hqid] Hver Hle H.
  unfold to_proto_at in H. res_inv. repeat match goal with u : unit |- _ => destruct u end.
  match goal with Hc : consume_at _ _ = _ |- _ => apply remaining_nonzero in Hc as (n & Hn & Hn0) end.
  match goal with Hx : remaining_validity_seconds _ _ = Ok ?x |- _ => assert (x = n) as -> by congruence end.
  pose proof (fresh_validity q clock now n Hexp Hle Hn Hn0) as Hlim. exists n. split; [done|].
  assert (Hthree : three_letters (cq_currency q) = true) by (rewrite Hcur; apply (ro_currency _ Hr)).
  assert (Hnn : Forall (fun l => 0 <= cl_line_minor l) (cq_lines q)).
  { eapply prices_item_nonneg; [|exact Hlines]. eapply Forall_impl; [exact Hq|]. simpl. lia. }
  pose proof (total_nonneg _ Hnn). pose proof (Forall2_length _ _ _ Hlines) as Hlen.
  pose proof (ro_count _ Hr) as Hcount.
  assert (Hitems : Forall (fun i => is_blank (qi_sku i) = false /\ 1 <= qi_quantity i <= 100) (qr_items r)).
  { rewrite Forall_forall in *. intros i Hi. split; [|by apply Hq].
    pose proof (ro_items _ Hr) as Ho. rewrite Forall_forall in Ho. apply (Ho i Hi). }
  unfold quote_try_from_proto. simpl. unfold PricingDomain.request_id in Hqid. rewrite Hid in Hqid.
  rewrite Hqid, Hid, Hver. simpl. rewrite (proj2 (Z.eqb_neq _ _) Hn0). simpl.
  rewrite length_map. rewrite bool_decide_eq_false_2 by (destruct (cq_lines q); simpl in *; [lia|done]).
  rewrite (proj2 (Z.leb_le _ 50)) by lia. simpl.
  rewrite (priced_lines_shown _ _ _ Hthree Hlines Hitems). simpl.
  rewrite !required_money_run by (simpl; first [done|lia]). simpl. rewrite !String.eqb_refl. simpl.
  rewrite shown_subtotal by (done || lia). simpl. rewrite <- Hsub, Z.eqb_refl, (proj2 (Z.leb_le _ _)) by lia. simpl.
  unfold checked_sub, checked_add. rewrite i64_run by (unfold i64_min; lia). rewrite Z.add_0_r.
  rewrite i64_run by (unfold i64_min; lia). simpl. rewrite Htot, Z.eqb_refl. simpl.
  rewrite fits_i32_run by (unfold i32_min, i32_max, QUOTE_TTL_SECONDS in *; lia). simpl.
  unfold shown_quote. by rewrite Hqid, Htot.
Qed.

(** C22: the storefront and the pricing service agree on quotes.  Every quote
    request the storefront sends passes the pricing service's validation, and a
    quote the pricing service calculates for it, delivered before it expires, is
    shown to the client with its lines and totals as they were priced and a
    validity within the quote's time to live. *)
Theorem storefront_quote_served span_valid active s uuid input r c :
  quote_request span_valid active s uuid input = Ok (r, c) ->
  validate_request r = Ok tt
  /\ forall clock q now resp,
       quote_sound r clock q -> is_blank (cq_pricing_version q) = false -> clock <= now ->
       to_proto_at q now = Ok resp ->
       exists n, 1 <= n <= QUOTE_TTL_SECONDS /\ quote_try_from_proto resp = Ok (shown_quote q n).
Proof.
  intros H. apply quote_request_ok in H as (Hr & Hid & _ & Hq). split; [by apply validate_request_spec|].
  intros clock q now resp. by apply sound_quote_shown.
Qed.

Definition demo_store : StoreContext :=
  mkStoreContext "http://catalog:8083/graphql" "http://pricing:9091" "http://checkout:8088/" "http://clickhouse:8123"
    None None (mkContext None ∅) (Some "acme") None None None.
Definition no_business : BusinessContextInput := mkBusinessContextInput None None None None None None None.
Definition demo_quote_input : QuoteInput :=
  mkQuoteInput [mkCartItemInput "sku-1" 2] None (Some " cust-1 ") (Some "USD") None no_business.

Lemma storefront_quote_served_witness :
  exists r c, quote_request (fun _ => false) (mkContext None ∅) demo_store "u-1" demo_quote_input = Ok (r, c)
  /\ validate_request r = Ok tt.
Proof.
  eexists _, _. split; [reflexivity|].
  eapply (storefront_quote_served (fun _ => false) (mkContext None ∅) demo_store "u-1" demo_quote_input).
  reflexivity.
Defined.

(** ** Checkouts *)

Lemma decode_option_json o : decode_option decode_str (option_json o) = Some o.
Proof. by destruct o. Qed.

Definition checkout_item (i : CartItemInput) : CheckoutItemInput := mkCheckoutItem (ci_sku i) (ci_quantity i).

Lemma decode_item i :
  1 <= ci_quantity i <= 100 -> read_item (item_input_json i) = Some (checkout_item i).
Proof.
  intros Hq. unfold read_item, item_input_json. cbn. unfold decode_u32, as_int.
  by rewrite (proj2 (Z.leb_le _ _)), (proj2 (Z.leb_le _ _)) by (unfold u32_max; lia).
Qed.

Lemma decode_items items :
  Forall (fun i => component_ok (ci_sku i) /\ 1 <= ci_quantity i <= 100) items ->
  decode_vec read_item (JArr (map item_input_json items)) = Some (map checkout_item items).
Proof.
  induction 1 as [|i items [_ Hq] _ IH]; [done|]. cbn [decode_vec map mapM] in *.
  rewrite decode_item by done. cbn. cbn in IH. by rewrite IH.
Qed.

(** The checkout request as the checkout service reads it *)
Definition sent_input (input : CheckoutInput) (i : CommerceIdentity) (currency token : string)
    (b : ValidatedBusinessContext) : CheckoutDomain.CheckoutInput :=
  {| in_tenant_id := id_tenant_id i; in_customer_id := id_customer_id i; in_session_id := id_session_id i;
     in_cart_id := kn_cart_id input; in_items := map checkout_item (kn_items input);
     in_currency_code := currency; in_promotion_code := bc_promotion_code b; in_segment := bc_segment b;
     in_tier := bc_tier b; in_region := bc_region b; in_priority := bc_priority b;
     in_payment_method_token := Some token;
     in_payment_method_type := Some (payment_method_type_name (bc_payment_method_type b));
     in_request_id := kn_request_id input; in_delay_ms := 0; in_slow := 0; in_retry := 0;
     in_timeout_ms := default_timeout_ms; in_degrade := false |}.

Lemma checkout_body_read span_valid active s uuid input body c :
  checkout_body span_valid active s uuid input = Ok (body, c) ->
  exists i currency token b,
    read_checkout_input body = Some (sent_input input i currency token b)
    /\ component_ok (id_tenant_id i) /\ component_ok (id_customer_id i)
    /\ (exists session, id_session_id i = Some session /\ component_ok session)
    /\ three_letters currency = true /\ is_blank token = false /\ business_ok b
    /\ Forall (fun i => component_ok (ci_sku i) /\ 1 <= ci_quantity i <= 100) (kn_items input)
    /\ NoDup (map ci_sku (kn_items input)) /\ (1 <= length (kn_items input) <= 50)%nat.
Proof.
  unfold checkout_body. intros H. res_inv.
  match goal with Hi : resolve_identity _ _ _ _ _ _ = Ok ?x |- _ => apply resolve_identity_ok in Hi as (Ht & Hc & Hs & Hreq); exists x end.
  match goal with Hi : validate_items _ _ = _ |- _ => apply validate_items_ok in Hi as (Hall & Hnd & Hlen) end.
  match goal with Hi : required_currency _ = Ok ?x |- _ => apply required_currency_ok in Hi as Hcur; exists x end.
  match goal with Hi : trimmed _ = Some ?x |- _ => exists x; rename Hi into Htok end.
  match goal with Hi : validated_business_context _ _ = Ok ?x |- _ => apply business_context_ok in Hi as Hb; exists x end.
  split_and!; try done.
  - unfold read_checkout_input, struct_with_defaults. cbn -[decode_vec decode_option option_json].
    rewrite !decode_option_json. cbn -[decode_vec decode_option option_json].
    rewrite (decode_items _ Hall). cbn -[decode_option option_json]. by rewrite ?decode_option_json.
  - destruct (Hreq eq_refl) as [session Hses]. exists session. split; [done|by apply Hs].
  - unfold trimmed, non_empty in Htok. destruct (kn_payment_method_token input) as [t|]; [|done]. simpl in Htok.
    destruct (is_empty (trim t)) eqn:E; [done|]. injection Htok as <-. by apply trimmed_not_blank.
  - lia.
  - lia.
Qed.

Lemma component_bounded s : component_ok s -> bounded_identifier s = true.
Proof.
  intros (Hb & Hl & Hc). unfold bounded_identifier. by rewrite Hb, Hc, (proj2 (Z.leb_le _ _)).
Qed.

Lemma method_supported m :
  In m [PaymentMethodType_Card; PaymentMethodType_BankAccount; PaymentMethodType_Wallet] ->
  non_blank (Some (payment_method_type_name m)) = Some (payment_method_type_name m)
  /\ one_of (to_ascii_lowercase (trim (payment_method_type_name m)))
       ["card"; "bank_account"; "bank-account"; "wallet"] = true.
Proof. by intros [<-|[<-|[<-|[]]]]; vm_compute. Qed.


Definition demo_checkout_input : CheckoutInput :=
  mkCheckoutInput [mkCartItemInput "sku-1" 2] None (Some "cust-1") None (Some "sess-1") (Some "USD")
    (Some " tok_visa ") None no_business.


(** ** Orders *)

Definition number_ok (n : Z) : bool := fits_i64 n.

Record order_item_ok (i : OrderItemRow) : Prop := {
  oi_names : is_blank (oi_sku i) = false /\ is_blank (oi_product_name i) = false;
  oi_count : 0 < oi_quantity i <= i32_max;
  oi_amounts : fits_i64 (oi_unit_price_minor i) = true /\ fits_i64 (oi_quantity i * oi_unit_price_minor i) = true
}.

(** A row that can be shown: its texts are not blank and its numbers fit. *)
Record order_row_ok (k : key) (o : OrderRow) : Prop := {
  ow_texts : is_blank k.1 = false /\ is_blank k.2 = false /\ is_blank (or_order_number o) = false
    /\ is_blank (or_currency o) = false /\ (forall c, or_customer_id o = Some c -> is_blank c = false);
  ow_amounts : forallb fits_i64 [or_subtotal_minor o; or_discount_minor o; or_tax_minor o; or_shipping_minor o;
                                 or_total_minor o] = true;
  ow_created : 0 <= or_created o <= i64_max;
  ow_items : Forall order_item_ok (or_items o)
}.

Lemma numeric_field v name n :
  jget name v = Some (JNum n) -> fits_i64 n = true -> optional_numeric_string_field v name = Ok (Some (show_Z n)).
Proof. intros Hv Hn. unfold optional_numeric_string_field. rewrite Hv. unfold as_integer. by rewrite Hn. Qed.

Lemma required_numeric v name n :
  jget name v = Some (JNum n) -> fits_i64 n = true -> required_numeric_string_field v name = Ok (show_Z n).
Proof. intros Hv Hn. unfold required_numeric_string_field. by rewrite (numeric_field v name n). Qed.

Lemma required_text v name s :
  jget name v = Some (JStr s) -> is_blank s = false -> required_string_field v name = Ok s.
Proof. intros Hv Hs. unfold required_string_field. by rewrite Hv, Hs. Qed.

Lemma optional_text v name s :
  jget name v = Some (JStr s) -> is_blank s = false -> optional_string_field v name = Ok (Some s).
Proof. intros Hv Hs. unfold optional_string_field. by rewrite Hv, Hs. Qed.

Lemma absent_text v name : jget name v = None -> optional_string_field v name = Ok None.
Proof. intros Hv. unfold optional_string_field. by rewrite Hv. Qed.

Lemma null_text v name : jget name v = Some JNull -> optional_string_field v name = Ok None.
Proof. intros Hv. unfold optional_string_field. by rewrite Hv. Qed.

Lemma absent_numeric v name : jget name v = None -> optional_numeric_string_field v name = Ok None.
Proof. intros Hv. unfold optional_numeric_string_field. by rewrite Hv. Qed.

Lemma timestamp_field v name n :
  jget name v = Some (JNum n) -> fits_i64 n = true -> optional_timestamp_string_field v name = Ok (Some (show_Z n)).
Proof. intros Hv Hn. unfold optional_timestamp_string_field. rewrite Hv. unfold as_integer. by rewrite Hn. Qed.

Lemma status_not_blank s : is_blank (order_status_text s) = false.
Proof. by destruct s. Qed.

(** Reading the fields of a literal object, one at a time *)
Ltac read_field :=
  first [ erewrite required_text by (reflexivity || eassumption)
        | erewrite required_numeric by (reflexivity || eassumption)
        | erewrite optional_text by (reflexivity || eassumption)
        | rewrite absent_text by reflexivity
        | rewrite null_text by reflexivity
        | erewrite numeric_field by (reflexivity || eassumption)
        | rewrite absent_numeric by reflexivity
        | erewrite timestamp_field by (reflexivity || eassumption) ]; cbn [res_bind].
Ltac read_fields := cbn [jget assoc String.eqb Ascii.eqb Bool.eqb order_items res_bind]; repeat read_field.

Definition summary_order (tenant customer : string) (k : key) (o : OrderRow) : Order :=
  StoreDomain.mkOrder k.2 (or_order_number o) (Some tenant) (Some customer) (Some (order_status_text (or_status o)))
    None (Some (or_currency o)) None None None None (Some (show_Z (or_total_minor o)))
    (Some (show_Z (or_created o / 1000000))) [].

Lemma seconds_fit t : 0 <= t <= i64_max -> fits_i64 (t / 1000000) = true.
Proof.
  intros Ht. unfold fits_i64, i64_min, i64_max in *. rewrite (proj2 (Z.leb_le _ _)), (proj2 (Z.leb_le _ _)); [done|div_lia|div_lia].
Qed.

Lemma summary_shown tenant customer k o session :
  order_row_ok k o -> k.1 = tenant -> or_customer_id o = Some customer ->
  order_try_from_value (order_summary tenant (k, o, session)) = Ok (summary_order tenant customer k o).
Proof.
  intros [(Ht & Hi & Hn & Hc & Hcu) Ha Hcr _] <- Hcust. specialize (Hcu _ Hcust).
  simpl in Ha. bool_inv. unfold order_summary, epoch_seconds. rewrite (proj2 (Z.leb_le _ _)) by lia.
  rewrite Hcust. pose proof (status_not_blank (or_status o)). pose proof (seconds_fit _ Hcr).
  unfold order_try_from_value. read_fields. reflexivity.
Qed.

Lemma collect_map {A B C} (f : B -> result string C) (g : A -> B) (h : A -> C) (l : list A) :
  (forall a, In a l -> f (g a) = Ok (h a)) -> collect f (map g l) = Ok (map h l).
Proof.
  induction l as [|a l IH]; intros Hl; simpl; [done|]. rewrite (Hl a) by (by left). simpl.
  by rewrite IH by (intros b Hb; apply Hl; by right).
Qed.

Lemma customer_orders_in tenant customer session db k o s :
  In (k, o, s) (customer_orders tenant customer session db) ->
  db_orders db !! k = Some o /\ k.1 = tenant /\ or_customer_id o = Some customer.
Proof.
  unfold customer_orders. intros Hin. apply in_map_iff in Hin as ([k' o'] & [= -> -> <-] & Hin).
  apply list_elem_of_In, elem_of_take in Hin as (n & Hn & _). apply list_elem_of_lookup_2 in Hn.
  rewrite merge_sort_Permutation, list_elem_of_In, filter_In in Hn. destruct Hn as [Hn Hv].
  apply list_elem_of_In, elem_of_map_to_list in Hn. split; [done|]. unfold visible_order in Hv. simpl in Hv.
  bool_inv. by rewrite opt_is_true in *.
Qed.

Definition shown_item (i : OrderItemRow) : OrderItem :=
  StoreDomain.mkOrderItem (oi_sku i) (Some (oi_product_name i)) (oi_quantity i)
    (Some (show_Z (oi_unit_price_minor i))) (Some (show_Z 0))
    (Some (show_Z (oi_quantity i * oi_unit_price_minor i))).

Lemma item_shown i : order_item_ok i -> order_item_try_from_value (order_item_row_json i) = Ok (shown_item i).
Proof.
  intros [[Hs Hn] Hq [Hu Hl]]. unfold order_item_try_from_value, order_item_row_json.
  unfold required_i32_field. cbn [jget assoc String.eqb Ascii.eqb Bool.eqb ok_or res_bind].
  unfold decode_i32, as_int. rewrite (proj2 (Z.leb_le _ _)), (proj2 (Z.leb_le _ _)) by (unfold i32_min; lia).
  cbn [andb ok_or res_bind]. rewrite (proj2 (Z.leb_gt _ 0)) by lia. cbn [negb ensure res_bind].
  assert (Hz : fits_i64 0 = true) by done. by read_fields.
Qed.

Definition detail_order (tenant customer : string) (id : string) (o : OrderRow) (payment : option (string * PaymentRow))
    (items : list OrderItemRow) : Order :=
  StoreDomain.mkOrder id (or_order_number o) (Some tenant) (Some customer) (Some (order_status_text (or_status o)))
    ((fun p => py_status p.2) <$> payment) (Some (or_currency o)) (Some (show_Z (or_subtotal_minor o)))
    (Some (show_Z (or_discount_minor o))) (Some (show_Z (or_tax_minor o))) (Some (show_Z (or_shipping_minor o)))
    (Some (show_Z (or_total_minor o))) (Some (show_Z (rounded_seconds (or_created o)))) (map shown_item items).

Lemma rounded_fit t : 0 <= t <= i64_max -> fits_i64 (rounded_seconds t) = true.
Proof.
  intros Ht. unfold rounded_seconds, fits_i64, i64_min, i64_max in *.
  assert (0 <= (Z.abs t + 500000) / 1000000 <= 9223372036855) by div_lia.
  rewrite (proj2 (Z.leb_le _ _)), (proj2 (Z.leb_le _ _)); [done|nia|nia].
Qed.

Lemma detail_shown k o customer payment session items :
  order_row_ok k o -> or_customer_id o = Some customer -> Forall order_item_ok items ->
  (forall p, payment = Some p -> is_blank (py_status p.2) = false) ->
  order_try_from_value (order_detail k.1 k.2 o payment session items)
  = Ok (detail_order k.1 customer k.2 o payment items).
Proof.
  intros [(Ht & Hi & Hn & Hc & Hcu) Ha Hcr _] Hcust Hitems Hpay. specialize (Hcu _ Hcust).
  simpl in Ha. bool_inv. pose proof (status_not_blank (or_status o)). pose proof (rounded_fit _ Hcr).
  unfold order_detail, order_try_from_value. rewrite Hcust. cbn [jget assoc String.eqb Ascii.eqb Bool.eqb].
  erewrite (required_text _ "id") by (reflexivity || eassumption). cbn [res_bind].
  unfold order_items at 1. cbn [jget assoc String.eqb Ascii.eqb Bool.eqb].
  rewrite (collect_map _ _ shown_item) by (intros i Hin; apply item_shown; rewrite Forall_forall in Hitems; apply Hitems; by apply list_elem_of_In).
  cbn [res_bind]. unfold detail_order. destruct payment as [p|]; [specialize (Hpay p eq_refl)|]; by repeat read_field.
Qed.

(** what the checkout service answers about orders is what the storefront
    shows.  When the rows of a customer hold presentable values, the list the
    service answers is accepted in the scope of the tenant and the customer it
    was asked for, order by order; and the detail of an order is accepted with
    its amounts, its payment's status and its items, within the same scope. *)
Theorem checkout_orders_shown h parent q fault fault' db db' order tenant customer session :
  query_identity h parent q = Ok (tenant, customer, session) ->
  (forall k o, db_orders db !! k = Some o -> order_row_ok k o) ->
  (forall k o, db_orders db' !! k = Some o -> order_row_ok k o) ->
  (forall k p, db_payments db !! k = Some p -> is_blank (py_status p) = false) ->
  (forall v, list_orders fault h parent q db = Ok v ->
     order_list_from_value v tenant (Some customer)
     = Ok (map (fun r => summary_order tenant customer r.1.1 r.1.2) (customer_orders tenant customer session db)))
  /\ (forall v, get_order fault fault' h parent order q db db' = Ok v ->
        exists shown, order_try_from_value v = Ok shown
          /\ in_scope tenant (Some customer) shown = true /\ so_id shown = order
          /\ exists o, db_orders db !! (tenant, order) = Some o
               /\ so_total_minor shown = Some (show_Z (or_total_minor o))).
Proof.
  intros Hid Hok Hok' Hpay. split; intros v H.
  - unfold list_orders in H. rewrite Hid in H. cbn [res_bind] in H. unfold db_read, db_run, run_tx, tx_read in H.
    destruct fault as [[]|]; try done. cbn [fst res_bind] in H. injection H as <-.
    unfold order_list_from_value. cbn [jget assoc String.eqb Ascii.eqb Bool.eqb ok_or res_bind].
    rewrite (collect_map _ _ (fun r => summary_order tenant customer r.1.1 r.1.2)).
    + cbn [res_bind]. replace (forallb _ _) with true; [done|]. symmetry. apply forallb_forall.
      intros x Hx. apply in_map_iff in Hx as (r & <- & _). unfold in_scope, summary_order. simpl.
      by rewrite !String.eqb_refl.
    + intros [[k o] s] Hin. apply customer_orders_in in Hin as (Hk & Ht & Hc). cbn [fst snd].
      apply summary_shown; [by apply Hok|done|done].
  - unfold get_order in H. rewrite Hid in H. cbn [res_bind] in H. unfold db_read, db_run, run_tx, tx_read in H.
    destruct fault as [[]|]; try done. cbn [fst res_bind] in H. unfold visible_order_row in H.
    destruct (db_orders db !! (tenant, order)) as [o|] eqn:Eo; [|done]. simpl in H.
    destruct (visible_order db tenant customer session (tenant, order) o) eqn:Ev; [|done]. simpl in H.
    destruct fault' as [[]|]; try done. simpl in H. injection H as <-.
    unfold visible_order in Ev. simpl in Ev. bool_inv. rewrite opt_is_true in *.
    eexists. split; [apply (detail_shown (tenant, order) o customer)|].
    + by apply Hok.
    + done.
    + destruct (db_orders db' !! (tenant, order)) as [o'|] eqn:Eo'; simpl; [|constructor]. apply (ow_items _ _ (Hok' _ _ Eo')).
    + intros p Hp. unfold latest_payment in Hp. destruct (first_by _ _ _) as [[kp pr]|] eqn:Ef; [|done].
      simpl in Hp. injection Hp as <-. apply first_by_some in Ef as [Hp _]. by eapply Hpay.
    + unfold in_scope, detail_order. simpl. rewrite !String.eqb_refl. split_and!; [done|done|]. by exists o.
Qed.

Definition demo_query : OrderQuery := mkOrderQuery "acme" (Some "cust-1") None.

(** A table of at most one row *)
Lemma single_row {R} (t : gmap key R) k0 r0 (P : key -> R -> Prop) :
  map_to_list t = [(k0, r0)] -> P k0 r0 -> forall k r, t !! k = Some r -> P k r.
Proof.
  intros Ht HP k r Hk. apply elem_of_map_to_list in Hk. rewrite Ht in Hk.
  apply list_elem_of_singleton in Hk. injection Hk as -> ->. exact HP.
Qed.

Lemma demo_order_ok k o : db_orders ordered_db !! k = Some o -> order_row_ok k o.
Proof.
  destruct (map_to_list (db_orders ordered_db)) as [|[k0 o0] rest] eqn:E; [vm_compute in E; discriminate E|].
  vm_compute in E. injection E as <- <- <-. revert k o. eapply single_row; [vm_compute; reflexivity|].
  split; simpl.
  - split_and!; [reflexivity..|]. intros c [= <-]. reflexivity.
  - reflexivity.
  - split; vm_compute; discriminate.
  - constructor; [|constructor]. split; [split; reflexivity|split; [reflexivity|vm_compute; discriminate]|split; reflexivity].
Qed.

Lemma checkout_orders_shown_witness :
  exists v, list_orders None [] (mkContext None ∅) demo_query ordered_db = Ok v
  /\ order_list_from_value v "acme" (Some "cust-1")
     = Ok (map (fun r => summary_order "acme" "cust-1" r.1.1 r.1.2)
             (customer_orders "acme" "cust-1" None ordered_db)).
Proof.
  eexists. split; [reflexivity|].
  apply (checkout_orders_shown [] (mkContext None ∅) demo_query None None ordered_db ordered_db "order-u-2"
           "acme" "cust-1" None); [reflexivity|exact demo_order_ok|exact demo_order_ok| |reflexivity].
  intros k p Hk. assert (He : map_to_list (db_payments ordered_db) = []) by (vm_compute; reflexivity).
  apply elem_of_map_to_list in Hk. rewrite He in Hk. by apply elem_of_nil in Hk.
Defined.

(** ** Currencies of a quote *)

Definition line_in (currency : string) (l : Proto.QuoteLine) : Proto.QuoteLine :=
  {| ql_sku := ql_sku l; ql_quantity := ql_quantity l;
     ql_unit_price := (fun m => Proto.mkMoney currency (amount_minor m)) <$> ql_unit_price l;
     ql_line_total := (fun m => Proto.mkMoney currency (amount_minor m)) <$> ql_line_total l |}.

(** The quote with all its lines, but not its totals, in another currency *)
Definition lines_in (currency : string) (q : QuoteResponse) : QuoteResponse :=
  {| qp_quote_id := qp_quote_id q; qp_status := qp_status q; qp_lines := map (line_in currency) (qp_lines q);
     qp_subtotal := qp_subtotal q; qp_discount_total := qp_discount_total q; qp_tax_total := qp_tax_total q;
     qp_grand_total := qp_grand_total q; qp_valid_for_seconds := qp_valid_for_seconds q;
     qp_pricing_version := qp_pricing_version q |}.

Definition line_amount (l : QuoteLine) : option Z := sm_amount_minor <$> sl_line_total l.

Lemma required_money_ok m name x :
  required_money m name = Ok x ->
  exists p, m = Some p /\ 0 <= amount_minor p /\ x = money_from_proto p.
Proof. unfold required_money. intros H. res_inv. bool_inv. eauto. Qed.

Lemma line_in_shown currency l x :
  three_letters currency = true -> line_try_from_proto l = Ok x ->
  exists x', line_try_from_proto (line_in currency l) = Ok x' /\ line_amount x' = line_amount x.
Proof.
  intros Hc. unfold line_try_from_proto. intros H. res_inv. bool_inv.
  repeat match goal with Hm : required_money _ _ = Ok _ |- _ =>
    apply required_money_ok in Hm as (? & ? & ? & ->) end.
  unfold line_in. simpl.
  repeat match goal with Hm : ql_unit_price l = _ |- _ => rewrite Hm | Hm : ql_line_total l = _ |- _ => rewrite Hm end.
  match goal with Hb : is_blank _ = false |- _ => rewrite Hb end.
  rewrite (proj2 (Z.eqb_neq (ql_quantity l) 0)) by done. simpl.
  rewrite !required_money_run by (simpl; done). simpl. rewrite String.eqb_refl. simpl.
  rewrite bool_decide_eq_true_2 by done. simpl.
  match goal with Hf : (if fits_i32 _ then _ else _) = Some _ |- _ => rewrite Hf end. simpl. by eexists.
Qed.

Lemma lines_in_shown currency ls xs :
  three_letters currency = true -> collect line_try_from_proto ls = Ok xs ->
  exists xs', collect line_try_from_proto (map (line_in currency) ls) = Ok xs'
    /\ map line_amount xs' = map line_amount xs.
Proof.
  intros Hc. revert xs. induction ls as [|l ls IH]; intros xs; simpl; [intros [= <-]; by exists []|].
  intros H. res_inv.
  match goal with Hl : line_try_from_proto _ = _ |- _ => apply (line_in_shown currency) in Hl as (x' & -> & Hx); [|done] end.
  match goal with Hl : collect _ _ = Ok ?y |- _ => destruct (IH y Hl) as (xs' & -> & Hxs) end.
  simpl. eexists. split; [done|]. simpl. by rewrite Hx, Hxs.
Qed.

Lemma same_subtotal ls ls' acc :
  map line_amount ls = map line_amount ls' -> line_subtotal ls acc = line_subtotal ls' acc.
Proof.
  revert ls' acc. induction ls as [|l ls IH]; intros [|l' ls'] acc; try done. simpl. intros [= Hl Hls].
  unfold line_amount in Hl. destruct (sl_line_total l), (sl_line_total l'); try done. simpl in *.
  injection Hl as ->. destruct (checked_add _ _); simpl; [by apply IH|done].
Qed.

Lemma lines_in_nil currency ls :
  bool_decide (map (line_in currency) ls = []) = bool_decide (ls = []).
Proof. by destruct ls. Qed.

(** the currency of a quote's lines is never compared with that of its
    totals: a quote the storefront shows is still shown, with the same totals,
    when all its lines are in any other currency. *)
Theorem line_currency_unchecked q shown currency :
  quote_try_from_proto q = Ok shown -> three_letters currency = true ->
  exists shown', quote_try_from_proto (lines_in currency q) = Ok shown'
    /\ sq_subtotal shown' = sq_subtotal shown /\ sq_grand_total shown' = sq_grand_total shown
    /\ map line_amount (sq_lines shown') = map line_amount (sq_lines shown).
Proof.
  intros H Hc. unfold quote_try_from_proto in *. res_inv.
  match goal with Hl : collect _ _ = Ok ?y |- _ => destruct (lines_in_shown currency _ _ Hc Hl) as (xs & Hrun & Hxs) end.
  unfold lines_in. simpl. rewrite length_map, Hrun.
  repeat match goal with
         | Hb : ?b = true |- context [ensure ?b _] => rewrite Hb; cbn [ensure res_bind]
         | Hm : required_money _ _ = Ok _ |- _ => rewrite Hm; cbn [res_bind]; clear Hm
         | Hs : line_subtotal _ _ = Ok _ |- _ => rewrite (same_subtotal _ _ _ Hxs), Hs; cbn [res_bind]; clear Hs
         end.
  rewrite lines_in_nil.
  repeat match goal with
         | Hb : ?b = true |- context [ensure ?b _] => rewrite Hb; cbn [ensure res_bind]
         | Hb : forallb _ _ = true |- _ => simpl in Hb
         | Ho : ?o = Some _ |- context [ok_or ?o _] => rewrite Ho; cbn [ok_or res_bind]
         end.
  eexists. split; [done|]. split; [done|]. split; [done|]. exact Hxs.
Qed.

Lemma line_currency_unchecked_witness :
  exists shown, quote_try_from_proto (lines_in "EUR" sample_response) = Ok shown
    /\ map sm_currency_code (option_list (sq_subtotal shown)) = ["USD"].
Proof.
  destruct (line_currency_unchecked sample_response _ "EUR" eq_refl eq_refl) as (shown & H & Hs & _).
  exists shown. split; [exact H|]. rewrite Hs. reflexivity.
Defined.
