(* ===== verification/Recommendation.v ===== *)
(** The recommendation service (services/recommendation/src): its parameters,
    the catalog request with its stampede of workers, the memory its chaos
    switch retains, and the answers of its endpoints; what it recommends, what
    it forwards to the catalog and how much memory it can hold. *)

From S2P Require Import Prelude Values Propagation StoreUpstream.
Import Text Serde Propagation StoreContext.

(** ** config.rs *)

Definition DEFAULT_SEGMENT : string := "standard".
Definition DEFAULT_LIMIT : Z := 8.
Definition MAX_LIMIT : Z := 100.
Definition MAX_STAMPEDE : Z := 16.
Definition MAX_CHAOS_DELAY_MS : Z := 5000.
Definition MAX_CHAOS_LEAK_KB_PER_REQUEST : Z := 1024.
Definition MAX_CHAOS_LEAK_KB_TOTAL : Z := 8 * 1024.
Definition READINESS_TENANT_ID : string := "tenant-acme".

Record Recommend : Type := mkRecommend {
  rm_sku : string; rm_tenant_id : option string; rm_segment : string; rm_limit : Z;
  rm_slow : Z; rm_leak : Z; rm_stampede : Z }.

(** The values a query gives a parameter *)
Definition query_values (name : string) (query : list (string * string)) : list string :=
  map snd (List.filter (fun kv => String.eqb kv.1 name) query).

(** One field of the query: absent it takes its default, given twice the query
    is refused. *)
Definition query_field {A} (name : string) (parse : string -> option A) (absent : option A)
    (query : list (string * string)) : option A :=
  match query_values name query with
  | [] => absent
  | [value] => parse value
  | _ => None
  end.

(** [Query<Recommend>], from the decoded pairs of the query string *)
Definition read_recommend (query : list (string * string)) : option Recommend :=
  sku ← query_field "sku" Some None query;
  tenant ← query_field "tenant_id" (fun v => Some (Some v)) (Some None) query;
  segment ← query_field "segment" Some (Some DEFAULT_SEGMENT) query;
  limit ← query_field "limit" parse_u64 (Some DEFAULT_LIMIT) query;
  slow ← query_field "slow" parse_u64 (Some 0) query;
  leak ← query_field "leak" parse_u64 (Some 0) query;
  stampede ← query_field "stampede" parse_u64 (Some 0) query;
  Some (mkRecommend sku tenant segment limit slow leak stampede).

Definition bounded_limit (value : Z) : Z := clamp value 1 MAX_LIMIT.
Definition bounded_delay_ms (value : Z) : Z := Z.min value MAX_CHAOS_DELAY_MS.
Definition bounded_stampede (value : Z) : Z := Z.min value MAX_STAMPEDE.

(** ** error.rs *)

Record RecommendationError : Type := mkRecommendationError {
  re_status : Z; re_code : string; re_message : string }.

Definition error_into_response (e : RecommendationError) : Z * json :=
  (re_status e, JObj [("error", JStr (re_code e)); ("message", JStr (re_message e))]).

(** ** chaos.rs *)

(** The retained buffers, by their lengths in bytes; what they hold is written
    once and never read. *)
Definition leak_store : Type := list Z.

Definition held_kb (store : leak_store) : Z := foldr (fun bytes total => bytes / 1024 + total) 0 store.

Definition requested_leak_kb (requested_kb : Z) (flagd_enabled : bool) : Z :=
  Z.min (if flagd_enabled then Z.max requested_kb 256 else requested_kb) MAX_CHAOS_LEAK_KB_PER_REQUEST.

Definition retain_bounded_memory (requested_kb : Z) (flagd_enabled : bool) (store : leak_store) :
    Z * leak_store :=
  if requested_kb =? 0 then (0, store) else
  let alloc_kb := Z.min (requested_leak_kb requested_kb flagd_enabled)
                    (Z.max 0 (MAX_CHAOS_LEAK_KB_TOTAL - held_kb store)) in
  if alloc_kb =? 0 then (0, store) else (alloc_kb, store ++ [alloc_kb * 1024]).

(** ** catalog.rs *)

Record CatalogProductPage : Type := mkCatalogPage { pg_items : list json; pg_experience : option string }.
Record GraphQlData : Type := mkGraphQlData { gd_product : option json; gd_products : CatalogProductPage }.
Record GraphQlResponse : Type := mkGraphQlResponse {
  gr_data : option GraphQlData; gr_errors : option (list string) }.
Record CatalogLookup : Type := mkCatalogLookup {
  lk_product : json; lk_products : list json; lk_variants : list json; lk_experience : option string }.

Definition read_graphql_message (v : json) : option string :=
  fields ← struct_with_defaults [("message", required)] v;
  match fields with [message] => decode_str message | _ => None end.

Definition read_catalog_page (v : json) : option CatalogProductPage :=
  fields ← struct_with_defaults [("items", required); ("experience", optional)] v;
  match fields with
  | [items; experience] =>
      items ← decode_vec Some items;
      experience ← decode_option decode_str experience;
      Some (mkCatalogPage items experience)
  | _ => None
  end.

Definition read_graphql_data (v : json) : option GraphQlData :=
  fields ← struct_with_defaults [("product", optional); ("products", required)] v;
  match fields with
  | [product; products] =>
      product ← decode_option Some product;
      products ← read_catalog_page products;
      Some (mkGraphQlData product products)
  | _ => None
  end.

Definition read_graphql_response (v : json) : option GraphQlResponse :=
  fields ← struct_with_defaults [("data", optional); ("errors", optional)] v;
  match fields with
  | [data; errors] =>
      data ← decode_option read_graphql_data data;
      errors ← decode_option (decode_vec read_graphql_message) errors;
      Some (mkGraphQlResponse data errors)
  | _ => None
  end.

Definition product_sku (product : json) : option string := jget_str "sku" product.

(** [product.get("variants").and_then(Value::as_array)] *)
Definition product_variants (product : json) : list json :=
  match jget "variants" product with Some (JArr variants) => variants | _ => [] end.

Definition other_product (sku : string) (candidate : json) : bool :=
  match product_sku candidate with
  | Some candidate_sku => negb (eq_ignore_ascii_case candidate_sku sku)
  | None => false
  end.

(** The active span with the inbound request's safe baggage *)
Definition catalog_outbound_context (active inbound : Context) : Context :=
  with_baggage active (cx_baggage (sanitize_context inbound)).

Definition join_messages (messages : list string) : string :=
  match messages with
  | [] => ""
  | m :: rest => foldl (fun text m => text +:+ "; " +:+ m) m rest
  end.

(** A posted query; its text, [CATALOG_QUERY], is constant. *)
Record CatalogRequest : Type := mkCatalogRequest {
  rq_context : Context; rq_headers : headers; rq_variables : json }.

(** What comes of posting a request: no answer, an answer whose body can not be
    read, or an answer. *)
Inductive CatalogAnswer : Type :=
| NoAnswer (m : string)
| BodyLost (m : string)
| CatalogAnswered (status : Z) (status_text body : string).

Definition is_success (status : Z) : bool := (200 <=? status) && (status <=? 299).

(** The end of a spawned worker: its result, or the failure of the task *)
Inductive worker_end (A : Type) : Type :=
| Joined (r : result RecommendationError A)
| NotJoined (m : string).
Arguments Joined {A} _.
Arguments NotJoined {A} _.

Local Open Scope result_scope.

Definition tenant_required : RecommendationError :=
  mkRecommendationError 400 "tenant_required" "tenant identity is required".

Definition bad_gateway (code message : string) : RecommendationError :=
  mkRecommendationError 502 code message.

(** What [fetch] makes of an answer's envelope *)
Definition lookup_of (p : Recommend) (envelope : GraphQlResponse) : result RecommendationError CatalogLookup :=
  match gr_errors envelope with
  | Some (_ :: _ as errors) => Err (bad_gateway "catalog_graphql_error" (join_messages errors))
  | _ =>
      data <- ok_or (gr_data envelope)
                (bad_gateway "catalog_protocol_error" "Catalog GraphQL response had no data") ;;
      product <- ok_or (gd_product data)
                   (mkRecommendationError 404 "product_not_found"
                      ("no Catalog product for sku " +:+ rm_sku p)) ;;
      let products := take (Z.to_nat (bounded_limit (rm_limit p)))
                        (List.filter (other_product (rm_sku p)) (pg_items (gd_products data))) in
      Ok (mkCatalogLookup product products (flat_map product_variants products)
            (pg_experience (gd_products data)))
  end.

Section service.
(** The propagator, the parsing of a body (with the error it reports), the error
    of a parsed body that is not an envelope, the reason a header value is
    refused, and the context of the active span *)
Variables (inject_context : Context -> headers -> headers)
  (parse_json : string -> result string json) (shape_error : json -> string)
  (header_error : string) (active : Context).

Definition catalog_request (context : Context) (p : Recommend) : result RecommendationError CatalogRequest :=
  tenant <- ok_or (rm_tenant_id p) tenant_required ;;
  let outbound := extend_baggage (catalog_outbound_context active context) [(TENANT_ID, tenant)] in
  let headers := inject_context_headers inject_context outbound [] in
  ensure (header_text tenant)
    (mkRecommendationError 400 "invalid_tenant" ("tenant identity cannot be forwarded: " +:+ header_error)) ;;
  Ok (mkCatalogRequest outbound (header_insert "x-tenant-id" tenant headers)
        (JObj [("sku", JStr (rm_sku p)); ("tenantId", JStr tenant); ("segment", JStr (rm_segment p));
               ("size", JNum (Z.min (bounded_limit (rm_limit p) + 1) MAX_LIMIT))])).

Definition catalog_envelope (answer : CatalogAnswer) : result RecommendationError GraphQlResponse :=
  match answer with
  | NoAnswer m => Err (mkRecommendationError 503 "catalog_unavailable" m)
  | BodyLost m => Err (bad_gateway "catalog_protocol_error" m)
  | CatalogAnswered status status_text body =>
      ensure (is_success status) (bad_gateway "catalog_http_error" ("Catalog returned " +:+ status_text)) ;;
      value <- res_map_err (bad_gateway "catalog_protocol_error") (parse_json body) ;;
      ok_or (read_graphql_response value) (bad_gateway "catalog_protocol_error" (shape_error value))
  end.

Definition fetch (http : CatalogRequest -> CatalogAnswer) (context : Context) (p : Recommend) :
    result RecommendationError CatalogLookup :=
  request <- catalog_request context p ;;
  envelope <- catalog_envelope (http request) ;;
  lookup_of p envelope.

(** The first success and the last error of the workers, as they are joined *)
Definition join_worker {A} (acc : option A * option RecommendationError) (w : worker_end A) :
    option A * option RecommendationError :=
  match w with
  | Joined (Ok a) => (match acc.1 with None => Some a | Some _ => acc.1 end, acc.2)
  | Joined (Err e) => (acc.1, Some e)
  | NotJoined m => (acc.1, Some (bad_gateway "catalog_worker_failed" m))
  end.

Definition joined {A} (workers : list (worker_end A)) : result RecommendationError A :=
  match foldl join_worker (None, None) workers with
  | (Some a, _) => Ok a
  | (None, Some e) => Err e
  | (None, None) => Err (bad_gateway "catalog_worker_failed" "all Catalog request workers failed")
  end.

(** The exchange and the failure, if any, of the task of each worker; worker 0
    is the request itself when no stampede is asked for. *)
Variables (http : nat -> CatalogRequest -> CatalogAnswer) (task_failure : nat -> option string).

Definition worker (context : Context) (p : Recommend) (i : nat) : worker_end CatalogLookup :=
  match task_failure i with
  | Some m => NotJoined m
  | None => Joined (fetch (http i) context p)
  end.

Definition fetch_with_chaos (context : Context) (p : Recommend) (stampede_workers : Z) :
    result RecommendationError CatalogLookup :=
  if stampede_workers =? 0 then fetch (http 0) context p
  else joined (map (worker context p) (seq 0 (Z.to_nat stampede_workers))).

(** ** api.rs *)

Definition recommendations (l : CatalogLookup) : list string := omap product_sku (lk_products l).

Definition recommend_body (p : Recommend) (tenant : string) (l : CatalogLookup)
    (slow_ms retained_leak_kb stampede_workers : Z) : json :=
  JObj [("sku", JStr (rm_sku p)); ("tenant_id", JStr tenant); ("segment", JStr (rm_segment p));
        ("source", JStr "catalog-graphql"); ("experience", from_option JStr JNull (lk_experience l));
        ("product", lk_product l); ("products", JArr (lk_products l)); ("variants", JArr (lk_variants l));
        ("recommended", JArr (map JStr (recommendations l)));
        ("chaos", JObj [("slow_ms", JNum slow_ms); ("leak_kb", JNum retained_leak_kb);
                        ("stampede_workers", JNum stampede_workers)])].

Definition recommend_checks (p : Recommend) : result RecommendationError string :=
  tenant <- ok_or (rm_tenant_id p) tenant_required ;;
  ensure (negb (is_blank (rm_sku p))) (mkRecommendationError 400 "invalid_sku" "sku must not be empty") ;;
  ensure (negb (rm_limit p =? 0))
    (mkRecommendationError 400 "invalid_limit" "limit must be greater than zero") ;;
  Ok tenant.

(** [leak_flag]: what the feature flag answers, asked only for a leak *)
Definition recommend_inner (p : Recommend) (context : Context) (leak_flag : bool) (store : leak_store) :
    result RecommendationError json * leak_store :=
  match recommend_checks p with
  | Err e => (Err e, store)
  | Ok tenant =>
      let slow_ms := bounded_delay_ms (rm_slow p) in
      let '(retained_leak_kb, store) :=
        retain_bounded_memory (rm_leak p) ((0 <? rm_leak p) && leak_flag) store in
      let stampede_workers := bounded_stampede (rm_stampede p) in
      (lookup <- fetch_with_chaos context p stampede_workers ;;
       Ok (recommend_body p tenant lookup slow_ms retained_leak_kb stampede_workers), store)
  end.

Definition tenant_identity_error (e : TenantIdentityError) : RecommendationError :=
  let '(status, code) := match e with
    | TenantMissing => (400, "tenant_required")
    | TenantInvalid => (400, "invalid_tenant")
    | TenantConflicting => (409, "identity_conflict")
    end in
  mkRecommendationError status code (tenant_error_text e).

Definition with_tenant (p : Recommend) (tenant : string) : Recommend :=
  mkRecommend (rm_sku p) (Some tenant) (rm_segment p) (rm_limit p) (rm_slow p) (rm_leak p) (rm_stampede p).

(** [parent]: the context extracted from the headers *)
Definition recommend (h : headers) (parent : Context) (p : Recommend) (leak_flag : bool) (store : leak_store) :
    result RecommendationError json * leak_store :=
  match resolve_http_tenant_identity h (rm_tenant_id p) with
  | Err e => (Err (tenant_identity_error e), store)
  | Ok tenant => recommend_inner (with_tenant p tenant) parent leak_flag store
  end.

(** ** Readiness *)

Record ReadinessFailure : Type := mkReadinessFailure { rf_message : string; rf_http_status : option Z }.

Definition failure (message : string) : ReadinessFailure := mkReadinessFailure message None.

Record CatalogHealthResponse : Type := mkCatalogHealth {
  ch_status : string; ch_components : option (option string) }.
Record CatalogProductSummary : Type := mkProductSummary { cs_id : string; cs_tenant_id : string; cs_sku : string }.
Record CatalogReadinessResponse : Type := mkCatalogReadiness {
  cr_data : option (option CatalogProductSummary); cr_errors : option (list string) }.

Definition read_health_component (v : json) : option string :=
  (fields ← struct_with_defaults [("status", required)] v;
   match fields with [status] => decode_str status | _ => None end)%stdpp.

Definition read_health_components (v : json) : option (option string) :=
  (fields ← struct_with_defaults [("db", optional)] v;
   match fields with [db] => decode_option read_health_component db | _ => None end)%stdpp.

Definition read_health (v : json) : option CatalogHealthResponse :=
  (fields ← struct_with_defaults [("status", required); ("components", optional)] v;
   match fields with
   | [status; components] =>
       status ← decode_str status;
       components ← decode_option read_health_components components;
       Some (mkCatalogHealth status components)
   | _ => None
   end)%stdpp.

Definition read_product_summary (v : json) : option CatalogProductSummary :=
  (fields ← struct_with_defaults [("id", required); ("tenantId", required); ("sku", required)] v;
   match fields with
   | [id; tenant; sku] =>
       id ← decode_str id; tenant ← decode_str tenant; sku ← decode_str sku;
       Some (mkProductSummary id tenant sku)
   | _ => None
   end)%stdpp.

Definition read_readiness_data (v : json) : option (option CatalogProductSummary) :=
  (fields ← struct_with_defaults [("product", optional)] v;
   match fields with [product] => decode_option read_product_summary product | _ => None end)%stdpp.

Definition read_readiness (v : json) : option CatalogReadinessResponse :=
  (fields ← struct_with_defaults [("data", optional); ("errors", optional)] v;
   match fields with
   | [data; errors] =>
       data ← decode_option read_readiness_data data;
       errors ← decode_option (decode_vec read_graphql_message) errors;
       Some (mkCatalogReadiness data errors)
   | _ => None
   end)%stdpp.

(** The text of a successful answer; the messages name the exchange. *)
Definition readiness_text (request_failed read_failed refused : string) (answer : CatalogAnswer) :
    result ReadinessFailure string :=
  match answer with
  | NoAnswer m => Err (failure (request_failed +:+ m))
  | BodyLost m => Err (failure (read_failed +:+ m))
  | CatalogAnswered status status_text body =>
      ensure (is_success status) (mkReadinessFailure (refused +:+ status_text) (Some status)) ;;
      Ok body
  end.

Definition read_body {A} (read : json -> option A) (message body : string) : result ReadinessFailure A :=
  value <- res_map_err (fun m => failure (message +:+ m)) (parse_json body) ;;
  ok_or (read value) (failure (message +:+ shape_error value)).

Definition check_health (answer : CatalogAnswer) : result ReadinessFailure unit :=
  body <- readiness_text "Catalog readiness request failed: " "read Catalog readiness response: "
            "Catalog readiness returned HTTP " answer ;;
  health <- read_body read_health "parse Catalog readiness response: " body ;;
  ensure (String.eqb (ch_status health) "UP")
    (failure ("Catalog readiness status is " +:+ ch_status health)) ;;
  match ch_components health with
  | None => Ok tt
  | Some db =>
      status <- ok_or db (failure "Catalog readiness omitted the database component") ;;
      ensure (String.eqb status "UP") (failure "Catalog database readiness is not UP")
  end.

Definition check_readiness_product (product : CatalogProductSummary) : result ReadinessFailure unit :=
  ensure (negb (is_blank (cs_id product)) && String.eqb (cs_tenant_id product) READINESS_TENANT_ID
          && String.eqb (cs_sku product) "WIDGET-1")
    (failure "Catalog GraphQL readiness returned an invalid Product contract").

Definition check_graphql (answer : CatalogAnswer) : result ReadinessFailure unit :=
  body <- readiness_text "Catalog GraphQL readiness request failed: "
            "read Catalog GraphQL readiness response: " "Catalog GraphQL readiness returned HTTP " answer ;;
  envelope <- read_body read_readiness "parse Catalog GraphQL response: " body ;;
  ensure (bool_decide (default [] (cr_errors envelope) = []))
    (failure ("Catalog GraphQL readiness returned errors: " +:+ join_messages (default [] (cr_errors envelope)))) ;;
  data <- ok_or (cr_data envelope) (failure "Catalog GraphQL readiness returned null data") ;;
  product <- ok_or data (failure "Catalog GraphQL readiness returned no WIDGET-1 product") ;;
  check_readiness_product product.

(** [url]: the URL of the catalog's readiness, derived from its GraphQL URL; both
    requests are constant. *)
Definition check_catalog_readiness (url : option string) (health graphql : CatalogAnswer) :
    result ReadinessFailure unit :=
  ok_or url (failure "catalog GraphQL URL is invalid") ;;
  check_health health ;;
  check_graphql graphql.

Definition readiness_reply (r : result ReadinessFailure unit) : Z * json :=
  match r with
  | Ok _ => (200, JObj [("status", JStr "UP"); ("catalog", JStr "UP")])
  | Err e =>
      (503, JObj ([("status", JStr "DOWN"); ("catalog", JStr "DOWN"); ("error", JStr (rf_message e))]
                  ++ match rf_http_status e with Some n => [("http_status", JNum n)] | None => [] end))
  end.
End service.
