(* ===== verification/RecommendationOutcomes.v ===== *)
(** What the recommendation service promises: what an answer recommends, which
    worker of a stampede decides it, what the catalog is told about the tenant,
    and how much memory the service can be made to hold. *)

From S2P Require Import Prelude Values Propagation StoreUpstream Recommendation.
Import Text Serde Propagation StoreContext Recommendation.

(** ** Memory *)

Lemma held_app s t : held_kb (s ++ t) = held_kb s + held_kb t.
Proof. induction s as [|b s IH]; simpl; [done|]. lia. Qed.

(** What one request retains *)
Lemma retained_spec kb flag s a s' :
  0 <= kb -> held_kb s <= MAX_CHAOS_LEAK_KB_TOTAL -> retain_bounded_memory kb flag s = (a, s') ->
  0 <= a <= MAX_CHAOS_LEAK_KB_PER_REQUEST /\ held_kb s' = held_kb s + a
  /\ held_kb s' <= MAX_CHAOS_LEAK_KB_TOTAL /\ (kb = 0 -> a = 0).
Proof.
  intros Hkb Hs. unfold retain_bounded_memory.
  destruct (Z.eqb_spec kb 0) as [->|Hne]; [intros [= <- <-]; split_and!; try done; lia|].
  assert (Hreq : 0 < requested_leak_kb kb flag <= MAX_CHAOS_LEAK_KB_PER_REQUEST).
  { unfold requested_leak_kb, MAX_CHAOS_LEAK_KB_PER_REQUEST. destruct flag; lia. }
  unfold MAX_CHAOS_LEAK_KB_TOTAL in *.
  destruct (Z.eqb_spec (Z.min (requested_leak_kb kb flag) (Z.max 0 (8 * 1024 - held_kb s))) 0) as [E|E];
    intros [= <- <-].
  - split_and!; [done|unfold MAX_CHAOS_LEAK_KB_PER_REQUEST; lia|lia|lia|done].
  - rewrite held_app. simpl. rewrite Z.div_mul by done. split_and!; try lia; done.
Qed.

Section service.
Variables (inject_context : Context -> headers -> headers)
  (parse_json : string -> result string json) (shape_error : json -> string) (header_error : string).

(** The memory held after some requests, whatever each was and was answered *)
Inductive reachable : leak_store -> Prop :=
| reachable_start : reachable []
| reachable_request s active http task_failure h parent p flag :
    reachable s -> 0 <= rm_leak p ->
    reachable (recommend inject_context parse_json shape_error header_error active http task_failure
                 h parent p flag s).2.

Lemma recommend_store active http task_failure h parent p flag s :
  let s' := (recommend inject_context parse_json shape_error header_error active http task_failure
               h parent p flag s).2 in
  s' = s \/ exists on, s' = (retain_bounded_memory (rm_leak p) on s).2.
Proof.
  intros s'. subst s'. unfold recommend, recommend_inner. destruct (resolve_http_tenant_identity _ _); [|by left].
  destruct (recommend_checks _); [|by left]. cbn [rm_leak with_tenant].
  right. exists ((0 <? rm_leak p) && flag). by destruct (retain_bounded_memory _ _ _).
Qed.

(** whatever requests the service has served, the memory its chaos switch
    holds is at most eight MiB; a further request adds at most one MiB, nothing
    when it asks for none, and what it reports is what it added. *)
Theorem memory_bounded s kb flag a s' :
  reachable s -> 0 <= kb -> retain_bounded_memory kb flag s = (a, s') ->
  held_kb s' <= MAX_CHAOS_LEAK_KB_TOTAL /\ held_kb s' = held_kb s + a
  /\ 0 <= a <= MAX_CHAOS_LEAK_KB_PER_REQUEST /\ (kb = 0 -> s' = s).
Proof.
  intros Hs Hkb H. assert (Hb : held_kb s <= MAX_CHAOS_LEAK_KB_TOTAL).
  { clear H. induction Hs as [|s active http task h parent p on Hs IH Hp]; [unfold MAX_CHAOS_LEAK_KB_TOTAL; simpl; lia|].
    destruct (recommend_store active http task h parent p on s) as [->|[on' ->]]; [done|].
    destruct (retain_bounded_memory (rm_leak p) on' s) as [b t] eqn:E.
    by destruct (retained_spec _ _ _ _ _ Hp IH E) as (_ & _ & ? & _). }
  destruct (retained_spec _ _ _ _ _ Hkb Hb H) as (? & ? & ? & _). split_and!; try done; try lia.
  intros ->. by injection H.
Qed.

(** ** The stampede *)

Lemma join_success {A} (workers : list (worker_end A)) a e : exists e',
  foldl join_worker (Some a, e) workers = (Some a, e').
Proof.
  revert e. induction workers as [|[[b|e']|m] workers IH]; intros e; simpl; [by eexists|apply IH..].
Qed.

(** The error a failed worker leaves *)
Definition worker_error {A} (w : worker_end A) : option RecommendationError :=
  match w with
  | Joined (Ok _) => None
  | Joined (Err e) => Some e
  | NotJoined m => Some (bad_gateway "catalog_worker_failed" m)
  end.

Lemma join_failures {A} (workers : list (worker_end A)) acc :
  Forall (fun w => is_Some (worker_error w)) workers ->
  foldl join_worker (None, acc) workers
  = (None, match last workers with Some w => worker_error w | None => acc end).
Proof.
  revert acc. induction workers as [|w workers IH]; intros acc; [done|]. intros [Hw Hall]%Forall_cons.
  cbn [foldl]. destruct w as [[a|e]|m]; [by destruct Hw| |];
    (cbn [join_worker fst snd]; rewrite IH by done; rewrite last_cons; by destruct (last workers)).
Qed.

(** a stampede is decided by its workers in the order they were started: it
    answers with the result of the first one that succeeds, whatever the others
    meet, and when none succeeds with the error of the last; the error reported
    for workers that all fail without one is never needed. *)
Lemma stampede_settles {A} (workers : list (worker_end A)) :
  workers <> [] ->
  (exists before a after,
     workers = before ++ Joined (Ok a) :: after /\ Forall (fun w => is_Some (worker_error w)) before
     /\ joined workers = Ok a)
  \/ (exists before w e,
        workers = before ++ [w] /\ Forall (fun w => is_Some (worker_error w)) workers
        /\ worker_error w = Some e /\ joined workers = Err e).
Proof.
  intros Hne. assert (Hcase : (exists before a after, workers = before ++ Joined (Ok a) :: after
      /\ Forall (fun w => is_Some (worker_error w)) before) \/ Forall (fun w => is_Some (worker_error w)) workers).
  { clear Hne. induction workers as [|w workers IH]; [by right|].
    destruct w as [[a|e]|m]; [by left; exists [], a, workers| |];
      (destruct IH as [(before & a & after & -> & Hb)|Hall];
       [left; eexists (_ :: before), a, after; split; [done|constructor; [by eexists|done]]
       |right; constructor; [by eexists|done]]). }
  destruct Hcase as [(before & a & after & -> & Hb)|Hall]; [left|right].
  - exists before, a, after. split_and!; [done..|]. unfold joined. rewrite foldl_app, join_failures by done.
    cbn [foldl join_worker fst snd]. by destruct (join_success after a (match last before with Some w => worker_error w | None => None end)) as [e' ->].
  - destruct workers as [|w before _] using rev_ind; [done|]. pose proof Hall as Hw.
    apply Forall_app in Hw as [_ Hw]. apply Forall_cons in Hw as [[e He] _].
    exists before, w, e. split_and!; [done..|]. unfold joined. rewrite join_failures by done.
    by rewrite last_snoc, He.
Qed.

(** ** Recommendations *)

Lemma filter_sublist {A} (f : A -> bool) l : List.filter f l `sublist_of` l.
Proof. induction l as [|a l IH]; simpl; [done|]. destruct (f a); by constructor. Qed.

Lemma other_product_sku sku product :
  other_product sku product = true ->
  exists other, product_sku product = Some other /\ eq_ignore_ascii_case other sku = false.
Proof. unfold other_product. destruct (product_sku product) as [other|]; [|done]. intros H. bool_inv. by exists other. Qed.

Lemma recommended_all sku products :
  Forall (fun product => other_product sku product = true) products ->
  map product_sku products = map Some (omap product_sku products)
  /\ Forall (fun other => eq_ignore_ascii_case other sku = false) (omap product_sku products).
Proof.
  induction 1 as [|product products Hp _ [IH1 IH2]]; [by split|].
  apply other_product_sku in Hp as (other & Hp & Hne). cbn [map omap list_omap]. rewrite Hp.
  split; [cbn [map]; by f_equal|by constructor].
Qed.

(** What the products of an answer are, given the page the catalog returned *)
Record products_of (p : Recommend) (page products : list json) (skus : list string) : Prop := {
  po_skus : map product_sku products = map Some skus;
  po_page : products `sublist_of` page;
  po_limit : Z.of_nat (length skus) <= Z.min (rm_limit p) MAX_LIMIT;
  po_others : Forall (fun other => eq_ignore_ascii_case other (rm_sku p) = false) skus;
  po_all : Z.of_nat (length skus) < Z.min (rm_limit p) MAX_LIMIT ->
           forall product, In product page -> other_product (rm_sku p) product = true -> In product products
}.

Lemma first_products p page :
  0 < rm_limit p ->
  let products := take (Z.to_nat (bounded_limit (rm_limit p))) (List.filter (other_product (rm_sku p)) page) in
  products_of p page products (omap product_sku products).
Proof.
  intros Hlim products.
  assert (Hall : Forall (fun product => other_product (rm_sku p) product = true) products).
  { apply Forall_take, Forall_forall. intros product Hin%list_elem_of_In. by apply filter_In in Hin as [_ ?]. }
  destruct (recommended_all _ _ Hall) as [Hs Ho].
  assert (Hlen : length (omap product_sku products) = length products)
    by (apply (f_equal length) in Hs; by rewrite !length_map in Hs).
  split; rewrite ?Hlen; try done.
  - etrans; [apply sublist_take|apply filter_sublist].
  - unfold products, bounded_limit, clamp, MAX_LIMIT in *. rewrite length_take. lia.
  - unfold products, bounded_limit, clamp, MAX_LIMIT in *. rewrite length_take. intros Hlt product Hin Hother. rewrite take_ge by (unfold MAX_LIMIT in *; lia). by apply filter_In.
Qed.

Lemma lookup_of_ok p envelope l :
  0 < rm_limit p -> lookup_of p envelope = Ok l ->
  exists data, gr_data envelope = Some data /\ gd_product data = Some (lk_product l)
     /\ products_of p (pg_items (gd_products data)) (lk_products l) (recommendations l).
Proof.
  intros Hlim H. unfold lookup_of in H.
  destruct (gr_errors envelope) as [[|e errors]|]; [|done|]; res_inv; eexists;
    split_and!; [done|done|by apply first_products|done|done|by apply first_products].
Qed.

(** The exchange of one worker *)
Lemma fetch_ok active ask context p l :
  0 < rm_limit p -> fetch inject_context parse_json shape_error header_error active ask context p = Ok l ->
  exists request envelope data,
    catalog_request inject_context header_error active context p = Ok request
    /\ catalog_envelope parse_json shape_error (ask request) = Ok envelope
    /\ gr_data envelope = Some data /\ gd_product data = Some (lk_product l)
    /\ products_of p (pg_items (gd_products data)) (lk_products l) (recommendations l).
Proof.
  intros Hlim H. unfold fetch in H. res_inv.
  match goal with Hl : lookup_of _ _ = _ |- _ => apply lookup_of_ok in Hl as (data & ? & ? & ?); [|done] end.
  by eexists _, _, data.
Qed.

Lemma fetch_with_chaos_ok active http task_failure context p n l :
  0 <= n ->
  fetch_with_chaos inject_context parse_json shape_error header_error active http task_failure context p n = Ok l ->
  exists i, Z.of_nat i < Z.max 1 n
    /\ fetch inject_context parse_json shape_error header_error active (http i) context p = Ok l.
Proof.
  intros Hn. unfold fetch_with_chaos. destruct (Z.eqb_spec n 0) as [->|Hne]; [by exists 0%nat|].
  set (workers := map _ _). intros H. destruct (stampede_settles workers) as [(before & a & after & Hw & _ & Ha)|(? & ? & ? & _ & _ & _ & Ha)].
  - unfold workers. destruct (Z.to_nat n) eqn:E; [lia|done].
  - rewrite Ha in H. injection H as ->.
    assert (Hin : In (Joined (Ok l)) workers) by (rewrite Hw; apply in_or_app; right; by left).
    apply in_map_iff in Hin as (i & Hi & Hin%in_seq). exists i. split; [lia|].
    unfold worker in Hi. by destruct (task_failure i); [|injection Hi].
  - by rewrite Ha in H.
Qed.

(** C30: what an answer recommends comes from one catalog answer: the one to a
    request for the tenant that the caller's headers and query agree on, among at
    most sixteen of them.  It names, in the catalog's order, products of that
    page other than the requested one, at most as many as asked for and at most a
    hundred; and when there are fewer, every other product of the page. *)
Theorem recommendations_sound active http task_failure h parent p flag s v s' :
  0 <= rm_limit p -> 0 <= rm_stampede p ->
  recommend inject_context parse_json shape_error header_error active http task_failure h parent p flag s
    = (Ok v, s') ->
  exists tenant i request envelope data products skus,
    resolve_http_tenant_identity h (rm_tenant_id p) = Ok tenant /\ (i < 16)%nat
    /\ catalog_request inject_context header_error active parent (with_tenant p tenant) = Ok request
    /\ catalog_envelope parse_json shape_error (http i request) = Ok envelope
    /\ gr_data envelope = Some data /\ jget "product" v = gd_product data
    /\ jget "products" v = Some (JArr products) /\ jget "recommended" v = Some (JArr (map JStr skus))
    /\ jget "tenant_id" v = Some (JStr tenant)
    /\ products_of p (pg_items (gd_products data)) products skus.
Proof.
  intros Hlim Hst. unfold recommend. destruct (resolve_http_tenant_identity _ _) as [tenant|] eqn:Ht; [|done].
  unfold recommend_inner. destruct (recommend_checks _) as [t|] eqn:Ec; [|done].
  destruct (retain_bounded_memory _ _ _) as [kb s1]. intros [= H <-]. res_inv.
  unfold recommend_checks in Ec. simpl in Ec. res_inv. bool_inv.
  match goal with Hf : fetch_with_chaos _ _ _ _ _ _ _ _ _ _ = Ok ?l |- _ =>
    apply fetch_with_chaos_ok in Hf as (i & Hi & Hf);
      [|cbn [with_tenant rm_stampede]; unfold bounded_stampede, MAX_STAMPEDE; lia];
    apply fetch_ok in Hf as (request & envelope & data & Hr & He & Hd & Hp & Ho);
      [|cbn [with_tenant rm_limit]; lia];
    exists t, i, request, envelope, data, (lk_products l), (recommendations l)
  end.
  cbn [with_tenant rm_stampede] in Hi. unfold bounded_stampede, MAX_STAMPEDE in Hi.
  split_and!; try done; [lia|]. by destruct Ho.
Qed.

(** ** The tenant *)

Lemma no_control_header value : has_control value = false -> header_text value = true.
Proof.
  unfold header_text. induction value as [|a r IH]; [done|]. cbn [has_control str_forallb]. intros H. bool_inv.
  rewrite IH by done. unfold header_byte.
  match goal with Ha : (byte_of a <? 32)%N = false |- _ => apply N.ltb_ge in Ha end.
  match goal with Ha : (byte_of a =? 127)%N = false |- _ => rewrite Ha end.
  rewrite (proj2 (N.leb_le _ _)) by done. by rewrite orb_true_r.
Qed.

Lemma get_all_insert name value h : get_all name (header_insert name value h) = [Some value].
Proof.
  unfold get_all, header_insert. rewrite List.filter_app, map_app.
  assert (H : List.filter (fun nv => String.eqb nv.1 name)
                (List.filter (fun nv : string * option string => negb (String.eqb nv.1 name)) h) = []).
  { induction h as [|[n v] h IH]; [done|]. simpl. destruct (String.eqb n name) eqn:E; [done|]. simpl. by rewrite E. }
  rewrite H. simpl. by rewrite String.eqb_refl.
Qed.

Lemma resolved_tenant_ok h p tenant : resolve_http_tenant_identity h p = Ok tenant -> tenant_ok tenant.
Proof. intros H. by destruct (resolve_http_tenant_sound _ _ _ H). Qed.

(** the catalog is told the tenant the request was resolved to, and nothing
    an inbound caller should not pass on.  A resolved tenant always makes a
    request, whose [x-tenant-id] header, variables and baggage name it, whose
    span is the service's own, and whose baggage holds allowed entries only. *)
Theorem tenant_forwarded active h parent p tenant :
  resolve_http_tenant_identity h (rm_tenant_id p) = Ok tenant ->
  exists request,
    catalog_request inject_context header_error active parent (with_tenant p tenant) = Ok request
    /\ get_all "x-tenant-id" (rq_headers request) = [Some tenant]
    /\ jget "tenantId" (rq_variables request) = Some (JStr tenant)
    /\ baggage_get (rq_context request) TENANT_ID = Some tenant
    /\ cx_span (rq_context request) = cx_span active
    /\ forall key value, baggage_get (rq_context request) key = Some value ->
         is_safe_baggage_entry key value = true
         /\ (key = TENANT_ID \/ baggage_get parent key = Some value).
Proof.
  intros H. apply resolved_tenant_ok in H as (Hne & Hlen & Hc).
  unfold catalog_request. cbn [with_tenant rm_tenant_id ok_or res_bind].
  rewrite no_control_header by done. cbn [ensure res_bind].
  assert (Hsafe : is_safe_baggage_entry TENANT_ID tenant = true).
  { unfold is_safe_baggage_entry, MAX_BUSINESS_BAGGAGE_VALUE_LENGTH. rewrite Hc. simpl.
    by rewrite (proj2 (Z.leb_le _ _)). }
  eexists. split; [done|]. cbn [rq_headers rq_variables rq_context].
  split_and!; [apply get_all_insert|done|by rewrite extend_baggage_one, Hsafe|done|].
  intros key value Hk. split.
  - unfold baggage_get in Hk. apply fmap_Some in Hk as ([v m] & Hk & ->).
    by apply (proj1 (safe_context_spec _) (extend_baggage_one_safe _ _ _)) in Hk.
  - rewrite extend_baggage_one, Hsafe in Hk. destruct (String.eqb_spec key TENANT_ID) as [->|]; [by left|right].
    simpl in Hk. unfold baggage_get in *. simpl in Hk. rewrite lookup_clone_baggage in Hk. simpl in Hk.
    rewrite lookup_clone_baggage in Hk.
    destruct (cx_baggage parent !! key) as [[v m]|]; [|done]. simpl in Hk |- *.
    destruct (is_safe_baggage_entry key v); [|done]. simpl in Hk.
    by destruct (is_safe_baggage_entry key v).
Qed.
End service.

(** ** A concrete run *)

Definition demo_product (sku : string) : json := JObj [("sku", JStr sku); ("variants", JArr [JStr sku])].

Definition demo_envelope : json :=
  JObj [("data", JObj [("product", demo_product "WIDGET-1");
                       ("products", JObj [("items", JArr (map demo_product ["widget-1"; "GADGET-1"; "GADGET-2"]))])])].

Definition demo_ask (i : nat) (request : CatalogRequest) : CatalogAnswer :=
  if Nat.eqb i 0 then NoAnswer "refused" else CatalogAnswered 200 "200 OK" "{}".

Definition demo_params : Recommend := mkRecommend "WIDGET-1" (Some "acme") "standard" 1 0 3000 2.

Definition demo_recommend : result RecommendationError json * leak_store :=
  recommend (fun _ h => h) (fun _ => Ok demo_envelope) (fun _ => "") "" (mkContext None ∅) demo_ask
    (fun _ => None) [("x-tenant-id", Some "acme")] (mkContext None ∅) demo_params true [].

Lemma recommendations_sound_witness :
  exists v products skus, demo_recommend.1 = Ok v /\ jget "recommended" v = Some (JArr (map JStr skus))
    /\ products_of demo_params (map demo_product ["widget-1"; "GADGET-1"; "GADGET-2"]) products skus.
Proof.
  destruct demo_recommend as [[v|] s'] eqn:E; [|vm_compute in E; discriminate E].
  destruct (recommendations_sound (fun _ h => h) (fun _ => Ok demo_envelope) (fun _ => "") "" (mkContext None ∅)
    demo_ask (fun _ => None) [("x-tenant-id", Some "acme")] (mkContext None ∅) demo_params true [] v s')
    as (tenant & [|i] & request & envelope & data & products & skus & _ & _ & _ & He & Hd & _ & _ & Hs & _ & Ho);
    [done|done|exact E|done|].
  exists v, products, skus. split; [done|]. split; [exact Hs|].
  simpl in He. injection He as <-. simpl in Hd. injection Hd as <-. exact Ho.
Defined.

Lemma memory_bounded_witness :
  held_kb (retain_bounded_memory 3000 true [1048576]).2 <= MAX_CHAOS_LEAK_KB_TOTAL
  /\ (retain_bounded_memory 3000 true [1048576]).1 = 1024.
Proof.
  split; [|reflexivity].
  apply (memory_bounded (fun _ h => h) (fun _ => Ok demo_envelope) (fun _ => "") "" [1048576] 3000 true 1024
           [1048576; 1048576]); [|lia|reflexivity].
  change [1048576] with demo_recommend.2. constructor; [constructor|simpl; lia].
Defined.

Lemma tenant_forwarded_witness :
  exists request, catalog_request (fun _ h => h) "" (mkContext None ∅) (mkContext None ∅) demo_params = Ok request
    /\ get_all "x-tenant-id" (rq_headers request) = [Some "acme"].
Proof.
  destruct (tenant_forwarded (fun _ h => h) "" (mkContext None ∅) [("x-tenant-id", Some "acme")]
    (mkContext None ∅) demo_params "acme") as (request & H & Ht & _); [reflexivity|].
  exists request. by split.
Defined.
