(* ===== verification/VerifyW3c.v ===== *)
(** The W3C headers as the commerce verifier of the command line tool reads them
    (cli/src/commerce_verify.rs): traceparent, tracestate and baggage, the
    business baggage it compares, and small validators; the theorem that its
    tracestate grammar is the one of the orders consumer. *)

From Stdlib Require Import Btauto.
From S2P Require Import Prelude Values Propagation Runtime OrdersEnvelope.
Import Text Serde Propagation Rabbit OrdersMessage.

Definition MAX_ERROR_OUTPUT_CHARS : Z := 512.
Definition MAX_TRACESTATE_HEADER_BYTES : Z := 512.
Definition MAX_TRACESTATE_MEMBERS : Z := 32.
Definition MAX_TRACESTATE_MEMBER_BYTES : Z := 256.
Definition MAX_TRACESTATE_VALUE_BYTES : Z := 256.

(** ** Small validators *)

Definition is_ascii_hexdigit (a : ascii) : bool := match hex_digit a with Some _ => true | None => false end.
Definition is_hex (value : string) (length : Z) : bool :=
  (str_len value =? length) && str_forallb is_ascii_hexdigit value.
Definition all_zero (value : string) : bool := str_forallb (fun a => Ascii.eqb a "0") value.
Definition is_span_id (value : string) : bool := is_hex value 16 && negb (all_zero value).
Definition is_trace_id (value : string) : bool := is_hex value 32 && negb (all_zero value).

Definition lower_or_digit (a : ascii) : bool := is_lower a || is_digit a.

(** [value.as_bytes().iter().skip(1)] and the first byte *)
Definition valid_tracestate_key_part (value : string) (max_length : Z) : bool :=
  match value with
  | "" => false
  | String first rest =>
      (str_len value <=? max_length) && lower_or_digit first
      && str_forallb (fun a => lower_or_digit a || existsb (Ascii.eqb a) ["_"; "*"; "/"; "-"]%char) rest
  end.

Definition valid_tracestate_key (value : string) : bool :=
  match split_on "@" value with
  | [first] => valid_tracestate_key_part first 256
  | [first; second] => valid_tracestate_key_part first 241 && valid_tracestate_key_part second 14
  | _ => false
  end.

Definition tracestate_value_byte (a : ascii) : bool :=
  let n := byte_of a in
  (((32 <=? n) && (n <=? 43)) || ((45 <=? n) && (n <=? 60)) || ((62 <=? n) && (n <=? 126)))%N.

Definition ends_with_space (value : string) : bool :=
  match str_rev value with String a _ => Ascii.eqb a " " | "" => false end.

Definition valid_tracestate_value (value : string) : bool :=
  negb (is_empty value) && negb (ends_with_space value) && str_forallb tracestate_value_byte value.

Definition valid_w3c_key (value : string) : bool :=
  negb (is_empty value)
  && str_forallb (fun a => lower_or_digit a || existsb (Ascii.eqb a) ["."; "_"; "-"; "/"; "@"]%char) value.

(** [value.contains(c)] *)
Definition contains_char (c : ascii) (value : string) : bool := negb (str_forallb (fun a => negb (Ascii.eqb a c)) value).

(** [chars().all(|c| !c.is_control() && c != ',' && c != ';')] *)
Definition plain_value (value : string) : bool :=
  negb (has_control value) && negb (contains_char "," value) && negb (contains_char ";" value).

(** [split('-').nth(n)] *)
Definition traceparent_part (value : string) (n : nat) : option string := split_on "-" value !! n.

Local Open Scope result_scope.

(** ** Headers *)

Definition validate_traceparent (value expected_trace_id : string) : result string unit :=
  match split_on "-" value with
  | [version; trace_id; span_id; flags] =>
      ensure (String.eqb version "00") "invalid W3C traceparent version or shape" ;;
      ensure (eq_ignore_ascii_case trace_id expected_trace_id && is_hex trace_id 32 && negb (all_zero trace_id))
        "W3C traceparent trace id does not match the verified trace" ;;
      ensure (is_hex span_id 16 && negb (all_zero span_id)) "invalid W3C traceparent span id" ;;
      ensure (is_hex flags 2) "invalid W3C traceparent flags"
  | _ => Err "invalid W3C traceparent version or shape"
  end.

Fixpoint tracestate_members (members : list string) (entries : gmap string string) :
    result string (gmap string string) :=
  match members with
  | [] => Ok entries
  | raw_member :: rest =>
      let member := trim_ows raw_member in
      kv <- ok_or (split_once "=" member) "invalid W3C tracestate member" ;;
      let '(key, value) := kv in
      ensure (negb (is_empty member) && negb (is_empty key) && (str_len member <=? MAX_TRACESTATE_MEMBER_BYTES)
              && negb (is_empty value) && negb (contains_char "=" value) && valid_tracestate_key key
              && (str_len value <=? MAX_TRACESTATE_VALUE_BYTES) && valid_tracestate_value value
              && bool_decide (entries !! key = None))
        "invalid W3C tracestate member" ;;
      tracestate_members rest (<[key := value]> entries)
  end.

Definition validate_tracestate (value : string) : result string (gmap string string) :=
  ensure (str_len value <=? MAX_TRACESTATE_HEADER_BYTES) "W3C tracestate exceeds 512 bytes" ;;
  let members := split_on "," value in
  ensure (negb (bool_decide (members = [])) && (Z.of_nat (length members) <=? MAX_TRACESTATE_MEMBERS))
    "W3C tracestate has invalid members" ;;
  tracestate_members members ∅.

Fixpoint baggage_members (members : list string) (entries : gmap string string) :
    result string (gmap string string) :=
  match members with
  | [] => Ok entries
  | member :: rest =>
      kv <- ok_or (split_once "=" (trim member)) "invalid W3C baggage member" ;;
      let '(key, raw_value) := kv in
      let value := trim (first_part (split_on ";" raw_value)) in
      ensure (valid_w3c_key key && negb (is_empty value)) "invalid W3C baggage member" ;;
      ensure (plain_value value) "invalid W3C baggage value" ;;
      ensure (bool_decide (entries !! key = None)) "duplicate W3C baggage key" ;;
      baggage_members rest (<[key := value]> entries)
  end.

Definition validate_baggage (value : string) : result string (gmap string string) :=
  ensure (str_len value <=? 8192) "W3C baggage exceeds the bounded header size" ;;
  entries <- baggage_members (split_on "," value) ∅ ;;
  ensure (negb (bool_decide (entries = ∅))) "W3C baggage is empty" ;;
  Ok entries.

(** ** Business baggage *)

Definition REQUIRED_BUSINESS_BAGGAGE_KEYS : list string :=
  ["tenant.id"; "user.tier"; "customer.segment"; "region"; "request.priority"].
Definition OPTIONAL_BUSINESS_BAGGAGE_KEYS : list string := ["session.id"].

(** The values of the known keys *)
Notation BusinessBaggage := (gmap string string).

Fixpoint baggage_from_keys (keys : list string) (attributes : json) (label : string) (values : BusinessBaggage) :
    result string BusinessBaggage :=
  match keys with
  | [] => Ok values
  | key :: rest =>
      match jget key attributes with
      | None =>
          if one_of key REQUIRED_BUSINESS_BAGGAGE_KEYS then Err (label +:+ " is missing `" +:+ key +:+ "`")
          else baggage_from_keys rest attributes label values
      | Some value =>
          value <- ok_or (as_str value) (label +:+ " `" +:+ key +:+ "` is not a string") ;;
          ensure (negb (is_blank value)) (label +:+ " has an empty `" +:+ key +:+ "` value") ;;
          baggage_from_keys rest attributes label (<[key := value]> values)
      end
  end.

(** [attributes]: an object *)
Definition from_attribute_object (attributes : json) (label : string) : result string BusinessBaggage :=
  baggage_from_keys (REQUIRED_BUSINESS_BAGGAGE_KEYS ++ OPTIONAL_BUSINESS_BAGGAGE_KEYS) attributes label ∅.

(** The keys a [BusinessBaggage] may hold, in the order of its tree *)
Definition business_keys : list string :=
  ["customer.segment"; "region"; "request.priority"; "session.id"; "tenant.id"; "user.tier"].

Fixpoint values_preserved (keys : list string) (values actual : gmap string string) (label : string) :
    result string unit :=
  match keys with
  | [] => Ok tt
  | key :: rest =>
      match values !! key with
      | Some expected =>
          ensure (bool_decide (actual !! key = Some expected))
            (label +:+ " does not preserve business baggage `" +:+ key +:+ "`") ;;
          values_preserved rest values actual label
      | None => values_preserved rest values actual label
      end
  end.

Definition ensure_matches (expected : BusinessBaggage) (actual : gmap string string) (label : string) :
    result string unit :=
  values_preserved business_keys expected actual label ;;
  ensure (bool_decide (is_Some (expected !! "session.id")) || bool_decide (actual !! "session.id" = None))
    (label +:+ " introduced an unexpected `session.id`").

Definition baggage_tenant_id (b : BusinessBaggage) : string := default "" (b !! "tenant.id").

(** The entries of an object of strings *)
Fixpoint string_entries (fields : list (string * json)) (label : string) (entries : gmap string string) :
    result string (gmap string string) :=
  match fields with
  | [] => Ok entries
  | (key, value) :: rest =>
      value <- ok_or (as_str value) (label +:+ " `" +:+ key +:+ "` is not a string") ;;
      ensure (valid_w3c_key key) (label +:+ " has an invalid key `" +:+ key +:+ "`") ;;
      ensure (negb (is_blank value)) (label +:+ " `" +:+ key +:+ "` is empty") ;;
      ensure (plain_value value) (label +:+ " `" +:+ key +:+ "` has an invalid value") ;;
      ensure (bool_decide (entries !! key = None))
        "Condition failed: `entries.insert(key.clone(), value.to_owned()).is_none()`" ;;
      string_entries rest label (<[key := value]> entries)
  end.

Definition string_map (fields : list (string * json)) (label : string) : result string (gmap string string) :=
  string_entries fields label ∅.

(** [bounded_output], for text counted in characters *)
Definition bounded_output (value : string) : string :=
  let shown := take_chars (Z.to_nat MAX_ERROR_OUTPUT_CHARS) value in
  if String.eqb shown value then shown else shown +:+ "…".

Local Close Scope result_scope.

(** ** The tracestate grammar *)

Lemma w3c_str_forallb_ext (p q : ascii -> bool) s : (forall a, p a = q a) -> str_forallb p s = str_forallb q s.
Proof. intros H. induction s as [|a s IH]; simpl; [done|]. by rewrite H, IH. Qed.

Lemma ascii_byte_eqb a c : Ascii.eqb a c = (byte_of a =? byte_of c)%N.
Proof.
  unfold byte_of. destruct (Ascii.eqb_spec a c) as [->|Hne]; [by rewrite N.eqb_refl|].
  symmetry. apply N.eqb_neq. intros H. apply Hne.
  by rewrite <- (ascii_N_embedding a), <- (ascii_N_embedding c), H.
Qed.

Lemma w3c_key_part_agrees value n : valid_tracestate_key_part value n = OrdersMessage.valid_tracestate_key_part value n.
Proof.
  unfold valid_tracestate_key_part, OrdersMessage.valid_tracestate_key_part, valid_key_part.
  destruct value as [|a rest]; [done|]. f_equal. apply w3c_str_forallb_ext. intros b.
  unfold lower_or_digit, lower_alpha_numeric. cbn [existsb]. by rewrite !ascii_byte_eqb.
Qed.

Lemma w3c_key_agrees value : valid_tracestate_key value = OrdersMessage.valid_tracestate_key value.
Proof.
  unfold valid_tracestate_key, OrdersMessage.valid_tracestate_key.
  destruct (split_on "@" value) as [|a [|b [|c l]]]; by rewrite ?w3c_key_part_agrees.
Qed.

Lemma w3c_value_agrees value : valid_tracestate_value value = OrdersMessage.valid_tracestate_value value.
Proof.
  unfold valid_tracestate_value, OrdersMessage.valid_tracestate_value, ends_with_space, last_byte. f_equal.
  f_equal. f_equal. destruct (str_rev value); [done|]. by rewrite ascii_byte_eqb.
Qed.

Lemma w3c_members_agree members entries seen :
  (forall key, one_of key seen = bool_decide (is_Some (entries !! key))) ->
  is_ok (tracestate_members members entries) = is_ok (check_tracestate members seen).
Proof.
  revert entries seen. induction members as [|raw members IH]; intros entries seen Hs; [done|]. simpl.
  destruct (split_once "=" (trim_ows raw)) as [[key value]|]; [|done]. simpl.
  rewrite w3c_key_agrees, w3c_value_agrees, Hs. unfold contains_char, str_contains_byte.
  unfold MAX_TRACESTATE_MEMBER_BYTES, MAX_TRACESTATE_VALUE_BYTES, OrdersMessage.MAX_TRACESTATE_MEMBER_BYTES.
  rewrite !Z.ltb_antisym.
  assert (Hd : bool_decide (entries !! key = None) = negb (bool_decide (is_Some (entries !! key)))).
  { destruct (entries !! key); done. }
  rewrite Hd. set (dup := bool_decide _).
  rewrite !negb_orb, !negb_involutive.
  match goal with |- is_ok (res_bind (ensure ?b _) _) = is_ok (res_bind (ensure ?c _) _) =>
    assert (Hbc : b = c) by btauto
  end.
  rewrite Hbc. match goal with |- context [ensure ?c _] => destruct c eqn:Hc end; [|done]. simpl.
  apply IH. intros k. unfold one_of in *. rewrite existsb_app. cbn [existsb]. rewrite Hs, orb_false_r.
  destruct (String.eqb_spec k key) as [->|Hne].
  - rewrite orb_true_r. by rewrite bool_decide_eq_true_2 by (rewrite lookup_insert_eq; by eexists).
  - rewrite orb_false_r. by rewrite lookup_insert_ne.
Qed.

(** the verifier and the orders consumer read tracestate alike: a header is
    accepted by one exactly when it is accepted by the other, so a carrier that a
    consumer settled is one the verifier can check. *)
Theorem tracestate_validators_agree value :
  is_ok (validate_tracestate value) = is_ok (OrdersMessage.validate_tracestate value).
Proof.
  unfold validate_tracestate, OrdersMessage.validate_tracestate.
  unfold MAX_TRACESTATE_HEADER_BYTES, MAX_TRACESTATE_MEMBERS,
    OrdersMessage.MAX_TRACESTATE_HEADER_BYTES, OrdersMessage.MAX_TRACESTATE_MEMBERS.
  destruct (str_len value <=? 512); [|done]. simpl. destruct (_ && _); [|done]. simpl.
  by apply w3c_members_agree.
Qed.
