(* ===== verification/VerifyTraceGraph.v ===== *)
(** The graph of spans and traces a verification explores, and the lemmas on its walks. *)

From S2P Require Import Prelude Values Propagation VerifyW3c.

(** The trace graph the commerce verifier checks (cli/src/commerce_verify.rs):
    fetching every linked trace, collecting the spans, the topology of their
    parents, their typed links, and the connectivity of the whole. *)
Module VerifyGraph.

Import Text Serde Propagation VerifyW3c.

Definition MAX_TRACES : Z := 32.
Definition MAX_SPANS_PER_TRACE : Z := 4096.
Definition MAX_TOTAL_SPANS : Z := 8192.
Definition MAX_TYPED_LINKS_PER_SPAN : Z := 128.
Definition MAX_TOTAL_TYPED_LINKS : Z := 8192.
Definition MAX_LINK_ATTRIBUTES_BYTES : Z := 16 * 1024.
Definition MAX_ATTRIBUTE_JSON_BYTES : Z := 64 * 1024.

(** [value.get(field).and_then(Value::as_array)] *)
Definition jget_array (field : string) (value : json) : option (list json) :=
  match jget field value with Some (JArr l) => Some l | _ => None end.

Definition len {A} (l : list A) : Z := Z.of_nat (length l).

Local Open Scope result_scope.

(** A loop over a list that stops at the first error *)
Fixpoint each {A} (check : A -> result string unit) (l : list A) : result string unit :=
  match l with
  | [] => Ok tt
  | a :: rest => check a ;; each check rest
  end.

(** [pointer("/data/...")] *)
Definition data_field (field : string) (response : json) : option json := jget "data" response ≫= jget field.

(** ** Fetching *)

Definition linked_ids (span : json) : result string (list string) :=
  links <- ok_or (jget_array "typedLinks" span) "Parallax span has no typed link list" ;;
  ensure (len links <=? MAX_TYPED_LINKS_PER_SPAN) "Parallax span has too many typed links" ;;
  map_res (fun link =>
    trace_id <- ok_or (jget_str "traceId" link) "Parallax typed link has no trace id" ;;
    ensure (is_trace_id trace_id) "Parallax typed link has an invalid trace id" ;;
    Ok trace_id) links.

(** The ids of the traces still to fetch, of those ever scheduled and of those
    fetched, the traces, and the totals *)
Record Fetch : Type := mkFetch {
  fe_pending : list string; fe_scheduled : gset string; fe_fetched : gset string; fe_traces : list json;
  fe_total_spans : Z; fe_total_typed_links : Z }.

Definition start_fetch (trace_id : string) : Fetch := mkFetch [trace_id] {[trace_id]} ∅ [] 0 0.

(** The links of one span, counted *)
Definition count_links (current : string) (total : Z) (span : json) : result string Z :=
  links <- ok_or (jget_array "typedLinks" span) ("Parallax trace " +:+ current +:+ " has invalid typed links") ;;
  ensure (len links <=? MAX_TYPED_LINKS_PER_SPAN) "Parallax trace has too many typed links on one span" ;;
  let total := total + len links in
  ensure (total <=? MAX_TOTAL_TYPED_LINKS) "commerce trace graph exceeds 8192 typed links" ;;
  Ok total.

Fixpoint count_all_links (current : string) (spans : list json) (total : Z) : result string Z :=
  match spans with
  | [] => Ok total
  | span :: rest => total <- count_links current total span ;; count_all_links current rest total
  end.

Definition linked_trace_id (value : json) : result string string :=
  id <- ok_or (jget_str "traceId" value) "Parallax returned a linked trace without a trace id" ;;
  ensure (is_trace_id id) "Parallax returned an invalid linked trace id" ;;
  Ok id.

(** The ids a trace leads to, scheduled unless they have been *)
Fixpoint schedule (ids : list string) (pending : list string) (scheduled : gset string) :
    result string (list string * gset string) :=
  match ids with
  | [] => Ok (pending, scheduled)
  | id :: rest =>
      ensure (is_trace_id id) "Parallax returned an invalid linked trace id" ;;
      if bool_decide (id ∈ scheduled) then schedule rest pending scheduled
      else
        let scheduled := {[id]} ∪ scheduled in
        ensure (Z.of_nat (size scheduled) <=? MAX_TRACES) "commerce trace graph exceeds 32 traces" ;;
        schedule rest (pending ++ [id]) scheduled
  end.

(** What one answer adds *)
Definition accept_trace (current : string) (response : json) (f : Fetch) : result string Fetch :=
  trace <- ok_or (match data_field "trace" response with Some JNull => None | t => t end)
             ("Parallax has no trace " +:+ current) ;;
  ensure (opt_is (jget_str "traceId" trace) current)
    ("Parallax returned trace data for a different trace than " +:+ current) ;;
  spans <- ok_or (jget_array "spans" trace) ("Parallax trace " +:+ current +:+ " has no span list") ;;
  ensure (len spans <=? MAX_SPANS_PER_TRACE) "Parallax trace exceeds 4096 spans" ;;
  let total_spans := fe_total_spans f + len spans in
  ensure (total_spans <=? MAX_TOTAL_SPANS) "commerce trace graph exceeds 8192 spans" ;;
  total_links <- count_all_links current spans (fe_total_typed_links f) ;;
  linked_traces <- ok_or (match data_field "linkedTraces" response with Some (JArr l) => Some l | _ => None end)
                     "Parallax response has no linked trace list" ;;
  ensure (len linked_traces <=? MAX_TRACES) "Parallax returned too many linked traces" ;;
  ids <- map_res linked_ids spans ;;
  linked <- map_res linked_trace_id linked_traces ;;
  next <- schedule (concat ids ++ linked) (fe_pending f) (fe_scheduled f) ;;
  Ok (mkFetch next.1 next.2 (fe_fetched f) (fe_traces f ++ [trace]) total_spans total_links).

(** One turn of the loop, of a state with something pending: [ask] is the query
    for one trace. *)
Definition fetch_turn (ask : string -> result string json) (current : string) (f : Fetch) : result string Fetch :=
  if bool_decide (current ∈ fe_fetched f) then Ok f else
  let f := mkFetch (fe_pending f) (fe_scheduled f) ({[current]} ∪ fe_fetched f) (fe_traces f)
             (fe_total_spans f) (fe_total_typed_links f) in
  ensure (is_trace_id current) "Parallax returned an invalid linked trace id" ;;
  ensure (Z.of_nat (size (fe_fetched f)) <=? MAX_TRACES) "commerce trace graph exceeds 32 traces" ;;
  response <- res_map_err (fun _ => "fetching Parallax trace " +:+ current) (ask current) ;;
  accept_trace current response f.

(** [None]: the fuel ran out. *)
Fixpoint fetch_loop (fuel : nat) (ask : string -> result string json) (f : Fetch) :
    option (result string (list json)) :=
  match fe_pending f with
  | [] => Some (Ok (fe_traces f))
  | current :: rest =>
      match fuel with
      | O => None
      | S fuel =>
          let f := mkFetch rest (fe_scheduled f) (fe_fetched f) (fe_traces f) (fe_total_spans f)
                     (fe_total_typed_links f) in
          match fetch_turn ask current f with
          | Err e => Some (Err e)
          | Ok f => fetch_loop fuel ask f
          end
      end
  end.

(** Each turn takes one scheduled id, and no more than [MAX_TRACES] are. *)
Definition fetch_trace_graph (ask : string -> result string json) (trace_id : string) :
    option (result string (list json)) :=
  fetch_loop (Z.to_nat MAX_TRACES) ask (start_fetch trace_id).

(** ** Spans *)

(** The positions of the spans by trace and span id, and the neighbours of each
    position *)
Notation SpanIndex := (gmap (string * string) nat).
Notation Adjacency := (list (list nat)).

Section graph.
(** [serde_json::from_str] *)
Variable parse_json : string -> option json.

Record SpanNode : Type := mkSpanNode {
  sp_trace_id : string; sp_span_id : string; sp_parent_span_id : option string; sp_span : json }.

Record SpanLink : Type := mkSpanLink { sl_source : nat; sl_target : nat; sl_attributes : json }.

(** The attributes of a span, an object given as text *)
Definition attributes_of (raw : option string) (limit : Z) (missing too_long invalid not_object : string) :
    result string json :=
  raw <- ok_or raw missing ;;
  ensure (str_len raw <=? limit) too_long ;;
  parsed <- ok_or (parse_json raw) invalid ;;
  match parsed with JObj _ => Ok parsed | _ => Err not_object end.

Definition span_attribute_object (span : json) : result string json :=
  attributes_of (jget_str "attributes" span) MAX_ATTRIBUTE_JSON_BYTES "Parallax span is missing attributes"
    "Parallax span attributes exceed the bounded size" "Parallax span attributes are invalid JSON"
    "Parallax span attributes are not an object".

Definition validate_span_attributes (span : json) : result string unit := span_attribute_object span ;; Ok tt.

Definition parse_parent_span_id (span : json) : result string (option string) :=
  value <- ok_or (jget "parentSpanId" span) "Parallax span is missing parentSpanId" ;;
  match value with
  | JNull => Ok None
  | _ =>
      parent <- ok_or (as_str value) "Parallax span parentSpanId is not a string" ;;
      ensure (is_span_id parent) "Parallax span has an invalid parentSpanId" ;;
      Ok (Some parent)
  end.

Definition collect_span (trace_id : string) (span : json) : result string SpanNode :=
  span_id <- ok_or (jget_str "spanId" span) "Parallax span is missing spanId" ;;
  ensure (is_span_id span_id) "Parallax returned an invalid span id" ;;
  each (fun field => ensure (match jget_str field span with Some v => negb (is_blank v) | None => false end)
                       ("Parallax span has a missing or empty " +:+ field)) ["name"; "service"] ;;
  validate_span_attributes span ;;
  parent <- parse_parent_span_id span ;;
  typed_links <- ok_or (jget_array "typedLinks" span) "Parallax span is missing typedLinks" ;;
  ensure (len typed_links <=? MAX_TYPED_LINKS_PER_SPAN) "Parallax span has too many typed links" ;;
  Ok (mkSpanNode trace_id span_id parent span).

Definition collect_trace (trace : json) (ids : gset string) (nodes : list SpanNode) :
    result string (gset string * list SpanNode) :=
  trace_id <- ok_or (jget_str "traceId" trace) "Parallax trace is missing traceId" ;;
  ensure (is_trace_id trace_id) "Parallax returned an invalid trace id" ;;
  ensure (bool_decide (trace_id ∉ ids)) "Parallax returned a duplicate trace" ;;
  spans <- ok_or (jget_array "spans" trace) "Parallax trace has no span list" ;;
  ensure (negb (bool_decide (spans = []))) "Parallax trace has no spans" ;;
  ensure (len spans <=? MAX_SPANS_PER_TRACE) "Parallax trace exceeds 4096 spans" ;;
  ensure (len nodes + len spans <=? MAX_TOTAL_SPANS) "commerce trace graph exceeds 8192 spans" ;;
  collected <- map_res (collect_span trace_id) spans ;;
  Ok ({[trace_id]} ∪ ids, nodes ++ collected).

Fixpoint collect_traces (traces : list json) (ids : gset string) (nodes : list SpanNode) :
    result string (gset string * list SpanNode) :=
  match traces with
  | [] => Ok (ids, nodes)
  | trace :: rest => next <- collect_trace trace ids nodes ;; collect_traces rest next.1 next.2
  end.

Definition collect_span_nodes (anchor : string) (traces : list json) : result string (list SpanNode) :=
  ensure (negb (bool_decide (traces = []))) ("commerce trace " +:+ anchor +:+ " has no traces") ;;
  ensure (len traces <=? MAX_TRACES) "commerce trace graph exceeds 32 traces" ;;
  collected <- collect_traces traces ∅ [] ;;
  ensure (bool_decide (anchor ∈ collected.1)) "commerce trace graph does not contain its anchor trace" ;;
  Ok collected.2.

Definition span_key (node : SpanNode) : string * string := (sp_trace_id node, sp_span_id node).

Fixpoint index_from (position : nat) (nodes : list SpanNode) (index : SpanIndex) : result string SpanIndex :=
  match nodes with
  | [] => Ok index
  | node :: rest =>
      ensure (bool_decide (index !! span_key node = None)) "Parallax returned duplicate span identity" ;;
      index_from (S position) rest (<[span_key node := position]> index)
  end.

Definition index_spans (nodes : list SpanNode) : result string SpanIndex := index_from 0 nodes ∅.

(** ** Parents *)

(** The position of a node's parent: [None] for a root *)
Definition parent_position (index : SpanIndex) (node : SpanNode) : result string (option nat) :=
  match sp_parent_span_id node with
  | None => Ok None
  | Some parent =>
      position <- ok_or (index !! (sp_trace_id node, parent)) "Parallax parentSpanId lookup failed" ;;
      Ok (Some position)
  end.

(** [nodes[position]]; a position of the index is never out of range. *)
Definition node_at (nodes : list SpanNode) (position : nat) : result string SpanNode :=
  ok_or (nodes !! position) "index out of bounds".

(** The walk from a node to its root.  [None]: the fuel ran out. *)
Fixpoint walk_to_root (fuel : nat) (nodes : list SpanNode) (index : SpanIndex) (current : nat) (seen : list nat) :
    option (result string unit) :=
  match fuel with
  | O => None
  | S fuel =>
      if bool_decide (current ∈ seen) then Some (Err "Parallax parent chain contains a cycle") else
      match node <- node_at nodes current ;; parent_position index node with
      | Err e => Some (Err e)
      | Ok None => Some (Ok tt)
      | Ok (Some parent) => walk_to_root fuel nodes index parent (current :: seen)
      end
  end.

(** A walk out of fuel would be one of more steps than there are nodes. *)
Definition check_walk (nodes : list SpanNode) (index : SpanIndex) (start : nat) : result string unit :=
  default (Err "out of fuel") (walk_to_root (S (length nodes)) nodes index start []).

(** The positions of the roots of each trace *)
Definition add_root (roots : gmap string (list nat)) (trace_id : string) (position : nat) :
    gmap string (list nat) :=
  <[trace_id := default [] (roots !! trace_id) ++ [position]]> roots.

Fixpoint collect_roots (index : SpanIndex) (position : nat) (nodes : list SpanNode)
    (roots : gmap string (list nat)) : result string (gmap string (list nat)) :=
  match nodes with
  | [] => Ok roots
  | node :: rest =>
      match sp_parent_span_id node with
      | Some parent =>
          ensure (bool_decide (is_Some (index !! (sp_trace_id node, parent))))
            "Parallax parentSpanId does not reference a span in its trace" ;;
          collect_roots index (S position) rest roots
      | None => collect_roots index (S position) rest (add_root roots (sp_trace_id node) position)
      end
  end.

(** The roots, in no order the verifier relies on *)
Definition validate_parent_topology (nodes : list SpanNode) (index : SpanIndex) : result string (list nat) :=
  roots_by_trace <- collect_roots index 0 nodes ∅ ;;
  let trace_ids : gset string := list_to_set (map sp_trace_id nodes) in
  ensure (bool_decide (size roots_by_trace = size trace_ids))
    "Parallax trace graph has a trace without a parent root" ;;
  ensure (forallb (fun kr => bool_decide (length kr.2 = 1%nat)) (map_to_list roots_by_trace))
    "Parallax trace has multiple disconnected parent roots" ;;
  each (check_walk nodes index) (seq 0 (length nodes)) ;;
  Ok (concat (map snd (map_to_list roots_by_trace))).

(** ** Typed links *)

Definition attribute_string (span : json) (key : string) : option string :=
  match jget_str "attributes" span with
  | Some raw => if MAX_ATTRIBUTE_JSON_BYTES <? str_len raw then None else parse_json raw ≫= jget_str key
  | None => None
  end.

Inductive MessagingRole : Type := Producer | Consumer.
#[export] Instance MessagingRole_eq_dec : EqDecision MessagingRole.
Proof. solve_decision. Defined.

Definition is_rabbitmq_operation (span : json) (operation : string) : bool :=
  opt_is (attribute_string span "messaging.system") "rabbitmq"
  && opt_is (attribute_string span "messaging.operation.name") operation.

Definition messaging_role (span : json) : option MessagingRole :=
  if is_rabbitmq_operation span "send" && opt_is (jget_str "kind" span) "SPAN_KIND_PRODUCER" then Some Producer
  else if is_rabbitmq_operation span "process" && opt_is (jget_str "kind" span) "SPAN_KIND_CONSUMER"
  then Some Consumer
  else None.

Definition validate_link_semantics (source target : json) : result string unit :=
  source_role <- ok_or (messaging_role source)
                   "Parallax typed link source is not a RabbitMQ producer or consumer" ;;
  target_role <- ok_or (messaging_role target)
                   "Parallax typed link target is not a RabbitMQ producer or consumer" ;;
  ensure (bool_decide (source_role = Consumer) && bool_decide (target_role = Producer))
    "Parallax typed link must point from a RabbitMQ consumer to a producer" ;;
  source_message_id <- ok_or (attribute_string source "messaging.message.id")
                         "Parallax typed link source has no message identity" ;;
  target_message_id <- ok_or (attribute_string target "messaging.message.id")
                         "Parallax typed link target has no message identity" ;;
  ensure (negb (is_blank source_message_id) && negb (is_blank target_message_id)
          && String.eqb source_message_id target_message_id)
    "Parallax typed link message identities do not match".

Definition validate_link_attributes (link : json) : result string json :=
  attributes <- ok_or (jget "attributes" link) "Parallax typed link is missing attributes" ;;
  attributes_of (as_str attributes) MAX_LINK_ATTRIBUTES_BYTES
    "Parallax typed link attributes are not a JSON string"
    "Parallax typed link attributes exceed the bounded size"
    "Parallax typed link attributes are invalid JSON"
    "Parallax typed link attributes are not an object".

Definition is_object (value : json) : bool := match value with JObj _ => true | _ => false end.

Definition validate_link (nodes : list SpanNode) (index : SpanIndex) (source : nat) (node : SpanNode)
    (link : json) (links : list SpanLink) : result string SpanLink :=
  ensure (is_object link) "Parallax typed link is not an object" ;;
  trace_id <- ok_or (jget_str "traceId" link) "Parallax typed link is missing traceId" ;;
  ensure (is_trace_id trace_id) "Parallax typed link has an invalid traceId" ;;
  span_id <- ok_or (jget_str "spanId" link) "Parallax typed link is missing spanId" ;;
  ensure (is_span_id span_id) "Parallax typed link has an invalid spanId" ;;
  attributes <- validate_link_attributes link ;;
  target <- ok_or (index !! (trace_id, span_id)) "Parallax typed link target is not in the fetched graph" ;;
  ensure (negb (Nat.eqb source target)) "Parallax typed link cannot point to its source span" ;;
  target_node <- node_at nodes target ;;
  validate_link_semantics (sp_span node) (sp_span target_node) ;;
  ensure (negb (existsb (fun l => Nat.eqb (sl_source l) source && Nat.eqb (sl_target l) target) links))
    "Parallax returned a duplicate typed link" ;;
  Ok (mkSpanLink source target attributes).

(** The links seen so far are the pairs already accepted. *)
Fixpoint validate_links_of (nodes : list SpanNode) (index : SpanIndex) (source : nat) (node : SpanNode)
    (raw_links : list json) (links : list SpanLink) : result string (list SpanLink) :=
  match raw_links with
  | [] => Ok links
  | raw :: rest =>
      link <- validate_link nodes index source node raw links ;;
      validate_links_of nodes index source node rest (links ++ [link])
  end.

Fixpoint validate_links_from (nodes : list SpanNode) (index : SpanIndex) (source : nat) (rest : list SpanNode)
    (total_links : Z) (links : list SpanLink) : result string (list SpanLink) :=
  match rest with
  | [] => Ok links
  | node :: rest =>
      raw_links <- ok_or (jget_array "typedLinks" (sp_span node)) "Parallax span is missing typedLinks" ;;
      ensure (len raw_links <=? MAX_TYPED_LINKS_PER_SPAN) "Parallax span has too many typed links" ;;
      let total_links := total_links + len raw_links in
      ensure (total_links <=? MAX_TOTAL_TYPED_LINKS) "commerce trace graph exceeds 8192 typed links" ;;
      links <- validate_links_of nodes index source node raw_links links ;;
      validate_links_from nodes index (S source) rest total_links links
  end.

Definition validate_typed_links (nodes : list SpanNode) (index : SpanIndex) : result string (list SpanLink) :=
  validate_links_from nodes index 0 nodes 0 [].

(** ** Connectivity *)

(** [adjacency[a].push(b); adjacency[b].push(a)] *)
Definition connect (a b : nat) (adjacency : Adjacency) : Adjacency :=
  alter (fun l => l ++ [a]) b (alter (fun l => l ++ [b]) a adjacency).

Fixpoint connect_parents (index : SpanIndex) (child : nat) (nodes : list SpanNode) (adjacency : Adjacency) :
    result string Adjacency :=
  match nodes with
  | [] => Ok adjacency
  | node :: rest =>
      parent <- parent_position index node ;;
      connect_parents index (S child) rest
        (match parent with Some parent => connect child parent adjacency | None => adjacency end)
  end.

Definition connect_links (links : list SpanLink) (adjacency : Adjacency) : Adjacency :=
  foldl (fun adjacency link => connect (sl_source link) (sl_target link) adjacency) adjacency links.

(** The breadth-first search.  [None]: the fuel ran out. *)
Fixpoint explore (fuel : nat) (adjacency : Adjacency) (frontier reachable : list nat) : option (list nat) :=
  match frontier with
  | [] => Some reachable
  | position :: rest =>
      match fuel with
      | O => None
      | S fuel =>
          if bool_decide (position ∈ reachable) then explore fuel adjacency rest reachable
          else explore fuel adjacency (rest ++ default [] (adjacency !! position)) (position :: reachable)
      end
  end.

(** Each node adds its neighbours once: the search takes at most as many turns as
    there are neighbours, and one for the root. *)
Definition explore_fuel (adjacency : Adjacency) : nat := S (length (concat adjacency)).

Definition validate_causal_connectivity (anchor : string) (nodes : list SpanNode) (index : SpanIndex)
    (roots : list nat) (links : list SpanLink) : result string unit :=
  let anchor_roots :=
    List.filter (fun root => match nodes !! root with
                             | Some node => String.eqb (sp_trace_id node) anchor
                             | None => false
                             end) roots in
  ensure (Nat.eqb (length anchor_roots) 1) "commerce anchor trace does not have exactly one root" ;;
  adjacency <- connect_parents index 0 nodes (replicate (length nodes) []) ;;
  let adjacency := connect_links links adjacency in
  reachable <- ok_or (explore (explore_fuel adjacency) adjacency anchor_roots []) "out of fuel" ;;
  ensure (Nat.eqb (length reachable) (length nodes))
    ("commerce trace has disconnected causal spans (reachable " +:+ show_Z (len reachable) +:+ " of "
     +:+ show_Z (len nodes) +:+ ")").
End graph.

End VerifyGraph.

(** Lemmas on the checks of the trace graph: the search finds the positions
    connected to its start, the index holds the spans' positions, the adjacency
    holds the causal edges, walks to a root end, and the collected roots are the
    spans without a parent. *)
Module VerifyGraphLemmas.

Import Text Serde Propagation VerifyW3c VerifyGraph.

(** ** Positions *)

Lemma positions_bounded (l : list nat) n : NoDup l -> Forall (fun p => (p < n)%nat) l -> (length l <= n)%nat.
Proof.
  intros Hnd Hb. rewrite <- (length_seq n 0). apply NoDup_incl_length; [by apply NoDup_ListNoDup|].
  intros p Hp. apply in_seq. rewrite Forall_forall in Hb. specialize (Hb p). rewrite list_elem_of_In in Hb.
  specialize (Hb Hp). lia.
Qed.

Lemma each_ok {A} (check : A -> result string unit) l : each check l = Ok tt <-> Forall (fun a => check a = Ok tt) l.
Proof.
  induction l as [|a l IH]; simpl; [by split|]. rewrite res_bind_ok, Forall_cons, <- IH.
  split; [intros ([] & H1 & H2); by split|intros [H1 H2]; by exists tt].
Qed.

(** ** The search *)

Section search.
Variable adjacency : Adjacency.

Definition neighbours (position : nat) : list nat := default [] (adjacency !! position).

(** The neighbours of the positions that have not been reached *)
Definition pending (reachable : list nat) : nat :=
  list_sum (map (fun p => if bool_decide (p ∈ reachable) then 0%nat else length (neighbours p))
              (seq 0 (length adjacency))).

Lemma pending_visit position reachable :
  position ∉ reachable ->
  (pending (position :: reachable) + length (neighbours position) = pending reachable)%nat.
Proof.
  intros Hnot. unfold pending. destruct (decide (position < length adjacency)%nat) as [Hlt|Hge].
  - replace (length adjacency) with (position + S (length adjacency - S position))%nat by lia.
    rewrite seq_app, !map_app, !list_sum_app. cbn [seq map list_sum foldr Nat.add].
    rewrite bool_decide_eq_true_2 by left. rewrite bool_decide_eq_false_2 by done.
    assert (Hsame : forall a n, (position < a \/ a + n <= position)%nat ->
      map (fun p => if bool_decide (p ∈ position :: reachable) then 0%nat else length (neighbours p)) (seq a n)
      = map (fun p => if bool_decide (p ∈ reachable) then 0%nat else length (neighbours p)) (seq a n)).
    { intros a n Ha. apply map_ext_in. intros p Hp%in_seq.
      rewrite (bool_decide_ext (p ∈ position :: reachable) (p ∈ reachable)); [done|]. rewrite elem_of_cons.
      split; [intros [->|]; [lia|done]|by right]. }
    rewrite !Hsame by lia. lia.
  - assert (Hn : neighbours position = []) by (unfold neighbours; destruct (adjacency !! position) eqn:E; [apply lookup_lt_Some in E; lia|done]).
    rewrite Hn. simpl. rewrite Nat.add_0_r. f_equal. apply map_ext_in. intros p Hp%in_seq.
    rewrite (bool_decide_ext (p ∈ position :: reachable) (p ∈ reachable)); [done|]. rewrite elem_of_cons.
    split; [intros [->|]; [lia|done]|by right].
Qed.

Lemma explore_ends fuel frontier reachable :
  (length frontier + pending reachable <= fuel)%nat -> is_Some (explore fuel adjacency frontier reachable).
Proof.
  revert frontier reachable. induction fuel as [|fuel IH]; intros [|position rest] reachable Hf; simpl in *;
    try (by eexists); [lia|].
  case_bool_decide as Hin; [apply IH; lia|]. apply IH. rewrite length_app. fold (neighbours position).
  pose proof (pending_visit position reachable Hin). lia.
Qed.

Lemma pending_all : pending [] = length (concat adjacency).
Proof.
  unfold pending, neighbours. clear. induction adjacency as [|l ls IH]; [done|]. cbn [length seq map list_sum foldr concat].
  rewrite length_app, <- IH. simpl. f_equal. rewrite <- seq_shift, map_map. done.
Qed.

Definition adjacent (a b : nat) : Prop := b ∈ neighbours a.

(** The state of the search: what it holds comes from the start, and the
    neighbours of what it has reached are reached or waiting. *)
Record search_ok (start : nat) (frontier reachable : list nat) : Prop := {
  so_from : forall p, p ∈ frontier ++ reachable -> rtc adjacent start p;
  so_closed : forall a b, a ∈ reachable -> adjacent a b -> b ∈ frontier ++ reachable;
  so_start : start ∈ frontier ++ reachable;
  so_once : NoDup reachable
}.

Lemma closed_reachable (reachable : list nat) a p :
  (forall a b, a ∈ reachable -> adjacent a b -> b ∈ reachable) -> a ∈ reachable -> rtc adjacent a p ->
  p ∈ reachable.
Proof. intros Hc Ha Hp. induction Hp as [a|a b c Hab _ IH]; [done|]. apply IH. by apply (Hc a). Qed.

Lemma explore_ok start fuel frontier reachable result :
  search_ok start frontier reachable -> explore fuel adjacency frontier reachable = Some result ->
  NoDup result /\ forall p, p ∈ result <-> rtc adjacent start p.
Proof.
  revert frontier reachable. induction fuel as [|fuel IH]; intros [|position rest] reachable Hok Hrun; simpl in Hrun.
  1, 3: injection Hrun as <-; destruct Hok as [Hf Hc Hs Hn]; simpl in *; split; [done|]; intros p; split; [by apply Hf|];
    intros Hp; exact (closed_reachable _ _ _ Hc Hs Hp).
  - done.
  - destruct Hok as [Hf Hc Hs Hn]. simpl in *. case_bool_decide as Hin.
    + refine (IH _ _ _ Hrun). split; [set_solver| |set_solver|done].
      intros a b Ha Hab. specialize (Hc a b Ha Hab). set_solver.
    + refine (IH _ _ _ Hrun). fold (neighbours position). split.
      * intros p Hp. destruct (decide (p ∈ neighbours position)) as [Hb|Hb]; [|apply Hf; set_solver].
        eapply rtc_r; [apply (Hf position); set_solver|exact Hb].
      * intros a b [->|Ha]%elem_of_cons Hab; [unfold adjacent in Hab; set_solver|].
        specialize (Hc a b Ha Hab). set_solver.
      * set_solver.
      * by constructor.
Qed.

(** The search from one position ends with the positions connected to it. *)
Lemma explore_spec start : exists result,
  explore (explore_fuel adjacency) adjacency [start] [] = Some result
  /\ NoDup result /\ forall p, p ∈ result <-> rtc adjacent start p.
Proof.
  destruct (explore_ends (explore_fuel adjacency) [start] []) as [result Hrun].
  { unfold explore_fuel. rewrite pending_all. simpl. lia. }
  exists result. split; [done|]. apply (explore_ok start _ _ _ _) in Hrun; [done|].
  split; [intros p Hp; rewrite app_nil_r in Hp; apply list_elem_of_singleton in Hp as ->; apply rtc_refl| |set_solver|constructor].
  intros a b Ha. by apply elem_of_nil in Ha.
Qed.
End search.

(** ** The index *)

Lemma index_from_ok position nodes index index' :
  index_from position nodes index = Ok index' ->
  (forall k i, index !! k = Some i -> (i < position)%nat) ->
  forall k i, index' !! k = Some i <->
    index !! k = Some i \/ exists m node, i = (position + m)%nat /\ nodes !! m = Some node /\ span_key node = k.
Proof.
  revert position index. induction nodes as [|node nodes IH]; intros position index; simpl.
  { intros [= <-] _ k i. split; [by left|]. intros [H|(m & node & _ & H & _)]; done. }
  intros ([] & Hfresh & H)%res_bind_ok Hb k i. apply ensure_ok, bool_decide_eq_true in Hfresh.
  rewrite (IH _ _ H).
  - split.
    + intros [Hk|(m & n' & -> & Hn & Hk)]; [|right; exists (S m), n'; split_and!; [lia|done|done]].
      destruct (decide (k = span_key node)) as [->|Hne].
      * rewrite lookup_insert_eq in Hk. injection Hk as <-. right. exists 0%nat, node. split_and!; [lia|done|done].
      * rewrite lookup_insert_ne in Hk by done. by left.
    + intros [Hk|([|m] & n' & -> & Hn & Hk)].
      * left. rewrite lookup_insert_ne; [done|]. intros <-. congruence.
      * left. injection Hn as ->. rewrite <- Hk, lookup_insert_eq. f_equal. lia.
      * right. exists m, n'. split_and!; [lia|done|done].
  - intros k' i' Hk'. destruct (decide (k' = span_key node)) as [->|Hne].
    + rewrite lookup_insert_eq in Hk'. injection Hk' as <-. lia.
    + rewrite lookup_insert_ne in Hk' by done. specialize (Hb _ _ Hk'). lia.
Qed.

(** The index holds the positions of the nodes by their keys. *)
Lemma index_spans_ok nodes index k i :
  index_spans nodes = Ok index ->
  (index !! k = Some i <-> exists node, nodes !! i = Some node /\ span_key node = k).
Proof.
  intros H. rewrite (index_from_ok _ _ _ _ H); [|done]. split.
  - intros [Hk|(m & node & -> & Hn & Hk)]; [done|]. by exists node.
  - intros (node & Hn & Hk). right. by exists i, node.
Qed.

(** ** Edges *)

Section edges.
Variables (nodes : list SpanNode) (index : SpanIndex) (links : list SpanLink).

Definition parent_of (i j : nat) : Prop :=
  exists node, nodes !! i = Some node /\ parent_position index node = Ok (Some j).
Definition link_of (i j : nat) : Prop :=
  exists link, In link links /\ sl_source link = i /\ sl_target link = j.
(** A parent or a link, in either direction *)
Definition causal (i j : nat) : Prop := parent_of i j \/ parent_of j i \/ link_of i j \/ link_of j i.
End edges.

Lemma neighbours_push adjacency i y x :
  neighbours (alter (fun l => l ++ [y]) i adjacency) x
  = if decide (x = i /\ (i < length adjacency)%nat) then neighbours adjacency x ++ [y] else neighbours adjacency x.
Proof.
  unfold neighbours. destruct (decide _) as [[-> Hlt]|Hnot].
  - rewrite list_lookup_alter, decide_True by done. by destruct (lookup_lt_is_Some_2 adjacency i Hlt) as [l ->].
  - destruct (decide (x = i)) as [->|Hne]; [|by rewrite list_lookup_alter_ne].
    rewrite list_lookup_alter, decide_True by done. by destruct (adjacency !! i) eqn:E; [apply lookup_lt_Some in E; naive_solver|].
Qed.

Lemma connect_spec a b adjacency :
  (a < length adjacency)%nat -> (b < length adjacency)%nat ->
  length (connect a b adjacency) = length adjacency
  /\ forall x y, adjacent (connect a b adjacency) x y <->
       adjacent adjacency x y \/ (x = a /\ y = b) \/ (x = b /\ y = a).
Proof.
  intros Ha Hb. unfold connect, adjacent. split; [by rewrite !length_alter|]. intros x y.
  rewrite !neighbours_push, length_alter.
  repeat case_decide; rewrite ?elem_of_app, ?list_elem_of_singleton; naive_solver.
Qed.

Lemma connect_parents_ok index child nodes adjacency adjacency' :
  (forall k i, index !! k = Some i -> (i < length adjacency)%nat) ->
  (child + length nodes <= length adjacency)%nat ->
  connect_parents index child nodes adjacency = Ok adjacency' ->
  length adjacency' = length adjacency
  /\ forall x y, adjacent adjacency' x y <->
       adjacent adjacency x y
       \/ exists m p, parent_of nodes index m p
            /\ ((x = (child + m)%nat /\ y = p) \/ (x = p /\ y = (child + m)%nat)).
Proof.
  intros Hidx. revert child adjacency Hidx. induction nodes as [|node nodes IH]; intros child adjacency Hidx Hlen; simpl in *.
  { intros [= <-]. split; [done|]. intros x y. split; [by left|]. intros [H|(m & p & (n & Hn & _) & _)]; done. }
  intros (parent & Hp & H)%res_bind_ok.
  assert (Hstep : forall P : nat -> nat -> Prop,
    (exists m p, parent_of (node :: nodes) index m p /\ P m p) <->
    (exists p, parent = Some p /\ P 0%nat p) \/ (exists m p, parent_of nodes index m p /\ P (S m) p)).
  { intros P. split.
    - intros ([|m] & p & (n & Hn & Hpp) & HP).
      + injection Hn as <-. left. exists p. split; [congruence|done].
      + right. exists m, p. split; [by exists n|done].
    - intros [(p & -> & HP)|(m & p & (n & Hn & Hpp) & HP)].
      + exists 0%nat, p. split; [by exists node|done].
      + exists (S m), p. split; [by exists n|done]. }
  destruct parent as [p|].
  - assert (Hlt : (p < length adjacency)%nat).
    { unfold parent_position in Hp. destruct (sp_parent_span_id node); [|done]. res_inv. by eapply Hidx. }
    destruct (connect_spec child p adjacency) as [Hl Hadj]; [lia|done|].
    apply IH in H as [Hl' Hadj']; [|by rewrite Hl|rewrite Hl; lia]. split; [congruence|].
    intros x y. rewrite Hadj', Hadj, Hstep. setoid_rewrite Nat.add_succ_r. rewrite Nat.add_0_r.
    assert (Hone : forall Q : nat -> Prop, (exists p', Some p = Some p' /\ Q p') <-> Q p)
      by (intros Q; split; [by intros (p' & [= <-] & HQ)|intros HQ; by exists p]).
    rewrite Hone. simpl. tauto.
  - apply IH in H as [Hl' Hadj']; [|done|lia]. split; [done|].
    intros x y. rewrite Hadj', Hstep. setoid_rewrite Nat.add_succ_r.
    assert (Hone : forall Q : nat -> Prop, (exists p', @None nat = Some p' /\ Q p') <-> False)
      by (intros Q; split; [by intros (p' & ? & _)|done]).
    rewrite Hone. simpl. tauto.
Qed.

Lemma connect_links_ok links adjacency :
  Forall (fun link => (sl_source link < length adjacency)%nat /\ (sl_target link < length adjacency)%nat) links ->
  length (connect_links links adjacency) = length adjacency
  /\ forall x y, adjacent (connect_links links adjacency) x y <->
       adjacent adjacency x y \/ link_of links x y \/ link_of links y x.
Proof.
  unfold connect_links. revert adjacency. induction links as [|link links IH]; intros adjacency Hall; simpl.
  { split; [done|]. intros x y. unfold link_of. naive_solver. }
  apply Forall_cons in Hall as [[Hs Ht] Hrest].
  destruct (connect_spec _ _ _ Hs Ht) as [Hl Hadj].
  destruct (IH (connect (sl_source link) (sl_target link) adjacency)) as [Hl' Hadj']; [by rewrite Hl|].
  split; [congruence|]. intros x y. rewrite Hadj', Hadj.
  assert (Hcons : forall i j, link_of (link :: links) i j <-> (sl_source link = i /\ sl_target link = j) \/ link_of links i j).
  { intros i j. split; [intros (l & [<-|Hin] & Hij); [by left|right; by exists l]|].
    intros [Hij|(l & Hin & Hij)]; [exists link; split; [by left|done]|exists l; split; [by right|done]]. }
  rewrite !Hcons. clear. intuition congruence.
Qed.

(** ** Parents *)

Lemma walk_ends fuel nodes index current seen :
  NoDup seen -> Forall (fun p => (p < length nodes)%nat) seen -> (length nodes < fuel + length seen)%nat ->
  is_Some (walk_to_root fuel nodes index current seen).
Proof.
  revert current seen. induction fuel as [|fuel IH]; intros current seen Hnd Hb Hf; simpl.
  { pose proof (positions_bounded _ _ Hnd Hb). simpl in Hf. lia. }
  case_bool_decide as Hin; [by eexists|]. unfold node_at.
  destruct (nodes !! current) as [node|] eqn:En; [|by eexists]. simpl.
  destruct (parent_position index node) as [[parent|]|]; try (by eexists). apply IH.
  - by constructor.
  - constructor; [by apply lookup_lt_Some in En|done].
  - simpl. lia.
Qed.

Lemma walk_ok fuel nodes index current seen :
  walk_to_root fuel nodes index current seen = Some (Ok tt) ->
  Acc (fun j i => parent_of nodes index i j) current
  /\ exists r root, rtc (parent_of nodes index) current r /\ nodes !! r = Some root
                    /\ sp_parent_span_id root = None.
Proof.
  revert current seen. induction fuel as [|fuel IH]; intros current seen; simpl; [done|].
  case_bool_decide; [done|]. unfold node_at. destruct (nodes !! current) as [node|] eqn:En; [|done]. simpl.
  destruct (parent_position index node) as [[parent|]|] eqn:Ep; [| |done].
  - intros H'. destruct (IH _ _ H') as (Hacc & r & root & Hr & Hn & Hp).
    assert (Hstep : parent_of nodes index current parent) by (by exists node). split.
    + constructor. intros j (node' & Hn' & Hp'). rewrite En in Hn'. injection Hn' as <-.
      rewrite Ep in Hp'. by injection Hp' as <-.
    + exists r, root. split; [|done]. by eapply rtc_l.
  - intros _. assert (Hroot : sp_parent_span_id node = None).
    { unfold parent_position in Ep. destruct (sp_parent_span_id node); [by res_inv|done]. }
    split.
    + constructor. intros j (node' & Hn' & Hp'). rewrite En in Hn'. injection Hn' as <-. by rewrite Ep in Hp'.
    + exists current, node. split; [apply rtc_refl|done].
Qed.

Lemma check_walk_spec nodes index start :
  check_walk nodes index start = Ok tt ->
  Acc (fun j i => parent_of nodes index i j) start
  /\ exists r root, rtc (parent_of nodes index) start r /\ nodes !! r = Some root
                    /\ sp_parent_span_id root = None.
Proof.
  unfold check_walk. intros H. apply (walk_ok (S (length nodes)) _ _ _ []).
  destruct (walk_to_root _ _ _ _ _) as [[[]|e]|]; [done|discriminate H|discriminate H].
Qed.

(** The roots that are collected are the spans without a parent, by trace. *)
Lemma collect_roots_ok index position nodes roots roots' :
  collect_roots index position nodes roots = Ok roots' ->
  forall t p, p ∈ default [] (roots' !! t) <->
    p ∈ default [] (roots !! t)
    \/ exists m node, p = (position + m)%nat /\ nodes !! m = Some node /\ sp_trace_id node = t
                      /\ sp_parent_span_id node = None.
Proof.
  revert position roots. induction nodes as [|node nodes IH]; intros position roots; simpl.
  { intros [= <-] t p. split; [by left|]. intros [H|(m & n & _ & H & _)]; done. }
  assert (Hstep : forall (P : Prop) t p,
    P \/ (exists m n, p = (position + m)%nat /\ (node :: nodes) !! m = Some n /\ sp_trace_id n = t
                     /\ sp_parent_span_id n = None)
    <-> (P \/ (p = position /\ sp_trace_id node = t /\ sp_parent_span_id node = None))
        \/ exists m n, p = (S position + m)%nat /\ nodes !! m = Some n /\ sp_trace_id n = t
                       /\ sp_parent_span_id n = None).
  { intros P t p. split.
    - intros [HP|([|m] & n & -> & Hn & Ht)]; [by left; left| |].
      + injection Hn as <-. left. right. split; [lia|done].
      + right. exists m, n. split; [lia|done].
    - intros [[HP|(-> & Ht)]|(m & n & -> & Hn)]; [by left| |].
      + right. exists 0%nat, node. split; [lia|by split].
      + right. exists (S m), n. split; [lia|done]. }
  destruct (sp_parent_span_id node) as [parent|] eqn:Ep.
  - intros H. apply res_bind_ok in H as ([] & _ & H). intros t p. rewrite (IH _ _ H), Hstep. naive_solver.
  - intros H t p. rewrite (IH _ _ H), Hstep. unfold add_root.
    destruct (decide (t = sp_trace_id node)) as [->|Hne].
    + rewrite lookup_insert_eq. simpl. rewrite elem_of_app, list_elem_of_singleton. naive_solver.
    + rewrite lookup_insert_ne by done. naive_solver.
Qed.

(** What the validated roots are: exactly the spans without a parent, one of each
    trace *)
Record roots_ok (nodes : list SpanNode) (roots : list nat) : Prop := {
  ro_root : forall p, p ∈ roots <-> exists node, nodes !! p = Some node /\ sp_parent_span_id node = None;
  ro_once : NoDup roots;
  ro_unique : forall p q np nq, p ∈ roots -> q ∈ roots -> nodes !! p = Some np -> nodes !! q = Some nq ->
    sp_trace_id np = sp_trace_id nq -> p = q
}.

Lemma singles_once {K} (l : list (K * list nat)) (trace : nat -> option K) :
  NoDup (map fst l) -> Forall (fun kr => exists p, kr.2 = [p] /\ trace p = Some kr.1) l ->
  NoDup (concat (map snd l)).
Proof.
  induction l as [|[k r] l IH]; simpl; [constructor|]. intros [Hk Hnd]%NoDup_cons [(p & Hr & Hp) Hall]%Forall_cons.
  simpl in Hr, Hp. subst r. simpl. constructor; [|by apply IH]. intros (r' & Hin & Hr')%list_elem_of_In%in_concat.
  apply in_map_iff in Hin as ([k' r2] & <- & Hin). rewrite Forall_forall in Hall.
  destruct (Hall (k', r2)) as (q & Hq & Hqk); [by apply list_elem_of_In|]. simpl in *. subst r2.
  destruct Hr' as [<-|[]]. apply Hk. rewrite Hqk in Hp. injection Hp as ->. apply list_elem_of_In.
  change k with ((k, [q]).1). by apply in_map.
Qed.

Lemma validated_roots nodes index roots :
  validate_parent_topology nodes index = Ok roots -> roots_ok nodes roots.
Proof.
  unfold validate_parent_topology. intros H. res_inv.
  match goal with Hc : collect_roots _ _ _ _ = Ok ?m |- _ => rename m into by_trace; rename Hc into Hroots end.
  match goal with Hf : forallb _ _ = true |- _ => rename Hf into Hone end.
  pose proof (collect_roots_ok _ _ _ _ _ Hroots) as Hspec. clear Hroots.
  assert (Hlist : forall t l, by_trace !! t = Some l -> exists p node, l = [p] /\ nodes !! p = Some node
            /\ sp_trace_id node = t /\ sp_parent_span_id node = None).
  { intros t l Ht. rewrite forallb_forall in Hone. specialize (Hone (t, l)).
    rewrite <- list_elem_of_In, elem_of_map_to_list in Hone. specialize (Hone Ht). bool_inv.
    destruct l as [|p [|]]; try done. destruct (proj1 (Hspec t p)) as [Hin|(m & node & -> & Hn & Htr & Hp)].
    - rewrite Ht. simpl. by left.
    - by rewrite lookup_empty in Hin; apply elem_of_nil in Hin.
    - exists m, node. by split_and!. }
  assert (Hin : forall p, p ∈ concat (map snd (map_to_list by_trace)) <->
            exists t l, by_trace !! t = Some l /\ p ∈ l).
  { intros p. rewrite list_elem_of_In, in_concat. split.
    - intros (l & Hl & Hp). apply in_map_iff in Hl as ([t l'] & <- & Hl). exists t, l'.
      split; [by apply elem_of_map_to_list, list_elem_of_In|by apply list_elem_of_In].
    - intros (t & l & Ht & Hp). exists l. split; [|by apply list_elem_of_In]. apply in_map_iff. exists (t, l).
      split; [done|]. by apply list_elem_of_In, elem_of_map_to_list. }
  split.
  - intros p. rewrite Hin. split.
    + intros (t & l & Ht & Hp). destruct (Hlist t l Ht) as (q & node & -> & Hn & _ & Hr).
      apply list_elem_of_singleton in Hp as ->. by exists node.
    + intros (node & Hn & Hr). destruct (by_trace !! sp_trace_id node) as [l|] eqn:El; [exists (sp_trace_id node), l|].
      all: assert (Hp : p ∈ default [] (by_trace !! sp_trace_id node))
             by (apply Hspec; right; exists p, node; by split_and!); rewrite El in Hp; simpl in Hp.
      * done.
      * by apply elem_of_nil in Hp.
  - apply (singles_once _ (fun p => sp_trace_id <$> nodes !! p)); [apply NoDup_fst_map_to_list|].
    apply Forall_forall. intros [t l] Hl%elem_of_map_to_list. destruct (Hlist t l Hl) as (p & node & -> & Hn & Ht & _).
    exists p. split; [done|]. by rewrite Hn, <- Ht.
  - intros p q np nq Hp Hq Hnp Hnq Htr. apply Hin in Hp as (tp & lp & Htp & Hp). apply Hin in Hq as (tq & lq & Htq & Hq).
    destruct (Hlist _ _ Htp) as (p' & np' & -> & Hnp' & <- & _). apply list_elem_of_singleton in Hp as ->.
    destruct (Hlist _ _ Htq) as (q' & nq' & -> & Hnq' & <- & _). apply list_elem_of_singleton in Hq as ->.
    rewrite Hnp' in Hnp. injection Hnp as ->. rewrite Hnq' in Hnq. injection Hnq as ->.
    rewrite Htr in Htp. rewrite Htp in Htq. by injection Htq.
Qed.

End VerifyGraphLemmas.
