(* ===== verification/VerifyCommerce.v ===== *)
(** What the commerce verifier asks of a trace graph
    (cli/src/commerce_verify.rs): the services and spans of a checkout, the
    RabbitMQ edges with their carriers, one identity for the event, the
    notification that follows it, the analytics event in ClickHouse, and the loop
    that repeats an attempt until it succeeds or its deadline passes. *)

From stdpp Require Import sorting.
From S2P Require Import Prelude Values Propagation VerifyW3c VerifyTraceGraph.
Import Text Serde Propagation VerifyW3c VerifyGraph.

Record Summary : Type := mkSummary { sm_traces : nat; sm_spans : nat; sm_services : list string }.

Record CommerceIdentity : Type := mkCommerceIdentity {
  ci_tenant_id : string; ci_event_id : string; ci_event_type : string; ci_event_key : string;
  ci_order_id : string }.

Record Analysis : Type := mkAnalysis {
  an_summary : Summary; an_business_baggage : BusinessBaggage; an_identity : CommerceIdentity }.

Record W3cCarrier : Type := mkW3cCarrier {
  wc_traceparent : string; wc_tracestate : gmap string string; wc_baggage : gmap string string }.

Local Open Scope result_scope.

Definition require_all (l : list string) (has : string -> bool) (message : string -> string) :
    result string unit :=
  each (fun required => ensure (has required) (message required)) l.

(** The lower-case text of a span that is searched for evidence *)
Definition searchable_span_text (span : json) : string :=
  let bounded value := to_ascii_lowercase (take_chars (Z.to_nat MAX_ATTRIBUTE_JSON_BYTES) value) in
  let parts := map bounded (omap (fun key => jget_str key span) ["name"; "kind"; "service"; "attributes"]) in
  match parts with [] => "" | first :: rest => foldl (fun text part => text +:+ " " +:+ part) first rest end.

Definition service_of (span : json) : option string := jget_str "service" span.

Definition string_le (a b : string) : Prop := String.leb a b = true.
#[export] Instance string_le_dec a b : Decision (string_le a b).
Proof. unfold string_le. apply _. Defined.

(** The services of a graph, each once, in order *)
Definition service_names (nodes : list SpanNode) : list string :=
  merge_sort string_le
    (remove_dups (List.filter (fun service => negb (is_empty service)) (omap (fun node => service_of (sp_span node)) nodes))).

(** The positions of the nodes that satisfy a test *)
Fixpoint positions_from (position : nat) (test : SpanNode -> bool) (nodes : list SpanNode) : list nat :=
  match nodes with
  | [] => []
  | node :: rest => (if test node then [position] else []) ++ positions_from (S position) test rest
  end.
Definition positions : (SpanNode -> bool) -> list SpanNode -> list nat := positions_from 0.

Definition checkout_span_index (anchor : string) (nodes : list SpanNode) : result string nat :=
  match positions (fun node => String.eqb (sp_trace_id node) anchor
                               && opt_is (service_of (sp_span node)) "checkout"
                               && opt_is (jget_str "name" (sp_span node)) "checkout") nodes with
  | [position] => Ok position
  | _ => Err "commerce checkout trace does not have exactly one checkout span"
  end.

(** [format!("{} span", span["service"])]: a JSON string is quoted. *)
Definition quoted (text : string) : string := String (ascii_of_N 34) (text +:+ String (ascii_of_N 34) "").

Section commerce.
(** [serde_json::from_str], and the version of a text that parses as a UUID *)
Variables (parse_json : string -> option json) (uuid_version : string -> option Z).

Definition matching_span_indices (nodes : list SpanNode) (service : string) (expected : list (string * string)) :
    list nat :=
  positions (fun node => opt_is (service_of (sp_span node)) service
    && forallb (fun kv => opt_is (attribute_string parse_json (sp_span node) kv.1) kv.2) expected) nodes.

Definition require_link_semantics (links : list SpanLink) (sources targets : list nat) (message : string) :
    result string unit :=
  ensure (negb (bool_decide (sources = []))) "commerce trace has no link sources" ;;
  ensure (negb (bool_decide (targets = []))) "commerce trace has no link targets" ;;
  ensure (forallb (fun source => existsb (fun link => Nat.eqb (sl_source link) source
                                            && bool_decide (sl_target link ∈ targets)) links) sources) message.

Definition required_attribute_string (span : json) (key label : string) : result string string :=
  attributes <- span_attribute_object parse_json span ;;
  ok_or (non_blank (jget_str key attributes)) (label +:+ " is missing `" +:+ key +:+ "`").

Definition require_span_business_baggage (span : json) (expected : BusinessBaggage) (label : string) :
    result string unit :=
  attributes <- span_attribute_object parse_json span ;;
  actual <- from_attribute_object attributes (label +:+ " business baggage") ;;
  ensure_matches expected actual (label +:+ " business baggage").

(** ** The event's identity *)

Definition ensure_span_identity (span : json) (identity : CommerceIdentity) (require_order : bool) :
    result string unit :=
  tenant <- required_attribute_string span "tenant.id" "commerce span" ;;
  ensure (String.eqb tenant (ci_tenant_id identity)) "commerce span tenant does not match the verified tenant" ;;
  message <- required_attribute_string span "messaging.message.id" "commerce span" ;;
  ensure (String.eqb message (ci_event_id identity)) "commerce span message does not match the verified event" ;;
  event_type <- required_attribute_string span "commerce.event.type" "commerce span" ;;
  ensure (String.eqb event_type (ci_event_type identity))
    "commerce span event type does not match the verified event" ;;
  if require_order then
    order <- required_attribute_string span "order.id" "commerce span" ;;
    ensure (String.eqb order (ci_order_id identity)) "commerce span order does not match the verified order"
  else Ok tt.

(** The order an analytics consumer names, if it names one *)
Definition ensure_analytics_order (span : json) (identity : CommerceIdentity) : result string unit :=
  attributes <- span_attribute_object parse_json span ;;
  match jget "order.id" attributes with
  | Some order =>
      ensure (opt_is (as_str order) (ci_order_id identity))
        "fulfillment analytics consumer order does not match the verified order"
  | None => Ok tt
  end.

Definition at_position {A} (nodes : list SpanNode) (position : nat) (check : json -> result string A) :
    result string A :=
  node <- node_at nodes position ;; check (sp_span node).

Definition first_of (l : list nat) : result string nat := ok_or (head l) "index out of bounds".

Definition verified_commerce_identity (nodes : list SpanNode)
    (checkout_producers order_consumers analytics_consumers : list nat) (expected_baggage : BusinessBaggage) :
    result string CommerceIdentity :=
  let message_of span := required_attribute_string span "messaging.message.id" "checkout RabbitMQ producer" in
  producer <- first_of checkout_producers ;;
  event_id <- at_position nodes producer message_of ;;
  each (fun position =>
    message <- at_position nodes position message_of ;;
    ensure (String.eqb message event_id) "checkout RabbitMQ producers do not share one event identity")
    checkout_producers ;;
  consumer <- first_of order_consumers ;;
  event_type <- at_position nodes consumer
                  (fun span => required_attribute_string span "commerce.event.type" "fulfillment order consumer") ;;
  order_id <- at_position nodes consumer
                (fun span => required_attribute_string span "order.id" "fulfillment order consumer") ;;
  ensure (String.eqb event_type "order.paid") "verified fulfillment event is not order.paid" ;;
  let identity := mkCommerceIdentity (baggage_tenant_id expected_baggage) event_id event_type
                    (order_id +:+ ":paid") order_id in
  each (fun position => at_position nodes position (fun span => ensure_span_identity span identity true))
    order_consumers ;;
  each (fun position => at_position nodes position (fun span =>
    ensure_span_identity span identity false ;; ensure_analytics_order span identity)) analytics_consumers ;;
  Ok identity.

(** ** RabbitMQ edges *)

Definition required_carrier_string (object : json) (field : string) : result string string :=
  ok_or (non_blank (jget_str field object)) ("RabbitMQ edge carrier is missing `" +:+ field +:+ "`").

Definition carrier_from_attributes (attributes : json) : result string W3cCarrier :=
  ensure (is_object attributes) "RabbitMQ edge carrier is not an object" ;;
  let object := match jget "carrier" attributes with
                | Some (JObj _ as carrier) => carrier
                | _ => attributes
                end in
  traceparent <- required_carrier_string object "traceparent" ;;
  tracestate_value <- required_carrier_string object "tracestate" ;;
  baggage_value <- required_carrier_string object "baggage" ;;
  tracestate <- validate_tracestate tracestate_value ;;
  baggage <- validate_baggage baggage_value ;;
  Ok (mkW3cCarrier traceparent tracestate baggage).

Definition validate_traceparent_for_span (value expected_trace_id expected_span_id : string) :
    result string unit :=
  validate_traceparent value expected_trace_id ;;
  ensure (opt_is (traceparent_part value 2) expected_span_id)
    "RabbitMQ traceparent does not identify its checkout producer".

(** One edge, given the tracestate of those before it; the one they all share *)
Definition validate_rabbit_edge (nodes : list SpanNode) (expected_baggage : BusinessBaggage)
    (expected_tracestate : option (gmap string string)) (link : SpanLink) :
    result string (option (gmap string string)) :=
  target <- node_at nodes (sl_target link) ;;
  source <- node_at nodes (sl_source link) ;;
  carrier <- carrier_from_attributes (sl_attributes link) ;;
  validate_traceparent_for_span (wc_traceparent carrier) (sp_trace_id target) (sp_span_id target) ;;
  ensure_matches expected_baggage (wc_baggage carrier)
    ("RabbitMQ carrier " +:+ sp_span_id source +:+ " -> " +:+ sp_span_id target) ;;
  match expected_tracestate with
  | Some expected =>
      ensure (bool_decide (wc_tracestate carrier = expected))
        "RabbitMQ tracestate changed between checkout edges" ;;
      Ok expected_tracestate
  | None => Ok (Some (wc_tracestate carrier))
  end.

Fixpoint validate_edges (nodes : list SpanNode) (expected_baggage : BusinessBaggage)
    (expected_tracestate : option (gmap string string)) (links : list SpanLink) :
    result string (option (gmap string string)) :=
  match links with
  | [] => Ok expected_tracestate
  | link :: rest =>
      expected_tracestate <- validate_rabbit_edge nodes expected_baggage expected_tracestate link ;;
      validate_edges nodes expected_baggage expected_tracestate rest
  end.

Definition validate_checkout_rabbit_edges (links : list SpanLink) (nodes : list SpanNode)
    (checkout_producers consumers : list nat) (expected_baggage : BusinessBaggage) :
    result string (gmap string string) :=
  let edges := List.filter (fun link => bool_decide (sl_source link ∈ consumers)
                                        && bool_decide (sl_target link ∈ checkout_producers)) links in
  expected_tracestate <- validate_edges nodes expected_baggage None edges ;;
  ensure (Nat.eqb (length edges) (length consumers))
    "not every required checkout RabbitMQ edge has a carrier" ;;
  ok_or expected_tracestate "required checkout RabbitMQ edge has no tracestate".

(** ** Notification *)

(** Whether one of [ancestors] is above a node.  [None]: the fuel ran out. *)
Fixpoint parent_ancestor (fuel : nat) (nodes : list SpanNode) (index : SpanIndex) (ancestors : list nat)
    (current : nat) (seen : list nat) : option (result string bool) :=
  match fuel with
  | O => None
  | S fuel =>
      match node <- node_at nodes current ;; parent_position index node with
      | Err e => Some (Err e)
      | Ok None => Some (Ok false)
      | Ok (Some parent) =>
          if bool_decide (parent ∈ ancestors) then Some (Ok true)
          else if bool_decide (parent ∈ seen)
          then Some (Err "Parallax notification parent chain contains a cycle")
          else parent_ancestor fuel nodes index ancestors parent (parent :: seen)
      end
  end.

Definition has_parent_ancestor (start : nat) (nodes : list SpanNode) (index : SpanIndex) (ancestors : list nat) :
    result string bool :=
  default (Err "out of fuel") (parent_ancestor (S (length nodes)) nodes index ancestors start []).

(** A notification span below a consumer is evidence when it carries the
    business baggage and contradicts nothing of the identity. *)
Definition contradicts_identity (attributes : json) (identity : CommerceIdentity) : bool :=
  existsb (fun kv => match jget kv.1 attributes with
                     | Some actual => negb (opt_is (as_str actual) kv.2)
                     | None => false
                     end)
    [("order.id", ci_order_id identity); ("commerce.event.type", ci_event_type identity);
     ("messaging.message.id", ci_event_id identity)].

Definition notification_evidence (span : json) (expected_baggage : BusinessBaggage) (identity : CommerceIdentity) :
    bool :=
  is_ok (require_span_business_baggage span expected_baggage "notification")
  && match span_attribute_object parse_json span with
     | Ok attributes => negb (contradicts_identity attributes identity)
     | Err _ => false
     end.

Fixpoint find_notification (candidates : list nat) (nodes : list SpanNode) (index : SpanIndex)
    (order_consumers : list nat) (expected_baggage : BusinessBaggage) (identity : CommerceIdentity) :
    result string unit :=
  match candidates with
  | [] => Err "notification evidence is not causally connected to the verified order/event/tenant"
  | position :: rest =>
      below <- has_parent_ancestor position nodes index order_consumers ;;
      node <- node_at nodes position ;;
      if below && notification_evidence (sp_span node) expected_baggage identity then Ok tt
      else find_notification rest nodes index order_consumers expected_baggage identity
  end.

Definition require_notification_evidence (nodes : list SpanNode) (index : SpanIndex) (order_consumers : list nat)
    (expected_baggage : BusinessBaggage) (identity : CommerceIdentity) : result string unit :=
  let notification_spans := positions (fun node => opt_is (service_of (sp_span node)) "notifications") nodes in
  ensure (negb (bool_decide (notification_spans = [])))
    "commerce trace is missing notification delivery evidence" ;;
  find_notification notification_spans nodes index order_consumers expected_baggage identity.

(** ** The analysis *)

(** The attributes of a RabbitMQ span of the paid order's event *)
Definition rabbit_span (destination operation : string) : list (string * string) :=
  [("messaging.system", "rabbitmq"); ("messaging.destination.name", destination);
   ("messaging.operation.name", operation); ("commerce.event.type", "order.paid")].

Definition nonempty_positions (l : list nat) (message : string) : result string unit :=
  ensure (negb (bool_decide (l = []))) message.

(** The services, the span names and the payment a commerce trace has *)
Definition check_presence (nodes : list SpanNode) : result string unit :=
  let services := service_names nodes in
  require_all ["checkout"; "catalog"; "pricing"; "inventory"; "payment"] (fun s => one_of s services)
    (fun s => "commerce trace is missing service `" +:+ s +:+ "`") ;;
  (if one_of "web" services || one_of "storefront" services then
     require_all ["web"; "storefront"] (fun s => one_of s services)
       (fun s => "canonical browser trace is missing service `" +:+ s +:+ "`")
   else Ok tt) ;;
  let names := map to_ascii_lowercase (omap (fun node => jget_str "name" (sp_span node)) nodes) in
  require_all ["checkout"; "pricing.quote"; "inventory.reserve"] (fun s => one_of s names)
    (fun s => "commerce trace is missing span `" +:+ s +:+ "`") ;;
  ensure (existsb (fun node => opt_is (service_of (sp_span node)) "payment"
                               && str_contains "authorize" (searchable_span_text (sp_span node))) nodes)
    "commerce trace is missing payment authorization evidence".

(** [nodes[position].span["service"]], of a span that was found by its service *)
Definition span_label (span : json) : string := quoted (default "" (service_of span)) +:+ " span".

Definition analyze_details (anchor : string) (traces : list json) : result string Analysis :=
  ensure (is_trace_id anchor) "commerce trace id is invalid" ;;
  nodes <- collect_span_nodes parse_json anchor traces ;;
  index <- index_spans nodes ;;
  roots <- validate_parent_topology nodes index ;;
  links <- validate_typed_links parse_json nodes index ;;
  validate_causal_connectivity anchor nodes index roots links ;;
  check_presence nodes ;;
  let checkout_producers := matching_span_indices nodes "checkout" (rabbit_span "commerce.events" "send") in
  nonempty_positions checkout_producers "commerce trace is missing the checkout RabbitMQ producer" ;;
  let order_consumers := matching_span_indices nodes "fulfillment" (rabbit_span "fulfillment.orders" "process") in
  nonempty_positions order_consumers "commerce trace is missing fulfillment RabbitMQ consumer evidence" ;;
  let analytics_consumers := matching_span_indices nodes "fulfillment" (rabbit_span "analytics.events" "process") in
  nonempty_positions analytics_consumers "commerce trace is missing the fulfillment analytics consumer" ;;
  require_link_semantics links order_consumers checkout_producers
    "fulfillment order consumers are not linked to the checkout producer" ;;
  require_link_semantics links analytics_consumers checkout_producers
    "fulfillment analytics consumers are not linked to the checkout producer" ;;
  checkout_root <- checkout_span_index anchor nodes ;;
  attributes <- at_position nodes checkout_root (span_attribute_object parse_json) ;;
  business_baggage <- from_attribute_object attributes "checkout business baggage" ;;
  each (fun position => at_position nodes position (fun span =>
          require_span_business_baggage span business_baggage (span_label span)))
    (checkout_producers ++ order_consumers ++ analytics_consumers) ;;
  order_tracestate <- validate_checkout_rabbit_edges links nodes checkout_producers order_consumers business_baggage ;;
  analytics_tracestate <-
    validate_checkout_rabbit_edges links nodes checkout_producers analytics_consumers business_baggage ;;
  ensure (bool_decide (order_tracestate = analytics_tracestate))
    "checkout RabbitMQ edges do not share one W3C tracestate" ;;
  identity <- verified_commerce_identity nodes checkout_producers order_consumers analytics_consumers business_baggage ;;
  require_notification_evidence nodes index order_consumers business_baggage identity ;;
  Ok (mkAnalysis (mkSummary (length traces) (length nodes) (service_names nodes)) business_baggage identity).

(** ** The analytics event *)

Definition required_string (value : json) (field : string) : result string string :=
  ok_or (non_blank (jget_str field value))
    ("ClickHouse analytics field `" +:+ field +:+ "` is missing or empty").

(** A field that must equal a known text *)
Definition field_is (event : json) (field expected message : string) : result string unit :=
  value <- required_string event field ;; ensure (String.eqb value expected) message.

(** The fields that identify the event *)
Definition validate_event_identity (event : json) (tenant_id trace_id : string)
    (expected_baggage : BusinessBaggage) (identity : CommerceIdentity) : result string unit :=
  event_id <- required_string event "eventId" ;;
  version <- ok_or (uuid_version event_id) "ClickHouse event id is not a UUID analytics projection" ;;
  ensure (version =? 5) "ClickHouse event id is not a UUID v5 analytics projection" ;;
  field_is event "tenantId" tenant_id "ClickHouse event tenant does not match the verified tenant" ;;
  ensure (String.eqb (baggage_tenant_id expected_baggage) tenant_id)
    "verified business baggage tenant does not match the verified tenant" ;;
  ensure (String.eqb (ci_tenant_id identity) tenant_id)
    "verified commerce identity tenant does not match the verified tenant" ;;
  field_is event "eventKey" (ci_event_key identity) "ClickHouse event key does not match the verified Rabbit event" ;;
  field_is event "eventName" "order.paid" "ClickHouse evidence is not an order.paid event" ;;
  field_is event "eventName" (ci_event_type identity)
    "ClickHouse event type does not match the verified Rabbit event" ;;
  ensure (String.eqb (ci_event_key identity) (ci_order_id identity +:+ ":paid"))
    "verified Rabbit event key is not the canonical paid-order key" ;;
  field_is event "source" "fulfillment" "ClickHouse evidence did not come from fulfillment" ;;
  field_is event "entityType" "order" "ClickHouse evidence does not identify an order entity" ;;
  entity <- required_string event "entityId" ;;
  ensure (negb (is_empty entity)) "ClickHouse event entity is empty" ;;
  field_is event "entityId" (ci_order_id identity)
    "ClickHouse event order does not match the verified fulfillment order" ;;
  field_is event "traceId" trace_id "ClickHouse event trace id does not match the verified trace".

(** The propagation context stored with the event *)
Definition validate_event_context (event : json) (traceparent tracestate baggage : string)
    (expected_baggage : BusinessBaggage) : result string unit :=
  properties <- required_string event "properties" ;;
  ensure (negb (String.eqb properties "{}")) "ClickHouse event properties are empty" ;;
  context_raw <- required_string event "context" ;;
  ensure (negb (String.eqb context_raw "{}")) "ClickHouse propagation context is empty" ;;
  context <- ok_or (parse_json context_raw) "ClickHouse propagation context is invalid JSON" ;;
  each (fun kv => ensure (opt_is (jget_str kv.1 context) kv.2)
                    ("ClickHouse propagation context does not preserve " +:+ kv.1))
    [("traceparent", traceparent); ("tracestate", tracestate); ("baggage", baggage)] ;;
  items <- ok_or (match jget "baggage_items" context with Some (JObj items) => Some items | _ => None end)
             "ClickHouse propagation context has no baggage_items" ;;
  context_baggage <- string_map items "ClickHouse baggage_items" ;;
  ensure_matches expected_baggage context_baggage "ClickHouse baggage_items".

Definition validate_clickhouse_event_with_context (event : json) (tenant_id trace_id : string)
    (expected_baggage : BusinessBaggage) (identity : CommerceIdentity) : result string unit :=
  validate_event_identity event tenant_id trace_id expected_baggage identity ;;
  traceparent <- required_string event "traceparent" ;;
  validate_traceparent traceparent trace_id ;;
  span_id <- required_string event "spanId" ;;
  ensure (is_hex span_id 16 && negb (all_zero span_id)) "ClickHouse event span id is invalid" ;;
  ensure (opt_is (traceparent_part traceparent 2) span_id)
    "ClickHouse event span id does not match W3C traceparent" ;;
  tracestate <- required_string event "tracestate" ;;
  validate_tracestate tracestate ;;
  baggage <- required_string event "baggage" ;;
  baggage_items <- validate_baggage baggage ;;
  ensure_matches expected_baggage baggage_items "ClickHouse baggage" ;;
  validate_event_context event traceparent tracestate baggage expected_baggage.

(** [response]: what the storefront answers about the tenant's paid orders *)
Definition verify_clickhouse_evidence (response : result string json) (tenant_id trace_id : string)
    (expected_baggage : BusinessBaggage) (identity : CommerceIdentity) : result string unit :=
  response <- res_map_err (fun _ => "querying Storefront ClickHouse analytics") response ;;
  events <- ok_or (match data_field "analyticsEvents" response with Some (JArr l) => Some l | _ => None end)
              "Storefront analytics response has no event list" ;;
  event <- ok_or (List.find (fun event => opt_is (jget_str "traceId" event) trace_id
                                          && opt_is (jget_str "eventKey" event) (ci_event_key identity)) events)
             ("ClickHouse has no order.paid event for trace " +:+ trace_id +:+ " and event key "
              +:+ bounded_output (ci_event_key identity)) ;;
  validate_clickhouse_event_with_context event tenant_id trace_id expected_baggage identity.

(** ** One attempt, and the attempts *)

(** [ask] and [storefront]: the two GraphQL endpoints *)
Definition verify_attempt (ask : string -> result string json) (storefront : result string json)
    (tenant_id trace_id : string) : result string Summary :=
  traces <- default (Err "out of fuel") (fetch_trace_graph ask trace_id) ;;
  analysis <- analyze_details trace_id traces ;;
  verify_clickhouse_evidence storefront tenant_id trace_id (an_business_baggage analysis) (an_identity analysis) ;;
  Ok (an_summary analysis).
End commerce.

(** The time left before an attempt, what comes of it ([None]: the rest of the
    time was not enough), and the time left after it *)
Record attempt : Type := mkAttempt {
  at_remaining : Z; at_outcome : option (result string Summary); at_left : Z }.

(** The loop of [verify]: the summary, or the last error.  [None]: no end yet *)
Fixpoint verify_loop (attempts : list attempt) : option (result string Summary) :=
  match attempts with
  | [] => None
  | a :: rest =>
      if at_remaining a =? 0 then Some (Err "verification deadline expired before another attempt") else
      match at_outcome a with
      | Some (Ok summary) => Some (Ok summary)
      | Some (Err error) => if at_left a =? 0 then Some (Err (bounded_output error)) else verify_loop rest
      | None => Some (Err "verification attempt exceeded its deadline")
      end
  end.

(** [configured_positive] and its bounds: [raw] is the variable's value, if it is
    set, [None] inside when it is not UTF-8. *)
Definition configured_positive (name : string) (raw : option (option string)) : result string (option Z) :=
  match raw with
  | None => Ok None
  | Some raw =>
      raw <- ok_or raw (name +:+ " must be valid UTF-8") ;;
      value <- ok_or (parse_u64 raw) (name +:+ " must be a positive integer") ;;
      ensure (0 <? value) (name +:+ " must be greater than zero") ;;
      Ok (Some value)
  end.

(** [configured_seconds] and [configured_millis], which differ in their unit *)
Definition configured_duration (unit name : string) (raw : option (option string)) (default_value maximum : Z) :
    result string Z :=
  configured <- configured_positive name raw ;;
  let value := default default_value configured in
  ensure (value <=? maximum) (name +:+ " must be no more than " +:+ show_Z maximum +:+ " " +:+ unit) ;;
  Ok value.
