(* ===== verification/VerifyFindings.v ===== *)
(** The checks of a verification and what they find. *)

From S2P Require Import Prelude Values Propagation VerifyW3c VerifyTraceGraph VerifyCommerce.

(** What the checks of the trace graph establish: the spans of each trace form a
    tree, the search for connectivity accepts exactly the graphs whose spans are
    all causally connected, and a fetched graph is closed under its links. *)
Module VerifyChecks.

Import Text Serde Propagation VerifyW3c VerifyGraph VerifyGraphLemmas.

(** ** Trees *)

Lemma parent_same_trace nodes index i j ni nj :
  index_spans nodes = Ok index -> parent_of nodes index i j -> nodes !! i = Some ni -> nodes !! j = Some nj ->
  sp_trace_id ni = sp_trace_id nj.
Proof.
  intros Hidx (node & Hn & Hp) Hi Hj. rewrite Hi in Hn. injection Hn as <-. unfold parent_position in Hp.
  destruct (sp_parent_span_id ni) as [parent|]; [|done]. res_inv.
  match goal with Hk : index !! _ = Some _ |- _ => apply (index_spans_ok _ _ _ _ Hidx) in Hk as (n & Hn & Hkey) end.
  rewrite Hj in Hn. injection Hn as <-. unfold span_key in Hkey. by injection Hkey.
Qed.

Lemma parent_in_range nodes index i j :
  index_spans nodes = Ok index -> parent_of nodes index i j -> exists nj, nodes !! j = Some nj.
Proof.
  intros Hidx (node & Hn & Hp). unfold parent_position in Hp.
  destruct (sp_parent_span_id node) as [parent|]; [|done]. res_inv.
  match goal with Hk : index !! _ = Some _ |- _ => apply (index_spans_ok _ _ _ _ Hidx) in Hk as (n & Hn' & _) end.
  by exists n.
Qed.

Lemma ancestors_same_trace nodes index i r ni nr :
  index_spans nodes = Ok index -> rtc (parent_of nodes index) i r -> nodes !! i = Some ni ->
  nodes !! r = Some nr -> sp_trace_id ni = sp_trace_id nr.
Proof.
  intros Hidx Hr. revert ni. induction Hr as [i|i j r Hij _ IH]; intros ni Hi Hn; [by rewrite Hi in Hn; injection Hn as <-|].
  destruct (parent_in_range _ _ _ _ Hidx Hij) as [nj Hj].
  rewrite (parent_same_trace _ _ _ _ _ _ Hidx Hij Hi Hj). by apply IH.
Qed.

Lemma walks_checked nodes index roots i :
  validate_parent_topology nodes index = Ok roots -> (i < length nodes)%nat -> check_walk nodes index i = Ok tt.
Proof.
  intros H Hi. unfold validate_parent_topology in H. res_inv.
  match goal with u : unit, Hw : each _ _ = Ok ?u |- _ => destruct u; apply each_ok in Hw; rename Hw into Hall end.
  rewrite Forall_forall in Hall. apply Hall, list_elem_of_In, in_seq. lia.
Qed.

(** when the topology of the parents is accepted, the spans of each trace form
    one tree.  Every span reaches, by following parents, a span without a parent
    of its own trace; there is one such span per trace, the roots that are
    returned are these, each once, and no span is among its own ancestors. *)
Theorem spans_form_trees nodes index roots :
  index_spans nodes = Ok index -> validate_parent_topology nodes index = Ok roots ->
  roots_ok nodes roots /\ well_founded (fun j i => parent_of nodes index i j)
  /\ forall i node, nodes !! i = Some node ->
       exists r root, r ∈ roots /\ nodes !! r = Some root /\ sp_trace_id root = sp_trace_id node
                      /\ rtc (parent_of nodes index) i r.
Proof.
  intros Hidx Htop. pose proof (validated_roots _ _ _ Htop) as Hroots. split_and!; [done| |].
  - intros i. destruct (decide (i < length nodes)%nat) as [Hi|Hi].
    + by apply check_walk_spec, (walks_checked nodes index roots).
    + constructor. intros j (node & Hn & _). apply lookup_lt_Some in Hn. lia.
  - intros i node Hn. pose proof (lookup_lt_Some _ _ _ Hn) as Hi.
    destruct (check_walk_spec _ _ _ (walks_checked _ _ _ _ Htop Hi)) as (_ & r & root & Hr & Hroot & Hp).
    exists r, root. split_and!; [apply Hroots; by exists root|done| |done].
    symmetry. by eapply ancestors_same_trace.
Qed.

(** ** Connectivity *)

Lemma filter_single {A} (f : A -> bool) (l : list A) x :
  NoDup l -> x ∈ l -> f x = true -> (forall y, y ∈ l -> f y = true -> y = x) -> List.filter f l = [x].
Proof.
  induction l as [|a l IH]; intros Hnd Hx Hf Hu; [by apply elem_of_nil in Hx|].
  apply NoDup_cons in Hnd as [Ha Hnd]. simpl. destruct (f a) eqn:Ea.
  - assert (Hax : a = x) by (apply Hu; [by left|done]). subst x. f_equal.
    destruct (List.filter f l) as [|b rest] eqn:E; [done|]. exfalso.
    assert (Hb : In b (List.filter f l)) by (rewrite E; by left). apply filter_In in Hb as [Hb Hfb].
    apply list_elem_of_In in Hb. apply Ha. assert (Hba : b = a) by (apply Hu; [by right|done]). by subst b.
  - apply elem_of_cons in Hx as [->|Hx]; [congruence|]. apply IH; try done. intros y Hy. apply Hu. by right.
Qed.

Lemma validate_links_of_range parse_json nodes index source node raw links links' :
  index_spans nodes = Ok index -> (source < length nodes)%nat ->
  validate_links_of parse_json nodes index source node raw links = Ok links' ->
  Forall (fun link => (sl_source link < length nodes)%nat /\ (sl_target link < length nodes)%nat) links ->
  Forall (fun link => (sl_source link < length nodes)%nat /\ (sl_target link < length nodes)%nat) links'.
Proof.
  intros Hidx Hs. revert links. induction raw as [|r raw IH]; intros links; simpl; [by intros [= <-]|].
  intros (link & Hlink & H)%res_bind_ok Hall. apply (IH _ H). apply Forall_app. split; [done|]. constructor; [|done].
  unfold validate_link in Hlink. res_inv. simpl. split; [done|].
  match goal with Hn : node_at nodes ?t = Ok _ |- _ => unfold node_at in Hn; apply ok_or_ok, lookup_lt_Some in Hn end.
  done.
Qed.

Lemma validate_links_from_range parse_json nodes index source rest total links links' :
  index_spans nodes = Ok index -> (source + length rest <= length nodes)%nat ->
  validate_links_from parse_json nodes index source rest total links = Ok links' ->
  Forall (fun link => (sl_source link < length nodes)%nat /\ (sl_target link < length nodes)%nat) links ->
  Forall (fun link => (sl_source link < length nodes)%nat /\ (sl_target link < length nodes)%nat) links'.
Proof.
  intros Hidx. revert source total links. induction rest as [|node rest IH]; intros source total links Hs; simpl in *;
    [by intros [= <-]|].
  intros H Hall. res_inv.
  match goal with Hv : validate_links_of _ _ _ _ _ _ _ = Ok _ |- _ =>
    apply validate_links_of_range in Hv; [|done|lia|done] end.
  match goal with Hv : validate_links_from _ _ _ _ _ _ _ = Ok _ |- _ => apply (IH (S source)) in Hv; [done|lia|done] end.
Qed.

Lemma causal_sym nodes index links i j : causal nodes index links i j -> causal nodes index links j i.
Proof. unfold causal. tauto. Qed.

(** The adjacency of the search is the causal relation. *)
Lemma adjacency_causal nodes index links adjacency :
  index_spans nodes = Ok index ->
  Forall (fun link => (sl_source link < length nodes)%nat /\ (sl_target link < length nodes)%nat) links ->
  connect_parents index 0 nodes (replicate (length nodes) []) = Ok adjacency ->
  forall x y, adjacent (connect_links links adjacency) x y <-> causal nodes index links x y.
Proof.
  intros Hidx Hlinks Hadj. assert (Hrange : forall k i, index !! k = Some i -> (i < length nodes)%nat).
  { intros k i Hk. apply (index_spans_ok _ _ _ _ Hidx) in Hk as (node & Hn & _). by apply lookup_lt_Some in Hn. }
  apply connect_parents_ok in Hadj as [Hlen Hp]; [|by rewrite length_replicate|rewrite length_replicate; lia].
  rewrite length_replicate in Hlen.
  destruct (connect_links_ok links adjacency) as [_ Hl]; [by rewrite Hlen|].
  intros x y. rewrite Hl, Hp. unfold causal.
  assert (Hempty : adjacent (replicate (length nodes) []) x y <-> False).
  { unfold adjacent, neighbours. split; [|done].
    destruct (replicate (length nodes) [] !! x) eqn:E; [apply lookup_replicate in E as [-> _]|]; by intros ?%elem_of_nil. }
  rewrite Hempty.
  assert (Hedge : (exists m p, parent_of nodes index m p /\ ((x = (0 + m)%nat /\ y = p) \/ (x = p /\ y = (0 + m)%nat)))
                  <-> parent_of nodes index x y \/ parent_of nodes index y x).
  { split; [intros (m & p & Hmp & [[-> ->]|[-> ->]]); [by left|by right]|].
    intros [H|H]; [exists x, y|exists y, x]; (split; [done|]); [by left|by right]. }
  rewrite Hedge. tauto.
Qed.

Lemma connect_parents_total index child nodes rest adjacency roots :
  validate_parent_topology nodes index = Ok roots -> (forall node, In node rest -> In node nodes) ->
  is_Some (match connect_parents index child rest adjacency with Ok a => Some a | Err _ => None end).
Proof.
  intros Htop. assert (Hp : forall node, In node nodes -> exists p, parent_position index node = Ok p).
  { intros node Hin. apply list_elem_of_In, list_elem_of_lookup in Hin as [i Hi].
    pose proof (walks_checked _ _ _ i Htop (lookup_lt_Some _ _ _ Hi)) as Hw. unfold check_walk in Hw.
    simpl in Hw. unfold node_at in Hw. rewrite Hi in Hw. simpl in Hw.
    destruct (parent_position index node) as [p|e]; [by exists p|done]. }
  revert child adjacency. induction rest as [|node rest IH]; intros child adjacency Hin; simpl; [by eexists|].
  destruct (Hp node) as [p ->]; [by apply Hin; left|]. simpl. apply IH. intros n Hn. apply Hin. by right.
Qed.

(** A trace that has a span has a root among those that were validated. *)
Lemma anchor_root nodes index roots i0 n0 :
  index_spans nodes = Ok index -> validate_parent_topology nodes index = Ok roots -> nodes !! i0 = Some n0 ->
  exists r root, r ∈ roots /\ nodes !! r = Some root /\ sp_trace_id root = sp_trace_id n0.
Proof.
  intros Hidx Htop Hi0. pose proof (lookup_lt_Some _ _ _ Hi0) as Hlt.
  destruct (check_walk_spec _ _ _ (walks_checked _ _ _ _ Htop Hlt)) as (_ & r & root & Hr & Hn & Hp).
  exists r, root. split_and!; [|done|symmetry; by eapply ancestors_same_trace].
  apply (ro_root _ _ (validated_roots _ _ _ Htop)). by exists root.
Qed.

(** Causal edges stay within the nodes. *)
Lemma causal_in_range nodes index links i j :
  index_spans nodes = Ok index ->
  Forall (fun link => (sl_source link < length nodes)%nat /\ (sl_target link < length nodes)%nat) links ->
  causal nodes index links i j -> (j < length nodes)%nat.
Proof.
  intros Hidx Hlinks [H|[H|[(l & Hl & <- & <-)|(l & Hl & <- & <-)]]].
  - destruct (parent_in_range _ _ _ _ Hidx H) as [nj Hj]. by apply lookup_lt_Some in Hj.
  - destruct H as (node & Hj & _). by apply lookup_lt_Some in Hj.
  - rewrite Forall_forall in Hlinks. by apply Hlinks, list_elem_of_In.
  - rewrite Forall_forall in Hlinks. by apply Hlinks, list_elem_of_In.
Qed.

(** As many distinct positions as there are nodes are all of them. *)
Lemma all_positions reached n :
  NoDup reached -> Forall (fun p => (p < n)%nat) reached ->
  (length reached = n <-> forall i, (i < n)%nat -> i ∈ reached).
Proof.
  intros Hnd Hbound. split.
  - intros Hlen i Hi. rewrite list_elem_of_In. apply (@NoDup_length_incl _ reached (seq 0 n)).
    + by apply NoDup_ListNoDup.
    + rewrite length_seq. lia.
    + intros p Hin. apply in_seq. rewrite Forall_forall in Hbound. rewrite <- list_elem_of_In in Hin.
      specialize (Hbound p Hin). lia.
    + apply in_seq. lia.
  - intros Hall. apply Nat.le_antisymm; [by apply positions_bounded|].
    rewrite <- (length_seq n 0) at 1. apply NoDup_incl_length; [apply seq_NoDup|].
    intros p Hp%in_seq. apply list_elem_of_In, Hall. lia.
Qed.

(** From the root of the anchor trace the search finds what is causally connected
    with it, and the check passes when this is every span. *)
Lemma search_exact parse_json anchor nodes index roots links r root :
  index_spans nodes = Ok index -> validate_parent_topology nodes index = Ok roots ->
  validate_typed_links parse_json nodes index = Ok links ->
  r ∈ roots -> nodes !! r = Some root -> sp_trace_id root = anchor ->
  validate_causal_connectivity anchor nodes index roots links = Ok tt <->
  forall i, (i < length nodes)%nat -> rtc (causal nodes index links) r i.
Proof.
  intros Hidx Htop Hlinks Hin Hn Htr. pose proof (validated_roots _ _ _ Htop) as [_ Honce Huniq].
  unfold validate_typed_links in Hlinks.
  apply validate_links_from_range in Hlinks; [|exact Hidx|simpl; lia|constructor].
  unfold validate_causal_connectivity.
  rewrite (filter_single _ roots r) by
    (done || (rewrite Hn; by apply String.eqb_eq) ||
     (intros y Hy; destruct (nodes !! y) as [ny|] eqn:Ey; [|done]; intros Hyt%String.eqb_eq;
      apply (Huniq y r ny root); [done..|congruence])).
  cbn [length Nat.eqb ensure res_bind].
  destruct (connect_parents_total index 0 nodes nodes (replicate (length nodes) []) roots Htop) as [adjacency Hadj]; [done|].
  destruct (connect_parents _ _ _ _) as [a|] eqn:Ec; [injection Hadj as ->|done]. cbn [res_bind].
  pose proof (adjacency_causal _ _ _ _ Hidx Hlinks Ec) as Hcausal.
  destruct (explore_spec (connect_links links adjacency) r) as (reached & -> & Hnd & Hreach). cbn [ok_or res_bind].
  rewrite ensure_ok, Nat.eqb_eq.
  assert (Hrtc : forall p, p ∈ reached <-> rtc (causal nodes index links) r p).
  { intros p. rewrite Hreach. split; intros H; (eapply rtc_subrel; [|exact H]); intros x y Hxy; by apply Hcausal. }
  setoid_rewrite <- Hrtc. apply all_positions; [done|]. apply Forall_forall. intros p Hp%Hrtc.
  destruct (rtc_inv_r _ _ Hp) as [<-|(q & _ & Hq)]; [by apply lookup_lt_Some in Hn|by eapply causal_in_range].
Qed.

(** C26: the connectivity check is exact.  On a graph whose spans and links were
    accepted, and that has a span of the anchor trace, it passes when and only
    when every span can be reached from the root of the anchor trace over parents
    and typed links, followed in either direction. *)
Theorem connectivity_exact parse_json anchor nodes index roots links i0 n0 :
  index_spans nodes = Ok index -> validate_parent_topology nodes index = Ok roots ->
  validate_typed_links parse_json nodes index = Ok links ->
  nodes !! i0 = Some n0 -> sp_trace_id n0 = anchor ->
  exists root node, root ∈ roots /\ nodes !! root = Some node /\ sp_trace_id node = anchor
    /\ (validate_causal_connectivity anchor nodes index roots links = Ok tt <->
        forall i, (i < length nodes)%nat -> rtc (causal nodes index links) root i).
Proof.
  intros Hidx Htop Hlinks Hi0 Ha. destruct (anchor_root _ _ _ _ _ Hidx Htop Hi0) as (r & root & Hr & Hn & Ht).
  exists r, root. rewrite Ha in Ht. split_and!; [done..|]. by eapply search_exact.
Qed.

(** ** Fetching *)

(** A typed link of a span of a trace leads to another trace. *)
Definition links_to (trace : json) (id : string) : Prop :=
  exists spans span links link,
    jget_array "spans" trace = Some spans /\ In span spans /\ jget_array "typedLinks" span = Some links
    /\ In link links /\ jget_str "traceId" link = Some id.

(** The state of the fetch: what is pending was scheduled and not fetched, what was
    scheduled is pending or fetched, and the traces are those that were fetched. *)
Record fetch_ok (f : Fetch) (ids : list string) : Prop := {
  fk_scheduled : forall id, id ∈ fe_scheduled f <-> id ∈ fe_pending f \/ id ∈ ids;
  fk_fetched : forall id, id ∈ fe_fetched f <-> id ∈ ids;
  fk_once : NoDup (fe_pending f ++ ids);
  fk_traces : map (jget_str "traceId") (fe_traces f) = map Some ids;
  fk_valid : Forall (fun id => is_trace_id id = true) ids;
  fk_closed : forall trace id, In trace (fe_traces f) -> links_to trace id -> id ∈ fe_scheduled f;
  fk_limit : Z.of_nat (size (fe_scheduled f)) <= MAX_TRACES
}.

Lemma schedule_ok ids pending scheduled pending' scheduled' :
  schedule ids pending scheduled = Ok (pending', scheduled') ->
  Z.of_nat (size scheduled) <= MAX_TRACES ->
  exists new, pending' = pending ++ new /\ NoDup new /\ (forall id, id ∈ new -> id ∉ scheduled)
    /\ (forall id, id ∈ scheduled' <-> id ∈ scheduled \/ id ∈ new)
    /\ (forall id, In id ids -> id ∈ scheduled')
    /\ Z.of_nat (size scheduled') <= MAX_TRACES.
Proof.
  revert pending scheduled. induction ids as [|id ids IH]; intros pending scheduled; simpl.
  { intros [= <- <-] Hl. exists []. rewrite app_nil_r. split_and!; [done|constructor|set_solver|set_solver|done|done]. }
  intros ([] & _ & H)%res_bind_ok Hl. case_bool_decide as Hin.
  - destruct (IH _ _ H Hl) as (new & -> & Hnd & Hnew & Hs & Hids & Hl'). exists new. split_and!; try done.
    intros i [<-|Hi]; [apply Hs; by left|by apply Hids].
  - apply res_bind_ok in H as ([] & Hsize & H). apply ensure_ok in Hsize. bool_inv.
    destruct (IH _ _ H Hsize) as (new & -> & Hnd & Hnew & Hs & Hids & Hl'). exists (id :: new).
    split_and!; [by rewrite <- app_assoc|constructor; [|done]; intros Hi; apply (Hnew id Hi); set_solver| | | |done].
    + intros i [->|Hi]%elem_of_cons; [done|]. intros Hsch. apply (Hnew i Hi). set_solver.
    + intros i. rewrite Hs. set_solver.
    + intros i [<-|Hi]; [apply Hs; left; set_solver|by apply Hids].
Qed.

Lemma map_res_in {A B} (f : A -> result string B) l bs a :
  map_res f l = Ok bs -> In a l -> exists b, f a = Ok b /\ In b bs.
Proof.
  intros H Hin. apply map_res_ok in H. destruct (Forall2_in_l _ _ _ a H Hin) as (b & Hb & Hr). by exists b.
Qed.

(** The ids of the links of a trace are among those an accepted answer schedules. *)
Lemma linked_scheduled spans ids links span linked id :
  map_res linked_ids spans = Ok ids -> In span spans -> jget_array "typedLinks" span = Some links ->
  In linked links -> jget_str "traceId" linked = Some id -> In id (concat ids).
Proof.
  intros Hids Hs Hl Hin Hid. destruct (map_res_in _ _ _ _ Hids Hs) as (these & Hthese & Hin').
  apply in_concat. exists these. split; [done|]. unfold linked_ids in Hthese. rewrite Hl in Hthese. res_inv. simplify_eq.
  match goal with Hm : map_res _ ?l = Ok _, Hi : In linked ?l |- _ =>
    destruct (map_res_in _ _ _ _ Hm Hi) as (id' & Hid' & Hin2) end.
  rewrite Hid in Hid'. res_inv. by simplify_eq.
Qed.

Lemma fetch_turn_ok ask current rest s fetched traces a b f' ids :
  fetch_ok (mkFetch (current :: rest) s fetched traces a b) ids ->
  fetch_turn ask current (mkFetch rest s fetched traces a b) = Ok f' ->
  fetch_ok f' (ids ++ [current]) /\ s ⊆ fe_scheduled f'.
Proof.
  intros [Hs Hf Hnd Ht Hv Hc Hl]. cbn [fe_pending fe_scheduled fe_fetched fe_traces app] in *.
  apply NoDup_cons in Hnd as [Hnot Hnd]. rewrite elem_of_app in Hnot.
  assert (Hnew : current ∉ fetched) by (rewrite Hf; tauto).
  unfold fetch_turn. cbn [fe_pending fe_scheduled fe_fetched fe_traces fe_total_spans fe_total_typed_links].
  rewrite bool_decide_eq_false_2 by done. intros H. unfold accept_trace in H. res_inv.
  cbn [fe_pending fe_scheduled fe_fetched fe_traces] in *. bool_inv.
  match goal with Hsch : schedule _ _ _ = Ok ?n |- _ => destruct n as [pending' scheduled'] end.
  match goal with Hsch : schedule _ _ _ = Ok _ |- _ =>
    apply schedule_ok in Hsch as (new & -> & Hnew_nd & Hnew_not & Hs' & Hids' & Hl'); [|done] end.
  match goal with Ho : opt_is _ current = true |- _ => apply opt_is_true in Ho; rename Ho into Hcur end.
  cbn [fe_pending fe_scheduled fe_fetched fe_traces fst snd].
  split; [split; cbn [fe_pending fe_scheduled fe_fetched fe_traces]|intros id Hid; apply Hs'; by left].
  - intros id. rewrite Hs', Hs, !elem_of_app, elem_of_cons, list_elem_of_singleton. tauto.
  - intros id. rewrite elem_of_union, elem_of_singleton, Hf, elem_of_app, list_elem_of_singleton. tauto.
  - rewrite app_assoc. apply NoDup_app. split_and!; [|intros id Hin Hin2; apply list_elem_of_singleton in Hin2 as ->|by apply NoDup_singleton].
    + rewrite <- app_assoc, (Permutation_app_comm new ids), app_assoc. apply NoDup_app. split_and!; [done| |done].
      intros id Hin Hn. apply (Hnew_not id Hn). apply Hs. rewrite elem_of_app in Hin. rewrite elem_of_cons. tauto.
    + rewrite !elem_of_app in Hin. destruct Hin as [[Hin|Hin]|Hin]; [tauto| |tauto].
      apply (Hnew_not current Hin). apply Hs. left. by left.
  - rewrite !map_app, Ht. simpl. by rewrite Hcur.
  - apply Forall_app. by split; [|constructor].
  - intros trace id [Hin|[<-|[]]]%in_app_or Hlink; [apply Hs'; left; by apply (Hc trace)|].
    destruct Hlink as (spans & span & links & link & Hsp & Hspan & Hlk & Hlink & Hid).
    apply Hids', in_or_app. left.
    match goal with Hj : jget_array "spans" _ = Some ?sp, Hm : map_res linked_ids ?sp = Ok _ |- _ =>
      rewrite Hsp in Hj; injection Hj as <-; by eapply linked_scheduled end.
  - done.
Qed.

Lemma fetch_loop_ok ask fuel f ids :
  fetch_ok f ids -> MAX_TRACES <= Z.of_nat (fuel + length ids) ->
  exists r, fetch_loop fuel ask f = Some r
    /\ forall traces, r = Ok traces -> exists ids', fetch_ok (mkFetch [] (list_to_set ids') (list_to_set ids') traces 0 0) ids'
         /\ (forall id, id ∈ fe_scheduled f -> id ∈ ids').
Proof.
  revert f ids. induction fuel as [|fuel IH]; intros f ids Hok Hfuel; destruct f as [[|current rest] s fetched traces a b];
    cbn [fetch_loop fe_pending fe_scheduled fe_fetched fe_traces fe_total_spans fe_total_typed_links].
  1, 3: (exists (Ok traces); split; [done|]; intros ts [= <-]; exists ids;
    destruct Hok as [Hs Hf Hnd Ht Hv Hc Hl]; cbn [fe_pending fe_scheduled fe_fetched fe_traces app] in *;
    assert (Hset : s ≡ list_to_set ids) by (intros id; rewrite Hs, elem_of_list_to_set; set_solver);
    apply leibniz_equiv in Hset; subst s; split; [split; simpl; try done; set_solver|set_solver]).
  - exfalso. destruct Hok as [Hs _ Hnd _ _ _ Hl]. cbn [fe_pending fe_scheduled app] in *.
    assert (Hsub : list_to_set (current :: ids) ⊆ s).
    { intros id Hid. rewrite elem_of_list_to_set in Hid. apply Hs. set_solver. }
    apply subseteq_size in Hsub. rewrite size_list_to_set in Hsub; [simpl in Hsub, Hfuel; lia|].
    apply NoDup_cons in Hnd as [Hn Hnd]. apply NoDup_app in Hnd as (_ & _ & Hnd). constructor; [set_solver|done].
  - destruct (fetch_turn ask current (mkFetch rest s fetched traces a b)) as [f'|e] eqn:E;
      [|by exists (Err e); split].
    destruct (fetch_turn_ok _ _ _ _ _ _ _ _ _ _ Hok E) as [Hok' Hmono].
    destruct (IH f' (ids ++ [current]) Hok') as (r & Hr & Hpost); [rewrite length_app; simpl; lia|].
    exists r. split; [done|]. intros ts Hts. destruct (Hpost ts Hts) as (ids' & Hok2 & Hin). exists ids'. split; [done|].
    intros id Hid. by apply Hin, Hmono.
Qed.

(** C28: fetching a trace graph ends within as many turns as there may be traces,
    whatever the server answers, and a graph it returns is complete: it holds the
    trace that was asked for, at most thirty-two traces, each once and under a
    valid id, and every trace that a typed link of theirs leads to. *)
Theorem fetched_graph_closed ask anchor :
  exists r, fetch_trace_graph ask anchor = Some r
    /\ forall traces, r = Ok traces ->
         exists ids, map (jget_str "traceId") traces = map Some ids /\ NoDup ids /\ (length ids <= 32)%nat
           /\ anchor ∈ ids /\ Forall (fun id => is_trace_id id = true) ids
           /\ forall trace id, In trace traces -> links_to trace id -> id ∈ ids.
Proof.
  assert (Hstart : fetch_ok (start_fetch anchor) []).
  { split; cbn [start_fetch fe_pending fe_scheduled fe_fetched fe_traces app map];
      [set_solver|set_solver|apply NoDup_singleton|done|constructor|done|]. rewrite size_singleton. done. }
  destruct (fetch_loop_ok ask (Z.to_nat MAX_TRACES) (start_fetch anchor) [] Hstart) as (r & Hr & Hpost).
  { unfold MAX_TRACES. simpl. lia. }
  exists r. split; [exact Hr|]. intros traces Hok. destruct (Hpost traces Hok) as (ids & [Hs Hf Hnd Ht Hv Hc Hl] & Hin).
  cbn [fe_pending fe_scheduled fe_fetched fe_traces app] in *.
  exists ids. split_and!; [done|done| |apply Hin; set_solver|done|].
  - unfold MAX_TRACES in Hl. rewrite size_list_to_set in Hl by done. lia.
  - intros trace id Htr Hlink. specialize (Hc trace id Htr Hlink). by apply elem_of_list_to_set in Hc.
Qed.

(** ** A concrete graph *)

Definition demo_trace_a : string := "0000000000000000000000000000000a".
Definition demo_trace_b : string := "0000000000000000000000000000000b".
Definition demo_span_1 : string := "0000000000000001".
Definition demo_span_2 : string := "0000000000000002".

Definition demo_parse (raw : string) : option json :=
  let rabbit operation := [("messaging.system", JStr "rabbitmq"); ("messaging.operation.name", JStr operation);
                           ("messaging.message.id", JStr "event-1")] in
  if String.eqb raw "producer" then Some (JObj (rabbit "send"))
  else if String.eqb raw "consumer" then Some (JObj (rabbit "process"))
  else Some (JObj []).

Definition demo_span (id : string) (parent : json) (kind attributes : string) (links : list json) : json :=
  JObj [("spanId", JStr id); ("parentSpanId", parent); ("name", JStr "span"); ("service", JStr "checkout");
        ("kind", JStr kind); ("attributes", JStr attributes); ("typedLinks", JArr links)].

Definition demo_traces : list json :=
  [JObj [("traceId", JStr demo_trace_a);
         ("spans", JArr [demo_span demo_span_1 JNull "SPAN_KIND_SERVER" "{}" [];
                         demo_span demo_span_2 (JStr demo_span_1) "SPAN_KIND_PRODUCER" "producer" []])];
   JObj [("traceId", JStr demo_trace_b);
         ("spans", JArr [demo_span demo_span_1 JNull "SPAN_KIND_CONSUMER" "consumer"
                           [JObj [("traceId", JStr demo_trace_a); ("spanId", JStr demo_span_2);
                                  ("attributes", JStr "{}")]]])]].

Definition demo_nodes : list SpanNode :=
  match collect_span_nodes demo_parse demo_trace_a demo_traces with Ok nodes => nodes | Err _ => [] end.
Definition demo_index : SpanIndex := match index_spans demo_nodes with Ok index => index | Err _ => ∅ end.

Definition demo_roots : list nat :=
  match validate_parent_topology demo_nodes demo_index with Ok roots => roots | Err _ => [] end.
Definition demo_links : list SpanLink :=
  match validate_typed_links demo_parse demo_nodes demo_index with Ok links => links | Err _ => [] end.

Lemma ok_value {E A} (r : result E A) d : is_ok r = true -> r = Ok (match r with Ok a => a | Err _ => d end).
Proof. by destruct r. Qed.

Lemma spans_form_trees_witness : roots_ok demo_nodes demo_roots /\ length demo_roots = 2%nat.
Proof.
  split; [|vm_compute; reflexivity].
  apply (spans_form_trees demo_nodes demo_index demo_roots); apply ok_value; vm_compute; reflexivity.
Defined.

Lemma connectivity_exact_witness :
  exists root, root ∈ demo_roots
    /\ forall i, (i < length demo_nodes)%nat -> rtc (causal demo_nodes demo_index demo_links) root i.
Proof.
  destruct (connectivity_exact demo_parse demo_trace_a demo_nodes demo_index demo_roots demo_links 0
    (mkSpanNode demo_trace_a demo_span_1 None (demo_span demo_span_1 JNull "SPAN_KIND_SERVER" "{}" [])))
    as (root & node & Hr & _ & _ & H); [apply ok_value; vm_compute; reflexivity..|vm_compute; reflexivity|reflexivity|].
  exists root. split; [exact Hr|]. apply H. vm_compute. reflexivity.
Defined.

End VerifyChecks.

(** What an accepted verification establishes: the paid order's event is traced
    from the checkout's producer to its consumers and to a notification, in one
    connected graph, under one identity that the analytics event repeats. *)
Module VerifyOutcomes.

Import Text Serde Propagation VerifyW3c VerifyGraph VerifyGraphLemmas VerifyChecks VerifyCommerce.

(** ** Positions and attributes *)

Lemma positions_from_in test nodes start p :
  p ∈ positions_from start test nodes <->
  exists m node, p = (start + m)%nat /\ nodes !! m = Some node /\ test node = true.
Proof.
  revert start. induction nodes as [|node nodes IH]; intros start; simpl.
  { split; [by intros ?%elem_of_nil|intros (m & n & _ & Hn & _); done]. }
  rewrite elem_of_app, IH. split.
  - intros [Hp|(m & n & -> & Hn & Ht)]; [|exists (S m), n; split_and!; [lia|done|done]].
    destruct (test node) eqn:E; [|by apply elem_of_nil in Hp]. apply list_elem_of_singleton in Hp as ->.
    exists 0%nat, node. split_and!; [lia|done|done].
  - intros ([|m] & n & -> & Hn & Ht).
    + injection Hn as <-. rewrite Ht. left. apply list_elem_of_singleton. lia.
    + right. exists m, n. split_and!; [lia|done|done].
Qed.

Lemma positions_in test nodes p :
  p ∈ positions test nodes <-> exists node, nodes !! p = Some node /\ test node = true.
Proof.
  unfold positions. rewrite positions_from_in. split; [intros (m & node & -> & H); by exists node|].
  intros (node & H). by exists p, node.
Qed.

Section outcomes.
Variables (parse_json : string -> option json) (uuid_version : string -> option Z).

Lemma required_attribute span key label v :
  required_attribute_string parse_json span key label = Ok v -> attribute_string parse_json span key = Some v.
Proof.
  unfold required_attribute_string, span_attribute_object, attributes_of, attribute_string. intros H. res_inv. bool_inv.
  match goal with Hr : jget_str "attributes" span = Some _ |- _ => rewrite Hr end.
  match goal with Hl : str_len _ <= _ |- _ => rewrite (proj2 (Z.ltb_ge _ _) Hl) end.
  match goal with Hp : parse_json _ = Some ?x |- _ => rewrite Hp; destruct x; res_inv end. simpl.
  match goal with Hn : non_blank ?o = Some _ |- _ => destruct o as [s|]; [|done]; simpl in Hn; destruct (is_blank s); [done|] end.
  done.
Qed.

Lemma at_position_ok {A} nodes position (check : json -> result string A) a :
  at_position nodes position check = Ok a ->
  exists node, nodes !! position = Some node /\ check (sp_span node) = Ok a.
Proof. unfold at_position, node_at. intros H. res_inv. by eexists. Qed.

(** The message a span at a position is about *)
Definition about_message (nodes : list SpanNode) (position : nat) (message : string) : Prop :=
  exists node, nodes !! position = Some node
    /\ attribute_string parse_json (sp_span node) "messaging.message.id" = Some message.

(** ** The identity *)

Lemma identity_about nodes producers orders analytics baggage identity :
  verified_commerce_identity parse_json nodes producers orders analytics baggage = Ok identity ->
  forall p, p ∈ producers ++ orders ++ analytics -> about_message nodes p (ci_event_id identity).
Proof.
  unfold verified_commerce_identity. intros H. res_inv. simpl.
  repeat match goal with
         | u : unit |- _ => destruct u
         | He : each _ _ = Ok tt |- _ => apply each_ok in He
         end.
  repeat match goal with He : Forall _ ?l |- _ => rewrite Forall_forall in He end.
  intros p Hp. rewrite !elem_of_app in Hp. destruct Hp as [Hp|[Hp|Hp]].
  - match goal with He : forall x, x ∈ producers -> _ |- _ => specialize (He p Hp); clear -He; rename He into Hpos end. res_inv. bool_inv. subst.
    match goal with Ha : at_position _ p _ = Ok _ |- _ => apply at_position_ok in Ha as (node & Hn & Ha) end.
    exists node. split; [done|]. by eapply required_attribute.
  - match goal with He : forall x, x ∈ orders -> _ |- _ => specialize (He p Hp); clear -He; rename He into Hpos end.
    apply at_position_ok in Hpos as (node & Hn & Hpos). exists node. split; [done|].
    unfold ensure_span_identity in Hpos. res_inv. bool_inv. simpl in *.
    repeat match goal with Hr : required_attribute_string _ _ _ _ = Ok _ |- _ => apply required_attribute in Hr end. congruence.
  - match goal with He : forall x, x ∈ analytics -> _ |- _ => specialize (He p Hp); clear -He; rename He into Hpos end.
    apply at_position_ok in Hpos as (node & Hn & Hpos). exists node. split; [done|].
    unfold ensure_span_identity in Hpos. res_inv. bool_inv. simpl in *.
    repeat match goal with Hr : required_attribute_string _ _ _ _ = Ok _ |- _ => apply required_attribute in Hr end. congruence.
Qed.

(** ** The notification *)

Lemma parent_ancestor_ok fuel nodes index ancestors current seen :
  parent_ancestor fuel nodes index ancestors current seen = Some (Ok true) ->
  exists a, a ∈ ancestors /\ tc (parent_of nodes index) current a.
Proof.
  revert current seen. induction fuel as [|fuel IH]; intros current seen; simpl; [done|].
  unfold node_at. destruct (nodes !! current) as [node|] eqn:En; [|done]. simpl.
  destruct (parent_position index node) as [[parent|]|] eqn:Ep; [|done|done].
  assert (Hstep : parent_of nodes index current parent) by (by exists node).
  case_bool_decide as Hin; [intros _; exists parent; split; [done|by apply tc_once]|].
  case_bool_decide; [done|]. intros (a & Ha & Hup)%IH. exists a. split; [done|]. by eapply tc_l.
Qed.

Lemma find_notification_ok candidates nodes index orders baggage identity :
  find_notification parse_json candidates nodes index orders baggage identity = Ok tt ->
  exists n c, n ∈ candidates /\ c ∈ orders /\ tc (parent_of nodes index) n c.
Proof.
  induction candidates as [|n candidates IH]; simpl; [done|]. intros H. res_inv.
  match goal with Hb : has_parent_ancestor _ _ _ _ = Ok ?b |- _ => destruct b; rename Hb into Hbelow end.
  - destruct (true && _) eqn:E in *.
    + unfold has_parent_ancestor in Hbelow.
      destruct (parent_ancestor _ _ _ _ _ _) as [r|] eqn:Ea; [simpl in Hbelow; subst r|done].
      apply parent_ancestor_ok in Ea as (c & Hc & Hup). exists n, c. split; [by left|done].
    + destruct IH as (m & c & Hm & Hc); [done|]. exists m, c. split; [by right|done].
  - simpl in *. destruct IH as (m & c & Hm & Hc); [done|]. exists m, c. split; [by right|done].
Qed.

(** ** The links *)

Lemma link_semantics_ok links sources targets message :
  require_link_semantics links sources targets message = Ok tt ->
  forall s, s ∈ sources -> exists t, t ∈ targets /\ link_of links s t.
Proof.
  unfold require_link_semantics. intros H s Hs. res_inv.
  match goal with Hf : forallb _ sources = true |- _ => rewrite forallb_forall in Hf; rename Hf into Hall end.
  apply list_elem_of_In, Hall, existsb_exists in Hs as (link & Hl & Hm). bool_inv.
  exists (sl_target link). split; [done|]. exists link. split_and!; [done|by apply Nat.eqb_eq|done].
Qed.

Definition consumers_of (nodes : list SpanNode) (destination : string) : list nat :=
  matching_span_indices parse_json nodes "fulfillment" (rabbit_span destination "process").
Definition producers_of (nodes : list SpanNode) : list nat :=
  matching_span_indices parse_json nodes "checkout" (rabbit_span "commerce.events" "send").

Lemma checkout_span_in anchor nodes i :
  checkout_span_index anchor nodes = Ok i ->
  exists i0 n0, nodes !! i0 = Some n0 /\ sp_trace_id n0 = anchor.
Proof.
  unfold checkout_span_index. destruct (positions _ nodes) as [|p [|]] eqn:E; try done. intros _.
  assert (Hp : p ∈ [p]) by by left. rewrite <- E in Hp. apply positions_in in Hp as (node & Hn & Ht).
  bool_inv. by exists p, node.
Qed.

(** C27: an accepted trace shows the paid order's event from end to end.  Every
    consumer of the event, for its fulfilment and for the analytics, of which
    there is one at least, is linked to a producer of the checkout and both name
    the event of the identity; a notification lies below one of the order's
    consumers; and all spans are causally connected with the checkout's trace. *)
Theorem verified_trace_sound anchor traces a :
  analyze_details parse_json anchor traces = Ok a ->
  exists nodes index links,
    collect_span_nodes parse_json anchor traces = Ok nodes /\ index_spans nodes = Ok index
    /\ validate_typed_links parse_json nodes index = Ok links
    /\ (forall destination, In destination ["fulfillment.orders"; "analytics.events"] ->
          consumers_of nodes destination <> []
          /\ forall c, c ∈ consumers_of nodes destination ->
               exists p, p ∈ producers_of nodes /\ link_of links c p
                 /\ about_message nodes c (ci_event_id (an_identity a))
                 /\ about_message nodes p (ci_event_id (an_identity a)))
    /\ (exists n c node, nodes !! n = Some node /\ service_of (sp_span node) = Some "notifications"
          /\ c ∈ consumers_of nodes "fulfillment.orders" /\ tc (parent_of nodes index) n c)
    /\ exists root node, nodes !! root = Some node /\ sp_trace_id node = anchor
         /\ forall i, (i < length nodes)%nat -> rtc (causal nodes index links) root i.
Proof.
  unfold analyze_details, nonempty_positions. intros H. res_inv.
  repeat match goal with u : unit |- _ => destruct u end. bool_inv. cbn [an_identity].
  match goal with Hn : collect_span_nodes _ _ _ = Ok ?n, Hi : index_spans _ = Ok ?i, Hl : validate_typed_links _ _ _ = Ok ?l,
      Hid : verified_commerce_identity _ _ _ _ _ _ = Ok _ |- _ =>
    exists n, i, l; pose proof (identity_about _ _ _ _ _ _ Hid) as Habout end.
  split_and!; [done|done|done| | |].
  - intros destination Hd.
    assert (Hlinked : forall c, c ∈ consumers_of x0 destination -> exists p, p ∈ producers_of x0 /\ link_of x3 c p)
      by (destruct Hd as [<-|[<-|[]]]; by eapply link_semantics_ok).
    split; [by destruct Hd as [<-|[<-|[]]]|]. intros c Hc. destruct (Hlinked c Hc) as (p & Hp & Hl).
    exists p. split_and!; [done|done| |]; apply Habout; rewrite !elem_of_app; [|by left].
    right. destruct Hd as [<-|[<-|[]]]; [by left|by right].
  - match goal with Hnote : require_notification_evidence _ _ _ _ _ _ = Ok tt |- _ =>
      unfold require_notification_evidence in Hnote; apply res_bind_ok in Hnote as (_ & _ & Hnote);
      apply find_notification_ok in Hnote as (n & c & Hn & Hc & Hup) end.
    apply positions_in in Hn as (node & Hn & Hs). apply opt_is_true in Hs. by exists n, c, node.
  - match goal with Hc : checkout_span_index _ _ = Ok _ |- _ => apply checkout_span_in in Hc as (i0 & n0 & Hi0 & Ha) end.
    edestruct anchor_root as (r & root & Hr & Hn & Ht); [done..|]. rewrite Ha in Ht.
    exists r, root. split_and!; [done|done|]. by eapply search_exact.
Qed.
End outcomes.

(** ** A complete trace *)

Definition paid_baggage : list (string * json) :=
  [("tenant.id", JStr "acme"); ("user.tier", JStr "gold"); ("customer.segment", JStr "standard");
   ("region", JStr "us"); ("request.priority", JStr "normal")].

Definition paid_event (destination operation : string) : list (string * json) :=
  map (fun kv => (kv.1, JStr kv.2)) (rabbit_span destination operation)
  ++ [("messaging.message.id", JStr "event-1"); ("order.id", JStr "order-1")] ++ paid_baggage.

Definition paid_parse (raw : string) : option json :=
  if String.eqb raw "baggage" then Some (JObj paid_baggage)
  else if String.eqb raw "producer" then Some (JObj (paid_event "commerce.events" "send"))
  else if String.eqb raw "order" then Some (JObj (paid_event "fulfillment.orders" "process"))
  else if String.eqb raw "analytics" then Some (JObj (paid_event "analytics.events" "process"))
  else if String.eqb raw "carrier" then
    Some (JObj [("traceparent", JStr ("00-" +:+ demo_trace_a +:+ "-0000000000000006-01"));
                ("tracestate", JStr "playground=commerce");
                ("baggage", JStr "tenant.id=acme,user.tier=gold,customer.segment=standard,region=us,request.priority=normal")])
  else Some (JObj []).

Definition paid_span (n parent service name kind attributes : string) (links : list json) : json :=
  let id n := "000000000000000" +:+ n in
  JObj [("spanId", JStr (id n)); ("parentSpanId", if is_empty parent then JNull else JStr (id parent));
        ("name", JStr name); ("service", JStr service); ("kind", JStr kind); ("attributes", JStr attributes);
        ("typedLinks", JArr links)].

Definition paid_link : json :=
  JObj [("traceId", JStr demo_trace_a); ("spanId", JStr "0000000000000006"); ("attributes", JStr "carrier")].

Definition paid_traces : list json :=
  [JObj [("traceId", JStr demo_trace_a);
         ("spans", JArr [paid_span "1" "" "checkout" "checkout" "SPAN_KIND_SERVER" "baggage" [];
                         paid_span "2" "1" "catalog" "catalog.query" "SPAN_KIND_SERVER" "{}" [];
                         paid_span "3" "1" "pricing" "pricing.quote" "SPAN_KIND_SERVER" "{}" [];
                         paid_span "4" "1" "inventory" "inventory.reserve" "SPAN_KIND_SERVER" "{}" [];
                         paid_span "5" "1" "payment" "payment.authorize" "SPAN_KIND_SERVER" "{}" [];
                         paid_span "6" "1" "checkout" "publish" "SPAN_KIND_PRODUCER" "producer" [];
                         paid_span "7" "6" "fulfillment" "process" "SPAN_KIND_CONSUMER" "order" [paid_link];
                         paid_span "8" "6" "fulfillment" "process" "SPAN_KIND_CONSUMER" "analytics" [paid_link];
                         paid_span "9" "7" "notifications" "deliver" "SPAN_KIND_SERVER" "baggage" []])]].

Definition paid_analysis : Analysis :=
  match analyze_details paid_parse demo_trace_a paid_traces with
  | Ok a => a
  | Err _ => mkAnalysis (mkSummary 0 0 []) ∅ (mkCommerceIdentity "" "" "" "" "")
  end.

Example paid_identity : an_identity paid_analysis
  = mkCommerceIdentity "acme" "event-1" "order.paid" "order-1:paid" "order-1".
Proof. vm_compute. reflexivity. Qed.

Lemma verified_trace_sound_witness :
  exists nodes, collect_span_nodes paid_parse demo_trace_a paid_traces = Ok nodes
    /\ forall c, c ∈ consumers_of paid_parse nodes "analytics.events" ->
         about_message paid_parse nodes c (ci_event_id (an_identity paid_analysis)).
Proof.
  destruct (verified_trace_sound paid_parse demo_trace_a paid_traces paid_analysis)
    as (nodes & index & links & Hn & _ & _ & Hc & _); [apply ok_value; vm_compute; reflexivity|].
  exists nodes. split; [exact Hn|]. intros c Hin.
  destruct (Hc "analytics.events") as [_ H]; [right; left; reflexivity|].
  destruct (H c Hin) as (p & _ & _ & Habout & _). exact Habout.
Defined.

End VerifyOutcomes.
