(* ===== verification/ScenarioCorpus.v ===== *)
(** The registry of scenarios, the corpus and what its runs come to. *)

From Stdlib Require Import Sorted.
From S2P Require Import Prelude Values Propagation Telemetry RequestShapes ShapesOutcomes.

(** The registry of the scenario runner (cli/src/scenario_runner.rs): the public
    names, their proof, evidence and dispatch identities, the validation of the
    registry, the dispatch of a name to its handler, the corpus, and the marker
    and wide trace that scenarios emit.  A handler is the function the dispatch
    calls with its arguments; what the functions do over the network is not
    modelled here. *)
Module ScenarioRegistry.

Import Text Telemetry Propagation Shapes ShapesTraces ShapesCorpora.

Local Open Scope result_scope.

Definition SCENARIO_NAMES : list string := [
  "commerce:checkout_saga"; "metrics:exemplars"; "browser:rum_error"; "graphql:batching_errors";
  "database:price_subscription"; "grpc:pricing_stream"; "messaging:java_fulfillment_replay"; "logs:field_spike";
  "propagation:baggage"; "messaging:checkout_outbox"; "messaging:seeded_order_replay"; "cli:checkout_invocation";
  "deploy:release_regression"; "feature_flags:checkout_variants"; "security:redaction_canary"; "traces:wide_trace";
  "feature_flags:topology_compare"; "messaging:batch_fanin"; "runtime:request_saturation";
  "grpc:storefront_pricing"; "graphql:storefront_catalog"; "postgres:query_pressure";
  "cache:recommendation_stampede"; "agent:execution_stack"; "browser:rum_journey"; "events:typed_business_events";
  "metrics:request_shapes"; "errors:handled_unhandled"; "messaging:poison_retry"; "failures:inventory";
  "runtime:cpu_pressure"; "memory:cache_leak"; "postgres:lock_contention"; "recommendation:slow_query";
  "browser:rage_click"; "load:checkout"; "failures:payment_latency"; "failures:checkout_chaos";
  "grpc:deadline_retry"; "alerts:error_rate_breach"; "alerts:p95_breach"; "alerts:recovery";
  "failures:provider_degradation"; "cron:outcomes"; "cron:duplicate_missed"; "jvm:memory_pressure";
  "container:recommendation_oom_probe"; "messaging:orphan_consumer"; "sampling:low_sample_gap";
  "logs:trace_correlation"; "traces:deep"; "traces:wide"; "traces:multi_root"; "traces:orphan";
  "traces:clock_skew"; "traces:zero_duration"; "traces:cross_links"; "traces:long_names"; "traces:events";
  "logs:burst"; "logs:bodies"; "logs:patterns"; "metrics:shapes"; "metrics:labels"; "attributes:bounded";
  "issues:burst"; "issues:multi_language"; "protocols:grpc_errors"; "protocols:grpc_stream";
  "protocols:graphql_errors"; "protocols:rabbitmq_lag"; "journeys:happy_path"; "journeys:error_path";
  "journeys:outside_screen"; "journeys:reattach"; "journeys:parallel"; "ecosystem:external_edge";
  "ecosystem:service_map"; "ecosystem:full"; "product:issue_context"; "product:issue_regression";
  "product:invocation_lifecycle"; "product:live_tail"; "product:alerting"; "product:saved_state";
  "product:github_ingest"; "product:agent_session"; "sentry:envelopes"; "product:lifecycle_ops";
  "security:redaction_egress"; "product:ui_agent_verify"; "product:pr71_live_legs"; "propagation:malformed";
  "metrics:cardinality_stress"].

Definition SCENARIO_PROOF_IDS : list string := [
  "a1"; "a2"; "a5"; "a6"; "a7"; "a7b"; "a8"; "a9"; "a10"; "a3"; "a4"; "a12"; "a13"; "a14"; "a18"; "a19";
  "a20-compare"; "a20"; "a22"; "a23"; "a24"; "a25"; "a26"; "a27"; "a28"; "a29"; "a30"; "a31"; "b-async-chaos";
  "b2"; "b5"; "b6"; "b10"; "b13"; "b15"; "b16"; "b-chaos"; "b-checkout-chaos"; "b3b"; "a-breach-error-rate";
  "a-breach-p95"; "a-recover"; "b-degradation"; "b17"; "b17b"; "b19"; "b20"; "b21"; "b22"; "b23"; "t-deep";
  "t-wide"; "t-multiroot"; "t-orphan"; "t-skew"; "t-zero"; "t-links"; "t-longnames"; "t-events"; "l-burst";
  "l-bodies"; "l-patterns"; "m-shapes"; "m-labels"; "f-attrs"; "e-burst"; "e-multi-lang"; "p-grpc-err";
  "p-grpc-stream"; "p-graphql-err"; "p-rabbitmq-lag"; "j-happy"; "j-error"; "j-outside"; "j-reattach";
  "j-parallel"; "eco-external"; "eco-map"; "eco-full"; "c1"; "c12"; "c2"; "c3"; "c4"; "c5"; "c6"; "c7"; "c8"; "c9";
  "c10"; "c11"; "c13"; "b24"; "b25"].

Definition CORNER_CORPUS_SCENARIOS : list string := [
  "traces:deep"; "traces:wide"; "traces:multi_root"; "traces:orphan"; "traces:clock_skew"; "traces:zero_duration";
  "traces:cross_links"; "traces:long_names"; "traces:events"; "logs:burst"; "logs:bodies"; "logs:patterns";
  "metrics:shapes"; "metrics:labels"; "attributes:bounded"; "issues:burst"; "issues:multi_language";
  "protocols:grpc_errors"; "protocols:grpc_stream"; "protocols:graphql_errors"; "protocols:rabbitmq_lag";
  "journeys:happy_path"; "journeys:error_path"; "journeys:outside_screen"; "journeys:reattach";
  "journeys:parallel"; "ecosystem:external_edge"; "ecosystem:service_map"; "ecosystem:full"].

(** ** Settings *)

Definition url_env (vars : Vars) (name default_ : string) : string :=
  trim_end_slashes (default default_ (non_blank (vars name))).
Definition nonempty_env (vars : Vars) (name : string) : option string := non_blank (vars name).
Definition env_or_fallback (vars : Vars) (primary fallback : string) : option string :=
  match nonempty_env vars primary with Some value => Some value | None => nonempty_env vars fallback end.
Definition positive_env (vars : Vars) (name : string) (default_ : Z) : result string Z :=
  let raw := default (show_Z default_) (nonempty_env vars name) in
  let message := name +:+ " must be a positive integer: " +:+ raw in
  value <- ok_or (parse_u64 raw) message ;;
  ensure (0 <? value) message ;;
  Ok value.

(** ** Identities *)

(** [iter().position(|candidate| *candidate == name)] *)
Fixpoint position (name : string) (l : list string) : option nat :=
  match l with
  | [] => None
  | n :: rest => if String.eqb n name then Some O else option_map S (position name rest)
  end.

(** A registry: the names, the proof ids aligned with them, and the corner
    scenarios; the code's is [scenario_registry] below. *)
Record Registry : Type := mkRegistry { rg_names : list string; rg_proofs : list string; rg_corner : list string }.

Definition scenario_proof_id (r : Registry) (name : string) : option string :=
  index ← position name (rg_names r); rg_proofs r !! index.

Definition scenario_evidence_id (r : Registry) (name : string) : option string :=
  if String.eqb name "graphql:batching_errors" then Some "graphql-batching-errors"
  else if String.eqb name "protocols:graphql_errors" then Some "protocols-graphql-errors"
  else if String.eqb name "logs:field_spike" then Some "logs-field-spike"
  else if String.eqb name "logs:patterns" then Some "logs-patterns"
  else scenario_proof_id r name.

Definition is_primary_corpus_proof (proof_id : string) : bool :=
  match proof_id with
  | String a _ => Ascii.eqb a "a" || Ascii.eqb a "b" || Ascii.eqb a "c"
  | "" => false
  end.

Definition corpus_scenarios (r : Registry) : list string :=
  List.filter (fun name =>
    match scenario_proof_id r name with Some id => is_primary_corpus_proof id | None => false end ||
    one_of name (rg_corner r)) (rg_names r).

(** [sort_unstable()] and [dedup()] on texts *)
Fixpoint insert_sorted (s : string) (l : list string) : list string :=
  match l with
  | [] => [s]
  | t :: rest => match String.compare s t with Gt => t :: insert_sorted s rest | _ => s :: l end
  end.
Definition sort_unstable (l : list string) : list string := foldr insert_sorted [] l.
Fixpoint dedup (l : list string) : list string :=
  match l with
  | [] => []
  | a :: rest => match rest with
                 | b :: _ => if String.eqb a b then dedup rest else a :: dedup rest
                 | [] => [a]
                 end
  end.

Definition ensure_unique (l : list string) (message : string) : result string unit :=
  ensure (Nat.eqb (length (dedup (sort_unstable l))) (length l)) message.

(** [map(..).collect::<Result<Vec<_>, _>>()] and a loop that stops at the first error *)
Fixpoint collect_res {A B} (f : A -> result string B) (l : list A) : result string (list B) :=
  match l with
  | [] => Ok []
  | a :: rest => b <- f a ;; bs <- collect_res f rest ;; Ok (b :: bs)
  end.
Fixpoint each_res {A} (f : A -> result string unit) (l : list A) : result string unit :=
  match l with [] => Ok tt | a :: rest => f a ;; each_res f rest end.

Definition occurrences (name : string) (l : list string) : nat := length (List.filter (fun c => String.eqb c name) l).

Definition validate_scenario_registry (r : Registry) : result string unit :=
  ensure (Nat.eqb (length (rg_names r)) (length (rg_proofs r)))
    "semantic scenario and proof registries have different lengths" ;;
  ensure_unique (rg_names r) "semantic scenario registry contains duplicate names" ;;
  ensure_unique (rg_proofs r) "semantic scenario registry contains duplicate proof IDs" ;;
  evidence_ids <- collect_res (fun name =>
    ok_or (scenario_evidence_id r name) ("semantic scenario has no evidence ID: " +:+ name)) (rg_names r) ;;
  ensure_unique evidence_ids "semantic scenario registry contains duplicate evidence IDs" ;;
  let corpus := corpus_scenarios r in
  ensure_unique corpus "corpus registry contains duplicate scenarios" ;;
  ensure (Nat.eqb (length corpus) (length (rg_names r)))
    "corpus registry must cover every declared A/B/C and corner scenario" ;;
  each_res (fun name =>
    ensure (Nat.eqb (occurrences name corpus) 1) ("corpus registry must include " +:+ name +:+ " exactly once"))
    (rg_names r) ;;
  each_res (fun name =>
    ensure (one_of name (rg_names r)) ("corpus registry contains undeclared scenario: " +:+ name)) corpus.

Definition scenario_registry : Registry := mkRegistry SCENARIO_NAMES SCENARIO_PROOF_IDS CORNER_CORPUS_SCENARIOS.

Definition scenario_dispatch_id (r : Registry) (name : string) : option string :=
  if String.eqb name "grpc:pricing_stream" then Some "dispatch:grpc:pricing_stream"
  else if String.eqb name "protocols:grpc_stream" then Some "dispatch:protocols:grpc_stream"
  else if String.eqb name "messaging:java_fulfillment_replay" then Some "dispatch:messaging:java_fulfillment_replay"
  else if String.eqb name "messaging:seeded_order_replay" then Some "dispatch:messaging:seeded_order_replay"
  else if String.eqb name "traces:wide_trace" then Some "dispatch:traces:wide_trace"
  else if String.eqb name "traces:wide" then Some "dispatch:traces:wide"
  else if String.eqb name "protocols:rabbitmq_lag" then Some "dispatch:protocols:rabbitmq_lag_replay"
  else scenario_proof_id r name.

(** ** Dispatch *)

Inductive Handler : Type := Call (function : string) (arguments : list string).

Definition call (function : string) (arguments : list string) : option (result string Handler) :=
  Some (Ok (Call function arguments)).

(** [None] is the arm the code declares unreachable. *)
Definition run_semantic_named (vars : Vars) (name : string) (extra : list string) : option (result string Handler) :=
  if String.eqb name "commerce:checkout_saga" then call "checkout_saga" []
  else if String.eqb name "messaging:checkout_outbox" then call "checkout_outbox" []
  else if String.eqb name "metrics:exemplars" then
    Some (requests <- positive_env vars "A2_REQUESTS" 12 ;; Ok (Call "catalog_queries" ["exemplars"; show_Z requests]))
  else if String.eqb name "graphql:batching_errors" then call "graphql_shapes" ["graphql:batching_errors"]
  else if String.eqb name "database:price_subscription" then call "run_bun_script" ["scenarios/a7-subscription.ts"]
  else if String.eqb name "grpc:pricing_stream" then call "pricing_stream" []
  else if String.eqb name "protocols:grpc_stream" then call "protocols_grpc_stream" []
  else if String.eqb name "messaging:java_fulfillment_replay" then call "java_fulfillment_replay" []
  else if String.eqb name "messaging:seeded_order_replay" then call "seeded_order_replay" []
  else if String.eqb name "logs:field_spike" then call "run_shape_with_proof" ["logs:field_spike"; "l-patterns"]
  else if String.eqb name "propagation:baggage" then call "baggage_checkout" []
  else if String.eqb name "cli:checkout_invocation" then call "run_current" []
  else if String.eqb name "deploy:release_regression" then call "release_regression" []
  else if String.eqb name "feature_flags:checkout_variants" then call "feature_flag_variants" []
  else if String.eqb name "feature_flags:topology_compare" then call "feature_flag_topology_compare" []
  else if String.eqb name "security:redaction_canary" then call "sentry_canary" []
  else if String.eqb name "traces:wide_trace" then call "wide_trace" []
  else if String.eqb name "messaging:batch_fanin" then call "synthetic_batch_fanin" []
  else if String.eqb name "messaging:poison_retry" then call "synthetic_poison_retry" []
  else if String.eqb name "messaging:orphan_consumer" then call "synthetic_orphan_consumer" []
  else if String.eqb name "runtime:request_saturation" then call "checkout_pressure" []
  else if String.eqb name "runtime:cpu_pressure" then call "delayed_checkout_burst" ["runtime:cpu_pressure"; "B5"]
  else if String.eqb name "postgres:lock_contention" then call "delayed_checkout_concurrency" ["postgres:lock_contention"]
  else if String.eqb name "failures:payment_latency" then call "payment_failure_latency" []
  else if String.eqb name "failures:checkout_chaos" then call "checkout_chaos" []
  else if String.eqb name "failures:provider_degradation" then call "provider_degradation" []
  else if String.eqb name "sampling:low_sample_gap" then call "sampling_gap" []
  else if String.eqb name "logs:trace_correlation" then call "checkout_probe" ["logs:trace_correlation"]
  else if String.eqb name "errors:handled_unhandled" then call "handled_unhandled" []
  else if String.eqb name "failures:inventory" then call "inventory_failure" []
  else if String.eqb name "grpc:storefront_pricing" then call "storefront_graphql" ["pricing"]
  else if String.eqb name "graphql:storefront_catalog" then call "storefront_graphql" ["catalog"]
  else if String.eqb name "postgres:query_pressure" then call "inventory_pressure" []
  else if String.eqb name "cache:recommendation_stampede" then call "recommendation_stampede" []
  else if String.eqb name "memory:cache_leak" then call "recommendation_cache_leak" []
  else if String.eqb name "recommendation:slow_query" then call "recommendation_slow_query" []
  else if String.eqb name "agent:execution_stack" then call "execution_stack" []
  else if String.eqb name "browser:rum_error" then call "browser_test" ["e2e/compose.smoke.spec.ts"; "browses, quotes, checks out"]
  else if String.eqb name "browser:rum_journey" then call "browser_journey" []
  else if String.eqb name "events:typed_business_events" then call "typed_events" []
  else if String.eqb name "metrics:request_shapes" then call "request_metric_shapes" []
  else if String.eqb name "browser:rage_click" then call "browser_test" ["e2e/journey.spec.ts"; "orders reads durable status|analytics reads ClickHouse"]
  else if String.eqb name "load:checkout" then call "k6_load" extra
  else if String.eqb name "grpc:deadline_retry" then call "grpc_deadline_retry" []
  else if String.eqb name "alerts:error_rate_breach" then call "sustained_checkout_failures" []
  else if String.eqb name "alerts:p95_breach" then call "sustained_recommendation" []
  else if String.eqb name "alerts:recovery" then call "recovery_traffic" []
  else if String.eqb name "cron:outcomes" then call "run_current" ["cron"; "weighted"]
  else if String.eqb name "cron:duplicate_missed" then call "cron_suite" []
  else if String.eqb name "jvm:memory_pressure" then call "jvm_memory_pressure" []
  else if String.eqb name "container:recommendation_oom_probe" then call "container_oom" extra
  else if String.eqb name "traces:deep" then call "run_shape" ["t-deep"]
  else if String.eqb name "traces:wide" then call "run_shape" ["t-wide"]
  else if String.eqb name "traces:multi_root" then call "run_shape" ["t-multiroot"]
  else if String.eqb name "traces:orphan" then call "run_shape" ["t-orphan"]
  else if String.eqb name "traces:clock_skew" then call "run_shape" ["t-skew"]
  else if String.eqb name "traces:zero_duration" then call "run_shape" ["t-zero"]
  else if String.eqb name "traces:cross_links" then call "run_shape" ["t-links"]
  else if String.eqb name "traces:long_names" then call "run_shape" ["t-longnames"]
  else if String.eqb name "traces:events" then call "run_shape" ["t-events"]
  else if String.eqb name "logs:burst" then call "run_shape" ["l-burst"]
  else if String.eqb name "logs:bodies" then call "run_shape" ["l-bodies"]
  else if String.eqb name "logs:patterns" then call "run_shape_with_proof" ["logs:patterns"; "l-patterns"]
  else if String.eqb name "metrics:shapes" then call "run_shape" ["m-shapes"]
  else if String.eqb name "metrics:labels" then call "run_shape" ["m-labels"]
  else if String.eqb name "attributes:bounded" then call "run_shape" ["f-attrs"]
  else if String.eqb name "issues:burst" then call "run_shape" ["e-burst"]
  else if String.eqb name "issues:multi_language" then call "run_shape" ["e-multi-lang"]
  else if String.eqb name "protocols:grpc_errors" then call "grpc_error_corpus" []
  else if String.eqb name "protocols:graphql_errors" then call "graphql_shapes" ["protocols:graphql_errors"]
  else if String.eqb name "protocols:rabbitmq_lag" then call "rabbitmq_lag_replay" []
  else if String.eqb name "journeys:happy_path" then call "journey" ["--seconds"; "6"]
  else if String.eqb name "journeys:error_path" then call "expected_journey_failure" []
  else if String.eqb name "journeys:outside_screen" then call "journey" ["--seconds"; "6"; "--outside-error"]
  else if String.eqb name "journeys:reattach" then call "journey" ["--seconds"; "9"; "--reattach"; "3"]
  else if String.eqb name "journeys:parallel" then call "parallel_journeys" []
  else if String.eqb name "ecosystem:external_edge" then call "run_shape" ["eco-external"]
  else if String.eqb name "ecosystem:service_map" then call "service_map_investigation" []
  else if String.eqb name "ecosystem:full" then call "ecosystem_full" []
  else if String.eqb name "product:issue_context" then call "issue_context" []
  else if String.eqb name "product:issue_regression" then call "issue_regression" []
  else if String.eqb name "product:invocation_lifecycle" then call "invocation_lifecycle" []
  else if String.eqb name "product:live_tail" then call "live_tail" []
  else if String.eqb name "product:alerting" then call "alerting" []
  else if String.eqb name "product:saved_state" then call "saved_state" []
  else if String.eqb name "product:github_ingest" then call "github_ingest" []
  else if String.eqb name "product:agent_session" then call "agent_session" []
  else if String.eqb name "sentry:envelopes" then call "sentry_envelopes" []
  else if String.eqb name "product:lifecycle_ops" then call "lifecycle_ops" []
  else if String.eqb name "security:redaction_egress" then call "redaction_egress" []
  else if String.eqb name "product:ui_agent_verify" then call "ui_agent_verify" []
  else if String.eqb name "product:pr71_live_legs" then call "pr71_live_legs" []
  else if String.eqb name "propagation:malformed" then call "malformed_propagation" []
  else if String.eqb name "metrics:cardinality_stress" then call "cardinality_stress" []
  else None.

Inductive Invocation : Type :=
| ListScenarios (names : list string)
| CorpusAll
| RunScenario (name : string) (extra : list string).

(** The command: validation comes first, whatever the arguments are. *)
Definition run (r : Registry) (args : list string) : result string Invocation :=
  validate_scenario_registry r ;;
  match args with
  | [] => Err "usage: playground scenario <group:semantic_case> [arguments]"
  | name :: extra =>
      if String.eqb name "list" then Ok (ListScenarios (rg_names r))
      else
        ensure (one_of name (rg_names r) || String.eqb name "corpus:all")
          ("unknown semantic scenario: " +:+ name +:+ "; use playground scenario list") ;;
        if String.eqb name "corpus:all" then Ok CorpusAll else Ok (RunScenario name extra)
  end.

(** The corpus: each scenario in turn until one fails; [execute] is what its
    handler returned.  The scenarios that were started are listed. *)
Fixpoint run_corpus (execute : string -> result string Z) (l : list string) : result string unit * list string :=
  match l with
  | [] => (Ok tt, [])
  | scenario :: rest =>
      match execute scenario with
      | Ok code =>
          if code =? 0 then let '(result, started) := run_corpus execute rest in (result, scenario :: started)
          else (Err ("corpus member " +:+ scenario +:+ " failed"), [scenario])
      | Err error => (Err error, [scenario])
      end
  end.
Definition corpus_all (r : Registry) (execute : string -> result string Z) : result string Z * list string :=
  match validate_scenario_registry r with
  | Err error => (Err error, [])
  | Ok _ =>
      let '(result, started) := run_corpus execute (corpus_scenarios r) in
      (_ <- result ;; Ok 0, started)
  end.

(** ** Spans of the runner's own *)

(** The marker that precedes a shape run as a proof: [clock] is its own reading,
    [trace_uuid] and [id_uuid] are two UUIDs. *)
Definition proof_marker (r : Registry) (clock : Z) (trace_uuid id_uuid : bytes) (scenario_name : string) :
    result string SpanSpec :=
  evidence_id <- ok_or (scenario_evidence_id r scenario_name)
    ("shape scenario has no evidence ID: " +:+ scenario_name) ;;
  let dispatch_id := default "unknown" (scenario_dispatch_id r scenario_name) in
  let now := clock mod u64_modulus in
  Ok (mkSpanSpec trace_uuid id_uuid None ("scenario.proof." +:+ evidence_id) 1 now (add64 now 1000000) false None
    [kv "scenario.name" scenario_name; kv "scenario.proof_id" evidence_id; kv "scenario.dispatch_id" dispatch_id]
    [] [] (Some "playground-scenario-proof")).

Definition set_name (name : string) (s : SpanSpec) : SpanSpec :=
  mkSpanSpec (ss_trace s) (ss_id s) (ss_parent s) name (ss_kind s) (ss_start s) (ss_end s) (ss_error s)
    (ss_status_message s) (ss_attrs s) (ss_events s) (ss_links s) (ss_service s).

(** The spans of t-wide, renamed by position and marked with the proof *)
Fixpoint rename_wide (proof_id : string) (index : Z) (spans : list SpanSpec) : list SpanSpec :=
  match spans with
  | [] => []
  | span :: rest =>
      push_attr (kv "scenario.proof_id" proof_id)
        (set_name (if index =? 0 then "a19.wide_trace.root" else "a19.wide_trace.child_" +:+ show_Z index) span) ::
      rename_wide proof_id (index + 1) rest
  end.
Definition wide_trace (r : Registry) : option (Gen (list SpanSpec)) :=
  proof_id ← scenario_proof_id r "traces:wide_trace";
  Some (g_bind t_wide (fun spans => g_ret (rename_wide proof_id 0 spans))).

End ScenarioRegistry.

(** What the registry of the scenario runner guarantees: what its validation
    accepts, that every public scenario has a handler of its own, that the
    corpus runs every scenario once, and which of the spans it emits itself are
    well formed. *)
Module ScenarioOutcomes.

Import Text Telemetry Propagation Shapes ShapesTraces ShapesCorpora ShapesOutcomes ScenarioRegistry.

(** ** Sorting finds every duplicate *)

Definition str_le (a b : string) : Prop := String.compare a b <> Gt.

Lemma compare_refl s : String.compare s s = Eq.
Proof. destruct (String.compare s s) eqn:E; [done| |]; pose proof (String.compare_antisym s s) as H; by rewrite E in H. Qed.

#[local] Instance str_le_trans : Transitive str_le.
Proof.
  unfold str_le. intros a. induction a as [|x a IH]; intros [|y b] [|z c]; simpl; try done.
  unfold Ascii.compare. intros Hab Hbc.
  destruct (N.compare_spec (N_of_ascii x) (N_of_ascii y)) as [Exy| |]; [| |done];
    destruct (N.compare_spec (N_of_ascii y) (N_of_ascii z)) as [Eyz| |]; try done;
    destruct (N.compare_spec (N_of_ascii x) (N_of_ascii z)) as [Exz| |]; try done; try lia.
  by eapply IH.
Qed.

Lemma str_le_antisym a b : str_le a b -> str_le b a -> a = b.
Proof.
  unfold str_le. rewrite (String.compare_antisym b a). intros H1 H2.
  destruct (String.compare a b) eqn:E; [by apply String.compare_eq_iff|done|done].
Qed.

Lemma insert_perm s l : Permutation (insert_sorted s l) (s :: l).
Proof.
  induction l as [|t l IH]; [done|]. simpl. destruct (String.compare s t); [done|done|].
  rewrite IH. apply perm_swap.
Qed.

Lemma sort_perm l : Permutation (sort_unstable l) l.
Proof. induction l as [|s l IH]; [done|]. simpl. by rewrite insert_perm, IH. Qed.

Lemma insert_ordered s l : StronglySorted str_le l -> StronglySorted str_le (insert_sorted s l).
Proof.
  induction 1 as [|t l Hl IH Ht]; simpl; [by repeat constructor|].
  destruct (String.compare s t) eqn:E.
  - apply String.compare_eq_iff in E as ->. constructor; [by constructor|]. constructor; [|done].
    unfold str_le. by rewrite compare_refl.
  - assert (Hst : str_le s t) by (unfold str_le; by rewrite E). constructor; [by constructor|].
    constructor; [done|]. eapply Forall_impl; [done|]. intros u Hu. by etrans.
  - constructor; [done|]. rewrite insert_perm. constructor; [|done].
    unfold str_le. rewrite String.compare_antisym, E. done.
Qed.

Lemma sort_ordered l : StronglySorted str_le (sort_unstable l).
Proof. induction l as [|s l IH]; [constructor|]. by apply insert_ordered. Qed.

Lemma dedup_cons a b l :
  dedup (a :: b :: l) = if String.eqb a b then dedup (b :: l) else a :: dedup (b :: l).
Proof. reflexivity. Qed.

Lemma dedup_length l : (length (dedup l) <= length l)%nat.
Proof.
  induction l as [|a l IH]; [done|]. destruct l as [|b l]; [done|].
  rewrite dedup_cons. destruct (String.eqb a b); cbn [length] in *; lia.
Qed.

Lemma dedup_all l : StronglySorted str_le l -> length (dedup l) = length l <-> NoDup l.
Proof.
  induction 1 as [|a l Hl IH Ha]; [by split; [constructor|]|].
  destruct l as [|b l]; [split; [intros _; apply NoDup_singleton|done]|].
  pose proof (dedup_length (b :: l)) as Hlen. rewrite dedup_cons.
  destruct (String.eqb_spec a b) as [->|Hne].
  - split; [intros H; cbn [length] in *; lia|]. intros [H _]%NoDup_cons. set_solver.
  - cbn [length]. rewrite NoDup_cons, <- IH. cbn [length]. split; [|lia]. intros H. split; [|lia].
    intros Hin. apply elem_of_cons in Hin as [->|Hin]; [done|].
    inversion Ha as [|? ? Hab Ha']; subst. inversion Hl as [|? ? _ Hb]; subst.
    rewrite Forall_forall in Hb. apply Hne, str_le_antisym; [done|by apply Hb].
Qed.

Lemma ensure_unique_ok l message : ensure_unique l message = Ok tt <-> NoDup l.
Proof.
  unfold ensure_unique. rewrite <- (sort_perm l) at 3. rewrite <- (dedup_all _ (sort_ordered l)).
  rewrite (Permutation_length (sort_perm l)). unfold ensure.
  destruct (Nat.eqb_spec (length (dedup (sort_unstable l))) (length l)); naive_solver.
Qed.

(** ** What validation accepts *)

Definition in_corpus (r : Registry) (name : string) : Prop :=
  (exists id, scenario_proof_id r name = Some id /\ is_primary_corpus_proof id = true) \/ name ∈ rg_corner r.

Lemma one_of_elem s l : one_of s l = true <-> s ∈ l.
Proof. rewrite one_of_In. by rewrite list_elem_of_In. Qed.

Lemma corpus_elem r name : name ∈ corpus_scenarios r <-> name ∈ rg_names r /\ in_corpus r name.
Proof.
  unfold corpus_scenarios. rewrite !list_elem_of_In, List.filter_In, orb_true_iff, one_of_elem. unfold in_corpus.
  destruct (scenario_proof_id r name); naive_solver.
Qed.

Lemma occurrences_elem name l : NoDup l -> name ∈ l -> occurrences name l = 1%nat.
Proof.
  unfold occurrences. induction l as [|a l IH]; intros Hn Hin; [by apply not_elem_of_nil in Hin|].
  apply NoDup_cons in Hn as [Ha Hn]. cbn [List.filter]. destruct (String.eqb_spec a name) as [->|Hne].
  - cbn [length]. f_equal. clear -Ha. induction l as [|b l IH]; [done|]. cbn [List.filter].
    destruct (String.eqb_spec b name) as [->|]; [set_solver|]. apply IH. set_solver.
  - apply IH; [done|]. set_solver.
Qed.

Lemma each_res_ok {A} (f : A -> result string unit) l : (forall a, a ∈ l -> f a = Ok tt) -> each_res f l = Ok tt.
Proof.
  induction l as [|a l IH]; intros H; [done|]. simpl. rewrite H by set_solver. simpl. apply IH. set_solver.
Qed.

Lemma collect_res_ok {A B} (f : A -> result string B) l bs :
  collect_res f l = Ok bs <-> Forall2 (fun a b => f a = Ok b) l bs.
Proof.
  revert bs. induction l as [|a l IH]; intros bs; simpl.
  { split; [intros [= <-]; constructor|by inversion 1]. }
  destruct (f a) as [b|e] eqn:E; simpl; [|split; [done|inversion 1; congruence]].
  destruct (collect_res f l) as [cs|e] eqn:Ec; simpl.
  - split; [intros [= <-]; constructor; [done|by apply IH]|].
    inversion 1 as [|? ? ? ? Hb Hcs]; subst. apply IH in Hcs. congruence.
  - split; [done|]. inversion 1 as [|? ? ? ? Hb Hcs]; subst. apply IH in Hcs. congruence.
Qed.

Lemma filter_full {A} (p : A -> bool) l :
  length (List.filter p l) = length l -> List.filter p l = l.
Proof.
  induction l as [|a l IH]; [done|]. cbn [List.filter]. destruct (p a); simpl.
  - intros H. f_equal. apply IH. lia.
  - intros H. pose proof (List.filter_length_le p l). lia.
Qed.

Lemma corpus_full r : length (corpus_scenarios r) = length (rg_names r) -> corpus_scenarios r = rg_names r.
Proof. apply filter_full. Qed.

Definition evidence_of (r : Registry) (name id : string) : Prop := scenario_evidence_id r name = Some id.

(** A registry the runner may start with *)
Definition sound_registry (r : Registry) : Prop :=
  length (rg_names r) = length (rg_proofs r) /\ NoDup (rg_names r) /\ NoDup (rg_proofs r) /\
  (exists ids, Forall2 (evidence_of r) (rg_names r) ids /\ NoDup ids) /\
  (forall name, name ∈ rg_names r -> in_corpus r name).

Lemma ensure_eqb n m (e : string) : ensure (Nat.eqb n m) e = Ok tt <-> n = m.
Proof. unfold ensure. destruct (Nat.eqb_spec n m); naive_solver. Qed.

Lemma seq_ok (m : result string unit) {B} (k : result string B) b :
  res_bind m (fun _ => k) = Ok b <-> m = Ok tt /\ k = Ok b.
Proof. destruct m as [[]|e]; simpl; naive_solver. Qed.

Lemma validation_sound r : validate_scenario_registry r = Ok tt <-> sound_registry r.
Proof.
  unfold validate_scenario_registry, sound_registry.
  rewrite !seq_ok, ensure_eqb, !ensure_unique_ok.
  assert (Hev : forall ids, collect_res (fun name => ok_or (scenario_evidence_id r name)
      ("semantic scenario has no evidence ID: " +:+ name)) (rg_names r) = Ok ids <->
      Forall2 (evidence_of r) (rg_names r) ids).
  { intros ids. rewrite collect_res_ok. split; intros H; (eapply Forall2_impl; [exact H|]); intros a b; unfold evidence_of, ok_or;
      destruct (scenario_evidence_id r a); naive_solver. }
  split.
  - intros (Hl & Hn & Hp & H). destruct (collect_res _ _) as [ids|e] eqn:E; [|done]. simpl in H.
    rewrite !seq_ok, ensure_eqb, !ensure_unique_ok in H. destruct H as (Hi & _ & Hc & _).
    split_and!; [done..| |]; [exists ids; split; [by apply Hev|done]|].
    intros name Hin. rewrite <- (corpus_full r Hc) in Hin. apply corpus_elem in Hin as [_ ?]. done.
  - intros (Hl & Hn & Hp & (ids & Hids & Hi) & Hc). split_and!; [done..|]. apply Hev in Hids. rewrite Hids. simpl.
    assert (Hfull : corpus_scenarios r = rg_names r).
    { unfold corpus_scenarios. clear -Hc. assert (H : forall name, name ∈ rg_names r -> name ∈ corpus_scenarios r).
      { intros name Hin. apply corpus_elem. auto. }
      apply forallb_filter_id, forallb_forall. intros name Hin%list_elem_of_In.
      apply H, list_elem_of_In, List.filter_In in Hin. apply Hin. }
    rewrite !seq_ok, ensure_eqb, !ensure_unique_ok, Hfull. split_and!; [done..| |].
    + apply each_res_ok. intros name Hin. by rewrite occurrences_elem.
    + apply each_res_ok. intros name Hin. apply one_of_elem in Hin. by rewrite Hin.
Qed.

(** The code's own registry is one of them. *)
Lemma scenario_registry_valid : validate_scenario_registry scenario_registry = Ok tt.
Proof. vm_compute. reflexivity. Qed.

Lemma scenario_registry_sound : sound_registry scenario_registry.
Proof. apply validation_sound, scenario_registry_valid. Qed.

(** ** Dispatch and corpus *)

Lemma registry_dispatches vars name extra :
  name ∈ SCENARIO_NAMES -> is_Some (run_semantic_named vars name extra).
Proof.
  intros Hin. assert (Hall : forallb (fun name =>
    match run_semantic_named vars name extra with Some _ => true | None => false end) SCENARIO_NAMES = true)
    by (vm_compute; reflexivity).
  rewrite forallb_forall in Hall. apply list_elem_of_In, Hall in Hin.
  by destruct (run_semantic_named vars name extra); [eexists|].
Qed.

(** The shape a handler emits, if it emits one *)
Definition shape_of (h : Handler) : option string :=
  match h with
  | Call "run_shape" [id] => Some id
  | Call "run_shape_with_proof" [_; id] => Some id
  | _ => None
  end.

Lemma dispatched_shapes_known vars name extra h id :
  run_semantic_named vars name extra = Some (Ok h) -> name ∈ SCENARIO_NAMES -> shape_of h = Some id ->
  is_Some (shape_posts id).
Proof.
  intros Hrun Hin Hs. assert (Hall : forallb (fun name =>
    match run_semantic_named vars name extra with
    | Some (Ok h) => match shape_of h with
                     | Some id => match shape_posts id with Some _ => true | None => false end
                     | None => true
                     end
    | _ => true
    end) (List.filter (fun n => negb (one_of n ["metrics:exemplars"])) SCENARIO_NAMES) = true)
    by (vm_compute; reflexivity).
  destruct (String.eqb_spec name "metrics:exemplars") as [->|Hne].
  { revert Hrun. cbn. destruct (positive_env vars "A2_REQUESTS" 12); simpl; [|done]. intros [= <-]. done. }
  rewrite forallb_forall in Hall. specialize (Hall name).
  rewrite Hrun, Hs in Hall. destruct (shape_posts id); [by eexists|]. exfalso.
  assert (false = true); [|done]. apply Hall, List.filter_In. split; [by apply list_elem_of_In|].
  unfold one_of. cbn [existsb]. by destruct (String.eqb_spec name "metrics:exemplars").
Qed.

(** A scenario that the command accepts always has a handler: the arm declared
    unreachable is, and a handler that emits a shape names one that exists. *)
Theorem accepted_scenarios_run vars args name extra :
  run scenario_registry args = Ok (RunScenario name extra) ->
  exists handler, run_semantic_named vars name extra = Some handler /\
    forall h id, handler = Ok h -> shape_of h = Some id -> is_Some (shape_posts id).
Proof.
  unfold run. rewrite scenario_registry_valid. cbn [res_bind]. destruct args as [|n more]; [done|].
  destruct (String.eqb n "list"); [done|]. unfold ensure.
  destruct (one_of n (rg_names scenario_registry)) eqn:E.
  - cbn [orb res_bind]. destruct (String.eqb n "corpus:all"); [done|]. intros [= <- <-].
    apply one_of_elem in E. destruct (registry_dispatches vars n more E) as [handler Hh]. exists handler.
    split; [done|]. intros h id -> Hs. by eapply dispatched_shapes_known.
  - cbn [orb]. destruct (String.eqb n "corpus:all"); done.
Qed.

Lemma accepted_scenarios_run_witness :
  exists handler, run_semantic_named (fun _ => None) "traces:deep" [] = Some handler /\
    forall h id, handler = Ok h -> shape_of h = Some id -> is_Some (shape_posts id).
Proof. apply (accepted_scenarios_run (fun _ => None) ["traces:deep"]). vm_compute. reflexivity. Defined.

Lemma sound_corpus r : sound_registry r -> corpus_scenarios r = rg_names r.
Proof.
  intros (_ & _ & _ & _ & Hc). apply forallb_filter_id, forallb_forall. intros name Hin%list_elem_of_In.
  assert (H : name ∈ corpus_scenarios r) by (apply corpus_elem; auto).
  apply list_elem_of_In, List.filter_In in H. apply H.
Qed.

Lemma run_corpus_ok execute l started :
  run_corpus execute l = (Ok tt, started) <-> started = l /\ (forall n, n ∈ l -> execute n = Ok 0).
Proof.
  revert started. induction l as [|n l IH]; intros started; simpl.
  { split; [intros [= <-]; split; [done|set_solver]|by intros [-> _]]. }
  destruct (execute n) as [code|e] eqn:E.
  - destruct (Z.eqb_spec code 0) as [->|Hne].
    + destruct (run_corpus execute l) as [res ran]. split.
      * intros [= -> <-]. destruct (IH ran) as [[-> Hall] _]; [done|]. split; [done|]. set_solver.
      * intros [-> Hall]. destruct (IH l) as [_ H]. assert (Hr : (res, ran) = (Ok tt, l)) by (apply H; split; [done|set_solver]).
        by injection Hr as -> ->.
    + split; [done|]. intros [_ H]. specialize (H n ltac:(set_solver)). congruence.
  - split; [done|]. intros [_ H]. specialize (H n ltac:(set_solver)). congruence.
Qed.

(** The corpus run succeeds exactly when the registry is sound and the handler
    of every scenario returned zero; it has then started every public scenario,
    once each and in the registry's order. *)
Theorem corpus_runs_every_scenario r execute started :
  corpus_all r execute = (Ok 0, started) <->
  sound_registry r /\ started = rg_names r /\ (forall name, name ∈ rg_names r -> execute name = Ok 0).
Proof.
  rewrite <- validation_sound. unfold corpus_all.
  destruct (validate_scenario_registry r) as [[]|e] eqn:E; [|naive_solver].
  rewrite sound_corpus by (by apply validation_sound).
  pose proof (run_corpus_ok execute (rg_names r) started) as H. destruct (run_corpus _ _) as [[[]|e] ran]; simpl.
  - split; [intros [= <-]; split; [done|by apply H]|]. intros [_ H']. apply H in H'. by injection H' as ->.
  - split; [done|]. intros [_ H']. apply H in H'. done.
Qed.

(** ** The runner's own spans *)

Lemma rename_wide_in_trace proof_id trace parent index spans :
  Forall (in_trace trace parent) spans -> Forall (in_trace trace parent) (rename_wide proof_id index spans).
Proof. intros H. revert index. induction H as [|s l Hs _ IH]; intros index; [constructor|]. constructor; [exact Hs|apply IH]. Qed.

(** The wide trace keeps the shape it is made of, *)
Lemma wide_trace_closed g : wide_trace scenario_registry = Some g -> gives g closed.
Proof.
  unfold wide_trace. replace (scenario_proof_id scenario_registry "traces:wide_trace") with (Some "a19") by (vm_compute; reflexivity).
  cbn [mbind option_bind]. intros [= <-].
  assert (Hw : gives t_wide (fun spans => exists trace root children, spans = root :: children /\ sized 16 trace /\
    in_trace trace None root /\ Forall (in_trace trace (Some (ss_id root))) children)).
  { unfold t_wide. gen_draw trace. gen_draw base. gen_draw root. eapply gives_bind.
    { apply (gives_each _ _ (in_trace trace (Some (ss_id root)))). intros index _. apply gives_basic. }
    intros children Hc. apply gives_ret. by exists trace, root, children. }
  eapply gives_bind; [exact Hw|]. intros spans (trace & root & children & -> & Ht & Hr & Hc). apply gives_ret.
  apply (closed_family trace); [done|exact Hr|]. by apply rename_wide_in_trace.
Qed.

(** but the marker of a proof is given a whole UUID as its span id: sixteen
    bytes where a span id has eight. *)
Lemma proof_marker_span_id r clock trace_uuid id_uuid name marker :
  proof_marker r clock trace_uuid id_uuid name = Ok marker -> sized 16 id_uuid ->
  length (sp_span_id (span_of marker)) = 16%nat /\ ~ span_ids_ok (span_of marker).
Proof.
  unfold proof_marker. destruct (scenario_evidence_id r name); [|done]. cbn [ok_or res_bind]. intros [= <-] [Hl _].
  simpl. split; [done|]. intros (_ & [H _] & _). simpl in H. lia.
Qed.

Lemma proof_marker_span_id_witness :
  exists marker, proof_marker scenario_registry 0 (repeat 7 16) (repeat 9 16) "logs:patterns" = Ok marker /\
    length (sp_span_id (span_of marker)) = 16%nat /\ ~ span_ids_ok (span_of marker).
Proof.
  eexists. split; [vm_compute; reflexivity|].
  apply (proof_marker_span_id scenario_registry 0 (repeat 7 16) (repeat 9 16) "logs:patterns"); [vm_compute; reflexivity|].
  split; [reflexivity|]. repeat constructor; unfold is_byte; lia.
Defined.

End ScenarioOutcomes.
