(* ===== verification/ScenarioTraces.v ===== *)
(** The evidence the scenario runner accepts (cli/src/scenario_runner.rs): the
    predicates on traces and replies that decide a scenario, the text it reads
    from other programs, and the loop that waits for evidence until a deadline.
    [parse_json] is serde_json's parser. *)

From S2P Require Import Prelude Values Propagation Telemetry.
Import Text Serde Telemetry Propagation.

Local Open Scope result_scope.

(** ** JSON access *)

Definition as_array (v : json) : option (list json) := match v with JArr l => Some l | _ => None end.
Definition as_bool (v : json) : option bool := match v with JBool b => Some b | _ => None end.
Definition as_i64 : json -> option Z := as_int i64_min i64_max.
Definition as_u64 : json -> option Z := as_int 0 (u64_modulus - 1).
(** [value.pointer("/a/b")] for keys that are no array indices *)
Definition pointer (path : list string) (v : json) : option json :=
  foldl (fun found key => found ≫= jget key) (Some v) path.
Definition is_some_and {A} (o : option A) (p : A -> bool) : bool := match o with Some a => p a | None => false end.
Definition is_none_or {A} (o : option A) (p : A -> bool) : bool := match o with Some a => p a | None => true end.
Definition field_is (key value : string) (v : json) : bool := opt_is (jget_str key v) value.
Definition opt_Z_is (o : option Z) (n : Z) : bool := is_some_and o (Z.eqb n).
Definition ends_with (suffix s : string) : bool := starts_with (str_rev suffix) (str_rev s).
(** [a == b] on optional texts *)
Definition same_opt (a b : option string) : bool :=
  match a, b with Some x, Some y => String.eqb x y | None, None => true | _, _ => false end.

Definition is_nil {A} (l : list A) : bool := match l with [] => true | _ => false end.

Section evidence.
Context (parse_json : string -> option json).

(** ** Spans *)

Definition trace_spans (data : json) : option (list json) := pointer ["trace"; "spans"] data ≫= as_array.

Definition span_attributes (span : json) : option json :=
  attributes ← jget "attributes" span;
  match attributes with
  | JStr raw => match parse_json raw with Some (JObj fields) => Some (JObj fields) | _ => None end
  | JObj fields => Some (JObj fields)
  | _ => None
  end.
Definition span_attribute_string (span : json) (key : string) : option string :=
  attributes ← span_attributes span; jget_str key attributes.
Definition span_attribute_i64 (span : json) (key : string) : option Z :=
  attributes ← span_attributes span; jget key attributes ≫= as_i64.

Definition span_is (span : json) (service name : string) : bool := field_is "service" service span && field_is "name" name span.
Definition span_parent_id (span : json) : option string := jget_str "parentSpanId" span.
Definition child_of (child parent : json) : bool := same_opt (jget_str "parentSpanId" child) (jget_str "spanId" parent).
Definition linked_to (child parent : json) : bool :=
  match jget_str "traceId" parent, jget_str "spanId" parent with
  | Some parent_trace_id, Some parent_span_id =>
      is_some_and (jget "typedLinks" child ≫= as_array)
        (existsb (fun link => field_is "traceId" parent_trace_id link && field_is "spanId" parent_span_id link))
  | _, _ => false
  end.
Definition causally_after (child parent : json) : bool := child_of child parent || linked_to child parent.

Definition attribute_is (span : json) (key value : string) : bool := opt_is (span_attribute_string span key) value.

Definition browser_consumer_baggage_matches (span : json) : bool :=
  forallb (fun '(key, expected) => attribute_is span key expected)
    [("tenant.id", "tenant-acme"); ("user.tier", "standard"); ("customer.segment", "standard");
     ("region", "us-east-1"); ("request.priority", "normal")].

(** The attributes as the older predicates read them: a text is parsed, any
    other value is taken as it is. *)
Definition raw_attributes (span : json) : option json :=
  attributes ← jget "attributes" span;
  match attributes with JStr raw => parse_json raw | _ => Some attributes end.
Definition raw_attribute_is (span : json) (key value : string) : bool :=
  opt_is (attributes ← raw_attributes span; jget_str key attributes) value.

(** ** Traces *)

Definition any_span (data : json) (p : json -> bool) : bool := is_some_and (trace_spans data) (existsb p).

Definition pricing_trace_matches (data : json) (expected_message_type : string) : bool :=
  any_span data (fun span => span_is span "checkout" "checkout.quote_stream") &&
  any_span data (fun span => span_is span "pricing" "pricing.quote_stream.send" &&
    raw_attribute_is span "rpc.message.type" expected_message_type).

Definition checkout_span_present (data : json) : bool := any_span data (fun span => span_is span "checkout" "checkout").

(** A payment authorisation with a given outcome *)
Definition payment_span (span : json) (status : string) : bool :=
  field_is "service" "payment" span && is_some_and (jget_str "name" span) (ends_with "/Authorize") &&
  attribute_is span "payment.operation" "authorize" && attribute_is span "payment.operation.status" status.

Definition payment_failure_trace_matches (data : json) : bool :=
  any_span data (fun span => span_is span "checkout" "http.server.request" &&
    opt_Z_is (span_attribute_i64 span "http.response.status_code") 402) &&
  any_span data (fun span => span_is span "checkout" "checkout") &&
  any_span data (fun span => payment_span span "PAYMENT_OPERATION_STATUS_DECLINED").

Definition inventory_trace_matches (data : json) (require_postgres : bool) : bool :=
  let inventory_seen := any_span data (fun span => span_is span "inventory" "inventory.reserve") in
  if negb require_postgres then inventory_seen
  else inventory_seen && any_span data (fun span => span_is span "inventory" "postgres.query" &&
    raw_attribute_is span "db.system.name" "postgresql").

Definition inventory_failure_trace_matches (data : json) : bool :=
  is_some_and (trace_spans data) (fun spans =>
    is_some_and (List.find (fun span => span_is span "inventory" "http.server.request" &&
      opt_Z_is (span_attribute_i64 span "http.response.status_code") 503 &&
      field_is "statusCode" "STATUS_CODE_ERROR" span && attribute_is span "error.type" "http.server.error") spans)
    (fun http =>
    is_some_and (List.find (fun span => span_is span "inventory" "inventory.reserve" &&
      field_is "statusCode" "STATUS_CODE_ERROR" span && attribute_is span "error.type" "reservation_rejected") spans)
    (fun reserve =>
    is_some_and (List.find (fun span => span_is span "inventory" "postgres.query" &&
      attribute_is span "db.query.summary" "reserve inventory row" &&
      attribute_is span "db.system.name" "postgresql") spans)
    (fun database => same_opt (span_parent_id reserve) (span_parent_id http) && child_of database reserve)))).

(** The checkout span reached from one web request: each hop is the first span
    of its kind that follows the one before. *)
Definition checkout_after (spans : list json) (web_request : json) : option json :=
  if negb (span_is web_request "web" "POST" && attribute_is web_request "http.request.method" "POST" &&
           is_some_and (span_attribute_string web_request "url.full") (str_contains "/__storefront/graphql"))
  then None
  else
    web_server ← List.find (fun span => span_is span "playground-web" "web.ssr.request" &&
      attribute_is span "http.request.method" "POST" && attribute_is span "url.path" "/__storefront/graphql" &&
      causally_after span web_request) spans;
    storefront_http ← List.find (fun span => span_is span "storefront" "http.server.request" &&
      attribute_is span "http.request.method" "POST" && attribute_is span "http.route" "/graphql" &&
      opt_Z_is (span_attribute_i64 span "http.response.status_code") 200 && causally_after span web_server) spans;
    storefront_checkout ← List.find (fun span => span_is span "storefront" "graphql.resolver" &&
      attribute_is span "graphql.field.name" "Mutation.checkout" && causally_after span storefront_http) spans;
    List.find (fun span => span_is span "checkout" "checkout" && causally_after span storefront_checkout) spans.

(** A consumer's span of the paid order *)
Definition consumer_span (name destination : string) (producer span : json) : bool :=
  span_is span "fulfillment" name && attribute_is span "messaging.system" "rabbitmq" &&
  attribute_is span "messaging.destination.name" destination && attribute_is span "messaging.operation.name" "process" &&
  attribute_is span "commerce.event.type" "order.paid" && browser_consumer_baggage_matches span &&
  causally_after span producer.

Definition browser_trace_matches (data : json) : bool :=
  is_some_and (trace_spans data) (fun spans =>
    let browser_test := existsb (fun span => span_is span "playground-web-tests" "test.case" &&
      attribute_is span "test.case.result.status" "pass") spans in
    is_some_and (find_map (checkout_after spans) spans) (fun checkout =>
      let payment := existsb (fun span =>
        payment_span span "PAYMENT_OPERATION_STATUS_SUCCEEDED" && causally_after span checkout) spans in
      let inventory := existsb (fun span =>
        span_is span "inventory" "inventory.reserve" && causally_after span checkout) spans in
      is_some_and (List.find (fun span => span_is span "checkout" "checkout.outbox.publish" &&
        attribute_is span "messaging.system" "rabbitmq" &&
        attribute_is span "messaging.destination.name" "commerce.events" &&
        attribute_is span "messaging.operation.name" "send" &&
        attribute_is span "commerce.event.type" "order.paid" && causally_after span checkout) spans)
      (fun producer =>
        let fulfillment := existsb (consumer_span "fulfillment.orders process" "fulfillment.orders" producer) spans in
        let analytics := existsb (consumer_span "analytics.events process" "analytics.events" producer) spans in
        browser_test && payment && inventory && fulfillment && analytics))).

(** The traces two waiting loops look for themselves *)
Definition storefront_pricing_trace_matches (data : json) : bool :=
  any_span data (field_is "service" "storefront") &&
  any_span data (fun span => field_is "service" "pricing" span && field_is "name" "pricing.quote" span).

Definition recommendation_trace_matches (minimum_catalog_spans : nat) (data : json) : bool :=
  is_some_and (trace_spans data) (fun spans =>
    existsb (fun span => span_is span "recommendation" "recommend") spans &&
    (minimum_catalog_spans <=? length (List.filter (fun span =>
      span_is span "recommendation" "catalog.graphql.recommendations") spans))%nat).

(** ** Replies *)

Definition no_graphql_errors (body : json) : bool :=
  is_none_or (jget "errors" body) (fun errors => is_none_or (as_array errors) is_nil).

Definition ensure_graphql_success (label : string) (body : json) : result string unit :=
  ensure (no_graphql_errors body) (label +:+ " returned GraphQL errors") ;;
  ensure (is_some_and (pointer ["data"; "products"; "items"] body ≫= as_array) (fun items => negb (is_nil items)))
    (label +:+ " returned no product data").

Definition graphql_operation_suffix (evidence_id : string) : string :=
  str_map (fun c => if is_alphanumeric c then c else "_"%char) evidence_id.

Definition validate_parallax_mode (vars : Vars) : result string bool :=
  let mode := default "required" (vars "SCENARIO_PARALLAX_MODE") in
  if String.eqb mode "required" then Ok true
  else if String.eqb mode "skip" then Ok false
  else Err ("SCENARIO_PARALLAX_MODE must be required or skip, got " +:+ mode).

Definition is_null (v : json) : bool := match v with JNull => true | _ => false end.

Definition validate_pricing_stream_response (label : string) (body : json) (validation : string) : result string unit :=
  if one_of validation ["clean"; "cancelled"] then
    ensure (is_none_or (jget "error" body) is_null) (label +:+ ": response contained an error") ;;
    ensure (opt_Z_is (jget "streamed_quotes" body ≫= as_u64) 1)
      (label +:+ ": response did not prove one delivered quote message") ;;
    ensure (is_some_and (jget "cancelled" body ≫= as_bool) (Bool.eqb (String.eqb validation "cancelled")))
      (label +:+ ": response cancellation flag was wrong")
  else if String.eqb validation "unknown" then
    ensure (field_is "error" "product_not_found" body) (label +:+ ": response did not prove the pricing stream rejection") ;;
    ensure (is_some_and (jget_str "message" body) (fun message => negb (is_blank message)))
      (label +:+ ": pricing stream rejection omitted a message")
  else Err (label +:+ ": unknown pricing stream validation " +:+ validation).

Definition is_success (status : Z) : bool := (200 <=? status) && (status <? 300).
Definition is_object (v : json) : bool := match v with JObj _ => true | _ => false end.
Definition is_array (v : json) : bool := match v with JArr _ => true | _ => false end.

Definition ensure_recommendation_response (label sku : string) (status : Z) (body : json) (expected_workers : option Z) :
    result string unit :=
  ensure (is_success status) (label +:+ ": recommendation failed") ;;
  ensure (field_is "sku" sku body && is_some_and (jget_str "tenant_id" body) (fun tenant => negb (is_empty tenant)) &&
          field_is "source" "catalog-graphql" body && is_some_and (jget "product" body) is_object &&
          is_some_and (jget "products" body) is_array && is_some_and (jget "variants" body) is_array &&
          is_some_and (jget "recommended" body) is_array)
    (label +:+ ": response did not prove a catalog-backed recommendation") ;;
  match expected_workers with
  | Some expected => ensure (opt_Z_is (pointer ["chaos"; "stampede_workers"] body ≫= as_u64) expected)
      (label +:+ ": response did not prove stampede_workers=" +:+ show_Z expected)
  | None => Ok tt
  end.

Definition ensure_recommendation_normal (label : string) (body : json) : result string unit :=
  ensure (opt_Z_is (pointer ["chaos"; "slow_ms"] body ≫= as_u64) 0 &&
          opt_Z_is (pointer ["chaos"; "leak_kb"] body ≫= as_u64) 0 &&
          opt_Z_is (pointer ["chaos"; "stampede_workers"] body ≫= as_u64) 0)
    (label +:+ ": normal recommendation carried chaos controls").

(** ** Text *)

Definition newline_char : ascii := ascii_of_nat 10.
(** [text.lines()]: a line feed ends a line, and takes a carriage return before
    it along; what follows the last one is a line if it is not empty. *)
Definition strip_cr (line : string) : string :=
  match str_rev line with String a r => if (byte_of a =? 13)%N then str_rev r else line | "" => line end.
Fixpoint lines_of (parts : list string) : list string :=
  match parts with
  | [] => []
  | [final] => if is_empty final then [] else [final]
  | part :: rest => strip_cr part :: lines_of rest
  end.
Definition lines (text : string) : list string := lines_of (split_on newline_char text).

Definition CANARY_EMAIL : string := "alice@example.com".
Definition CANARY_TOKEN : string := "sk-live-CANARY1234567890".
Definition CANARY_CARD : string := "4111111111111111".
Definition CANARY_JWT : string := "eyJhbGciOiJIUzI1NiJ9.CANARY.sig".

Fixpoint each_needle (label lowered : string) (needles : list string) : result string unit :=
  match needles with
  | [] => Ok tt
  | needle :: rest =>
      ensure (negb (str_contains (to_ascii_lowercase needle) lowered))
        (label +:+ ": redaction canary leaked (" +:+ String.substring 0 16 needle +:+ ")") ;;
      each_needle label lowered rest
  end.
Definition assert_no_canary (label text : string) : result string unit :=
  each_needle label (to_ascii_lowercase text) [CANARY_EMAIL; CANARY_TOKEN; CANARY_CARD; CANARY_JWT].

(** Single quotes doubled, between single quotes *)
Fixpoint double_quotes (s : string) : string :=
  match s with
  | "" => ""
  | String a rest => if Ascii.eqb a "'" then String a (String a (double_quotes rest)) else String a (double_quotes rest)
  end.
Definition sql_literal (value : string) : string := "'" +:+ double_quotes value +:+ "'".

Definition tabular_row (output : string) : option (list string) :=
  line ← List.find (fun line => negb (is_empty line) && negb (starts_with "NOTICE:" line)) (map trim (rev (lines output)));
  Some (split_on (ascii_of_nat 9) line).

(** The durable state a declined payment must leave *)
Definition payment_failure_row (row : list string) : bool :=
  match row with
  | [attempt; status; code; order; order_status; payment; failure] =>
      String.eqb attempt "failed" && String.eqb status "402" && String.eqb code "payment_declined" &&
      negb (is_empty order) && String.eqb order_status "cancelled" && String.eqb payment "failed" &&
      String.eqb failure "payment_failure_reason_declined"
  | _ => false
  end.

(** The part of a text after the first occurrence of a pattern *)
Fixpoint after_first (pattern s : string) : option string :=
  if starts_with pattern s then Some (String.substring (String.length pattern) (String.length s) s)
  else match s with "" => None | String _ rest => after_first pattern rest end.

(** The text up to the first white space *)
Fixpoint word (s : string) : string :=
  match s with "" => "" | String a rest => if starts_white s then "" else String a (word rest) end.
Definition parse_invocation_id (text : string) : option string :=
  rest ← find_map (after_first "Parallax invocation id:") (lines text);
  non_empty (Some (word (trim_start rest))).

Definition parse_json_output (text : string) : option json :=
  match parse_json (trim text) with
  | Some value => Some value
  | None => find_map (fun line => parse_json (trim line)) (rev (lines text))
  end.

(** The reference [@e<digits>] on the first line that has every needle *)
Fixpoint digits_prefix (s : string) : string :=
  match s with "" => "" | String a rest => if is_digit a then String a (digits_prefix rest) else "" end.
Definition ui_snapshot_ref (snapshot : string) (needles : list string) : option string :=
  find_map (fun line =>
    if negb (forallb (fun needle => str_contains needle line) needles) then None
    else rest ← after_first "ref=e" line;
         digits ← non_empty (Some (digits_prefix rest));
         Some ("@e" +:+ digits)) (lines snapshot).

(** ** Issues *)

Definition hex_eq : string -> string -> bool := eq_ignore_ascii_case.

Definition first_issue (data : json) : option string :=
  items ← pointer ["issues"; "items"] data ≫= as_array;
  item ← head items;
  non_empty (jget_str "fingerprint" item).

Definition issue_last_trace (service trace_id : string) (data : json) : option (string * Z) :=
  items ← pointer ["issues"; "items"] data ≫= as_array;
  find_map (fun item =>
    last_trace ← jget_str "lastTraceId" item;
    if negb (hex_eq last_trace trace_id) then None
    else
      found ← jget_str "service" item;
      if negb (String.eqb found service) then None
      else
        fingerprint ← non_empty (jget_str "fingerprint" item);
        event_count ← jget "eventCount" item ≫= as_i64;
        Some (fingerprint, event_count)) items.

Definition issue_has_status (expected : string) (data : json) : bool :=
  opt_is (pointer ["issue"; "status"] data ≫= as_str) expected.

Definition issue_regressed (occurrence_trace_id : string) (previous_event_count : Z) (data : json) : bool :=
  let issue := jget "issue" data in
  let status : option string := row ← issue; jget_str "status" row in
  let event_count := default 0 (row ← issue; jget "eventCount" row ≫= as_i64) in
  let last_trace := default "" (row ← issue; jget_str "lastTraceId" row) in
  let latest_trace := default "" (row ← issue; pointer ["latestEvent"; "traceId"] row ≫= as_str) in
  opt_is status "regressed" && (hex_eq last_trace occurrence_trace_id || hex_eq latest_trace occurrence_trace_id) &&
  (previous_event_count <? event_count).

(** ** Fulfillment and analytics *)

Definition fulfillment_complete (require_notification : bool) (status : Z) (body : json) : bool :=
  is_success status && is_some_and (jget "ready" body ≫= as_bool) (fun b => b) &&
  field_is "fulfillment_status" "completed" body &&
  (negb require_notification || is_some_and (jget "notification_deliveries" body ≫= as_u64) (Z.leb 1)).

Definition browser_event (trace_id : string) (status : Z) (body : json) : option json :=
  if negb (is_success status && no_graphql_errors body) then None
  else
    events ← pointer ["data"; "analyticsEvents"] body ≫= as_array;
    List.find (fun event => field_is "eventName" "order.paid" event && field_is "source" "fulfillment" event &&
      field_is "traceId" trace_id event && is_some_and (jget_str "entityId" event) (fun id => negb (is_empty id))) events.

End evidence.

(** ** Waiting *)

(** A waiting loop: it asks, looks at the answer, gives up when the clock has
    reached the deadline, and sleeps.  [look] returns what the loop keeps as the
    last answer, and the evidence if the answer has it.  [None] is a loop that
    is still waiting when the fuel is used up. *)
Section polling.
Context {R L B : Type} (look : R -> L -> L * option B) (answers : nat -> R) (clock : nat -> Z) (deadline : Z).

Fixpoint poll (fuel i : nat) (last : L) : option (result L B) :=
  match fuel with
  | O => None
  | S fuel' =>
      let '(last', found) := look (answers i) last in
      match found with
      | Some b => Some (Ok b)
      | None => if deadline <=? clock i then Some (Err last') else poll fuel' (S i) last'
      end
  end.
End polling.

(** How the loops look: those on traces skip a failed query and keep the last
    data, the issue loops keep the error, the row loop asks the database. *)
Definition look_trace (matches : json -> bool) (answer : result string json) (last : json) : json * option unit :=
  match answer with
  | Ok data => (data, if matches data then Some tt else None)
  | Err _ => (last, None)
  end.
Definition look_issue {B} (find : json -> option B) (answer : result string json) (_ : json) : json * option B :=
  match answer with
  | Ok data => (data, find data)
  | Err error => (JObj [("error", JStr error)], None)
  end.
(** A query that fails ends the wait for a row. *)
Definition look_row (answer : result string string) (last : string) : string * option (result string (list string)) :=
  match answer with
  | Ok output => (output, option_map Ok (tabular_row output))
  | Err error => (last, Some (Err error))
  end.

(** ** What waiting gives *)

Section polling_outcome.
Context {R L B : Type} (look : R -> L -> L * option B) (answers : nat -> R) (clock : nat -> Z) (deadline : Z).

(** Whether an answer has the evidence does not depend on the earlier ones. *)
Context (found : R -> option B) (Hlook : forall r l, (look r l).2 = found r).

(** From round [i] on: the first evidence ends the wait with success, unless a
    round without evidence finds the deadline reached before. *)
Definition settles_with (i n : nat) (out : result L B) : Prop :=
  match out with
  | Ok b => exists k, (i <= k <= i + n)%nat /\ found (answers k) = Some b /\
      forall j, (i <= j < k)%nat -> found (answers j) = None /\ clock j < deadline
  | Err _ => exists k, (i <= k <= i + n)%nat /\ deadline <= clock k /\ found (answers k) = None /\
      forall j, (i <= j < k)%nat -> found (answers j) = None /\ clock j < deadline
  end.

Lemma poll_settles n i last :
  deadline <= clock (i + n)%nat ->
  exists out, poll look answers clock deadline (S n) i last = Some out /\ settles_with i n out.
Proof using Hlook.
  revert i last. induction n as [|n IH]; intros i last Hd; cbn [poll];
    pose proof (Hlook (answers i) last) as Hf; destruct (look (answers i) last) as [last' f]; simpl in Hf; subst f.
  - rewrite Nat.add_0_r in Hd. destruct (found (answers i)) as [b|] eqn:Ef.
    + eexists. split; [done|]. exists i. split_and!; [lia|lia|done|intros; lia].
    + destruct (Z.leb_spec deadline (clock i)); [|lia]. eexists. split; [done|]. exists i.
      split_and!; [lia|lia|done|done|intros; lia].
  - destruct (found (answers i)) as [b|] eqn:Ef.
    { eexists. split; [done|]. exists i. split_and!; [lia|lia|done|intros; lia]. }
    destruct (Z.leb_spec deadline (clock i)) as [Hc|Hc].
    { eexists. split; [done|]. exists i. split_and!; [lia|lia|done|done|intros; lia]. }
    destruct (IH (S i) last') as (out & Hout & Hs); [by rewrite Nat.add_succ_comm|].
    exists out. split; [exact Hout|]. assert (Hearlier : forall k j, (i <= j < k)%nat ->
      (forall j, (S i <= j < k)%nat -> found (answers j) = None /\ clock j < deadline) ->
      found (answers j) = None /\ clock j < deadline).
    { intros k j Hj H. destruct (decide (j = i)) as [->|]; [done|]. apply H. lia. }
    destruct out as [b|l]; destruct Hs as (k & Hk & Hs); exists k; split; try lia; naive_solver.
Qed.
End polling_outcome.

(** A scenario that waits for a trace always comes to an end once the clock
    passes its deadline, and it succeeds only on data that matches: with the
    first answer that does, every earlier one having failed or lacked the
    evidence while time remained. *)
Theorem trace_wait_settles matches answers clock deadline n :
  deadline <= clock n ->
  exists out, poll (look_trace matches) answers clock deadline (S n) 0 JNull = Some out /\
    match out with
    | Ok _ => exists k data, (k <= n)%nat /\ answers k = Ok data /\ matches data = true /\
        forall j, (j < k)%nat -> clock j < deadline /\ forall d, answers j = Ok d -> matches d = false
    | Err _ => exists k, (k <= n)%nat /\ deadline <= clock k /\
        forall j d, (j <= k)%nat -> answers j = Ok d -> matches d = false
    end.
Proof.
  intros Hd.
  set (found := fun r : result string json => match r with Ok d => if matches d then Some tt else None | Err _ => None end).
  assert (Hnone : forall r, found r = None -> forall d, r = Ok d -> matches d = false).
  { intros r Hr d ->. simpl in Hr. by destruct (matches d). }
  destruct (poll_settles (look_trace matches) answers clock deadline found
    ltac:(by intros [d|e] l) n 0 JNull Hd) as (out & Hout & Hs).
  exists out. split; [exact Hout|]. destruct out as [[]|l]; simpl in Hs.
  - destruct Hs as (k & Hk & Hf & Hb). unfold found in Hf. destruct (answers k) as [d|e] eqn:Ek; [|done].
    exists k, d. split_and!; [lia|done|by destruct (matches d)|]. intros j Hj. destruct (Hb j) as [Hn Hc]; [lia|].
    split; [done|]. by apply Hnone.
  - destruct Hs as (k & Hk & Hc & Hf & Hb). exists k. split_and!; [lia|done|]. intros j d Hj.
    destruct (decide (j = k)) as [->|]; [by apply Hnone|]. destruct (Hb j) as [Hn _]; [lia|]. by apply Hnone.
Qed.

Lemma trace_wait_settles_witness :
  exists out, poll (look_trace checkout_span_present) (fun _ => Err "down") (fun i => Z.of_nat i) 3 4 0 JNull = Some out /\
    match out with
    | Ok _ => exists k data, (k <= 3)%nat /\ Err "down" = Ok data /\ checkout_span_present data = true /\
        forall j, (j < k)%nat -> Z.of_nat j < 3 /\ forall d, Err "down" = Ok d -> checkout_span_present d = false
    | Err _ => exists k, (k <= 3)%nat /\ 3 <= Z.of_nat k /\
        forall (j : nat) d, (j <= k)%nat -> Err "down" = Ok d -> checkout_span_present d = false
    end.
Proof. apply (trace_wait_settles checkout_span_present (fun _ => Err "down") (fun i => Z.of_nat i) 3 3). done. Defined.

(** ** What the browser evidence means *)

Section browser.
Context (parse_json : string -> option json).

(** One span causes the next, both being in the trace. *)
Definition causes (spans : list json) (a b : json) : Prop := b ∈ spans /\ causally_after b a = true.

Lemma find_elem {A} (p : A -> bool) l a : List.find p l = Some a -> a ∈ l /\ p a = true.
Proof. intros H%List.find_some. by rewrite list_elem_of_In. Qed.

Lemma find_map_elem {A B} (f : A -> option B) l b : find_map f l = Some b -> exists a, a ∈ l /\ f a = Some b.
Proof.
  induction l as [|a l IH]; [done|]. simpl. destruct (f a) as [b'|] eqn:E.
  - intros [= ->]. exists a. split; [set_solver|done].
  - intros H. destruct (IH H) as (x & Hx & Hf). exists x. split; [set_solver|done].
Qed.

Lemma checkout_reached spans web checkout :
  checkout_after parse_json spans web = Some checkout ->
  span_is web "web" "POST" = true /\ span_is checkout "checkout" "checkout" = true /\ rtc (causes spans) web checkout.
Proof.
  unfold checkout_after. destruct (negb _) eqn:E; [done|]. intros H.
  apply bind_Some in H as (server & Hs%find_elem & H). apply bind_Some in H as (http & Hh%find_elem & H).
  apply bind_Some in H as (resolver & Hr%find_elem & Hc%find_elem).
  destruct Hs as [Hs1 Hs2], Hh as [Hh1 Hh2], Hr as [Hr1 Hr2], Hc as [Hc1 Hc2]. bool_inv. split_and!; [done..|].
  eapply rtc_l; [split; [exact Hs1|done]|]. eapply rtc_l; [split; [exact Hh1|done]|].
  eapply rtc_l; [split; [exact Hr1|done]|]. eapply rtc_l; [split; [exact Hc1|done]|]. apply rtc_refl.
Qed.

Lemma consumer_follows spans name destination producer :
  existsb (consumer_span parse_json name destination producer) spans = true ->
  exists span, span_is span "fulfillment" name = true /\ causes spans producer span.
Proof.
  intros (span & Hin & H)%existsb_exists. unfold consumer_span in H. bool_inv. exists span.
  split; [done|]. split; [by apply list_elem_of_In|done].
Qed.

(** A trace accepted as the browser's journey has one causal chain from a web
    request through checkout and the published event to each of its consumers,
    and checkout's payment and reservation hang off the same checkout span. *)
Theorem browser_journey_chain data :
  browser_trace_matches parse_json data = true ->
  exists spans web checkout producer fulfillment analytics payment reserve,
    trace_spans data = Some spans /\ web ∈ spans /\ span_is web "web" "POST" = true /\
    rtc (causes spans) web checkout /\ span_is checkout "checkout" "checkout" = true /\
    causes spans checkout payment /\ causes spans checkout reserve /\ span_is reserve "inventory" "inventory.reserve" = true /\
    causes spans checkout producer /\ span_is producer "checkout" "checkout.outbox.publish" = true /\
    causes spans producer fulfillment /\ span_is fulfillment "fulfillment" "fulfillment.orders process" = true /\
    causes spans producer analytics /\ span_is analytics "fulfillment" "analytics.events process" = true.
Proof.
  unfold browser_trace_matches. destruct (trace_spans data) as [spans|]; [|done]. cbn [is_some_and].
  destruct (find_map _ spans) as [checkout|] eqn:Ec; [|done]. cbn [is_some_and].
  destruct (List.find _ spans) as [producer|] eqn:Ep; [|done]. cbn [is_some_and]. intros H.
  apply find_map_elem in Ec as (web & Hweb & (Hw & Hck & Hpath)%checkout_reached). apply find_elem in Ep as [Hp1 Hp2].
  apply andb_true_iff in H as [H (analytics & Ha1 & Ha2)%consumer_follows].
  apply andb_true_iff in H as [H (fulfillment & Hf1 & Hf2)%consumer_follows].
  apply andb_true_iff in H as [H (reserve & Hr1%list_elem_of_In & Hr2)%existsb_exists].
  apply andb_true_iff in H as [_ (payment & Hy1%list_elem_of_In & Hy2)%existsb_exists].
  bool_inv. exists spans, web, checkout, producer, fulfillment, analytics, payment, reserve.
  unfold causes in *. split_and!; try done; tauto.
Qed.
End browser.

Section browser_sample.
Let span (id parent service name : string) (attributes : list (string * json)) : json :=
  JObj [("spanId", JStr id); ("parentSpanId", JStr parent); ("traceId", JStr "t"); ("service", JStr service);
        ("name", JStr name); ("attributes", JObj attributes)].
Let consumed (destination : string) : list (string * json) :=
  [("messaging.system", JStr "rabbitmq"); ("messaging.destination.name", JStr destination);
   ("messaging.operation.name", JStr "process"); ("commerce.event.type", JStr "order.paid");
   ("tenant.id", JStr "tenant-acme"); ("user.tier", JStr "standard"); ("customer.segment", JStr "standard");
   ("region", JStr "us-east-1"); ("request.priority", JStr "normal")].

Definition browser_sample : json := JObj [("trace", JObj [("spans", JArr [
  span "a" "" "playground-web-tests" "test.case" [("test.case.result.status", JStr "pass")];
  span "b" "a" "web" "POST" [("http.request.method", JStr "POST"); ("url.full", JStr "http://web/__storefront/graphql")];
  span "c" "b" "playground-web" "web.ssr.request" [("http.request.method", JStr "POST"); ("url.path", JStr "/__storefront/graphql")];
  span "d" "c" "storefront" "http.server.request"
    [("http.request.method", JStr "POST"); ("http.route", JStr "/graphql"); ("http.response.status_code", JNum 200)];
  span "e" "d" "storefront" "graphql.resolver" [("graphql.field.name", JStr "Mutation.checkout")];
  span "f" "e" "checkout" "checkout" [];
  span "g" "f" "payment" "playground.payment.v1.Payment/Authorize"
    [("payment.operation", JStr "authorize"); ("payment.operation.status", JStr "PAYMENT_OPERATION_STATUS_SUCCEEDED")];
  span "h" "f" "inventory" "inventory.reserve" [];
  span "i" "f" "checkout" "checkout.outbox.publish"
    [("messaging.system", JStr "rabbitmq"); ("messaging.destination.name", JStr "commerce.events");
     ("messaging.operation.name", JStr "send"); ("commerce.event.type", JStr "order.paid")];
  span "j" "i" "fulfillment" "fulfillment.orders process" (consumed "fulfillment.orders");
  span "k" "i" "fulfillment" "analytics.events process" (consumed "analytics.events")])])].
End browser_sample.

Lemma browser_journey_chain_witness :
  browser_trace_matches (fun _ => None) browser_sample = true /\
  exists spans web checkout, trace_spans browser_sample = Some spans /\ rtc (causes spans) web checkout.
Proof.
  split; [vm_compute; reflexivity|].
  destruct (browser_journey_chain (fun _ => None) browser_sample) as
    (spans & web & checkout & _ & _ & _ & _ & _ & Hs & _ & _ & Hp & _); [vm_compute; reflexivity|].
  by exists spans, web, checkout.
Defined.
