(* ===== verification/ScenarioMalformed.v ===== *)
(** Malformed propagation (cli/src/scenario_runner.rs, [malformed_propagation]):
    the two corpora of corrupt W3C carriers, the requests that carry them, and
    what the services of this repository make of them, by their own models: the
    notification endpoint rejects every carrier of its corpus and records
    nothing, and checkout still resolves the tenant of every carrier of its. *)

From S2P Require Import Prelude Values Propagation Telemetry Runtime CheckoutDomain CheckoutCart CheckoutApi NotifyService ScenarioTraces.
Import Text Serde Telemetry Propagation Effects CheckoutDomain CheckoutCart CheckoutApi NotifyStore
  NotifyWorker ScenarioTraces.

Definition MALFORMED_VALID_TRACE_ID : string := "4bf92f3577b34da6a3ce929d0e0e4736".
Definition MALFORMED_VALID_SPAN_ID : string := "00f067aa0ba902b7".
Definition MALFORMED_VALID_TRACESTATE : string := "playground=commerce".
Definition MALFORMED_VALID_BAGGAGE : string :=
  "tenant.id=tenant-acme,user.tier=standard,customer.segment=standard,region=us-east-1,request.priority=normal".

Record MalformedCarrier : Type := mkCarrier_ {
  mc_id : string; mc_traceparent : option string; mc_tracestate : option string; mc_baggage : option string }.

Definition traceparent_of (version trace span : string) : string :=
  version +:+ "-" +:+ trace +:+ "-" +:+ span +:+ "-01".
Definition malformed_valid_traceparent : string := traceparent_of "00" MALFORMED_VALID_TRACE_ID MALFORMED_VALID_SPAN_ID.

(** A carrier with the valid tracestate and baggage *)
Definition bad_traceparent (id : string) (traceparent : option string) : MalformedCarrier :=
  mkCarrier_ id traceparent (Some MALFORMED_VALID_TRACESTATE) (Some MALFORMED_VALID_BAGGAGE).

Definition malformed_checkout_corpus : list MalformedCarrier := [
  bad_traceparent "tp-bad-version" (Some (traceparent_of "ff" MALFORMED_VALID_TRACE_ID MALFORMED_VALID_SPAN_ID));
  bad_traceparent "tp-non-hex" (Some (traceparent_of "00" "zzzzzzzzzzzzzzzzzzzzzzzzzzzzzzzz" MALFORMED_VALID_SPAN_ID));
  bad_traceparent "tp-zero-trace" (Some (traceparent_of "00" "00000000000000000000000000000000" MALFORMED_VALID_SPAN_ID));
  bad_traceparent "tp-zero-span" (Some (traceparent_of "00" MALFORMED_VALID_TRACE_ID "0000000000000000"));
  bad_traceparent "tp-truncated" (Some "00-abc123");
  bad_traceparent "tp-missing" None;
  mkCarrier_ "ts-garbage" (Some malformed_valid_traceparent) (Some "!!!") (Some MALFORMED_VALID_BAGGAGE);
  mkCarrier_ "ts-missing" (Some malformed_valid_traceparent) None (Some MALFORMED_VALID_BAGGAGE);
  mkCarrier_ "baggage-junk-member" (Some malformed_valid_traceparent) (Some MALFORMED_VALID_TRACESTATE)
    (Some (MALFORMED_VALID_BAGGAGE +:+ ",junk-member-without-equals"));
  mkCarrier_ "baggage-missing" (Some malformed_valid_traceparent) (Some MALFORMED_VALID_TRACESTATE) None].

Definition malformed_notify_corpus : list MalformedCarrier := [
  bad_traceparent "tp-bad-version" (Some (traceparent_of "ff" MALFORMED_VALID_TRACE_ID MALFORMED_VALID_SPAN_ID));
  bad_traceparent "tp-zero-trace" (Some (traceparent_of "00" "00000000000000000000000000000000" MALFORMED_VALID_SPAN_ID));
  bad_traceparent "tp-missing" None;
  mkCarrier_ "ts-missing" (Some malformed_valid_traceparent) None (Some MALFORMED_VALID_BAGGAGE);
  mkCarrier_ "baggage-missing" (Some malformed_valid_traceparent) (Some MALFORMED_VALID_TRACESTATE) None;
  mkCarrier_ "baggage-junk-member" (Some malformed_valid_traceparent) (Some MALFORMED_VALID_TRACESTATE)
    (Some (MALFORMED_VALID_BAGGAGE +:+ ",junk-member-without-equals"));
  mkCarrier_ "baggage-duplicate-key" (Some malformed_valid_traceparent) (Some MALFORMED_VALID_TRACESTATE)
    (Some "tenant.id=tenant-acme,tenant.id=tenant-acme,user.tier=standard")].

(** One header from an optional value; [None] where the value is no header *)
Definition put_header (name : string) (value : option string) (h : headers) : option headers :=
  match value with
  | None => Some h
  | Some value => if header_text value then Some (header_insert name value h) else None
  end.

Definition malformed_headers (c : MalformedCarrier) : option headers :=
  h ← put_header "traceparent" (mc_traceparent c) [];
  h ← put_header "tracestate" (mc_tracestate c) h;
  h ← put_header "baggage" (mc_baggage c) h;
  put_header "x-tenant-id" (Some "tenant-acme") h.

Definition json_headers : headers := [("content-type", Some "application/json")].

(** The request of [notify_request], and its headers *)
Definition notify_body (event_key order_id : string) : json :=
  JObj [("tenant_id", JStr "tenant-acme"); ("event_key", JStr event_key); ("order_id", JStr order_id);
        ("channel", JStr "webhook"); ("payload", JObj [("case", JStr event_key)])].

(** What the scenario demands of the answer to a malformed carrier *)
Definition rejected_as_w3c (reply : Z * json) : bool :=
  (reply.1 =? 400) && str_contains "invalid W3C propagation" (default "" (jget_str "error" reply.2)).

Definition scenario_traceparent (trace_id span_id : string) : string := traceparent_of "00" trace_id span_id.
Definition scenario_headers (trace_id span_id tracestate : string) : option headers :=
  h ← put_header "traceparent" (Some (scenario_traceparent trace_id span_id)) json_headers;
  h ← put_header "tracestate" (Some tracestate) h;
  put_header "baggage" (Some MALFORMED_VALID_BAGGAGE) h.

(** [request[key] = value] for each control *)
Definition set_field (v : json) (field : string * json) : json :=
  match v with JObj fields => JObj (assoc_insert field.1 field.2 fields) | _ => v end.

(** The body of [checkout_http] *)
Definition checkout_body (sku : string) (quantity : Z) (token request_prefix invocation_id uuid : string)
    (controls : list (string * json)) : json :=
  foldl set_field (JObj [
    ("tenant_id", JStr "tenant-acme"); ("customer_id", JStr "customer-acme-ava");
    ("items", JArr [JObj [("sku", JStr sku); ("quantity", JNum quantity)]]); ("currency_code", JStr "USD");
    ("payment_method_token", JStr token); ("payment_method_type", JStr "card");
    ("request_id", JStr (request_prefix +:+ "-" +:+ invocation_id +:+ "-" +:+ uuid))]) controls.

(** ** Lemmas *)

Definition invalid_error (r : result string unit) : option string := match r with Err m => Some m | Ok _ => None end.

(** The endpoint answers an invalid carrier before it reaches the store. *)
Lemma invalid_carrier_rejected o s e w request h tenant message :
  resolve_http_tenant_identity h (nr_tenant_id request) = Ok tenant ->
  is_blank (nr_order_id request) = false -> one_of (nr_channel request) ["email"; "webhook"; "in_app"] = true ->
  validate_durable_context h = Err message ->
  notify_inner o s request h e w = (Ok (error_reply 400 ("invalid W3C propagation: " +:+ message)), w).
Proof.
  intros Ht Ho Hc Hv. unfold notify_inner. rewrite Ht. cbn [nr_order_id nr_channel with_tenant]. rewrite Ho, Hc. simpl.
  unfold pr_match, record_delivery, pr_bind, pr_lift. rewrite Hv. reflexivity.
Qed.

(** What a carrier of the notification corpus must satisfy, as one computation *)
Definition notify_case (c : MalformedCarrier) : bool :=
  match malformed_headers c with
  | None => false
  | Some h =>
      let h := json_headers ++ h in
      match resolve_http_tenant_identity h (Some "tenant-acme"), validate_durable_context h with
      | Ok _, Err _ => true
      | _, _ => false
      end
  end.

Lemma notify_cases : forallb notify_case malformed_notify_corpus = true.
Proof. vm_compute. reflexivity. Qed.

Lemma contains_self p s : str_contains p (p +:+ s) = true.
Proof.
  assert (H : starts_with p (p +:+ s) = true).
  { induction p as [|a p IH]; [by destruct s|]. rewrite str_append_cons. simpl. by rewrite Ascii.eqb_refl. }
  destruct (p +:+ s); simpl; by rewrite H.
Qed.

(** Every corrupt carrier sent to the notification endpoint, under any event key
    and whatever the service's state, is refused the way the scenario demands:
    with status 400 and the reason that its propagation is invalid.  The service
    has then read and written nothing and sent nothing. *)
Theorem malformed_notify_rejected o s e w c event_key :
  c ∈ malformed_notify_corpus ->
  exists h request reply,
    malformed_headers c = Some h /\
    read_notification_request (notify_body event_key "order-acme-1001") = Some request /\
    notify_inner o s request (json_headers ++ h) e w = (Ok reply, w) /\ rejected_as_w3c reply = true.
Proof.
  intros Hin. pose proof notify_cases as Hall. rewrite forallb_forall in Hall.
  apply list_elem_of_In, Hall in Hin. unfold notify_case in Hin.
  destruct (malformed_headers c) as [h|]; [|done]. exists h.
  destruct (resolve_http_tenant_identity (json_headers ++ h) (Some "tenant-acme")) as [tenant|] eqn:Ht; [|done].
  destruct (validate_durable_context (json_headers ++ h)) as [|message] eqn:Hv; [done|].
  eexists _, _. split_and!; [done|reflexivity|by eapply invalid_carrier_rejected|].
  unfold rejected_as_w3c, error_reply. simpl fst. cbn [jget_str jget snd assoc].
  apply (contains_self "invalid W3C propagation" (": " +:+ message)).
Qed.

Lemma malformed_notify_rejected_witness :
  "tp-missing" = mc_id (bad_traceparent "tp-missing" None) /\
  forall o s e w, exists h request reply,
    malformed_headers (bad_traceparent "tp-missing" None) = Some h /\
    read_notification_request (notify_body "malformed:tp-missing:1" "order-acme-1001") = Some request /\
    notify_inner o s request (json_headers ++ h) e w = (Ok reply, w) /\ rejected_as_w3c reply = true.
Proof.
  split; [reflexivity|]. intros o s e w.
  apply (malformed_notify_rejected o s e w (bad_traceparent "tp-missing" None) "malformed:tp-missing:1").
  unfold malformed_notify_corpus. set_solver.
Defined.

(** The control of the scenario passes the validation its carriers fail. *)
Lemma control_carrier_accepted :
  match scenario_headers MALFORMED_VALID_TRACE_ID MALFORMED_VALID_SPAN_ID "playground=malformed-proof" with
  | Some h => validate_durable_context h
  | None => Err ""
  end = Ok tt.
Proof. vm_compute. reflexivity. Qed.

Definition checkout_case (c : MalformedCarrier) : bool :=
  match malformed_headers c with
  | None => false
  | Some h => match resolve_http_tenant_id (json_headers ++ h) "tenant-acme" with
              | Ok tenant => String.eqb tenant "tenant-acme"
              | Err _ => false
              end
  end.

Lemma checkout_cases : forallb checkout_case malformed_checkout_corpus = true.
Proof. vm_compute. reflexivity. Qed.

(** The checkout request that carries a corrupt carrier is a request the
    checkout service takes: its body decodes and validates, and its tenant
    resolves, so that only the propagation is at fault. *)
Lemma malformed_checkout_isolated c prefix invocation_id uuid :
  c ∈ malformed_checkout_corpus ->
  bounded_identifier (prefix +:+ "-" +:+ invocation_id +:+ "-" +:+ uuid) = true ->
  exists h input,
    malformed_headers c = Some h /\
    read_checkout_input (checkout_body "WIDGET-1" 1 "tok_visa" prefix invocation_id uuid []) = Some input /\
    resolve_http_tenant_id (json_headers ++ h) (in_tenant_id input) = Ok "tenant-acme" /\
    validate_input input = Ok tt.
Proof.
  intros Hin Hid. pose proof checkout_cases as Hall. rewrite forallb_forall in Hall.
  apply list_elem_of_In, Hall in Hin. unfold checkout_case in Hin. destruct (malformed_headers c) as [h|]; [|done].
  destruct (resolve_http_tenant_id (json_headers ++ h) "tenant-acme") as [tenant|] eqn:Ht; [|done].
  apply String.eqb_eq in Hin as ->. eexists _, _. split_and!; [done|reflexivity|done|].
  unfold validate_input. cbn [in_tenant_id in_customer_id in_session_id in_cart_id in_request_id in_promotion_code
    in_currency_code in_items bounded_option]. rewrite Hid. reflexivity.
Qed.
