(* ===== verification/ScenarioWaits.v ===== *)
(** The waiting loops of the scenario runner (cli/src/scenario_runner.rs), each
    composed of the loop of ScenarioTraces, its deadline and its evidence, and
    two scenarios decided by such a wait: the cardinality stress and the issue
    regression.  The [n]-th answer of the product and the [n]-th reading of the
    clock, in milliseconds, are functions of [n]; a deadline does not overflow
    the clock. *)

From S2P Require Import Prelude Values Telemetry RequestShapes ScenarioCorpus ScenarioTraces.
Import Text Serde Telemetry Shapes ShapesTraces ShapesCorpora ScenarioRegistry ScenarioTraces.

Local Open Scope result_scope.

(** Why a wait ends without its evidence: a setting, a query, the deadline with
    the last answer *)
Inductive wait_error {L : Type} : Type :=
| SettingInvalid (message : string)
| QueryFailed (error : string)
| Expired (last : L).
Arguments wait_error : clear implicits.

Section waits.
Context (parse_json : string -> option json) (print_json : json -> string) (vars : Vars).
Context (clock : nat -> Z) (start : Z) (fuel : nat).

(** A loop with a deadline some seconds after its start; [None] is a loop that
    is still waiting when the fuel is used up. *)
Definition wait_until {R L B} (look : R -> L -> L * option B) (answers : nat -> R) (seconds : Z) (last : L) :
    option (result (wait_error L) B) :=
  option_map (fun out => match out with Ok b => Ok b | Err l => Err (Expired l) end)
    (poll look answers clock (start + 1000 * seconds) fuel 0 last).

(** ** Traces *)

(** Both settings are read before the first query. *)
Definition wait_for_trace (matches : json -> bool) (answers : nat -> result string json) :
    option (result (wait_error json) unit) :=
  match positive_env vars "PARALLAX_TRACE_TIMEOUT_SECONDS" 30, positive_env vars "PARALLAX_TRACE_POLL_SECONDS" 1 with
  | Err message, _ => Some (Err (SettingInvalid message))
  | _, Err message => Some (Err (SettingInvalid message))
  | Ok timeout, Ok _ => wait_until (look_trace matches) answers timeout JNull
  end.

Definition wait_for_checkout_span := wait_for_trace checkout_span_present.
Definition wait_for_payment_failure_trace := wait_for_trace (payment_failure_trace_matches parse_json).
Definition wait_for_inventory_failure_trace := wait_for_trace (inventory_failure_trace_matches parse_json).
Definition wait_for_browser_trace := wait_for_trace (browser_trace_matches parse_json).
Definition wait_for_storefront_pricing_trace := wait_for_trace storefront_pricing_trace_matches.
Definition wait_for_inventory_trace (require_postgres : bool) :=
  wait_for_trace (fun data => inventory_trace_matches parse_json data require_postgres).
Definition wait_for_recommendation_trace (minimum_catalog_spans : nat) :=
  wait_for_trace (recommendation_trace_matches minimum_catalog_spans).
Definition wait_for_pricing_trace (validation : string) :=
  wait_for_trace (fun data =>
    pricing_trace_matches parse_json data (if String.eqb validation "unknown" then "ERROR" else "SENT")).

(** ** Issues *)

Definition parallax_issue_timeout : Z :=
  match vars "PARALLAX_TRACE_TIMEOUT_SECONDS" ≫= parse_u64 with
  | Some value => if 0 <? value then value else 30
  | None => 30
  end.

(** [unwrap_or_else(|_| json!({}))]: a failed query has no issues. *)
Definition look_lenient {B} (find : json -> option B) (answer : result string json) (_ : unit) : unit * option B :=
  (tt, find (match answer with Ok data => data | Err _ => JObj [] end)).

Definition wait_for_issue (answers : nat -> result string json) :=
  wait_until (look_lenient first_issue) answers parallax_issue_timeout tt.

Definition first_issue_of (service : string) (data : json) : option (string * string) :=
  items ← pointer ["issues"; "items"] data ≫= as_array;
  item ← head items;
  if negb (field_is "service" service item) then None
  else fingerprint ← non_empty (jget_str "fingerprint" item); Some (service, fingerprint).
Definition wait_for_issue_scoped (service : string) (answers : nat -> result string json) :=
  wait_until (look_lenient (first_issue_of service)) answers parallax_issue_timeout tt.

(** The first row whose printed form has the needle, if it has a fingerprint *)
Definition issue_containing (needle : string) (data : json) : option string :=
  rows ← pointer ["issues"; "items"] data ≫= as_array;
  row ← List.find (fun row => str_contains (to_ascii_lowercase needle) (to_ascii_lowercase (print_json row))) rows;
  jget_str "fingerprint" row.
Definition wait_for_issue_containing (needle : string) (answers : nat -> result string json) :=
  wait_until (look_lenient (issue_containing needle)) answers parallax_issue_timeout tt.

Definition wait_for_issue_last_trace (service trace_id : string) (answers : nat -> result string json) :=
  wait_until (look_issue (fun data =>
    '(fingerprint, event_count) ← issue_last_trace service trace_id data; Some (service, fingerprint, event_count)))
    answers parallax_issue_timeout (JObj []).
Definition kept_if (p : json -> bool) (data : json) : option json := if p data then Some data else None.
Definition wait_for_issue_status (expected : string) (answers : nat -> result string json) :=
  wait_until (look_issue (kept_if (issue_has_status expected))) answers parallax_issue_timeout (JObj []).
Definition wait_for_issue_regressed (occurrence_trace_id : string) (previous_event_count : Z)
    (answers : nat -> result string json) :=
  wait_until (look_issue (kept_if (issue_regressed occurrence_trace_id previous_event_count)))
    answers parallax_issue_timeout (JObj []).

(** ** Durable state *)

Definition async_timeout : result string Z := positive_env vars "ASYNC_VERIFY_TIMEOUT_SECONDS" 30.

Definition wait_for_postgres_row (answers : nat -> result string string) :
    option (result (wait_error string) (list string)) :=
  match async_timeout with
  | Err message => Some (Err (SettingInvalid message))
  | Ok timeout =>
      option_map (fun out => match out with
        | Ok (Ok row) => Ok row
        | Ok (Err error) => Err (QueryFailed error)
        | Err e => Err e
        end) (wait_until look_row answers timeout "")
  end.

(** [None] within the result: the row is not the one a declined payment leaves. *)
Definition wait_for_payment_failure_state (answers : nat -> result string string) :
    option (result (wait_error string) (option (list string))) :=
  option_map (fun out => row <- out ;; Ok (if payment_failure_row row then Some row else None))
    (wait_for_postgres_row answers).

(** A request that fails ends this wait; its timeout may be zero. *)
Definition look_fulfillment (require_notification : bool) (answer : result string (Z * json)) (last : json) :
    json * option (result string json) :=
  match answer with
  | Err error => (last, Some (Err error))
  | Ok (status, body) => (body, if fulfillment_complete require_notification status body then Some (Ok body) else None)
  end.
Definition wait_for_fulfillment_snapshot (require_notification : bool) (answers : nat -> result string (Z * json)) :
    option (result (wait_error json) json) :=
  option_map (fun out => match out with
    | Ok (Ok body) => Ok body
    | Ok (Err error) => Err (QueryFailed error)
    | Err e => Err e
    end) (wait_until (look_fulfillment require_notification) answers
            (default 30 (vars "ASYNC_VERIFY_TIMEOUT_SECONDS" ≫= parse_u64)) JNull).

Definition look_browser (trace_id : string) (answer : result string (Z * json)) (last : json) : json * option json :=
  match answer with
  | Ok (status, body) => (body, browser_event trace_id status body)
  | Err _ => (last, None)
  end.
Definition wait_for_browser_durable_state (trace_id : string) (answers : nat -> result string (Z * json)) :
    option (result (wait_error json) json) :=
  match async_timeout, positive_env vars "PARALLAX_TRACE_POLL_SECONDS" 1 with
  | Err message, _ => Some (Err (SettingInvalid message))
  | _, Err message => Some (Err (SettingInvalid message))
  | Ok timeout, Ok _ => wait_until (look_browser trace_id) answers timeout JNull
  end.

(** Thirty attempts, a second apart *)
Fixpoint checkout_attempts (answers : nat -> result string Z) (i attempts : nat) : bool :=
  match attempts with
  | O => false
  | S rest =>
      match answers i with
      | Ok status => if is_success status then true else checkout_attempts answers (S i) rest
      | Err _ => checkout_attempts answers (S i) rest
      end
  end.
Definition wait_for_checkout (answers : nat -> result string Z) : bool := checkout_attempts answers 0 30.

(** ** The cardinality stress *)

(** [collect::<BTreeSet<_>>()] *)
Definition text_set (l : list string) : list string := foldl (fun set s => set_insert s set) [] l.

Definition expected_labels : list string := text_set (map cardinality_bucket_label (seqZ 0 CARDINALITY_SERIES)).
Definition label_values (data : json) : option (list json) := jget "metricLabelValues" data ≫= as_array.
Definition observed_labels (data : json) : list string :=
  text_set (default [] (option_map (omap as_str) (label_values data))).

(** What is left at the deadline: the labels observed last, or nothing when the
    query failed then *)
Definition look_labels (answer : result string json) (_ : option (list string)) : option (list string) * option unit :=
  match answer with
  | Ok data =>
      let observed := observed_labels data in
      (Some observed, if bool_decide (observed = expected_labels) then Some tt else None)
  | Err _ => (None, None)
  end.

(** After the shape has been emitted *)
Definition cardinality_stress (answers : nat -> result string json) :
    option (result (wait_error (option (list string))) Z) :=
  match positive_env vars "PARALLAX_METRIC_TIMEOUT_SECONDS" 120, positive_env vars "PARALLAX_METRIC_POLL_SECONDS" 2 with
  | Err message, _ => Some (Err (SettingInvalid message))
  | _, Err message => Some (Err (SettingInvalid message))
  | Ok timeout, Ok _ =>
      option_map (fun out => _ <- out ;; Ok 0) (wait_until look_labels answers timeout None)
  end.
End waits.

(** ** The issue regression *)

Inductive regression_error : Type :=
| NotEmitted (error : string)
| NotSeen (error : wait_error json)
| NotResolved
| SameOccurrence (trace_id : string)
| StillWaiting.

(** One wait of the scenario: its clock and the product's answers *)
Record Observation : Type := mkObservation { ob_clock : nat -> Z; ob_start : Z; ob_answers : nat -> result string json }.

Definition awaited {B} (out : option (result (wait_error json) B)) : result regression_error B :=
  match out with
  | None => Err StillWaiting
  | Some (Ok b) => Ok b
  | Some (Err error) => Err (NotSeen error)
  end.
Definition emitted (occurrence : result string string) : result regression_error string :=
  match occurrence with Ok trace_id => Ok trace_id | Err error => Err (NotEmitted error) end.

Definition watch {B} (o : Observation) (fuel : nat)
    (wait : (nat -> Z) -> Z -> nat -> (nat -> result string json) -> option (result (wait_error json) B)) :
    result regression_error B :=
  awaited (wait (ob_clock o) (ob_start o) fuel (ob_answers o)).

(** The scenario with the answers it gets: the identity of each emitted
    occurrence, the answer to the mutation, and the three waits *)
Definition issue_regression (vars : Vars) (fuel : nat) (first second : result string string)
    (seen : Observation) (resolved : result string json) (status regressed : Observation) : result regression_error Z :=
  first_trace <- emitted first ;;
  found <- watch seen fuel (fun clock start fuel => wait_for_issue_last_trace vars clock start fuel "checkout" first_trace) ;;
  let event_count := found.2 in
  resolved <- match resolved with Ok data => Ok data | Err error => Err (NotSeen (QueryFailed error)) end ;;
  ensure (opt_is (pointer ["issueSetStatus"; "status"] resolved ≫= as_str) "resolved") NotResolved ;;
  _ <- watch status fuel (fun clock start fuel => wait_for_issue_status vars clock start fuel "resolved") ;;
  second_trace <- emitted second ;;
  ensure (negb (hex_eq first_trace second_trace)) (SameOccurrence first_trace) ;;
  snapshot <- watch regressed fuel (fun clock start fuel =>
    wait_for_issue_regressed vars clock start fuel second_trace event_count) ;;
  ensure (String.eqb (default "" (pointer ["issue"; "status"] snapshot ≫= as_str)) "regressed") NotResolved ;;
  Ok 0.

(** ** Lemmas *)

Section found.
Context {R L B : Type} (look : R -> L -> L * option B) (answers : nat -> R) (clock : nat -> Z) (deadline : Z).

(** A wait succeeds only on evidence it has looked at. *)
Lemma poll_found fuel i last b :
  poll look answers clock deadline fuel i last = Some (Ok b) -> exists k l, (look (answers k) l).2 = Some b.
Proof.
  revert i last. induction fuel as [|fuel IH]; intros i last; [done|]. cbn [poll].
  destruct (look (answers i) last) as [last' [b'|]] eqn:E.
  - intros [= ->]. exists i, last. by rewrite E.
  - destruct (_ <=? _); [done|]. apply IH.
Qed.
End found.

Lemma wait_until_found clock start fuel {R L B} (look : R -> L -> L * option B) answers seconds last b :
  wait_until clock start fuel look answers seconds last = Some (Ok b) -> exists k l, (look (answers k) l).2 = Some b.
Proof.
  unfold wait_until. destruct (poll _ _ _ _ _ _ _) as [[b'|l]|] eqn:E; [|done|done].
  intros [= ->]. by eapply poll_found.
Qed.

Lemma wait_until_returns clock start {R L B} (look : R -> L -> L * option B) found answers seconds last n :
  (forall r l, (look r l).2 = found r) -> start + 1000 * seconds <= clock n ->
  is_Some (wait_until clock start (S n) look answers seconds last).
Proof.
  intros Hl Hd. unfold wait_until.
  destruct (poll_settles look answers clock (start + 1000 * seconds) found Hl n 0 last Hd) as (out & -> & _). by eexists.
Qed.

Lemma look_issue_ok {B} (find : json -> option B) answer last b :
  (look_issue find answer last).2 = Some b -> exists data, answer = Ok data /\ find data = Some b.
Proof. destruct answer as [data|]; [|done]. intros H. by exists data. Qed.

Lemma insert_elem s t l : t ∈ set_insert s l <-> t = s \/ t ∈ l.
Proof.
  induction l as [|u l IH]; cbn [set_insert]; [set_solver|].
  destruct (String.compare s u) eqn:E; [apply String.compare_eq_iff in E as ->| |]; set_solver.
Qed.

Lemma text_set_elem t l : t ∈ text_set l <-> t ∈ l.
Proof.
  unfold text_set. assert (H : forall set, t ∈ foldl (fun set s => set_insert s set) set l <-> t ∈ set \/ t ∈ l).
  { induction l as [|s l IH]; intros set; cbn [foldl]; [set_solver|]. rewrite IH, insert_elem. set_solver. }
  rewrite H. set_solver.
Qed.

(** The labels of the points a metrics request carries *)
Definition point_attributes (d : Data) : list KeyValue :=
  match d with
  | Sum points _ _ | Gauge points => concat (map np_attributes points)
  | Histogram _ _ => []
  end.
Definition request_attributes (request : ExportMetricsServiceRequest) : list KeyValue :=
  concat (map (fun rm => concat (map (fun metrics => concat (map (fun m => point_attributes (me_data m)) metrics)) (rm_scopes rm))) request).

Lemma cardinality_attributes e d :
  request_attributes (m_cardinality e d).1 =
  map (fun index => kv CARDINALITY_LABEL (cardinality_bucket_label index)) (seqZ 0 CARDINALITY_SERIES).
Proof.
  unfold request_attributes. cbn -[range cardinality_point seqZ]. rewrite !app_nil_r. unfold range.
  induction (seqZ 0 CARDINALITY_SERIES) as [|i l IH]; [done|]. cbn. by rewrite IH.
Qed.

Lemma watch_ok {B} o fuel (wait : (nat -> Z) -> Z -> nat -> (nat -> result string json) ->
    option (result (wait_error json) B)) b :
  watch o fuel wait = Ok b -> wait (ob_clock o) (ob_start o) fuel (ob_answers o) = Some (Ok b).
Proof. unfold watch, awaited. by destruct (wait _ _ _ _) as [[b'|]|]; try done; intros [= ->]. Qed.

Lemma regressed_issue occurrence previous data :
  issue_regressed occurrence previous data = true ->
  exists issue, jget "issue" data = Some issue /\ jget_str "status" issue = Some "regressed" /\
    previous < default 0 (jget "eventCount" issue ≫= as_i64).
Proof.
  unfold issue_regressed. destruct (jget "issue" data) as [issue|]; [|done]. cbn. intros H. bool_inv.
  exists issue. split; [done|]. unfold opt_is in *. destruct (jget_str "status" issue) as [status|]; [|done].
  bool_inv. by subst.
Qed.

(** ** Theorems *)

(** The cardinality stress succeeds only when the product has answered with
    exactly the label values that the shape emits: whatever the shape drew, a
    text is one of the product's values if and only if a point of the emitted
    metric carries it. *)
Theorem cardinality_verified vars clock start fuel answers code e d :
  cardinality_stress vars clock start fuel answers = Some (Ok code) ->
  code = 0 /\ exists k data values,
    answers k = Ok data /\ label_values data = Some values /\
    forall label, label ∈ omap as_str values <-> kv CARDINALITY_LABEL label ∈ request_attributes (m_cardinality e d).1.
Proof.
  unfold cardinality_stress. destruct (positive_env _ "PARALLAX_METRIC_TIMEOUT_SECONDS" _) as [timeout|]; [|done].
  destruct (positive_env _ _ _); [|done]. destruct (wait_until _ _ _ _ _ _ _) as [[[]|l]|] eqn:E; [|done|done].
  intros [= <-]. split; [done|]. apply wait_until_found in E as (k & l & E).
  destruct (answers k) as [data|] eqn:Ha; [|done]. cbn in E. case_bool_decide as Heq; [|done].
  assert (Hl : forall label, label ∈ observed_labels data <-> label ∈ map cardinality_bucket_label (seqZ 0 CARDINALITY_SERIES)).
  { intros label. rewrite Heq. apply text_set_elem. }
  exists k, data. unfold observed_labels in Hl. destruct (label_values data) as [values|].
  - exists values. split_and!; [done..|]. intros label. rewrite cardinality_attributes.
    specialize (Hl label). rewrite text_set_elem in Hl. cbn in Hl. rewrite Hl, !list_elem_of_fmap.
    split; intros (i & Hi & Hin); exists i; (split; [|done]); [by rewrite Hi|by injection Hi].
  - exfalso. specialize (Hl (cardinality_bucket_label 0)). cbn in Hl. apply not_elem_of_nil with (x := cardinality_bucket_label 0).
    apply Hl. apply list_elem_of_fmap. exists 0. split; [done|]. by apply elem_of_seqZ.
Qed.

Definition cardinality_answer (_ : nat) : result string json :=
  Ok (JObj [("metricLabelValues", JArr (map (fun i => JStr (cardinality_bucket_label i)) (rev (seqZ 0 CARDINALITY_SERIES))))]).

Lemma cardinality_verified_witness :
  cardinality_stress (fun _ => None) (fun _ => 0) 0 1 cardinality_answer = Some (Ok 0) /\
  exists k data, cardinality_answer k = Ok data.
Proof.
  assert (H : cardinality_stress (fun _ => None) (fun _ => 0) 0 1 cardinality_answer = Some (Ok 0)) by (vm_compute; reflexivity).
  split; [exact H|].
  destruct (cardinality_verified _ _ _ _ _ _ (mkShapeEnv (fun _ => []) (fun _ => 0) (fun _ => None) "i") (0%nat, 0%nat) H)
    as (_ & k & data & _ & Hk & _).
  by exists k, data.
Defined.

(** A regression is reported only on evidence of one: the issue that was seen
    for the first occurrence is later shown as regressed, by an occurrence of
    another identity, with more events than it had. *)
Theorem regression_is_evidence vars fuel first second seen resolved status regressed code :
  issue_regression vars fuel first second seen resolved status regressed = Ok code ->
  exists first_trace second_trace fingerprint event_count before after issue,
    first = Ok first_trace /\ second = Ok second_trace /\ hex_eq first_trace second_trace = false /\
    (exists i, ob_answers seen i = Ok before) /\ issue_last_trace "checkout" first_trace before = Some (fingerprint, event_count) /\
    (exists k, ob_answers regressed k = Ok after) /\ jget "issue" after = Some issue /\
    jget_str "status" issue = Some "regressed" /\
    event_count < default 0 (jget "eventCount" issue ≫= as_i64).
Proof.
  unfold issue_regression. destruct first as [first_trace|]; [|done]. cbn.
  destruct (watch seen _ _) as [[[service fingerprint] event_count]|] eqn:Eseen; [|done]. cbn.
  destruct resolved as [resolution|]; [|done]. cbn. destruct (opt_is _ _); [|done]. cbn.
  destruct (watch status _ _); [|done]. cbn. destruct second as [second_trace|]; [|done]. cbn.
  destruct (hex_eq first_trace second_trace) eqn:Ehex; [done|]. cbn.
  destruct (watch regressed _ _) as [snapshot|] eqn:Ereg; [|done]. intros _.
  apply watch_ok, wait_until_found in Eseen as (i & li & (before & Hb & Hfind)%look_issue_ok).
  apply watch_ok, wait_until_found in Ereg as (k & lk & (after & Ha & Hkept)%look_issue_ok).
  apply bind_Some in Hfind as ([fp count] & Hlast & [= <- <- <-]).
  unfold kept_if in Hkept. destruct (issue_regressed _ _ after) eqn:Er; [|done]. apply regressed_issue in Er as (issue & Hi & Hs & Hc).
  exists first_trace, second_trace, fp, count, before, after, issue. naive_solver.
Qed.

Section regression_sample.
Let seen_item (trace_id : string) : json :=
  JObj [("service", JStr "checkout"); ("fingerprint", JStr "f1"); ("eventCount", JNum 3); ("lastTraceId", JStr trace_id)].
Definition sample_seen : Observation :=
  mkObservation (fun _ => 0) 0 (fun _ => Ok (JObj [("issues", JObj [("items", JArr [seen_item "a1"])])])).
Definition sample_issue (status : string) (count : Z) : Observation :=
  mkObservation (fun _ => 0) 0 (fun _ => Ok (JObj [("issue",
    JObj [("status", JStr status); ("eventCount", JNum count); ("lastTraceId", JStr "B2")])])).
Definition sample_resolved : result string json := Ok (JObj [("issueSetStatus", JObj [("status", JStr "resolved")])]).
End regression_sample.

Lemma regression_is_evidence_witness :
  issue_regression (fun _ => None) 1 (Ok "a1") (Ok "b2") sample_seen sample_resolved
    (sample_issue "resolved" 3) (sample_issue "regressed" 4) = Ok 0 /\
  hex_eq "a1" "b2" = false.
Proof.
  assert (H : issue_regression (fun _ => None) 1 (Ok "a1") (Ok "b2") sample_seen sample_resolved
    (sample_issue "resolved" 3) (sample_issue "regressed" 4) = Ok 0) by (vm_compute; reflexivity).
  split; [exact H|].
  destruct (regression_is_evidence _ _ _ _ _ _ _ _ _ H) as (f & s & _ & _ & _ & _ & _ & Hf & Hs & Hne & _).
  injection Hf as <-. injection Hs as <-. exact Hne.
Defined.
