(* ===== verification/TaskCommands.v ===== *)
(** The repository tasks of the command line (cli/src/task_commands.rs): their
    settings, the contract of the scenario catalog, the TypeScript policy, the
    verification of one trace, and the verification of the Compose stack.
    [parse_json] is serde_json's parser; a process is its exit and its output,
    and the world answers the [n]-th command or request by a function of [n]. *)

From S2P Require Import Prelude Values Propagation Telemetry ScenarioCorpus ScenarioTraces.
Import Text Serde Telemetry Propagation ScenarioRegistry ScenarioTraces.

Local Open Scope result_scope.

(** ** Settings *)

Definition nonempty_env (vars : Vars) (name : string) : option string := non_blank (vars name).
Definition env_or_fallback (vars : Vars) (primary fallback default_ : string) : string :=
  match nonempty_env vars primary with
  | Some value => value
  | None => default default_ (nonempty_env vars fallback)
  end.
Definition positive (name raw : string) : result string Z :=
  let message := name +:+ " must be a positive integer: " +:+ raw in
  value <- ok_or (parse_u64 raw) message ;;
  ensure (0 <? value) message ;;
  Ok value.
Definition positive_env (vars : Vars) (name : string) (default_ : Z) : result string Z :=
  positive name (default (show_Z default_) (vars name)).
Definition positive_env_fallback (vars : Vars) (primary fallback : string) (default_ : Z) : result string Z :=
  positive primary (env_or_fallback vars primary fallback (show_Z default_)).

(** [values.join(separator)] *)
Fixpoint join_with (separator : string) (l : list string) : string :=
  match l with [] => "" | [last] => last | a :: rest => a +:+ separator +:+ join_with separator rest end.

Record PostgresEnv : Type := mkPostgresEnv {
  pg_host : string; pg_port : string; pg_database : string; pg_user : string; pg_password : string;
  pg_connect_timeout : string; pg_options : string }.

Definition postgres_env (vars : Vars) (statement_timeout_ms lock_timeout_ms connect_timeout : Z) : PostgresEnv :=
  let bounds := "-c statement_timeout=" +:+ show_Z statement_timeout_ms +:+ "ms -c lock_timeout=" +:+
    show_Z lock_timeout_ms +:+ "ms" in
  mkPostgresEnv
    (env_or_fallback vars "PGHOST" "POSTGRES_HOST" "postgres")
    (env_or_fallback vars "PGPORT" "POSTGRES_PORT" "5432")
    (env_or_fallback vars "PGDATABASE" "POSTGRES_DB" "playground")
    (env_or_fallback vars "PGUSER" "POSTGRES_USER" "postgres")
    (env_or_fallback vars "PGPASSWORD" "POSTGRES_PASSWORD" "")
    (show_Z connect_timeout)
    (match nonempty_env vars "PGOPTIONS" with Some existing => existing +:+ " " +:+ bounds | None => bounds end).
Definition pairs (p : PostgresEnv) : list (string * string) :=
  [("PGHOST", pg_host p); ("PGPORT", pg_port p); ("PGDATABASE", pg_database p); ("PGUSER", pg_user p);
   ("PGPASSWORD", pg_password p); ("PGCONNECT_TIMEOUT", pg_connect_timeout p); ("PGOPTIONS", pg_options p)].

(** ** The scenario catalog *)

Definition lower_or_digit (a : ascii) : bool := is_lower a || is_digit a.
Definition is_snake_case (value : string) : bool :=
  match value with
  | "" => false
  | String first _ =>
      is_lower first &&
      match str_rev value with String last _ => lower_or_digit last | "" => false end &&
      str_forallb (fun a => lower_or_digit a || Ascii.eqb a "_") value && negb (str_contains "__" value)
  end.
Definition is_semantic_name (name : string) : bool :=
  match split_on ":" name with
  | [group; scenario] => is_snake_case group && is_snake_case scenario
  | _ => false
  end.
Definition is_public_scenario_name (name : string) : bool := String.eqb name "corpus:all" || one_of name SCENARIO_NAMES.

Definition validate_scenario_task (task : json) (name : string) : result string unit :=
  ensure (is_semantic_name name) ("scenario task name must be exactly group:snake_case: " +:+ name) ;;
  ensure (negb (is_blank (default "" (jget_str "description" task))))
    ("semantic scenario task has no description: " +:+ name) ;;
  aliases <- ok_or (jget "aliases" task ≫= as_array) "mise task has no aliases array" ;;
  ensure (is_nil aliases) ("opaque task alias remains for " +:+ name) ;;
  ensure (is_none_or (jget "shell" task) is_null) ("scenario task must not configure a shell: " +:+ name) ;;
  ensure (is_some_and (jget "raw" task ≫= as_bool) (fun b => b)) ("scenario task must forward raw arguments: " +:+ name) ;;
  runs <- ok_or (jget "run" task ≫= as_array) "mise scenario task has no run array" ;;
  match runs with
  | [entry] =>
      run <- ok_or (as_str entry) "mise scenario task run entry is not a command string" ;;
      let expected := "cargo run --locked -p playground-cli -- scenario " +:+ name in
      ensure (String.eqb run expected)
        ("scenario task " +:+ name +:+ " must run `" +:+ expected +:+ "` without a shell; got `" +:+ run +:+ "`")
  | _ => Err ("scenario task must have exactly one Rust run command: " +:+ name)
  end.

(** One listed task; tasks without a name are passed over. *)
Definition check_task (task : json) : result string unit :=
  match jget_str "name" task with
  | None => Ok tt
  | Some name =>
      let in_scenario_catalog := is_some_and (jget_str "source" task) (ends_with "mise-scenarios.toml") in
      ensure (negb in_scenario_catalog || is_semantic_name name)
        ("local mise task name must be exactly group:snake_case: " +:+ name) ;;
      ensure (negb in_scenario_catalog || negb (is_none_or (jget_str "description" task) is_blank))
        ("local mise task has no description: " +:+ name) ;;
      (if in_scenario_catalog then
         aliases <- ok_or (jget "aliases" task ≫= as_array) "mise task has no aliases array" ;;
         ensure (is_nil aliases) ("opaque task alias remains for " +:+ name)
       else Ok tt) ;;
      let invokes_scenario := is_some_and (jget "run" task ≫= as_array)
        (existsb (fun run => is_some_and (as_str run) (str_contains " -- scenario "))) in
      ensure (negb invokes_scenario || is_public_scenario_name name) ("unregistered public scenario task: " +:+ name)
  end.

(** The task of a scenario: there must be exactly one. *)
Definition check_scenario_task (tasks : list json) (name : string) : result string unit :=
  match List.filter (field_is "name" name) tasks with
  | [] => Err ("semantic scenario task is missing: " +:+ name)
  | [task] => validate_scenario_task task name
  | _ => Err ("semantic scenario task is duplicated: " +:+ name)
  end.

(** The part of a text between two markers *)
Definition until_first (pattern s : string) : option string :=
  rest ← after_first pattern s;
  Some (String.substring 0 (String.length s - String.length rest - String.length pattern) s).
Definition dispatch_source (runner_source : string) : option string :=
  rest ← after_first "async fn run_named" runner_source; until_first "async fn current_executable" rest.

(** What the repository has: its legacy entry points, whether the old
    dispatcher exists, the tasks mise lists, the README and the runner's text *)
Definition check_scenarios (legacy : list string) (run_sh : bool) (tasks : list json) (readme runner_source : string) :
    result string unit :=
  validate_scenario_registry scenario_registry ;;
  (match legacy with
   | path :: _ => Err ("repository legacy script or wrapper remains: " +:+ path +:+ "; migrate it to Rust/mise")
   | [] => Ok tt
   end) ;;
  ensure (negb run_sh) "legacy scenario dispatcher remains: scenarios/run.sh" ;;
  each_res check_task tasks ;;
  each_res (check_scenario_task tasks) (SCENARIO_NAMES ++ ["corpus:all"]) ;;
  each_res (fun forbidden =>
    ensure (negb (str_contains forbidden readme)) ("scenario README retains forbidden legacy reference: " +:+ forbidden))
    ["scenarios/run.sh"; "short scenario IDs remain aliases"; ".sh`"] ;;
  source <- ok_or (dispatch_source runner_source) "scenario runner dispatch function is missing" ;;
  let quote := String (ascii_of_nat 34) "" in
  each_res (fun name =>
    ensure (str_contains (quote +:+ name +:+ quote) source) ("semantic scenario has no Rust dispatch arm: " +:+ name))
    SCENARIO_NAMES.

(** ** The TypeScript policy *)

Definition TRUE_OPTIONS : list string := [
  "strict"; "noUncheckedIndexedAccess"; "exactOptionalPropertyTypes"; "noImplicitOverride"; "noImplicitReturns";
  "noPropertyAccessFromIndexSignature"; "noUnusedLocals"; "noUnusedParameters"; "noFallthroughCasesInSwitch";
  "noUncheckedSideEffectImports"; "forceConsistentCasingInFileNames"; "isolatedModules"; "noEmit"].
Definition FALSE_OPTIONS : list string := ["allowJs"; "checkJs"; "allowUnusedLabels"; "allowUnreachableCode"].

Definition check_typescript_policy (forbidden : list string) (config : json) : result string unit :=
  ensure (is_nil forbidden) ("tracked JavaScript source/config is forbidden: " +:+ join_with ", " forbidden) ;;
  compiler <- ok_or (jget "compilerOptions" config) "tsconfig.compilerOptions is missing" ;;
  each_res (fun option =>
    ensure (is_some_and (jget option compiler ≫= as_bool) (fun b => b))
      ("tsconfig compilerOptions." +:+ option +:+ " must be true")) TRUE_OPTIONS ;;
  each_res (fun option =>
    ensure (is_some_and (jget option compiler ≫= as_bool) negb)
      ("tsconfig compilerOptions." +:+ option +:+ " must be false")) FALSE_OPTIONS ;;
  ensure (field_is "moduleDetection" "force" compiler) "tsconfig compilerOptions.moduleDetection must be force".

(** ** One trace *)

Definition hexdigit (a : ascii) : bool := match hex_digit a with Some _ => true | None => false end.

Definition validate_traceparent (value : string) : result string string :=
  let invalid := "invalid traceparent: expected complete version-00 W3C value" in
  match split_on "-" value with
  | [version; trace_id; parent_id; flags] =>
      ensure (String.eqb version "00" && (str_len trace_id =? 32) && (str_len parent_id =? 16) && (str_len flags =? 2) &&
              str_forallb hexdigit trace_id && str_forallb hexdigit parent_id &&
              negb (all_zero_hex trace_id) && negb (all_zero_hex parent_id)) invalid ;;
      Ok trace_id
  | _ => Err invalid
  end.

Definition STATIC_BAGGAGE : string :=
  "tenant.id=tenant-acme,user.tier=standard,customer.segment=standard,region=us-east-1,request.priority=normal".

Definition appended (list_ entry : string) : string := if is_empty list_ then entry else list_ +:+ "," +:+ entry.
Definition verify_baggage (existing invocation_id : string) : result string string :=
  let named := if str_contains "cli.invocation.id=" existing then existing
               else appended existing ("cli.invocation.id=" +:+ invocation_id) in
  let baggage := appended named STATIC_BAGGAGE in
  ensure (str_len baggage <=? 2048) "generated baggage exceeds 2048 bytes" ;;
  Ok baggage.

(** The request of the verification: its headers and its body *)
Definition verify_request (vars : Vars) : result string (string * list (string * string) * json) :=
  invocation_id <- ok_or (vars "CLI_INVOCATION_ID") "CLI_INVOCATION_ID is required; run through parallax invocation start" ;;
  traceparent <- ok_or (vars "TRACEPARENT") "TRACEPARENT is required; run through parallax invocation start" ;;
  trace_id <- validate_traceparent traceparent ;;
  baggage <- verify_baggage (default "" (vars "BAGGAGE")) invocation_id ;;
  Ok (trace_id,
      [("traceparent", traceparent); ("tracestate", default "playground=commerce" (vars "TRACESTATE")); ("baggage", baggage)],
      JObj [("tenant_id", JStr "tenant-acme"); ("customer_id", JStr "customer-acme-ava");
            ("items", JArr [JObj [("sku", JStr "WIDGET-1"); ("quantity", JNum 1)]]); ("currency_code", JStr "USD");
            ("payment_method_token", JStr "tok_visa"); ("payment_method_type", JStr "card");
            ("request_id", JStr ("commerce-verification-" +:+ invocation_id))]).

Definition checkout_verified (status : Z) (body : json) : bool :=
  is_success status && field_is "status" "paid" body && is_some_and (jget_str "order_id" body) (fun id => negb (is_empty id)).

(** [verified] is what commerce_verify finds for the trace; a status prints with
    its reason phrase. *)
Definition verify_trace {S} (status_text : Z -> string) (print_json : json -> string) (vars : Vars)
    (send : list (string * string) -> json -> result string (Z * json))
    (verified : string -> result string S) : result string (string * S) :=
  request <- verify_request vars ;;
  let '(trace_id, headers, body) := request in
  reply <- send headers body ;;
  ensure (checkout_verified reply.1 reply.2)
    ("commerce checkout verification failed: HTTP " +:+ status_text reply.1 +:+ ": " +:+ print_json reply.2) ;;
  summary <- verified trace_id ;;
  Ok (trace_id, summary).

(** ** The state of the Compose stack *)

Definition REQUIRED_RUNNING_COMPOSE_SERVICES : list string := [
  "postgres"; "redis"; "rabbitmq"; "clickhouse"; "flagd"; "catalog"; "payment"; "fulfillment"; "checkout"; "pricing";
  "inventory"; "recommendation"; "notifications"; "orders"; "storefront"; "web"].
Definition REQUIRED_COMPLETED_COMPOSE_SERVICES : list string := ["flagd-health-tools"; "postgres-migrate"; "clickhouse-init"].

Record ComposeServiceStatus : Type := mkStatusRow {
  cs_service : string; cs_state : string; cs_health : option string; cs_exit_code : option Z }.

Definition status_row (value : json) : result string ComposeServiceStatus :=
  service <- ok_or (jget_str "Service" value) "Compose status row has no Service" ;;
  state <- ok_or (jget_str "State" value) "Compose status row has no State" ;;
  Ok (mkStatusRow service state (non_blank (jget_str "Health" value)) (jget "ExitCode" value ≫= as_i64)).

Section compose_state.
Context (parse_json : string -> option json).

Definition parse_compose_statuses (output : string) : result string (list ComposeServiceStatus) :=
  let trimmed := trim output in
  ensure (negb (is_empty trimmed)) "Compose stack returned no container status" ;;
  values <- (if starts_with "[" trimmed then ok_or (parse_json trimmed ≫= as_array) "invalid Compose status array"
             else collect_res (fun line => ok_or (parse_json line) "invalid Compose status row")
                    (List.filter (fun line => negb (is_blank line)) (lines trimmed))) ;;
  collect_res status_row values.

Definition status_of (service : string) (statuses : list ComposeServiceStatus) : option ComposeServiceStatus :=
  List.find (fun status => String.eqb (cs_service status) service) statuses.

Definition check_running (statuses : list ComposeServiceStatus) (service : string) : result string unit :=
  status <- ok_or (status_of service statuses) ("Compose service is missing: " +:+ service) ;;
  ensure (String.eqb (cs_state status) "running")
    ("Compose service " +:+ service +:+ " is not running: state=" +:+ cs_state status) ;;
  ensure (opt_is (cs_health status) "healthy") ("Compose service " +:+ service +:+ " is not healthy").
Definition check_completed (statuses : list ComposeServiceStatus) (service : string) : result string unit :=
  status <- ok_or (status_of service statuses) ("Compose job is missing: " +:+ service) ;;
  ensure (String.eqb (cs_state status) "exited" && opt_Z_is (cs_exit_code status) 0)
    ("Compose job " +:+ service +:+ " did not complete successfully: state=" +:+ cs_state status).

Definition verify_compose_state (output : string) : result string unit :=
  statuses <- parse_compose_statuses output ;;
  ensure (negb (is_nil statuses)) "Compose stack has no containers" ;;
  each_res (check_running statuses) REQUIRED_RUNNING_COMPOSE_SERVICES ;;
  each_res (check_completed statuses) REQUIRED_COMPLETED_COMPOSE_SERVICES.
End compose_state.

(** ** Commands *)

Inductive Action : Type :=
| Process (program : string) (args : list string) (cwd : string) (env : list (string * string)) (clear_env : list string)
| HttpGet (url : string).

Inductive task_error : Type := Failed (message : string) | OutOfFuel.

(** A task reads the answers of the world: [answer n a] is the output of [a] as
    the [n]-th action, or why it failed (it did not start, or exited with
    another code than zero; for a request, no successful status).  The actions
    so far are kept. *)
Notation Io A := (list Action -> result task_error A * list Action).

Definition io_ret {A} (a : A) : Io A := fun log => (Ok a, log).
Definition io_lift {A} (r : result string A) : Io A :=
  fun log => (match r with Ok a => Ok a | Err message => Err (Failed message) end, log).
Definition io_bind {A B} (m : Io A) (k : A -> Io B) : Io B :=
  fun log => match m log with (Ok a, log') => k a log' | (Err e, log') => (Err e, log') end.
(** The outcome as a value: the task goes on after a failure. *)
Definition io_try {A} (m : Io A) : Io (result task_error A) := fun log => let '(r, log') := m log in (Ok r, log').

Declare Scope io_scope.
Delimit Scope io_scope with io.
Notation "x <- m ;; k" := (io_bind m (fun x => k)) (at level 100, m at next level, right associativity) : io_scope.
Notation "m ;; k" := (io_bind m (fun _ => k)) (at level 100, right associativity) : io_scope.

Section tasks.
Context (parse_json : string -> option json) (vars : Vars) (answer : nat -> Action -> result string string) (clock : nat -> Z).
Local Open Scope io_scope.

Definition act (a : Action) : Io string :=
  fun log => (match answer (length log) a with Ok out => Ok out | Err message => Err (Failed message) end, log ++ [a]).
(** A reading of the clock, in milliseconds *)
Definition now : Io Z := fun log => (Ok (clock (length log)), log).

Fixpoint io_each {A} (f : A -> Io unit) (l : list A) : Io unit :=
  match l with [] => io_ret tt | a :: rest => f a ;; io_each f rest end.

Definition status (program : string) (args : list string) (cwd : string) : Io unit :=
  _ <- act (Process program args cwd [] []) ;; io_ret tt.

Definition compose_command_for_project (compose : string) (project : option string) (args : list string) : list string :=
  ["compose"] ++ match project with Some project => ["-p"; project] | None => [] end ++ ["-f"; compose] ++ args.

(** ** The verification of the stack *)

Definition POSTGRES_PROBE : list string := ["pg_isready"; "-U"; "postgres"; "-d"; "playground"].
Definition REDIS_PROBE : list string := ["redis-cli"; "-h"; "127.0.0.1"; "-p"; "6379"; "ping"].
Definition RABBITMQ_PROBE : list string := ["su-exec"; "rabbitmq"; "rabbitmq-diagnostics"; "-q"; "ping"].
Definition quote : string := String (ascii_of_nat 34) "".
Definition CLICKHOUSE_PROBE : list string := ["sh"; "-ec";
  "clickhouse-client --host localhost --user " +:+ quote +:+ "${CLICKHOUSE_USER:-default}" +:+ quote +:+ " --password " +:+
  quote +:+ "${CLICKHOUSE_PASSWORD:-}" +:+ quote +:+ " --query 'SELECT 1' >/dev/null"].
Definition FLAGD_PROBE : list string :=
  ["/health-tools/busybox"; "wget"; "-q"; "-O"; "/dev/null"; "http://127.0.0.1:8014/healthz"].
Definition PRICING_GRPC_PROBE : list string := ["/usr/local/bin/grpc_health_probe"; "-addr=127.0.0.1:50051";
  "-service=playground.pricing.v1.Pricing"; "-connect-timeout=2s"; "-rpc-timeout=2s"].
Definition PAYMENT_HTTP_PROBE : list string :=
  ["curl"; "--fail"; "--silent"; "--show-error"; "http://127.0.0.1:8080/actuator/health"].
Definition PAYMENT_GRPC_PROBE : list string := ["/usr/local/bin/grpc_health_probe"; "-addr=127.0.0.1:9090";
  "-service=playground.payment.v1.Payment"; "-connect-timeout=2s"; "-rpc-timeout=2s"].
Definition NOTIFICATIONS_HTTP_PROBE : list string := ["sh"; "-ec";
  "printf 'GET /healthz HTTP/1.0\r\nHost: localhost\r\n\r\n' | nc -w 2 127.0.0.1 8091 | grep -q ' 200 '"].

Definition dependency_surfaces : list (string * list string) := [
  ("postgres", POSTGRES_PROBE); ("redis", REDIS_PROBE); ("rabbitmq", RABBITMQ_PROBE); ("clickhouse", CLICKHOUSE_PROBE);
  ("flagd", FLAGD_PROBE); ("pricing", PRICING_GRPC_PROBE); ("payment", PAYMENT_HTTP_PROBE);
  ("payment", PAYMENT_GRPC_PROBE); ("notifications", NOTIFICATIONS_HTTP_PROBE)].

Definition stack_http_defaults : list (string * string * string) := [
  ("Parallax", "PARALLAX_API_URL", "http://127.0.0.1:4000/health");
  ("Checkout", "CHECKOUT_URL", "http://127.0.0.1:8088/readyz");
  ("Catalog", "CATALOG_URL", "http://127.0.0.1:8080/actuator/health/readiness");
  ("Inventory", "INVENTORY_URL", "http://127.0.0.1:8089/healthz");
  ("Recommendation", "RECOMMENDATION_URL", "http://127.0.0.1:8090/readyz");
  ("Orders", "ORDERS_URL", "http://127.0.0.1:8092/healthz");
  ("Fulfillment", "FULFILLMENT_URL", "http://127.0.0.1:8093/actuator/health");
  ("Storefront", "STOREFRONT_URL", "http://127.0.0.1:8094/readyz");
  ("Storefront analytics", "STOREFRONT_ANALYTICS_URL", "http://127.0.0.1:8094/analytics/readyz");
  ("Web", "WEB_URL", "http://127.0.0.1:5173/healthz")].

Section stack.
Context (repository compose : string) (project : option string).

Definition docker (args : list string) : Action :=
  Process "docker" (compose_command_for_project compose project args) repository [] [].
Definition compose_status : Io string := act (docker ["ps"; "--all"; "--format"; "json"]).
Definition compose_exec (service : string) (command : list string) : Io unit :=
  _ <- act (docker (["exec"; "-T"; service] ++ command)) ;; io_ret tt.
Definition verify_compose_dependency_surfaces : Io unit :=
  io_each (fun '(service, command) => compose_exec service command) dependency_surfaces.

Fixpoint compose_loop (fuel : nat) (deadline : Z) : Io string :=
  match fuel with
  | O => fun log => (Err OutOfFuel, log)
  | S fuel' =>
      outcome <- io_try (compose_status) ;;
      match outcome with
      | Ok output =>
          match verify_compose_state parse_json output with
          | Ok _ => io_ret output
          | Err error =>
              at_ <- now ;;
              if deadline <=? at_ then io_lift (Err ("Compose readiness timed out: " +:+ error)) else compose_loop fuel' deadline
          end
      | Err error =>
          at_ <- now ;;
          if deadline <=? at_ then io_lift (Err "Compose readiness timed out: docker compose ps failed")
          else compose_loop fuel' deadline
      end
  end.
Definition wait_for_compose_state (fuel : nat) (timeout_seconds : Z) : Io string :=
  start <- now ;; compose_loop fuel (start + 1000 * timeout_seconds).

Definition verify_stack_run (fuel : nat) (manage_stack : bool) : Io Z :=
  act (docker ["config"; "--quiet"]) ;;
  output <- (if manage_stack then
    wait_timeout_seconds <- io_lift (positive_env vars "VERIFY_COMPOSE_WAIT_TIMEOUT_SECONDS" 120) ;;
    io_lift (positive_env vars "VERIFY_COMPOSE_POLL_INTERVAL_MILLIS" 500) ;;
    act (docker ["--profile"; "demo"; "up"; "--build"; "-d"; "--wait"; "--wait-timeout"; show_Z wait_timeout_seconds]) ;;
    wait_for_compose_state fuel wait_timeout_seconds
  else compose_status) ;;
  io_lift (verify_compose_state parse_json output) ;;
  io_each (fun '(_, env_name, default_url) =>
    _ <- act (HttpGet (default default_url (nonempty_env vars env_name))) ;; io_ret tt) stack_http_defaults ;;
  verify_compose_dependency_surfaces ;;
  io_ret 0.
End stack.

(** The first twelve characters of a fresh UUID *)
Definition managed_compose_project_name (uuid : string) : string :=
  "telemetry-playground-verify-" +:+ String.substring 0 12 uuid.

(** The stack is taken down whatever the verification found. *)
Definition verify_stack (fuel : nat) (repository : string) (compose_exists : bool) (uuid : string) : Io Z :=
  let compose := repository +:+ "/deploy/docker-compose.yml" in
  if negb compose_exists then io_lift (Err ("Compose file is missing: " +:+ compose)) else
  let manage_stack := opt_is (vars "VERIFY_MANAGE_STACK") "1" in
  let project := if manage_stack then Some (managed_compose_project_name uuid) else None in
  if negb manage_stack then verify_stack_run repository compose project fuel manage_stack
  else
    result <- io_try (verify_stack_run repository compose project fuel manage_stack) ;;
    cleanup <- io_try (act (docker repository compose project ["--profile"; "demo"; "down"; "-v"; "--remove-orphans"])) ;;
    match result, cleanup with
    | Ok code, Ok _ => io_ret code
    | Ok _, Err _ => io_lift (Err "managed Compose cleanup failed")
    | Err error, Ok _ => fun log => (Err error, log)
    | Err _, Err _ => io_lift (Err "managed Compose verification failed; cleanup failed")
    end.

(** ** Observable tests *)

Record WebObservablePlan : Type := mkWebPlan {
  wp_command : list string; wp_env : list (string * string); wp_clear_env : list string }.
Definition WEB_ACCEPTANCE_COMMAND : list string := ["run"; "e2e:compose"].
Definition WEB_ACCEPTANCE_ENV : list (string * string) := [("PLAYGROUND_COMPOSE_E2E", "1")].
Definition WEB_ACCEPTANCE_CLEAR_ENV : list string := ["PLAYGROUND_MOCK_E2E"].
Definition WEB_MOCK_COMMAND : list string := ["./node_modules/@playwright/test/cli.js"; "test"; "--project=chromium"].
Definition WEB_MOCK_ENV : list (string * string) := [("PLAYGROUND_MOCK_E2E", "1")].
Definition web_observable_plan (acceptance : bool) : WebObservablePlan :=
  if acceptance then mkWebPlan WEB_ACCEPTANCE_COMMAND WEB_ACCEPTANCE_ENV WEB_ACCEPTANCE_CLEAR_ENV
  else mkWebPlan WEB_MOCK_COMMAND WEB_MOCK_ENV [].

Definition java_tests (repository : string) (wrapper_exists : string -> bool) (service_name : string) : Io unit :=
  let service := repository +:+ "/services/" +:+ service_name in
  let wrapper := service +:+ "/gradle/wrapper/gradle-wrapper.jar" in
  io_lift (ensure (wrapper_exists wrapper) ("Gradle wrapper jar is missing: " +:+ wrapper)) ;;
  status "java" ["-cp"; wrapper; "org.gradle.wrapper.GradleWrapperMain"; "--no-daemon"; "test"; "-Dorg.gradle.native=false"] service.

Definition stack_tests (repository : string) (wrapper_exists : string -> bool) (stack : string) (acceptance : bool) : Io unit :=
  if String.eqb stack "rust" then
    status "cargo" ["nextest"; "run"; "--locked"; "--workspace"; "--profile"; "ci"; "--no-tests=fail"] repository ;;
    status "cargo" ["run"; "--locked"; "-p"; "playground-cli"; "--"; "test-report"; "target/nextest/ci/junit.xml"] repository
  else if String.eqb stack "java" then
    io_each (java_tests repository wrapper_exists) ["catalog"; "payment"; "fulfillment"]
  else
    let web := repository +:+ "/web" in
    status "bun" ["run"; "test"] web ;;
    let plan := web_observable_plan acceptance in
    _ <- act (Process "bun" (wp_command plan) web (wp_env plan) (wp_clear_env plan)) ;; io_ret tt.

(** [verified] is what test_verify finds for the invocation and the stack. *)
Definition observable_test (repository : string) (wrapper_exists : string -> bool)
    (verified : string -> string -> result string unit) (args : list string) : Io Z :=
  let stack := default "" (head args) in
  let acceptance : option string := args !! 1%nat in
  if negb (one_of stack ["rust"; "java"; "web"]) || is_some_and acceptance (fun value => negb (String.eqb value "--acceptance"))
  then io_lift (Err "usage: mise run test:observable -- <rust|java|web> [--acceptance]") else
  invocation_id <- io_lift (ok_or (vars "CLI_INVOCATION_ID")
    "CLI_INVOCATION_ID is required; run through parallax invocation start") ;;
  io_lift (ok_or (vars "TRACEPARENT") "TRACEPARENT is required; run through parallax invocation start") ;;
  let accepted := opt_is acceptance "--acceptance" in
  stack_tests repository wrapper_exists stack accepted ;;
  (if accepted then io_lift (verified invocation_id stack) else io_ret tt) ;;
  io_ret 0.

(** ** Migration idempotence and the demo stack *)

Definition clean_project (uuid : string) : option string :=
  Some ("telemetry-playground-clean-" +:+ String.substring 0 12 uuid).
Definition STATE_QUERY : string :=
  "SELECT string_agg(version || '=' || applied_at::text, ',' ORDER BY version) FROM public.schema_migrations;".

Definition idempotence_run (repository compose : string) (project : option string) : Io Z :=
  let run args := act (docker repository compose project args) in
  let read_state := out <- run ["exec"; "-T"; "postgres"; "psql"; "-U"; "postgres"; "-d"; "playground"; "-Atqc"; STATE_QUERY] ;;
    io_ret (trim out) in
  run ["up"; "-d"; "postgres"] ;;
  run ["run"; "--rm"; "--build"; "postgres-migrate"] ;;
  before <- read_state ;;
  run ["run"; "--rm"; "postgres-migrate"] ;;
  after <- read_state ;;
  io_lift (ensure (String.eqb before after) "idempotent migration proof changed schema_migrations") ;;
  io_ret 0.

Definition postgres_idempotence (repository uuid : string) : Io Z :=
  let compose := repository +:+ "/deploy/docker-compose.yml" in
  let project := clean_project uuid in
  result <- io_try (idempotence_run repository compose project) ;;
  cleanup <- io_try (act (docker repository compose project ["down"; "-v"; "--remove-orphans"])) ;;
  match result, cleanup with
  | Ok _, Err error => fun log => (Err error, log)
  | result, _ => fun log => (result, log)
  end.

Definition demo_up (compose : string) : list string := ["compose"; "-f"; compose; "--profile"; "demo"; "up"; "--build"; "-d"].
Definition demo_stack (repository : string) (args : list string) : Io Z :=
  status "docker" (demo_up (repository +:+ "/deploy/docker-compose.yml") ++ args) repository ;; io_ret 0.
Definition demo_fresh (repository : string) (args : list string) : Io Z :=
  let compose := repository +:+ "/deploy/docker-compose.yml" in
  io_lift (ensure (match args with [arg] => String.eqb arg "--yes" | _ => false end)
    "demo:fresh destroys local Compose volumes; pass --yes explicitly") ;;
  status "docker" ["compose"; "-f"; compose; "--profile"; "demo"; "down"; "-v"; "--remove-orphans"] repository ;;
  status "docker" (demo_up compose) repository ;;
  io_ret 0.
End tasks.
