(* ===== verification/TaskMigrations.v ===== *)
(** The migrations of the shared database (cli/src/task_commands.rs,
    [postgres_migrate] and [postgres_verify]): the files of a directory applied
    in order, each in a transaction of its own under an advisory lock, recorded
    in [schema_migrations], and the check of the schema they leave.  What a
    file's SQL does to the schema is a parameter, [execute]; PostgreSQL's
    transactions make it all or nothing, so that a statement that fails, or a
    connection that is lost, leaves the database as it was. *)

From S2P Require Import Prelude Values Propagation Telemetry ScenarioCorpus ScenarioTraces TaskCommands.
Import Text Telemetry Propagation ScenarioRegistry ScenarioOutcomes ScenarioTraces TaskCommands.

Local Open Scope result_scope.

(** ** Files *)

(** [file_stem()] and [extension()] of a file name *)
Definition split_extension (name : string) : string * option string :=
  match split_once "." (str_rev name) with
  | None => (name, None)
  | Some (extension, stem) => if is_empty stem then (name, None) else (str_rev stem, Some (str_rev extension))
  end.

Definition is_sql (name : string) : bool := opt_is (split_extension name).2 "sql".
Definition version_of (name : string) : string := (split_extension name).1.
Definition version_byte (a : ascii) : bool :=
  is_alphanumeric a || Ascii.eqb a "." || Ascii.eqb a "_" || Ascii.eqb a "-".
Definition migration_version (is_file : string -> bool) (name : string) : result string string :=
  ensure (is_file name && is_sql name && negb (is_empty (version_of name)) && str_forallb version_byte (version_of name))
    ("invalid migration filename: " +:+ name) ;;
  Ok (version_of name).

Definition REQUIRED_POSTGRES_TABLES : list string := [
  "tenants"; "categories"; "products"; "product_variants"; "prices"; "promotions"; "promotion_products";
  "customers"; "reviews"; "inventory_locations"; "inventory"; "carts"; "cart_items"; "orders"; "checkout_attempts";
  "order_items"; "payments"; "payment_provider_authorization_decisions"; "shipments"; "payment_operation_requests";
  "shipment_items"; "outbox_events"; "feature_exposures"; "analytics_events"; "notification_deliveries";
  "fulfillment_processed_events"; "price_change_events"; "inventory_reservations"; "checkout_compensation_tasks";
  "checkout_payment_reconciliations"; "fulfillment_effects"; "notification_delivery_attempts";
  "notification_channel_messages"; "orders_consumer_inbox"; "schema_migrations"].

Definition REQUIRED_POSTGRES_COLUMNS : list (string * string) := [
  ("tenants", "id"); ("tenants", "default_currency"); ("products", "tenant_id"); ("product_variants", "sku");
  ("prices", "amount_minor"); ("prices", "valid_from"); ("customers", "tenant_id");
  ("inventory", "available_quantity"); ("carts", "customer_id"); ("cart_items", "unit_price_minor");
  ("orders", "tenant_id"); ("orders", "total_minor"); ("orders", "checkout_request_id");
  ("checkout_attempts", "request_fingerprint"); ("checkout_attempts", "lease_token");
  ("checkout_attempts", "response_payload"); ("order_items", "line_total_minor"); ("payments", "status");
  ("payments", "captured_amount_minor"); ("payments", "pending_resolution");
  ("payments", "pending_reconciliation_attempts"); ("payments", "pending_reconciliation_at");
  ("payments", "pending_resolution_at"); ("payments", "provider_decision_verified_at");
  ("payment_operation_requests", "request_fingerprint"); ("shipments", "status"); ("shipment_items", "quantity");
  ("outbox_events", "available_at"); ("outbox_events", "traceparent"); ("outbox_events", "tracestate");
  ("outbox_events", "baggage"); ("outbox_events", "occurred_at"); ("outbox_events", "failure_code");
  ("outbox_events", "failure_message"); ("outbox_events", "failed_at"); ("outbox_events", "claim_token");
  ("outbox_events", "claim_expires_at"); ("feature_exposures", "variant"); ("analytics_events", "trace_id");
  ("notification_deliveries", "event_key"); ("notification_deliveries", "next_attempt_at");
  ("notification_deliveries", "lease_until"); ("notification_deliveries", "lease_token");
  ("notification_deliveries", "last_error"); ("notification_deliveries", "dead_lettered_at");
  ("notification_deliveries", "acknowledged_at"); ("notification_deliveries", "updated_at");
  ("notification_deliveries", "traceparent"); ("notification_deliveries", "tracestate");
  ("notification_deliveries", "baggage"); ("fulfillment_processed_events", "claimed_at");
  ("fulfillment_processed_events", "lease_token"); ("fulfillment_processed_events", "lease_until");
  ("fulfillment_processed_events", "dead_lettered_at"); ("price_change_events", "sequence");
  ("inventory_reservations", "reservation_id"); ("inventory_reservations", "status");
  ("inventory_reservations", "expires_at"); ("inventory_reservations", "consumed_at");
  ("inventory_reservations", "owner_request_id"); ("inventory_reservations", "owner_lease_token");
  ("checkout_compensation_tasks", "task_key"); ("checkout_compensation_tasks", "status");
  ("checkout_compensation_tasks", "checkout_request_id"); ("checkout_compensation_tasks", "checkout_lease_token");
  ("checkout_compensation_tasks", "remote_operation_id");
  ("checkout_compensation_tasks", "remote_operation_started_at");
  ("checkout_compensation_tasks", "remote_operation_completed_at"); ("checkout_compensation_tasks", "traceparent");
  ("checkout_compensation_tasks", "tracestate"); ("checkout_compensation_tasks", "baggage");
  ("checkout_payment_reconciliations", "tenant_id"); ("checkout_payment_reconciliations", "request_id");
  ("checkout_payment_reconciliations", "order_id"); ("checkout_payment_reconciliations", "authorize_request_id");
  ("checkout_payment_reconciliations", "payment_id"); ("checkout_payment_reconciliations", "merchant_reference");
  ("checkout_payment_reconciliations", "amount_minor"); ("checkout_payment_reconciliations", "currency");
  ("checkout_payment_reconciliations", "method_type"); ("checkout_payment_reconciliations", "feature_variant");
  ("checkout_payment_reconciliations", "status"); ("checkout_payment_reconciliations", "attempts");
  ("checkout_payment_reconciliations", "available_at"); ("checkout_payment_reconciliations", "claimed_at");
  ("checkout_payment_reconciliations", "lease_token"); ("checkout_payment_reconciliations", "lease_expires_at");
  ("checkout_payment_reconciliations", "checkout_lease_token"); ("checkout_payment_reconciliations", "completed_at");
  ("checkout_payment_reconciliations", "last_payment_status");
  ("checkout_payment_reconciliations", "last_operation_status");
  ("checkout_payment_reconciliations", "last_failure_reason"); ("checkout_payment_reconciliations", "last_error");
  ("checkout_payment_reconciliations", "traceparent"); ("checkout_payment_reconciliations", "tracestate");
  ("checkout_payment_reconciliations", "baggage"); ("checkout_payment_reconciliations", "created_at");
  ("checkout_payment_reconciliations", "updated_at"); ("fulfillment_effects", "tenant_id");
  ("fulfillment_effects", "order_id"); ("fulfillment_effects", "effect_key"); ("fulfillment_effects", "operation");
  ("fulfillment_effects", "effect_kind"); ("fulfillment_effects", "payload");
  ("fulfillment_effects", "notification_status"); ("fulfillment_effects", "aggregate_version");
  ("fulfillment_effects", "status"); ("fulfillment_effects", "attempts"); ("fulfillment_effects", "claim_token");
  ("fulfillment_effects", "claim_until"); ("fulfillment_effects", "published_at");
  ("fulfillment_effects", "cancelled_at"); ("fulfillment_effects", "last_error");
  ("fulfillment_effects", "created_at"); ("notification_delivery_attempts", "id");
  ("notification_delivery_attempts", "delivery_id"); ("notification_delivery_attempts", "tenant_id");
  ("notification_delivery_attempts", "attempt"); ("notification_delivery_attempts", "outcome");
  ("notification_delivery_attempts", "error"); ("notification_delivery_attempts", "started_at");
  ("notification_delivery_attempts", "completed_at"); ("notification_channel_messages", "delivery_id");
  ("notification_channel_messages", "tenant_id"); ("notification_channel_messages", "order_id");
  ("notification_channel_messages", "channel"); ("notification_channel_messages", "payload");
  ("notification_channel_messages", "dispatched_at"); ("notification_channel_messages", "acknowledged_at");
  ("notification_channel_messages", "acknowledgement_reference");
  ("payment_provider_authorization_decisions", "tenant_id");
  ("payment_provider_authorization_decisions", "payment_id");
  ("payment_provider_authorization_decisions", "provider");
  ("payment_provider_authorization_decisions", "provider_reference");
  ("payment_provider_authorization_decisions", "amount_minor");
  ("payment_provider_authorization_decisions", "currency"); ("payment_provider_authorization_decisions", "outcome");
  ("payment_provider_authorization_decisions", "verified_at");
  ("payment_provider_authorization_decisions", "created_at"); ("orders_consumer_inbox", "tenant_id");
  ("orders_consumer_inbox", "event_id"); ("orders_consumer_inbox", "status"); ("orders_consumer_inbox", "attempts");
  ("orders_consumer_inbox", "lease_until")].

(** ** The database *)

(** The schema, and the table of applied versions with their times once it
    exists *)
Record Db (S : Type) : Type := mkDb { db_schema : S; db_migrations : option (gmap string Z) }.
Arguments mkDb {S} _ _.
Arguments db_schema {S} _.
Arguments db_migrations {S} _.

Definition applied {S} (db : Db S) : gmap string Z := default ∅ (db_migrations db).

(** What the world does to one run: whether the advisory lock is free when the
    [n]-th transaction tries it, whether the transaction is broken off, and its
    time *)
Record World : Type := mkWorld { wd_lock_free : nat -> bool; wd_broken : nat -> bool; wd_time : nat -> Z }.

Section migrations.
Context {S : Type} (execute : string -> S -> option S).

(** One psql process with the script [APPLY_MIGRATION]: whether it exits with
    code zero, and the database.  The meta-command [\quit] takes no exit code:
    a busy lock ends the script successfully. *)
Definition apply_migration (w : World) (i : nat) (name : string) (db : Db S) : bool * Db S :=
  if negb (wd_lock_free w i) then (true, db)
  else if wd_broken w i then (false, db)
  else
    match applied db !! version_of name with
    | Some _ => (true, mkDb (db_schema db) (Some (applied db)))
    | None =>
        match execute name (db_schema db) with
        | None => (false, db)
        | Some schema => (true, mkDb schema (Some (<[version_of name := wd_time w i]> (applied db))))
        end
    end.

(** The files in order, until one fails *)
Fixpoint apply_all (w : World) (i : nat) (names : list string) (db : Db S) : result string unit * Db S :=
  match names with
  | [] => (Ok tt, db)
  | name :: rest =>
      match apply_migration w i name db with
      | (true, db') => apply_all w (i + 1) rest db'
      | (false, db') => (Err ("migration failed: " +:+ name), db')
      end
  end.

(** ** The check of the schema *)

(** What the catalog of the database shows: tables, columns, the tables with a
    primary key, and the two keys whose columns are required *)
Record Catalog : Type := mkCatalog {
  ct_tables : gset string; ct_columns : gset (string * string); ct_primary_keys : gset string;
  ct_reconciliation_key : bool; ct_processed_key : bool }.

Definition missing (found : string -> bool) (l : list string) : list string := List.filter (fun name => negb (found name)) l.
Definition missing_objects (c : Catalog) : list (string * list string) :=
  List.filter (fun group => negb (is_nil group.2)) [
    ("required table(s) missing: ", missing (fun t => bool_decide (t ∈ ct_tables c)) REQUIRED_POSTGRES_TABLES);
    ("required column(s) missing: ",
     map (fun '(table, column) => table +:+ "." +:+ column)
       (List.filter (fun tc => negb (bool_decide (tc ∈ ct_columns c))) REQUIRED_POSTGRES_COLUMNS));
    ("required primary key(s) missing: ", missing (fun t => bool_decide (t ∈ ct_primary_keys c)) REQUIRED_POSTGRES_TABLES);
    ("required constraint(s) missing: ",
     (if ct_reconciliation_key c then [] else ["checkout_payment_reconciliations primary key (tenant_id, request_id)"]) ++
     (if ct_processed_key c then [] else ["fulfillment_processed_events primary key (tenant_id, consumer_name, event_key)"]))].

Section command.
Context (catalog : Db S -> Catalog).

(** [answered] is whether the query succeeded. *)
Definition postgres_verify (vars : Vars) (answered : bool) (db : Db S) : result string Z :=
  positive_env_fallback vars "SCHEMA_STATEMENT_TIMEOUT_MS" "MIGRATION_STATEMENT_TIMEOUT_MS" 10000 ;;
  positive_env_fallback vars "SCHEMA_LOCK_TIMEOUT_MS" "MIGRATION_LOCK_TIMEOUT_MS" 5000 ;;
  positive_env vars "PGCONNECT_TIMEOUT" 5 ;;
  ensure answered "PostgreSQL schema verification command failed" ;;
  ensure (is_nil (missing_objects (catalog db))) "PostgreSQL schema is incomplete" ;;
  Ok 0.

(** ** The command *)

(** [pg_isready] until it succeeds; it may fail to start. *)
Definition look_ready (answer : result string bool) (_ : unit) : unit * option (result string unit) :=
  match answer with
  | Err error => (tt, Some (Err error))
  | Ok ready => (tt, if ready then Some (Ok tt) else None)
  end.
Definition wait_for_postgres (ready : nat -> result string bool) (clock : nat -> Z) (start timeout_seconds : Z) (fuel : nat) :
    option (result string unit) :=
  option_map (fun out => match out with Ok r => r | Err _ => Err "PostgreSQL did not become ready" end)
    (poll look_ready ready clock (start + 1000 * timeout_seconds) fuel 0 tt).

(** [names] are the entries of the migration directory; [None] is a run that is
    still waiting for PostgreSQL. *)
Definition postgres_migrate (vars : Vars) (names : option (list string)) (is_file : string -> bool)
    (ready : nat -> result string bool) (clock : nat -> Z) (start : Z) (fuel : nat) (w : World) (answered : bool) (db : Db S) :
    option (result string Z * Db S) :=
  let settings :=
    startup_timeout <- positive_env vars "MIGRATION_TIMEOUT_SECONDS" 120 ;;
    poll_seconds <- positive_env vars "MIGRATION_POLL_SECONDS" 1 ;;
    ensure (poll_seconds <=? startup_timeout) "MIGRATION_POLL_SECONDS must not exceed MIGRATION_TIMEOUT_SECONDS" ;;
    positive_env vars "MIGRATION_STATEMENT_TIMEOUT_MS" 10000 ;;
    positive_env vars "MIGRATION_LOCK_TIMEOUT_MS" 5000 ;;
    positive_env vars "PGCONNECT_TIMEOUT" 5 ;;
    entries <- ok_or names "migration directory is missing" ;;
    let migrations := sort_unstable (List.filter is_sql entries) in
    ensure (negb (is_nil migrations)) "no PostgreSQL migrations found" ;;
    each_res (fun name => _ <- migration_version is_file name ;; Ok tt) migrations ;;
    Ok (startup_timeout, migrations) in
  match settings with
  | Err message => Some (Err message, db)
  | Ok (startup_timeout, migrations) =>
      match wait_for_postgres ready clock start startup_timeout fuel with
      | None => None
      | Some (Err message) => Some (Err message, db)
      | Some (Ok _) =>
          match apply_all w 0 migrations db with
          | (Err message, db') => Some (Err message, db')
          | (Ok _, db') => Some (postgres_verify vars answered db', db')
          end
      end
  end.

End command.

(** ** Lemmas *)

(** What a list of files does to a schema, one after the other *)
Fixpoint execute_all (names : list string) (s : S) : option S :=
  match names with
  | [] => Some s
  | name :: rest => s' ← execute name s; execute_all rest s'
  end.

Lemma execute_all_app l k s : execute_all (l ++ k) s = s' ← execute_all l s; execute_all k s'.
Proof.
  revert s. induction l as [|name l IH]; intros s; [done|]. cbn. destruct (execute name s); [apply IH|done].
Qed.

(** The database holds exactly what the first files have done, and says so. *)
Definition holds_prefix (names : list string) (s : S) (done_ : list string) (db : Db S) : Prop :=
  done_ `prefix_of` names /\ execute_all done_ s = Some (db_schema db) /\
  dom (applied db) = list_to_set (map version_of done_).

Lemma prefix_extends names done_ name rest :
  NoDup (map version_of names) -> names = done_ ++ name :: rest -> version_of name ∉ (map version_of done_ : list string).
Proof.
  intros Hv -> Hin. rewrite map_app, NoDup_app in Hv. destruct Hv as (_ & H & _).
  apply (H _ Hin). cbn. apply list_elem_of_here.
Qed.

(** No version's time is forgotten. *)
Definition keeps_times (db db' : Db S) : Prop := applied db ⊆ applied db'.

#[local] Instance keeps_times_preorder : PreOrder keeps_times.
Proof. split; unfold keeps_times; [by intros db|by intros a b c; etrans]. Qed.

Context (names : list string) (s : S) (w : World).
Context (Hversions : NoDup (map version_of names)) (Hlock : forall i, wd_lock_free w i = true).

(** One file, those before it being done: it is passed over or extends them. *)
Lemma apply_one seen name rest done_ i db ok db' :
  names = seen ++ name :: rest -> seen `prefix_of` done_ -> holds_prefix names s done_ db ->
  apply_migration w i name db = (ok, db') ->
  keeps_times db db' /\
  exists done', holds_prefix names s done' db' /\ done_ `prefix_of` done' /\
    (ok = true -> seen ++ [name] `prefix_of` done').
Proof using Hversions Hlock.
  intros Hn [more ->] Hd Happly. pose proof Hd as (Hpre & Hexec & Hdom). unfold apply_migration in Happly. rewrite Hlock in Happly. cbn in Happly.
  destruct (wd_broken w i).
  { injection Happly as <- <-. split; [done|]. exists (seen ++ more). refine (conj Hd (conj _ _)); [done|intros [=]]. }
  destruct (applied db !! version_of name) as [t|] eqn:Et.
  - injection Happly as <- <-. split; [change (keeps_times db db); done|]. exists (seen ++ more).
    refine (conj Hd (conj _ (fun _ => _))); [done|].
    destruct more as [|m more].
    + exfalso. apply elem_of_dom_2 in Et. rewrite Hdom, app_nil_r, elem_of_list_to_set in Et.
      by apply (prefix_extends _ _ _ _ Hversions Hn) in Et.
    + rewrite Hn in Hpre. apply prefix_app_inv in Hpre. apply prefix_cons_inv_1 in Hpre as ->.
      apply prefix_app. by exists more.
  - destruct more as [|m more]; cycle 1.
    { exfalso. assert (m = name) as ->. { rewrite Hn in Hpre. apply prefix_app_inv in Hpre. by apply prefix_cons_inv_1 in Hpre. }
      apply not_elem_of_dom in Et. apply Et. rewrite Hdom, elem_of_list_to_set, map_app. cbn. set_solver. }
    rewrite app_nil_r in *. destruct (execute name (db_schema db)) as [schema|] eqn:Ee.
    + injection Happly as <- <-. split; [by apply insert_subseteq|]. exists (seen ++ [name]).
      refine (conj (conj _ (conj _ _)) (conj _ (fun _ => _))); [|by rewrite execute_all_app, Hexec; cbn; rewrite Ee| |by apply prefix_app_r|done].
      * rewrite Hn. apply prefix_app. by exists rest.
      * unfold applied at 1. cbn. rewrite dom_insert_L, Hdom, map_app, list_to_set_app_L. cbn. set_solver.
    + injection Happly as <- <-. split; [done|]. exists seen. refine (conj Hd (conj _ _)); [done|intros [=]].
Qed.

Lemma apply_rest rest seen done_ i db r db' :
  names = seen ++ rest -> seen `prefix_of` done_ -> holds_prefix names s done_ db -> apply_all w i rest db = (r, db') ->
  keeps_times db db' /\
  exists done', holds_prefix names s done' db' /\ done_ `prefix_of` done' /\ match r with Ok _ => done' = names | Err _ => True end.
Proof using Hversions Hlock.
  revert seen done_ i db. induction rest as [|name rest IH]; intros seen done_ i db Hn Hseen Hdone Hall; cbn [apply_all] in Hall.
  - injection Hall as <- <-. split; [done|]. exists done_. refine (conj Hdone (conj _ _)); [done|]. rewrite app_nil_r in Hn.
    destruct Hdone as (Hpre & _). rewrite Hn in *. by apply (anti_symm prefix).
  - destruct (apply_migration w i name db) as [ok db1] eqn:E.
    destruct (apply_one _ _ _ _ _ _ _ _ Hn Hseen Hdone E) as (Hk & done1 & Hd1 & Hle & Hok).
    destruct ok.
    + destruct (IH (seen ++ [name]) done1 (i + 1)%nat db1) as (Hk' & done2 & Hd2 & Hle2 & Hr);
        [by rewrite <- app_assoc|by apply Hok|done|done|].
      split; [by etrans|]. exists done2. refine (conj Hd2 (conj _ Hr)). by etrans.
    + injection Hall as <- <-. split; [done|]. by exists done1.
Qed.
End migrations.

(** ** Theorems *)

(** C31: Migrations that are interrupted resume.  A database that holds exactly what
    the first files of the directory do still does after any run with a free
    lock, however many of its transactions are broken off or fail; the run only
    adds files, forgets no time, and when it succeeds every file has been
    executed once, in order.  A run over a complete database changes nothing. *)
Theorem interrupted_migrations_resume {S} (execute : string -> S -> option S) names s w done_ db r db' :
  NoDup (map version_of names) -> (forall i, wd_lock_free w i = true) ->
  holds_prefix execute names s done_ db -> apply_all execute w 0 names db = (r, db') ->
  (exists done', holds_prefix execute names s done' db' /\ done_ `prefix_of` done' /\
     match r with Ok _ => done' = names | Err _ => True end) /\
  applied db ⊆ applied db' /\
  (done_ = names -> db_schema db' = db_schema db /\ applied db' = applied db).
Proof.
  intros Hv Hl Hd Hall.
  destruct (apply_rest execute names s w Hv Hl names [] done_ 0 db r db') as (Hk & done' & Hd' & Hle & Hr);
    [done|apply prefix_nil|done|done|].
  split_and!; [by exists done'|exact Hk|]. intros ->. destruct Hd as (_ & He & Hdom), Hd' as (Hpre & He' & Hdom').
  assert (done' = names) as -> by by apply (anti_symm prefix). split; [congruence|].
  symmetry. apply subseteq_dom_eq; [exact Hk|]. by rewrite Hdom, Hdom'.
Qed.

(** Three files over a schema that is the list of what was executed; the first
    run is broken off in its second transaction. *)
Definition sample_execute (name : string) (schema : list string) : option (list string) := Some (schema ++ [name]).
Definition sample_names : list string := ["001-a.sql"; "002-b.sql"; "003-c.sql"].
Definition free_world (broken : nat) (time : Z) : World := mkWorld (fun _ => true) (Nat.eqb broken) (fun _ => time).
Definition empty_db : Db (list string) := mkDb [] None.

Lemma interrupted_migrations_resume_witness :
  exists db1 db2,
    apply_all sample_execute (free_world 1 10) 0 sample_names empty_db = (Err "migration failed: 002-b.sql", db1) /\
    apply_all sample_execute (free_world 9 20) 0 sample_names db1 = (Ok tt, db2) /\
    db_schema db2 = sample_names /\ applied db1 ⊆ applied db2.
Proof.
  eexists _, _. split; [vm_compute; reflexivity|]. split; [vm_compute; reflexivity|]. split; [vm_compute; reflexivity|].
  eapply (interrupted_migrations_resume sample_execute sample_names [] (free_world 9 20) ["001-a.sql"]).
  - vm_compute. repeat (constructor; [set_solver|]). constructor.
  - done.
  - split; [by exists ["002-b.sql"; "003-c.sql"]|]. split; [reflexivity|]. vm_compute. reflexivity.
  - vm_compute. reflexivity.
Defined.

(** A busy lock counts as an applied migration: the script ends with success,
    so the run goes on to the next file and succeeds, and the database has the
    second file's version but not the first's. *)
Theorem busy_lock_counts_as_applied {S} (execute : string -> S -> option S) first second s s' broken time :
  version_of first <> version_of second -> execute second s = Some s' -> broken 1%nat = false ->
  exists db, apply_all execute (mkWorld (fun i => Nat.eqb i 1) broken time) 0 [first; second] (mkDb s None) = (Ok tt, db) /\
    db_schema db = s' /\ applied db !! version_of first = None /\ is_Some (applied db !! version_of second).
Proof.
  intros Hne He Hb. eexists. split.
  - cbn. unfold apply_migration. cbn. rewrite Hb, lookup_empty, He. reflexivity.
  - cbn. unfold applied. cbn. split; [done|]. rewrite lookup_insert_ne, lookup_insert_eq by done. by split.
Qed.

Lemma busy_lock_counts_as_applied_witness :
  exists db, apply_all sample_execute (mkWorld (fun i => Nat.eqb i 1) (fun _ => false) (fun _ => 5)) 0
    ["001-a.sql"; "002-b.sql"] (mkDb [] None) = (Ok tt, db) /\ db_schema db = ["002-b.sql"].
Proof.
  destruct (busy_lock_counts_as_applied sample_execute "001-a.sql" "002-b.sql" [] ["002-b.sql"] (fun _ => false) (fun _ => 5))
    as (db & Hdb & Hs & _); [by vm_compute|reflexivity|reflexivity|]. by exists db.
Defined.
