(* ===== verification/TaskOutcomes.v ===== *)
(** What the tasks of TaskCommands guarantee: the names and tasks of the
    scenario catalog, the verification of a stack that is always taken down, and
    the traceparents the trace verification takes. *)

From S2P Require Import Prelude Values Propagation Telemetry ScenarioCorpus ScenarioTraces TaskCommands.
Import Text Serde Telemetry Propagation ScenarioRegistry ScenarioOutcomes ScenarioTraces TaskCommands.

Local Open Scope result_scope.

(** ** The scenario catalog *)

Lemma each_res_inv {A} (f : A -> result string unit) l a u : each_res f l = Ok u -> a ∈ l -> f a = Ok tt.
Proof.
  destruct u. induction l as [|b l IH]; [set_solver|]. cbn [each_res]. intros H. apply res_bind_ok in H as ([] & Hb & Hl).
  intros [->|Hin]%elem_of_cons; [done|by apply IH].
Qed.

Lemma registered_names_semantic name : name ∈ SCENARIO_NAMES -> is_semantic_name name = true.
Proof.
  intros Hin. assert (H : forallb is_semantic_name SCENARIO_NAMES = true) by (vm_compute; reflexivity).
  rewrite forallb_forall in H. apply H. by apply list_elem_of_In.
Qed.

Lemma as_array_some v l : as_array v = Some l -> v = JArr l.
Proof. destruct v; try done. by intros [= ->]. Qed.
Lemma as_str_some v t : as_str v = Some t -> v = JStr t.
Proof. destruct v; try done. by intros [= ->]. Qed.

Lemma validated_task task name : validate_scenario_task task name = Ok tt ->
  jget "run" task = Some (JArr [JStr ("cargo run --locked -p playground-cli -- scenario " +:+ name)]) /\
  jget "aliases" task = Some (JArr []) /\ jget "raw" task = Some (JBool true) /\
  (forall shell, jget "shell" task = Some shell -> shell = JNull).
Proof.
  unfold validate_scenario_task. intros H. res_inv.
  repeat match goal with H : jget _ _ ≫= as_array = Some _ |- _ => apply bind_Some in H as (? & ? & ->%as_array_some) end.
  match goal with H : is_nil ?l = true |- _ => destruct l; [clear H|done] end.
  match goal with H : match ?runs with [] => _ | _ => _ end = Ok _ |- _ => destruct runs as [|entry [|? ?]]; [done| |done] end.
  res_inv. bool_inv. subst.
  match goal with H : as_str entry = Some _ |- _ => apply as_str_some in H as -> end. split_and!; [done..| |].
  - destruct (jget "raw" task) as [raw|]; [|done]. by destruct raw as [|[]| | | | |].
  - intros shell E. rewrite E in *. by destruct shell.
Qed.

(** A catalog that passes the check runs the program it names: for every
    registered scenario there is exactly one task of its name, which has no
    alias and no shell, forwards its arguments, and runs this scenario and
    nothing else. *)
Theorem checked_catalog_runs_scenarios legacy run_sh tasks readme runner_source name :
  check_scenarios legacy run_sh tasks readme runner_source = Ok tt ->
  one_of name (SCENARIO_NAMES ++ ["corpus:all"]) = true ->
  legacy = [] /\ run_sh = false /\
  exists task, List.filter (field_is "name" name) tasks = [task] /\
    jget "run" task = Some (JArr [JStr ("cargo run --locked -p playground-cli -- scenario " +:+ name)]) /\
    jget "aliases" task = Some (JArr []) /\ jget "raw" task = Some (JBool true) /\
    (forall shell, jget "shell" task = Some shell -> shell = JNull).
Proof.
  unfold check_scenarios. intros H Hname. res_inv. destruct legacy as [|path legacy]; [|done].
  destruct run_sh; [done|]. split_and!; [done..|].
  match goal with H : each_res (check_scenario_task tasks) _ = Ok _ |- _ => rename H into Htasks end.
  apply (each_res_inv _ _ name) in Htasks; [|by apply list_elem_of_In, one_of_In].
  unfold check_scenario_task in Htasks. destruct (List.filter _ tasks) as [|task [|? ?]]; [done| |done].
  exists task. split; [done|]. by apply validated_task.
Qed.

Definition sample_task (name : string) : json :=
  JObj [("name", JStr name); ("description", JStr "d"); ("aliases", JArr []); ("raw", JBool true);
        ("source", JStr "mise-scenarios.toml"); ("run", JArr [JStr ("cargo run --locked -p playground-cli -- scenario " +:+ name)])].
Definition sample_runner_source : string :=
  "async fn run_named " +:+ foldr (fun name text => quote +:+ name +:+ quote +:+ text) "" SCENARIO_NAMES +:+ "async fn current_executable".

Lemma checked_catalog_runs_scenarios_witness :
  exists task, List.filter (field_is "name" "traces:deep") (map sample_task (SCENARIO_NAMES ++ ["corpus:all"])) = [task] /\
    jget "run" task = Some (JArr [JStr "cargo run --locked -p playground-cli -- scenario traces:deep"]).
Proof.
  destruct (checked_catalog_runs_scenarios [] false (map sample_task (SCENARIO_NAMES ++ ["corpus:all"])) "" sample_runner_source
    "traces:deep") as (_ & _ & task & Hf & Hr & _); [vm_compute; reflexivity|vm_compute; reflexivity|].
  by exists task.
Defined.

(** ** The actions of a task *)

Section actions.
Context (parse_json : string -> option json) (vars : Vars) (answer : nat -> Action -> result string string) (clock : nat -> Z).

(** A task whose actions, whatever was done before, all satisfy a predicate *)
Definition within (P : Action -> Prop) {A} (m : Io A) : Prop :=
  forall log, exists more, (m log).2 = log ++ more /\ Forall P more.

Context (P : Action -> Prop).

Lemma within_none {A} (m : Io A) : (forall log, (m log).2 = log) -> within P m.
Proof. intros H log. exists []. by rewrite H, app_nil_r. Qed.
Lemma within_ret {A} (a : A) : within P (io_ret a).
Proof. by apply within_none. Qed.
Lemma within_lift {A} (r : result string A) : within P (io_lift r).
Proof. by apply within_none. Qed.
Lemma within_now : within P (now clock).
Proof. by apply within_none. Qed.
Lemma within_act a : P a -> within P (act answer a).
Proof. intros H log. exists [a]. split; [done|]. by constructor. Qed.

Lemma within_bind {A B} (m : Io A) (k : A -> Io B) : within P m -> (forall a, within P (k a)) -> within P (io_bind m k).
Proof.
  intros Hm Hk log. destruct (Hm log) as (more & Hl & Hf). unfold io_bind. destruct (m log) as [[a|e] log1]; simpl in *; subst log1.
  - destruct (Hk a (log ++ more)) as (more' & Hl' & Hf'). exists (more ++ more'). rewrite Hl', <- app_assoc.
    split; [done|]. by apply Forall_app.
  - by exists more.
Qed.
Lemma within_try {A} (m : Io A) : within P m -> within P (io_try m).
Proof. intros H log. destruct (H log) as (more & Hl & Hf). exists more. unfold io_try. by destruct (m log). Qed.
Lemma within_each {A} (f : A -> Io unit) l : (forall a, a ∈ l -> within P (f a)) -> within P (io_each f l).
Proof.
  induction l as [|a l IH]; intros H; cbn [io_each]; [apply within_ret|].
  apply within_bind; [apply H; set_solver|]. intros _. apply IH. set_solver.
Qed.
End actions.

Lemma io_bind_ok {A B} (m : Io A) (k : A -> Io B) log b log' :
  io_bind m k log = (Ok b, log') -> exists a log1, m log = (Ok a, log1) /\ k a log1 = (Ok b, log').
Proof. unfold io_bind. destruct (m log) as [[a|e] log1]; [|done]. intros H. by exists a, log1. Qed.

Lemma io_each_ok {A} (f : A -> Io unit) l log u log' a :
  io_each f l log = (Ok u, log') -> a ∈ l -> exists log1 log2, f a log1 = (Ok tt, log2).
Proof.
  revert log. induction l as [|b l IH]; intros log; [set_solver|]. cbn [io_each].
  intros (v & log1 & Hb & Hl)%io_bind_ok [->|Hin]%elem_of_cons; [exists log, log1; by destruct v|by eapply IH].
Qed.

Lemma act_ok answer a log out log' : act answer a log = (Ok out, log') -> exists n, answer n a = Ok out.
Proof. unfold act. destruct (answer _ a) as [o|] eqn:E; [|done]. intros [= -> _]. by exists (length log). Qed.

Section stack_lemmas.
Context (parse_json : string -> option json) (vars : Vars) (answer : nat -> Action -> result string string) (clock : nat -> Z).
Context (repository compose : string) (project : option string).

(** A command of the project, or a request *)
Definition of_project (a : Action) : Prop :=
  match a with
  | HttpGet _ => True
  | Process program args cwd env clear_env =>
      exists rest, a = docker repository compose project rest
  end.

Lemma loop_within fuel deadline : within of_project (compose_loop parse_json answer clock repository compose project fuel deadline).
Proof.
  induction fuel as [|fuel IH]; cbn [compose_loop]; [by apply within_none|].
  apply within_bind; [apply within_try, within_act; by eexists|]. intros [output|error].
  - destruct (verify_compose_state parse_json output); [apply within_ret|].
    apply within_bind; [apply within_now|]. intros at_. destruct (_ <=? _); [apply within_lift|apply IH].
  - apply within_bind; [apply within_now|]. intros at_. destruct (_ <=? _); [apply within_lift|apply IH].
Qed.

Lemma run_within fuel manage : within of_project (verify_stack_run parse_json vars answer clock repository compose project fuel manage).
Proof.
  unfold verify_stack_run. apply within_bind; [apply within_act; by eexists|]. intros _.
  apply within_bind.
  - destruct manage; [|apply within_act; by eexists]. apply within_bind; [apply within_lift|]. intros seconds.
    apply within_bind; [apply within_lift|]. intros _. apply within_bind; [apply within_act; by eexists|]. intros _.
    unfold wait_for_compose_state. apply within_bind; [apply within_now|]. intros start. apply loop_within.
  - intros output. apply within_bind; [apply within_lift|]. intros _. apply within_bind.
    { apply within_each. intros [[? ?] ?] _. apply within_bind; [by apply within_act|]. intros _. apply within_ret. }
    intros _. apply within_bind; [|intros _; apply within_ret]. apply within_each. intros [service command] _.
    apply within_bind; [apply within_act; by eexists|]. intros _. apply within_ret.
Qed.

(** A verification that succeeds has seen every surface answer, and the state
    it accepted was reported by Compose. *)
Lemma loop_seen fuel deadline log output log' :
  compose_loop parse_json answer clock repository compose project fuel deadline log = (Ok output, log') ->
  exists n, answer n (docker repository compose project ["ps"; "--all"; "--format"; "json"]) = Ok output.
Proof.
  revert log. induction fuel as [|fuel IH]; intros log; cbn [compose_loop]; [done|].
  intros (o & log1 & Ho & H)%io_bind_ok. unfold io_try in Ho.
  destruct (compose_status answer repository compose project log) as [r log2] eqn:E. injection Ho as <- <-.
  destruct r as [out|error].
  - destruct (verify_compose_state parse_json out).
    + injection H as <- _. by eapply act_ok.
    + apply io_bind_ok in H as (at_ & log3 & _ & H). destruct (_ <=? _); [done|by eapply IH].
  - apply io_bind_ok in H as (at_ & log3 & _ & H). destruct (_ <=? _); [done|by eapply IH].
Qed.

Lemma run_seen fuel manage log code log' :
  verify_stack_run parse_json vars answer clock repository compose project fuel manage log = (Ok code, log') ->
  code = 0 /\
  (exists n output, answer n (docker repository compose project ["ps"; "--all"; "--format"; "json"]) = Ok output /\
     verify_compose_state parse_json output = Ok tt) /\
  (forall service command, (service, command) ∈ dependency_surfaces ->
     exists n out, answer n (docker repository compose project (["exec"; "-T"; service] ++ command)) = Ok out).
Proof.
  unfold verify_stack_run. intros (_ & log1 & _ & (output & log2 & Hout & H)%io_bind_ok)%io_bind_ok.
  apply io_bind_ok in H as ([] & log3 & Hstate & H). apply io_bind_ok in H as (_ & log4 & _ & H).
  apply io_bind_ok in H as (u & log5 & Hdep & H). injection H as <- _. split; [done|]. split.
  - assert (Hs : verify_compose_state parse_json output = Ok tt).
    { unfold io_lift in Hstate. by destruct (verify_compose_state parse_json output) as [[]|]. }
    destruct manage.
    + apply io_bind_ok in Hout as (seconds & l1 & _ & Hout). apply io_bind_ok in Hout as (_ & l2 & _ & Hout).
      apply io_bind_ok in Hout as (_ & l3 & _ & Hout). apply io_bind_ok in Hout as (start & l4 & _ & (n & Hn)%loop_seen).
      by exists n, output.
    + apply act_ok in Hout as [n Hn]. by exists n, output.
  - intros service command Hin. destruct (io_each_ok _ _ _ _ _ _ Hdep Hin) as (l1 & l2 & He).
    apply io_bind_ok in He as (out & l3 & (n & Hn)%act_ok & _). by exists n, out.
Qed.
End stack_lemmas.

(** ** What a state of Compose must be *)

(** Every required service has its first row running and healthy, every
    required job its first row exited with code zero. *)
Definition stack_up (statuses : list ComposeServiceStatus) : Prop :=
  (forall service, service ∈ REQUIRED_RUNNING_COMPOSE_SERVICES -> exists row, status_of service statuses = Some row /\
     cs_state row = "running" /\ cs_health row = Some "healthy") /\
  (forall job, job ∈ REQUIRED_COMPLETED_COMPOSE_SERVICES -> exists row, status_of job statuses = Some row /\
     cs_state row = "exited" /\ cs_exit_code row = Some 0).

Lemma opt_is_some o s : opt_is o s = true -> o = Some s.
Proof. unfold opt_is. destruct o; [|done]. intros. bool_inv. by subst. Qed.

Lemma verified_state_up parse_json output : verify_compose_state parse_json output = Ok tt ->
  exists statuses, parse_compose_statuses parse_json output = Ok statuses /\ stack_up statuses.
Proof.
  unfold verify_compose_state. intros H. res_inv. exists x. split; [done|]. split; intros name Hin.
  - match goal with H : each_res (check_running _) _ = _ |- _ => apply (each_res_inv _ _ name) in H; [|done]; rename H into Hc end.
    unfold check_running in Hc. res_inv. bool_inv. eexists. split; [done|]. split; [done|]. by apply opt_is_some.
  - match goal with H : each_res (check_completed _) _ = _ |- _ => apply (each_res_inv _ _ name) in H; [|done]; rename H into Hc end.
    unfold check_completed in Hc. res_inv. bool_inv. eexists. split; [done|]. split; [done|].
    unfold opt_Z_is, is_some_and in *. destruct (cs_exit_code _) as [z|]; [|done]. bool_inv. by subst.
Qed.

(** C32: A managed stack is taken down, and belongs to its project.  Whatever the
    verification finds, its last action removes the project's containers and
    volumes, and every command before it names that project, so that no other
    stack is touched; and it reports success only when Compose has shown every
    service healthy and every job done, every dependency surface has answered,
    and the removal succeeded. *)
Theorem managed_stack_removed parse_json vars answer clock fuel repository uuid :
  vars "VERIFY_MANAGE_STACK" = Some "1" ->
  let compose := repository +:+ "/deploy/docker-compose.yml" in
  let project := Some (managed_compose_project_name uuid) in
  let down := docker repository compose project ["--profile"; "demo"; "down"; "-v"; "--remove-orphans"] in
  let out := verify_stack parse_json vars answer clock fuel repository true uuid [] in
  exists run, out.2 = run ++ [down] /\ Forall (of_project repository compose project) run /\
    forall code, out.1 = Ok code ->
      code = 0 /\ (exists text, answer (length run) down = Ok text) /\
      (exists n output statuses, answer n (docker repository compose project ["ps"; "--all"; "--format"; "json"]) = Ok output /\
         parse_compose_statuses parse_json output = Ok statuses /\ stack_up statuses) /\
      (forall service command, (service, command) ∈ dependency_surfaces ->
         exists n text, answer n (docker repository compose project (["exec"; "-T"; service] ++ command)) = Ok text).
Proof.
  intros Hv compose project down. unfold verify_stack. rewrite Hv. cbn [negb opt_is]. fold compose project.
  change (String.eqb "1" "1") with true. cbn [negb].
  destruct (run_within parse_json vars answer clock repository compose project fuel true []) as (run & Hrun & Hall).
  pose proof (run_seen parse_json vars answer clock repository compose project fuel true []) as Hseen.
  fold down. unfold io_bind, io_try, act.
  destruct (verify_stack_run parse_json vars answer clock repository compose project fuel true []) as [result log] eqn:E.
  simpl in Hrun. subst log. exists run.
  split_and!; [by destruct result, (answer (length run) down)|exact Hall|]. intros code Hcode.
  destruct result as [code'|error]; [|by destruct (answer (length run) down)].
  destruct (answer (length run) down) as [text|] eqn:Ed; [|done]. cbn in Hcode. injection Hcode as <-.
  destruct (Hseen code' run eq_refl) as (-> & (n & output & Hn & Hs) & Hd).
  apply verified_state_up in Hs as (statuses & Hp & Hu).
  split_and!; [done|by exists text|by exists n, output, statuses|exact Hd].
Qed.

(** A stack whose rows are all as they should be, over a parser that knows one
    text *)
Definition sample_rows : json := JArr (
  map (fun service => JObj [("Service", JStr service); ("State", JStr "running"); ("Health", JStr "healthy"); ("ExitCode", JNum 0)])
    REQUIRED_RUNNING_COMPOSE_SERVICES ++
  map (fun job => JObj [("Service", JStr job); ("State", JStr "exited"); ("Health", JStr ""); ("ExitCode", JNum 0)])
    REQUIRED_COMPLETED_COMPOSE_SERVICES).
Definition sample_parse (text : string) : option json := if String.eqb text "[rows]" then Some sample_rows else None.
Definition managed (name : string) : option string := if String.eqb name "VERIFY_MANAGE_STACK" then Some "1" else None.

Lemma managed_stack_removed_witness :
  (verify_stack sample_parse managed (fun _ _ => Ok "[rows]") (fun _ => 0) 1 "/r" true "abc" []).1 = Ok 0 /\
  exists statuses, parse_compose_statuses sample_parse "[rows]" = Ok statuses /\ stack_up statuses.
Proof.
  assert (H : (verify_stack sample_parse managed (fun _ _ => Ok "[rows]") (fun _ => 0) 1 "/r" true "abc" []).1 = Ok 0)
    by (vm_compute; reflexivity).
  split; [exact H|].
  destruct (managed_stack_removed sample_parse managed (fun _ _ => Ok "[rows]") (fun _ => 0) 1 "/r" "abc")
    as (run & _ & _ & Hok); [reflexivity|].
  destruct (Hok 0 H) as (_ & _ & (n & output & statuses & Ho & Hs) & _). injection Ho as <-. by exists statuses.
Defined.

(** ** The traceparent of a verification *)

Lemma lower_hexdigit value len : is_lower_hex value len = true -> str_len value =? len = true /\ str_forallb hexdigit value = true.
Proof.
  unfold is_lower_hex. intros H. bool_inv. split; [by apply Z.eqb_eq|].
  match goal with H : str_forallb _ _ = true |- _ => revert H end. clear. induction value as [|a value IH]; [done|]. cbn.
  intros [Ha Hv]%andb_true_iff. apply andb_true_iff. split; [|by apply IH]. unfold hexdigit, hex_digit, is_digit in *.
  destruct ((48 <=? byte_of a)%N && (byte_of a <=? 57)%N); [done|]. cbn in Ha. by rewrite Ha.
Qed.

(** Every traceparent the services store durably is taken, with its trace id. *)
Lemma durable_traceparent_taken value : validate_traceparent_header value = Ok tt ->
  exists version trace_id parent_id flags, split_on "-" value = [version; trace_id; parent_id; flags] /\
    validate_traceparent value = Ok trace_id.
Proof.
  unfold validate_traceparent_header, validate_traceparent. destruct (split_on "-" value) as [|version [|trace_id [|parent_id [|flags [|? ?]]]]]; try done.
  intros H. res_inv. bool_inv. subst.
  repeat match goal with H : is_lower_hex _ _ = true |- _ => apply lower_hexdigit in H as [? ?] end.
  exists "00", trace_id, parent_id, flags. split; [done|].
  repeat match goal with H : _ = _ |- _ => rewrite H; clear H end. reflexivity.
Qed.

(** The flags are only measured: a traceparent whose flags are no number is
    taken too, and the services then drop it. *)
Lemma bad_flags_taken :
  validate_traceparent "00-4bf92f3577b34da6a3ce929d0e0e4736-00f067aa0ba902b7-zz" = Ok "4bf92f3577b34da6a3ce929d0e0e4736" /\
  validate_traceparent_header "00-4bf92f3577b34da6a3ce929d0e0e4736-00f067aa0ba902b7-zz" = Err "durable W3C traceparent is invalid".
Proof. split; vm_compute; reflexivity. Qed.
