(* ===== verification/TestVerify.v ===== *)
(** The verification of an observable test run (cli/src/test_verify.rs): the
    spans of an invocation's traces, decoded, checked for the evidence a run
    must leave, and searched from the test spans for the application spans they
    cause.  [parse_json] is serde_json's parser; the order in which a hash set
    is walked is a parameter. *)

From S2P Require Import Prelude Values Telemetry ScenarioCorpus ScenarioTraces.
Import Text Serde Telemetry ScenarioRegistry ScenarioTraces.

Local Open Scope result_scope.

Definition POLL_ATTEMPTS : nat := 15.

Definition TEST_CASE_NAME : string := "test.case.name".
Definition TEST_CASE_RESULT_STATUS : string := "test.case.result.status".
Definition TEST_RESULT_STATUS_PASS : string := "pass".
Definition TEST_RESULT_STATUS_FAIL : string := "fail".
Definition TEST_CASE_PARAMETERS : string := "test.case.parameters".
Definition TEST_CASE_FAILURE_KIND : string := "test.case.failure.kind".
Definition TEST_FAILURE_KIND_ASSERTION : string := "assertion_failure".
Definition TEST_FAILURE_KIND_HARNESS : string := "harness_error".
Definition TEST_ATTEMPT_ORDINAL : string := "test.attempt.ordinal".
Definition TEST_CONFIGURATION_OS : string := "test.configuration.os".
Definition TEST_CONFIGURATION_ENVIRONMENT : string := "test.configuration.environment".
Definition TEST_CONFIGURATION_BROWSER : string := "test.configuration.browser".
Definition PARALLAX_TEST_ID : string := "parallax.test.id".

Record Summary : Type := mkSummary { su_traces : nat; su_test_attempts : nat; su_app_descendants : nat }.

(** The objects are kept as JSON objects. *)
Record DecodedSpan : Type := mkDecodedSpan {
  ds_span_id : string; ds_parent_span_id : option string; ds_name : string; ds_status_code : string;
  ds_attributes : json; ds_resource : json }.

(** ** The search *)

(** [by_parent]: the spans under each parent, in order *)
Definition add_child (m : gmap string (list DecodedSpan)) (span : DecodedSpan) : gmap string (list DecodedSpan) :=
  match ds_parent_span_id span with
  | Some parent => <[parent := default [] (m !! parent) ++ [span]]> m
  | None => m
  end.
Definition by_parent (spans : list DecodedSpan) : gmap string (list DecodedSpan) := foldl add_child ∅ spans.

Definition is_test (span : DecodedSpan) : bool := match jget TEST_CASE_NAME (ds_attributes span) with Some _ => true | None => false end.

(** The children of one parent: those pushed on the stack (the last on top) and
    the number that are not tests *)
Definition children_of (m : gmap string (list DecodedSpan)) (parent : string) : list DecodedSpan := default [] (m !! parent).
Definition app_spans (l : list DecodedSpan) : nat := length (List.filter (fun span => negb (is_test span)) l).

(** [None] is a search that the fuel does not suffice for. *)
Fixpoint search (fuel : nat) (m : gmap string (list DecodedSpan)) (frontier : list string) (seen : gset string)
    (descendants : nat) : option nat :=
  match fuel with
  | O => None
  | S fuel' =>
      match frontier with
      | [] => Some descendants
      | parent :: rest =>
          if bool_decide (parent ∈ seen) then search fuel' m rest seen descendants
          else
            let children := children_of m parent in
            search fuel' m (rev (map ds_span_id children) ++ rest) ({[parent]} ∪ seen) (descendants + app_spans children)%nat
      end
  end.

(** One turn for each test and each span, and the last *)
Definition search_fuel (spans tests : list DecodedSpan) : nat := S (length tests + length spans).

Section verification.
Context (parse_json : string -> option json).
(** The order of [test_ids.iter()] *)
Context (order : gset string -> list string).

(** ** Decoding *)

Definition decode_map (value : json) (field : string) : result string json :=
  raw <- ok_or (jget_str field value) ("span " +:+ field +:+ " is missing") ;;
  parsed <- ok_or (parse_json raw) "invalid JSON" ;;
  match parsed with JObj fields => Ok (JObj fields) | _ => Err ("span " +:+ field +:+ " is not an object") end.

Definition decode_span (value : json) : result string DecodedSpan :=
  span_id <- ok_or (jget_str "spanId" value) "spanId is missing" ;;
  name <- ok_or (jget_str "name" value) "span name is missing" ;;
  attributes <- decode_map value "attributes" ;;
  resource <- decode_map value "resource" ;;
  Ok (mkDecodedSpan span_id (jget_str "parentSpanId" value) name (default "" (jget_str "statusCode" value)) attributes resource).

(** ** The evidence of a run *)

Definition attribute_string (map_ : json) (key : string) : option string := jget_str key map_.
Definition attribute_i64 (map_ : json) (key : string) : option Z := jget key map_ ≫= as_i64.
Definition attribute_is (map_ : json) (key value : string) : bool := opt_is (attribute_string map_ key) value.
Definition is_some_ {A} (o : option A) : bool := match o with Some _ => true | None => false end.

Definition check_tests (invocation_id : string) (tests : list DecodedSpan) : result string unit :=
  ensure (negb (is_nil tests)) "no test-attempt spans were indexed" ;;
  ensure (forallb (fun span => attribute_is (ds_attributes span) CLI_INVOCATION_ID invocation_id ||
                               attribute_is (ds_resource span) CLI_INVOCATION_ID invocation_id) tests)
    "one or more test spans lost the invocation identity" ;;
  ensure (existsb (fun span => is_some_ (attribute_string (ds_attributes span) PARALLAX_TEST_ID)) tests)
    "explicit test identity fixture is missing" ;;
  ensure (existsb (fun span => is_some_ (attribute_string (ds_attributes span) TEST_CASE_PARAMETERS)) tests)
    "parameterized-test fixture is missing" ;;
  ensure (existsb (fun span => existsb (fun key => is_some_ (jget key (ds_attributes span)))
    [TEST_CONFIGURATION_OS; TEST_CONFIGURATION_ENVIRONMENT; TEST_CONFIGURATION_BROWSER]) tests)
    "test configuration attributes are missing" ;;
  ensure (existsb (fun span => is_some_and (attribute_i64 (ds_attributes span) TEST_ATTEMPT_ORDINAL) (Z.ltb 1)) tests)
    "retry attempt evidence is missing" ;;
  ensure (existsb (fun span => attribute_is (ds_attributes span) TEST_CASE_RESULT_STATUS TEST_RESULT_STATUS_PASS) tests)
    "passing test evidence is missing" ;;
  ensure (existsb (fun span => attribute_is (ds_attributes span) TEST_CASE_FAILURE_KIND TEST_FAILURE_KIND_ASSERTION) tests)
    "assertion-failure evidence is missing" ;;
  ensure (existsb (fun span => attribute_is (ds_attributes span) TEST_CASE_FAILURE_KIND TEST_FAILURE_KIND_HARNESS) tests)
    "harness-error evidence is missing" ;;
  ensure (forallb (fun span => is_some_ (attribute_string (ds_resource span) VCS_REF_HEAD_REVISION)) tests)
    "test resource revision is missing" ;;
  ensure (forallb (fun span => is_some_ (attribute_string (ds_resource span) SERVICE_VERSION)) tests)
    "test resource service version is missing" ;;
  ensure (existsb (fun span => one_of (ds_status_code span) ["ERROR"; "STATUS_CODE_ERROR"]) tests)
    "failed test span status is not ERROR".

Definition trace_span_values (trace : json) : list json := default [] (pointer ["data"; "trace"; "spans"] trace ≫= as_array).

Definition analyze (invocation_id stack : string) (traces : list json) : result string Summary :=
  spans <- collect_res decode_span (concat (map trace_span_values traces)) ;;
  ensure (existsb (fun span => String.eqb (ds_name span) "cli.command") spans)
    "exported cli.command wrapper parent is missing" ;;
  let tests := List.filter is_test spans in
  check_tests invocation_id tests ;;
  let test_ids : gset string := list_to_set (map ds_span_id tests) in
  descendants <- ok_or (search (search_fuel spans tests) (by_parent spans) (rev (order test_ids)) ∅ 0) "out of fuel" ;;
  ensure (0 <? descendants)%nat (stack +:+ " test spans have no stitched application descendants") ;;
  Ok (mkSummary (length traces) (length tests) descendants).

(** ** Fetching *)

(** The ids of the invocation's traces, once it has finished with success *)
Definition finished_traces (overview : json) : result string (list string) :=
  invocation <- ok_or (pointer ["data"; "invocation"] overview) "invocation is not indexed yet" ;;
  ensure (field_is "status" "finished" invocation) "invocation has not finished yet" ;;
  ensure (opt_Z_is (jget "exitCode" invocation ≫= as_i64) 0) "observable runner did not finish successfully" ;;
  traces <- ok_or (pointer ["data"; "tracesByInvocation"] overview ≫= as_array) "invocation traces are not indexed yet" ;;
  let trace_ids := omap (jget_str "traceId") traces in
  ensure (negb (is_nil trace_ids)) "invocation has no indexed traces" ;;
  Ok trace_ids.

(** A reply without GraphQL errors *)
Definition graphql (reply : result string json) : result string json :=
  response <- reply ;;
  ensure (no_graphql_errors response) "Parallax GraphQL error" ;;
  Ok response.

Definition fetch_and_analyze (invocation_id stack : string) (overview : result string json)
    (trace : string -> result string json) : result string Summary :=
  overview <- graphql overview ;;
  trace_ids <- finished_traces overview ;;
  traces <- collect_res (fun trace_id => graphql (trace trace_id)) trace_ids ;;
  analyze invocation_id stack traces.

(** [n] more attempts; the last error is the result of a run that never
    succeeded.  [overview i] and [trace i] answer the [i]-th attempt. *)
Fixpoint attempts (n i : nat) (last_error : string) (invocation_id stack : string) (overview : nat -> result string json)
    (trace : nat -> string -> result string json) : result string Summary :=
  match n with
  | O => Err last_error
  | S n' =>
      match fetch_and_analyze invocation_id stack (overview i) (trace i) with
      | Ok summary => Ok summary
      | Err error => attempts n' (S i) error invocation_id stack overview trace
      end
  end.
Definition verify (invocation_id stack : string) (overview : nat -> result string json)
    (trace : nat -> string -> result string json) : result string Summary :=
  ensure (one_of stack ["rust"; "java"; "web"]) ("unknown stack `" +:+ stack +:+ "`") ;;
  attempts POLL_ATTEMPTS 1 "" invocation_id stack overview trace.
End verification.

(** ** Lemmas *)

Definition under (parent : string) (span : DecodedSpan) : bool := opt_is (ds_parent_span_id span) parent.
(** The spans whose parent is in a set *)
Definition below (seen : gset string) (span : DecodedSpan) : bool :=
  match ds_parent_span_id span with Some parent => bool_decide (parent ∈ seen) | None => false end.

Lemma children_by_parent spans parent : children_of (by_parent spans) parent = List.filter (under parent) spans.
Proof.
  unfold by_parent, children_of. induction spans as [|span spans IH] using rev_ind; [cbn; by rewrite lookup_empty|].
  rewrite foldl_app, List.filter_app. cbn [foldl]. unfold add_child at 1. cbn [List.filter]. unfold under at 2, opt_is.
  destruct (ds_parent_span_id span) as [p|]; cbn; [|by rewrite app_nil_r].
  destruct (decide (p = parent)) as [->|Hne].
  - by rewrite lookup_insert_eq, String.eqb_refl, IH.
  - rewrite lookup_insert_ne, IH by done. apply String.eqb_neq in Hne. by rewrite Hne, app_nil_r.
Qed.

(** Number of spans that satisfy a predicate *)
Definition count (p : DecodedSpan -> bool) (spans : list DecodedSpan) : nat := length (List.filter p spans).

Lemma count_split p q r spans :
  (forall s, p s = q s || r s) -> (forall s, q s && r s = false) -> count p spans = (count q spans + count r spans)%nat.
Proof.
  intros Hp Hd. unfold count. induction spans as [|s spans IH]; [done|]. cbn. rewrite Hp. specialize (Hd s).
  destruct (q s), (r s); cbn in *; try done; lia.
Qed.

Lemma count_false p spans : (forall s, p s = false) -> count p spans = 0%nat.
Proof. intros H. unfold count. induction spans as [|s spans IH]; [done|]. cbn. by rewrite H. Qed.
Lemma count_le p spans : (count p spans <= length spans)%nat.
Proof. unfold count. apply List.filter_length_le. Qed.

Lemma below_empty span : below ∅ span = false.
Proof. unfold below. destruct (ds_parent_span_id span); [|done]. by apply bool_decide_eq_false_2. Qed.

Lemma below_insert parent seen span : parent ∉ seen ->
  below ({[parent]} ∪ seen) span = under parent span || below seen span /\ under parent span && below seen span = false.
Proof.
  intros Hn. unfold below, under, opt_is. destruct (ds_parent_span_id span) as [p|]; [|done].
  destruct (String.eqb_spec p parent) as [->|Hne]; split; repeat case_bool_decide; set_solver.
Qed.

Definition app_below (seen : gset string) (span : DecodedSpan) : bool := negb (is_test span) && below seen span.

Lemma app_below_insert parent seen spans : parent ∉ seen ->
  count (app_below ({[parent]} ∪ seen)) spans = (count (app_below seen) spans + app_spans (List.filter (under parent) spans))%nat.
Proof.
  intros Hn. rewrite Nat.add_comm.
  assert (H : app_spans (List.filter (under parent) spans) = count (fun s => negb (is_test s) && under parent s) spans).
  { unfold app_spans, count. induction spans as [|s spans IH]; [done|]. cbn. destruct (under parent s); cbn.
    - destruct (negb (is_test s)); cbn; by rewrite IH.
    - by rewrite andb_false_r. }
  rewrite H. apply count_split; intros s; destruct (below_insert parent seen s Hn) as [Hb Hd]; unfold app_below.
  - rewrite Hb. by destruct (negb _), (under _ _).
  - by destruct (negb _), (under _ _), (below _ _).
Qed.

Lemma below_rest parent seen spans : parent ∉ seen ->
  count (fun s => negb (below seen s)) spans =
  (count (fun s => negb (below ({[parent]} ∪ seen) s)) spans + length (List.filter (under parent) spans))%nat.
Proof.
  intros Hn. change (length (List.filter (under parent) spans)) with (count (under parent) spans).
  apply count_split; intros s; destruct (below_insert parent seen s Hn) as [Hb Hd]; rewrite Hb; revert Hd;
    destruct (under parent s), (below seen s); done.
Qed.

(** The span ids the tests reach: their own, and those of the spans under them *)
Inductive stitched (spans : list DecodedSpan) : string -> Prop :=
| stitched_test span : span ∈ spans -> is_test span = true -> stitched spans (ds_span_id span)
| stitched_child span parent : span ∈ spans -> ds_parent_span_id span = Some parent -> stitched spans parent ->
    stitched spans (ds_span_id span).

(** What a search has seen and what it still has to look at *)
Definition search_sound (spans : list DecodedSpan) (frontier : list string) (seen : gset string) : Prop :=
  (forall id, id ∈ seen \/ id ∈ frontier -> stitched spans id) /\
  (forall span, span ∈ spans -> is_test span = true -> ds_span_id span ∈ seen \/ ds_span_id span ∈ frontier) /\
  (forall span parent, span ∈ spans -> ds_parent_span_id span = Some parent -> parent ∈ seen ->
     ds_span_id span ∈ seen \/ ds_span_id span ∈ frontier).

Lemma under_elem spans parent span : span ∈ List.filter (under parent) spans <-> span ∈ spans /\ ds_parent_span_id span = Some parent.
Proof.
  rewrite !list_elem_of_In, filter_In. unfold under, opt_is. destruct (ds_parent_span_id span) as [p|]; [|naive_solver].
  rewrite String.eqb_eq. naive_solver.
Qed.

Lemma sound_step spans parent rest seen :
  search_sound spans (parent :: rest) seen ->
  search_sound spans (rev (map ds_span_id (List.filter (under parent) spans)) ++ rest) ({[parent]} ∪ seen).
Proof.
  intros (H1 & H2 & H3).
  assert (Hnew : forall id, id ∈ rev (map ds_span_id (List.filter (under parent) spans)) <->
    exists span, id = ds_span_id span /\ span ∈ spans /\ ds_parent_span_id span = Some parent).
  { intros id. rewrite list_elem_of_In, <- in_rev, <- list_elem_of_In, list_elem_of_fmap. by setoid_rewrite under_elem. }
  split_and!.
  - intros id. rewrite elem_of_app, Hnew. intros [Hin|[(span & -> & Hin & Hp)|Hin]].
    + apply H1. set_solver.
    + eapply stitched_child; [done|done|]. apply H1. set_solver.
    + apply H1. set_solver.
  - intros span Hin Ht. rewrite elem_of_app. destruct (H2 span Hin Ht) as [Hs|Hs]; set_solver.
  - intros span p Hin Hp Hseen. rewrite elem_of_app, Hnew. destruct (decide (p = parent)) as [->|Hne].
    + right. left. by exists span.
    + destruct (H3 span p Hin Hp) as [Hs|Hs]; set_solver.
Qed.

Lemma sound_skip spans parent rest seen :
  parent ∈ seen -> search_sound spans (parent :: rest) seen -> search_sound spans rest seen.
Proof.
  intros Hp (H1 & H2 & H3). split_and!.
  - intros id Hid. apply H1. set_solver.
  - intros span Hin Ht. destruct (H2 span Hin Ht) as [Hs|Hs]; set_solver.
  - intros span p Hin Hpar Hs. destruct (H3 span p Hin Hpar Hs) as [?|?]; set_solver.
Qed.

Lemma search_counts spans fuel frontier seen :
  search_sound spans frontier seen -> (length frontier + count (fun s => negb (below seen s)) spans < fuel)%nat ->
  exists reached : gset string, (forall id, id ∈ reached <-> stitched spans id) /\
    search fuel (by_parent spans) frontier seen (count (app_below seen) spans) = Some (count (app_below reached) spans).
Proof.
  revert frontier seen. induction fuel as [|fuel IH]; intros frontier seen Hs Hf; [lia|]. cbn [search].
  destruct frontier as [|parent rest].
  { exists seen. split; [|done]. destruct Hs as (H1 & H2 & H3). intros id. split; [intros; apply H1; by left|].
    induction 1 as [span Hin Ht|span p Hin Hp _ IHp].
    - destruct (H2 span Hin Ht); set_solver.
    - destruct (H3 span p Hin Hp IHp); set_solver. }
  case_bool_decide as Hin.
  - apply IH; [by eapply sound_skip|]. simpl in Hf. lia.
  - rewrite children_by_parent, <- app_below_insert by done. apply IH; [by apply sound_step|].
    rewrite length_app, length_rev, length_map. rewrite (below_rest parent) in Hf by done. simpl in Hf. lia.
Qed.

Lemma size_texts (l : list string) : (size (list_to_set l : gset string) <= length l)%nat.
Proof.
  induction l as [|s l IH]; [done|]. cbn [list_to_set foldr length].
  destruct (decide (s ∈ (list_to_set l : gset string))) as [Hin|Hn].
  - rewrite (proj1 (subseteq_union_L {[s]} _)); [lia|set_solver].
  - rewrite size_union, size_singleton by set_solver. lia.
Qed.

Lemma search_all spans (order : gset string -> list string) :
  (forall ids, order ids ≡ₚ elements ids) ->
  let tests := List.filter is_test spans in
  exists reached : gset string, (forall id, id ∈ reached <-> stitched spans id) /\
    search (search_fuel spans tests) (by_parent spans) (rev (order (list_to_set (map ds_span_id tests)))) ∅ 0 =
      Some (count (app_below reached) spans).
Proof.
  intros Horder tests. set (ids := list_to_set (map ds_span_id tests) : gset string).
  assert (Helem : forall id, id ∈ rev (order ids) <-> exists span, id = ds_span_id span /\ span ∈ spans /\ is_test span = true).
  { intros id. rewrite list_elem_of_In, <- in_rev, <- list_elem_of_In, (Horder ids), elem_of_elements.
    unfold ids, tests. rewrite elem_of_list_to_set, list_elem_of_fmap. setoid_rewrite list_elem_of_In.
    setoid_rewrite filter_In. setoid_rewrite <- list_elem_of_In. done. }
  rewrite <- (count_false (app_below ∅) spans) by (intros s; unfold app_below; by rewrite below_empty, andb_false_r).
  apply search_counts.
  - split_and!.
    + intros id [Hid|(span & -> & Hin & Ht)%Helem]; [set_solver|by apply stitched_test].
    + intros span Hin Ht. right. apply Helem. by exists span.
    + set_solver.
  - unfold search_fuel. pose proof (count_le (fun s => negb (below ∅ s)) spans). rewrite length_rev, (Horder ids).
    assert (size ids <= length tests)%nat; [|unfold size, set_size in *; simpl in *; lia].
    unfold ids. rewrite <- (length_map ds_span_id tests). apply size_texts.
Qed.

(** ** Theorems *)

(** C33: The application spans a run is credited with are exactly those its tests
    cause.  An accepted run counts the decoded spans that are no test's and
    whose parent is a test, a span under a test, and so on; the order in which
    the hash set of test ids is walked does not matter, every span is counted
    once, spans that refer to each other in a circle do not keep the search
    going, and there is at least one. *)
Theorem app_descendants_exact parse_json order invocation_id stack traces summary :
  (forall ids, order ids ≡ₚ elements ids) ->
  analyze parse_json order invocation_id stack traces = Ok summary ->
  exists spans (reached : gset string),
    collect_res (decode_span parse_json) (concat (map trace_span_values traces)) = Ok spans /\
    (forall id, id ∈ reached <-> stitched spans id) /\
    su_app_descendants summary = count (app_below reached) spans /\ (0 < su_app_descendants summary)%nat /\
    su_traces summary = length traces /\ su_test_attempts summary = count is_test spans.
Proof.
  intros Horder H. unfold analyze in H. res_inv.
  match goal with H : collect_res _ _ = Ok ?l |- _ => rename l into spans end.
  destruct (search_all spans order Horder) as (reached & Hr & Hsearch). exists spans, reached.
  match goal with H : search _ _ _ _ _ = Some _ |- _ => rewrite Hsearch in H; injection H as <- end.
  match goal with H : (_ <? _)%nat = true |- _ => apply Nat.ltb_lt in H end. by split_and!.
Qed.

(** The fixture of the code's own tests: each text stands for its attributes. *)
Section sample.
Let texts : list (string * list (string * json)) := [
  ("resource", [(CLI_INVOCATION_ID, JStr "run-1"); (VCS_REF_HEAD_REVISION, JStr "abc"); (SERVICE_VERSION, JStr "1")]);
  ("none", []);
  ("fail", [(TEST_CASE_NAME, JStr "assert"); (PARALLAX_TEST_ID, JStr "explicit"); (TEST_CASE_PARAMETERS, JStr "x=1");
            (TEST_CONFIGURATION_OS, JStr "linux"); (TEST_ATTEMPT_ORDINAL, JNum 1); (TEST_CASE_RESULT_STATUS, JStr "fail");
            (TEST_CASE_FAILURE_KIND, JStr "assertion_failure")]);
  ("error", [(TEST_CASE_NAME, JStr "harness"); (TEST_CONFIGURATION_OS, JStr "linux"); (TEST_ATTEMPT_ORDINAL, JNum 1);
             (TEST_CASE_RESULT_STATUS, JStr "fail"); (TEST_CASE_FAILURE_KIND, JStr "harness_error")]);
  ("pass", [(TEST_CASE_NAME, JStr "assert"); (TEST_CASE_PARAMETERS, JStr "x=1"); (TEST_ATTEMPT_ORDINAL, JNum 2);
            (TEST_CASE_RESULT_STATUS, JStr "pass")])].
Let span (id parent name status attributes : string) : json :=
  JObj [("spanId", JStr id); ("parentSpanId", JStr parent); ("name", JStr name); ("statusCode", JStr status);
        ("attributes", JStr attributes); ("resource", JStr "resource")].

Definition sample_texts (text : string) : option json := option_map JObj (assoc text texts).
Definition sample_trace : json := JObj [("data", JObj [("trace", JObj [("spans", JArr [
  span "root" "" "cli.command" "UNSET" "none"; span "fail" "root" "test.case" "ERROR" "fail";
  span "error" "root" "test.case" "ERROR" "error"; span "pass" "root" "test.case" "UNSET" "pass";
  span "app" "pass" "http.client" "UNSET" "none"; span "loop" "loop" "http.client" "UNSET" "none"])])])].
End sample.

Lemma app_descendants_exact_witness :
  analyze sample_texts elements "run-1" "rust" [sample_trace] = Ok (mkSummary 1 3 1) /\
  exists spans (reached : gset string), count (app_below reached) spans = 1%nat.
Proof.
  assert (H : analyze sample_texts elements "run-1" "rust" [sample_trace] = Ok (mkSummary 1 3 1)) by (vm_compute; reflexivity).
  split; [exact H|].
  destruct (app_descendants_exact sample_texts elements "run-1" "rust" [sample_trace] (mkSummary 1 3 1)) as
    (spans & reached & _ & _ & Hc & _); [done|exact H|]. by exists spans, reached.
Defined.
