(* ===== verification/TestReport.v ===== *)
(** The conversion of JUnit reports to test spans (cli/src/test_report.rs): the
    machine that reads the events of the XML parser, the attempts it makes of
    them, their summary, and the attributes of the span of one attempt.  The
    XML parser is not part of the repository: a report is the sequence of its
    events. *)

From Stdlib Require Import SpecFloat.
From S2P Require Import Prelude Values Propagation Telemetry RequestShapes ScenarioTraces TestVerify.
Import Text Float64 Telemetry Propagation Shapes ScenarioTraces TestVerify.

Local Open Scope result_scope.

(** ** Cases *)

Inductive Outcome : Type := Pass | Fail_ | Error_.
#[export] Instance outcome_eq_dec : EqDecision Outcome.
Proof. solve_decision. Defined.

Definition as_status (o : Outcome) : string :=
  match o with Pass => TEST_RESULT_STATUS_PASS | Fail_ | Error_ => TEST_RESULT_STATUS_FAIL end.
Definition failure_kind (o : Outcome) : string :=
  match o with Pass => "" | Fail_ => TEST_FAILURE_KIND_ASSERTION | Error_ => TEST_FAILURE_KIND_HARNESS end.

Record Diagnostic : Type := mkDiagnostic { dg_kind : string; dg_message : string; dg_stack : string }.

Record Case : Type := mkCase {
  ca_suite : string; ca_name : string; ca_class_name : option string; ca_duration_ms : option Z; ca_outcome : Outcome;
  ca_diagnostic : option Diagnostic; ca_attempt_ordinal : Z; ca_total_attempts : Z }.

Record ActiveCase : Type := mkActive {
  ac_case : Case; ac_kind : option string; ac_message : string; ac_stack : string; ac_reading_diagnostic : bool;
  ac_reading_flaky : bool; ac_prior_attempts : list Case }.

(** ** Events *)

(** The attributes of a tag in order: a key with its unescaped value, or why it
    cannot be read *)
Notation Attributes := (list (result string (string * result string string))).

Inductive XmlEvent : Type :=
| Start (name : string) (attributes : Attributes)
| Empty (name : string) (attributes : Attributes)
| Text (content : result string string)
| End_ (name : string)
| Other.

Fixpoint attribute (attributes : Attributes) (wanted : string) : result string (option string) :=
  match attributes with
  | [] => Ok None
  | Err error :: _ => Err error
  | Ok (key, value) :: rest =>
      if String.eqb key wanted then value <- value ;; Ok (Some value) else attribute rest wanted
  end.

(** [x.round() as u64] for a positive [x]: half away from zero, at the limit of
    the type *)
Definition round_u64 (x : spec_float) : Z :=
  match x with
  | S754_finite false m e =>
      Z.min (u64_modulus - 1) (if 0 <=? e then Zpos m * 2 ^ e else (2 * Zpos m + 2 ^ (- e)) / 2 ^ (1 - e))
  | S754_infinity false => u64_modulus - 1
  | _ => 0
  end.

Definition seconds_to_ms (value : option string) : option Z :=
  seconds ← value ≫= parse_f64;
  if is_finite seconds && f64_le f64_zero seconds then Some (round_u64 (f64_mul seconds (f64_of_Z 1000))) else None.

Definition is_diagnostic (name : string) : bool := one_of name ["failure"; "error"; "flakyFailure"].

(** ** The machine *)

Record ParseState : Type := mkParseState { ps_suites : list string; ps_active : option ActiveCase; ps_cases : list Case }.

(** A case that has just begun; the innermost suite is the last one. *)
Definition new_case (suites : list string) (attributes : Attributes) : result string Case :=
  name <- attribute attributes "name" ;;
  class_name <- attribute attributes "classname" ;;
  time <- attribute attributes "time" ;;
  Ok (mkCase (default "JUnit" (last suites)) (default "unnamed" name) class_name (seconds_to_ms time) Pass None 1 1).

Definition set_outcome (o : Outcome) (c : Case) : Case :=
  mkCase (ca_suite c) (ca_name c) (ca_class_name c) (ca_duration_ms c) o (ca_diagnostic c) (ca_attempt_ordinal c) (ca_total_attempts c).
Definition set_diagnosis (d : option Diagnostic) (c : Case) : Case :=
  mkCase (ca_suite c) (ca_name c) (ca_class_name c) (ca_duration_ms c) (ca_outcome c) d (ca_attempt_ordinal c) (ca_total_attempts c).
Definition set_ordinal (n : Z) (c : Case) : Case :=
  mkCase (ca_suite c) (ca_name c) (ca_class_name c) (ca_duration_ms c) (ca_outcome c) (ca_diagnostic c) n (ca_total_attempts c).
Definition set_total (n : Z) (c : Case) : Case :=
  mkCase (ca_suite c) (ca_name c) (ca_class_name c) (ca_duration_ms c) (ca_outcome c) (ca_diagnostic c) (ca_attempt_ordinal c) n.

Definition set_diagnostic (active : ActiveCase) (name : string) (attributes : Attributes) : result string ActiveCase :=
  type_ <- attribute attributes "type" ;;
  let kind := default name type_ in
  let outcome := if String.eqb name "error" || str_contains "abort" kind || str_contains "timeout" kind || str_contains "error" kind
    then Error_ else Fail_ in
  message <- attribute attributes "message" ;;
  Ok (mkActive (set_outcome outcome (ac_case active)) (Some kind) (default "" message) (ac_stack active)
    (ac_reading_diagnostic active) (ac_reading_flaky active) (ac_prior_attempts active)).

(** [kind.take()] and [mem::take]: the texts are only taken with a kind. *)
Definition finish_flaky_attempt (active : ActiveCase) : ActiveCase :=
  let diagnostic := option_map (fun kind => mkDiagnostic kind (ac_message active) (ac_stack active)) (ac_kind active) in
  let '(message, stack) := match ac_kind active with Some _ => ("", "") | None => (ac_message active, ac_stack active) end in
  let attempt := set_ordinal (Z.of_nat (length (ac_prior_attempts active)) + 1) (set_diagnosis diagnostic (ac_case active)) in
  mkActive (set_outcome Pass (ac_case active)) None message stack (ac_reading_diagnostic active) false
    (ac_prior_attempts active ++ [attempt]).

Definition read_text (content : string) (a : ActiveCase) : ActiveCase :=
  mkActive (ac_case a) (ac_kind a) (ac_message a) (ac_stack a +:+ content) (ac_reading_diagnostic a) (ac_reading_flaky a)
    (ac_prior_attempts a).
Definition begin_reading (flaky : bool) (a : ActiveCase) : ActiveCase :=
  mkActive (ac_case a) (ac_kind a) (ac_message a) (ac_stack a) true flaky (ac_prior_attempts a).
(** The end of a diagnostic: without a message the stack is the message. *)
Definition end_reading (a : ActiveCase) : ActiveCase :=
  let a := mkActive (ac_case a) (ac_kind a) (if is_empty (ac_message a) then ac_stack a else ac_message a) (ac_stack a) false
    (ac_reading_flaky a) (ac_prior_attempts a) in
  if ac_reading_flaky a then finish_flaky_attempt a else a.

(** The attempts of a finished case, the last being the case itself *)
Definition finish_case (a : ActiveCase) : list Case :=
  let case := match ac_kind a with
    | Some kind => set_diagnosis (Some (mkDiagnostic kind (ac_message a) (ac_stack a))) (ac_case a)
    | None => ac_case a
    end in
  let total_attempts := Z.of_nat (length (ac_prior_attempts a)) + 1 in
  map (set_total total_attempts) (ac_prior_attempts a) ++ [set_total total_attempts (set_ordinal total_attempts case)].

Definition with_active (s : ParseState) (f : ActiveCase -> result string ActiveCase) : result string ParseState :=
  match ps_active s with
  | None => Ok s
  | Some a => a <- f a ;; Ok (mkParseState (ps_suites s) (Some a) (ps_cases s))
  end.

Definition on_event (s : ParseState) (event : XmlEvent) : result string ParseState :=
  match event with
  | Start name attributes =>
      if String.eqb name "testsuite" then
        suite <- attribute attributes "name" ;;
        Ok (mkParseState (ps_suites s ++ [default "JUnit" suite]) (ps_active s) (ps_cases s))
      else if String.eqb name "testcase" then
        case <- new_case (ps_suites s) attributes ;;
        Ok (mkParseState (ps_suites s) (Some (mkActive case None "" "" false false [])) (ps_cases s))
      else if is_diagnostic name then
        with_active s (fun a => a <- set_diagnostic a name attributes ;; Ok (begin_reading (String.eqb name "flakyFailure") a))
      else Ok s
  | Empty name attributes =>
      if String.eqb name "testcase" then
        case <- new_case (ps_suites s) attributes ;;
        Ok (mkParseState (ps_suites s) (ps_active s) (ps_cases s ++ [case]))
      else if is_diagnostic name then
        with_active s (fun a =>
          a <- set_diagnostic a name attributes ;;
          Ok (if String.eqb name "flakyFailure" then finish_flaky_attempt a else a))
      else Ok s
  | Text content =>
      match ps_active s with
      | Some a => if ac_reading_diagnostic a then with_active s (fun a => content <- content ;; Ok (read_text content a)) else Ok s
      | None => Ok s
      end
  | End_ name =>
      if String.eqb name "testsuite" then Ok (mkParseState (removelast (ps_suites s)) (ps_active s) (ps_cases s))
      else if is_diagnostic name then with_active s (fun a => Ok (end_reading a))
      else if String.eqb name "testcase" then
        Ok match ps_active s with
           | Some a => mkParseState (ps_suites s) None (ps_cases s ++ finish_case a)
           | None => s
           end
      else Ok s
  | Other => Ok s
  end.

Fixpoint run_events (s : ParseState) (events : list (result string XmlEvent)) : result string ParseState :=
  match events with
  | [] => Ok s
  | event :: rest => event <- event ;; s <- on_event s event ;; run_events s rest
  end.
Definition parse (events : list (result string XmlEvent)) : result string (list Case) :=
  s <- run_events (mkParseState [] None []) events ;; Ok (ps_cases s).

(** ** The summary *)

Record ReportSummary : Type := mkReport { rp_total : nat; rp_passed : nat; rp_failed : nat; rp_errors : nat; rp_final_failures : nat }.

Definition outcome_is (o : Outcome) (c : Case) : bool := bool_decide (ca_outcome c = o).
Definition final_failure (c : Case) : bool :=
  (ca_attempt_ordinal c =? ca_total_attempts c) && negb (outcome_is Pass c).

(** One case counted *)
Definition count_case (s : ReportSummary) (c : Case) : ReportSummary :=
  let one (b : bool) := if b then 1%nat else 0%nat in
  mkReport (rp_total s) (rp_passed s + one (outcome_is Pass c)) (rp_failed s + one (outcome_is Fail_ c))
    (rp_errors s + one (outcome_is Error_ c)) (rp_final_failures s + one (final_failure c)).
Definition summarize (cases : list Case) : ReportSummary := foldl count_case (mkReport (length cases) 0 0 0 0) cases.

(** ** The span of an attempt *)

Definition test_parameters (name : string) : option string :=
  match str_rev name with
  | String "]" rest => '(parameters, _) ← split_once "[" rest; non_empty (Some (str_rev parameters))
  | _ => None
  end.

Definition explicit_test_id (vars : Vars) : option string := non_blank (vars "PARALLAX_TEST_ID").

Definition code_reference (c : Case) (binary_id test_name : option string) : string :=
  match non_empty binary_id, non_empty test_name with
  | Some binary, Some test => binary +:+ "::" +:+ test
  | _, _ => default (ca_suite c) (ca_class_name c) +:+ "::" +:+ ca_name c
  end.

(** [ms as i64] *)
Definition wrap_i64 (n : Z) : Z := (n + 2 ^ 63) mod 2 ^ 64 - 2 ^ 63.

Record TestSpan : Type := mkTestSpan {
  ts_attributes : list KeyValue; ts_status : option string; ts_event : option (string * list KeyValue) }.

Definition emit_case (vars : Vars) (os : string) (c : Case) : TestSpan :=
  let reference := code_reference c (vars "NEXTEST_BINARY_ID") (vars "NEXTEST_TEST_NAME") in
  mkTestSpan
    ([ kv TEST_CASE_NAME (ca_name c); kv TEST_CASE_RESULT_STATUS (as_status (ca_outcome c));
       kv "test.suite.name" (ca_suite c); kv "test.suite.run.status" (as_status (ca_outcome c));
       kv "cicd.pipeline.task.type" "test"; kv "cicd.pipeline.run.id" (default "local" (vars "CI_RUN_ID"));
       kv PARALLAX_TEST_ID (default reference (explicit_test_id vars)); kv "test.code_reference" reference;
       kv TEST_CONFIGURATION_OS os; kv TEST_CONFIGURATION_ENVIRONMENT (default "playground" (vars "PARALLAX_ENV"));
       kv_int TEST_ATTEMPT_ORDINAL (ca_attempt_ordinal c); kv_int "test.attempt.total" (ca_total_attempts c) ] ++
     match non_blank (vars "NEXTEST_ATTEMPT_ID") with Some id => [kv "test.attempt.id" id] | None => [] end ++
     match ca_duration_ms c with Some ms => [kv_int "test.case.duration_ms" (wrap_i64 ms)] | None => [] end ++
     match test_parameters (ca_name c) with Some parameters => [kv TEST_CASE_PARAMETERS parameters] | None => [] end ++
     match ca_diagnostic c with
     | Some d =>
         [kv TEST_CASE_FAILURE_KIND (failure_kind (ca_outcome c)); kv "test.failure.message" (dg_message d)] ++
         (if is_empty (dg_stack d) then [] else [kv "test.failure.stacktrace" (dg_stack d)])
     | None => []
     end)
    (option_map dg_message (ca_diagnostic c))
    (option_map (fun d => ("test.failure", [kv "exception.type" (dg_kind d); kv "exception.message" (dg_message d);
       kv "exception.stacktrace" (dg_stack d)])) (ca_diagnostic c)).

(** ** Lemmas *)

(** A case says why it failed exactly when it did. *)
Definition diagnosed (c : Case) : Prop := ca_outcome c = Pass <-> ca_diagnostic c = None.
Definition same_test (c d : Case) : Prop := ca_suite c = ca_suite d /\ ca_name c = ca_name d.

(** An earlier attempt, before the number of attempts is known *)
Definition prior_ok (test : Case) (i : nat) (c : Case) : Prop :=
  ca_attempt_ordinal c = Z.of_nat i + 1 /\ ca_outcome c <> Pass /\ diagnosed c /\ same_test c test.

(** All attempts of one test: they are numbered from one, know their number,
    and only the last can have passed. *)
Definition chain (attempts : list Case) : Prop :=
  exists prior final, attempts = prior ++ [final] /\
    (forall i c, attempts !! i = Some c ->
       ca_attempt_ordinal c = Z.of_nat i + 1 /\ ca_total_attempts c = Z.of_nat (length attempts) /\ diagnosed c /\ same_test c final) /\
    Forall (fun c => ca_outcome c <> Pass) prior.

Definition active_ok (a : ActiveCase) : Prop :=
  (ca_outcome (ac_case a) = Pass <-> ac_kind a = None) /\ (ac_reading_flaky a = true -> ac_kind a <> None) /\
  ca_diagnostic (ac_case a) = None /\ forall i c, ac_prior_attempts a !! i = Some c -> prior_ok (ac_case a) i c.

Definition state_ok (s : ParseState) : Prop :=
  (exists groups, ps_cases s = concat groups /\ Forall chain groups) /\ match ps_active s with Some a => active_ok a | None => True end.

Lemma new_case_fresh suites attributes c : new_case suites attributes = Ok c ->
  ca_outcome c = Pass /\ ca_diagnostic c = None /\ ca_attempt_ordinal c = 1 /\ ca_total_attempts c = 1.
Proof. unfold new_case. intros H. res_inv. done. Qed.

Lemma diagnosed_active a name attributes a' :
  active_ok a -> set_diagnostic a name attributes = Ok a' -> active_ok a' /\ ac_kind a' <> None.
Proof.
  intros (H1 & H2 & H3 & H4) H. unfold set_diagnostic in H. res_inv. unfold active_ok. simpl.
  destruct (_ || _); split_and!; done.
Qed.

Lemma finished_active a : active_ok a -> ac_kind a <> None -> active_ok (finish_flaky_attempt a).
Proof.
  intros (H1 & H2 & H3 & H4) Hk. unfold finish_flaky_attempt. destruct (ac_kind a) as [kind|] eqn:E; [|done].
  unfold active_ok. cbn. split_and!; [done|done|done|]. intros i c.
  intros [Hc|[Hlen Hc]]%lookup_app_Some.
  - destruct (H4 i c Hc) as (? & ? & ? & ?). done.
  - apply list_lookup_singleton_Some in Hc as [Hi <-]. unfold prior_ok, diagnosed, same_test. cbn.
    split_and!; [lia|by intros ?%H1|by split; [intros ?%H1|]|done|done].
Qed.

Lemma ended_active a : active_ok a -> active_ok (end_reading a).
Proof.
  intros (H1 & H2 & H3 & H4). unfold end_reading. cbn. destruct (ac_reading_flaky a) eqn:E.
  - apply finished_active; [|by apply H2]. by split_and!.
  - split_and!; [done|cbn; congruence|done|done].
Qed.

Lemma finished_chain a : active_ok a -> chain (finish_case a).
Proof.
  intros (H1 & _ & H3 & H4). unfold finish_case.
  set (case := match ac_kind a with Some _ => _ | None => _ end). set (n := Z.of_nat (length (ac_prior_attempts a)) + 1).
  assert (Hd : diagnosed case /\ same_test case (ac_case a)).
  { unfold case, diagnosed, same_test. destruct (ac_kind a); cbn; [|by rewrite H1, H3].
    split; [|done]. split; [by intros ?%H1|done]. }
  exists (map (set_total n) (ac_prior_attempts a)), (set_total n (set_ordinal n case)). split; [done|]. split.
  - rewrite length_app, length_map. cbn [length]. intros i c [Hc|[Hlen Hc]]%lookup_app_Some.
    + apply list_lookup_fmap_Some in Hc as (d & -> & Hd'). destruct (H4 i d Hd') as (Ho & _ & Hdg & Hs).
      destruct Hd as [_ [Hsu Hna]], Hs as [Hsu' Hna'].
      refine (conj Ho (conj _ (conj Hdg _))); [cbn; unfold n; lia|]. unfold same_test. cbn. by rewrite Hsu, Hna.
    + apply list_lookup_singleton_Some in Hc as [Hi <-]. rewrite length_map in *.
      refine (conj _ (conj _ (conj (proj1 Hd) _))); [cbn; unfold n; lia|cbn; unfold n; lia|done].
  - apply Forall_fmap, Forall_lookup. intros i c Hc. by apply (H4 i c Hc).
Qed.

Lemma event_ok s event s' : state_ok s -> on_event s event = Ok s' -> state_ok s'.
Proof.
  intros [(groups & Hg & Hc) Ha] H.
  assert (Hmore : forall group, chain group -> exists groups', ps_cases s ++ group = concat groups' /\ Forall chain groups').
  { intros group Hgroup. exists (groups ++ [group]). rewrite Hg, concat_app, Forall_app. cbn. rewrite app_nil_r.
    split; [done|]. by split; [|constructor]. }
  assert (Hwith : forall f, (forall a a', active_ok a -> f a = Ok a' -> active_ok a') -> with_active s f = Ok s' -> state_ok s').
  { intros f Hf Hw. unfold with_active in Hw. destruct (ps_active s) as [a|] eqn:E; [|injection Hw as <-; split; [by exists groups|by rewrite E]].
    res_inv. split; [by exists groups|]. cbn. by eapply Hf. }
  assert (Hsame : state_ok s) by (split; [by exists groups|done]).
  destruct event as [name attributes|name attributes|content|name|]; cbn [on_event] in H.
  - destruct (String.eqb name "testsuite"); [res_inv; split; [by exists groups|done]|].
    destruct (String.eqb name "testcase").
    { res_inv. apply new_case_fresh in H as (Hp & Hd & _).
      split; [by exists groups|]. cbn. unfold active_ok. cbn. by split_and!. }
    destruct (is_diagnostic name); [|by injection H as <-]. eapply Hwith; [|exact H]. intros a a' Hok Hf.
    apply res_bind_ok in Hf as (a1 & Hset & [= <-]). destruct (diagnosed_active _ _ _ _ Hok Hset) as [(? & ? & ? & ?) ?].
    by split_and!.
  - destruct (String.eqb name "testcase").
    { res_inv. apply new_case_fresh in H as (Hp & Hd & Ho & Ht).
      split; [|done]. apply Hmore. eexists [], _. split; [done|]. split; [|by constructor]. intros i c Hi.
      apply list_lookup_singleton_Some in Hi as [-> <-]. unfold diagnosed. rewrite Hp, Hd, Ho, Ht. done. }
    destruct (is_diagnostic name); [|by injection H as <-]. eapply Hwith; [|exact H]. intros a a' Hok Hf.
    apply res_bind_ok in Hf as (a1 & Hset & [= <-]). destruct (diagnosed_active _ _ _ _ Hok Hset) as [Hok' Hk].
    destruct (String.eqb name "flakyFailure"); [by apply finished_active|done].
  - destruct (ps_active s) as [a0|] eqn:E; [|injection H as <-; exact Hsame].
    destruct (ac_reading_diagnostic a0); [|injection H as <-; exact Hsame].
    eapply Hwith; [|exact H]. intros a a' Hok Hf.
    by apply res_bind_ok in Hf as (text & _ & [= <-]).
  - destruct (String.eqb name "testsuite"); [injection H as <-; split; [by exists groups|done]|].
    destruct (is_diagnostic name).
    { eapply Hwith; [|exact H]. intros a a' Hok [= <-]. by apply ended_active. }
    destruct (String.eqb name "testcase"); [|injection H as <-; exact Hsame].
    injection H as <-. destruct (ps_active s) as [a|] eqn:E; [|exact Hsame]. split; [|done].
    apply Hmore. by apply finished_chain.
  - injection H as <-. exact Hsame.
Qed.

Lemma events_ok s events s' : state_ok s -> run_events s events = Ok s' -> state_ok s'.
Proof.
  revert s. induction events as [|event events IH]; intros s Hs; cbn [run_events]; [by intros [= <-]|].
  intros H. res_inv. eapply IH; [|done]. by eapply event_ok.
Qed.

(** The summary as sums over the cases *)
Lemma count_cases s cases : let counted p := length (List.filter p cases) in
  foldl count_case s cases =
  mkReport (rp_total s) (rp_passed s + counted (outcome_is Pass)) (rp_failed s + counted (outcome_is Fail_))
    (rp_errors s + counted (outcome_is Error_)) (rp_final_failures s + counted final_failure).
Proof.
  revert s. induction cases as [|c cases IH]; intros s; cbn zeta; [cbn; destruct s; by rewrite !Nat.add_0_r|].
  cbn [foldl]. rewrite IH. unfold count_case. cbn.
  destruct (outcome_is Pass c), (outcome_is Fail_ c), (outcome_is Error_ c), (final_failure c); cbn; f_equal; lia.
Qed.

Lemma outcomes_partition cases :
  length cases = (length (List.filter (outcome_is Pass) cases) + length (List.filter (outcome_is Fail_) cases) +
    length (List.filter (outcome_is Error_) cases))%nat.
Proof.
  unfold outcome_is. induction cases as [|c cases IH]; [done|]. cbn.
  destruct (ca_outcome c); repeat case_bool_decide; try congruence; cbn; lia.
Qed.

(** Whether the last attempt of a test failed *)
Definition test_failed (attempts : list Case) : bool := is_some_and (last attempts) (fun c => negb (outcome_is Pass c)).

Lemma filter_nothing {A} (p : A -> bool) l : (forall a, a ∈ l -> p a = false) -> List.filter p l = [].
Proof.
  induction l as [|a l IH]; intros H; [done|]. cbn. rewrite H by set_solver. apply IH. set_solver.
Qed.

Lemma chain_final attempts : chain attempts ->
  length (List.filter final_failure attempts) = if test_failed attempts then 1%nat else 0%nat.
Proof.
  intros (prior & final & -> & Hall & _). unfold test_failed. rewrite last_snoc, List.filter_app, filter_nothing.
  - destruct (Hall (length prior) final) as (Ho & Ht & _); [by rewrite lookup_app_r, Nat.sub_diag|]. cbn.
    unfold final_failure. rewrite length_app in Ht. cbn in Ht. rewrite Ho, Ht, (proj2 (Z.eqb_eq _ _)) by lia. cbn.
    by destruct (negb _).
  - intros c [i Hc]%list_elem_of_lookup. destruct (Hall i c) as (Ho & Ht & _); [by apply lookup_app_l_Some|].
    unfold final_failure. rewrite length_app in Ht. cbn in Ht. apply lookup_lt_Some in Hc.
    rewrite Ho, Ht, (proj2 (Z.eqb_neq _ _)) by lia. done.
Qed.

Lemma concat_final groups : Forall chain groups ->
  length (List.filter final_failure (concat groups)) = length (List.filter test_failed groups).
Proof.
  induction 1 as [|group groups Hg _ IH]; [done|]. cbn. rewrite List.filter_app, length_app, IH, chain_final by done.
  by destruct (test_failed group).
Qed.

(** ** Theorems *)

(** C34: A report is read as tests and their attempts.  Whatever the events are, the
    cases of a report that is read are the attempts of its tests, test by test:
    the attempts of a test have its name and suite, are numbered from one, know
    their number, and all but the last have failed; a case carries a diagnostic
    exactly when it did not pass; and the summary counts every case once and
    every test whose last attempt failed once. *)
Theorem report_attempt_chains events cases :
  parse events = Ok cases ->
  exists tests, cases = concat tests /\ Forall chain tests /\ Forall diagnosed cases /\
    rp_total (summarize cases) =
      (rp_passed (summarize cases) + rp_failed (summarize cases) + rp_errors (summarize cases))%nat /\
    rp_final_failures (summarize cases) = length (List.filter test_failed tests).
Proof.
  unfold parse. intros H. res_inv. match goal with H : run_events _ _ = Ok _ |- _ => apply events_ok in H as [(tests & Hg & Hc) _] end.
  2: { split; [by exists []|done]. }
  exists tests. rewrite Hg. unfold summarize. rewrite count_cases. cbn -[concat].
  split_and!; [done|done| |apply outcomes_partition|by apply concat_final].
  apply Forall_concat. eapply Forall_impl; [exact Hc|]. intros group (prior & final & -> & Hall & _).
  apply Forall_lookup. intros i c Hi. by apply (Hall i c).
Qed.

(** The report of one of the code's own tests: two flaky cases *)
Definition sample_events : list (result string XmlEvent) :=
  let named (name : string) : Attributes := [Ok ("name", Ok name)] in
  let flaky (type_ message : string) : Attributes := [Ok ("type", Ok type_); Ok ("message", Ok message)] in
  map Ok [ Start "testsuite" (named "cli");
    Start "testcase" (named "abort"); Start "flakyFailure" (flaky "test abort" "SIGABRT"); Text (Ok "aborted");
    End_ "flakyFailure"; End_ "testcase";
    Start "testcase" (named "assert"); Start "flakyFailure" (flaky "test failure" "panicked"); Text (Ok "assertion stack");
    End_ "flakyFailure"; End_ "testcase"; End_ "testsuite"].

Example sample_report : option_map (map (fun c => (ca_name c, ca_outcome c, ca_attempt_ordinal c, ca_total_attempts c)))
    (match parse sample_events with Ok cases => Some cases | Err _ => None end) =
  Some [("abort", Error_, 1, 2); ("abort", Pass, 2, 2); ("assert", Fail_, 1, 2); ("assert", Pass, 2, 2)].
Proof. vm_compute. reflexivity. Qed.

Lemma report_attempt_chains_witness :
  exists cases tests, parse sample_events = Ok cases /\ cases = concat tests /\ Forall chain tests /\ length cases = 4%nat.
Proof.
  assert (H : exists cases, parse sample_events = Ok cases /\ length cases = 4%nat) by (eexists; split; vm_compute; reflexivity).
  destruct H as (cases & Hp & Hl). destruct (report_attempt_chains sample_events cases Hp) as (tests & Hc & Hf & _).
  by exists cases, tests.
Defined.

Example durations : map seconds_to_ms [Some "1.234"; Some "nan"; Some "-1"; Some "0.0005"; Some "1e300"; None] =
  [Some 1234; None; None; Some 1; Some (2 ^ 64 - 1); None].
Proof. vm_compute. reflexivity. Qed.
Example parameters : map test_parameters ["tests::quote[usd, pro]"; "tests::quote"; "tests::quote[]"; "a[b]c]"; "["] =
  [Some "usd, pro"; None; None; Some "b]c"; None].
Proof. vm_compute. reflexivity. Qed.
