(* ===== verification/Cli.v ===== *)
(** The entry point of the CLI (cli/src/main.rs): the commands with their names
    and modes, the exit code, the options, the simulated execution stack of a
    daemon and its capsule child, and the scheduled job.  What a command emits
    is a list of emissions in order; identities, the clock and the answers of
    other processes are parameters. *)

From S2P Require Import Prelude Values Propagation Telemetry.
Import Text Serde Telemetry Propagation.

Local Open Scope result_scope.

(** ** Emissions *)

Inductive Level : Type := Info | Warn | Error.

(** A span that begins and becomes the current one (detached: as the root of a
    trace of its own), a value recorded on a span, the error of the current span
    ([mark_span_error]), a span that stops being current, one that ends; a log
    line; a pause, in microseconds *)
Inductive Emission : Type :=
| SpanBegin (detached : bool) (name : string) (attrs : list (string * string))
| SpanValue (name key value : string)
| SpanErr (error_type : string)
| SpanExit (name : string)
| SpanFinish (name : string)
| LogLine (level : Level) (message : string) (attrs : list (string * string))
| Pause (micros : Z).

Definition show_bool (b : bool) : string := if b then "true" else "false".

(** ** Commands *)

Definition APP_MODE_ONE_SHOT : string := "one_shot".
Definition APP_MODE_INTERACTIVE : string := "interactive".
Definition APP_MODE_DAEMON : string := "daemon".
Definition APP_MODE_CAPSULE : string := "capsule".
Definition BACKGROUND_CYCLE_QUEUE_HEALTH : string := "queue_health".
Definition BACKGROUND_CYCLE_PRICE_REFRESH : string := "price_refresh".

(** The modes that start without telemetry when no collector is named *)
Definition LOCAL_MODES : list string := [
  "test-report"; "test-verify"; "commerce-verify"; "check-scenarios"; "check-fanout"; "selene-fixture"; "check-typescript";
  "check-typescript-policy"; "postgres-migrate"; "postgres-verify"; "postgres-idempotence"; "webhook-listener"; "demo-stack";
  "demo-fresh"].
Definition telemetry_on (vars : Vars) (mode : string) : bool :=
  negb (one_of mode LOCAL_MODES &&
        match vars "OTEL_EXPORTER_OTLP_ENDPOINT" with Some endpoint => is_blank endpoint | None => true end).

Definition COMMAND_NAMES : list (string * string) := [
  ("cron", "playground.cron"); ("daemon", "playground.daemon"); ("enter", "playground.enter");
  ("console", "playground.console"); ("shapes", "playground.shapes"); ("test-report", "playground.test.report");
  ("test-verify", "playground.test.verify"); ("commerce-verify", "playground.commerce.verify");
  ("scenario", "playground.scenario"); ("check-scenarios", "playground.check.scenarios");
  ("check-fanout", "playground.check.fanout"); ("selene-fixture", "playground.selene.fixture");
  ("check-typescript", "playground.check.typescript"); ("check-typescript-policy", "playground.check.typescript");
  ("verify-stack", "playground.verify.stack"); ("verify-trace", "playground.verify.trace");
  ("observable-test", "playground.test.observable"); ("postgres-migrate", "playground.postgres.migrate");
  ("postgres-verify", "playground.postgres.verify"); ("postgres-idempotence", "playground.postgres.idempotence");
  ("webhook-listener", "playground.tools.webhook_listener"); ("demo-stack", "playground.demo.stack")].
Definition command_name (mode : string) : string := default "playground.drive" (assoc mode COMMAND_NAMES).

Definition app_mode (mode : string) : string :=
  if String.eqb mode "daemon" then APP_MODE_DAEMON
  else if String.eqb mode "enter" then APP_MODE_CAPSULE
  else if String.eqb mode "console" then APP_MODE_INTERACTIVE
  else APP_MODE_ONE_SHOT.

Definition outcome_for_exit (code : Z) : string := if code =? 0 then OUTCOME_SUCCESS else OUTCOME_FAILURE.

(** The modes with an arm of their own; any other drives a checkout. *)
Definition MODES : list string := [
  "test-report"; "test-verify"; "commerce-verify"; "scenario"; "check-scenarios"; "check-fanout"; "selene-fixture";
  "check-typescript"; "check-typescript-policy"; "verify-stack"; "verify-trace"; "observable-test"; "postgres-migrate";
  "postgres-verify"; "postgres-idempotence"; "webhook-listener"; "demo-stack"; "demo-fresh"; "cron"; "daemon"; "enter";
  "console"; "shapes"].

Definition missed_cron (mode : string) (rest : list string) : bool :=
  String.eqb mode "cron" && opt_is (head rest) "missed".

(** The run of [main]: its handler (by mode and arguments) gives the emissions
    and a code or an error; the result is the exit code and everything emitted.
    An error is reported when the root span is no longer the current one. *)
Definition main (invocation_id : string) (handler : string -> list string -> list Emission * result string Z)
    (args : list string) : Z * list Emission :=
  let mode := default "" (head args) in
  let rest := tail args in
  if missed_cron mode rest then (0, [])
  else
    let '(emitted, result) := handler mode rest in
    let '(code, error) := match result with
      | Ok code => (code, [])
      | Err error => (1, [SpanErr "cli_error"; LogLine Error "cli failed" [("error", error)]])
      end in
    (code,
     SpanBegin false "cli.command" [("otel.kind", "internal"); (CLI_INVOCATION_ID, invocation_id);
       ("cli.command.name", command_name mode); ("app.mode", app_mode mode)] ::
     emitted ++ SpanExit "cli.command" :: error ++
     [SpanValue "cli.command" "outcome" (outcome_for_exit code); SpanValue "cli.command" "process.exit.code" (show_Z code);
      SpanFinish "cli.command"]).

(** ** Options *)

Definition flag_present (args : list string) (flag : string) : bool := one_of flag args.

(** [args.windows(2).find(..)] *)
Fixpoint option_value (args : list string) (flag : string) : option string :=
  match args with
  | name :: ((value :: _) as rest) => if String.eqb name flag then Some value else option_value rest flag
  | _ => None
  end.

(** ** The execution stack *)

(** A process to be started: its arguments, and the changes of its environment
    in order ([None] removes a variable) *)
Record Child : Type := mkChild { ch_args : list string; ch_env : list (string * option string) }.

(** The environment of the child of a process with the environment [vars] *)
Definition child_vars (changes : list (string * option string)) (vars : Vars) : Vars :=
  foldl (fun vars change name => if String.eqb name change.1 then change.2 else vars name) vars changes.

Definition execution_child_command (session invocation_id : string) (orphan : bool) (carrier : list (string * string))
    (resource_attributes : option string) : Child :=
  mkChild (["enter"; "--session"; session] ++ (if orphan then ["--orphan"] else []))
    ([(INVOCATION_ENV, Some invocation_id);
      ("OTEL_RESOURCE_ATTRIBUTES", Some (resource_attrs_with_invocation_id resource_attributes invocation_id))] ++
     if orphan then [("TRACEPARENT", None); ("TRACESTATE", None); ("BAGGAGE", None)]
     else map (fun '(key, value) => (key, Some value)) carrier ++
          [("BAGGAGE", Some (SESSION_ID +:+ "=" +:+ session +:+ "," +:+ CLI_INVOCATION_ID +:+ "=" +:+ invocation_id))]).

Definition background_cycle (invocation_id name : string) (fail : bool) : list Emission :=
  [SpanBegin true "background.cycle" [("otel.kind", "internal"); (CLI_INVOCATION_ID, invocation_id);
     ("background.cycle.name", name); ("outcome", if fail then OUTCOME_FAILURE else OUTCOME_SUCCESS)];
   Pause 15000] ++
  (if fail then [SpanErr "cycle_failure"; LogLine Error "background cycle failed" [("cycle", name)]]
   else [LogLine Info "background cycle completed" [("cycle", name)]]) ++
  [SpanFinish "background.cycle"].

(** The cycles while the daemon is held: a reading of the clock, in
    milliseconds, comes before each; [None] when the fuel does not suffice. *)
Fixpoint hold_cycles (clock : nat -> Z) (invocation_id : string) (fuel i : nat) (deadline : Z) : option (list Emission) :=
  match fuel with
  | O => None
  | S fuel' =>
      if clock i <? deadline then
        rest ← hold_cycles clock invocation_id fuel' (S i) deadline;
        Some (Pause 5000000 :: background_cycle invocation_id BACKGROUND_CYCLE_QUEUE_HEALTH false ++ rest)
      else Some []
  end.

(** The child's end: its code, if it had one, or why it did not start *)
Definition daemon_session (vars : Vars) (clock : nat -> Z) (fuel : nat) (session invocation_id : string) (orphan : bool)
    (carrier : list (string * string)) (child : Child -> result string (option Z)) : option (list Emission * result string Z) :=
  let begin := [SpanBegin false "daemon_session" [("otel.kind", "internal"); ("app.mode", APP_MODE_DAEMON);
    (SESSION_ID, session); ("orphan", show_bool orphan)]] ++
    background_cycle invocation_id BACKGROUND_CYCLE_QUEUE_HEALTH false ++
    background_cycle invocation_id BACKGROUND_CYCLE_PRICE_REFRESH true ++
    [LogLine Info "spawning execution child" [("session", session); ("invocation_id", invocation_id); ("orphan", show_bool orphan)]] in
  let finish := [SpanFinish "daemon_session"] in
  match child (execution_child_command session invocation_id orphan carrier (vars "OTEL_RESOURCE_ATTRIBUTES")) with
  | Err error => Some (begin ++ finish, Err error)
  | Ok exit =>
      held ← match vars "PLAYGROUND_DAEMON_HOLD_SECONDS" ≫= parse_u64 with
             | Some hold => hold_cycles clock invocation_id fuel 1 (clock 0%nat + hold * 1000)
             | None => Some []
             end;
      let code := default 1 exit in
      Some (begin ++ held ++
            (if bool_decide (exit = Some 0) then []
             else [SpanErr "child_exit"; LogLine Error "execution child failed" [("exit_code", show_Z code)]]) ++ finish,
            Ok code)
  end.

(** A daemon without a session of its own is given a fresh one. *)
Definition daemon (vars : Vars) (clock : nat -> Z) (fuel : nat) (invocation_id fresh_session : string) (args : list string)
    (carrier : list (string * string)) (child : Child -> result string (option Z)) : option (list Emission * result string Z) :=
  let session := default fresh_session (option_value args "--session") in
  let orphan := flag_present args "--orphan" in
  '(emitted, result) ← daemon_session vars clock fuel session invocation_id orphan carrier child;
  Some (SpanBegin false "host_cli" [("otel.kind", "client"); (CLI_INVOCATION_ID, invocation_id); (SESSION_ID, session);
          ("orphan", show_bool orphan)] :: emitted ++ [SpanFinish "host_cli"], result).

Definition execute_tool (tool command : string) (fail : bool) : list Emission :=
  [SpanBegin false "execute_tool" [("otel.kind", "internal"); ("gen_ai.operation.name", "execute_tool"); ("tool.name", tool);
     ("shell.command", command)]; Pause 25000] ++
  (if fail then [SpanErr "command_exit";
     LogLine Error "tool command failed" [("exit_code", "2"); ("tool", tool); ("command", command)]]
   else [LogLine Info "tool command succeeded" [("tool", tool); ("command", command)]]) ++
  [SpanFinish "execute_tool"].

Definition invoke_agent (session conversation_id : string) : list Emission :=
  [SpanBegin false "invoke_agent" [("otel.kind", "internal"); ("gen_ai.operation.name", "invoke_agent");
     ("gen_ai.agent.name", "claude"); ("gen_ai.provider.name", "anthropic"); ("gen_ai.conversation.id", conversation_id);
     (SESSION_ID, session)]; LogLine Info "agent invocation started" []] ++
  execute_tool "inspect_repo" "rg --files" false ++ execute_tool "shell_command" "false" true ++
  [LogLine Info "agent invocation finished" []; SpanFinish "invoke_agent"].

(** The parent of the span is read from the environment, by [set_parent_from_env]. *)
Definition enter (invocation_id fresh_session conversation_id : string) (args : list string) : list Emission * result string Z :=
  let session := default fresh_session (option_value args "--session") in
  let orphan := flag_present args "--orphan" in
  ([SpanBegin false "container_session" ((if orphan then [("otel.kind", "client"); ("url.full", "container://agent")]
      else [("otel.kind", "internal")]) ++ [("app.mode", APP_MODE_CAPSULE); (CLI_INVOCATION_ID, invocation_id);
      (SESSION_ID, session); ("orphan", show_bool orphan)]);
    LogLine Info "entered simulated capsule" [("session", session); ("invocation_id", invocation_id); ("orphan", show_bool orphan)]] ++
   invoke_agent session conversation_id ++ [SpanFinish "container_session"], Ok 0).

(** ** The trace context in the environment (propagation.rs) *)

(** The names under which the propagator's fields travel *)
Definition env_key (key : string) : option string :=
  let key := to_ascii_lowercase key in
  if String.eqb key "traceparent" then Some "TRACEPARENT"
  else if String.eqb key "tracestate" then Some "TRACESTATE"
  else if String.eqb key "baggage" then Some "BAGGAGE"
  else None.

(** [EnvInjector]: the values set, of which the last of each name counts, in
    the order of the names *)
Definition env_value (sets : list (string * string)) (name : string) : option string :=
  assoc name (rev (omap (fun '(key, value) => name ← env_key key; Some (name, value)) sets)).
Definition into_env (sets : list (string * string)) : list (string * string) :=
  omap (fun name => value ← env_value sets name; Some (name, value)) ["BAGGAGE"; "TRACEPARENT"; "TRACESTATE"].

Definition has_nonempty_value (values : list (string * string)) (key : string) : bool :=
  existsb (fun '(name, value) => String.eqb name key && negb (is_empty value)) values.

(** [sets] is what the propagator injects for the context. *)
Definition context_env (sets : list (string * string)) : list (string * string) :=
  let values := into_env sets in
  values ++ (if has_nonempty_value values "TRACEPARENT" && negb (has_nonempty_value values "TRACESTATE")
             then [("TRACESTATE", "playground=commerce")] else []).

(** [EnvExtractor]: what the propagator reads back *)
Definition env_extracted (vars : Vars) (key : string) : option string :=
  name ← env_key key; non_blank (vars name).

(** ** The scheduled job *)

Inductive CronOutcome : Type := CronOk | CronFail | CronStuck.

Definition as_outcome (o : CronOutcome) : string :=
  match o with CronOk => OUTCOME_SUCCESS | CronFail => OUTCOME_FAILURE | CronStuck => OUTCOME_TIMEOUT end.

Definition cron_once (invocation_id : string) (outcome : CronOutcome) (duplicate_ordinal : Z) : list Emission * Z :=
  let inside := match outcome with
    | CronOk => ([LogLine Info "cron job succeeded" [(CLI_INVOCATION_ID, invocation_id)]], 0)
    | CronFail => ([SpanErr "nonzero_exit"; LogLine Error "cron job failed" [(CLI_INVOCATION_ID, invocation_id)]], 1)
    | CronStuck => ([LogLine Warn "cron job stuck: long-running check-in" []; Pause 2000000], 0)
    end in
  (SpanBegin false "cron_job" [("otel.kind", "internal"); (CLI_INVOCATION_ID, invocation_id);
     ("cron.job.name", "playground-report"); ("cron.schedule", "*/1 * * * *"); ("outcome", as_outcome outcome);
     ("cron.duplicate.ordinal", show_Z duplicate_ordinal)] :: inside.1 ++ [SpanFinish "cron_job"], inside.2).

(** By the nanoseconds of the clock within its second *)
Definition weighted_cron_outcome (subsec_nanos : Z) : CronOutcome :=
  let bucket := subsec_nanos mod 100 in
  if bucket <=? 89 then CronOk else if bucket <=? 94 then CronFail else CronStuck.

Definition cron (invocation_id : string) (subsec_nanos : Z) (args : list string) : list Emission * result string Z :=
  let once outcome := let '(emitted, code) := cron_once invocation_id outcome 0 in (emitted, Ok code) in
  let mode := default "weighted" (head args) in
  if String.eqb mode "ok" then once CronOk
  else if String.eqb mode "fail" then once CronFail
  else if String.eqb mode "stuck" then once CronStuck
  else if String.eqb mode "duplicate" then
    let '(first, code1) := cron_once invocation_id CronOk 1 in
    let '(second, code2) := cron_once invocation_id CronOk 2 in
    (first ++ Pause 250000 :: second, Ok (Z.max code1 code2))
  else if String.eqb mode "missed" then ([], Ok 0)
  else if one_of mode ["weighted"; ""] then once (weighted_cron_outcome subsec_nanos)
  else ([], Err ("unknown cron mode: " +:+ mode)).

(** ** The commands that report a result *)

(** A status prints with its reason phrase. *)
Definition checkout_response_body (status_text : Z -> string) (status : Z) (body : string) : result string string :=
  if (200 <=? status) && (status <? 300) then Ok body
  else Err ("checkout returned HTTP " +:+ status_text status +:+ ": " +:+ body).

Definition drive_request (invocation_id : string) : json :=
  JObj [("tenant_id", JStr "tenant-acme"); ("customer_id", JStr "customer-acme-ava");
    ("items", JArr [JObj [("sku", JStr "WIDGET-1"); ("quantity", JNum 3)]]); ("currency_code", JStr "USD");
    ("payment_method_token", JStr "tok_visa"); ("request_id", JStr ("cli-" +:+ invocation_id))].

(** The checkout's answer: a status and a body, or a failure of the request *)
Definition drive (status_text : Z -> string) (vars : Vars) (invocation_id : string) (post : string -> json -> result string (Z * string)) :
    list Emission * result string Z :=
  let url := default "http://localhost:8088" (vars "CHECKOUT_URL") +:+ "/checkout" in
  let result :=
    reply <- post url (drive_request invocation_id) ;;
    checkout_response_body status_text reply.1 reply.2 in
  ([SpanBegin false "drive" [("otel.kind", "client")]] ++
   match result with
   | Ok _ => [LogLine Info "drove checkout" [("url", url); (CLI_INVOCATION_ID, invocation_id)]]
   | Err _ => []
   end ++ [SpanFinish "drive"],
   _ <- result ;; Ok 0).

Definition DEFAULT_API_URL : string := "http://127.0.0.1:4000".
Definition test_verify_command (verify : string -> string -> string -> result string unit) (args : list string) : result string Z :=
  match args with
  | invocation_id :: stack :: rest => _ <- verify (default DEFAULT_API_URL (head rest)) invocation_id stack ;; Ok 0
  | _ => Err "usage: playground test-verify <invocation-id> <rust|java|web> [parallax-api-url]"
  end.
Definition commerce_verify_command (verify : string -> string -> result string unit) (args : list string) : result string Z :=
  match args with
  | trace_id :: rest => _ <- verify (default DEFAULT_API_URL (head rest)) trace_id ;; Ok 0
  | _ => Err "usage: playground commerce-verify <trace-id> [parallax-api-url]"
  end.
(** [emit] gives the number of tests whose last attempt failed. *)
Definition test_report_command (emit : string -> result string nat) (args : list string) : result string Z :=
  match args with
  | path :: _ => final_failures <- emit path ;; Ok (if (final_failures =? 0)%nat then 0 else 1)
  | [] => Err "usage: playground test-report <junit.xml>"
  end.

(** ** Spans that nest *)

(** The spans that are current after an emission, the innermost first *)
Definition spans_after (stack : list string) (e : Emission) : list string :=
  match e with
  | SpanBegin _ name _ => name :: stack
  | SpanExit name | SpanFinish name =>
      match stack with
      | top :: rest => if String.eqb top name then rest else stack
      | [] => []
      end
  | _ => stack
  end.
Definition spans (stack : list string) (l : list Emission) : list string := foldl spans_after stack l.

(** The errors marked, each with the span it is marked on, if there is one *)
Fixpoint marks (stack : list string) (l : list Emission) : list (option string * string) :=
  match l with
  | [] => []
  | SpanErr error_type :: rest => (head stack, error_type) :: marks stack rest
  | e :: rest => marks (spans_after stack e) rest
  end.

(** Emissions that leave the spans around them as they were *)
Definition nested (l : list Emission) : Prop := forall stack, spans stack l = stack.

Lemma spans_app stack l m : spans stack (l ++ m) = spans (spans stack l) m.
Proof. apply foldl_app. Qed.

Lemma nested_app l m : nested l -> nested m -> nested (l ++ m).
Proof. intros Hl Hm stack. by rewrite spans_app, Hl, Hm. Qed.
Lemma nested_span detached name attrs l : nested l -> nested (SpanBegin detached name attrs :: l ++ [SpanFinish name]).
Proof.
  intros Hl stack. change (spans (name :: stack) (l ++ [SpanFinish name]) = stack). rewrite spans_app, Hl. cbn.
  by rewrite String.eqb_refl.
Qed.

Lemma marks_app stack l m : marks stack (l ++ m) = marks stack l ++ marks (spans stack l) m.
Proof.
  revert stack. induction l as [|e l IH]; intros stack; [done|]. rewrite <- app_comm_cons. destruct e; cbn [marks spans foldl]; rewrite IH; done.
Qed.

Lemma cycle_nested id name fail : nested (background_cycle id name fail).
Proof. intros stack. by destruct fail. Qed.
Lemma cron_once_nested id outcome n : nested (cron_once id outcome n).1.
Proof. intros stack. by destruct outcome. Qed.

Lemma held_nested clock id fuel i deadline l : hold_cycles clock id fuel i deadline = Some l -> nested l /\ forall stack, marks stack l = [].
Proof.
  revert i l. induction fuel as [|fuel IH]; intros i l; cbn [hold_cycles]; [done|].
  destruct (clock i <? deadline); [|by intros [= <-]].
  destruct (hold_cycles _ _ _ _ _) as [rest|] eqn:E; [|done]. intros [= <-]. apply IH in E as [Hn Hm]. split.
  - intros stack. apply (nested_app (Pause 5000000 :: background_cycle id BACKGROUND_CYCLE_QUEUE_HEALTH false) rest); [done|exact Hn].
  - intros stack. exact (Hm stack).
Qed.

(** The cycles of a held daemon end once the clock passes the deadline. *)
Lemma held_ends clock id deadline n : deadline <= clock n ->
  forall fuel i, (i <= n)%nat -> (n - i < fuel)%nat -> is_Some (hold_cycles clock id fuel i deadline).
Proof.
  intros Hn. induction fuel as [|fuel IH]; intros i Hi Hf; [lia|]. cbn [hold_cycles]. destruct (Z.ltb_spec (clock i) deadline); [|done].
  assert (i <> n) by (intros ->; lia). destruct (IH (S i)) as [l ->]; [lia|lia|]. done.
Qed.

(** The environment after the changes *)
Lemma child_vars_app c d vars : child_vars (c ++ d) vars = child_vars d (child_vars c vars).
Proof. apply foldl_app. Qed.
Lemma child_vars_other c name value vars : name <> c -> child_vars [(c, value)] vars name = vars name.
Proof. intros Hne. cbn. by apply String.eqb_neq in Hne as ->. Qed.

(** The variable that a carrier gives, if it gives one *)
Definition given (o : option string) : bool := match non_empty o with Some _ => true | None => false end.
Definition carried_value (sets : list (string * string)) (name : string) : option string :=
  if String.eqb name "BAGGAGE" then env_value sets name
  else if String.eqb name "TRACEPARENT" then env_value sets name
  else if String.eqb name "TRACESTATE" then
    if given (env_value sets "TRACEPARENT") && negb (given (env_value sets name))
    then Some "playground=commerce" else env_value sets name
  else None.
Lemma carrier_vars sets vars name :
  child_vars (map (fun '(key, value) => (key, Some value)) (context_env sets)) vars name =
  match carried_value sets name with Some value => Some value | None => vars name end.
Proof.
  unfold context_env, into_env, carried_value, child_vars, given, non_empty, has_nonempty_value.
  destruct (String.eqb_spec name "BAGGAGE") as [->|Hb];
    [|destruct (String.eqb_spec name "TRACEPARENT") as [->|Hp]; [|destruct (String.eqb_spec name "TRACESTATE") as [->|Ht]]];
    cbn -[env_value String.eqb]; destruct (env_value sets "BAGGAGE") as [b|], (env_value sets "TRACEPARENT") as [p|],
    (env_value sets "TRACESTATE") as [t|]; cbn -[String.eqb]; unfold is_empty; repeat case_match; cbn in *; simplify_eq; try done;
    by rewrite ?(proj2 (String.eqb_neq _ _) Hb), ?(proj2 (String.eqb_neq _ _) Hp), ?(proj2 (String.eqb_neq _ _) Ht).
Qed.

(** ** Theorems *)

(** A capsule knows whose child it is.  The child reads back the session and
    the mode it is started with, and the invocation of its parent.  It is
    either an orphan, which finds no trace context whatever the daemon's own
    environment holds, or it finds the trace that the daemon's propagator
    injected, a trace state even when there was none, and the session and the
    invocation as its baggage. *)
Theorem capsule_knows_its_parent vars session id orphan sets attrs fresh :
  session <> "--orphan" -> trimmed (Some id) = Some id ->
  let child := execution_child_command session id orphan (context_env sets) attrs in
  let env := child_vars (ch_env child) vars in
  (exists args, ch_args child = "enter" :: args /\ option_value args "--session" = Some session /\
     flag_present args "--orphan" = orphan) /\
  (invocation_id env fresh None).1 = id /\
  env "OTEL_RESOURCE_ATTRIBUTES" = Some (resource_attrs_with_invocation_id attrs id) /\
  if orphan then forall key, env_extracted env key = None
  else
    env_extracted env "baggage" = Some ("session.id=" +:+ session +:+ ",cli.invocation.id=" +:+ id) /\
    forall parent, env_value sets "TRACEPARENT" = Some parent -> is_blank parent = false ->
      env_extracted env "traceparent" = Some parent /\
      env_extracted env "tracestate" =
        match env_value sets "TRACESTATE" with
        | Some state => if is_empty state then Some "playground=commerce" else non_blank (Some state)
        | None => Some "playground=commerce"
        end.
Proof.
  intros Hne Hid child env.
  assert (Hargs : exists args, ch_args child = "enter" :: args /\ option_value args "--session" = Some session /\
     flag_present args "--orphan" = orphan).
  { eexists. split; [reflexivity|]. split; [reflexivity|]. unfold flag_present, one_of. cbn [existsb app].
    apply not_eq_sym, String.eqb_neq in Hne. rewrite Hne. by destruct orphan. }
  assert (Hinv : env INVOCATION_ENV = Some id /\ env "OTEL_RESOURCE_ATTRIBUTES" = Some (resource_attrs_with_invocation_id attrs id)).
  { unfold env, child. destruct orphan; [done|]. cbn [ch_env execution_child_command]. rewrite !child_vars_app.
    split; (rewrite child_vars_other; [|done]); rewrite carrier_vars; done. }
  destruct Hinv as [Hinv Hattrs]. split; [exact Hargs|]. split; [by unfold invocation_id; rewrite Hinv, Hid|]. split; [exact Hattrs|].
  clear Hargs Hinv Hattrs. destruct orphan.
  { intros key. unfold env_extracted, env_key. repeat case_match; simplify_eq/=; done. }
  unfold env, child. cbn [ch_env execution_child_command]. rewrite !child_vars_app. unfold env_extracted. split.
  - change (non_blank (Some (String "s" ("ession.id=" +:+ session +:+ ",cli.invocation.id=" +:+ id))) =
      Some ("session.id=" +:+ session +:+ ",cli.invocation.id=" +:+ id)).
    unfold non_blank. by rewrite visible_not_blank.
  - intros parent Hp Hblank. split; cbn [mbind option_bind]; change (env_key "traceparent") with (Some "TRACEPARENT");
      change (env_key "tracestate") with (Some "TRACESTATE"); cbn [mbind option_bind]; (rewrite child_vars_other; [|done]);
      rewrite carrier_vars; cbn [carried_value String.eqb Ascii.eqb Bool.eqb].
    + rewrite Hp. unfold non_blank. by rewrite Hblank.
    + rewrite Hp. destruct parent as [|a parent]; [done|]. destruct (env_value sets "TRACESTATE") as [[|c state]|]; done.
Qed.

Definition demo_sets : list (string * string) := [("traceparent", "00-4bf92f3577b34da6a3ce929d0e0e4736-00f067aa0ba902b7-01")].
Definition daemon_vars (name : string) : option string := if String.eqb name "TRACEPARENT" then Some "stale" else None.

Lemma capsule_knows_its_parent_witness :
  let run orphan := child_vars (ch_env (execution_child_command "s-1" "inv-1" orphan (context_env demo_sets) None)) daemon_vars in
  env_extracted (run true) "traceparent" = None /\
  env_extracted (run false) "traceparent" = Some "00-4bf92f3577b34da6a3ce929d0e0e4736-00f067aa0ba902b7-01" /\
  env_extracted (run false) "tracestate" = Some "playground=commerce".
Proof.
  intros run.
  destruct (capsule_knows_its_parent daemon_vars "s-1" "inv-1" true demo_sets None "u") as (_ & _ & _ & H1); [done|reflexivity|].
  destruct (capsule_knows_its_parent daemon_vars "s-1" "inv-1" false demo_sets None "u") as (_ & _ & _ & _ & H2); [done|reflexivity|].
  split; [exact (H1 "traceparent")|]. exact (H2 _ eq_refl eq_refl).
Defined.

(** The handlers nest their spans, *)
Lemma daemon_nested vars clock fuel id fresh args carrier child l r :
  daemon vars clock fuel id fresh args carrier child = Some (l, r) -> nested l.
Proof.
  unfold daemon, daemon_session. set (session := default fresh _). set (orphan := flag_present _ _). intros H.
  destruct (child _) as [exit|error].
  - destruct (match vars _ ≫= _ with Some hold => _ | None => _ end) as [held|] eqn:E; [|done].
    assert (Hh : nested held).
    { destruct (vars _ ≫= _); [by apply held_nested in E as [H' _]|by injection E as <-]. }
    cbn [mbind option_bind] in H. simplify_eq. intros stack. cbn -[nested]. unfold spans in *.
    rewrite !foldl_app. fold (spans ("daemon_session" :: "host_cli" :: stack) held). rewrite Hh. by case_bool_decide.
  - cbn [mbind option_bind] in H. simplify_eq. by intros stack.
Qed.
Lemma enter_nested id fresh conversation args : nested (enter id fresh conversation args).1.
Proof. unfold enter. intros stack. by destruct (flag_present _ _). Qed.
Lemma cron_nested id nanos args : nested (cron id nanos args).1.
Proof.
  assert (Honce : forall outcome, nested (let '(emitted, code) := cron_once id outcome 0 in (emitted, Ok (E := string) code)).1).
  { intros outcome. pose proof (cron_once_nested id outcome 0) as H. by destruct (cron_once id outcome 0). }
  unfold cron. repeat match goal with |- context [if ?b then _ else _] => destruct b end; (apply Honce || by intros stack).
Qed.

(** and the errors they mark are those of their own spans: a child that failed
    on the daemon's session, beside the cycle that always fails. *)
Lemma daemon_marks vars clock fuel id fresh args carrier child l r stack :
  daemon vars clock fuel id fresh args carrier child = Some (l, r) ->
  marks stack l = (Some "background.cycle", "cycle_failure") ::
    match r with
    | Ok code => if code =? 0 then [] else [(Some "daemon_session", "child_exit")]
    | Err _ => []
    end.
Proof.
  unfold daemon, daemon_session. set (session := default fresh _). set (orphan := flag_present _ _). intros H.
  destruct (child _) as [exit|error].
  - destruct (match vars _ ≫= _ with Some hold => _ | None => _ end) as [held|] eqn:E; [|done].
    assert (Hh : nested held /\ forall stack, marks stack held = []).
    { destruct (vars _ ≫= _); [by apply held_nested in E|by injection E as <-]. }
    destruct Hh as [Hn Hm]. cbn [mbind option_bind] in H. simplify_eq.
    set (tail_ := _ ++ [SpanFinish "daemon_session"]).
    change ((Some "background.cycle", "cycle_failure") ::
        marks ("daemon_session" :: "host_cli" :: stack) ((held ++ tail_) ++ [SpanFinish "host_cli"]) =
      (Some "background.cycle", "cycle_failure") ::
        (if default 1 exit =? 0 then [] else [(Some "daemon_session", "child_exit")])).
    f_equal. rewrite !marks_app, Hm, Hn. unfold tail_. case_bool_decide as Hexit; [by subst|].
    destruct exit as [code|]; cbn; [|done]. destruct (Z.eqb_spec code 0); [by subst|done].
  - cbn [mbind option_bind] in H. simplify_eq. done.
Qed.

(** but the error of a command that fails is marked when no span is current:
    the command's own span is never marked as failed. *)
Lemma failed_command_unmarked invocation_id handler mode rest emitted error :
  missed_cron mode rest = false -> handler mode rest = (emitted, Err error) -> nested emitted ->
  (main invocation_id handler (mode :: rest)).1 = 1 /\
  marks [] (main invocation_id handler (mode :: rest)).2 = marks ["cli.command"] emitted ++ [(None, "cli_error")].
Proof.
  intros Hm Hh Hn. unfold main. change (default "" (head (mode :: rest))) with mode.
  change (tail (mode :: rest)) with rest. rewrite Hm, Hh. split; [done|]. cbn [snd].
  change (marks ["cli.command"] (emitted ++ SpanExit "cli.command" :: [SpanErr "cli_error"; LogLine Error "cli failed" [("error", error)]] ++
    [SpanValue "cli.command" "outcome" (outcome_for_exit 1); SpanValue "cli.command" "process.exit.code" (show_Z 1);
     SpanFinish "cli.command"]) = marks ["cli.command"] emitted ++ [(None, "cli_error")]).
  by rewrite marks_app, Hn.
Qed.

(** Every command has a name of its own, save one: [demo-fresh] is reported as
    the default, a drive of the checkout. *)
Lemma commands_named :
  List.filter (fun mode => String.eqb (command_name mode) (command_name "")) MODES = ["demo-fresh"].
Proof. vm_compute. reflexivity. Qed.

(** Of the hundred buckets ninety succeed, five fail and five time out. *)
Lemma cron_weights :
  map (fun o => length (List.filter (fun n => String.eqb (as_outcome (weighted_cron_outcome (Z.of_nat n))) o) (seq 0 100)))
    [OUTCOME_SUCCESS; OUTCOME_FAILURE; OUTCOME_TIMEOUT] = [90; 5; 5]%nat.
Proof. vm_compute. reflexivity. Qed.
