(* ===== verification/Console.v ===== *)
(** The scripted console session of the CLI (cli/src/console_sim.rs): the
    screens visited, the actions taken on them and the chained sessions, as the
    emissions of one run, against a machine that reads them as a journey. *)

From S2P Require Import Prelude Values Propagation Telemetry Cli.
Import Text Telemetry Propagation Cli.

Local Open Scope result_scope.

Definition APP_SCREEN_HOME : string := "home".
Definition APP_SCREEN_CART : string := "cart".
Definition APP_SCREEN_CHECKOUT : string := "checkout".
Definition UI_ACTION_CART_ADD : string := "cart.add".
Definition UI_ACTION_CHECKOUT_SUBMIT : string := "checkout.submit".
Definition UI_ACTION_SCREEN_BACK : string := "screen.back".
Definition SESSION_START_EVENT_NAME : string := "session.start".
Definition SESSION_END_EVENT_NAME : string := "session.end".
Definition UI_SCREEN_ENTERED_EVENT_NAME : string := "ui.screen.entered".
Definition UI_SCREEN_EXITED_EVENT_NAME : string := "ui.screen.exited".

Definition SCRIPT : list (string * list string) := [
  (APP_SCREEN_HOME, []); (APP_SCREEN_CART, [UI_ACTION_CART_ADD]);
  (APP_SCREEN_CHECKOUT, [UI_ACTION_CHECKOUT_SUBMIT; UI_ACTION_SCREEN_BACK])].

Record ConsoleOptions : Type := mkOptions {
  co_seconds : Z; co_fail_at : option string; co_outside_error : bool; co_sessions : Z }.

Definition parse_u32 (s : string) : option Z := n ← parse_u64 s; if fits_u32 n then Some n else None.

Definition parsed_or (parse : string -> option Z) (value : option string) (otherwise : Z) : result string Z :=
  match value with
  | None => Ok otherwise
  | Some text => ok_or (parse text) ("invalid number: " +:+ text)
  end.
Definition parse_options (args : list string) : result string ConsoleOptions :=
  seconds <- parsed_or parse_u64 (option_value args "--seconds") 30 ;;
  sessions <- parsed_or parse_u32 (option_value args "--reattach") 1 ;;
  Ok (mkOptions seconds (option_value args "--fail-at") (flag_present args "--outside-error") sessions).

Section run.
Context (invocation_id : string).

Definition outside_screen_error (session_id : string) : Emission :=
  LogLine Error "background refresh failed between screens" [(CLI_INVOCATION_ID, invocation_id); (SESSION_ID, session_id);
    (ERROR_TYPE, "console::BetweenScreens")].

Definition session_event (event session_id : string) (previous : option string) : Emission :=
  LogLine Info "console session event" ([(EVENT_NAME, event); (CLI_INVOCATION_ID, invocation_id); (SESSION_ID, session_id)] ++
    match previous with Some previous => [("session.previous_id", previous)] | None => [] end).

Definition screen_event (event session_id screen visit_id : string) (sequence : Z) : Emission :=
  LogLine Info "console screen event" [(EVENT_NAME, event); (CLI_INVOCATION_ID, invocation_id); (SESSION_ID, session_id);
    ("app.screen.id", screen); ("ui.screen.visit.id", visit_id); ("ui.navigation.sequence", show_Z sequence);
    ("ui.transition.reason", "user_navigation")].

(** The request of the checkout action *)
Definition checkout_submit_request : json :=
  JObj [("tenant_id", JStr "tenant-acme"); ("customer_id", JStr "customer-acme-ava");
    ("items", JArr [JObj [("sku", JStr "WIDGET-1"); ("quantity", JNum 1)]]); ("currency_code", JStr "USD");
    ("payment_method_token", JStr "tok_visa"); ("request_id", JStr ("console-" +:+ invocation_id))].

(** The checkout's answer: its status, or why the call failed *)
Definition checkout_submit (answer : result string Z) : list Emission * bool :=
  match answer with
  | Ok status => ([], (200 <=? status) && (status <? 300))
  | Err error => ([LogLine Error "checkout call failed" [("error", error)]], false)
  end.

Definition ui_action (answer : result string Z) (action screen session_id : string) (forced_failure : bool) :
    list Emission * bool :=
  let widget := action +:+ ".button" in
  let '(inside, ok) :=
    if forced_failure then ([Pause 20000], false)
    else if String.eqb action UI_ACTION_CHECKOUT_SUBMIT then checkout_submit answer
    else ([Pause 20000], true) in
  ([SpanBegin true "ui.action" [("otel.kind", "internal"); (CLI_INVOCATION_ID, invocation_id); (SESSION_ID, session_id);
      ("ui.action.name", action); ("app.screen.id", screen); ("app.widget.name", widget)]] ++ inside ++
   (if ok then [SpanValue "ui.action" "outcome" OUTCOME_SUCCESS; LogLine Info "console action succeeded" [("action", action)]]
    else [SpanValue "ui.action" "outcome" OUTCOME_ERROR; SpanErr "action_failure";
      LogLine Error "console action failed" [("action", action); (ERROR_TYPE, "console::ActionFailed"); ("app.screen.id", screen);
        ("app.widget.name", widget); (SESSION_ID, session_id); (CLI_INVOCATION_ID, invocation_id)]]) ++
   [SpanFinish "ui.action"], ok).

(** The time on a screen, in milliseconds; [seconds * 1_000] wraps at the width
    of [u64]. *)
Definition dwell (options : ConsoleOptions) : Z :=
  clamp ((co_seconds options * 1000) mod u64_modulus / (Z.of_nat (length SCRIPT) * Z.max 1 (co_sessions options))) 50 10000.

(** The actions of one screen in order, and how many failed *)
Fixpoint actions_on (options : ConsoleOptions) (answer : result string Z) (screen session_id : string) (actions : list string) :
    list Emission * Z :=
  match actions with
  | [] => ([], 0)
  | action :: rest =>
      let '(emitted, ok) := ui_action answer action screen session_id (opt_is (co_fail_at options) action) in
      let '(more, failures) := actions_on options answer screen session_id rest in
      (emitted ++ more, (if ok then 0 else 1) + failures)
  end.

(** The visits from the [sequence]-th screen on; [visit] draws their ids. *)
Fixpoint visits (options : ConsoleOptions) (answer : result string Z) (visit : nat -> string) (session_id : string) (sequence : nat)
    (script : list (string * list string)) : list Emission * Z :=
  match script with
  | [] => ([], 0)
  | (screen, actions) :: rest =>
      let number := Z.of_nat sequence + 1 in
      let '(acted, failures) := actions_on options answer screen session_id actions in
      let '(more, failures') := visits options answer visit session_id (S sequence) rest in
      ([screen_event UI_SCREEN_ENTERED_EVENT_NAME session_id screen (visit sequence) number; Pause (dwell options * 500)] ++
       acted ++
       [Pause (dwell options * 500); screen_event UI_SCREEN_EXITED_EVENT_NAME session_id screen (visit sequence) number] ++
       (if co_outside_error options && (sequence =? 0)%nat then [outside_screen_error session_id] else []) ++ more,
       failures + failures')
  end.

Definition run_session (options : ConsoleOptions) (answer : result string Z) (visit : nat -> string) (session_id : string)
    (previous : option string) : list Emission * Z :=
  let '(emitted, failures) := visits options answer visit session_id 0 SCRIPT in
  (session_event SESSION_START_EVENT_NAME session_id previous :: emitted ++ [session_event SESSION_END_EVENT_NAME session_id None],
   failures).

(** [n] sessions from the [i]-th on, each linked to the one before; the
    failures are counted in a [u32]. *)
Fixpoint sessions (options : ConsoleOptions) (answers : nat -> result string Z) (session_ids : nat -> string)
    (visit : nat -> nat -> string) (n i : nat) (previous : option string) (failures : Z) : list Emission * Z :=
  match n with
  | O => ([], failures)
  | S n' =>
      let session_id := session_ids i in
      let '(emitted, failed) := run_session options (answers i) (visit i) session_id previous in
      let '(more, failures') := sessions options answers session_ids visit n' (S i) (Some session_id) ((failures + failed) mod 2 ^ 32) in
      (emitted ++ more, failures')
  end.

Definition run (args : list string) (answers : nat -> result string Z) (session_ids : nat -> string) (visit : nat -> nat -> string) :
    list Emission * result string Z :=
  match parse_options args with
  | Err error => ([], Err error)
  | Ok options =>
      let '(emitted, failures) :=
        sessions options answers session_ids visit (Z.to_nat (Z.max 1 (co_sessions options))) 0 None 0 in
      (emitted ++ [LogLine Info "console complete" [("invocation_id", invocation_id); ("failures", show_Z failures);
         ("sessions", show_Z (co_sessions options))]],
       Ok (if failures =? 0 then 0 else 1))
  end.
End run.

(** ** The journey *)

(** What a reader of the emissions knows: the finished sessions, the last first,
    the session that runs, the screen and the visit it is on, and how many
    screens it has entered *)
Record Journey : Type := mkJourney {
  jn_finished : list string; jn_session : option string; jn_screen : option (string * string); jn_entered : Z }.

Definition same_session (j : Journey) (attrs : list (string * string)) : bool :=
  bool_decide (jn_session j <> None) && bool_decide (jn_session j = assoc SESSION_ID attrs).
Definition on_screen (j : Journey) (attrs : list (string * string)) : bool :=
  bool_decide (jn_screen j <> None) && bool_decide (fst <$> jn_screen j = assoc "app.screen.id" attrs).
Definition off_screen (j : Journey) : bool := bool_decide (jn_screen j = None).

(** The next emission; [None] when it belongs to no journey: a session inside a
    session or one that does not name the session before, a screen without a
    session or on top of another, left under another visit or out of order, an
    action or its error away from its screen, a background error on a screen *)
Definition read_emission (j : Journey) (e : Emission) : option Journey :=
  let keep (b : bool) (j' : Journey) := if b then Some j' else None in
  match e with
  | LogLine _ _ attrs =>
      match assoc EVENT_NAME attrs with
      | Some event =>
          if String.eqb event SESSION_START_EVENT_NAME then
            session ← assoc SESSION_ID attrs;
            keep (bool_decide (jn_session j = None) && bool_decide (head (jn_finished j) = assoc "session.previous_id" attrs))
              (mkJourney (jn_finished j) (Some session) None 0)
          else if String.eqb event UI_SCREEN_ENTERED_EVENT_NAME then
            screen ← assoc "app.screen.id" attrs; visit ← assoc "ui.screen.visit.id" attrs;
            keep (same_session j attrs && off_screen j &&
                  bool_decide (assoc "ui.navigation.sequence" attrs = Some (show_Z (jn_entered j + 1))))
              (mkJourney (jn_finished j) (jn_session j) (Some (screen, visit)) (jn_entered j + 1))
          else if String.eqb event UI_SCREEN_EXITED_EVENT_NAME then
            keep (same_session j attrs && on_screen j attrs && bool_decide (snd <$> jn_screen j = assoc "ui.screen.visit.id" attrs) &&
                  bool_decide (assoc "ui.navigation.sequence" attrs = Some (show_Z (jn_entered j))))
              (mkJourney (jn_finished j) (jn_session j) None (jn_entered j))
          else if String.eqb event SESSION_END_EVENT_NAME then
            keep (same_session j attrs && off_screen j) (mkJourney (option_list (jn_session j) ++ jn_finished j) None None 0)
          else None
      | None =>
          if opt_is (assoc ERROR_TYPE attrs) "console::ActionFailed" then keep (same_session j attrs && on_screen j attrs) j
          else if opt_is (assoc ERROR_TYPE attrs) "console::BetweenScreens" then keep (same_session j attrs && off_screen j) j
          else Some j
      end
  | SpanBegin detached name attrs =>
      keep (detached && String.eqb name "ui.action" && same_session j attrs && on_screen j attrs) j
  | _ => Some j
  end.

Fixpoint read_journey (j : Journey) (l : list Emission) : option Journey :=
  match l with [] => Some j | e :: rest => j' ← read_emission j e; read_journey j' rest end.

Definition action_failed (e : Emission) : bool := match e with SpanErr error_type => String.eqb error_type "action_failure" | _ => false end.
Definition failed_actions (l : list Emission) : Z := Z.of_nat (length (List.filter action_failed l)).
Definition session_started (e : Emission) : bool :=
  match e with LogLine _ _ attrs => opt_is (assoc EVENT_NAME attrs) SESSION_START_EVENT_NAME | _ => false end.

Lemma read_app j l m : read_journey j (l ++ m) = (read_journey j l ≫= fun j' => read_journey j' m).
Proof. revert j. induction l as [|e l IH]; intros j; [done|]. cbn. destruct (read_emission j e); [apply IH|done]. Qed.
Lemma read_step j e j' l : read_emission j e = Some j' -> read_journey j (e :: l) = read_journey j' l.
Proof. cbn [read_journey]. by intros ->. Qed.
Lemma failed_app l m : failed_actions (l ++ m) = failed_actions l + failed_actions m.
Proof. unfold failed_actions. rewrite List.filter_app, length_app. lia. Qed.

(** The state on a screen of a session *)
Definition at_screen (finished : list string) (session screen visit : string) (n : Z) : Journey :=
  mkJourney finished (Some session) (Some (screen, visit)) n.
Definition between (finished : list string) (session : string) (n : Z) : Journey := mkJourney finished (Some session) None n.

(** What the emissions of an action, a screen or a session do: they keep the
    journey, nest, and mark exactly the failures they count, on their own span. *)
Record reads (j : Journey) (l : list Emission) (j' : Journey) (failures : Z) : Prop := mkReads {
  rd_journey : read_journey j l = Some j';
  rd_nested : nested l;
  rd_failed : failed_actions l = failures;
  rd_marks : forall stack, marks stack l = repeat (Some "ui.action", "action_failure") (Z.to_nat failures) }.

Lemma reads_app j l j' m j'' f g : 0 <= f -> 0 <= g -> reads j l j' f -> reads j' m j'' g -> reads j (l ++ m) j'' (f + g).
Proof.
  intros Hf Hg [H1 H2 H3 H4] [K1 K2 K3 K4]. constructor.
  - by rewrite read_app, H1.
  - by apply nested_app.
  - by rewrite failed_app, H3, K3.
  - intros stack. by rewrite marks_app, H4, H2, K4, <- repeat_app, Z2Nat.inj_add.
Qed.

Lemma same_session_at j session attrs :
  jn_session j = Some session -> assoc SESSION_ID attrs = Some session -> same_session j attrs = true.
Proof. unfold same_session. intros -> ->. by rewrite !bool_decide_eq_true_2. Qed.
Lemma on_screen_at j screen visit attrs :
  jn_screen j = Some (screen, visit) -> assoc "app.screen.id" attrs = Some screen -> on_screen j attrs = true.
Proof. unfold on_screen. intros -> ->. by rewrite !bool_decide_eq_true_2. Qed.

(** What the emissions of the console read, given where they are made *)
Lemma read_action_begin finished session screen visit n id action :
  read_emission (at_screen finished session screen visit n) (SpanBegin true "ui.action" [("otel.kind", "internal");
    (CLI_INVOCATION_ID, id); (SESSION_ID, session); ("ui.action.name", action); ("app.screen.id", screen);
    ("app.widget.name", action +:+ ".button")]) = Some (at_screen finished session screen visit n).
Proof. cbn [read_emission]. by erewrite same_session_at, on_screen_at by reflexivity. Qed.
Lemma read_action_failed finished session screen visit n id action :
  read_emission (at_screen finished session screen visit n) (LogLine Error "console action failed" [("action", action);
    (ERROR_TYPE, "console::ActionFailed"); ("app.screen.id", screen); ("app.widget.name", action +:+ ".button");
    (SESSION_ID, session); (CLI_INVOCATION_ID, id)]) = Some (at_screen finished session screen visit n).
Proof.
  cbn [read_emission]. change (assoc EVENT_NAME _) with (@None string). change (opt_is (assoc ERROR_TYPE _) "console::ActionFailed") with true.
  by erewrite same_session_at, on_screen_at by reflexivity.
Qed.

Lemma reads_action id answer action screen session forced finished visit n :
  let '(l, ok) := ui_action id answer action screen session forced in
  reads (at_screen finished session screen visit n) l (at_screen finished session screen visit n) (if ok then 0 else 1).
Proof.
  unfold ui_action, checkout_submit.
  destruct forced; [|destruct (String.eqb action _); [destruct answer as [status|error]; [destruct (_ && _)|]|]]; cbn [app];
    constructor; try done;
    repeat (erewrite read_step; [|apply read_action_begin || apply read_action_failed || reflexivity]); reflexivity.
Qed.

Lemma failures_nonneg id options answer screen session actions : 0 <= (actions_on id options answer screen session actions).2.
Proof.
  induction actions as [|action actions IH]; cbn [actions_on]; [done|]. destruct (ui_action _ _ _ _ _ _) as [l ok].
  destruct (actions_on _ _ _ _ _ _) as [m f]. cbn in *. destruct ok; lia.
Qed.

Lemma reads_actions id options answer finished session screen visit n actions :
  let '(l, failures) := actions_on id options answer screen session actions in
  reads (at_screen finished session screen visit n) l (at_screen finished session screen visit n) failures.
Proof.
  induction actions as [|action actions IH]; cbn [actions_on]; [done|].
  pose proof (reads_action id answer action screen session (opt_is (co_fail_at options) action) finished visit n) as Ha.
  pose proof (failures_nonneg id options answer screen session actions) as Hf.
  destruct (ui_action _ _ _ _ _ _) as [l ok]. destruct (actions_on _ _ _ _ _ _) as [m f]. cbn in Hf.
  eapply reads_app; [destruct ok; lia|done|exact Ha|exact IH].
Qed.

(** A log line or a pause before what follows *)
Lemma reads_log j level message attrs j' l j'' f :
  read_emission j (LogLine level message attrs) = Some j' -> reads j' l j'' f -> reads j (LogLine level message attrs :: l) j'' f.
Proof. intros Hr [H1 H2 H3 H4]. by constructor; [rewrite (read_step _ _ _ _ Hr)|..]. Qed.
Lemma reads_pause j micros l j' f : reads j l j' f -> reads j (Pause micros :: l) j' f.
Proof. intros [H1 H2 H3 H4]. by constructor. Qed.
Lemma reads_nil j : reads j [] j 0.
Proof. done. Qed.

Lemma read_entered id finished session screen visit n :
  read_emission (between finished session n) (screen_event id UI_SCREEN_ENTERED_EVENT_NAME session screen visit (n + 1)) =
  Some (at_screen finished session screen visit (n + 1)).
Proof.
  cbn -[show_Z same_session off_screen bool_decide]. erewrite same_session_at by reflexivity. unfold off_screen. cbn -[show_Z].
  by rewrite !bool_decide_eq_true_2.
Qed.
Lemma read_exited id finished session screen visit n :
  read_emission (at_screen finished session screen visit n) (screen_event id UI_SCREEN_EXITED_EVENT_NAME session screen visit n) =
  Some (between finished session n).
Proof.
  cbn -[show_Z same_session on_screen bool_decide]. erewrite same_session_at, on_screen_at by reflexivity. cbn -[show_Z].
  by rewrite !bool_decide_eq_true_2.
Qed.
Lemma read_outside id finished session n :
  read_emission (between finished session n) (outside_screen_error id session) = Some (between finished session n).
Proof. cbn -[same_session off_screen]. erewrite same_session_at by reflexivity. done. Qed.

Lemma reads_visits id options answer visit finished session script sequence :
  let '(l, failures) := visits id options answer visit session sequence script in
  0 <= failures /\ reads (between finished session (Z.of_nat sequence)) l
    (between finished session (Z.of_nat (sequence + length script))) failures.
Proof.
  revert sequence. induction script as [|[screen actions] script IH]; intros sequence; cbn [visits length].
  { rewrite Nat.add_0_r. split; [done|]. done. }
  specialize (IH (S sequence)). destruct (visits _ _ _ _ _ _ script) as [more f'].
  pose proof (reads_actions id options answer finished session screen (visit sequence) (Z.of_nat sequence + 1) actions) as Ha.
  pose proof (failures_nonneg id options answer screen session actions) as Hf.
  destruct (actions_on _ _ _ _ _ _) as [acted f]. destruct IH as [Hf' IH]. split; [cbn in *; lia|].
  apply reads_log with (at_screen finished session screen (visit sequence) (Z.of_nat sequence + 1)); [apply read_entered|].
  apply reads_pause. apply reads_app with (at_screen finished session screen (visit sequence) (Z.of_nat sequence + 1)); [done|done|done|].
  apply reads_pause. replace (Z.of_nat sequence + 1) with (Z.of_nat (S sequence)) in * by lia.
  eapply reads_log; [apply read_exited|]. rewrite <- Nat.add_succ_comm.
  destruct (_ && _); [|exact IH]. eapply reads_log; [apply read_outside|exact IH].
Qed.

Lemma reads_session id options answer visit session finished :
  let '(l, failures) := run_session id options answer visit session (head finished) in
  0 <= failures /\ reads (mkJourney finished None None 0) l (mkJourney (session :: finished) None None 0) failures.
Proof.
  unfold run_session. pose proof (reads_visits id options answer visit finished session SCRIPT 0) as H.
  destruct (visits _ _ _ _ _ _ _) as [l f] eqn:E. destruct H as [Hf H]. split; [done|].
  apply reads_log with (between finished session 0).
  { cbn -[bool_decide head]. destruct (head finished) eqn:Eh; cbn -[bool_decide head]; by rewrite !bool_decide_eq_true_2. }
  rewrite <- (Z.add_0_r f). apply reads_app with (between finished session 3); [done|done|exact H|].
  apply reads_log with (mkJourney (session :: finished) None None 0); [|apply reads_nil].
  cbn -[same_session off_screen]. by erewrite same_session_at by reflexivity.
Qed.

Lemma reads_sessions id options answers session_ids visit n i finished failures :
  let '(l, total) := sessions id options answers session_ids visit n i (head finished) failures in
  0 <= failures -> exists failed, 0 <= failed /\
  reads (mkJourney finished None None 0) l (mkJourney (rev (map session_ids (seq i n)) ++ finished) None None 0) failed /\
  (failures < 2 ^ 32 -> total = (failures + failed) mod 2 ^ 32).
Proof.
  revert i finished failures. induction n as [|n IH]; intros i finished failures; cbn [sessions].
  { intros Hf. exists 0. split_and!; [done|done|]. intros Hlt. rewrite Z.add_0_r, Z.mod_small; lia. }
  pose proof (reads_session id options (answers i) (visit i) (session_ids i) finished) as Hs.
  destruct (run_session _ _ _ _ _ _) as [l f]. destruct Hs as [Hf Hs].
  specialize (IH (S i) (session_ids i :: finished) ((failures + f) mod 2 ^ 32)).
  change (head (session_ids i :: finished)) with (Some (session_ids i)) in IH.
  destruct (sessions _ _ _ _ _ _ _ _) as [more total]. intros Hpos.
  pose proof (Z.mod_pos_bound (failures + f) (2 ^ 32) eq_refl) as Hb. destruct IH as (g & Hg & Hr & Ht); [lia|].
  exists (f + g). split_and!; [lia| |].
  - eapply reads_app; [done|done|exact Hs|]. cbn [seq map rev]. by rewrite <- app_assoc.
  - intros _. rewrite Ht by lia. rewrite Zplus_mod_idemp_l. f_equal. lia.
Qed.

(** ** Theorems *)


Definition demo_answers (i : nat) : result string Z := if (i =? 0)%nat then Ok 200 else Err "connection refused".
Definition demo_ids (i : nat) : string := "s-" +:+ pretty i.
Definition demo_run : list Emission * result string Z :=
  run "inv-1" ["--reattach"; "2"; "--outside-error"] demo_answers demo_ids (fun i n => demo_ids i +:+ "-" +:+ pretty n).

