(* ===== verification/Fanout.v ===== *)
(** The fan-out proof of the CLI (cli/src/fanout.rs): one trace of the deep
    shape, emitted through a collector, is looked for in three backends.  The
    replies of the backends, the clock and the output of the emitting process
    are parameters. *)

From S2P Require Import Prelude Values Propagation Telemetry RequestShapes ShapesOutcomes ScenarioTraces.
Import Text Telemetry Propagation Serde Shapes ShapesTraces ShapesCorpora ShapesOutcomes ScenarioTraces.

Local Open Scope result_scope.

(** ** Configuration *)

Record Config : Type := mkConfig {
  cf_parallax_url : string; cf_fanout_otlp_http : string; cf_jaeger_url : string; cf_oo_url : string; cf_timeout_secs : Z }.
Definition defaults : Config :=
  mkConfig "http://127.0.0.1:4000" "http://127.0.0.1:24318" "http://127.0.0.1:36686" "http://127.0.0.1:5080" 60.

Definition normalized_base (value : option string) (otherwise : string) : string :=
  match trimmed value with Some value => trim_end_slashes value | None => otherwise end.
Definition base_url (vars : Vars) (var otherwise : string) : string := normalized_base (vars var) otherwise.
Definition from_env (vars : Vars) : Config :=
  mkConfig (base_url vars "PARALLAX_URL" (cf_parallax_url defaults)) (base_url vars "FANOUT_OTLP_HTTP" (cf_fanout_otlp_http defaults))
    (base_url vars "JAEGER_URL" (cf_jaeger_url defaults)) (base_url vars "OO_URL" (cf_oo_url defaults))
    match vars "FANOUT_TIMEOUT_SECS" ≫= fun value => parse_u64 (trim value) with
    | Some secs => if 0 <? secs then secs else cf_timeout_secs defaults
    | None => cf_timeout_secs defaults
    end.

(** ** The emitted trace *)

(** The first bytes of a text, and what follows them *)
Fixpoint str_take (n : nat) (s : string) : string :=
  match n, s with S n', String a rest => String a (str_take n' rest) | _, _ => "" end.
Fixpoint str_drop (n : nat) (s : string) : string :=
  match n, s with S n', String _ rest => str_drop n' rest | _, _ => s end.

(** What follows the first occurrence of a text *)
Fixpoint find_after (p s : string) : option string :=
  if starts_with p s then Some (str_drop (String.length p) s)
  else match s with "" => None | String _ rest => find_after p rest end.

Definition is_hexdigit (a : ascii) : bool := match hex_digit a with Some _ => true | None => false end.
Definition ensure_hex (value : string) : bool := negb (is_empty value) && str_forallb is_hexdigit value.

(** The slice is one of bytes; digits have one byte each, so that a candidate
    cut inside a character is no candidate either. *)
Definition extract_trace_id (stdout : string) : option string :=
  rest ← find_after "shapes: trace " stdout;
  if 32 <=? str_len rest then
    let candidate := str_take 32 rest in
    if ensure_hex candidate then Some candidate else None
  else None.

(** ** The backends *)

Definition OO_WINDOW_MICROS : Z := 3600000000.
Definition OO_PAGE_SIZE : Z := 50.

Definition array_length (v : option json) : nat := match v ≫= as_array with Some l => length l | None => 0%nat end.

(** The spans that a reply shows *)
Definition parallax_spans_in_response (response : json) : nat := array_length (pointer ["data"; "trace"; "spans"] response).
(** Only a reply with exactly one trace counts. *)
Definition jaeger_spans_in_response (response : json) : nat :=
  match jget "data" response ≫= as_array with
  | Some [trace] => array_length (jget "spans" trace)
  | _ => 0%nat
  end.
Definition oo_hits_in_response (response : json) : nat := array_length (jget "hits" response).

Definition quote : string := String "034" "".
Definition oo_search_body (trace_id : string) (now_micros : Z) : json :=
  JObj [("query", JObj [
    ("sql", JStr ("SELECT trace_id, span_id FROM " +:+ quote +:+ "default" +:+ quote +:+ " WHERE trace_id = '" +:+ trace_id +:+ "'"));
    ("start_time", JNum (now_micros - OO_WINDOW_MICROS)); ("end_time", JNum now_micros); ("size", JNum OO_PAGE_SIZE)])].

Record Backend : Type := mkBackend { be_name : string; be_seen : option nat; be_passed : bool }.
Definition new_backend (name : string) : Backend := mkBackend name None false.
Definition BACKENDS : list Backend := [new_backend "parallax"; new_backend "jaeger"; new_backend "openobserve"].

(** One backend takes its count; no count is no evidence of absence. *)
Definition observe (expected_spans : nat) (backend : Backend) (count : option nat) : Backend :=
  match count with
  | None => backend
  | Some count => mkBackend (be_name backend) (Some count) (be_passed backend || (count =? expected_spans)%nat)
  end.

(** The replies of one turn, [None] for a request that failed *)
Record Replies : Type := mkReplies { rp_parallax : option json; rp_jaeger : option json; rp_oo : option json }.
Definition counts (r : Replies) : list (option nat) :=
  [option_map parallax_spans_in_response (rp_parallax r); option_map jaeger_spans_in_response (rp_jaeger r);
   option_map oo_hits_in_response (rp_oo r)].

(** [replies i] are those of the [i]-th turn, [clock i] is read after it, in
    seconds; [None] when the fuel does not suffice.  A failure gives the
    backends as they were last seen. *)
Fixpoint poll_backends (replies : nat -> Replies) (clock : nat -> Z) (deadline : Z) (expected_spans : nat) (fuel i : nat)
    (backends : list Backend) : option (result (list Backend) unit) :=
  match fuel with
  | O => None
  | S fuel' =>
      let backends := zip_with (observe expected_spans) backends (counts (replies i)) in
      if forallb be_passed backends then Some (Ok tt)
      else if deadline <=? clock i then Some (Err backends)
      else poll_backends replies clock deadline expected_spans fuel' (S i) backends
  end.

(** The emitting process: whether it succeeded, and its output *)
Definition emit (emitted : result string (bool * string)) : result string string :=
  output <- emitted ;;
  ensure output.1 "traces:deep emit failed" ;;
  ok_or (extract_trace_id output.2) "emit produced no trace id".

Inductive fanout_error : Type := Usage | EmitFailed (error : string) | Incomplete (backends : list Backend).

(** The run: [started] is the reading of the clock before the first turn, and
    [expected_spans] the length of a deep shape that the process generates
    itself. *)
Definition run (vars : Vars) (args : list string) (expected_spans : nat) (emitted : Config -> result string (bool * string))
    (replies : string -> nat -> Replies) (started : Z) (clock : nat -> Z) (fuel : nat) : option (result fanout_error Z) :=
  match args with
  | _ :: _ => Some (Err Usage)
  | [] =>
      let config := from_env vars in
      match emit (emitted config) with
      | Err error => Some (Err (EmitFailed error))
      | Ok trace_id =>
          option_map (fun polled => match polled with Ok _ => Ok 0 | Err backends => Err (Incomplete backends) end)
            (poll_backends (replies trace_id) clock (started + cf_timeout_secs config) expected_spans fuel 0 BACKENDS)
      end
  end.

(** ** Lemmas *)

Definition newline : ascii := "010"%char.
(** What a process prints, line by line *)
Fixpoint text_of (lines : list string) : string :=
  match lines with [] => "" | line :: rest => line +:+ String newline (text_of rest) end.

Lemma starts_with_line p l rest :
  free_of newline p = true -> starts_with p (l +:+ String newline rest) = starts_with p l.
Proof.
  revert l. induction p as [|a p IH]; intros l Hp; [done|]. apply andb_true_iff in Hp as [Ha Hp]. destruct l as [|b l].
  - apply negb_true_iff in Ha. change (Ascii.eqb a newline && starts_with p rest = false). by rewrite Ha.
  - cbn. by rewrite <- (IH l Hp).
Qed.

(** A line without the text is passed over. *)
Lemma find_after_line p l rest :
  p <> "" -> free_of newline p = true -> str_contains p l = false ->
  find_after p (l +:+ String newline rest) = find_after p rest.
Proof.
  intros Hne Hp. induction l as [|a l IH]; intros Hl.
  - destruct p as [|a p]; [done|]. apply andb_true_iff in Hp as [Ha _]. apply negb_true_iff in Ha.
    change ((if Ascii.eqb a newline && starts_with p rest then Some (str_drop (String.length p) rest)
             else find_after (String a p) rest) = find_after (String a p) rest). by rewrite Ha.
  - cbn [str_contains] in Hl. apply orb_false_iff in Hl as [Hs Hl]. rewrite str_append_cons. cbn [find_after].
    rewrite <- str_append_cons, starts_with_line, Hs by done. by apply IH.
Qed.

Lemma find_after_lines p before rest :
  p <> "" -> free_of newline p = true -> Forall (fun l => str_contains p l = false) before ->
  find_after p (text_of before +:+ rest) = find_after p rest.
Proof.
  intros Hne Hp. induction 1 as [|l before Hl _ IH]; [done|]. cbn [text_of].
  rewrite str_append_assoc, str_append_cons, find_after_line; done.
Qed.

Lemma starts_with_self p s : starts_with p (p +:+ s) = true.
Proof. induction p as [|a p IH]; [done|]. rewrite str_append_cons. cbn [starts_with]. by rewrite Ascii.eqb_refl. Qed.
Lemma drop_self p s : str_drop (String.length p) (p +:+ s) = s.
Proof. induction p as [|a p IH]; [by destruct s|]. done. Qed.
Lemma take_self p s n : String.length p = n -> str_take n (p +:+ s) = p.
Proof. intros <-. induction p as [|a p IH]; [by destruct s|]. rewrite str_append_cons. cbn [String.length str_take]. by rewrite IH. Qed.
Lemma find_after_here p s : p <> "" -> find_after p (p +:+ s) = Some s.
Proof. intros Hp. destruct (p +:+ s) eqn:E; [by destruct p|]. unfold find_after. by rewrite <- E, starts_with_self, drop_self. Qed.

Lemma text_app l m : text_of (l ++ m) = text_of l +:+ text_of m.
Proof. induction l as [|line l IH]; [done|]. cbn. by rewrite IH, str_append_assoc, str_append_cons. Qed.

Lemma hex_is_hex l : Forall is_byte l -> str_forallb is_hexdigit (encode_hex l) = true.
Proof.
  induction 1 as [|b l Hb _ IH]; [done|]. apply byte_halves in Hb as (Hh & Hl & _). cbn [encode_hex str_forallb].
  apply hex_char_value in Hh as [Eh _], Hl as [El _]. unfold is_hexdigit at 1 2. by rewrite Eh, El.
Qed.

Lemma str_length_app s t : String.length (s +:+ t) = (String.length s + String.length t)%nat.
Proof. induction s as [|a s IH]; [done|]. rewrite str_append_cons. cbn [String.length]. lia. Qed.

(** The identity printed on a line is the one read back. *)
Lemma extract_printed before trace rest :
  Forall (fun l => str_contains "shapes: trace " l = false) before -> sized 16 trace ->
  extract_trace_id (text_of (before ++ ("shapes: trace " +:+ encode_hex trace) :: rest)) = Some (encode_hex trace).
Proof.
  intros Hb [Hlen Hbytes]. unfold extract_trace_id. rewrite text_app, find_after_lines by done. cbn [text_of].
  rewrite str_append_assoc, find_after_here by done. cbn [mbind option_bind].
  pose proof (encode_length trace) as He. rewrite Hlen in He.
  assert (Hl : String.length (encode_hex trace) = 32%nat) by (unfold str_len in He; lia).
  rewrite (take_self _ _ 32 Hl).
  assert (32 <=? str_len (encode_hex trace +:+ String newline (text_of rest)) = true) as ->.
  { apply Z.leb_le. unfold str_len. rewrite str_length_app. lia. }
  unfold ensure_hex. rewrite hex_is_hex by done. by destruct (encode_hex trace).
Qed.

(** ** The deep shape *)

Lemma t_deep_from_length trace base parent depths e d : length (t_deep_from trace base parent depths e d).1 = length depths.
Proof.
  revert parent d. induction depths as [|depth depths IH]; intros parent d; [done|]. cbn [t_deep_from]. unfold g_bind.
  destruct (basic _ _ _ _ _ _ _) as [span d1]. specialize (IH (Some (ss_id (set_end (add64 base ((14 - depth) * 1000000 + 14000000)) span))) d1).
  destruct (t_deep_from _ _ _ depths _ _) as [spans d2]. cbn in *. by rewrite IH.
Qed.
Lemma t_deep_from_trace trace base parent depths e d : Forall (fun s => ss_trace s = trace) (t_deep_from trace base parent depths e d).1.
Proof.
  revert parent d. induction depths as [|depth depths IH]; intros parent d; [constructor|]. cbn [t_deep_from]. unfold g_bind at 1.
  unfold basic at 1. unfold g_bind at 1. destruct (id8 _ e d) as [id d1]. cbn [g_ret fst snd]. unfold g_bind.
  match goal with |- context [t_deep_from trace base ?p depths e d1] => specialize (IH p d1); destruct (t_deep_from trace base p depths e d1) end.
  by constructor.
Qed.

(** All the spans of the deep shape, in one trace *)
Lemma t_deep_posted e d : draws_uuids e ->
  exists trace specs, sized 16 trace /\ (t_deep e d).1 = specs /\ length specs = 14%nat /\ Forall (fun s => ss_trace s = trace) specs.
Proof.
  intros He. unfold t_deep, g_bind. pose proof (gives_id16 1 e d He) as Hs. destruct (id16 1 e d) as [trace d1]. cbn in Hs.
  destruct (now_nanos e d1) as [base d2]. exists trace. eexists. split; [done|]. split; [done|]. split.
  - by rewrite t_deep_from_length.
  - apply t_deep_from_trace.
Qed.

Lemma compare_same s : String.compare s s = Eq.
Proof.
  induction s as [|a s IH]; [done|]. cbn [String.compare]. unfold Ascii.compare. by rewrite N.compare_refl.
Qed.
Lemma one_trace request trace : request_spans request <> [] -> Forall (fun span => sp_trace_id span = trace) (request_spans request) ->
  trace_ids request = [encode_hex trace].
Proof.
  unfold trace_ids. generalize (request_spans request) as spans.
  assert (H : forall spans, Forall (fun span => sp_trace_id span = trace) spans ->
    foldl (fun set span => set_insert (hex (sp_trace_id span)) set) [encode_hex trace] spans = [encode_hex trace]).
  { induction 1 as [|span spans Hs _ IH]; [done|]. cbn [foldl]. rewrite Hs. unfold hex at 2. cbn [set_insert].
    rewrite compare_same. exact IH. }
  intros [|span spans]; [done|]. intros _ Hall. inversion Hall as [|? ? Hs Hr]; subst. cbn. by apply H.
Qed.

(** ** The polling *)

(** What a turn's counts have shown of a backend *)
Definition saw (expected_spans : nat) (replies : nat -> Replies) (i k : nat) : Prop :=
  exists j, (j <= i)%nat /\ counts (replies j) !! k = Some (Some expected_spans).
(** A backend has passed only when a turn before has shown the expected count. *)
Definition backends_ok (expected_spans : nat) (replies : nat -> Replies) (i : nat) (backends : list Backend) : Prop :=
  length backends = 3%nat /\
  forall k backend, backends !! k = Some backend -> be_passed backend = true -> exists j, (j < i)%nat /\ counts (replies j) !! k = Some (Some expected_spans).

Lemma backends_fresh : Forall (fun b => be_passed b = false) BACKENDS.
Proof. by repeat constructor. Qed.

Lemma backends_step expected_spans replies i backends :
  backends_ok expected_spans replies i backends ->
  backends_ok expected_spans replies (S i) (zip_with (observe expected_spans) backends (counts (replies i))).
Proof.
  intros [Hl Hp]. split; [by rewrite length_zip_with, Hl|]. intros k backend Hk Hpass.
  apply lookup_zip_with_Some in Hk as (b & count & -> & Hb & Hc). unfold observe in Hpass.
  destruct count as [n|]; [|destruct (Hp k b Hb Hpass) as (j & Hj & He); exists j; split; [lia|done]].
  cbn in Hpass. apply orb_true_iff in Hpass as [Hpass|Hn%Nat.eqb_eq].
  - destruct (Hp k b Hb Hpass) as (j & Hj & He). exists j. split; [lia|done].
  - exists i. split; [lia|]. by rewrite Hc, Hn.
Qed.

Lemma backends_settle replies clock deadline expected_spans n : deadline <= clock n ->
  forall fuel i backends, (i <= n)%nat -> (n - i < fuel)%nat -> is_Some (poll_backends replies clock deadline expected_spans fuel i backends).
Proof.
  intros Hn. induction fuel as [|fuel IH]; intros i backends Hi Hf; [lia|]. cbn [poll_backends].
  destruct (forallb _ _); [done|]. destruct (Z.leb_spec deadline (clock i)); [done|].
  assert (i <> n) by (intros ->; lia). apply IH; lia.
Qed.

Lemma poll_sound replies clock deadline expected_spans fuel i backends :
  backends_ok expected_spans replies i backends ->
  poll_backends replies clock deadline expected_spans fuel i backends = Some (Ok tt) ->
  forall k, (k < 3)%nat -> exists j, counts (replies j) !! k = Some (Some expected_spans).
Proof.
  revert i backends. induction fuel as [|fuel IH]; intros i backends Hok; cbn [poll_backends]; [done|].
  apply backends_step in Hok. set (backends' := zip_with _ _ _) in *. destruct (forallb be_passed backends') eqn:E.
  - intros _ k Hk. destruct Hok as [Hl Hp]. destruct (lookup_lt_is_Some_2 backends' k) as [b Hb]; [lia|].
    rewrite forallb_forall in E. destruct (Hp k b Hb) as (j & _ & Hj); [|by exists j].
    apply E, list_elem_of_In, list_elem_of_lookup. by exists k.
  - destruct (deadline <=? clock i); [done|]. by apply IH.
Qed.

(** ** Theorems *)


Definition traced_reply (n : nat) : Replies :=
  let spans := JArr (repeat (JObj []) n) in
  mkReplies (Some (JObj [("data", JObj [("trace", JObj [("spans", spans)])])])) (Some (JObj [("data", JArr [JObj [("spans", spans)]])]))
    (Some (JObj [("hits", spans)])).


Example urls : map (fun value => normalized_base value "http://x") [Some "http://127.0.0.1:5080///"; Some "   "; None; Some "/"] =
  ["http://127.0.0.1:5080"; "http://x"; "http://x"; ""].
Proof. reflexivity. Qed.
