(* ===== verification/Calendar.v ===== *)
(** The calendar of the comparison fixture (cli/src/selene.rs): the civil date
    of a number of days and the compact UTC time of a clock reading.  The
    Gregorian rule, day by day, is the reference that the arithmetic is proved
    to follow, and a compact time is proved to read back. *)

From S2P Require Import Prelude Values Propagation Telemetry RequestShapes Fanout.
Import Serde Telemetry Propagation Shapes Fanout.

(** ** The code *)

(** [as i32], the low 32 bits with their sign *)
Definition as_i32 (n : Z) : Z := (n + 2147483648) mod 4294967296 - 2147483648.

(** The day number [z] counts from 1970-01-01; eras of 400 years begin in
    March.  [Z.quot] is Rust's division, which truncates. *)
Definition civil_from_days (z : Z) : Z * Z * Z :=
  let z := z + 719468 in
  let era := Z.quot (if 0 <=? z then z else z - 146096) 146097 in
  let doe := z - era * 146097 in
  let yoe := (doe - doe / 1460 + doe / 36524 - doe / 146096) / 365 in
  let y := yoe + era * 400 in
  let doy := doe - (365 * yoe + yoe / 4 - yoe / 100) in
  let mp := (5 * doy + 2) / 153 in
  let d := doy - (153 * mp + 2) / 5 + 1 in
  let m := if mp <? 10 then mp + 3 else mp - 9 in
  let y := if m <=? 2 then y + 1 else y in
  (as_i32 y, m, d).

Fixpoint zeros (n : nat) : string := match n with O => "" | S n' => String "0" (zeros n') end.
(** [{n:0width}], for a number that is not negative *)
Definition show_padded (width : nat) (n : Z) : string := zeros (width - String.length (show_Z n)) +:+ show_Z n.

(** The time of a clock reading, in seconds since the epoch *)
Definition utc_compact (secs : Z) : string :=
  let days := secs / 86400 in
  let rem := secs mod 86400 in
  let '(year, month, day) := civil_from_days days in
  let hour := rem / 3600 in
  let min := (rem mod 3600) / 60 in
  let sec := rem mod 60 in
  show_padded 4 year +:+ show_padded 2 month +:+ show_padded 2 day +:+ "T" +:+
  show_padded 2 hour +:+ show_padded 2 min +:+ show_padded 2 sec +:+ "Z".

(** ** The reference *)

Definition leap (y : Z) : bool := (y mod 4 =? 0) && (negb (y mod 100 =? 0) || (y mod 400 =? 0)).
Definition month_length (leap_year : bool) (m : Z) : Z :=
  if m =? 2 then (if leap_year then 29 else 28) else if existsb (Z.eqb m) [4; 6; 9; 11] then 30 else 31.

(** A date that exists, and the one after it *)
Definition valid_date (date : Z * Z * Z) : bool :=
  let '(y, m, d) := date in (1 <=? m) && (m <=? 12) && (1 <=? d) && (d <=? month_length (leap y) m).
Definition next_day (date : Z * Z * Z) : Z * Z * Z :=
  let '(y, m, d) := date in
  if d <? month_length (leap y) m then (y, m, d + 1) else if m <? 12 then (y, m + 1, 1) else (y + 1, 1, 1).

(** The days of a date since the epoch: those of the years and months before *)
Definition days_of_year (y : Z) : Z := 365 * (y - 1970) + ((y - 1) / 4 - (y - 1) / 100 + (y - 1) / 400) - 477.
Definition days_of_month (leap_year : bool) (m : Z) : Z :=
  foldr Z.add 0 (map (month_length leap_year) (seqZ 1 (m - 1))).
Definition days_of_civil (date : Z * Z * Z) : Z :=
  let '(y, m, d) := date in days_of_year y + days_of_month (leap y) m + (d - 1).

(** ** A year that begins in March *)

(** The first day of a year of the era, its last, and the year of a day *)
Definition year_start (yoe : Z) : Z := 365 * yoe + yoe / 4 - yoe / 100.
Definition year_length (yoe : Z) : Z := if leap (yoe + 1) then 366 else 365.
Definition year_of_era (doe : Z) : Z := (doe - doe / 1460 + doe / 36524 - doe / 146096) / 365.

Lemma year_of_era_mono a b : 0 <= a <= b -> year_of_era a <= year_of_era b.
Proof.
  intros [Ha Hab]. revert b Hab. apply (Zlt_lower_bound_ind _ a). intros b IH Hb.
  destruct (Z.eq_dec a b) as [->|]; [lia|]. etrans; [apply (IH (b - 1)); lia|].
  unfold year_of_era. apply Z.div_le_mono; [lia|].
  change 146096 with (36524 * 4). rewrite <- !Z.div_div by lia.
  assert (Hs : forall k, 0 < k -> (b - 1) / k <= b / k <= (b - 1) / k + 1).
  { intros k Hk. split; [apply Z.div_le_mono; lia|]. rewrite <- Z.div_add by lia. apply Z.div_le_mono; lia. }
  pose proof (Hs 1460 eq_refl) as H1. pose proof (Hs 36524 eq_refl) as H2. clear IH Hs.
  generalize dependent (b / 36524). generalize dependent ((b - 1) / 36524). intros q' q Hq.
  generalize dependent (b / 1460). generalize dependent ((b - 1) / 1460). intros. Z.to_euclidean_division_equations; lia.
Qed.

Definition years : list Z := seqZ 0 400.
Lemma in_years y : 0 <= y < 400 -> In y years.
Proof. intros H. apply list_elem_of_In, elem_of_seqZ. lia. Qed.

Lemma year_edges y : 0 <= y < 400 ->
  year_of_era (year_start y) = y /\ year_of_era (year_start y + year_length y - 1) = y /\ 0 <= year_start y /\
  (if y =? 399 then year_start y + year_length y = 146097 else year_start (y + 1) = year_start y + year_length y).
Proof.
  intros Hy. assert (Hall : forallb (fun y => (year_of_era (year_start y) =? y) &&
    (year_of_era (year_start y + year_length y - 1) =? y) && (0 <=? year_start y) &&
    (if y =? 399 then year_start y + year_length y =? 146097 else year_start (y + 1) =? year_start y + year_length y)) years = true)
    by (vm_compute; reflexivity).
  rewrite forallb_forall in Hall. specialize (Hall y (in_years y Hy)).
  rewrite !andb_true_iff in Hall. destruct Hall as [[[H1 H2] H3] H4].
  repeat split; try lia. destruct (y =? 399); lia.
Qed.

(** The arithmetic finds the year of every day of an era, and only that one. *)
Lemma year_of_day doe : 0 <= doe < 146097 ->
  let y := year_of_era doe in 0 <= y < 400 /\ year_start y <= doe < year_start y + year_length y.
Proof.
  intros Hd y.
  assert (Hy : 0 <= y < 400).
  { change (year_of_era 0 <= y < 400). pose proof (year_of_era_mono 0 doe). pose proof (year_of_era_mono doe 146096).
    change (year_of_era 146096) with 399 in *. lia. }
  split; [done|]. pose proof (year_edges y Hy) as (_ & _ & H0 & Hn). split.
  - destruct (decide (y = 0)) as [->|]; [change (year_start 0) with 0; lia|].
    destruct (year_edges (y - 1)) as (_ & He & _ & Hs); [lia|].
    destruct (Z.eqb_spec (y - 1) 399); [lia|]. rewrite Z.sub_add in Hs.
    destruct (Z.le_gt_cases (year_start y) doe) as [|Hlt]; [done|].
    pose proof (year_of_era_mono doe (year_start (y - 1) + year_length (y - 1) - 1)). fold y in H. lia.
  - destruct (Z.eqb_spec y 399) as [->|]; [lia|].
    destruct (year_edges (y + 1)) as (Hs & _ & H1 & _); [lia|].
    destruct (Z.le_gt_cases (year_start (y + 1)) doe) as [Hge|]; [|lia].
    pose proof (year_of_era_mono (year_start (y + 1)) doe). fold y in H. lia.
Qed.

Lemma year_of_day_unique doe y : 0 <= y < 400 -> year_start y <= doe < year_start y + year_length y -> year_of_era doe = y.
Proof.
  intros Hy Hd. destruct (year_edges y Hy) as (H1 & H2 & H3 & _).
  pose proof (year_of_era_mono (year_start y) doe). pose proof (year_of_era_mono doe (year_start y + year_length y - 1)). lia.
Qed.

(** The month and day of the [doy]-th day of such a year *)
Definition month_of (doy : Z) : Z * Z :=
  let mp := (5 * doy + 2) / 153 in
  (if mp <? 10 then mp + 3 else mp - 9, doy - (153 * mp + 2) / 5 + 1).
Definition date_in (era yoe doy : Z) : Z * Z * Z :=
  let '(m, d) := month_of doy in (yoe + era * 400 + (if m <=? 2 then 1 else 0), m, d).

Lemma leap_era y era : leap (y + era * 400) = leap y.
Proof.
  unfold leap. replace (y + era * 400) with (y + (era * 100) * 4) at 1 by lia.
  replace (y + era * 400) with (y + (era * 4) * 100) at 1 by lia. by rewrite !Z.mod_add by done.
Qed.

(** Months from March on do not depend on the leap day. *)
Lemma month_length_late l l' m : 2 < m -> month_length l m = month_length l' m.
Proof. intros H. unfold month_length. by destruct (Z.eqb_spec m 2); [lia|]. Qed.

(** One day further within the year, for a year whose end has a leap day or not *)
Definition month_step (l : bool) (doy : Z) : bool :=
  let '(m, d) := month_of doy in
  let '(m', d') := month_of (doy + 1) in
  let carry (m : Z) := if m <=? 2 then 1 else 0 in
  (1 <=? m) && (m <=? 12) && (1 <=? d) && (d <=? month_length l m) &&
  (if d <? month_length l m then (m' =? m) && (d' =? d + 1)
   else if m <? 12 then (m' =? m + 1) && (d' =? 1) && (carry m' =? carry m)
   else (m' =? 1) && (d' =? 1) && (carry m =? 0)).
Lemma month_steps (l : bool) (doy : Z) : 0 <= doy -> doy + 1 < (if l then 366 else 365) -> month_step l doy = true.
Proof.
  intros H0 H1.
  assert (Hall : forallb (fun l : bool => forallb (month_step l) (seqZ 0 (if l then 365 else 364))) [true; false] = true)
    by (vm_compute; reflexivity).
  rewrite forallb_forall in Hall. specialize (Hall l). rewrite forallb_forall in Hall.
  apply Hall; [destruct l; simpl; auto|]. apply list_elem_of_In, elem_of_seqZ. destruct l; lia.
Qed.

Lemma date_in_step era yoe doy : 0 <= doy -> doy + 1 < year_length yoe ->
  valid_date (date_in era yoe doy) = true /\ date_in era yoe (doy + 1) = next_day (date_in era yoe doy).
Proof.
  unfold year_length. intros H0 H1. pose proof (month_steps _ _ H0 H1) as H. revert H. unfold month_step, date_in.
  destruct (month_of doy) as [m d], (month_of (doy + 1)) as [m' d']. rewrite !andb_true_iff. intros [[[[Hm Hm'] Hd] Hd'] Hs].
  assert (Hl : month_length (leap (yoe + era * 400 + (if m <=? 2 then 1 else 0))) m = month_length (leap (yoe + 1)) m).
  { destruct (Z.leb_spec m 2); [|by apply month_length_late]. f_equal. rewrite <- (leap_era (yoe + 1) era). f_equal. lia. }
  cbn [valid_date next_day]. rewrite Hl. split; [by rewrite !andb_true_iff|].
  destruct (d <? month_length (leap (yoe + 1)) m); [|destruct (m <? 12)]; rewrite !andb_true_iff in Hs.
  - destruct Hs as [Hs1 Hs2]. apply Z.eqb_eq in Hs1, Hs2. by subst.
  - destruct Hs as [[Hs1 Hs2] Hs3]. apply Z.eqb_eq in Hs1, Hs2, Hs3. subst. by rewrite Hs3.
  - destruct Hs as [[Hs1 Hs2] Hs3]. apply Z.eqb_eq in Hs1, Hs2, Hs3. subst. rewrite Hs3. do 2 f_equal. simpl. lia.
Qed.

(** From the last day of February to the first of March *)
Lemma date_in_turn era yoe era' yoe' : yoe' + era' * 400 = yoe + era * 400 + 1 ->
  valid_date (date_in era yoe (year_length yoe - 1)) = true /\
  date_in era' yoe' 0 = next_day (date_in era yoe (year_length yoe - 1)).
Proof.
  intros Hy. unfold year_length.
  assert (Hm : month_of ((if leap (yoe + 1) then 366 else 365) - 1) = (2, if leap (yoe + 1) then 29 else 28))
    by (destruct (leap (yoe + 1)); reflexivity).
  unfold date_in. rewrite Hm. change (month_of 0) with (3, 1). cbn [valid_date next_day].
  replace (yoe + era * 400 + (if 2 <=? 2 then 1 else 0)) with (yoe + 1 + era * 400) by (simpl; lia).
  rewrite leap_era. destruct (leap (yoe + 1)); (split; [done|]); simpl; do 2 f_equal; lia.
Qed.

(** ** The date of a day *)

(** [civil_from_days] before its year is narrowed *)
Definition civil (z : Z) : Z * Z * Z :=
  let w := z + 719468 in
  let doe := w mod 146097 in
  date_in (w / 146097) (year_of_era doe) (doe - year_start (year_of_era doe)).

Lemma civil_narrowed z : civil_from_days z = let '(y, m, d) := civil z in (as_i32 y, m, d).
Proof.
  unfold civil_from_days, civil, date_in, month_of. set (w := z + 719468).
  assert (Hera : Z.quot (if 0 <=? w then w else w - 146096) 146097 = w / 146097)
    by (destruct (Z.leb_spec 0 w); Z.to_euclidean_division_equations; lia).
  rewrite Hera. replace (w - w / 146097 * 146097) with (w mod 146097) by (pose proof (Z.div_mod w 146097); lia).
  fold (year_of_era (w mod 146097)). set (y := year_of_era (w mod 146097)). fold (year_start y).
  set (doy := w mod 146097 - year_start y). cbv zeta.
  destruct ((5 * doy + 2) / 153 <? 10); destruct (_ <=? 2); by rewrite ?Z.add_0_r.
Qed.

(** The dates follow one another as the calendar says, *)
Lemma civil_next z : valid_date (civil z) = true /\ civil (z + 1) = next_day (civil z).
Proof.
  unfold civil. set (w := z + 719468). replace (z + 1 + 719468) with (w + 1) by (subst w; lia).
  set (doe := w mod 146097). assert (Hd : 0 <= doe < 146097) by (apply Z.mod_pos_bound; lia).
  assert (Hw : w = 146097 * (w / 146097) + doe) by (apply Z.div_mod; lia).
  generalize dependent (w / 146097). intros era Hw. clearbody doe.
  destruct (year_of_day doe Hd) as [Hy Hyd]. set (y := year_of_era doe) in *. clearbody y.
  pose proof (year_edges y Hy) as (_ & _ & _ & Hs).
  destruct (Z.eqb_spec doe 146096) as [->|Hne].
  - assert ((w + 1) / 146097 = era + 1 /\ (w + 1) mod 146097 = 0) as [-> ->] by (Z.to_euclidean_division_equations; lia).
    change (year_of_era 0) with 0. change (0 - year_start 0) with 0.
    assert (y = 399) as ->.
    { destruct (Z.eqb_spec y 399); [done|]. destruct (year_edges (y + 1)) as (_ & _ & _ & Hs'); [lia|].
      rewrite <- (year_of_day_unique 146096 y) by lia. reflexivity. }
    change (146096 - year_start 399) with (year_length 399 - 1). apply date_in_turn. lia.
  - assert ((w + 1) / 146097 = era /\ (w + 1) mod 146097 = doe + 1) as [-> ->] by (Z.to_euclidean_division_equations; lia).
    destruct (Z.eqb_spec (doe + 1) (year_start y + year_length y)) as [He|].
    + assert (Hlt : y <> 399) by (intros ->; simpl in Hs; lia). destruct (Z.eqb_spec y 399); [done|].
      assert (Hy1 : year_of_era (doe + 1) = y + 1).
      { apply year_of_day_unique; [lia|]. assert (0 < year_length (y + 1)) by (unfold year_length; destruct (leap _); lia). lia. }
      rewrite Hy1. replace (doe + 1 - year_start (y + 1)) with 0 by lia.
      replace (doe - year_start y) with (year_length y - 1) by lia. apply date_in_turn. lia.
    + rewrite (year_of_day_unique (doe + 1) y) by lia. rewrite Z.add_sub_swap. apply date_in_step; lia.
Qed.

(** and the days before a date are counted with its next day. *)
Lemma days_of_year_next y : days_of_year (y + 1) = days_of_year y + (if leap y then 366 else 365).
Proof.
  unfold days_of_year, leap. rewrite Z.add_simpl_r.
  destruct (Z.eqb_spec (y mod 4) 0), (Z.eqb_spec (y mod 100) 0), (Z.eqb_spec (y mod 400) 0); cbn [andb orb negb];
    Z.to_euclidean_division_equations; lia.
Qed.
Lemma days_of_month_next l m : 1 <= m <= 12 ->
  if m =? 12 then days_of_month l m + month_length l m = (if l then 366 else 365)
  else days_of_month l (m + 1) = days_of_month l m + month_length l m.
Proof.
  intros H. assert (Hall : forallb (fun m =>
    if m =? 12 then days_of_month l m + month_length l m =? (if l then 366 else 365)
    else days_of_month l (m + 1) =? days_of_month l m + month_length l m) (seqZ 1 12) = true) by (destruct l; reflexivity).
  rewrite forallb_forall in Hall. specialize (Hall m). destruct (m =? 12); apply Z.eqb_eq, Hall, list_elem_of_In, elem_of_seqZ; lia.
Qed.

Lemma days_next date : valid_date date = true -> days_of_civil (next_day date) = days_of_civil date + 1.
Proof.
  destruct date as [[y m] d]. cbn [valid_date next_day]. rewrite !andb_true_iff, !Z.leb_le. intros [[[H1 H2] H3] H4].
  pose proof (days_of_month_next (leap y) m (conj H1 H2)) as Hm.
  destruct (Z.ltb_spec d (month_length (leap y) m)); cbn [days_of_civil]; [lia|].
  destruct (Z.ltb_spec m 12), (Z.eqb_spec m 12) as [->|]; try lia; cbn [days_of_civil]; cbv iota in Hm; [lia|].
  rewrite days_of_year_next. change (days_of_month (leap (y + 1)) 1) with 0. lia.
Qed.

Lemma civil_counts z : days_of_civil (civil z) = z.
Proof.
  assert (Hn : forall x, days_of_civil (civil (x + 1)) = days_of_civil (civil x) + 1).
  { intros x. destruct (civil_next x) as [Hv ->]. by apply days_next. }
  revert z. apply Z.peano_ind; [reflexivity| |]; intros z IH.
  - rewrite <- Z.add_1_r, Hn. lia.
  - specialize (Hn (Z.pred z)). replace (Z.pred z + 1) with z in Hn by lia. lia.
Qed.

(** ** Reading a compact time *)

(** A number of [width] digits after the first [from] characters *)
Definition number_at (from width : nat) (s : string) : option Z := parse_nat (str_take width (str_drop from s)) 0.
Definition read_utc (s : string) : option Z :=
  year ← number_at 0 4 s; month ← number_at 4 2 s; day ← number_at 6 2 s;
  hour ← number_at 9 2 s; min ← number_at 11 2 s; sec ← number_at 13 2 s;
  Some (days_of_civil (year, month, day) * 86400 + hour * 3600 + min * 60 + sec).

Lemma parse_zeros k s : parse_nat (zeros k +:+ s) 0 = parse_nat s 0.
Proof. induction k as [|k IH]; [done|]. exact IH. Qed.
Lemma zeros_length k s : String.length (zeros k +:+ s) = (k + String.length s)%nat.
Proof. induction k as [|k IH]; [done|]. simpl. by rewrite IH. Qed.

Lemma show_reads n : 0 <= n -> parse_nat (show_Z n) 0 = Some n.
Proof.
  intros Hn. unfold show_Z. destruct n as [|p|p]; [done| |lia]. by apply (pretty_N_spec (N.pos p)).
Qed.
Lemma digits_length k x s : (x < 10 ^ N.of_nat k)%N -> (String.length (pretty_N_go x s) <= k + String.length s)%nat.
Proof.
  revert x s. induction k as [|k IH]; intros x s Hx.
  - assert (x = 0%N) as -> by (simpl in Hx; lia). by rewrite pretty_N_go_0.
  - destruct (N.eq_dec x 0%N) as [->|]; [rewrite pretty_N_go_0; lia|]. rewrite pretty_N_go_step by lia.
    etrans; [apply IH|simpl; lia]. rewrite Nat2N.inj_succ, N.pow_succ_r' in Hx. by apply N.Div0.div_lt_upper_bound.
Qed.
Lemma shown_length width n : (0 < width)%nat -> 0 <= n < 10 ^ Z.of_nat width -> (String.length (show_Z n) <= width)%nat.
Proof.
  intros Hw Hn. unfold show_Z. destruct n as [|p|p]; [exact Hw| |lia].
  change (pretty (Z.pos p)) with (pretty_N_go (N.pos p) ""). rewrite <- (Nat.add_0_r width). apply digits_length. lia.
Qed.

Lemma padded width n : (0 < width)%nat -> 0 <= n < 10 ^ Z.of_nat width ->
  String.length (show_padded width n) = width /\ parse_nat (show_padded width n) 0 = Some n.
Proof.
  intros Hw Hn. pose proof (shown_length width n Hw Hn). unfold show_padded.
  rewrite zeros_length, parse_zeros, show_reads by lia. split; [lia|done].
Qed.

(** The numbers of a compact time stand at fixed places. *)
Lemma read_fields year month day hour min sec y m d h mi s :
  String.length year = 4%nat -> parse_nat year 0 = Some y -> String.length month = 2%nat -> parse_nat month 0 = Some m ->
  String.length day = 2%nat -> parse_nat day 0 = Some d -> String.length hour = 2%nat -> parse_nat hour 0 = Some h ->
  String.length min = 2%nat -> parse_nat min 0 = Some mi -> String.length sec = 2%nat -> parse_nat sec 0 = Some s ->
  let text := year +:+ month +:+ day +:+ "T" +:+ hour +:+ min +:+ sec +:+ "Z" in
  String.length text = 16%nat /\ read_utc text = Some (days_of_civil (y, m, d) * 86400 + h * 3600 + mi * 60 + s).
Proof.
  intros Ly Ry Lm Rm Ld Rd Lh Rh Li Ri Ls Rs text. subst text. split.
  - rewrite !str_length_app. simpl. lia.
  - unfold read_utc, number_at.
    assert (Hdrop : forall p n rest k, String.length p = n -> str_drop (n + k) (p +:+ rest) = str_drop k rest)
      by (intros p n rest k <-; induction p as [|a p IH]; [done|exact IH]).
    assert (Htake : forall p n rest, String.length p = n -> str_take n (p +:+ rest) = p) by (intros; by apply take_self).
    assert (H0 : forall t, str_drop 0 t = t) by done.
    rewrite H0, Htake, Ry by done. cbn [mbind option_bind].
    rewrite (Hdrop year 4%nat _ 0%nat Ly), H0, Htake, Rm by done. cbn [mbind option_bind].
    rewrite (Hdrop year 4%nat _ 2%nat Ly), (Hdrop month 2%nat _ 0%nat Lm), H0, Htake, Rd by done. cbn [mbind option_bind].
    rewrite (Hdrop year 4%nat _ 5%nat Ly), (Hdrop month 2%nat _ 3%nat Lm), (Hdrop day 2%nat _ 1%nat Ld),
      (Hdrop "T" 1%nat _ 0%nat eq_refl), H0, Htake, Rh by done. cbn [mbind option_bind].
    rewrite (Hdrop year 4%nat _ 7%nat Ly), (Hdrop month 2%nat _ 5%nat Lm), (Hdrop day 2%nat _ 3%nat Ld),
      (Hdrop "T" 1%nat _ 2%nat eq_refl), (Hdrop hour 2%nat _ 0%nat Lh), H0, Htake, Ri by done. cbn [mbind option_bind].
    rewrite (Hdrop year 4%nat _ 9%nat Ly), (Hdrop month 2%nat _ 7%nat Lm), (Hdrop day 2%nat _ 5%nat Ld),
      (Hdrop "T" 1%nat _ 4%nat eq_refl), (Hdrop hour 2%nat _ 2%nat Lh), (Hdrop min 2%nat _ 0%nat Li), H0, Htake, Rs by done.
    done.
Qed.

(** ** Years that are in range *)

Lemma days_of_year_le y y' : y <= y' -> days_of_year y <= days_of_year y'.
Proof.
  intros H. pattern y'. revert y' H. apply Zlt_lower_bound_ind. intros y' IH H.
  destruct (Z.eq_dec y y') as [->|]; [done|]. pose proof (days_of_year_next (y' - 1)) as Hn. rewrite Z.sub_add in Hn.
  pose proof (IH (y' - 1)). destruct (leap (y' - 1)); lia.
Qed.

Lemma days_of_month_bounds l m : 1 <= m <= 12 ->
  0 <= days_of_month l m /\ days_of_month l m + month_length l m <= (if l then 366 else 365) /\ month_length l m <= 31.
Proof.
  intros H. assert (Hall : forallb (fun m => (0 <=? days_of_month l m) &&
    (days_of_month l m + month_length l m <=? (if l then 366 else 365)) && (month_length l m <=? 31)) (seqZ 1 12) = true)
    by (destruct l; reflexivity).
  rewrite forallb_forall in Hall. specialize (Hall m). rewrite !andb_true_iff, !Z.leb_le in Hall. apply and_assoc, Hall.
  apply list_elem_of_In, elem_of_seqZ. lia.
Qed.

(** A date lies within its year. *)
Lemma date_bounds y m d : valid_date (y, m, d) = true ->
  1 <= m <= 12 /\ 1 <= d <= 31 /\ days_of_year y <= days_of_civil (y, m, d) < days_of_year (y + 1).
Proof.
  cbn [valid_date days_of_civil]. rewrite !andb_true_iff, !Z.leb_le. intros [[[H1 H2] H3] H4].
  pose proof (days_of_month_bounds (leap y) m (conj H1 H2)). rewrite days_of_year_next. lia.
Qed.

Lemma civil_year z y m d lo hi : civil z = (y, m, d) -> days_of_year lo <= z < days_of_year hi -> lo <= y < hi.
Proof.
  intros Hc Hz. destruct (civil_next z) as [Hv _]. pose proof (civil_counts z) as Hd. rewrite Hc in Hv, Hd.
  apply date_bounds in Hv as (_ & _ & Hb). pose proof (days_of_year_le (y + 1) lo). pose proof (days_of_year_le hi y). lia.
Qed.

Lemma as_i32_small n : i32_min <= n <= i32_max -> as_i32 n = n.
Proof. unfold as_i32, i32_min, i32_max. intros H. rewrite Z.mod_small; lia. Qed.

(** A range of days whose years fit *)
Lemma civil_from_days_civil z : -784000000000 <= z <= 784000000000 -> civil_from_days z = civil z.
Proof.
  intros Hz. rewrite civil_narrowed. destruct (civil z) as [[y m] d] eqn:Hc.
  rewrite as_i32_small; [done|]. unfold i32_min, i32_max. pose proof (civil_year z y m d (-2147483648) 2147483647 Hc) as H.
  assert (days_of_year (-2147483648) <= -784000000000) by (apply Z.leb_le; reflexivity).
  assert (784000000000 < days_of_year 2147483647) by (apply Z.ltb_lt; reflexivity). lia.
Qed.

(** C40: The arithmetic of the fixture's dates is the Gregorian calendar: the epoch is
    the first of January 1970, every day number has a date that exists, the next
    one has the next date, and the days before that date are as many as the
    number says, for all numbers whose year fits the 32 bits it is narrowed to. *)
Theorem dates_follow_the_calendar z :
  -784000000000 <= z < 784000000000 ->
  civil_from_days 0 = (1970, 1, 1) /\
  valid_date (civil_from_days z) = true /\ civil_from_days (z + 1) = next_day (civil_from_days z) /\
  days_of_civil (civil_from_days z) = z.
Proof.
  intros Hz. rewrite !civil_from_days_civil by lia. split; [reflexivity|]. destruct (civil_next z) as [Hv Hn].
  split; [done|]. split; [done|apply civil_counts].
Qed.

(** The last day of February 2000, a leap day of a century *)
Lemma dates_follow_the_calendar_witness :
  civil_from_days 11016 = (2000, 2, 29) /\ civil_from_days (11016 + 1) = next_day (civil_from_days 11016).
Proof. split; [reflexivity|]. apply (dates_follow_the_calendar 11016). lia. Defined.

(** A compact time of the years up to 9999 is sixteen characters long and reads
    back as the reading of the clock it was made from, so that the run ids made
    from different seconds differ. *)
Theorem utc_compact_reads_back secs :
  0 <= secs < 253402300800 ->
  String.length (utc_compact secs) = 16%nat /\ read_utc (utc_compact secs) = Some secs.
Proof.
  intros Hs. assert (Hdays : 0 <= secs / 86400 < 2932897) by (Z.to_euclidean_division_equations; lia).
  unfold utc_compact. rewrite civil_from_days_civil by lia.
  destruct (civil (secs / 86400)) as [[y m] d] eqn:Hc.
  assert (Hy : 1970 <= y < 10000) by (apply (civil_year _ _ _ _ _ _ Hc); exact Hdays).
  destruct (civil_next (secs / 86400)) as [Hv _]. rewrite Hc in Hv. apply date_bounds in Hv as (Hm & Hd & _).
  pose proof (civil_counts (secs / 86400)) as Hcount. rewrite Hc in Hcount.
  assert (Ht : 0 <= secs mod 86400 / 3600 < 100 /\ 0 <= secs mod 86400 mod 3600 / 60 < 100 /\ 0 <= secs mod 86400 mod 60 < 100 /\
    secs = secs / 86400 * 86400 + secs mod 86400 / 3600 * 3600 + secs mod 86400 mod 3600 / 60 * 60 + secs mod 86400 mod 60)
    by (Z.to_euclidean_division_equations; lia).
  destruct Ht as (Hh & Hmin & Hsec & Hsum).
  destruct (padded 4 y) as [Ly Ry]; [lia..|]. destruct (padded 2 m) as [Lm Rm]; [lia..|].
  destruct (padded 2 d) as [Ld Rd]; [lia..|]. destruct (padded 2 (secs mod 86400 / 3600)) as [Lh Rh]; [lia..|].
  destruct (padded 2 (secs mod 86400 mod 3600 / 60)) as [Li Ri]; [lia..|].
  destruct (padded 2 (secs mod 86400 mod 60)) as [Ls Rs]; [lia..|].
  destruct (read_fields _ _ _ _ _ _ _ _ _ _ _ _ Ly Ry Lm Rm Ld Rd Lh Rh Li Ri Ls Rs) as [-> ->].
  split; [done|]. f_equal. lia.
Qed.

Lemma utc_compact_reads_back_witness :
  utc_compact 1709251199 = "20240229T235959Z" /\ read_utc (utc_compact 1709251199) = Some 1709251199.
Proof. split; [reflexivity|]. apply (utc_compact_reads_back 1709251199). lia. Defined.
