(* ===== verification/Selene.v ===== *)
(** The comparison fixture (cli/src/selene.rs): one run that posts spans, a log
    and metrics of its own, drives a checkout that succeeds, two declined and a
    delayed one, two queries and the pages of the shop, and prints a record of
    what it did.  The answers to requests, the clock, the UUIDs and the JSON
    parser and printer are parameters. *)

From S2P Require Import Prelude Values Propagation Telemetry RequestShapes ShapesOutcomes VerifyW3c ScenarioTraces Cli Fanout Calendar.
Import Text Serde Telemetry Propagation Shapes ShapesCorpora ShapesOutcomes ScenarioTraces VerifyW3c Cli
  Fanout Calendar.

(** ** Configuration *)

Definition DEFAULT_OTLP_HTTP : string := "https://otel.chainargos.com".

Record Config : Type := mkConfig {
  sc_run_id : string; sc_checkout_url : string; sc_fulfillment_url : string; sc_catalog_url : string;
  sc_storefront_url : string; sc_web_url : string; sc_otlp_http : string; sc_fulfillment_token : string }.

Definition env_or (vars : Vars) (name otherwise : string) : string := default otherwise (trimmed (vars name)).
Definition trim_slash (value : string) : string := trim_end_slashes value.

(** The first digits of a UUID *)
Definition hex_id (uuid : bytes) (bytes : nat) : string := str_take (bytes * 2) (encode_hex uuid).

(** At a reading of the clock in seconds, with a UUID for the suffix *)
Definition from_env (vars : Vars) (secs : Z) (uuid : bytes) : Config :=
  mkConfig (env_or vars "SELENE_RUN_ID" ("selene-playground-fixture-" +:+ utc_compact secs +:+ "-" +:+ hex_id uuid 4))
    (trim_slash (env_or vars "CHECKOUT_URL" "http://127.0.0.1:8088"))
    (trim_slash (env_or vars "FULFILLMENT_URL" "http://127.0.0.1:8093"))
    (trim_slash (env_or vars "CATALOG_URL" "http://127.0.0.1:8080"))
    (trim_slash (env_or vars "STOREFRONT_URL" "http://127.0.0.1:8094"))
    (trim_slash (env_or vars "WEB_URL" "http://127.0.0.1:5173"))
    (trim_slash (env_or vars "OTEL_EXPORTER_OTLP_HTTP_ENDPOINT" DEFAULT_OTLP_HTTP))
    (env_or vars "FULFILLMENT_INTERNAL_TOKEN" "fulfillment-internal:research-secret").

(** ** Requests *)

Inductive Method : Type := Get | Post.
Record Request : Type := mkRequest {
  rq_method : Method; rq_url : string; rq_headers : list (string * string); rq_body : option json }.
(** The text of an answer, when it could be read *)
Record Reply : Type := mkReply { rp_status : Z; rp_text : option string }.

(** Why a run ends: its message, or a fuel that did not suffice *)
Inductive failure : Type := Failed (message : string) | OutOfFuel.

(** What a run does: the requests made so far, and its outcome *)
Notation Step A := (list Request -> result failure A * list Request).

Definition st_ret {A} (a : A) : Step A := fun log => (Ok a, log).
Definition st_fail {A} (x : failure) : Step A := fun log => (Err x, log).
Definition st_bind {A B} (m : Step A) (k : A -> Step B) : Step B := fun log =>
  match m log with (Ok a, log') => k a log' | (Err x, log') => (Err x, log') end.
Definition st_ensure (cond : bool) (message : string) : Step unit := if cond then st_ret tt else st_fail (Failed message).
Definition st_lift {A} (r : result string A) : Step A :=
  match r with Ok a => st_ret a | Err message => st_fail (Failed message) end.

Declare Scope step_scope.
Delimit Scope step_scope with step.
Notation "x <~ m ;; k" := (st_bind m (fun x => k)) (at level 100, m at next level, right associativity) : step_scope.
Notation "m ;; k" := (st_bind m (fun _ => k)) (at level 100, right associativity) : step_scope.
Local Open Scope step_scope.

(** A header value that has to parse *)
Definition header_value (value : string) : result string string :=
  if header_text value then Ok value else Err "failed to parse header value".

Definition selene_baggage (run_id : string) : string :=
  "tenant.id=tenant-acme,user.tier=standard,customer.segment=standard,region=us-east-1,request.priority=normal,selene.run_id="
  +:+ run_id.
Definition trace_headers (trace_id parent_span_id run_id : string) : result string (list (string * string)) :=
  res_bind (header_value ("00-" +:+ trace_id +:+ "-" +:+ parent_span_id +:+ "-01")) (fun traceparent =>
  res_bind (header_value (selene_baggage run_id)) (fun baggage =>
  Ok [("content-type", "application/json"); ("traceparent", traceparent); ("baggage", baggage)])).

(** ** The telemetry of the fixture *)

Definition attribute (key value : string) : json := JObj [("key", JStr key); ("value", JObj [("stringValue", JStr value)])].
Definition later (now_ns nanos : Z) : json := JStr (show_Z ((now_ns + nanos) mod u64_modulus)).

Definition resource_attributes (run_id : string) : json :=
  JArr [attribute "service.name" ("selene-playground-" +:+ run_id); attribute "selene.run_id" run_id;
        attribute "deployment.environment.name" "selene"].

Definition selene_span (trace_id span_id : string) (parent : option string) (name : string) (kind start finish now_ns : Z)
    (status : list (string * json)) (attributes : list json) : json :=
  JObj ([("traceId", JStr trace_id); ("spanId", JStr span_id)] ++
    match parent with Some parent => [("parentSpanId", JStr parent)] | None => [] end ++
    [("name", JStr name); ("kind", JNum kind); ("startTimeUnixNano", later now_ns start); ("endTimeUnixNano", later now_ns finish);
     ("status", JObj status); ("attributes", JArr attributes)]).

Definition traces_body (run_id trace_id parent_span_id child_span_id async_child_span_id error_message : string) (now_ns : Z) : json :=
  let run := attribute "selene.run_id" run_id in
  JObj [("resourceSpans", JArr [JObj [("resource", JObj [("attributes", resource_attributes run_id)]);
    ("scopeSpans", JArr [JObj [("spans", JArr [
      selene_span trace_id parent_span_id None "selene.playground.cli" 1 0 80000000 now_ns [("code", JNum 1)]
        [run; attribute "selene.runtime" "cli"];
      selene_span trace_id child_span_id (Some parent_span_id) "selene.playground.sync_child" 2 1000000 20000000 now_ns
        [("code", JNum 1)] [run; attribute "selene.edge" "sync"];
      selene_span trace_id async_child_span_id (Some parent_span_id) "selene.playground.async_child" 3 21000000 70000000 now_ns
        [("code", JNum 2); ("message", JStr error_message)]
        [run; attribute "selene.edge" "async"; attribute "exception.message" error_message]])]])]])].

Definition logs_body (run_id trace_id parent_span_id log_body : string) (now_ns : Z) : json :=
  JObj [("resourceLogs", JArr [JObj [("resource", JObj [("attributes", resource_attributes run_id)]);
    ("scopeLogs", JArr [JObj [("logRecords", JArr [JObj [
      ("timeUnixNano", later now_ns 5000000); ("severityNumber", JNum 17); ("severityText", JStr "ERROR");
      ("body", JObj [("stringValue", JStr log_body)]); ("traceId", JStr trace_id); ("spanId", JStr parent_span_id);
      ("attributes", JArr [attribute "selene.run_id" run_id])]])]])]])].

(** One underscore for each character that is no ASCII letter or digit; the
    bytes that continue a character stand for none of their own. *)
Fixpoint metric_prefix (run_id : string) : string :=
  match run_id with
  | "" => ""
  | String a rest =>
      if is_alphanumeric a then String a (metric_prefix rest)
      else if utf8_cont a then metric_prefix rest
      else String "_" (metric_prefix rest)
  end.

Definition data_points (run_id : string) (now_ns : Z) (fields : list (string * json)) : string * json :=
  ("dataPoints", JArr [JObj (fields ++ [("timeUnixNano", later now_ns 0);
    ("attributes", JArr [attribute "selene.run_id" run_id])])]).
Definition metrics_body (run_id : string) (now_ns : Z) : json :=
  let prefix := metric_prefix run_id in
  JObj [("resourceMetrics", JArr [JObj [("resource", JObj [("attributes", resource_attributes run_id)]);
    ("scopeMetrics", JArr [JObj [("metrics", JArr [
      JObj [("name", JStr (prefix +:+ "_requests_total"));
        ("sum", JObj [data_points run_id now_ns [("asInt", JStr "3")]; ("aggregationTemporality", JNum 2); ("isMonotonic", JBool true)])];
      JObj [("name", JStr (prefix +:+ "_gauge")); ("gauge", JObj [data_points run_id now_ns [("asDouble", JReal "42.0")]])];
      JObj [("name", JStr (prefix +:+ "_latency_ms"));
        ("histogram", JObj [data_points run_id now_ns [("count", JStr "2"); ("sum", JReal "15.0");
           ("bucketCounts", JArr [JStr "0"; JStr "1"; JStr "1"]); ("explicitBounds", JArr [JReal "10.0"; JReal "20.0"])];
         ("aggregationTemporality", JNum 2)])]])]])]])].

(** ** The requests *)

Definition otlp_request (config : Config) (path : string) (body : json) : Request :=
  mkRequest Post (sc_otlp_http config +:+ "/" +:+ path) [("content-type", "application/json")] (Some body).

Definition checkout_body (request_id token : string) (controls : list (string * json)) : json :=
  JObj (foldl (fun fields control => assoc_insert control.1 control.2 fields)
    [("tenant_id", JStr "tenant-acme"); ("customer_id", JStr "customer-acme-ava");
     ("items", JArr [JObj [("sku", JStr "WIDGET-1"); ("quantity", JNum 1)]]); ("currency_code", JStr "USD");
     ("payment_method_token", JStr token); ("payment_method_type", JStr "card"); ("request_id", JStr request_id)] controls).
Definition checkout_request (config : Config) (headers : list (string * string)) (request_id token : string)
    (controls : list (string * json)) : Request :=
  mkRequest Post (sc_checkout_url config +:+ "/checkout") headers (Some (checkout_body request_id token controls)).

Definition order_request (config : Config) (order_id : string) : Request :=
  mkRequest Get (sc_fulfillment_url config +:+ "/verify/order?order=" +:+ order_id +:+ "&tenant=tenant-acme")
    [("authorization", "Bearer " +:+ sc_fulfillment_token config); ("x-tenant-id", "tenant-acme")] None.

Definition graphql_request (base : string) (headers : list (string * string)) (query : string) : Request :=
  mkRequest Post (base +:+ "/graphql") (headers ++ [("x-tenant-id", "tenant-acme")]) (Some (JObj [("query", JStr query)])).
Definition catalog_query : string := "query SeleneFixture { products { items { id sku name } } }".

Definition web_request (config : Config) (path : string) : Request := mkRequest Get (sc_web_url config +:+ path) [] None.
Definition WEB_ROUTES : list string := ["/"; "/catalog"; "/checkout"].

Section fixture.
Context (parse_json : string -> option json) (print_json : json -> string) (status_text : Z -> string).

(** The answer to the last of the requests made, and the clock, in milliseconds,
    after them; a request that cannot be built is one that fails. *)
Context (net : list Request -> result string Reply) (clock : list Request -> Z) (fuel : nat).

Definition ask (r : Request) : Step (result string Reply) := fun log => (Ok (net (log ++ [r])), log ++ [r]).
Definition ask_or (r : Request) (message : string) : Step Reply :=
  reply <~ ask r ;;
  match reply with Ok reply => st_ret reply | Err _ => st_fail (Failed message) end.

Definition post_otlp_json (config : Config) (path : string) (body : json) : Step unit :=
  reply <~ ask_or (otlp_request config path body) ("POST " +:+ sc_otlp_http config +:+ "/" +:+ path) ;;
  st_ensure (is_success (rp_status reply)) ("POST " +:+ sc_otlp_http config +:+ "/" +:+ path +:+ ": HTTP " +:+
    status_text (rp_status reply) +:+ " " +:+ take_chars 200 (default "" (rp_text reply))).

Definition emit_otlp (config : Config) (trace_id parent_span_id child_span_id async_child_span_id log_body error_message : string)
    (now_ns : Z) : Step unit :=
  let run_id := sc_run_id config in
  post_otlp_json config "v1/traces"
    (traces_body run_id trace_id parent_span_id child_span_id async_child_span_id error_message now_ns) ;;
  post_otlp_json config "v1/logs" (logs_body run_id trace_id parent_span_id log_body now_ns) ;;
  post_otlp_json config "v1/metrics" (metrics_body run_id now_ns).

(** A body that is no JSON is kept as it is. *)
Definition reply_value (reply : Reply) : json :=
  let text := default "" (rp_text reply) in default (JObj [("raw", JStr text)]) (parse_json text).

Definition checkout (config : Config) (trace_id parent_span_id request_id token : string) (controls : list (string * json)) :
    Step (Z * json) :=
  headers <~ st_lift (trace_headers trace_id parent_span_id (sc_run_id config)) ;;
  reply <~ ask_or (checkout_request config headers request_id token controls) "checkout POST" ;;
  st_ret (rp_status reply, reply_value reply).

(** The body of an answer; one that cannot be read is an empty object. *)
Definition order_body (reply : Reply) : json := default (JObj []) (rp_text reply ≫= parse_json).
(** An order is fulfilled when the answer says so twice. *)
Definition fulfilled (reply : result string Reply) : bool :=
  match reply with
  | Ok reply =>
      is_success (rp_status reply) && bool_decide (jget "ready" (order_body reply) ≫= as_bool = Some true)
      && ScenarioTraces.field_is "fulfillment_status" "completed" (order_body reply)
  | Err _ => false
  end.
Definition order_late (order_id : string) (reply : result string Reply) : string :=
  match reply with
  | Ok reply => "fulfillment timeout for " +:+ order_id +:+ ": " +:+ print_json (order_body reply)
  | Err _ => "fulfillment request failed for " +:+ order_id
  end.

Fixpoint await_order (config : Config) (order_id : string) (fuel : nat) (deadline : Z) : Step unit :=
  match fuel with
  | O => st_fail OutOfFuel
  | S fuel' =>
      reply <~ ask (order_request config order_id) ;;
      if fulfilled reply then st_ret tt
      else fun log =>
        if deadline <=? clock log then (Err (Failed (order_late order_id reply)), log)
        else await_order config order_id fuel' deadline log
  end.
Definition wait_for_fulfillment (config : Config) (order_id : string) : Step unit := fun log =>
  await_order config order_id fuel (clock log + 45000) log.

Definition catalog_graphql (config : Config) (trace_id parent_span_id : string) : Step unit :=
  headers <~ st_lift (trace_headers trace_id parent_span_id (sc_run_id config)) ;;
  reply <~ ask_or (graphql_request (sc_catalog_url config) headers catalog_query) "catalog graphql" ;;
  st_ensure (is_success (rp_status reply)) ("catalog graphql HTTP " +:+ status_text (rp_status reply)).

(** Any answer of the storefront will do. *)
Definition storefront_graphql (config : Config) (trace_id parent_span_id : string) : Step unit :=
  headers <~ st_lift (trace_headers trace_id parent_span_id (sc_run_id config)) ;;
  _ <~ ask_or (graphql_request (sc_storefront_url config) headers "{ __typename }") "storefront graphql" ;;
  st_ret tt.

Fixpoint count_routes (config : Config) (routes : list string) (ok : Z) : Step Z :=
  match routes with
  | [] => st_ret ok
  | path :: rest =>
      reply <~ ask_or (web_request config path) ("web " +:+ path) ;;
      count_routes config rest (if is_success (rp_status reply) then ok + 1 else ok)
  end.
Definition browser_routes (config : Config) : Step Z := count_routes config WEB_ROUTES 0.

(** ** The run *)

(** What a declined checkout is taken for *)
Definition declined (status : Z) (body : json) : bool :=
  (status =? 402) || ScenarioTraces.field_is "error" "payment_declined" body || negb (is_success status).

Definition decline (config : Config) (error_trace cli_span : string) (index : Z) : Step unit :=
  reply <~ checkout config error_trace cli_span (sc_run_id config +:+ "-decline-" +:+ show_Z index) "tok_decline" [] ;;
  st_ensure (declined reply.1 reply.2)
    ("controlled decline " +:+ show_Z index +:+ ": expected payment failure, got " +:+ status_text reply.1 +:+ ": " +:+ print_json reply.2).

(** The identities drawn at the start, after the suffix of the run *)
Record Ids : Type := mkIds {
  id_success_trace : string; id_cli_span : string; id_checkout_span : string; id_async_child_span : string;
  id_error_trace : string; id_delay_trace : string }.
Definition draw_ids (uuid : nat -> bytes) : Ids :=
  mkIds (hex_id (uuid 1%nat) 16) (hex_id (uuid 2%nat) 8) (hex_id (uuid 3%nat) 8) (hex_id (uuid 4%nat) 8)
    (hex_id (uuid 5%nat) 16) (hex_id (uuid 6%nat) 16).

Definition emit_record (config : Config) (ids : Ids) (order_id success_request log_body error_message : string) (runtimes : list string)
    (browser_routes delay_http : Z) : json :=
  JObj [("gate", JStr "selene-playground-fixture"); ("run_id", JStr (sc_run_id config)); ("trace_id", JStr (id_success_trace ids));
    ("parent_span_id", JStr (id_cli_span ids)); ("child_span_id", JStr (id_checkout_span ids));
    ("async_child_span_id", JStr (id_async_child_span ids)); ("error_trace_id", JStr (id_error_trace ids));
    ("delay_trace_id", JStr (id_delay_trace ids)); ("order_id", JStr order_id); ("success_request_id", JStr success_request);
    ("log_body", JStr log_body); ("error_message", JStr error_message); ("runtimes", JArr (map JStr runtimes));
    ("otlp_http", JStr (sc_otlp_http config +:+ "/v1/{traces,logs,metrics}")); ("checkout_url", JStr (sc_checkout_url config));
    ("web_routes_ok", JNum browser_routes); ("delay_http", JNum delay_http)].

(** The record that is printed *)
Definition drive_fixture (config : Config) (ids : Ids) (now_ns : Z) : Step json :=
  let run_id := sc_run_id config in
  let log_body := "selene-playground-log-" +:+ run_id in
  let error_message := "selene-playground-err-" +:+ run_id in
  emit_otlp config (id_success_trace ids) (id_cli_span ids) (id_checkout_span ids) (id_async_child_span ids) log_body error_message now_ns ;;
  let success_request := run_id +:+ "-success" in
  success <~ checkout config (id_success_trace ids) (id_cli_span ids) success_request "tok_visa" [] ;;
  st_ensure (is_success success.1)
    ("success checkout failed: HTTP " +:+ status_text success.1 +:+ ": " +:+ print_json success.2) ;;
  order_id <~ st_lift (ok_or (non_empty (jget_str "order_id" success.2)) "success checkout omitted order_id") ;;
  wait_for_fulfillment config order_id ;;
  decline config (id_error_trace ids) (id_cli_span ids) 1 ;;
  decline config (id_error_trace ids) (id_cli_span ids) 2 ;;
  delay <~ checkout config (id_delay_trace ids) (id_cli_span ids) (run_id +:+ "-delay") "tok_visa" [("delay_ms", JNum 400)] ;;
  st_ensure (is_success delay.1 || ((500 <=? delay.1) && (delay.1 <? 600)))
    ("delayed checkout unexpected status " +:+ status_text delay.1 +:+ ": " +:+ print_json delay.2) ;;
  catalog_graphql config (id_success_trace ids) (id_cli_span ids) ;;
  storefront_graphql config (id_success_trace ids) (id_cli_span ids) ;;
  routes <~ browser_routes config ;;
  st_ret (emit_record config ids order_id success_request log_body error_message
    (["cli"; "rust"; "java"] ++ (if 0 <? routes then ["browser"] else [])) routes delay.1).

(** [uuid 0] makes the suffix; the clock of the spans is read in nanoseconds. *)
Definition run (vars : Vars) (args : list string) (secs now_ns : Z) (uuid : nat -> bytes) : Step json :=
  st_ensure (bool_decide (args = []))
    "usage: playground selene-fixture (URLs and SELENE_RUN_ID come from the environment)" ;;
  drive_fixture (from_env vars secs (uuid 0%nat)) (draw_ids uuid) (now_ns mod u64_modulus).

(** ** Lemmas *)

Lemma bind_ok {A B} (m : Step A) (k : A -> Step B) log b log' :
  st_bind m k log = (Ok b, log') -> exists a l, m log = (Ok a, l) /\ k a l = (Ok b, log').
Proof. unfold st_bind. destruct (m log) as [[a|x] l]; [eauto|done]. Qed.
Lemma ret_ok {A} (a : A) log b log' : st_ret a log = (Ok b, log') -> b = a /\ log' = log.
Proof. unfold st_ret. intros H. by inversion H. Qed.
Lemma step_ensure_ok cond message log u log' : st_ensure cond message log = (Ok u, log') -> cond = true /\ log' = log.
Proof. unfold st_ensure. destruct cond; [|done]. by intros [= _ <-]. Qed.
Lemma lift_ok {A} (r : result string A) log a log' : st_lift r log = (Ok a, log') -> r = Ok a /\ log' = log.
Proof. destruct r; [|done]. by intros [= <- <-]. Qed.
Lemma ask_ok r message log reply log' :
  ask_or r message log = (Ok reply, log') -> net log' = Ok reply /\ log' = log ++ [r].
Proof. unfold ask_or, ask, st_bind. cbn. destruct (net (log ++ [r])) eqn:E; [|done]. by intros [= <- <-]. Qed.

Lemma checkout_ok config trace span request_id token controls log status body log' :
  checkout config trace span request_id token controls log = (Ok (status, body), log') ->
  exists headers reply, trace_headers trace span (sc_run_id config) = Ok headers /\
    log' = log ++ [checkout_request config headers request_id token controls] /\ net log' = Ok reply /\
    status = rp_status reply /\ body = reply_value reply.
Proof.
  unfold checkout. intros (headers & l & (Hh & ->)%lift_ok & H)%bind_ok. apply bind_ok in H as (reply & l & (Hn & ->)%ask_ok & H).
  injection H as <- <- <-. by exists headers, reply.
Qed.

Lemma await_ok config order_id n deadline log u log' : await_order config order_id n deadline log = (Ok u, log') ->
  exists turns, log' = log ++ replicate (S turns) (order_request config order_id) /\ fulfilled (net log') = true.
Proof.
  revert log. induction n as [|n IH]; intros log; [done|]. cbn [await_order]. unfold ask. unfold st_bind at 1. cbv beta iota.
  destruct (fulfilled (net (log ++ _))) eqn:Hf; [intros [= _ <-]; by exists 0%nat|].
  destruct (deadline <=? clock _); [done|]. intros (turns & -> & Hf')%IH. exists (S turns).
  rewrite <- app_assoc. by split; [|rewrite <- app_assoc in Hf'].
Qed.

Lemma routes_ok config routes ok log n log' : count_routes config routes ok log = (Ok n, log') ->
  log' = log ++ map (web_request config) routes /\ ok <= n <= ok + Z.of_nat (length routes).
Proof.
  revert ok log. induction routes as [|path rest IH]; intros ok log; cbn [count_routes map length].
  - intros [= <- <-]. simpl. rewrite app_nil_r. split; [done|lia].
  - intros (reply & l & (_ & ->)%ask_ok & H)%bind_ok. apply IH in H as [-> H]. rewrite <- app_assoc.
    split; [done|]. destruct (is_success _); lia.
Qed.

(** ** The record and the requests *)

(** Each identity of a trace is that of a version 4 UUID. *)
Definition is_v4 (uuid : bytes) : Prop :=
  length uuid = 16%nat /\ Forall is_byte uuid /\ exists version, uuid !! 6%nat = Some version /\ 64 <= version < 80.

Lemma hex_id_take uuid n : hex_id uuid n = encode_hex (take n uuid).
Proof.
  unfold hex_id. revert n. induction uuid as [|b uuid IH]; intros [|n]; [done..|].
  cbn [Nat.mul Nat.add encode_hex str_take take]. by rewrite IH.
Qed.

Lemma hex_char_shape n : 0 <= n < 16 ->
  (is_digit (hex_char n) || ((97 <=? byte_of (hex_char n)) && (byte_of (hex_char n) <=? 102))%N) = true /\
  (byte_of (hex_char n) =? 48)%N = (n =? 0).
Proof.
  intros H. assert (Hall : forallb (fun n =>
    (is_digit (hex_char n) || ((97 <=? byte_of (hex_char n)) && (byte_of (hex_char n) <=? 102))%N) &&
    Bool.eqb (byte_of (hex_char n) =? 48)%N (n =? 0)) (seqZ 0 16) = true) by (vm_compute; reflexivity).
  rewrite forallb_forall in Hall. specialize (Hall n). rewrite andb_true_iff, eqb_true_iff in Hall. apply Hall.
  apply list_elem_of_In, elem_of_seqZ. lia.
Qed.

Lemma encode_lower l : Forall is_byte l -> is_lower_hex (encode_hex l) (2 * Z.of_nat (length l)) = true.
Proof.
  intros Hl. unfold is_lower_hex. rewrite encode_length, Z.eqb_refl. cbn [andb]. induction Hl as [|b l Hb _ IH]; [done|].
  apply byte_halves in Hb as (Hh & Hlo & _). cbn [encode_hex str_forallb]. rewrite IH.
  by rewrite (proj1 (hex_char_shape _ Hh)), (proj1 (hex_char_shape _ Hlo)).
Qed.

Lemma encode_not_zero l b i : Forall is_byte l -> l !! i = Some b -> b <> 0 -> all_zero_hex (encode_hex l) = false.
Proof.
  intros Hl. revert i. unfold all_zero_hex. induction Hl as [|a l Ha _ IH]; intros i; [done|].
  apply byte_halves in Ha as (Hh & Hlo & Hsum). cbn [encode_hex str_forallb].
  rewrite (proj2 (hex_char_shape _ Hh)), (proj2 (hex_char_shape _ Hlo)).
  destruct i as [|i]; cbn [lookup list_lookup]; intros Hi Hb.
  - injection Hi as ->. destruct (Z.eqb_spec (Z.shiftr b 4) 0), (Z.eqb_spec (Z.land b 15) 0); try done. lia.
  - rewrite (IH i Hi Hb). by rewrite !andb_false_r.
Qed.

(** The traceparent of the fixture is one that every service takes. *)
Lemma fixture_traceparent trace span : is_v4 trace -> is_v4 span ->
  validate_traceparent_header ("00-" +:+ hex_id trace 16 +:+ "-" +:+ hex_id span 8 +:+ "-01") = Ok tt.
Proof.
  intros (Ht & Htb & tv & Htv & Ht1) (Hs & Hsb & sv & Hsv & Hs1). apply traceparent_header_shape.
  exists (hex_id trace 16), (hex_id span 8), "01". rewrite !hex_id_take. split; [done|].
  assert (Hlt : length (take 16 trace) = 16%nat) by (rewrite length_take; lia).
  assert (Hls : length (take 8 span) = 8%nat) by (rewrite length_take; lia).
  assert (Hbt : Forall is_byte (take 16 trace)) by by apply Forall_take.
  assert (Hbs : Forall is_byte (take 8 span)) by by apply Forall_take.
  split_and!; [|apply (encode_not_zero _ tv 6); [done|by rewrite lookup_take_lt by lia|lia]| |
    apply (encode_not_zero _ sv 6); [done|by rewrite lookup_take_lt by lia|lia]|reflexivity].
  - pose proof (encode_lower _ Hbt) as H. by rewrite Hlt in H.
  - pose proof (encode_lower _ Hbs) as H. by rewrite Hls in H.
Qed.

(** The headers of a trace, and the requests of a run in order *)
Definition fixture_headers (run_id trace span : string) : list (string * string) :=
  [("content-type", "application/json"); ("traceparent", "00-" +:+ trace +:+ "-" +:+ span +:+ "-01");
   ("baggage", selene_baggage run_id)].
Lemma trace_headers_ok trace span run_id headers : trace_headers trace span run_id = Ok headers ->
  headers = fixture_headers run_id trace span.
Proof.
  unfold trace_headers, header_value. destruct (header_text ("00-" +:+ _)); [|done]. cbn [res_bind].
  destruct (header_text (selene_baggage run_id)); [|done]. by intros [= <-].
Qed.

Section one_run.
Context (config : Config) (ids : Ids) (now_ns : Z).
Let run_id := sc_run_id config.
Let from_cli (trace : string) : list (string * string) := fixture_headers run_id trace (id_cli_span ids).

Definition traces_post : Request := otlp_request config "v1/traces"
  (traces_body run_id (id_success_trace ids) (id_cli_span ids) (id_checkout_span ids) (id_async_child_span ids)
    ("selene-playground-err-" +:+ run_id) now_ns).
Definition logs_post : Request := otlp_request config "v1/logs"
  (logs_body run_id (id_success_trace ids) (id_cli_span ids) ("selene-playground-log-" +:+ run_id) now_ns).
Definition metrics_post : Request := otlp_request config "v1/metrics" (metrics_body run_id now_ns).
Definition success_post : Request :=
  checkout_request config (from_cli (id_success_trace ids)) (run_id +:+ "-success") "tok_visa" [].
Definition decline_post (index : Z) : Request :=
  checkout_request config (from_cli (id_error_trace ids)) (run_id +:+ "-decline-" +:+ show_Z index) "tok_decline" [].
Definition delay_post : Request :=
  checkout_request config (from_cli (id_delay_trace ids)) (run_id +:+ "-delay") "tok_visa" [("delay_ms", JNum 400)].
Definition catalog_post : Request := graphql_request (sc_catalog_url config) (from_cli (id_success_trace ids)) catalog_query.
Definition storefront_post : Request := graphql_request (sc_storefront_url config) (from_cli (id_success_trace ids)) "{ __typename }".

Definition fixture_requests (order_id : string) (turns : nat) : list Request :=
  [traces_post; logs_post; metrics_post; success_post] ++ replicate (S turns) (order_request config order_id) ++
  [decline_post 1; decline_post 2; delay_post; catalog_post; storefront_post] ++ map (web_request config) WEB_ROUTES.

(** A request that was made, with an answer of some kind *)
Definition answered (log : list Request) (r : Request) (P : Reply -> Prop) : Prop :=
  exists before reply, (before ++ [r]) `prefix_of` log /\ net (before ++ [r]) = Ok reply /\ P reply.

Lemma answered_app log more r P : answered log r P -> answered (log ++ more) r P.
Proof. intros (before & reply & Hp & H). exists before, reply. split; [by apply prefix_app_r|done]. Qed.
Lemma answered_last log r reply (P : Reply -> Prop) : net (log ++ [r]) = Ok reply -> P reply -> answered (log ++ [r]) r P.
Proof. intros Hn HP. exists log, reply. by split. Qed.

Definition succeeds (reply : Reply) : Prop := is_success (rp_status reply) = true.
Definition declines (reply : Reply) : Prop := declined (rp_status reply) (reply_value reply) = true.

Lemma otlp_post_ok path body log u log' : post_otlp_json config path body log = (Ok u, log') ->
  log' = log ++ [otlp_request config path body] /\ answered log' (otlp_request config path body) succeeds.
Proof.
  unfold post_otlp_json. intros (reply & l & (Hn & ->)%ask_ok & (Hs & ->)%step_ensure_ok)%bind_ok.
  split; [done|]. by eapply answered_last.
Qed.
Lemma emit_ok log u log' :
  emit_otlp config (id_success_trace ids) (id_cli_span ids) (id_checkout_span ids) (id_async_child_span ids)
    ("selene-playground-log-" +:+ run_id) ("selene-playground-err-" +:+ run_id) now_ns log = (Ok u, log') ->
  log' = log ++ [traces_post; logs_post; metrics_post] /\
  Forall (fun r => answered log' r succeeds) [traces_post; logs_post; metrics_post].
Proof.
  unfold emit_otlp. intros (u1 & l1 & (-> & H1)%otlp_post_ok & H)%bind_ok.
  apply bind_ok in H as (u2 & l2 & (-> & H2)%otlp_post_ok & (-> & H3)%otlp_post_ok). rewrite <- !app_assoc in *.
  split; [reflexivity|]. repeat constructor; [|..|exact H3].
  - apply (answered_app _ [logs_post; metrics_post]) in H1. by rewrite <- app_assoc in H1.
  - apply (answered_app _ [metrics_post]) in H2. by rewrite <- !app_assoc in H2.
Qed.

Lemma decline_ok index log u log' : decline config (id_error_trace ids) (id_cli_span ids) index log = (Ok u, log') ->
  log' = log ++ [decline_post index] /\ answered log' (decline_post index) declines.
Proof.
  unfold decline. intros ([status body] & l & Hc & (Hs & ->)%step_ensure_ok)%bind_ok.
  apply checkout_ok in Hc as (headers & reply & ->%trace_headers_ok & -> & Hn & -> & ->).
  split; [done|]. by eapply answered_last.
Qed.

Lemma catalog_ok log u log' : catalog_graphql config (id_success_trace ids) (id_cli_span ids) log = (Ok u, log') ->
  log' = log ++ [catalog_post] /\ answered log' catalog_post succeeds.
Proof.
  unfold catalog_graphql. intros (h & l & (->%trace_headers_ok & ->)%lift_ok & H)%bind_ok.
  apply bind_ok in H as (reply & l & (Hn & ->)%ask_ok & (Hs & ->)%step_ensure_ok).
  split; [done|]. by eapply answered_last.
Qed.
Lemma storefront_ok log u log' : storefront_graphql config (id_success_trace ids) (id_cli_span ids) log = (Ok u, log') ->
  log' = log ++ [storefront_post].
Proof.
  unfold storefront_graphql. intros (h & l & (->%trace_headers_ok & ->)%lift_ok & H)%bind_ok.
  apply bind_ok in H as (reply & l & (Hn & ->)%ask_ok & H). by inversion H.
Qed.
Lemma fulfilment_ok order_id log u log' : wait_for_fulfillment config order_id log = (Ok u, log') ->
  exists turns, log' = log ++ replicate (S turns) (order_request config order_id) /\
    answered log' (order_request config order_id) (fun reply => fulfilled (Ok reply) = true).
Proof.
  intros (turns & -> & Hf)%await_ok. exists turns. split; [done|]. rewrite replicate_S_end, app_assoc in *.
  destruct (net _) as [reply|] eqn:Hn in Hf; [|done]. by eapply answered_last.
Qed.

(** What holds when the run has given its record *)
Lemma fixture_done record log : drive_fixture config ids now_ns [] = (Ok record, log) ->
  exists order_id turns routes delay,
    log = fixture_requests order_id turns /\ order_id <> "" /\ 0 <= routes <= 3 /\
    Forall (fun r => answered log r succeeds) [traces_post; logs_post; metrics_post; success_post; catalog_post] /\
    answered log success_post (fun reply => jget_str "order_id" (reply_value reply) = Some order_id) /\
    answered log (order_request config order_id) (fun reply => fulfilled (Ok reply) = true) /\
    Forall (fun r => answered log r declines) [decline_post 1; decline_post 2] /\
    record = emit_record config ids order_id (run_id +:+ "-success") ("selene-playground-log-" +:+ run_id)
      ("selene-playground-err-" +:+ run_id) (["cli"; "rust"; "java"] ++ (if 0 <? routes then ["browser"] else [])) routes delay.
Proof.
  unfold drive_fixture. intros (u1 & l1 & (-> & Hposts)%emit_ok & H)%bind_ok.
  apply bind_ok in H as ([status body] & l5 & Hc & H).
  apply checkout_ok in Hc as (hs & success & ->%trace_headers_ok & -> & Hn & -> & ->).
  apply bind_ok in H as (u6 & l6 & (Hs & ->)%step_ensure_ok & H).
  apply bind_ok in H as (order_id & l7 & (Ho & ->)%lift_ok & H). cbn [fst snd] in *.
  assert (Hid : order_id <> "" /\ jget_str "order_id" (reply_value success) = Some order_id)
    by (destruct (jget_str "order_id" (reply_value success)) as [[|a o]|]; [done| |done]; by injection Ho as <-).
  apply bind_ok in H as (u8 & l8 & (turns & -> & Hf)%fulfilment_ok & H).
  apply bind_ok in H as (u9 & l9 & (-> & Hd1)%decline_ok & H).
  apply bind_ok in H as (u10 & l10 & (-> & Hd2)%decline_ok & H).
  apply bind_ok in H as ([delay dbody] & l11 & Hc & H).
  apply checkout_ok in Hc as (hd & r11 & ->%trace_headers_ok & -> & _ & -> & ->).
  apply bind_ok in H as (u12 & l12 & (_ & ->)%step_ensure_ok & H).
  apply bind_ok in H as (u13 & l13 & (-> & Hcat)%catalog_ok & H).
  apply bind_ok in H as (u14 & l14 & ->%storefront_ok & H).
  apply bind_ok in H as (routes & l15 & (-> & Hr)%routes_ok & (-> & ->)%ret_ok).
  pose proof (answered_last _ _ _ succeeds Hn Hs) as Hsucc.
  pose proof (answered_last _ _ _ (fun reply => jget_str "order_id" (reply_value reply) = Some order_id) Hn (proj2 Hid)) as Horder.
  exists order_id, turns, routes, (rp_status r11).
  split; [unfold fixture_requests; rewrite <- !app_assoc; reflexivity|].
  split; [apply Hid|]. split; [simpl in Hr; lia|].
  rewrite !Forall_cons in *. destruct Hposts as (H1 & H2 & H3 & _).
  split_and!; try done; repeat first [eassumption | apply answered_app].
Qed.
End one_run.

Lemma fixture_headers_valid config ids order_id turns trace now_ns :
  (forall t, In t [id_success_trace ids; id_error_trace ids; id_delay_trace ids] ->
     validate_traceparent_header ("00-" +:+ t +:+ "-" +:+ id_cli_span ids +:+ "-01") = Ok tt) ->
  Forall (fun r => assoc "traceparent" (rq_headers r) = Some trace -> validate_traceparent_header trace = Ok tt)
    (fixture_requests config ids now_ns order_id turns).
Proof.
  intros Hv. unfold fixture_requests. rewrite !Forall_app. split_and!.
  - repeat constructor; try done. intros [= <-]. apply Hv. simpl; auto.
  - apply Forall_forall. by intros r [-> _]%elem_of_replicate.
  - repeat constructor; intros [= <-]; apply Hv; simpl; auto.
  - by repeat constructor.
Qed.

(** C37: A run that prints its record has made its requests in order: its telemetry,
    a checkout, the queries of that order until it was fulfilled, two declined
    checkouts, a delayed one, the two queries and the pages.  Its telemetry, the
    first checkout and the catalog's query were answered with success, the order
    of the record is the one the first checkout named and the last of its queries
    found completed, both declined checkouts were refused, and every traceparent
    it has sent is one that the services take. *)
Theorem fixture_is_complete vars args secs now_ns uuid record log :
  (forall i, is_v4 (uuid i)) -> run vars args secs now_ns uuid [] = (Ok record, log) ->
  let config := from_env vars secs (uuid 0%nat) in
  let ids := draw_ids uuid in
  let now := now_ns mod u64_modulus in
  let run_id := sc_run_id config in
  (forall trace, Forall (fun r => assoc "traceparent" (rq_headers r) = Some trace -> validate_traceparent_header trace = Ok tt) log) /\
  exists order_id turns routes delay,
    log = fixture_requests config ids now order_id turns /\ order_id <> "" /\ 0 <= routes <= 3 /\
    Forall (fun r => answered log r succeeds)
      [traces_post config ids now; logs_post config ids now; metrics_post config now; success_post config ids; catalog_post config ids] /\
    answered log (success_post config ids) (fun reply => jget_str "order_id" (reply_value reply) = Some order_id) /\
    answered log (order_request config order_id) (fun reply => fulfilled (Ok reply) = true) /\
    Forall (fun r => answered log r declines) [decline_post config ids 1; decline_post config ids 2] /\
    record = emit_record config ids order_id (run_id +:+ "-success") ("selene-playground-log-" +:+ run_id)
      ("selene-playground-err-" +:+ run_id) (["cli"; "rust"; "java"] ++ (if 0 <? routes then ["browser"] else [])) routes delay.
Proof.
  intros Hid Hrun config ids now run_id. unfold run in Hrun.
  apply bind_ok in Hrun as (u & l & (_ & ->)%step_ensure_ok & Hd). apply fixture_done in Hd.
  split; [|exact Hd]. intros trace. destruct Hd as (order_id & turns & _ & _ & -> & _).
  apply fixture_headers_valid. intros t Ht.
  destruct Ht as [<-|[<-|[<-|[]]]]; apply fixture_traceparent; apply Hid.
Qed.

(** ** The wait ends *)

Definition ends {A} (m : Step A) : Prop := forall log, (m log).1 <> Err OutOfFuel.

Lemma bind_ends {A B} (m : Step A) (k : A -> Step B) : ends m -> (forall a, ends (k a)) -> ends (st_bind m k).
Proof. intros Hm Hk log. unfold st_bind. specialize (Hm log). destruct (m log) as [[a|x] l]; [apply Hk|]. intros [= ->]. by apply Hm. Qed.
Lemma ret_ends {A} (a : A) : ends (st_ret a).
Proof. done. Qed.
Lemma ensure_ends cond message : ends (st_ensure cond message).
Proof. unfold st_ensure. by destruct cond. Qed.
Lemma lift_ends {A} (r : result string A) : ends (st_lift r).
Proof. by destruct r. Qed.
Lemma ask_ends r message : ends (ask_or r message).
Proof. intros log. unfold ask_or, ask, st_bind. by destruct (net _). Qed.
Lemma routes_ends config routes ok : ends (count_routes config routes ok).
Proof.
  revert ok. induction routes as [|path rest IH]; intros ok; [apply ret_ends|]. apply bind_ends; [apply ask_ends|]. intros. apply IH.
Qed.

(** Each query of an order comes a second after the one before: 46 of them are
    enough for the 45 seconds of the deadline. *)
Lemma fulfilment_ends config order_id :
  let q := order_request config order_id in
  (forall log, clock log <= clock (log ++ [q])) -> (forall log, clock (log ++ [q]) + 1000 <= clock ((log ++ [q]) ++ [q])) ->
  (46 <= fuel)%nat -> ends (wait_for_fulfillment config order_id).
Proof.
  intros q H0 H1 Hf log. unfold wait_for_fulfillment. set (deadline := clock log + 45000).
  assert (Hgo : forall n log, (0 < n)%nat -> deadline <= clock (log ++ [q]) + 1000 * Z.of_nat n ->
    (await_order config order_id n deadline (log ++ [q])).1 <> Err OutOfFuel).
  { induction n as [|n IH]; intros l Hn Hd; [lia|]. cbn [await_order]. unfold ask. unfold st_bind at 1. cbv beta iota. fold q.
    destruct (fulfilled _); [done|]. specialize (H1 l). destruct (Z.leb_spec deadline (clock ((l ++ [q]) ++ [q]))); [done|].
    apply IH; lia. }
  destruct fuel as [|n]; [lia|]. cbn [await_order]. unfold ask. unfold st_bind at 1. cbv beta iota. fold q.
  destruct (fulfilled _); [done|]. specialize (H0 log). destruct (Z.leb_spec deadline (clock (log ++ [q]))); [done|].
  apply Hgo; lia.
Qed.

Lemma fixture_ends vars args secs now_ns uuid :
  (forall log r, clock log <= clock (log ++ [r])) ->
  (forall config order_id log, let q := order_request config order_id in clock (log ++ [q]) + 1000 <= clock ((log ++ [q]) ++ [q])) ->
  (46 <= fuel)%nat -> ends (run vars args secs now_ns uuid).
Proof.
  intros H0 H1 Hf. unfold run, drive_fixture, emit_otlp, post_otlp_json, decline, checkout, catalog_graphql, storefront_graphql, browser_routes.
  repeat first [apply ask_ends | apply ensure_ends | apply lift_ends | apply ret_ends | apply routes_ends
    | by apply fulfilment_ends; auto | apply bind_ends; [|intros ?]].
Qed.
End fixture.

(** ** A run *)

Definition demo_uuid (i : nat) : bytes := replicate 6 (Z.of_nat (i mod 256)) ++ [64] ++ replicate 9 1.
Definition demo_reply (text : string) : option json :=
  if String.eqb text "placed" then Some (JObj [("order_id", JStr "order-1"); ("status", JStr "paid")])
  else if String.eqb text "completed" then Some (JObj [("ready", JBool true); ("fulfillment_status", JStr "completed")])
  else None.
(** Everything is answered, a checkout with the declined token refused, and the
    order is completed at its second query. *)
Definition demo_net (log : list Request) : result string Reply :=
  match last log with
  | Some r =>
      if str_contains "/verify/order" (rq_url r) then Ok (mkReply 200 (Some (if (length log <=? 5)%nat then "" else "completed")))
      else if opt_is (rq_body r ≫= jget_str "payment_method_token") "tok_decline" then Ok (mkReply 402 None)
      else Ok (mkReply 200 (Some "placed"))
  | None => Err "nothing was asked"
  end.
Definition demo_run : result failure json * list Request :=
  run demo_reply (fun _ => "") show_Z demo_net (fun log => 1000 * Z.of_nat (length log)) 46 (fun _ => None) [] 1709251199 0 demo_uuid [].
Definition demo_record : json := match demo_run.1 with Ok record => record | Err _ => JNull end.

Lemma demo_v4 i : is_v4 (demo_uuid i).
Proof.
  unfold is_v4, demo_uuid. split; [done|]. split; [|by exists 64].
  assert (is_byte (Z.of_nat (i mod 256))) by (unfold is_byte; pose proof (Nat.mod_upper_bound i 256); lia).
  rewrite !Forall_app. split_and!; [by apply Forall_replicate|by repeat constructor|by apply Forall_replicate].
Qed.

Lemma fixture_is_complete_witness :
  length demo_run.2 = 14%nat /\ jget_str "run_id" demo_record = Some "selene-playground-fixture-20240229T235959Z-00000000" /\
  forall trace, Forall (fun r => assoc "traceparent" (rq_headers r) = Some trace -> validate_traceparent_header trace = Ok tt) demo_run.2.
Proof.
  split; [vm_compute; reflexivity|]. split; [vm_compute; reflexivity|].
  apply (fixture_is_complete demo_reply (fun _ => "") show_Z demo_net (fun log => 1000 * Z.of_nat (length log)) 46 (fun _ => None) []
    1709251199 0 demo_uuid demo_record demo_run.2); [apply demo_v4|]. vm_compute. reflexivity.
Defined.
