(* ===== verification/ScenarioScripts.v ===== *)
(** What a scenario driver does to the outside, and the drivers that use the flag file. *)

From S2P Require Import Prelude Values Propagation Telemetry RequestShapes ScenarioCorpus ScenarioTraces ScenarioMalformed Cli Fanout Selene.

(** What the scenario drivers of the CLI are written in (cli/src/scenario_runner.rs):
    requests, commands, files, waits and pauses, as a state and error monad over a
    host that answers them.  A message that in the code ends in a printed answer
    is kept here up to that answer. *)
Module Script.

Import Text Serde Telemetry Propagation Shapes ScenarioRegistry ScenarioTraces ScenarioMalformed Fanout Selene.

(** ** Actions *)

(** The waits of ScenarioWaits, by what they wait for *)
Inductive Wait : Type :=
| WaitFulfillment (order tenant : string) (require_notification : bool)
| WaitPaymentFailure (request_id : string)
| WaitTrace (kind trace_id : string)
| WaitCheckout (base : string).

Inductive Action : Type :=
| Http (method : Method) (url : string) (h : headers) (body : option json)
| Command (program : string) (args : list string) (env : list (string * string))
| Wrote (path text : string)
| Slept (millis : Z)
| SleptSeconds (raw : string)
| Awaited (w : Wait).

(** The host: its answer to the last action of a run.  A write that fails says
    what it has left in the file; joined tasks come in the order the host gives. *)
Record Host : Type := mkHost {
  ho_vars : Vars;
  ho_invocation : string;
  ho_uuid : nat -> bytes;
  ho_http : list Action -> result string Reply;
  ho_command : list Action -> result string (Z * string);
  ho_write : list Action -> result (string * option string) unit;
  ho_await : list Action -> result string json;
  ho_joined : list Action -> list nat -> list nat;
  ho_root : string;                                             (* [repository_root()] *)
  ho_url : string -> list (string * string) -> option string;   (* a URL with its query, by the url crate *)
  ho_is_uuid : string -> bool;                                  (* [Uuid::parse_str] *)
  ho_parse : string -> option json;
  ho_print : json -> string }.

(** A run so far: its actions, the files and the UUIDs drawn *)
Record Scene : Type := mkScene { sn_log : list Action; sn_files : string -> option string; sn_uuids : nat }.

(** An error, or a panic, which no handler of the drivers catches *)
Inductive stop : Type := Failed (message : string) | Panicked.

Definition Script (A : Type) : Type := Host -> Scene -> result stop A * Scene.

Definition sc_ret {A} (a : A) : Script A := fun _ s => (Ok a, s).
Definition sc_fail {A} (message : string) : Script A := fun _ s => (Err (Failed message), s).
Definition sc_panic {A} : Script A := fun _ s => (Err Panicked, s).
Definition sc_bind {A B} (m : Script A) (k : A -> Script B) : Script B := fun h s =>
  match m h s with (Ok a, s') => k a h s' | (Err x, s') => (Err x, s') end.
Definition sc_ensure (cond : bool) (message : string) : Script unit := if cond then sc_ret tt else sc_fail message.
Definition sc_lift {A} (r : result string A) : Script A := match r with Ok a => sc_ret a | Err message => sc_fail message end.
Definition sc_some {A} (o : option A) (message : string) : Script A := sc_lift (ok_or o message).
Definition sc_vars : Script Vars := fun h s => (Ok (ho_vars h), s).

Declare Scope script_scope.
Delimit Scope script_scope with script.
Notation "x <- m ;; k" := (sc_bind m (fun x => k)) (at level 100, m at next level, right associativity) : script_scope.
Notation "m ;; k" := (sc_bind m (fun _ => k)) (at level 100, right associativity) : script_scope.
Local Open Scope script_scope.

(** [for] over a list *)
Fixpoint sc_each {A} (f : A -> Script unit) (l : list A) : Script unit :=
  match l with [] => sc_ret tt | a :: rest => f a ;; sc_each f rest end.

(** ** Single actions *)

Definition done (a : Action) (s : Scene) : Scene := mkScene (sn_log s ++ [a]) (sn_files s) (sn_uuids s).

Definition new_uuid : Script bytes := fun h s =>
  (Ok (ho_uuid h (sn_uuids s)), mkScene (sn_log s) (sn_files s) (S (sn_uuids s))).
Definition new_hex_id (n : nat) : Script string := uuid <- new_uuid ;; sc_ret (hex_id uuid n).
(** [Uuid]'s [Display]: groups of 8, 4, 4, 4 and 12 digits *)
Definition uuid_text (uuid : bytes) : string :=
  encode_hex (take 4 uuid) +:+ "-" +:+ encode_hex (take 2 (drop 4 uuid)) +:+ "-" +:+ encode_hex (take 2 (drop 6 uuid)) +:+ "-" +:+
  encode_hex (take 2 (drop 8 uuid)) +:+ "-" +:+ encode_hex (drop 10 uuid).

(** The answer of a request that has been sent, when it comes *)
Definition json_answer (h : Host) (url : string) (answer : result string Reply) : result string (Z * json) :=
  match answer with
  | Err _ => Err ("request failed: " +:+ url)
  | Ok reply =>
      match rp_text reply with
      | None => Err "failed to read HTTP response"
      | Some text => Ok (rp_status reply, default (JObj [("raw", JStr text)]) (ho_parse h text))
      end
  end.
(** [request_json] in a task of its own: it is sent, and its outcome kept *)
Definition spawn_json (method : Method) (url : string) (hs : headers) (body : option json) : Script (result string (Z * json)) :=
  fun h s => let s' := done (Http method url hs body) s in (Ok (json_answer h url (ho_http h (sn_log s'))), s').
Definition request_json (method : Method) (url : string) (hs : headers) (body : option json) : Script (Z * json) :=
  outcome <- spawn_json method url hs body ;; sc_lift outcome.

(** A command's code, 1 where a signal ended it, and what it printed *)
Definition capture_program (program : string) (args : list string) (env : list (string * string)) : Script (Z * string) := fun h s =>
  let s' := done (Command program args env) s in
  (match ho_command h (sn_log s') with Ok out => Ok out | Err m => Err (Failed m) end, s').
Definition run_program_with_env (program : string) (args : list string) (env : list (string * string)) : Script Z :=
  out <- capture_program program args env ;;
  sc_ensure (out.1 =? 0) (program +:+ " exited with " +:+ show_Z out.1) ;;
  sc_ret 0.

Definition read_file (path : string) : Script string := fun _ s =>
  (match sn_files s path with Some text => Ok text | None => Err (Failed ("failed to read " +:+ path)) end, s).

Definition put_file (path : string) (text : option string) (files : string -> option string) : string -> option string :=
  fun p => if String.eqb p path then text else files p.
Definition write_file (path text message : string) : Script unit := fun h s =>
  let s' := done (Wrote path text) s in
  match ho_write h (sn_log s') with
  | Ok _ => (Ok tt, mkScene (sn_log s') (put_file path (Some text) (sn_files s')) (sn_uuids s'))
  | Err (_, remains) => (Err (Failed message), mkScene (sn_log s') (put_file path remains (sn_files s')) (sn_uuids s'))
  end.

Definition sleep (millis : Z) : Script unit := fun _ s => (Ok tt, done (Slept millis) s).
Definition sleep_seconds (raw : string) : Script unit := fun _ s => (Ok tt, done (SleptSeconds raw) s).
Definition await (w : Wait) : Script json := fun h s =>
  let s' := done (Awaited w) s in
  (match ho_await h (sn_log s') with Ok v => Ok v | Err m => Err (Failed m) end, s').

(** Tasks that are joined as they end: their numbers, in that order *)
Definition joined (tasks : nat) : Script (list nat) := fun h s => (Ok (ho_joined h (sn_log s) (seq 0 tasks)), s).

(** A result as a value: [match operation().await] *)
Definition sc_try {A} (m : Script A) : Script (result string A) := fun h s =>
  match m h s with
  | (Ok a, s') => (Ok (Ok a), s')
  | (Err (Failed message), s') => (Ok (Err message), s')
  | (Err Panicked, s') => (Err Panicked, s')
  end.

(** ** Requests of the drivers *)

(** [headers.extend(..)]: a name of the new ones replaces that name *)
Definition header_extend (h extra : headers) : headers :=
  List.filter (fun '(name, _) => negb (existsb (fun '(name', _) => String.eqb name name') extra)) h ++ extra.
(** A header value that has to parse *)
Definition sc_headers (h : option headers) : Script headers := sc_some h "failed to parse header value".

Definition sc_env (name otherwise : string) : Script string := vars <- sc_vars ;; sc_ret (url_env vars name otherwise).
Definition sc_positive (name : string) (otherwise : Z) : Script Z := vars <- sc_vars ;; sc_lift (positive_env vars name otherwise).
Definition sc_invocation : Script string := fun h s => (Ok (ho_invocation h), s).
Definition sc_root : Script string := fun h s => (Ok (ho_root h), s).
Definition url_with_query (url : string) (pairs : list (string * string)) : Script string := fun h s =>
  (match ho_url h url pairs with Some u => Ok u | None => Err (Failed "invalid URL") end, s).
Definition parallax_mode : Script bool := vars <- sc_vars ;; sc_lift (validate_parallax_mode vars).

Definition checkout_http (sku : string) (quantity : Z) (token request_prefix : string) (extra_headers : headers)
    (controls : list (string * json)) : Script (Z * json) :=
  base <- sc_env "CHECKOUT_URL" "http://localhost:8088" ;;
  id <- sc_invocation ;;
  uuid <- new_uuid ;;
  request_json Post (base +:+ "/checkout") (header_extend json_headers extra_headers)
    (Some (ScenarioMalformed.checkout_body sku quantity token request_prefix id (uuid_text uuid) controls)).

Definition checkout_request (quantity : Z) (token request_prefix : string) (extra_headers : headers) : Script json :=
  reply <- checkout_http "WIDGET-1" quantity token request_prefix extra_headers [] ;;
  sc_ensure (is_success reply.1) "checkout failed" ;;
  sc_ret reply.2.

Definition checkout_expected (label sku token request_prefix : string) (controls : list (string * json)) (expected : Z) : Script json :=
  reply <- checkout_http sku 1 token request_prefix [] controls ;;
  sc_ensure (reply.1 =? expected) (label +:+ ": unexpected status") ;;
  sc_ret reply.2.

(** ** Laws *)

Lemma sc_bind_ok {A B} (m : Script A) (k : A -> Script B) h s b s' :
  sc_bind m k h s = (Ok b, s') -> exists a s1, m h s = (Ok a, s1) /\ k a h s1 = (Ok b, s').
Proof. unfold sc_bind. destruct (m h s) as [[a|x] s1]; [eauto|done]. Qed.
Lemma sc_ensure_ok cond message h s u s' : sc_ensure cond message h s = (Ok u, s') -> cond = true /\ s' = s.
Proof. unfold sc_ensure, sc_ret, sc_fail. destruct cond; intros H; by inversion H. Qed.
Lemma sc_lift_ok {A} (r : result string A) h s a s' : sc_lift r h s = (Ok a, s') -> r = Ok a /\ s' = s.
Proof. unfold sc_lift, sc_ret, sc_fail. destruct r; intros H; by inversion H. Qed.
Lemma sc_ret_ok {A} (a : A) h s b s' : sc_ret a h s = (Ok b, s') -> b = a /\ s' = s.
Proof. unfold sc_ret. intros H. by inversion H. Qed.

End Script.

(** The scenarios that change a running stack and put it back
    (cli/src/scenario_runner.rs): the feature-flag file, the sampling ratio and
    the release of checkout, with the theorem that they are put back, and the
    suite of scheduled jobs. *)
Module ScenarioFlags.

Import Text Serde Telemetry Propagation ScenarioRegistry ScenarioTraces ScenarioMalformed Cli Fanout Selene
  Script.

Local Open Scope script_scope.

(** ** The flag file *)

Definition flags_path (root : string) : string := root +:+ "/flags/flagd.json".

(** [flag["defaultVariant"] = ..]: a flag that is null becomes an object, and one
    that is neither panics. *)
Definition set_default_variant (variant : string) (flag : json) : option json :=
  match flag with
  | JObj fields => Some (JObj (assoc_insert "defaultVariant" (JStr variant) fields))
  | JNull => Some (JObj [("defaultVariant", JStr variant)])
  | _ => None
  end.

(** The document with one flag changed; the flag's name holds neither a slash
    nor a tilde.  The outer [None] is a file without the flag. *)
Definition set_in_document (document : json) (flag_key variant : string) : option (option json) :=
  match document with
  | JObj fields =>
      match assoc "flags" fields with
      | Some (JObj flags) =>
          flag ← assoc flag_key flags;
          Some (changed ← set_default_variant variant flag;
                Some (JObj (assoc_insert "flags" (JObj (assoc_insert flag_key changed flags)) fields)))
      | _ => None
      end
  | _ => None
  end.

Definition parsed (path text : string) : Script json := fun h s =>
  (match ho_parse h text with Some v => Ok v | None => Err (Failed ("failed to parse " +:+ path)) end, s).
Definition printed (v : json) : Script string := fun h s => (Ok (ho_print h v), s).

Definition set_flag_variant (path flag_key variant : string) : Script unit :=
  text <- read_file path ;;
  document <- parsed path text ;;
  changed <- sc_some (set_in_document document flag_key variant) ("flagd file has no " +:+ flag_key +:+ " flag") ;;
  match changed with
  | None => sc_panic
  | Some document =>
      encoded <- printed document ;;
      write_file path (encoded +:+ String newline_char "") ("failed to update " +:+ path)
  end.

Definition with_flag_variant {A} (root flag_key initial_variant : string) (operation : Script A) : Script A :=
  let path := flags_path root in
  backup <- read_file path ;;
  set_flag_variant path flag_key initial_variant ;;
  outcome <- sc_try operation ;;
  restore <- sc_try (write_file path backup ("failed to restore " +:+ path)) ;;
  match outcome, restore with
  | Ok value, Ok _ => sc_ret value
  | Err error, Ok _ => sc_fail error
  | Ok _, Err error => sc_fail error
  | Err error, Err restore_error =>
      sc_fail ("flagd scenario failed: " +:+ error +:+ "; restoring " +:+ path +:+ " failed: " +:+ restore_error)
  end.

(** ** Compose *)

Definition compose_file (root : string) : string := root +:+ "/deploy/docker-compose.yml".
Definition run_compose (root file : string) (project : option string) (release : string) (command : list string) : Script unit :=
  code <- run_program_with_env "docker" (["compose"; "-f"; file] ++
    match project with Some project => ["--project-name"; project] | None => [] end ++ command) [("RELEASE", release)] ;;
  sc_ret tt.

Definition wait_for_checkout (base : string) : Script unit := _ <- await (WaitCheckout base) ;; sc_ret tt.
Definition FLAG_SERVICES : list string := ["up"; "-d"; "flagd"; "pricing"; "inventory"; "recommendation"; "checkout"].

(** [1..=n] *)
Definition up_to (n : Z) : list Z := seqZ 1 n.

Definition checkout_variant_request (variant request_prefix : string) : Script json :=
  body <- checkout_expected ("checkoutFlow=" +:+ variant) "WIDGET-1" "tok_visa" request_prefix [] 200 ;;
  sc_ensure (ScenarioTraces.field_is "feature_variant" variant body) "checkout response reported the wrong feature variant" ;;
  sc_ret body.

Definition start_flag_services (root : string) : Script unit :=
  run_compose root (compose_file root) None "v1" FLAG_SERVICES ;;
  base <- sc_env "CHECKOUT_URL" "http://localhost:8088" ;;
  wait_for_checkout base.

Definition feature_flag_variants : Script Z :=
  root <- sc_root ;;
  start_flag_services root ;;
  settle <- sc_positive "A14_FLAG_SETTLE_SECONDS" 12 ;;
  requests <- sc_positive "A14_REQUESTS" 5 ;;
  with_flag_variant root "checkoutFlow" "control" (
    sc_each (fun variant =>
      set_flag_variant (flags_path root) "checkoutFlow" variant ;;
      sleep (settle * 1000) ;;
      sc_each (fun index =>
        _ <- checkout_variant_request variant ("flag-variant-" +:+ variant +:+ "-" +:+ show_Z index) ;; sc_ret tt) (up_to requests))
      ["control"; "orchestrated"; "control"] ;;
    sc_ret 0).

Definition feature_flag_topology_compare : Script Z :=
  root <- sc_root ;;
  start_flag_services root ;;
  settle <- sc_positive "A20_FLAG_SETTLE_SECONDS" 12 ;;
  with_flag_variant root "checkoutFlow" "control" (
    set_flag_variant (flags_path root) "checkoutFlow" "control" ;;
    sleep (settle * 1000) ;;
    control <- checkout_variant_request "control" "flag-compare-control" ;;
    set_flag_variant (flags_path root) "checkoutFlow" "orchestrated" ;;
    sleep (settle * 1000) ;;
    orchestrated <- checkout_variant_request "orchestrated" "flag-compare-orchestrated" ;;
    sc_ensure (is_some_and (jget "recommendation" control) is_null) "control checkout unexpectedly included recommendation topology" ;;
    sc_ensure (is_some_and (jget "recommendation" orchestrated) (fun value => negb (is_null value)))
      "orchestrated checkout omitted recommendation topology" ;;
    sc_ret 0).

(** ** Recommendations with a leak *)

(** A URL's query is appended pair by pair; the tenant comes from the environment. *)
Definition recommendation_request (sku : string) (query : list (string * string)) (trace_id : option string) : Script (Z * json) :=
  base <- sc_env "RECOMMENDATION_URL" "http://localhost:8090" ;;
  vars <- sc_vars ;;
  url <- url_with_query (base +:+ "/recommend")
    ([("tenant_id", default "tenant-acme" (vars "RECOMMENDATION_TENANT_ID")); ("sku", sku); ("limit", "8")] ++ query) ;;
  headers <- match trace_id with
    | Some trace_id => span <- new_hex_id 8 ;; sc_headers (put_header "traceparent" (Some (scenario_traceparent trace_id span)) [])
    | None => sc_ret []
    end ;;
  request_json Get url headers None.

Definition leak_request (requests index : Z) : Script unit :=
  reply <- recommendation_request "WIDGET-1" [("leak", "512")] None ;;
  sc_lift (ensure_recommendation_response ("cache leak request " +:+ show_Z index +:+ "/" +:+ show_Z requests) "WIDGET-1" reply.1 reply.2 None) ;;
  sc_ensure (is_some_and (pointer ["chaos"; "leak_kb"] reply.2 ≫= as_u64) (fun value => 256 <=? value))
    "cache leak request did not retain bounded memory".

Definition recommendation_cache_leak : Script Z :=
  root <- sc_root ;;
  run_compose root (compose_file root) None "v1" ["up"; "-d"; "flagd"; "recommendation"] ;;
  settle <- sc_positive "B6_FLAG_SETTLE_SECONDS" 12 ;;
  with_flag_variant root "cacheLeak" "on" (
    sleep (settle * 1000) ;;
    requests <- sc_positive "B6_REQUESTS" 10 ;;
    sc_each (leak_request requests) (up_to requests) ;;
    sc_ret 0).

(** ** Checkout put back *)

(** A lifecycle and what puts the stack back, whatever the lifecycle came to *)
Definition put_back {A} (lifecycle : Script A) (cleanup : Script unit) (failed : string) (both : string -> string -> string) : Script A :=
  outcome <- sc_try lifecycle ;;
  restored <- sc_try cleanup ;;
  match outcome, restored with
  | Ok code, Ok _ => sc_ret code
  | Err error, Ok _ => sc_fail error
  | Ok _, Err _ => sc_fail failed
  | Err error, Err cleanup_error => sc_fail (both error cleanup_error)
  end.

Definition recreate_checkout : list string := ["up"; "-d"; "--no-deps"; "--force-recreate"; "checkout"].

(** A path that is not absolute is one of the repository's. *)
Definition sampling_file (root : string) (vars : Vars) : string :=
  let configured := default "deploy/docker-compose.yml" (vars "COMPOSE_FILE") in
  if starts_with "/" configured then configured else root +:+ "/" +:+ configured.

Definition sampling_gap : Script Z :=
  root <- sc_root ;;
  vars <- sc_vars ;;
  let args := ["compose"; "-f"; sampling_file root vars] ++ recreate_checkout in
  base <- sc_env "CHECKOUT_BASE" "http://localhost:8088" ;;
  put_back (
      _ <- run_program_with_env "docker" args [("PLAYGROUND_SAMPLE_RATIO", "0.1")] ;;
      wait_for_checkout base ;;
      sc_each (fun index =>
        _ <- checkout_http "WIDGET-1" (index mod 5 + 1) "tok_visa" ("sampling-gap-" +:+ show_Z index) [] [] ;; sc_ret tt) (up_to 50) ;;
      sc_ret 0)
    (_ <- run_program_with_env "docker" args [("PLAYGROUND_SAMPLE_RATIO", default "" (vars "PLAYGROUND_SAMPLE_RATIO"))] ;; sc_ret tt)
    "sampling cleanup failed"
    (fun error cleanup => "sampling gap failed: " +:+ error +:+ "; cleanup failed: " +:+ cleanup).

(** The requests of this burst have the same ids in every run. *)
Definition burst_request (label : string) (index : Z) : json :=
  JObj [("tenant_id", JStr "tenant-acme"); ("customer_id", JStr "customer-acme-ava");
    ("items", JArr [JObj [("sku", JStr "WIDGET-1"); ("quantity", JNum 1)]]); ("currency_code", JStr "USD");
    ("payment_method_token", JStr "tok_visa"); ("payment_method_type", JStr "card");
    ("request_id", JStr ("a13-" +:+ label +:+ "-" +:+ show_Z index))].
Definition release_checkout_burst (base label : string) (requests : Z) : Script unit :=
  sc_each (fun index =>
    reply <- request_json Post (base +:+ "/checkout") json_headers (Some (burst_request label index)) ;;
    sc_ensure (reply.1 =? 200) (label +:+ " #" +:+ show_Z index +:+ ": expected checkout HTTP 200")) (up_to requests).

Definition release_regression_lifecycle (root file : string) (project : option string) (base : string) (requests : Z) (build : bool) :
    Script Z :=
  run_compose root file project "v1"
    (["up"; "-d"] ++ (if build then ["--build"] else []) ++ ["flagd"; "pricing"; "inventory"; "recommendation"; "checkout"]) ;;
  wait_for_checkout base ;;
  release_checkout_burst base "v1-baseline" requests ;;
  run_compose root file project "v2" recreate_checkout ;;
  wait_for_checkout base ;;
  release_checkout_burst base "v2-attribution" requests ;;
  sc_ret 0.

Definition release_regression (file_exists : bool) : Script Z :=
  root <- sc_root ;;
  sc_ensure file_exists "A13 Compose file is missing" ;;
  base <- sc_env "CHECKOUT_URL" "http://localhost:8088" ;;
  requests <- sc_positive "A13_REQUESTS" 5 ;;
  vars <- sc_vars ;;
  let build := match vars "A13_BUILD" with Some value => String.eqb value "1" || eq_ignore_ascii_case value "true" | None => false end in
  let project := non_blank (vars "A13_COMPOSE_PROJECT") in
  put_back (release_regression_lifecycle root (compose_file root) project base requests build)
    (run_compose root (compose_file root) project "v1" recreate_checkout)
    "A13 cleanup failed while restoring RELEASE=v1"
    (fun error cleanup => "A13 lifecycle failed: " +:+ error +:+ "; cleanup failed while restoring RELEASE=v1: " +:+ cleanup).

(** ** The scheduled jobs *)

Definition CRON_SLOTS : list (Z * string) := [(1, "ok"); (2, "ok"); (3, "fail"); (4, "stuck"); (5, "missed"); (6, "duplicate")].

Definition cron_slot (settle : Z) (entry : Z * string) : Script unit :=
  let '(slot, mode) := entry in
  if String.eqb mode "missed" then sleep (settle * 1000)
  else
    out <- capture_program "playground" ["cron"; mode] [("CLI_INVOCATION_ID", "playground-report-suite-slot-" +:+ show_Z slot)] ;;
    sc_ensure ((out.1 =? 0) || (String.eqb mode "fail" && (out.1 =? 1))) "cron returned an unexpected code" ;;
    sleep (settle * 1000).
Definition cron_suite : Script Z :=
  settle <- sc_positive "CRON_SUITE_SETTLE_SECONDS" 5 ;;
  sc_each (cron_slot settle) CRON_SLOTS ;;
  sc_ret 0.

(** ** What is put back *)

Lemma try_case {A} (m : Script A) h s r s' : sc_try m h s = (r, s') ->
  r = Err Panicked /\ m h s = (Err Panicked, s') \/
  (exists a, r = Ok (Ok a) /\ m h s = (Ok a, s')) \/ (exists message, r = Ok (Err message) /\ m h s = (Err (Failed message), s')).
Proof.
  unfold sc_try. destruct (m h s) as [[a|[message|]] s1]; intros H; inversion H; subst; [|right; right; by exists message|by left].
  right; left. by exists a.
Qed.

(** A write that succeeds leaves its text; a script that only reads leaves the files. *)
Lemma write_case path text message h s :
  (exists s', write_file path text message h s = (Ok tt, s') /\ sn_files s' path = Some text) \/
  (exists e s', ho_write h (sn_log s ++ [Wrote path text]) = Err e /\ write_file path text message h s = (Err (Failed message), s')).
Proof.
  unfold write_file. cbn. destruct (ho_write h _) as [u|[m remains]] eqn:E.
  - left. eexists. split; [done|]. cbn. unfold put_file. by rewrite String.eqb_refl.
  - right. by eexists _, _.
Qed.

Definition never_fails (h : Host) : Prop := forall log, ho_write h log = Ok tt.

(** Changing a flag fails before it writes, or writes. *)
Lemma set_flag_unchanged path flag_key variant h s x s' : never_fails h ->
  set_flag_variant path flag_key variant h s = (Err x, s') -> s' = s.
Proof.
  intros Hw. unfold set_flag_variant, read_file, parsed, printed, sc_bind, sc_some, sc_lift. cbn.
  destruct (sn_files s path) as [text|]; [|by intros [= _ <-]].
  destruct (ho_parse h text) as [document|]; [|by intros [= _ <-]].
  destruct (set_in_document _ _ _) as [[changed|]|]; [|by intros [= _ <-]..].
  cbn. destruct (write_case path (ho_print h changed +:+ String newline_char "") ("failed to update " +:+ path) h s)
    as [(s1 & -> & _)|(e & s1 & He & _)]; [done|by rewrite Hw in He].
Qed.

(** Whatever an operation does under a changed flag, the flag file is afterwards
    what it was before: always when the whole succeeds, and when it fails too, if
    no write of a file has failed and nothing has panicked. *)
Theorem flags_put_back {A} root flag_key variant (operation : Script A) h s r s' :
  with_flag_variant root flag_key variant operation h s = (r, s') ->
  (exists a, r = Ok a) \/ never_fails h /\ r <> Err Panicked ->
  sn_files s' (flags_path root) = sn_files s (flags_path root).
Proof.
  unfold with_flag_variant. set (path := flags_path root). intros Hrun Hend. unfold sc_bind in Hrun at 1.
  destruct (read_file path h s) as [[backup|x] s0] eqn:Eread; [|by inversion Hrun; subst; inversion Eread].
  unfold read_file in Eread. destruct (sn_files s path) as [text|] eqn:Efile; [|done]. injection Eread as <- <-.
  unfold sc_bind in Hrun at 1. destruct (set_flag_variant path flag_key variant h s) as [[u|x] s1] eqn:Eset.
  2:{ inversion Hrun; subst. destruct Hend as [[a Ha]|[Hw _]]; [done|]. by apply set_flag_unchanged in Eset as ->. }
  unfold sc_bind in Hrun at 1. destruct (sc_try operation h s1) as [outcome s2] eqn:Eop.
  apply try_case in Eop as [[-> _]|Hop]; [inversion Hrun; subst; by destruct Hend as [[a Ha]|[_ Hp]]|].
  assert (exists out, outcome = Ok out) as [out ->] by (destruct Hop as [(a & -> & _)|(m & -> & _)]; eauto).
  unfold sc_bind in Hrun. unfold sc_try in Hrun at 1.
  destruct (write_case path text ("failed to restore " +:+ path) h s2) as [(s3 & Hw & Hf)|(e & s3 & He & Hw)]; rewrite Hw in Hrun.
  - destruct out; unfold sc_ret, sc_fail in Hrun; inversion Hrun; by subst.
  - exfalso. destruct Hend as [[a ->]|[Hn _]]; [|by rewrite Hn in He].
    by destruct out.
Qed.

(** ** The stack put back *)

(** The last action of a run *)
Definition last_action (s : Scene) : option Action := last (sn_log s).

Lemma compose_last root file project release command h s r s' : run_compose root file project release command h s = (r, s') ->
  last_action s' = Some (Command "docker" (["compose"; "-f"; file] ++
    match project with Some project => ["--project-name"; project] | None => [] end ++ command) [("RELEASE", release)]).
Proof.
  unfold run_compose, run_program_with_env, capture_program, sc_bind, sc_ensure, sc_ret, sc_fail, last_action. cbn.
  destruct (ho_command h _) as [[code out]|m]; cbn; [destruct (code =? 0)|]; intros H; inversion H; cbn; apply last_snoc.
Qed.

Lemma put_back_last {A} (lifecycle : Script A) cleanup failed both h s r s' a :
  (forall s r s', cleanup h s = (r, s') -> last_action s' = Some a) ->
  put_back lifecycle cleanup failed both h s = (r, s') -> r <> Err Panicked -> last_action s' = Some a.
Proof.
  intros Hc. unfold put_back, sc_bind. destruct (sc_try lifecycle h s) as [outcome s1] eqn:E1.
  apply try_case in E1 as [[-> _]|Ho]; [by intros [= <- <-]|].
  assert (exists out, outcome = Ok out) as [out ->] by (destruct Ho as [(b & -> & _)|(m & -> & _)]; eauto).
  destruct (sc_try cleanup h s1) as [restored s2] eqn:E2.
  apply try_case in E2 as [[-> _]|Hr]; [by intros [= <- <-]|].
  assert (Hlast : last_action s2 = Some a) by (destruct Hr as [(b & _ & Hr)|(m & _ & Hr)]; by apply Hc in Hr).
  assert (exists back, restored = Ok back) as [back ->] by (destruct Hr as [(b & -> & _)|(m & -> & _)]; eauto).
  destruct out, back; unfold sc_ret, sc_fail; intros H _; inversion H; by subst.
Qed.

(** Once the release scenario has taken its settings, its last action is to start
    checkout again as release v1, whatever its phases came to. *)
Theorem release_put_back h s r s' :
  release_regression true h s = (r, s') -> r <> Err Panicked ->
  sn_log s' = sn_log s \/
  last_action s' = Some (Command "docker" (["compose"; "-f"; compose_file (ho_root h)] ++
    match non_blank (ho_vars h "A13_COMPOSE_PROJECT") with Some project => ["--project-name"; project] | None => [] end ++
    recreate_checkout) [("RELEASE", "v1")]).
Proof.
  unfold release_regression, sc_root, sc_env, sc_positive, sc_vars. unfold sc_bind at 1 2 3 4 5 6 7. cbn.
  destruct (positive_env (ho_vars h) "A13_REQUESTS" 5) as [requests|]; cbn; [|intros H; inversion H; by left].
  intros H Hp. right. eapply put_back_last; [|exact H|done]. intros ? ? ?. apply compose_last.
Qed.

(** ** The suite of scheduled jobs *)

(** The host runs the CLI of Cli.v: a child's code is that of its [main]. *)
Definition runs_cron (h : Host) (nanos : Z) : Prop := forall log mode env, exists out,
  ho_command h (log ++ [Command "playground" ["cron"; mode] env]) =
    Ok ((main "inv" (fun _ rest => cron "inv" nanos rest) ["cron"; mode]).1, out).

(** The codes of the scheduled job are the ones its suite demands: with children
    that run the job of this repository the suite succeeds, for every setting. *)
Theorem cron_suite_passes h nanos s settle :
  runs_cron h nanos -> positive_env (ho_vars h) "CRON_SUITE_SETTLE_SECONDS" 5 = Ok settle ->
  (cron_suite h s).1 = Ok 0.
Proof.
  intros Hc Hs. unfold cron_suite, sc_positive, sc_vars. unfold sc_bind at 1 2. cbn [sc_lift]. rewrite Hs. cbn [sc_lift sc_ret].
  unfold sc_ret at 1. unfold sc_bind at 1.
  assert (Hslot : forall mode slot s, In (slot, mode) CRON_SLOTS -> exists s', cron_slot settle (slot, mode) h s = (Ok tt, s')).
  { intros mode slot s0 Hin. unfold cron_slot, capture_program. destruct (String.eqb mode "missed") eqn:Em; [by eexists|].
    unfold sc_bind at 1. cbn. destruct (Hc (sn_log s0) mode [("CLI_INVOCATION_ID", "playground-report-suite-slot-" +:+ show_Z slot)])
      as [out ->].
    repeat destruct Hin as [[= <- <-]|Hin]; try done; by eexists. }
  assert (Hall : forall l s, incl l CRON_SLOTS -> exists s', sc_each (cron_slot settle) l h s = (Ok tt, s')).
  { induction l as [|[slot mode] l IH]; intros s0 Hl; [by eexists|]. cbn [sc_each]. unfold sc_bind.
    destruct (Hslot mode slot s0) as [s1 ->]; [apply Hl; by left|]. apply IH. intros x Hx. apply Hl. by right. }
  destruct (Hall CRON_SLOTS s) as [s' ->]; [apply incl_refl|reflexivity].
Qed.

(** ** A host *)

Definition quiet_host (answer : result string Reply) (code : Z) : Host :=
  mkHost (fun _ => None) "inv" (fun _ => []) (fun _ => answer)
    (fun log => match last log with
                | Some (Command "playground" args _) => Ok ((main "inv" (fun _ rest => cron "inv" 0 rest) args).1, "")
                | _ => Ok (code, "")
                end)
    (fun _ => Ok tt) (fun _ => Ok JNull) (fun _ l => l) "/repo" (fun url _ => Some url)
    (fun _ => true) (fun _ => Some (JObj [("flags", JObj [("cacheLeak", JObj [("defaultVariant", JStr "off")])])])) (fun _ => "{}").
Definition quiet_scene : Scene :=
  mkScene [] (fun path => if String.eqb path "/repo/flags/flagd.json" then Some "flags" else None) 0.

(** The leak scenario fails on its first request, and the file is as before. *)
Lemma flags_put_back_witness :
  (recommendation_cache_leak (quiet_host (Err "refused") 0) quiet_scene).1 = Err (Failed "request failed: http://localhost:8090/recommend") /\
  sn_files (with_flag_variant "/repo" "cacheLeak" "on" (sc_each (leak_request 10) (up_to 10)) (quiet_host (Err "refused") 0) quiet_scene).2
    "/repo/flags/flagd.json" = Some "flags".
Proof.
  split; [vm_compute; reflexivity|].
  refine (flags_put_back "/repo" "cacheLeak" "on" (sc_each (leak_request 10) (up_to 10)) (quiet_host (Err "refused") 0) quiet_scene
    (with_flag_variant "/repo" "cacheLeak" "on" (sc_each (leak_request 10) (up_to 10)) (quiet_host (Err "refused") 0) quiet_scene).1 _ _ _).
  - apply surjective_pairing.
  - right. split; [done|]. vm_compute. discriminate.
Defined.

Lemma release_put_back_witness :
  last_action (release_regression true (quiet_host (Err "refused") 1) quiet_scene).2 =
    Some (Command "docker" (["compose"; "-f"; "/repo/deploy/docker-compose.yml"] ++ recreate_checkout) [("RELEASE", "v1")]).
Proof.
  destruct (release_put_back (quiet_host (Err "refused") 1) quiet_scene
    (release_regression true (quiet_host (Err "refused") 1) quiet_scene).1
    (release_regression true (quiet_host (Err "refused") 1) quiet_scene).2) as [H|H].
  - apply surjective_pairing.
  - vm_compute. discriminate.
  - exfalso. revert H. vm_compute. discriminate.
  - exact H.
Defined.

Lemma cron_suite_passes_witness : (cron_suite (quiet_host (Err "refused") 1) quiet_scene).1 = Ok 0.
Proof.
  apply (cron_suite_passes (quiet_host (Err "refused") 1) 0 quiet_scene 5); [|reflexivity].
  intros log mode env. exists "". cbn [ho_command quiet_host]. by rewrite last_snoc.
Defined.

End ScenarioFlags.
