(* ===== verification/ScenarioRuns.v ===== *)
(** The scenario drivers that send requests, and what their runs come to. *)

From Stdlib Require Import SpecFloat.
From S2P Require Import Prelude Values Propagation Telemetry RequestShapes ShapesOutcomes Database InventoryService InventoryLedger InventoryApi ScenarioCorpus ScenarioTraces ScenarioMalformed Fanout Selene ScenarioScripts.

(** Scenario drivers (cli/src/scenario_runner.rs) that call the services of this
    repository: checkouts, replays of seeded orders, queries of the catalog and
    the storefront, quote streams, malformed carriers and the pressure on the
    inventory, whose fence the inventory's own model refuses. *)
Module ScenarioDrivers.

Import Text Float64 Serde Telemetry Propagation Shapes ScenarioRegistry ScenarioTraces ScenarioMalformed
  Fanout Selene Script ScenarioFlags.

Local Open Scope script_scope.

(** ** Checkouts *)

Definition wait_for_fulfillment_snapshot (order tenant : string) (require_notification : bool) : Script json :=
  await (WaitFulfillment order tenant require_notification).
Definition wait_for_fulfillment (order tenant : string) (require_notification : bool) : Script unit :=
  _ <- wait_for_fulfillment_snapshot order tenant require_notification ;; sc_ret tt.

Definition checkout_saga : Script Z :=
  sc_each (fun quantity =>
    body <- checkout_request quantity "tok_visa" "checkout-saga" [] ;;
    order_id <- sc_some (non_empty (jget_str "order_id" body)) "checkout response omitted order_id" ;;
    wait_for_fulfillment order_id "tenant-acme" true) [1; 2] ;;
  sc_ret 0.

Definition checkout_outbox : Script Z :=
  body <- checkout_request 1 "tok_visa" "checkout-outbox" [] ;;
  order_id <- sc_some (jget_str "order_id" body) "checkout response omitted order_id" ;;
  wait_for_fulfillment order_id "tenant-acme" true ;;
  sc_ret 0.

(** A checkout whose answer has the expected status, and nothing else of it used *)
Definition expect_checkout (label sku token request_prefix : string) (controls : list (string * json)) (expected : Z) : Script unit :=
  _ <- checkout_expected label sku token request_prefix controls expected ;; sc_ret tt.

Definition checkout_chaos : Script Z :=
  expect_checkout "checkout retry/deadline" "WIDGET-1" "tok_visa" "checkout-chaos-deadline"
    [("retry", JNum 2); ("timeout_ms", JNum 50); ("delay_ms", JNum 350)] 502 ;;
  expect_checkout "checkout delayed dependency" "WIDGET-1" "tok_visa" "checkout-chaos-delay" [("delay_ms", JNum 400)] 200 ;;
  sc_ret 0.

Definition grpc_deadline_retry : Script Z :=
  expect_checkout "gRPC pricing deadline" "WIDGET-1" "tok_visa" "grpc-deadline"
    [("retry", JNum 2); ("timeout_ms", JNum 100); ("delay_ms", JNum 350)] 502 ;;
  sc_ret 0.

Definition provider_degradation : Script Z :=
  body <- checkout_expected "provider unavailable degradation" "WIDGET-1" "tok_unavailable" "provider-degraded" [("degrade", JBool true)] 200 ;;
  sc_ensure (is_some_and (jget_str "status" body) (fun status => one_of status ["degraded"; "payment_pending"]))
    "provider degradation response was not typed" ;;
  expect_checkout "provider delayed dependency" "WIDGET-1" "tok_visa" "provider-delay" [("delay_ms", JNum 500)] 200 ;;
  sc_ret 0.

Definition handled_unhandled : Script Z :=
  expect_checkout "handled provider decline" "WIDGET-1" "tok_decline" "handled-decline" [] 402 ;;
  expect_checkout "provider internal error" "WIDGET-1" "tok_internal" "handled-internal" [] 502 ;;
  sc_ret 0.

Definition request_metric_shapes : Script Z :=
  sc_each (fun '(index, sku) =>
    expect_checkout ("request metrics " +:+ sku) sku "tok_visa" ("a30-" +:+ sku +:+ "-" +:+ show_Z index) [] 200)
    [(0, "WIDGET-1"); (1, "WIDGET-2"); (2, "GADGET-1"); (3, "WIDGET-1")] ;;
  sc_ret 0.

Definition delayed_checkout_burst (label legacy_prefix : string) : Script Z :=
  let b5 := String.eqb legacy_prefix "B5" in
  requests <- sc_positive (if b5 then "B5_REQUESTS" else "REQUESTS") 12 ;;
  delay_ms <- sc_positive (if b5 then "B5_DELAY_MS" else "DELAY_MS") 300 ;;
  sc_each (fun index =>
    expect_checkout (label +:+ " request " +:+ show_Z index +:+ "/" +:+ show_Z requests) "WIDGET-1" "tok_visa"
      (legacy_prefix +:+ "-delay-" +:+ show_Z index) [("delay_ms", JNum delay_ms)] 200) (up_to requests) ;;
  sc_ret 0.

(** The request id is replaced by one that the database can be asked for. *)
Definition payment_failure_latency : Script Z :=
  parallax_required <- parallax_mode ;;
  trace_id <- new_hex_id 16 ;;
  id <- sc_invocation ;;
  uuid <- new_uuid ;;
  let request_id := "payment-decline-" +:+ id +:+ "-" +:+ encode_hex uuid in
  span <- new_hex_id 8 ;;
  headers <- sc_headers (scenario_headers trace_id span "playground=payment-failure") ;;
  reply <- checkout_http "WIDGET-1" 1 "tok_decline" "payment-decline" headers [("request_id", JStr request_id)] ;;
  sc_ensure ((reply.1 =? 402) && ScenarioTraces.field_is "error" "payment_declined" reply.2)
    "handled payment decline: expected typed HTTP 402" ;;
  _ <- await (WaitPaymentFailure request_id) ;;
  (if (parallax_required : bool) then _ <- await (WaitTrace "payment_failure" trace_id) ;; sc_ret tt else sc_ret tt) ;;
  _ <- new_hex_id 8 ;;  (* printed *)
  expect_checkout "payment latency" "WIDGET-1" "tok_visa" "payment-latency" [("slow", JNum 500)] 200 ;;
  sc_ret 0.

Definition baggage_checkout : Script Z :=
  vars <- sc_vars ;;
  let tenant := default "tenant-acme" (nonempty_env vars "A10_TENANT") in
  let customer := default "customer-acme-ava" (nonempty_env vars "A10_CUSTOMER") in
  let tier := default "pro" (nonempty_env vars "A10_TIER") in
  headers <- sc_headers (put_header "baggage" (Some ("tenant.id=" +:+ tenant +:+ ",user.tier=" +:+ tier)) []) ;;
  reply <- checkout_http "WIDGET-1" 1 "tok_visa" "baggage" headers
    [("tenant_id", JStr tenant); ("customer_id", JStr customer); ("tier", JStr tier)] ;;
  sc_ensure (is_success reply.1) "A10 baggage checkout failed" ;;
  sc_ret 0.

(** ** Seeded orders *)

Definition SEEDED_ORDERS : list (string * string) := [("order-acme-1001", "tenant-acme"); ("order-nova-2001", "tenant-nova")].

Definition publish_seeded_order (base token order tenant : string) : Script json :=
  headers <- sc_headers (h ← put_header "authorization" (Some ("Bearer " +:+ token)) []; put_header "x-tenant-id" (Some tenant) h) ;;
  reply <- request_json Post (base +:+ "/publish?order=" +:+ order +:+ "&tenant=" +:+ tenant) headers None ;;
  sc_ensure (is_success reply.1) ("seeded order " +:+ order +:+ " publish failed") ;;
  sc_ret reply.2.

Definition fulfillment_token (vars : Vars) : string :=
  default "fulfillment-internal:research-secret" (vars "FULFILLMENT_INTERNAL_TOKEN").

Definition java_fulfillment_replay : Script Z :=
  base <- sc_env "FULFILLMENT_URL" "http://localhost:8093" ;;
  vars <- sc_vars ;;
  sc_each (fun '(order, tenant) =>
    _ <- publish_seeded_order base (fulfillment_token vars) order tenant ;;
    wait_for_fulfillment order tenant false) SEEDED_ORDERS ;;
  sc_ret 0.

Definition replay_seeded (base token : string) (entry : string * string) : Script unit :=
  let '(order, tenant) := entry in
  _ <- publish_seeded_order base token order tenant ;;
  first <- wait_for_fulfillment_snapshot order tenant false ;;
  _ <- publish_seeded_order base token order tenant ;;
  second <- wait_for_fulfillment_snapshot order tenant false ;;
  first_deliveries <- sc_some (jget "notification_deliveries" first ≫= as_u64)
    "first seeded replay verification omitted notification_deliveries" ;;
  second_deliveries <- sc_some (jget "notification_deliveries" second ≫= as_u64)
    "second seeded replay verification omitted notification_deliveries" ;;
  sc_ensure (second_deliveries =? first_deliveries) ("seeded replay duplicated notification delivery for " +:+ order).

Definition seeded_order_replay : Script Z :=
  base <- sc_env "FULFILLMENT_URL" "http://localhost:8093" ;;
  vars <- sc_vars ;;
  sc_each (replay_seeded base (fulfillment_token vars)) SEEDED_ORDERS ;;
  sc_ret 0.

(** ** Queries *)

Definition CATALOG_HEADERS : option headers := put_header "x-tenant-id" (Some "tenant-acme") json_headers.
Definition graphql_body (query : string) (variables : option json) : json :=
  JObj (("query", JStr query) :: match variables with Some variables => [("variables", variables)] | None => [] end).

Definition graphql_request_payload_with_proof (query : string) (variables : option json) (proof_id : option string) :
    Script (Z * json) :=
  base <- sc_env "CATALOG_URL" "http://localhost:8080" ;;
  headers <- sc_headers (h ← CATALOG_HEADERS; put_header "x-scenario-proof" proof_id h) ;;
  request_json Post (base +:+ "/graphql") headers (Some (graphql_body query variables)).

Definition quote1 : string := String "034" "".
Definition catalog_query_text (label : string) : string :=
  if String.eqb label "exemplars" then "query Exemplars { products { items { id sku name } } }"
  else "query JvmMemoryPressure { products(tenantId: " +:+ quote1 +:+ "tenant-acme" +:+ quote1 +:+ ", page: 0, size: 20, segment: " +:+
    quote1 +:+ "standard" +:+ quote1 +:+ ") { items { sku name priceMinor reviewsSlow { stars } } } }".

Definition catalog_queries (label : string) (requests : Z) : Script Z :=
  base <- sc_env "CATALOG_URL" "http://localhost:8080" ;;
  sc_each (fun _ =>
    headers <- sc_headers CATALOG_HEADERS ;;
    reply <- request_json Post (base +:+ "/graphql") headers (Some (graphql_body (catalog_query_text label) None)) ;;
    sc_ensure (is_success reply.1) (label +:+ " catalog query failed") ;;
    sc_lift (ensure_graphql_success label reply.2)) (up_to requests) ;;
  sc_ret 0.

Definition jvm_memory_pressure : Script Z :=
  _ <- catalog_queries "jvm memory pressure baseline" 1 ;;
  rounds <- sc_positive "ROUNDS" 4 ;;
  catalog_queries "jvm memory pressure workload" rounds.

(** A query of products whose answer has to be without errors *)
Definition products_query (evidence_id label query : string) : Script unit :=
  reply <- graphql_request_payload_with_proof query None (Some evidence_id) ;;
  sc_ensure (is_success reply.1) (label +:+ " failed") ;;
  sc_lift (ensure_graphql_success label reply.2).

Definition sku_byte (a : ascii) : bool := is_alphanumeric a || existsb (Ascii.eqb a) ["."; "_"; "-"]%char.

Definition graphql_shapes (scenario_name : string) : Script Z :=
  evidence_id <- sc_some (scenario_evidence_id scenario_registry scenario_name) "GraphQL scenario has no evidence ID" ;;
  let suffix := graphql_operation_suffix evidence_id in
  sc_each (fun '(label, query) => products_query evidence_id label query) [
    ("batched reviews", "query scenario_" +:+ suffix +:+ "_batched_reviews { products { items { id sku name reviews { text stars } } } }");
    ("slow reviews", "query scenario_" +:+ suffix +:+ "_slow_reviews { products { items { id sku name reviewsSlow { text stars } } } }");
    ("risk score", "query scenario_" +:+ suffix +:+ "_normal_risk { products { items { id sku name riskScore } } }")] ;;
  vars <- sc_vars ;;
  match non_blank (vars "CATALOG_SYNTHETIC_RISK_SCORE_FAILURE_SKU") with
  | Some sku =>
      sc_ensure (str_forallb sku_byte sku) "CATALOG_SYNTHETIC_RISK_SCORE_FAILURE_SKU contains unsupported characters" ;;
      reply <- graphql_request_payload_with_proof
        ("query scenario_" +:+ suffix +:+ "_partial_risk($sku: String!) { product(sku: $sku) { id sku name riskScore } }")
        (Some (JObj [("sku", JStr sku)])) (Some evidence_id) ;;
      sc_ensure (reply.1 =? 200) "partial riskScore failed" ;;
      sc_ensure (is_some_and (jget "errors" reply.2 ≫= as_array) (fun errors => negb (is_nil errors)))
        "partial riskScore omitted GraphQL errors" ;;
      sc_ensure (opt_is (pointer ["data"; "product"; "sku"] reply.2 ≫= as_str) sku) "partial riskScore omitted the expected product"
  | None =>
      products_query evidence_id "normal riskScore"
        ("query scenario_" +:+ suffix +:+ "_normal_risk_fallback { products { items { id sku name riskScore } } }")
  end ;;
  uuid <- new_uuid ;;
  products_query evidence_id "high-cardinality operation"
    ("query scenario_" +:+ suffix +:+ "_lookup_" +:+ encode_hex uuid +:+ " { products { items { id } } }") ;;
  sc_ret 0.

(** ** The storefront *)

Definition storefront_pricing_query : string :=
  "query StorefrontQuote($input: QuoteInput!) { quote(input: $input) { quoteId status lines { sku quantity unitPrice { currencyCode amountMinor } lineTotal { currencyCode amountMinor } } subtotal { currencyCode amountMinor } discountTotal { currencyCode amountMinor } taxTotal { currencyCode amountMinor } grandTotal { currencyCode amountMinor } validForSeconds pricingVersion } }".
Definition quoted (s : string) : string := quote1 +:+ s +:+ quote1.
Definition storefront_catalog_query : string :=
  "query StorefrontCatalog { products(tenantId: " +:+ quoted "tenant-acme" +:+ ", page: 0, size: 10, segment: " +:+ quoted "standard" +:+
  ") { items { sku name priceMinor category { slug name } variants { sku name price { amountMinor currency } } reviews { stars title } } page size totalElements totalPages hasNext experience } categories(tenantId: "
  +:+ quoted "tenant-acme" +:+ ") { slug name }".

Definition quote_input : json :=
  JObj [("input", JObj [("tenantId", JStr "tenant-acme"); ("customerId", JStr "customer-acme-ava"); ("currencyCode", JStr "USD");
    ("items", JArr [JObj [("sku", JStr "WIDGET-1"); ("quantity", JNum 2)]])])].

Definition storefront_answer (pricing : bool) (body : json) : bool :=
  if pricing then
    is_some_and (pointer ["data"; "quote"; "quoteId"] body ≫= as_str) (fun value => negb (is_empty value)) &&
    opt_is (pointer ["data"; "quote"; "status"] body ≫= as_str) "QUOTE_STATUS_READY" &&
    is_some_and (pointer ["data"; "quote"; "lines"] body ≫= as_array) (fun lines => (length lines =? 1)%nat) &&
    opt_is (pointer ["data"; "quote"; "grandTotal"; "currencyCode"] body ≫= as_str) "USD"
  else
    is_some_and (pointer ["data"; "products"; "items"] body ≫= as_array) (fun items => negb (is_nil items)) &&
    is_some_and (pointer ["data"; "categories"] body ≫= as_array) (fun categories => negb (is_nil categories)).

Definition storefront_graphql (kind : string) : Script Z :=
  base <- sc_env "STOREFRONT_URL" "http://localhost:8094" ;;
  let pricing := String.eqb kind "pricing" in
  parallax_required <- (if pricing then parallax_mode else sc_ret false) ;;
  trace_id <- new_hex_id 16 ;;
  span <- new_hex_id 8 ;;
  headers <- sc_headers (put_header "traceparent" (Some (scenario_traceparent trace_id span)) json_headers) ;;
  reply <- request_json Post (base +:+ "/graphql") headers (Some (JObj (
    if pricing then [("operationName", JStr "StorefrontQuote"); ("query", JStr storefront_pricing_query); ("variables", quote_input)]
    else [("operationName", JStr "StorefrontCatalog"); ("query", JStr storefront_catalog_query)]))) ;;
  sc_ensure (is_success reply.1) ("storefront " +:+ kind +:+ " request failed") ;;
  sc_ensure (no_graphql_errors reply.2) ("storefront " +:+ kind +:+ " returned GraphQL errors") ;;
  sc_ensure (storefront_answer pricing reply.2) ("storefront " +:+ kind +:+ " response did not prove its data") ;;
  (if (parallax_required : bool) then _ <- await (WaitTrace "storefront_pricing" trace_id) ;; sc_ret tt else sc_ret tt) ;;
  sc_ret 0.

(** ** Quote streams *)

Record StreamCase : Type := mkStreamCase { st_label : string; st_query : string; st_expected : Z; st_validation : string }.

Definition stream_case (base : string) (parallax_required : bool) (more : list (string * string)) (c : StreamCase) : Script unit :=
  trace_id <- new_hex_id 16 ;;
  span <- new_hex_id 8 ;;
  headers <- sc_headers (foldl (fun h '(name, value) => h ← h; put_header name (Some value) h) (Some [])
    (("traceparent", scenario_traceparent trace_id span) :: more)) ;;
  reply <- request_json Get (base +:+ "/quote-stream" +:+ st_query c) headers None ;;
  sc_ensure (reply.1 =? st_expected c) (st_label c +:+ ": expected HTTP " +:+ show_Z (st_expected c)) ;;
  sc_lift (validate_pricing_stream_response (st_label c) reply.2 (st_validation c)) ;;
  if parallax_required then _ <- await (WaitTrace ("pricing " +:+ st_validation c) trace_id) ;; sc_ret tt else sc_ret tt.

Definition stream_cases (more : list (string * string)) (cases : list StreamCase) : Script Z :=
  base <- sc_env "CHECKOUT_URL" "http://localhost:8088" ;;
  parallax_required <- parallax_mode ;;
  sc_each (stream_case base parallax_required more) cases ;;
  sc_ret 0.

Definition pricing_stream : Script Z := stream_cases [] [
  mkStreamCase "clean stream" "?tenant_id=tenant-acme&customer_id=customer-acme-ava&sku=WIDGET-1&quantity=1" 200 "clean";
  mkStreamCase "unknown product" "?tenant_id=tenant-acme&customer_id=customer-acme-ava&sku=NO-SUCH-SKU&quantity=1" 404 "unknown";
  mkStreamCase "client cancellation" "?tenant_id=tenant-acme&customer_id=customer-acme-ava&sku=WIDGET-1&quantity=1&delay_ms=1" 200 "cancelled"].

Definition protocols_grpc_stream : Script Z := stream_cases [("tracestate", "playground=grpc-stream"); ("x-scenario-proof", "p-grpc-stream")] [
  mkStreamCase "Nova multi-quantity stream"
    "?tenant_id=tenant-nova&customer_id=customer-nova-mia&sku=NOVA-PACK-20&quantity=2&request_id=p-grpc-stream-nova" 200 "clean";
  mkStreamCase "protocol stream rejection"
    "?tenant_id=tenant-nova&customer_id=customer-nova-mia&sku=NO-SUCH-NOVA-SKU&quantity=1&request_id=p-grpc-stream-rejection" 404 "unknown";
  mkStreamCase "Nova client cancellation"
    "?tenant_id=tenant-nova&customer_id=customer-nova-mia&sku=NOVA-PACK-30&quantity=1&delay_ms=1&request_id=p-grpc-stream-cancel" 200
    "cancelled"].

(** ** Malformed carriers *)

Definition notify_request (hs : headers) (event_key order_id : string) : Script (Z * json) :=
  base <- sc_env "NOTIFICATIONS_URL" "http://localhost:8091" ;;
  request_json Post (base +:+ "/notify") (header_extend json_headers hs) (Some (notify_body event_key order_id)).

Definition malformed_checkout (c : MalformedCarrier) : Script unit :=
  headers <- sc_headers (malformed_headers c) ;;
  reply <- checkout_http "WIDGET-1" 1 "tok_visa" ("malformed-" +:+ mc_id c) headers [] ;;
  sc_ensure (is_success reply.1 && ScenarioTraces.field_is "status" "paid" reply.2)
    ("malformed checkout " +:+ mc_id c +:+ " must stay paid on a detached trace").
Definition malformed_notify (c : MalformedCarrier) : Script unit :=
  uuid <- new_uuid ;;
  headers <- sc_headers (malformed_headers c) ;;
  reply <- notify_request headers ("malformed:" +:+ mc_id c +:+ ":" +:+ uuid_text uuid) "order-acme-1001" ;;
  sc_ensure (rejected_as_w3c reply) ("malformed notify " +:+ mc_id c +:+ " must be rejected as invalid W3C").

Definition malformed_propagation : Script Z :=
  sc_each malformed_checkout malformed_checkout_corpus ;;
  sc_each malformed_notify malformed_notify_corpus ;;
  control_trace_id <- new_hex_id 16 ;;
  span <- new_hex_id 8 ;;
  control <- sc_headers (h ← put_header "traceparent" (Some (scenario_traceparent control_trace_id span)) [];
    h ← put_header "tracestate" (Some "playground=malformed-proof") h;
    h ← put_header "baggage" (Some MALFORMED_VALID_BAGGAGE) h;
    put_header "x-tenant-id" (Some "tenant-acme") h) ;;
  uuid <- new_uuid ;;
  reply <- notify_request control ("malformed:control:" +:+ uuid_text uuid) "order-acme-1001" ;;
  sc_ensure (reply.1 =? 202) "valid notify control must be accepted" ;;
  span <- new_hex_id 8 ;;
  headers <- sc_headers (scenario_headers control_trace_id span "playground=malformed-proof") ;;
  reply <- checkout_http "WIDGET-1" 1 "tok_visa" "malformed-control" headers [] ;;
  sc_ensure (is_success reply.1) "malformed control checkout failed" ;;
  _ <- await (WaitTrace "checkout_span" control_trace_id) ;;
  sc_ret 0.

(** ** Pressure on the inventory *)

(** The fence of a checkout: its request id, and its lease token as the database
    has it *)
Definition create_checkout_fence (tenant : string) : Script (string * string) :=
  sc_ensure (String.eqb tenant "tenant-acme") "automatic A25 checkout-fence creation supports tenant-acme only" ;;
  uuid <- new_uuid ;;
  let request_id := "a25-fence-" +:+ uuid_text uuid in
  reply <- checkout_http "WIDGET-1" 1 "tok_visa" "a25-fence" [] [("request_id", JStr request_id)] ;;
  sc_ensure (is_success reply.1) "automatic A25 fence checkout failed" ;;
  root <- sc_root ;;
  out <- capture_program "docker" ["compose"; "-f"; compose_file root; "exec"; "-T"; "postgres"; "psql"; "-U"; "postgres"; "-d";
    "playground"; "-At"; "-c"; "SELECT lease_token FROM checkout_attempts WHERE tenant_id = 'tenant-acme' AND request_id = " +:+
    sql_literal request_id +:+ " ORDER BY created_at DESC LIMIT 1"] [] ;;
  sc_ensure (out.1 =? 0) "automatic A25 fence lookup failed" ;;
  lease_token <- (fun h s => sc_some (List.find (ho_is_uuid h) (map trim (rev (lines out.2))))
    "automatic A25 fence lookup returned no lease token" h s) ;;
  sc_ret (request_id, lease_token).

Record Fence : Type := mkFence { fn_base : string; fn_tenant : string; fn_request_id : string; fn_lease_token : string }.

Definition reserve_query (f : Fence) (reservation_id sku : string) (more : list (string * string)) : list (string * string) :=
  [("tenant_id", fn_tenant f); ("reservation_id", reservation_id); ("sku", sku); ("quantity", "1");
   ("checkout_request_id", fn_request_id f); ("checkout_lease_token", fn_lease_token f)] ++ more.

Definition trace_header (trace_id : string) (h : headers) : Script headers :=
  span <- new_hex_id 8 ;; sc_headers (put_header "traceparent" (Some (scenario_traceparent trace_id span)) h).

Definition release_inventory_reservation (f : Fence) (reservation_id sku location_id : string) : Script unit :=
  trace_id <- new_hex_id 16 ;;
  headers <- trace_header trace_id json_headers ;;
  reply <- request_json Post (fn_base f +:+ "/release") headers (Some (JObj [
    ("tenant_id", JStr (fn_tenant f)); ("reservation_id", JStr reservation_id); ("sku", JStr sku); ("quantity", JNum 1);
    ("location_id", JStr location_id); ("checkout_request_id", JStr (fn_request_id f));
    ("checkout_lease_token", JStr (fn_lease_token f))])) ;;
  sc_ensure ((reply.1 =? 200) && ScenarioTraces.field_is "status" "released" reply.2 &&
             ScenarioTraces.field_is "reservation_id" reservation_id reply.2 && ScenarioTraces.field_is "sku" sku reply.2 &&
             opt_Z_is (jget "released" reply.2 ≫= as_u64) 1) ("inventory release failed for " +:+ reservation_id).

(** What a granted reservation's answer has to show *)
Definition reservation_proved (f : Fence) (reservation_id sku : string) (body : json) : bool :=
  ScenarioTraces.field_is "tenant_id" (fn_tenant f) body && ScenarioTraces.field_is "reservation_id" reservation_id body &&
  ScenarioTraces.field_is "sku" sku body && opt_Z_is (jget "reserved" body ≫= as_u64) 1 &&
  is_some_and (jget_str "location_id" body) (fun value => negb (is_empty value)) && ScenarioTraces.field_is "status" "reserved" body.

Definition dashed (s : string) : string := str_map (fun a => if Ascii.eqb a " " then "-"%char else a) s.
Definition await_inventory (parallax_required : bool) (kind trace_id : string) : Script unit :=
  if parallax_required then _ <- await (WaitTrace kind trace_id) ;; sc_ret tt else sc_ret tt.

Definition pressure_case (f : Fence) (run_id : string) (parallax_required : bool) (c : string * string * list (string * string)) :
    Script unit :=
  let '(label, sku, more) := c in
  let reservation_id := dashed (run_id +:+ "-" +:+ label) in
  trace_id <- new_hex_id 16 ;;
  headers <- trace_header trace_id [] ;;
  url <- url_with_query (fn_base f +:+ "/reserve") (reserve_query f reservation_id sku more) ;;
  reply <- request_json Get url headers None ;;
  sc_ensure (reply.1 =? 200) (label +:+ ": expected HTTP 200") ;;
  sc_ensure (reservation_proved f reservation_id sku reply.2) (label +:+ ": response did not prove a real reservation") ;;
  location_id <- sc_some (jget_str "location_id" reply.2) "inventory reservation omitted location_id" ;;
  release_inventory_reservation f reservation_id sku location_id ;;
  await_inventory parallax_required "inventory with postgres" trace_id.

Definition PRESSURE_CASES : list (string * string * list (string * string)) := [
  ("normal", "WIDGET-1", []); ("pg_sleep 400ms", "WIDGET-2", [("slow", "400")]); ("db_n1=12", "GADGET-1", [("db_n1", "12")])].

Definition positive_float (x : spec_float) : bool := is_finite x && negb (f64_le x (S754_zero false)).
Definition pool_start_delay : Script (Script unit) :=
  vars <- sc_vars ;;
  match nonempty_env vars "A25_POOL_START_DELAY_SECONDS" with
  | Some raw =>
      seconds <- sc_some (parse_f64 raw) ("A25_POOL_START_DELAY_SECONDS must be positive: " +:+ raw) ;;
      sc_ensure (positive_float seconds) ("A25_POOL_START_DELAY_SECONDS must be positive: " +:+ raw) ;;
      sc_ret (sleep_seconds raw)
  | None => millis <- sc_positive "A25_POOL_START_DELAY_MS" 500 ;; sc_ret (sleep millis)
  end.

(** A hold: its number, reservation and trace, and the outcome of its request *)
Record Hold : Type := mkHold { hd_index : Z; hd_reservation : string; hd_trace : string; hd_outcome : result string (Z * json) }.

Definition spawn_hold (f : Fence) (run_id : string) (index : Z) : Script Hold :=
  let reservation_id := run_id +:+ "-hold-" +:+ show_Z index in
  trace_id <- new_hex_id 16 ;;
  url <- url_with_query (fn_base f +:+ "/reserve") (reserve_query f reservation_id "WIDGET-2" [("hold_ms", "4000")]) ;;
  headers <- trace_header trace_id [] ;;
  outcome <- spawn_json Get url headers None ;;
  sc_ret (mkHold index reservation_id trace_id outcome).

Fixpoint sc_map {A B} (f : A -> Script B) (l : list A) : Script (list B) :=
  match l with [] => sc_ret [] | a :: rest => b <- f a ;; bs <- sc_map f rest ;; sc_ret (b :: bs) end.

(** A hold that was granted is released; one that was refused says why. *)
Definition settle_hold (f : Fence) (hold : Hold) (reply : Z * json) : Script unit :=
  let '(status, body) := reply in
  if status =? 200 then
    match non_blank (jget_str "location_id" body) with
    | Some location_id => release_inventory_reservation f (hd_reservation hold) "WIDGET-2" location_id
    | None => sc_fail "pool hold omitted a non-empty location_id"
    end
  else if status =? 503 then
    sc_ensure (is_some_and (jget_str "error" body) (fun error => one_of error ["inventory_unavailable"; "reservation_rejected"]))
      ("hold-" +:+ show_Z (hd_index hold) +:+ ": unexpected 503 response")
  else sc_fail ("hold-" +:+ show_Z (hd_index hold) +:+ ": expected HTTP 200 or 503").

(** The first error is kept. *)
Definition or_first (kept new : option string) : option string := match kept with Some _ => kept | None => new end.

(** The holds as they are joined: the first error, and the traces of those that
    were answered *)
Fixpoint join_holds (f : Fence) (holds : list Hold) (error : option string) (traces : list (string * string)) :
    Script (option string * list (string * string)) :=
  match holds with
  | [] => sc_ret (error, traces)
  | hold :: rest =>
      match hd_outcome hold with
      | Ok reply =>
          validation <- sc_try (settle_hold f hold reply) ;;
          join_holds f rest (or_first error (match validation with Err e => Some e | Ok _ => None end))
            (traces ++ [(hd_trace hold, "hold-" +:+ show_Z (hd_index hold))])
      | Err e => join_holds f rest (or_first error (Some e)) traces
      end
  end.

Definition configured_fence (vars : Vars) : option (option (string * string)) :=
  match env_or_fallback vars "A25_CHECKOUT_REQUEST_ID" "CHECKOUT_REQUEST_ID", env_or_fallback vars "A25_CHECKOUT_LEASE_TOKEN" "CHECKOUT_LEASE_TOKEN" with
  | Some request_id, Some lease_token => Some (Some (request_id, lease_token))
  | None, None => Some None
  | _, _ => None
  end.

Definition inventory_pressure : Script Z :=
  base <- sc_env "INVENTORY_URL" "http://localhost:8089" ;;
  vars <- sc_vars ;;
  let tenant := default "tenant-acme" (nonempty_env vars "INVENTORY_TENANT_ID") in
  fence <- match configured_fence vars with
    | Some (Some fence) => sc_ret fence
    | Some None => create_checkout_fence tenant
    | None => sc_fail "set both A25_CHECKOUT_REQUEST_ID and A25_CHECKOUT_LEASE_TOKEN, or unset both for automatic fence creation"
    end ;;
  let f := mkFence base tenant fence.1 fence.2 in
  run_id <- match nonempty_env vars "A25_RUN_ID" with
    | Some run_id => sc_ret run_id
    | None => uuid <- new_uuid ;; sc_ret ("a25-" +:+ uuid_text uuid)
    end ;;
  parallax_required <- parallax_mode ;;
  sc_each (pressure_case f run_id parallax_required) PRESSURE_CASES ;;
  pause <- pool_start_delay ;;
  holds <- sc_map (spawn_hold f run_id) (up_to 10) ;;
  pause ;;
  pool_trace_id <- new_hex_id 16 ;;
  headers <- trace_header pool_trace_id [] ;;
  let pool_reservation := run_id +:+ "-pool-probe" in
  url <- url_with_query (base +:+ "/reserve") (reserve_query f pool_reservation "WIDGET-1" []) ;;
  pool <- spawn_json Get url headers None ;;
  order <- joined (length holds) ;;
  settled <- join_holds f (omap (fun i => holds !! i) order) None [] ;;
  match settled.1 with Some error => sc_fail error | None => sc_ret tt end ;;
  reply <- sc_lift pool ;;
  sc_ensure (reply.1 =? 503) "pool pressure expected HTTP 503" ;;
  sc_ensure (ScenarioTraces.field_is "error" "inventory_unavailable" reply.2 &&
             ScenarioTraces.field_is "reservation_id" pool_reservation reply.2) "pool pressure response did not prove inventory_unavailable" ;;
  sc_each (fun '(trace_id, _) => await_inventory parallax_required "inventory" trace_id) settled.2 ;;
  await_inventory parallax_required "inventory" pool_trace_id ;;
  sc_ret 0.

End ScenarioDrivers.

(** What the scenario drivers prove about the services, and where they cannot
    succeed: replays that change nothing, holds that are released, a fence that
    the inventory refuses and a query that is no GraphQL document. *)
Module ScenarioDriverOutcomes.

Import Text Propagation Schema Transactions InventoryDomain Inventory InventoryLedger InventoryApi Serde
  Telemetry Shapes ShapesOutcomes ScenarioRegistry ScenarioTraces ScenarioMalformed Fanout Selene Script ScenarioFlags
  ScenarioDrivers.

Local Open Scope script_scope.

(** ** Loops and requests *)

Lemma sc_each_ok {A} (f : A -> Script unit) l h s u s' : sc_each f l h s = (Ok u, s') ->
  forall a, In a l -> exists s1 s2, f a h s1 = (Ok tt, s2).
Proof.
  revert s. induction l as [|b l IH]; intros s; cbn [sc_each]; [by intros _ a []|].
  intros ([] & s1 & H1 & H2)%sc_bind_ok a [<-|Ha]; [by exists s, s1|]. by eapply IH.
Qed.

Lemma request_ok method url hs body h s reply s' : request_json method url hs body h s = (Ok reply, s') ->
  exists r text, ho_http h (sn_log s ++ [Http method url hs body]) = Ok r /\ rp_text r = Some text /\
    reply = (rp_status r, default (JObj [("raw", JStr text)]) (ho_parse h text)) /\ sn_log s' = sn_log s ++ [Http method url hs body].
Proof.
  unfold request_json, spawn_json, sc_bind, json_answer. cbn.
  destruct (ho_http h _) as [r|m] eqn:E; cbn; [|done]. destruct (rp_text r) as [text|] eqn:Et; cbn; [|done].
  unfold sc_ret. intros H. inversion H; subst. by exists r, text.
Qed.

Lemma headers_ok o h s hs s' : sc_headers o h s = (Ok hs, s') -> o = Some hs /\ s' = s.
Proof. unfold sc_headers, sc_some. destruct o; intros [H ->]%sc_lift_ok; [by injection H as ->|done]. Qed.

(** ** Replays *)

(** The reply of the service to a replayed order *)
Definition deliveries (body : json) : option Z := jget "notification_deliveries" body ≫= as_u64.

(** A replay scenario that succeeds has shown, for each seeded order, two
    snapshots, each taken after the order was published, that count the same
    deliveries: publishing it again has delivered nothing. *)
Theorem replays_deliver_nothing h s code s' :
  seeded_order_replay h s = (Ok code, s') ->
  forall order tenant, In (order, tenant) SEEDED_ORDERS ->
  exists n log1 log2 first second,
    ho_await h (log1 ++ [Awaited (WaitFulfillment order tenant false)]) = Ok first /\
    ho_await h (log2 ++ [Awaited (WaitFulfillment order tenant false)]) = Ok second /\
    (exists url hs r, last log1 = Some (Http Post url hs None) /\ ho_http h log1 = Ok r /\ is_success (rp_status r) = true) /\
    (exists url hs r, last log2 = Some (Http Post url hs None) /\ ho_http h log2 = Ok r /\ is_success (rp_status r) = true) /\
    deliveries first = Some n /\ deliveries second = Some n.
Proof.
  unfold seeded_order_replay. intros (base & s1 & _ & H)%sc_bind_ok. apply sc_bind_ok in H as (vars & s2 & _ & H).
  apply sc_bind_ok in H as (u & s3 & H & _). intros order tenant Hin. eapply sc_each_ok in H as (t1 & t2 & H); [|exact Hin].
  unfold replay_seeded in H.
  assert (Hpub : forall token t body t', publish_seeded_order base token order tenant h t = (Ok body, t') ->
    exists url hs r, last (sn_log t') = Some (Http Post url hs None) /\ ho_http h (sn_log t') = Ok r /\ is_success (rp_status r) = true).
  { unfold publish_seeded_order. intros token t body t' (hs & t3 & [_ ->]%headers_ok & Hp)%sc_bind_ok.
    apply sc_bind_ok in Hp as (reply & t4 & (r & text & Hr & _ & -> & Hl)%request_ok & Hp).
    apply sc_bind_ok in Hp as (u2 & t5 & [Hs ->]%sc_ensure_ok & [_ ->]%sc_ret_ok). rewrite Hl.
    exists (base +:+ "/publish?order=" +:+ order +:+ "&tenant=" +:+ tenant), hs, r. by rewrite last_snoc. }
  assert (Hwait : forall t body t', wait_for_fulfillment_snapshot order tenant false h t = (Ok body, t') ->
    ho_await h (sn_log t ++ [Awaited (WaitFulfillment order tenant false)]) = Ok body).
  { intros t body t'. unfold wait_for_fulfillment_snapshot, await. cbn. destruct (ho_await h _); intros Hw; by inversion Hw. }
  apply sc_bind_ok in H as (b1 & t3 & Hp1%Hpub & H). apply sc_bind_ok in H as (first & t4 & Hw1%Hwait & H).
  apply sc_bind_ok in H as (b2 & t5 & Hp2%Hpub & H). apply sc_bind_ok in H as (second & t6 & Hw2%Hwait & H).
  apply sc_bind_ok in H as (n1 & t7 & [H1 ->]%sc_lift_ok & H). apply sc_bind_ok in H as (n2 & t8 & [H2 ->]%sc_lift_ok & H).
  apply sc_ensure_ok in H as [Heq%Z.eqb_eq _]. subst n2.
  exists n1, (sn_log t3), (sn_log t5), first, second. unfold deliveries.
  destruct (jget "notification_deliveries" first ≫= as_u64); [|done]. destruct (jget "notification_deliveries" second ≫= as_u64); [|done].
  injection H1 as ->. injection H2 as ->. done.
Qed.

(** ** The fence of the pressure scenario *)

Definition settled_status (status : attempt_status) : bool :=
  match status with APaid | ADegraded => true | _ => false end.
(** Every attempt of a checkout request has ended with an order. *)
Definition checkout_settled (db : Db) (request : string) : Prop :=
  forall tenant a, db_attempts db !! (tenant, request) = Some a -> settled_status (at_status a) = true.

(** The inventory service grants no reservation under the fence of a checkout
    that has ended with an order. *)
Lemma settled_checkout_refused io fault now locked hs p db request :
  rq_checkout_request_id p = Some request -> checkout_settled db request ->
  (reserve_get io fault now locked hs p db).1.1 <> 200.
Proof.
  intros Hrid Hset. unfold reserve_get. destruct (resolve_http_tenant_identity _ _) as [tenant|e]; [|by destruct e].
  unfold reserve, app_result. destruct (validate_reserve _); [|done]. unfold infrastructure_reserve.
  destruct (scenario_failure _ _); [done|].
  destruct (rq_fail _); [done|].
  destruct (inv_run _ _ _ _ _) as [[[o|]|[]] db'] eqn:E; cbn; try done.
  apply run_tx_ok in E as [_ E]. unfold reserve_tx in E. cbn in E. rewrite Hrid in E. cbn in E.
  tx_inv. match goal with Hf : lock_current_checkout_fence _ _ _ _ _ = _ |- _ => apply lock_fence_ok in Hf as [-> Hf] end.
  unfold checkout_fence_current in *. destruct (db_attempts db !! _) as [row|] eqn:Ea; [|done].
  apply Hset in Ea. by destruct (at_status row), (String.eqb _ _).
Qed.

(** The requests to reserve under a fence get the answers of the inventory
    service, which finds the checkout of the fence settled. *)
Definition settled_inventory (h : Host) (request : string) : Prop :=
  forall base tenant lease reservation sku more url hs log r,
    ho_url h (base +:+ "/reserve") (reserve_query (mkFence base tenant request lease) reservation sku more) = Some url ->
    ho_http h (log ++ [Http Get url hs None]) = Ok r ->
    exists io fault now locked hs' p db, rq_checkout_request_id p = Some request /\ checkout_settled db request /\
      rp_status r = (reserve_get io fault now locked hs' p db).1.1.

Lemma pressure_case_refused f run_id parallax c h s s' : settled_inventory h (fn_request_id f) ->
  pressure_case f run_id parallax c h s <> (Ok tt, s').
Proof.
  intros Hinv. unfold pressure_case. destruct c as [[label sku] more]. intros (t & s1 & _ & H)%sc_bind_ok.
  apply sc_bind_ok in H as (hs & s2 & _ & H). apply sc_bind_ok in H as (url & s3 & Hurl & H).
  apply sc_bind_ok in H as (reply & s4 & (r & text & Hr & _ & -> & _)%request_ok & H).
  apply sc_bind_ok in H as ([] & s5 & [H200%Z.eqb_eq _]%sc_ensure_ok & _).
  unfold url_with_query in Hurl. destruct (ho_url h _ _) as [u|] eqn:Eu; [|done]. inversion Hurl; subst u.
  destruct f as [base tenant request lease]. apply (Hinv _ _ _ _ _ _ _ _ _ _ Eu) in Hr as (io & fault & now & locked & hs' & p & db & Hp & Hdb & E).
  apply (settled_checkout_refused io fault now locked hs' p db request Hp Hdb). by rewrite <- E.
Qed.

(** without a configured fence the pressure scenario makes its own from a
    checkout that has to succeed; once that checkout has ended with an order,
    the inventory service refuses its fence, and the scenario cannot succeed. *)
Theorem automatic_fence_refused h s :
  configured_fence (ho_vars h) = Some None ->
  settled_inventory h ("a25-fence-" +:+ uuid_text (ho_uuid h (sn_uuids s))) ->
  is_ok (inventory_pressure h s).1 = false.
Proof.
  intros Hconf Hinv. destruct (inventory_pressure h s) as [[code|x] s'] eqn:E; [|done]. exfalso. revert E. unfold inventory_pressure.
  intros (base & s1 & Hbase & H)%sc_bind_ok. apply sc_bind_ok in H as (vars & s2 & Hvars & H).
  assert (vars = ho_vars h /\ s2 = s) as [-> ->].
  { unfold sc_env in Hbase. apply sc_bind_ok in Hbase as (v & s0 & Hv & [_ ->]%sc_ret_ok).
    unfold sc_vars in *. inversion Hv; inversion Hvars; by subst. }
  rewrite Hconf in H. apply sc_bind_ok in H as (fence & s3 & Hfence & H).
  assert (fence.1 = "a25-fence-" +:+ uuid_text (ho_uuid h (sn_uuids s))) as Hid.
  { unfold create_checkout_fence in Hfence. apply sc_bind_ok in Hfence as (u & t1 & [_ ->]%sc_ensure_ok & Hfence).
    apply sc_bind_ok in Hfence as (uuid & t2 & Hu & Hfence). unfold new_uuid in Hu. inversion Hu; subst uuid.
    repeat (apply sc_bind_ok in Hfence as (? & ? & _ & Hfence)). by apply sc_ret_ok in Hfence as [-> _]. }
  rewrite <- Hid in Hinv. apply sc_bind_ok in H as (run_id & s4 & _ & H). apply sc_bind_ok in H as (parallax & s5 & _ & H).
  apply sc_bind_ok in H as (u & s6 & H & _). eapply sc_each_ok in H as (t1 & t2 & H); [|by left].
  by eapply pressure_case_refused in H.
Qed.

(** A stack whose checkout has paid the order of the fence *)
Module FenceDemo.
Definition request : string := "a25-fence-00000000-0000-0000-0000-000000000000".
Definition paid_attempt : AttemptRow :=
  mkAttempt "fp" APaid "lease-1" None (Some "order-1") None None None None 0.
Definition db : Db := set_attempts {[ ("tenant-acme", request) := paid_attempt ]} InventoryApi.Demo.db0.
Definition query : ReserveQuery :=
  mkReserveQuery "tenant-acme" "a25-normal" "WIDGET-1" 1 0 0 0 false (Some request) (Some "lease-1").
Definition answer : Z := (reserve_get (fun _ => None) None 10 InventoryApi.Demo.free [] query db).1.1.
Definition stack : Host :=
  mkHost (fun _ => None) "inv" (fun _ => repeat 0 16)
    (fun log => match last log with
                | Some (Http Get _ _ _) => Ok (mkReply answer (Some "{}"))
                | _ => Ok (mkReply 200 (Some "{}"))
                end)
    (fun _ => Ok (0, "lease-1")) (fun _ => Ok tt) (fun _ => Ok JNull) (fun _ l => l) "/repo" (fun url _ => Some url)
    (fun _ => true) (fun _ => Some (JObj [])) (fun _ => "{}").
Definition start : Scene := mkScene [] (fun _ => None) 0.
End FenceDemo.

(** The checkout of the fence succeeds and its lease is found; the first
    reservation is answered with a conflict. *)
Lemma automatic_fence_refused_witness :
  FenceDemo.answer = 409 /\
  (inventory_pressure FenceDemo.stack FenceDemo.start).1 = Err (Failed "normal: expected HTTP 200") /\
  is_ok (inventory_pressure FenceDemo.stack FenceDemo.start).1 = false.
Proof.
  split; [vm_compute; reflexivity|]. split; [vm_compute; reflexivity|].
  apply (automatic_fence_refused FenceDemo.stack FenceDemo.start); [vm_compute; reflexivity|].
  intros base tenant lease reservation sku more url hs log r _ Hr. unfold FenceDemo.stack in Hr. cbn [ho_http] in Hr.
  rewrite last_snoc in Hr. injection Hr as <-.
  exists (fun _ => None), None, 10, InventoryApi.Demo.free, [], FenceDemo.query, FenceDemo.db.
  split; [vm_compute; reflexivity|]. split; [|reflexivity].
  intros t a [_ ->]%InventoryApi.Demo.single. reflexivity.
Defined.

(** ** The holds of the pressure scenario *)

Lemma hex_header_text s : str_forallb is_hexdigit s = true -> header_text s = true.
Proof.
  apply str_forallb_impl. intros a. unfold is_hexdigit, hex_digit, header_byte.
  repeat case_match; try done; intros _; apply orb_true_iff; right; apply andb_true_iff;
    (split; [apply N.leb_le|apply negb_true_iff, N.eqb_neq]; bool_inv; repeat match goal with H : (_ <=? _)%N = true |- _ => apply N.leb_le in H end; lia).
Qed.
Lemma header_text_join s t : header_text s = true -> header_text t = true -> header_text (s +:+ t) = true.
Proof. unfold header_text. induction s as [|a s IH]; [done|]. rewrite str_append_cons. cbn. intros [-> H]%andb_prop Ht. by apply IH. Qed.
Lemma hex_id_text uuid n : Forall is_byte uuid -> header_text (hex_id uuid n) = true.
Proof. intros H. rewrite hex_id_take. apply hex_header_text, hex_is_hex, Forall_take, H. Qed.

(** The UUIDs are made of bytes. *)
Definition byte_ids (h : Host) : Prop := forall n, Forall is_byte (ho_uuid h n).

Lemma new_hex_id_run n h s :
  new_hex_id n h s = (Ok (hex_id (ho_uuid h (sn_uuids s)) n), mkScene (sn_log s) (sn_files s) (S (sn_uuids s))).
Proof. reflexivity. Qed.

(** A trace header parses, whatever identities are drawn. *)
Lemma trace_header_made trace hs h s : byte_ids h -> header_text trace = true ->
  exists hs', trace_header trace hs h s = (Ok hs', mkScene (sn_log s) (sn_files s) (S (sn_uuids s))).
Proof.
  intros Hid Ht. unfold trace_header, sc_bind at 1. rewrite new_hex_id_run. unfold sc_headers, sc_some, put_header.
  assert (header_text (scenario_traceparent trace (hex_id (ho_uuid h (sn_uuids s)) 8)) = true) as ->; [|by eexists].
  unfold scenario_traceparent, traceparent_of. repeat apply header_text_join; try done. by apply hex_id_text.
Qed.

(** A release is sent, and ends in an answer or an error. *)
Lemma release_sent f reservation sku location h s : byte_ids h ->
  exists r s' hs body, release_inventory_reservation f reservation sku location h s = (r, s') /\ r <> Err Panicked /\
    sn_log s' = sn_log s ++ [Http Post (fn_base f +:+ "/release") hs (Some body)] /\
    jget_str "reservation_id" body = Some reservation /\ jget_str "location_id" body = Some location.
Proof.
  intros Hid. unfold release_inventory_reservation. unfold sc_bind at 1. rewrite new_hex_id_run.
  destruct (trace_header_made (hex_id (ho_uuid h (sn_uuids s)) 16) json_headers h
    (mkScene (sn_log s) (sn_files s) (S (sn_uuids s))) Hid (hex_id_text _ _ (Hid _))) as [hs E].
  unfold sc_bind at 1. rewrite E. unfold sc_bind, request_json, spawn_json, sc_bind. cbn.
  do 4 eexists. split; [apply surjective_pairing|]. destruct (json_answer _ _ _) as [reply|m]; cbn; [|done].
  unfold sc_ensure. by destruct (_ && _).
Qed.

(** What a hold was granted, and that its release has been sent *)
Definition granted (hold : Hold) : option string :=
  match hd_outcome hold with
  | Ok (status, body) => if status =? 200 then non_blank (jget_str "location_id" body) else None
  | Err _ => None
  end.
Definition release_in (f : Fence) (hold : Hold) (location : string) (log : list Action) : Prop :=
  exists hs body, In (Http Post (fn_base f +:+ "/release") hs (Some body)) log /\
    jget_str "reservation_id" body = Some (hd_reservation hold) /\ jget_str "location_id" body = Some location.
Definition answered_trace (hold : Hold) : option (string * string) :=
  match hd_outcome hold with Ok _ => Some (hd_trace hold, "hold-" +:+ show_Z (hd_index hold)) | Err _ => None end.

Lemma settle_hold_run f hold reply h s : byte_ids h -> hd_outcome hold = Ok reply ->
  exists r s', sc_try (settle_hold f hold reply) h s = (Ok r, s') /\ sn_log s `prefix_of` sn_log s' /\
    (forall location, granted hold = Some location -> release_in f hold location (sn_log s')).
Proof.
  intros Hid Ho. unfold granted, sc_try, settle_hold. rewrite Ho. destruct reply as [status body].
  destruct (status =? 200).
  - destruct (non_blank _) as [location|]; [|by do 2 eexists].
    destruct (release_sent f (hd_reservation hold) "WIDGET-2" location h s Hid) as (r & s' & hs & b & -> & Hr & Hl & Hb1 & Hb2).
    exists (match r with Ok u => Ok u | Err (Failed m) => Err m | Err Panicked => Err "" end), s'. rewrite Hl.
    split; [by destruct r as [|[]]|]. split; [by apply prefix_app_r|]. intros l [= <-].
    exists hs, b. rewrite in_app_iff. naive_solver.
  - destruct (status =? 503); [unfold sc_ensure; destruct (is_some_and _ _)|]; by do 2 eexists.
Qed.

Lemma release_in_prefix f hold location log log' :
  log `prefix_of` log' -> release_in f hold location log -> release_in f hold location log'.
Proof. intros [more ->] (hs & body & Hin & Hb). exists hs, body. rewrite in_app_iff. tauto. Qed.

(** C39: joining the holds never stops early: whatever was answered, and even when
    an earlier hold or release failed, every hold that was granted units has its
    release sent for its own reservation and location, every answered hold's
    trace is kept in order, and no error is reported only if every hold was
    answered. *)
Theorem granted_holds_released f h holds error traces s : byte_ids h ->
  exists error' s', join_holds f holds error traces h s = (Ok (error', traces ++ omap answered_trace holds), s') /\
    sn_log s `prefix_of` sn_log s' /\
    Forall (fun hold => forall location, granted hold = Some location -> release_in f hold location (sn_log s')) holds /\
    (error' = None -> error = None /\ Forall (fun hold => is_ok (hd_outcome hold) = true) holds).
Proof.
  intros Hid. revert error traces s. induction holds as [|hold holds IH]; intros error traces s.
  { exists error, s. cbn. by rewrite app_nil_r. }
  cbn [join_holds omap list_omap]. unfold answered_trace at 1. destruct (hd_outcome hold) as [reply|e] eqn:Eo.
  - destruct (settle_hold_run f hold reply h s Hid Eo) as (r & s1 & E & Hp & Hg). unfold sc_bind. rewrite E.
    edestruct (IH (or_first error (match r with Err e => Some e | Ok _ => None end))) as (error' & s' & -> & Hp' & Hall & Hnone).
    exists error', s'. rewrite <- app_assoc. split; [done|]. split; [by etransitivity|]. split.
    + constructor; [|done]. intros location Hl. by eapply release_in_prefix, Hg.
    + intros [Hor Hok]%Hnone. split; [by destruct error|]. constructor; [by rewrite Eo|done].
  - edestruct (IH (or_first error (Some e)) traces s) as (error' & s' & -> & Hp & Hall & Hnone).
    exists error', s'. split; [done|]. split; [done|]. split.
    + constructor; [|done]. unfold granted. by rewrite Eo.
    + intros [Hor _]%Hnone. by destruct error.
Qed.

(** Two holds, of which the first one's release is not confirmed: both are released. *)
Lemma granted_holds_released_witness :
  let hold index := mkHold index ("run-hold-" +:+ show_Z index) "t" (Ok (200, JObj [("location_id", JStr "loc-1")])) in
  let f := mkFence "http://inventory" "tenant-acme" "req-1" "lease-1" in
  let joined := join_holds f [hold 1; hold 2] None [] FenceDemo.stack FenceDemo.start in
  is_ok (settle_hold f (hold 1) (200, JObj [("location_id", JStr "loc-1")]) FenceDemo.stack FenceDemo.start).1 = false /\
  release_in f (hold 1) "loc-1" (sn_log joined.2) /\ release_in f (hold 2) "loc-1" (sn_log joined.2).
Proof.
  intros hold f joined. split; [vm_compute; reflexivity|].
  assert (Hid : byte_ids FenceDemo.stack) by (intros n; cbn; repeat constructor; discriminate).
  destruct (granted_holds_released f FenceDemo.stack [hold 1; hold 2] None [] FenceDemo.start Hid) as (e & s' & E & _ & H & _).
  unfold joined. rewrite E. apply Forall_cons in H as [H1 H]. apply Forall_cons in H as [H2 _].
  split; [apply H1|apply H2]; vm_compute; reflexivity.
Defined.

(** ** The queries of the storefront *)

Fixpoint occurrences (c : ascii) (s : string) : nat :=
  match s with
  | "" => O
  | String a rest => ((if Ascii.eqb a c then 1 else 0) + occurrences c rest)%nat
  end.

(** The pricing query closes every selection it opens; the catalog query leaves
    one open, and is no GraphQL document. *)
Lemma catalog_query_unclosed :
  occurrences "{" storefront_pricing_query = occurrences "}" storefront_pricing_query /\
  occurrences "{" storefront_catalog_query = S (occurrences "}" storefront_catalog_query).
Proof. split; vm_compute; reflexivity. Qed.

(** A stack on which a second publication delivers nothing *)
Definition replay_stack : Host :=
  mkHost (fun _ => None) "inv" (fun _ => repeat 0 16) (fun _ => Ok (mkReply 202 (Some "{}"))) (fun _ => Ok (0, ""))
    (fun _ => Ok tt) (fun _ => Ok (JObj [("notification_deliveries", JNum 1)])) (fun _ l => l) "/repo" (fun url _ => Some url)
    (fun _ => true) (fun _ => Some (JObj [])) (fun _ => "{}").

Lemma replays_deliver_nothing_witness :
  exists n first, ho_await replay_stack first = Ok (JObj [("notification_deliveries", JNum n)]) /\
    deliveries (JObj [("notification_deliveries", JNum n)]) = Some n.
Proof.
  destruct (replays_deliver_nothing replay_stack FenceDemo.start 0 (seeded_order_replay replay_stack FenceDemo.start).2
    ltac:(vm_compute; reflexivity) "order-nova-2001" "tenant-nova" ltac:(right; left; reflexivity))
    as (n & log1 & log2 & first & second & H1 & _ & _ & _ & Hn & _).
  exists 1, (log1 ++ [Awaited (WaitFulfillment "order-nova-2001" "tenant-nova" false)]). split; [|reflexivity].
  rewrite H1. injection H1 as <-. reflexivity.
Defined.

End ScenarioDriverOutcomes.
